(* ===== verification/_CoqProject ===== *)
-Q . S2P
Prelude.v
GoStd.v
GoJson.v
GoText.v
PgRetry.v
Programs.v
WfTypes.v
WfTask.v
WfPlan.v
WfRun.v
Samples.v
WfTaskProps.v
WfPlanProps.v
WfRunProps.v
WfDigest.v
WfDb.v
WfStore.v
WfStoreLemmas.v
WfStoreTx.v
WfReplay.v
WfCodec.v
WfInvariants.v
WfGuarantees.v
WfHistory.v
WfRefine.v
RtLedger.v
RtHistory.v
RtFencing.v
RtIdempotency.v
RtReconciler.v
RtRounds.v
RtStages.v
CtMessages.v
CtCommon.v
CtPlanning.v
CtGraph.v
CtPlanningProps.v
CtImplementation.v
CtReview.v
CtImplementationProps.v
CtRejections.v
CtSamples.v
Interleave.v
ExRequest.v
ExCandidate.v
ExService.v
ExInvariants.v
ExProps.v
VfEvidence.v
VfCatalogProps.v
VfService.v
VfInvariants.v
VfProps.v
BetaPolicy.v
RtBuilder.v
RtBuilderProps.v
RtBindings.v
RtBindingProps.v
CaIntake.v
CaIntakeProps.v
Manifest.v
GwLedger.v
GwService.v
GwInvariants.v
GwProps.v
Approval.v
ApService.v
ApInvariants.v
ApProps.v
RvService.v
RvProps.v
PbRequest.v
PbService.v
PbInvariants.v
PbProps.v
CaSupport.v
CaServer.v
CaServerProps.v
CaApproval.v
CaSamples.v
