(* ===== verification/Prelude.v ===== *)
(** * The agent harness: a verification library

    The program under [src/go] drives software changes made by language models
    through a fixed sequence of gates: a run has a specification and a graph of
    tasks that humans approve; each task is leased, reasoned about, executed
    into a candidate commit, verified by trusted checks, reviewed and approved;
    the run is then executed, verified, reviewed and approved as a whole and
    published.  All authority sits in this program, none in a model.  The
    library translates its core into executable definitions and proves what
    makes it correct.

    ** How the program is put together, and where it is modelled

    - Foundations.  [Prelude] has errors ([fmt.Errorf] chains as values of
      [error]), the monads [res] and [tx], lists and maps.  [GoStd], [GoJson]
      and [GoText] are the parts of Go and PostgreSQL the code relies on: times
      and their texts, strings, paths, regular expressions, [encoding/json],
      UTF-8, columns; what is not under [src/] (SHA-256, UUIDs, URL authorities,
      the time zone, map order) is the class [Platform] of [GoStd], its
      documented behaviour [PlatformLaws], and [sample_platform] a concrete
      instance.
    - Transactions ([internal/postgres/retry.go]): [PgRetry], the classification
      of conflicts and the bounded retry loop.
    - Workflow ([internal/workflow]): [WfTypes] (types.go), [WfTask] and
      [WfPlan] (task.go), [WfRun] (run.go, run_completion.go), [WfDigest],
      [WfDb] and [WfStore] (store.go, query.go).  A run and a task
      are records with a state, a revision and the evidence bound so far;
      [Run_Apply] and [Task_Apply] are the two state machines.  The store is a
      value of [db], one list of rows per table; [ExecuteRun] and [ExecuteTask]
      are the whole transactions: reservation of the command, replay, load,
      apply, update, successors, events, result; a [weather] per attempt says
      whether it fails, loses its answer or runs after another transaction.
    - Runtime ([internal/runtime/ledger.go], [internal/orchestration]):
      [RtLedger] (stage jobs under fencing tokens, idempotency reservations) and
      [RtReconciler] (stage order, derived identifiers, backoff, one round).
    - Contracts ([internal/reasoning/contracts]): [CtMessages] (the messages as
      the getters show them), [CtCommon], [CtPlanning] (specification.go and
      planning.go), [CtImplementation], [CtReview]: what a model may be
      asked and what of its answer is accepted.
    - Policy and requests: [BetaPolicy] (internal/beta/policy.go), what a
      repository lets the models read and write; [RtBuilder]
      (internal/runtime/builder.go), how the requests for the models are built
      from a snapshot of the repository and how specifications and task graphs
      are checked and stored for approval.
    - Intake and approval of the task graph: [RtBindings]
      (internal/runtime/bindings.go), what a run and a task are bound to and the
      checkpoints of their artifacts; [CaIntake] (internal/controlapi/intake.go
      and task_graph.go), the two transactions that take a run in and that
      approve a task graph, each with all it writes.
    - The control API (internal/controlapi/server.go, support.go): [CaServer],
      configuration, authentication, every route with its guards and what it
      asks of the services, the reservation of a mutation; [CaSupport], what a
      support bundle shows of the reasoning.  A handler calls the services
      through Go interfaces: it is a program of [Programs], which calls a method
      and goes on with any answer; the goroutine that renews the reservation of
      a mutation makes its calls between those of the handler, at arbitrary
      times.
    - Services over a ledger and the workflow store.  [Interleave] has one
      statement and what its caller learns of it (answered, refused, answer
      lost), the statements on one keyed table with the lemmas on how its rows
      evolve, the columns that hold JSON, and the world of any
      number of calls, each a small machine, whose steps interleave with each
      other and with any other use of the workflow, with the induction
      principle and the scripts that all services share.  Approval
      ([internal/approval]): [Approval], [ApService].  Verification
      ([internal/verification]): [VfEvidence], [VfService].
      Execution ([internal/execution]): [ExRequest] (what is asked and the
      checks before anything is applied), [ExCandidate] (the candidate commit
      and its verification), [ExService].  The reasoning gateway ([internal/reasoning/gateway]): [Manifest] (the policy of agent
      manifests, internal/manifest), [GwLedger] (invocations and their table),
      [GwService] (both services, from the request to the recorded outcome).
      Review ([internal/review]): [RvService], which has no ledger.
      Publication ([internal/publication]): [PbRequest] (validation, evidence,
      rendering, what git and GitHub answer), [PbService] (the ledger with its
      checkpoints and the service).  [CtSamples]
      has the concrete requests and the task that their samples share.

    Files that end in [Props], [History], [Invariants], [Guarantees] and the
    like hold the proofs about the component of their prefix; concrete histories,
    evaluated, and the witnesses are in those that end in [Samples] or at the
    end of the [Props].

    ** What the theorems show

    - The workflow: every execution of a command that the store carries out,
      with conflicts, retries, lost answers and interleaved transactions, is one
      step of the abstract state machine on the aggregate as it was stored when
      the last attempt began ([WfRefine]); a command takes effect at most once and is replayed with the
      same result ([WfReplay]); invariants, gates, human authority, complete
      histories, cancelled runs, dependencies that never deadlock ([WfTaskProps],
      [WfRunProps], [WfPlanProps], [WfInvariants], [WfGuarantees], [WfHistory]);
      rows round trip ([WfCodec]).
    - The runtime ledger: a claim is settled once, settled jobs are final,
      stages complete in order, failures are bounded, requests are answered once
      ([RtFencing], [RtIdempotency], [RtStages], [RtRounds]).
    - The contracts: exactly which proposals and requests are accepted, and that
      every refusal carries a code ([CtPlanningProps], [CtGraph],
      [CtImplementationProps], [CtRejections]).
    - Policy and requests: what lies within the scope of a task that is stored
      for approval lies within the policy, and a model is shown exactly the
      readable files of the snapshot ([BetaPolicy], [RtBuilderProps]).
    - Intake: a binding is never changed once recorded ([RtBindingProps]); an
      intake and an approval of a task graph take effect as a whole or not at
      all, and a request that was answered keeps its answer ([CaIntakeProps]).
    - The control API: whatever the services answer, every call is one that the
      roles of the authenticated principal permit, every mutation but the intake
      settles the reservation it begins with, whatever renewals come in between,
      and what is asked passes the validation of the other components
      ([CaServerProps]); the approval of a run can be repeated until the run is
      MERGE_READY ([CaApproval]); the route that cancels a run never does
      ([CaServerProps]).
    - The services: one decision per approval, one outcome per execution and
      per verification,
      the workflow is touched only to carry out what is already durable, the
      same command is sent however often a request is repeated, interrupted and
      abandoned work is taken up again or provably is not ([ApProps], [VfProps],
      [ExProps]); an execution applies exactly the changes that pass the
      preflight and records a candidate that differs from its base in exactly
      those ([ExProps]); a provider is asked by one call at a time, every
      recorded answer is one that the contract accepts or a rejection with a
      code, and a call that fails frees its request ([GwInvariants], [GwProps]);
      a review is recorded for a candidate whose evidence is that of the stored
      reports, and repeating it conflicts ([RvProps]); a publication has one
      draft pull request, of a candidate whose evidence is approved, and resumes
      from whatever checkpoint it reached ([PbInvariants], [PbProps]).  What
      these theorems say of artifacts, git and GitHub is said of the answers
      that the calls met: the theorems are about any predicate [possible] that
      held of the surroundings of every entry and every step of the history.

    ** Conventions

    Machine integers are [Z] with their wrap-around or column bounds written
    out; durations are nanoseconds, columns microseconds.  Identifiers quoted in
    error texts are left out of the texts.  A function whose recursion is not
    structural takes fuel that is computed from its input, and a theorem shows
    that it is enough ([task_graph_search_exact], [planning_accepts_exactly],
    [retries_end]).  Contexts appear as an optional error where a call waits or
    starts an attempt.

    ** Not modelled

    Pure input and output: the decoding of HTTP bodies, provider clients, git,
    containers, file stores, configuration files, start-up.  Where modelled code
    calls them they are arguments of the call.  Concurrency inside one call
    (heartbeat and drain goroutines, timers) appears only as what it can do to
    the shared state or, for the renewal of a mutation, as the calls it makes.  Logging is left out. *)

From stdpp Require Export base gmap list strings sorting relations.
From Stdlib Require Export Ascii ZArith Lia.

#[global] Open Scope string_scope.
#[global] Open Scope list_scope.
#[global] Open Scope Z_scope.

(** ** Go errors

    A Go error value is a chain of wrapped values.  [errors.New] values that
    the code keeps in package variables are identified by their package
    qualified name; [fmt.Errorf] with one [%w] verb wraps a value and adds a
    message; with no [%w] verb the cause is lost; a PostgreSQL driver error
    carries its SQLSTATE; a policy rejection of the reasoning contracts carries
    a code and the field it is about; [errors.Join] keeps two errors. *)

Inductive error :=
| ErrNew (name : string)
| ErrWrap (inner : error) (msg : string)
| ErrText (msg : string)
| ErrPg (sqlstate : string)
| ErrRejected (code : Z) (field message : string)
| ErrJoin (first second : error).

#[global] Instance error_eq_dec : EqDecision error.
Proof. solve_decision. Defined.

(** [errors.Is]: the target is met somewhere along the chain. *)
Fixpoint errors_Is (e target : error) : bool :=
  bool_decide (e = target) ||
  match e with
  | ErrWrap inner _ => errors_Is inner target
  | ErrJoin first second => errors_Is first target || errors_Is second target
  | _ => false
  end.

(** [errors.As] for the interface [SQLState() string]. *)
Fixpoint errors_As_SQLState (e : error) : option string :=
  match e with
  | ErrPg code => Some code
  | ErrWrap inner _ => errors_As_SQLState inner
  | ErrJoin first second =>
      match errors_As_SQLState first with
      | Some code => Some code
      | None => errors_As_SQLState second
      end
  | _ => None
  end.

(** A Go call that returns [(T, error)]: the zero value that accompanies a
    non-nil error is never looked at, so the two cases are a sum. *)
Inductive res (A : Type) :=
| Ok (a : A)
| Err (e : error).
Arguments Ok {A} a.
Arguments Err {A} e.

#[global] Instance res_eq_dec `{EqDecision A} : EqDecision (res A).
Proof. solve_decision. Defined.

#[global] Instance res_ret : MRet res := fun A a => Ok a.
#[global] Instance res_bind : MBind res := fun A B f m =>
  match m with Ok a => f a | Err e => Err e end.
#[global] Instance res_fmap : FMap res := fun A B f m =>
  match m with Ok a => Ok (f a) | Err e => Err e end.

Definition is_Ok {A} (r : res A) : bool :=
  match r with Ok _ => true | Err _ => false end.

(** The error is kept, wrapped by [f]: [if err != nil { return f(err) }]. *)
Definition map_err {A} (f : error -> error) (r : res A) : res A :=
  match r with Ok a => Ok a | Err e => Err (f e) end.

(** A loop over a slice that returns at the first error. *)
Fixpoint for_each {A} (f : A -> res unit) (l : list A) : res unit :=
  match l with
  | [] => Ok tt
  | a :: l' => f a ;; for_each f l'
  end.

(** A loop over a slice that appends one element per iteration and returns at
    the first error. *)
Fixpoint map_each {A B} (f : A -> res B) (l : list A) : res (list B) :=
  match l with
  | [] => Ok []
  | a :: l' => b ← f a; bs ← map_each f l'; Ok (b :: bs)
  end.

(** ** State passing with errors

    A database transaction or a critical section: it reads and writes the
    state [S]; an error discards the writes (rollback). *)

Definition tx (S A : Type) : Type := S -> res (A * S).

#[global] Instance tx_ret {S} : MRet (tx S) := fun A a s => Ok (a, s).
#[global] Instance tx_bind {S} : MBind (tx S) := fun A B f m s =>
  match m s with Ok (a, s') => f a s' | Err e => Err e end.

Definition tx_lift {S A} (r : res A) : tx S A := fun s =>
  match r with Ok a => Ok (a, s) | Err e => Err e end.
Definition tx_get {S} : tx S S := fun s => Ok (s, s).
Definition tx_put {S} (s' : S) : tx S unit := fun _ => Ok (tt, s').
Definition tx_err {S A} (e : error) : tx S A := fun _ => Err e.

Fixpoint tx_each {S A} (f : A -> tx S unit) (l : list A) : tx S unit :=
  match l with
  | [] => mret tt
  | a :: l' => f a ;; tx_each f l'
  end.

(** Commit on success, rollback on error. *)
Definition run_tx {S A} (m : tx S A) (s : S) : res A * S :=
  match m s with
  | Ok (a, s') => (Ok a, s')
  | Err e => (Err e, s)
  end.

(** ** Fixed-width unsigned integers *)

Definition u32 (z : Z) : Z := z `mod` 2 ^ 32.
Definition u64 (z : Z) : Z := z `mod` 2 ^ 64.
Definition max_u32 : Z := 2 ^ 32 - 1.
Definition max_i32 : Z := 2 ^ 31 - 1.
Definition max_i64 : Z := 2 ^ 63 - 1.

Declare Scope go_scope.
Delimit Scope go_scope with go.
(** Go's [==] and [!=] on comparable values. *)
Notation "x == y" := (bool_decide (x = y)) (at level 70) : go_scope.
Notation "x != y" := (negb (bool_decide (x = y))) (at level 70) : go_scope.
#[global] Open Scope go_scope.

(** ** Lemmas *)

Lemma res_bind_Ok {A B} (m : res A) (f : A -> res B) b :
  m ≫= f = Ok b <-> exists a, m = Ok a /\ f a = Ok b.
Proof.
  destruct m as [a|e]; simpl; split.
  - intros H. eexists. split; [done|exact H].
  - intros (a' & [= ->] & H). exact H.
  - intros [=].
  - intros (a' & [=] & _).
Qed.

Lemma tx_bind_Ok {S A B} (m : tx S A) (f : A -> tx S B) s b s2 :
  (m ≫= f) s = Ok (b, s2) <-> exists a s1, m s = Ok (a, s1) /\ f a s1 = Ok (b, s2).
Proof.
  unfold mbind, tx_bind. destruct (m s) as [[a s1]|e]; split.
  - intros H. eexists _, _. split; [done|exact H].
  - intros (a' & s1' & [= -> ->] & H). exact H.
  - intros [=].
  - intros (a' & s1' & [=] & _).
Qed.

Lemma tx_lift_Ok {S A} (r : res A) (s : S) a s1 :
  tx_lift r s = Ok (a, s1) <-> r = Ok a /\ s1 = s.
Proof. unfold tx_lift. destruct r; naive_solver. Qed.

Lemma tx_lift_bind_Ok {S A B} (r : res A) (f : A -> tx S B) (s : S) b :
  (tx_lift r ≫= f) s = Ok b <-> exists a, r = Ok a /\ f a s = Ok b.
Proof. unfold mbind, tx_bind, tx_lift. destruct r; naive_solver. Qed.

Lemma errors_Is_refl e : errors_Is e e = true.
Proof. destruct e; simpl; rewrite bool_decide_true; done. Qed.

Lemma errors_Is_wrap e t msg :
  errors_Is e t = true -> errors_Is (ErrWrap e msg) t = true.
Proof. intros H. simpl. rewrite H. apply orb_true_r. Qed.

Lemma for_each_Ok {A} (f : A -> res unit) l :
  for_each f l = Ok tt <-> Forall (fun a => f a = Ok tt) l.
Proof.
  induction l as [|a l IH]; simpl; [naive_solver|].
  rewrite Forall_cons, <- IH. destruct (f a) as [[]|e]; naive_solver.
Qed.

Lemma map_each_Ok {A B} (f : A -> res B) l bs :
  map_each f l = Ok bs <-> Forall2 (fun a b => f a = Ok b) l bs.
Proof.
  revert bs. induction l as [|a l IH]; intros bs; simpl.
  - split; [intros [= <-]; constructor|by intros ->%Forall2_nil_inv_l].
  - rewrite res_bind_Ok. split.
    + intros (b & Hb & (bs' & Hbs & [= <-])%res_bind_Ok).
      constructor; [done|]. by apply IH.
    + intros (b & bs' & Hb & Hbs & ->)%Forall2_cons_inv_l.
      exists b. split; [done|]. apply res_bind_Ok. exists bs'.
      split; [by apply IH|done].
Qed.

Lemma run_tx_err {S A} (m : tx S A) s e s' :
  run_tx m s = (Err e, s') -> s' = s.
Proof. unfold run_tx. destruct (m s) as [[]|]; naive_solver. Qed.

Lemma run_tx_ok {S A} (m : tx S A) s a s' :
  run_tx m s = (Ok a, s') <-> m s = Ok (a, s').
Proof. unfold run_tx. destruct (m s) as [[]|]; naive_solver. Qed.

Lemma u32_id z : 0 <= z <= max_u32 -> u32 z = z.
Proof. unfold u32, max_u32. intros. apply Z.mod_small. lia. Qed.

Lemma u64_id z : 0 <= z < 2 ^ 64 -> u64 z = z.
Proof. unfold u64. intros. apply Z.mod_small. lia. Qed.

Lemma bool_decide_neq {A} `{EqDecision A} (x y : A) :
  negb (bool_decide (x = y)) = true <-> x <> y.
Proof. rewrite negb_true_iff, bool_decide_eq_false. done. Qed.

Lemma Forall2_in_l {A B} (P : A -> B -> Prop) l k x :
  Forall2 P l k -> x ∈ l -> exists y, y ∈ k /\ P x y.
Proof.
  induction 1 as [|a b l k Hab _ IH]; intros Hx; [by apply elem_of_nil in Hx|].
  apply elem_of_cons in Hx as [->|Hx].
  - exists b. split; [by apply elem_of_cons; left|done].
  - destruct (IH Hx) as (y & Hy & HP). exists y. split; [by apply elem_of_cons; right|done].
Qed.

Lemma Forall2_in_r {A B} (P : A -> B -> Prop) l k y :
  Forall2 P l k -> y ∈ k -> exists x, x ∈ l /\ P x y.
Proof.
  intros HF Hy. apply Forall2_flip in HF. destruct (Forall2_in_l _ _ _ _ HF Hy) as (x & ? & ?).
  eauto.
Qed.

(** ** Automation *)

Create HintDb harness.
#[export] Hint Resolve errors_Is_refl errors_Is_wrap : harness.

(** Open existentials and conjunctions of the context. *)
Ltac open_hyps :=
  repeat match goal with
  | H : exists _, _ |- _ => destruct H
  | H : _ /\ _ |- _ => destruct H
  | H : (_, _) = (_, _) |- _ => injection H as ?; subst
  | H : Ok _ = Ok _ |- _ => injection H as ?; subst
  | H : Some _ = Some _ |- _ => injection H as ?; subst
  | H : Err _ = Err _ |- _ => injection H as ?; subst
  | H : Ok _ = Err _ |- _ => discriminate H
  | H : Err _ = Ok _ |- _ => discriminate H
  | u : unit |- _ => destruct u
  end.

(** One step of following a successful run of a function: a bind is opened, a
    rejected condition is discharged. *)
Ltac go_step H :=
  lazymatch type of H with
  | mbind _ _ = Ok _ => apply res_bind_Ok in H; destruct H as (? & ? & H)
  | mbind _ _ _ = Ok _ => apply tx_bind_Ok in H; destruct H as (? & ? & ? & H)
  | (if ?c then _ else _) = Ok _ =>
      let E := fresh "Hc" in destruct c eqn:E; try discriminate H
  | (if ?c then _ else _) _ = Ok _ =>
      let E := fresh "Hc" in destruct c eqn:E; try discriminate H
  | match ?c with _ => _ end = Ok _ =>
      let E := fresh "Hm" in destruct c eqn:E; try discriminate H
  end.

Ltac go_run H := repeat (go_step H; open_hyps).
