(* ===== verification/GoStd.v ===== *)
(** * The parts of Go and PostgreSQL the program uses, and what is not its own *)

From S2P Require Import Prelude.

(** * The parts of the Go standard library the program uses

    Instants and time zones ([time]), byte strings ([strings]), anchored
    character-class patterns ([regexp]), slash-separated paths ([path]), the
    shape of a request URI ([net/url]) and the tree form of a JSON document
    ([encoding/json]).  Strings are byte strings, as in Go. *)

(** ** Package time

    An instant counts nanoseconds from the zero time (1 January of year 1,
    UTC); the zone is the offset of the location the value carries, in
    seconds east of UTC.  [Equal], [Before], [After] and [IsZero] look only
    at the instant; [UTC] changes only the zone. *)

Record time := mkTime { instant : Z; zone : Z }.

#[global] Instance time_eq_dec : EqDecision time.
Proof. solve_decision. Defined.

Definition zero_time : time := mkTime 0 0.
Definition IsZero (t : time) : bool := instant t =? 0.

(** A clock reading as the contracts take it: the zero time is no time. *)
Definition known_time (now : time) : option time := if IsZero now then None else Some now.
Definition Before (t u : time) : bool := instant t <? instant u.
Definition After (t u : time) : bool := instant u <? instant t.
Definition UTC (t : time) : time := mkTime (instant t) 0.
(** [Add]: a [time.Duration] is a number of nanoseconds. *)
Definition time_Add (t : time) (d : Z) : time := mkTime (instant t + d) (zone t).

(** Nanoseconds from the zero time to the Unix epoch. *)
Definition unix_epoch : Z := 62135596800 * 1000000000.
Definition UnixMicro (t : time) : Z := (instant t - unix_epoch) / 1000.

Definition Millisecond : Z := 1000000.
Definition Second : Z := 1000 * Millisecond.
Definition Minute : Z := 60 * Second.

(** ** Bytes and strings *)

Definition byte_of (c : ascii) : Z := Z.of_N (N_of_ascii c).
Definition in_range (lo hi : ascii) (c : ascii) : bool :=
  (byte_of lo <=? byte_of c) && (byte_of c <=? byte_of hi).
Definition is_digit : ascii -> bool := in_range "0" "9".
Definition is_lower : ascii -> bool := in_range "a" "z".
Definition is_upper : ascii -> bool := in_range "A" "Z".
Definition is_lower_hex (c : ascii) : bool := is_digit c || in_range "a" "f" c.

Fixpoint string_forallb (p : ascii -> bool) (s : string) : bool :=
  match s with
  | EmptyString => true
  | String c s' => p c && string_forallb p s'
  end.

Definition str_len (s : string) : Z := Z.of_nat (String.length s).

Definition is_ascii_text : string -> bool := string_forallb (fun c => byte_of c <? 128).

(** A lower case hexadecimal digit. *)
Definition hex_digit (z : Z) : ascii :=
  if z <? 10 then ascii_of_N (Z.to_N (48 + z)) else ascii_of_N (Z.to_N (87 + z)).

(** [^[a-f0-9]{n}$] *)
Definition match_hex (n : nat) (s : string) : bool :=
  (String.length s =? n)%nat && string_forallb is_lower_hex s.

(** [strings.HasPrefix s pre]. *)
Definition HasPrefix (s pre : string) : bool := String.prefix pre s.

Definition HasSuffix (s suf : string) : bool :=
  let n := String.length s in
  let k := String.length suf in
  (k <=? n)%nat && (String.substring (n - k) k s == suf).

Fixpoint Contains (s sub : string) : bool :=
  HasPrefix s sub ||
  match s with
  | EmptyString => false
  | String _ s' => Contains s' sub
  end.

(** [strings.Split s sep] for a one-byte separator: never empty. *)
Fixpoint split_at (sep : ascii) (s : string) : list string :=
  match s with
  | EmptyString => [""]
  | String c s' =>
      if (c == sep)%go then "" :: split_at sep s'
      else match split_at sep s' with
           | w :: ws => String c w :: ws
           | [] => [String c ""]
           end
  end.

Fixpoint join (sep : string) (l : list string) : string :=
  match l with
  | [] => ""
  | [w] => w
  | w :: ws => w +:+ sep +:+ join sep ws
  end.

Definition byte (n : nat) : ascii := ascii_of_nat n.

(** One leading Unicode white-space rune in UTF-8, removed. *)
Definition strip_space (s : string) : option string :=
  match s with
  | String c s1 =>
      let b := byte_of c in
      if (b =? 32) || ((9 <=? b) && (b <=? 13)) then Some s1
      else match s1 with
      | String c2 s2 =>
          let b2 := byte_of c2 in
          if (b =? 194) && ((b2 =? 133) || (b2 =? 160)) then Some s2
          else match s2 with
          | String c3 s3 =>
              let b3 := byte_of c3 in
              if ((b =? 225) && (b2 =? 154) && (b3 =? 128)) ||
                 ((b =? 226) && (b2 =? 128) &&
                    (((128 <=? b3) && (b3 <=? 138)) || (b3 =? 168) ||
                     (b3 =? 169) || (b3 =? 175))) ||
                 ((b =? 226) && (b2 =? 129) && (b3 =? 159)) ||
                 ((b =? 227) && (b2 =? 128) && (b3 =? 128))
              then Some s3 else None
          | EmptyString => None
          end
      | EmptyString => None
      end
  | EmptyString => None
  end.

Fixpoint blank_fuel (fuel : nat) (s : string) : bool :=
  match fuel, s with
  | _, EmptyString => true
  | O, _ => false
  | S f, _ => match strip_space s with Some s' => blank_fuel f s' | None => false end
  end.

(** [strings.TrimSpace s == ""]: the string is white space all through (each
    step removes at least one byte, so its length is enough fuel). *)
Definition blank (s : string) : bool := blank_fuel (String.length s) s.

(** ** Package path *)

Definition path_IsAbs (s : string) : bool := HasPrefix s "/".

(** One component of the path against the components kept so far, the last
    one first. *)
Definition clean_step (rooted : bool) (stack : list string) (c : string) : list string :=
  if (c == "") || (c == ".") then stack
  else if (c == "..") then
    match stack with
    | top :: rest => if top == ".." then ".." :: stack else rest
    | [] => if rooted then [] else [".."]
    end
  else c :: stack.

Definition path_Clean (s : string) : string :=
  if s == "" then "."
  else
    let rooted := path_IsAbs s in
    let stack := foldl (clean_step rooted) [] (split_at "/" s) in
    let body := join "/" (reverse stack) in
    if rooted then "/" +:+ body
    else if body == "" then "." else body.

(** The last element of a path ([path.Base]). *)
Fixpoint drop_slashes (l : list ascii) : list ascii :=
  match l with
  | c :: l' => if c == "/"%char then drop_slashes l' else l
  | [] => []
  end.

Definition path_Base (s : string) : string :=
  if s == "" then "."
  else
    let rev_s := drop_slashes (reverse (String.list_ascii_of_string s)) in
    match rev_s with
    | [] => "/"
    | _ =>
      List.last (split_at "/" (String.string_of_list_ascii (reverse rev_s))) ""
    end.

(** ** Package net/url

    [url.ParseRequestURI u] succeeds with [IsAbs()].  The scheme, the query
    and the opaque form are followed as the parser does; whether the
    authority of a [//host] form is acceptable is the argument
    [authority_ok], because that grammar is not fixed between releases. *)

Definition is_letter (c : ascii) : bool := is_lower c || is_upper c.
Definition is_scheme_byte (c : ascii) : bool :=
  is_letter c || is_digit c || (c == "+"%char) || (c == "-"%char) || (c == "."%char).

(** The bytes before and after the first [sep]. *)
Fixpoint cut_at (sep : ascii) (s : string) : option (string * string) :=
  match s with
  | EmptyString => None
  | String c s' =>
      if c == sep then Some ("", s')
      else match cut_at sep s' with
           | Some (a, b) => Some (String c a, b)
           | None => None
           end
  end.

(** [getScheme]: the scheme and the rest, or no scheme ([None]). *)
Definition get_scheme (s : string) : option (string * string) :=
  match cut_at ":" s with
  | Some (String c rest as scheme, after) =>
      if is_letter c && string_forallb is_scheme_byte rest then Some (scheme, after) else None
  | _ => None
  end.

Definition is_hex_byte (c : ascii) : bool :=
  is_lower_hex c || in_range "A" "F" c.

(** [unescape] in path mode fails only on a malformed percent escape. *)
Fixpoint escapes_ok (s : string) : bool :=
  match s with
  | EmptyString => true
  | String c s' =>
      if c == "%"%char then
        match s' with
        | String h1 (String h2 s'') => is_hex_byte h1 && is_hex_byte h2 && escapes_ok s''
        | _ => false
        end
      else escapes_ok s'
  end.

Definition is_ctl (c : ascii) : bool := (byte_of c <? 32) || (byte_of c =? 127).

Definition before (sep : ascii) (s : string) : string :=
  match cut_at sep s with Some (a, _) => a | None => s end.

Definition absolute_request_uri (authority_ok : string -> bool) (u : string) : bool :=
  string_forallb (fun c => negb (is_ctl c)) u &&
  match get_scheme u with
  | None => false
  | Some (_, after) =>
      let rest := before "?" after in
      if HasPrefix rest "//" then
        let authority_path := String.substring 2 (String.length rest) rest in
        match cut_at "/" authority_path with
        | Some (authority, p) => authority_ok authority && escapes_ok p
        | None => authority_ok authority_path
        end
      else if HasPrefix rest "/" then escapes_ok rest
      else true
  end.

(** ** JSON documents as trees *)

Inductive json :=
| JNull
| JBool (b : bool)
| JNum (n : Z)
| JStr (s : string)
| JArr (l : list json)
| JObj (fields : list (string * json)).

Fixpoint json_field (key : string) (fields : list (string * json)) : option json :=
  match fields with
  | [] => None
  | (k, v) :: rest => if k == key then Some v else json_field key rest
  end.

(** ** Lemmas *)

Lemma UTC_idemp t : UTC (UTC t) = UTC t.
Proof. done. Qed.

Lemma IsZero_UTC t : IsZero (UTC t) = IsZero t.
Proof. done. Qed.

Lemma match_hex_nonempty n s : (0 < n)%nat -> match_hex n s = true -> s <> "".
Proof.
  unfold match_hex. intros Hn [Hl _]%andb_true_iff ->. simpl in Hl.
  destruct n; [lia|discriminate].
Qed.

Lemma app_nil_str (b : string) : "" +:+ b = b.
Proof. reflexivity. Qed.

Lemma app_cons_str x (a b : string) : String x a +:+ b = String x (a +:+ b).
Proof. reflexivity. Qed.

Lemma string_app_assoc (a b c : string) : (a +:+ b) +:+ c = a +:+ (b +:+ c).
Proof. induction a as [|x a IH]; [done|]. by rewrite !app_cons_str, IH. Qed.

Lemma string_app_inj_l (a b c : string) : a +:+ b = a +:+ c -> b = c.
Proof.
  induction a as [|x a IH]; [done|]. rewrite !app_cons_str. intros [= H]. auto.
Qed.

(** A byte that does not occur in [a] or [b] ends them unambiguously. *)
Lemma cut_unique c (a b x y : string) :
  string_forallb (fun d => negb (bool_decide (d = c))) a = true ->
  string_forallb (fun d => negb (bool_decide (d = c))) b = true ->
  a +:+ String c x = b +:+ String c y -> a = b /\ x = y.
Proof.
  revert b.
  induction a as [|d a IH]; intros [|e b]; rewrite ?app_cons_str, ?app_nil_str;
    cbn [string_forallb]; intros Ha Hb Heq.
  - by injection Heq.
  - apply andb_true_iff in Hb as [Hb _]. injection Heq as <- _.
    by rewrite bool_decide_true in Hb.
  - apply andb_true_iff in Ha as [Ha _]. injection Heq as -> _.
    by rewrite bool_decide_true in Ha.
  - apply andb_true_iff in Ha as [_ Ha]. apply andb_true_iff in Hb as [_ Hb].
    injection Heq as <- Heq. destruct (IH b Ha Hb Heq) as [-> ->]. done.
Qed.

(** * The code around the program

    What the program calls and does not contain: the UUID package, the uuid
    column type of PostgreSQL, the authority grammar of [net/url], SHA-256,
    the time zone of the process, and the orders that Go (map iteration) and
    SQL (rows of a query with no [ORDER BY]) leave open.  The development is
    parametric in them; [PlatformLaws] states the documented behaviour the
    proofs rely on, and [sample_platform] is a concrete instance on which the
    witnesses are evaluated. *)

Class Platform := {
  (** [uuid.Parse s] returns no error *)
  uuid_Parse_ok : string -> bool;
  (** [uuid.NewSHA1(space, data).String()] for the textual form of [space] *)
  uuid_NewSHA1 : string -> string -> string;
  (** the canonical text of a value stored in a uuid column, when accepted *)
  uuid_column : string -> option string;
  (** the authority of a [//host] URI is well formed *)
  authority_ok : string -> bool;
  (** [hex.EncodeToString] of [sha256.Sum256] *)
  sha256_hex : string -> string;
  (** offset of the process's local time zone at an instant *)
  local_zone : Z -> Z;
  (** some order of the elements of a collection that has none *)
  arbitrary_order : forall {A : Type}, list A -> list A;
}.

Class PlatformLaws `{Platform} : Prop := {
  arbitrary_order_perm : forall (A : Type) (l : list A), arbitrary_order l ≡ₚ l;
  uuid_column_canonical : forall s k, uuid_column s = Some k -> uuid_column k = Some k;
  sha256_hex_shape : forall s, match_hex 64 (sha256_hex s) = true;
  (** what both the parser and the column accept is plain hexadecimal text *)
  uuid_text : forall s k, uuid_Parse_ok s = true -> uuid_column s = Some k ->
    is_ascii_text s = true /\ is_ascii_text k = true /\ uuid_Parse_ok k = true;
  uuid_NewSHA1_text : forall space d,
    uuid_column (uuid_NewSHA1 space d) = Some (uuid_NewSHA1 space d) /\
    uuid_Parse_ok (uuid_NewSHA1 space d) = true;
}.

(** Two names under one name space get different identifiers: what the version
    5 UUIDs of the program are used for. *)
Definition name_uuids_distinct `{Platform} : Prop :=
  forall space d d', uuid_NewSHA1 space d = uuid_NewSHA1 space d' -> d = d'.

(** ** A concrete platform *)

Fixpoint poly_hash (acc : Z) (s : string) : Z :=
  match s with
  | EmptyString => acc
  | String c s' => poly_hash (Z.land (acc * 33 + byte_of c + 1) 4294967295) s'
  end.

Fixpoint hex_digits (n : nat) (z : Z) : string :=
  match n with
  | O => ""
  | S n' => String (hex_digit (z `mod` 16)) (hex_digits n' (z / 16))
  end.

(** A byte string written with its bits: distinct names stay distinct. *)
Definition bit (b : bool) : ascii := if b then "1"%char else "0"%char.

Fixpoint bits (s : string) : string :=
  match s with
  | EmptyString => ""
  | String (Ascii b0 b1 b2 b3 b4 b5 b6 b7) s' =>
      String (bit b0) (String (bit b1) (String (bit b2) (String (bit b3)
        (String (bit b4) (String (bit b5) (String (bit b6) (String (bit b7) (bits s'))))))))
  end.

#[export] Instance sample_platform : Platform := {|
  uuid_Parse_ok s := negb (bool_decide (s = ""));
  uuid_NewSHA1 space data := "u" +:+ bits space +:+ "-" +:+ bits data;
  uuid_column s := if is_ascii_text s then Some s else None;
  authority_ok _ := true;
  sha256_hex s := hex_digits 64 (poly_hash 0 s);
  local_zone _ := 0;
  arbitrary_order A l := l;
|}.

Lemma hex_digit_lower z : 0 <= z < 16 -> is_lower_hex (hex_digit z) = true.
Proof.
  intros H.
  assert (z = 0 \/ z = 1 \/ z = 2 \/ z = 3 \/ z = 4 \/ z = 5 \/ z = 6 \/ z = 7 \/
    z = 8 \/ z = 9 \/ z = 10 \/ z = 11 \/ z = 12 \/ z = 13 \/ z = 14 \/ z = 15)
    as Hz by lia.
  destruct_or! Hz; subst z; reflexivity.
Qed.

Lemma hex_digits_shape n z : match_hex n (hex_digits n z) = true.
Proof.
  unfold match_hex. apply andb_true_iff. revert z.
  induction n as [|n IH]; intros z; [done|].
  destruct (IH (z / 16)) as [Hl Hf]. cbn. split; [done|].
  rewrite hex_digit_lower, Hf; [done|]. apply Z.mod_pos_bound. lia.
Qed.

Lemma bits_ascii s : is_ascii_text (bits s) = true.
Proof.
  induction s as [|[[] [] [] [] [] [] [] []] s IH]; cbn; first [done|exact IH].
Qed.

Lemma is_ascii_text_app a b :
  is_ascii_text (a +:+ b) = is_ascii_text a && is_ascii_text b.
Proof.
  unfold is_ascii_text. induction a as [|c a IH]; [done|].
  rewrite app_cons_str. cbn [string_forallb]. rewrite IH. by rewrite andb_assoc.
Qed.

Lemma bits_inj s s' : bits s = bits s' -> s = s'.
Proof.
  assert (Hbit : forall b b', bit b = bit b' -> b = b') by (intros [] []; done).
  revert s'. induction s as [|[] s IH]; intros [|[] s']; cbn; try done.
  intros [= ????????]. f_equal; [f_equal; by apply Hbit|auto].
Qed.

#[export] Instance sample_platform_laws : PlatformLaws.
Proof.
  split.
  - done.
  - intros s k. cbn. destruct (is_ascii_text s) eqn:E; [|done]. intros [= <-]. by rewrite E.
  - intros s. apply hex_digits_shape.
  - intros s k Hp. cbn. destruct (is_ascii_text s) eqn:E; [|done]. intros [= <-]. done.
  - intros space d. cbn [uuid_column uuid_NewSHA1 uuid_Parse_ok sample_platform].
    rewrite !is_ascii_text_app, !bits_ascii. done.
Qed.

Lemma sample_name_uuids_distinct : @name_uuids_distinct sample_platform.
Proof.
  intros space d d' H. cbn in H.
  apply string_app_inj_l, string_app_inj_l, string_app_inj_l, bits_inj in H. done.
Qed.
