(* ===== verification/GoJson.v ===== *)
(** * Package encoding/json: the text of a marshalled value

    A value is first a tree ([GoStd.json]); [json_text] is the text that
    [json.Marshal] writes for it: strings are escaped as the package does
    (HTML characters and the two line separators included) and every byte that
    is not part of valid UTF-8 is replaced by U+FFFD.  [time_text] is
    [Time.MarshalJSON]. *)

From stdpp Require Import pretty.
From S2P Require Import Prelude GoStd.

(** ** UTF-8 *)

Definition cont (c : ascii) : bool := (128 <=? byte_of c) && (byte_of c <=? 191).
Definition within (lo hi : Z) (c : ascii) : bool := (lo <=? byte_of c) && (byte_of c <=? hi).

(** The number of bytes of the leading rune; [None] when it is malformed (the
    decoder then consumes one byte). *)
Definition rune_len (s : string) : option nat :=
  match s with
  | EmptyString => None
  | String a s1 =>
      if byte_of a <? 128 then Some 1%nat
      else match s1 with
      | String b s2 =>
          if within 194 223 a && cont b then Some 2%nat
          else match s2 with
          | String c s3 =>
              if ((byte_of a =? 224) && within 160 191 b && cont c) ||
                 ((byte_of a =? 237) && within 128 159 b && cont c) ||
                 ((within 225 236 a || within 238 239 a) && cont b && cont c)
              then Some 3%nat
              else match s3 with
              | String d _ =>
                  if ((byte_of a =? 240) && within 144 191 b && cont c && cont d) ||
                     ((byte_of a =? 244) && within 128 143 b && cont c && cont d) ||
                     (within 241 243 a && cont b && cont c && cont d)
                  then Some 4%nat else None
              | EmptyString => None
              end
          | EmptyString => None
          end
      | EmptyString => None
      end
  end.

Fixpoint str_take (n : nat) (s : string) : string :=
  match n, s with
  | S n', String c s' => String c (str_take n' s')
  | _, _ => ""
  end.

Fixpoint str_drop (n : nat) (s : string) : string :=
  match n, s with
  | S n', String _ s' => str_drop n' s'
  | _, _ => s
  end.

(** Rune by rune; each step consumes at least one byte, so the length of the
    string is enough fuel. *)
Fixpoint map_runes (fuel : nat) (valid : string -> string) (broken : string) (s : string) : string :=
  match fuel with
  | O => ""
  | S f =>
      match s with
      | EmptyString => ""
      | _ =>
          match rune_len s with
          | Some n => valid (str_take n s) +:+ map_runes f valid broken (str_drop n s)
          | None => broken +:+ map_runes f valid broken (str_drop 1 s)
          end
      end
  end.

Definition replacement : string :=
  String (byte 239) (String (byte 191) (String (byte 189) "")).

(** A string after a JSON round trip: invalid bytes become U+FFFD. *)
Definition sanitize (s : string) : string :=
  map_runes (String.length s) (fun r => r) replacement s.

Definition valid_utf8 (s : string) : bool := sanitize s == s.

(** ** Text *)

Definition hex4 (n : Z) : string :=
  String (hex_digit (n / 4096)) (String (hex_digit ((n / 256) `mod` 16))
    (String (hex_digit ((n / 16) `mod` 16)) (String (hex_digit (n `mod` 16)) ""))).

Definition backslash : ascii := byte 92.
Definition quote : ascii := byte 34.
Definition escaped (s : string) : string := String backslash s.

Definition escape_rune (r : string) : string :=
  match r with
  | String c "" =>
      let b := byte_of c in
      if (b =? 34) || (b =? 92) then escaped r
      else if b =? 8 then escaped "b"
      else if b =? 12 then escaped "f"
      else if b =? 10 then escaped "n"
      else if b =? 13 then escaped "r"
      else if b =? 9 then escaped "t"
      else if (b <? 32) || (b =? 60) || (b =? 62) || (b =? 38) then escaped ("u" +:+ hex4 b)
      else r
  | _ =>
      if r == String (byte 226) (String (byte 128) (String (byte 168) "")) then escaped "u2028"
      else if r == String (byte 226) (String (byte 128) (String (byte 169) "")) then escaped "u2029"
      else r
  end.

Definition quoted (s : string) : string :=
  String quote (map_runes (String.length s) escape_rune (escaped "ufffd") s +:+ String quote "").

Definition decimal (z : Z) : string := pretty z.

Fixpoint json_text (v : json) : string :=
  match v with
  | JNull => "null"
  | JBool b => if b then "true" else "false"
  | JNum n => decimal n
  | JStr s => quoted s
  | JArr l => "[" +:+ join "," (map json_text l) +:+ "]"
  | JObj fields =>
      "{" +:+ join "," (map (fun '(k, w) => quoted k +:+ ":" +:+ json_text w) fields) +:+ "}"
  end.

(** The text that an encoder writes after [SetEscapeHTML(false)]. *)
Definition plain_rune (r : string) : string :=
  if bool_decide (r ∈ ["<"; ">"; "&"]) then r else escape_rune r.

Definition quoted_plain (s : string) : string :=
  String quote (map_runes (String.length s) plain_rune (escaped "ufffd") s +:+ String quote "").

Fixpoint json_text_plain (v : json) : string :=
  match v with
  | JStr s => quoted_plain s
  | JArr l => "[" +:+ join "," (map json_text_plain l) +:+ "]"
  | JObj fields =>
      "{" +:+ join "," (map (fun '(k, w) => quoted_plain k +:+ ":" +:+ json_text_plain w) fields) +:+
      "}"
  | _ => json_text v
  end.

(** A value after a round trip through its text. *)
Fixpoint json_trip (v : json) : json :=
  match v with
  | JStr s => JStr (sanitize s)
  | JArr l => JArr (map json_trip l)
  | JObj fields => JObj (map (fun '(k, w) => (sanitize k, json_trip w)) fields)
  | _ => v
  end.

(** ** Instants in RFC 3339 *)

Fixpoint digits_of (n : nat) (z : Z) : string :=
  match n with
  | O => ""
  | S n' => digits_of n' (z / 10) +:+ String (hex_digit (z `mod` 10)) ""
  end.

(** The date of a day counted from 1 January of year 1. *)
Definition civil (days : Z) : Z * Z * Z :=
  let z := days + 306 in
  let era := z / 146097 in
  let doe := z `mod` 146097 in
  let yoe := (doe - doe / 1460 + doe / 36524 - doe / 146096) / 365 in
  let doy := doe - (365 * yoe + yoe / 4 - yoe / 100) in
  let mp := (5 * doy + 2) / 153 in
  let d := doy - (153 * mp + 2) / 5 + 1 in
  let m := if mp <? 10 then mp + 3 else mp - 9 in
  (yoe + era * 400 + (if m <=? 2 then 1 else 0), m, d).

Fixpoint strip_zeros (n : nat) (z : Z) : string :=
  match n with
  | O => ""
  | S n' => if z `mod` 10 =? 0 then strip_zeros n' (z / 10) else digits_of n z
  end.

Definition fraction (ns : Z) : string := if ns =? 0 then "" else "." +:+ strip_zeros 9 ns.

Definition zone_text (offset : Z) : string :=
  if offset =? 0 then "Z"
  else
    let minutes := Z.abs offset / 60 in
    (if offset <? 0 then "-" else "+") +:+ digits_of 2 (minutes / 60) +:+ ":" +:+
    digits_of 2 (minutes `mod` 60).

(** The year: at least four digits. *)
Definition year_text (y : Z) : string :=
  if y <? 0 then "-" +:+ digits_of 4 (- y) else if y <=? 9999 then digits_of 4 y else decimal y.

(** [t.Format(time.RFC3339Nano)] *)
Definition rfc3339_nano (t : time) : string :=
  let local := instant t + zone t * Second in
  let days := local / (86400 * Second) in
  let ns := local `mod` (86400 * Second) in
  let '(y, m, d) := civil days in
  let s := ns / Second in
  year_text y +:+ "-" +:+ digits_of 2 m +:+ "-" +:+ digits_of 2 d +:+ "T" +:+
  digits_of 2 (s / 3600) +:+ ":" +:+ digits_of 2 ((s / 60) `mod` 60) +:+ ":" +:+
  digits_of 2 (s `mod` 60) +:+ fraction (ns `mod` Second) +:+ zone_text (zone t).

(** [Time.MarshalJSON] refuses a year outside [0, 9999] and a zone offset of a
    day or more. *)
Definition time_text (t : time) : res string :=
  let '(y, _, _) := civil ((instant t + zone t * Second) / (86400 * Second)) in
  if (y <? 0) || (9999 <? y) then Err (ErrText "Time.MarshalJSON: year outside of range [0,9999]")
  else if 86400 <=? Z.abs (zone t)
  then Err (ErrText "Time.MarshalJSON: timezone hour outside of range [0,23]")
  else Ok (rfc3339_nano t).

(** ** PostgreSQL columns of JSON and text *)

Definition has_nul (s : string) : bool := negb (string_forallb (fun c => byte_of c != 0) s).

(** [text]: no NUL byte and valid UTF-8 (SQLSTATE 22021). *)
Definition text_column (s : string) : res string :=
  if has_nul s || negb (valid_utf8 s) then Err (ErrPg "22021") else Ok s.

Fixpoint json_has_nul (v : json) : bool :=
  match v with
  | JStr s => has_nul s
  | JArr l => existsb json_has_nul l
  | JObj fields => existsb (fun '(k, w) => has_nul k || json_has_nul w) fields
  | _ => false
  end.

(** [jsonb] keeps the value of the text, and refuses [\u0000] (22P05). *)
Definition jsonb_column (v : json) : res json :=
  if json_has_nul v then Err (ErrPg "22P05") else Ok (json_trip v).

(** ** Lemmas *)

Lemma map_runes_ascii fuel s :
  is_ascii_text s = true -> (String.length s <= fuel)%nat ->
  map_runes fuel (fun r => r) replacement s = s.
Proof.
  revert fuel. induction s as [|c s IH]; intros [|fuel] Hs Hl; cbn in Hl; try lia; [done..|].
  cbn in Hs. apply andb_true_iff in Hs as [Hc Hs].
  cbn [map_runes rune_len]. rewrite Hc. cbn [str_take str_drop].
  rewrite app_cons_str, app_nil_str. f_equal. apply IH; [done|lia].
Qed.

Lemma sanitize_ascii s : is_ascii_text s = true -> sanitize s = s.
Proof. intros Hs. by apply map_runes_ascii. Qed.

(** ** What the columns accept *)

Lemma text_column_Ok s k : text_column s = Ok k -> k = s.
Proof. unfold text_column. case_match; [done|by intros [= <-]]. Qed.

Lemma jsonb_column_Ok v k : jsonb_column v = Ok k -> k = json_trip v.
Proof. unfold jsonb_column. case_match; [done|by intros [= <-]]. Qed.

Lemma string_forallb_impl (f g : ascii -> bool) s :
  (forall c, f c = true -> g c = true) -> string_forallb f s = true -> string_forallb g s = true.
Proof.
  intros Hfg. induction s as [|c s IH]; [done|]. cbn. rewrite !andb_true_iff. intros [? ?]. auto.
Qed.

Lemma hex_byte c : is_lower_hex c = true -> 48 <= byte_of c <= 102.
Proof.
  unfold is_lower_hex, is_digit, in_range. change (byte_of "0") with 48. change (byte_of "9") with 57.
  change (byte_of "a") with 97. change (byte_of "f") with 102. lia.
Qed.

Lemma text_column_hex n s : match_hex n s = true -> text_column s = Ok s.
Proof.
  unfold match_hex. intros [_ Hs]%andb_true_iff. unfold text_column, has_nul, valid_utf8.
  rewrite (string_forallb_impl is_lower_hex _ s); [|intros c Hc%hex_byte|done].
  2: by apply negb_true_iff, bool_decide_eq_false; lia.
  rewrite sanitize_ascii; [by rewrite bool_decide_true|].
  apply (string_forallb_impl is_lower_hex); [|done]. intros c Hc%hex_byte. lia.
Qed.

Lemma hex_plain n t : match_hex n t = true -> has_nul t = false.
Proof. intros Ht%text_column_hex. unfold text_column in Ht. by destruct (has_nul t). Qed.
