(* ===== verification/GoText.v ===== *)
(** * Text: UTF-8, regular expressions, strings, paths and instants *)

From S2P Require Import Prelude GoStd GoJson.

(** * Replacing invalid bytes happens once

    [sanitize] leaves its own results alone, and so does the round trip of a
    JSON value: what was read back from the database is stored unchanged. *)

Lemma str_take_app r t : str_take (String.length r) (r +:+ t) = r.
Proof. induction r as [|c r IH]; [by destruct t|]. cbn [String.length]. rewrite app_cons_str. cbn. by rewrite IH. Qed.

Lemma str_drop_app r t : str_drop (String.length r) (r +:+ t) = t.
Proof. induction r as [|c r IH]; [by destruct t|]. cbn [String.length]. by rewrite app_cons_str. Qed.

Lemma string_length_app (r t : string) :
  String.length (r +:+ t) = (String.length r + String.length t)%nat.
Proof. induction r as [|c r IH]; [done|]. rewrite app_cons_str. cbn. by rewrite IH. Qed.

(** The leading rune does not depend on what follows it. *)
Lemma rune_len_rune s n :
  rune_len s = Some n ->
  exists r rest, s = r +:+ rest /\ String.length r = n /\ (0 < n)%nat /\
    forall t, rune_len (r +:+ t) = Some n.
Proof.
  intros Hr. destruct s as [|a s]; [done|]. cbn [rune_len] in Hr.
  destruct (byte_of a <? 128) eqn:E1.
  { injection Hr as <-. exists (String a ""), s. split_and!; [done..|lia|].
    intros t. rewrite app_cons_str. cbn [rune_len]. by rewrite E1. }
  destruct s as [|b s]; [done|]. destruct (within 194 223 a && cont b) eqn:E2.
  { injection Hr as <-. exists (String a (String b "")), s. split_and!; [done..|lia|].
    intros t. rewrite !app_cons_str. cbn [rune_len]. by rewrite E1, E2. }
  destruct s as [|c s]; [done|].
  match type of Hr with (if ?x then _ else _) = _ => destruct x eqn:E3 end.
  { injection Hr as <-. exists (String a (String b (String c ""))), s. split_and!; [done..|lia|].
    intros t. rewrite !app_cons_str. cbn [rune_len]. by rewrite E1, E2, E3. }
  destruct s as [|d s]; [done|].
  match type of Hr with (if ?x then _ else _) = _ => destruct x eqn:E4 end; [|done].
  injection Hr as <-. exists (String a (String b (String c (String d "")))), s.
  split_and!; [done..|lia|].
  intros t. rewrite !app_cons_str. cbn [rune_len]. by rewrite E1, E2, E3, E4.
Qed.

(** A rune at the head is kept. *)
Lemma map_runes_head fuel r t n :
  (forall t, rune_len (r +:+ t) = Some n) -> String.length r = n -> (0 < n)%nat ->
  map_runes (S fuel) (fun r => r) replacement (r +:+ t) =
  r +:+ map_runes fuel (fun r => r) replacement t.
Proof.
  intros Hr <- Hn. destruct r as [|a r]; [cbn in Hn; lia|].
  cbn [map_runes]. rewrite (app_cons_str a r t). rewrite <- (app_cons_str a r t), (Hr t).
  by rewrite str_take_app, str_drop_app.
Qed.

Lemma map_runes_again g f s :
  (String.length (map_runes g (fun r => r) replacement s) <= f)%nat ->
  map_runes f (fun r => r) replacement (map_runes g (fun r => r) replacement s) =
  map_runes g (fun r => r) replacement s.
Proof.
  revert f s. induction g as [|g IH]; intros f s Hf; [by destruct f|].
  destruct s as [|a s]; [by destruct f|]. cbn [map_runes] in *.
  destruct (rune_len (String a s)) as [n|] eqn:E.
  - destruct (rune_len_rune _ _ E) as (r & rest & Hs & Hl & Hn & Hr).
    rewrite Hs in *. rewrite <- Hl, str_take_app, str_drop_app in *.
    rewrite string_length_app in Hf. destruct f as [|f]; [lia|].
    rewrite (map_runes_head _ _ _ n) by (by rewrite <- ?Hl; lia || done). f_equal. apply IH. lia.
  - rewrite string_length_app in Hf. cbn in Hf. destruct f as [|f]; [lia|].
    rewrite (map_runes_head _ replacement _ 3) by (done || lia). f_equal. apply IH. cbn. lia.
Qed.

Lemma sanitize_idem s : sanitize (sanitize s) = sanitize s.
Proof. apply map_runes_again. done. Qed.

Lemma json_trip_idem v : json_trip (json_trip v) = json_trip v.
Proof.
  revert v. fix IH 1. intros [| | |s|l|fields]; cbn [json_trip]; [done..| | |].
  - by rewrite sanitize_idem.
  - f_equal. induction l as [|x l IHl]; [done|]. cbn [map]. by rewrite IH, IHl.
  - f_equal. induction fields as [|[k x] l IHl]; [done|]. cbn [map]. by rewrite sanitize_idem, IH, IHl.
Qed.

(** ** Decoding what a round trip leaves *)

Lemma json_trip_texts l : json_trip (JArr (map JStr l)) = JArr (map JStr (map sanitize l)).
Proof. cbn [json_trip]. f_equal. induction l as [|a l IH]; [done|]. cbn [map]. by rewrite IH. Qed.

(** * Instants read from RFC 3339

    [Time.UnmarshalJSON] of Go: the strict parser of RFC 3339. *)

Definition leap (y : Z) : bool :=
  (y `mod` 4 =? 0) && (negb (y `mod` 100 =? 0) || (y `mod` 400 =? 0)).

Definition days_in (m y : Z) : Z :=
  if m =? 2 then if leap y then 29 else 28
  else if bool_decide (m ∈ [4; 6; 9; 11]) then 30 else 31.

(** Days from 1 January of year 1. *)
Definition days_of_civil (y m d : Z) : Z :=
  let y' := if m <=? 2 then y - 1 else y in
  let yoe := y' `mod` 400 in
  let doy := (153 * (if 2 <? m then m - 3 else m + 9) + 2) / 5 + d - 1 in
  y' / 400 * 146097 + (yoe * 365 + yoe / 4 - yoe / 100 + doy) - 306.

(** [n] digits whose value lies in the range, and what follows. *)
Fixpoint take_digits (n : nat) (acc : Z) (s : string) : option (Z * string) :=
  match n, s with
  | O, _ => Some (acc, s)
  | S n', String c s' => if is_digit c then take_digits n' (acc * 10 + (byte_of c - 48)) s' else None
  | _, _ => None
  end.

Definition field (n : nat) (lo hi : Z) (s : string) : option (Z * string) :=
  match take_digits n 0 s with
  | Some (v, rest) => if (lo <=? v) && (v <=? hi) then Some (v, rest) else None
  | None => None
  end.

Definition expect (c : ascii) (s : string) : option string :=
  match s with String c' s' => if (c' == c) then Some s' else None | _ => None end.

(** The digits after the point, the first nine of which count. *)
Fixpoint nanoseconds (scale acc : Z) (s : string) : Z * string :=
  match s with
  | String c s' =>
      if is_digit c then nanoseconds (scale / 10) (acc + (byte_of c - 48) * scale) s' else (acc, s)
  | EmptyString => (acc, s)
  end.

Definition second_fraction (s : string) : Z * string :=
  match s with
  | String "." (String c s') =>
      if is_digit c then nanoseconds 100000000 0 (String c s') else (0, s)
  | _ => (0, s)
  end.

(** [Z] or [+hh:mm]: the offset in seconds. *)
Definition zone_offset (s : string) : option Z :=
  if s == "Z" then Some 0
  else
    match s with
    | String c s' =>
        '(h, s') ← field 2 0 23 s';
        s' ← expect ":" s';
        '(m, s') ← field 2 0 59 s';
        if s' != "" then None
        else if (c == "-"%char) then Some (- ((h * 60 + m) * 60))
        else if (c == "+"%char) then Some ((h * 60 + m) * 60) else None
    | EmptyString => None
    end.

Definition parse_rfc3339 (s : string) : option time :=
  '(y, s) ← field 4 0 9999 s; s ← expect "-" s;
  '(m, s) ← field 2 1 12 s; s ← expect "-" s;
  '(d, s) ← field 2 1 (days_in m y) s; s ← expect "T" s;
  '(h, s) ← field 2 0 23 s; s ← expect ":" s;
  '(mi, s) ← field 2 0 59 s; s ← expect ":" s;
  '(sec, s) ← field 2 0 59 s;
  let '(ns, s) := second_fraction s in
  offset ← zone_offset s;
  Some (mkTime (((days_of_civil y m d * 24 + h) * 60 + mi) * Minute + (sec - offset) * Second + ns)
    offset).

Example parse_epoch : parse_rfc3339 "1970-01-01T00:00:00Z" = Some (mkTime unix_epoch 0).
Proof. vm_compute. reflexivity. Qed.

Example parse_offset :
  option_map rfc3339_nano (parse_rfc3339 "2024-02-29T23:59:59.25-03:30") =
  Some "2024-02-29T23:59:59.25-03:30".
Proof. vm_compute. reflexivity. Qed.

Example parse_no_day : parse_rfc3339 "2023-02-29T00:00:00Z" = None.
Proof. vm_compute. reflexivity. Qed.

(** * More of packages strings, unicode and filepath *)

(** [strings.Fields]: a white space rune starts with a byte that continues no
    other rune, so looking at every byte finds the same ones. *)
Fixpoint Fields_fuel (fuel : nat) (word s : string) : list string :=
  let done := if word == "" then [] else [word] in
  match fuel, s with
  | _, EmptyString => done
  | O, _ => done
  | S f, String c s' =>
      match strip_space s with
      | Some rest => done ++ Fields_fuel f "" rest
      | None => Fields_fuel f (word +:+ String c "") s'
      end
  end.

Definition Fields (s : string) : list string := Fields_fuel (String.length s) "" s.

Fixpoint trim_left_fuel (fuel : nat) (s : string) : string :=
  match fuel, strip_space s with
  | S f, Some rest => trim_left_fuel f rest
  | _, _ => s
  end.

Fixpoint trim_right (s : string) : string :=
  match s with
  | EmptyString => ""
  | String c s' => if blank s then "" else String c (trim_right s')
  end.

Definition TrimSpace (s : string) : string := trim_right (trim_left_fuel (String.length s) s).

Definition TrimSuffix (s suffix : string) : string :=
  if HasSuffix s suffix then str_take (String.length s - String.length suffix) s else s.

Definition TrimPrefix (s prefix : string) : string :=
  if HasPrefix s prefix then str_drop (String.length prefix) s else s.

(** [unicode.IsControl] of a rune: C0, DEL and C1. *)
Definition IsControl (rune : string) : bool :=
  match rune with
  | String c "" => is_ctl c
  | String c (String d "") =>
      (byte_of c =? 194) && (128 <=? byte_of d) && (byte_of d <=? 159)
  | _ => false
  end.

(** Some rune of the string is a control character. *)
Definition has_control (s : string) : bool :=
  map_runes (String.length s) (fun rune => if IsControl rune then "!" else "") "" s != "".

(** [filepath.Join] and [filepath.Clean] on a system whose separator is a slash. *)
Definition filepath_Join (l : list string) : string :=
  match filter (fun e => e <> "") l with
  | [] => ""
  | l => path_Clean (join "/" l)
  end.

Example fields_example : Fields (" 100644  blob" +:+ String (byte 9) "a ") = ["100644"; "blob"; "a"].
Proof. vm_compute. reflexivity. Qed.

Example trim_example : TrimSpace (" a b " +:+ String (byte 10) "") = "a b".
Proof. vm_compute. reflexivity. Qed.

(** * Package regexp: anchored patterns

    The patterns of the program are anchored at both ends, so matching decides
    membership of the whole text in a regular language.  [matches] works by
    derivatives; [matches_spec] is its equivalence with the language. *)

Inductive regexp :=
| Nothing
| Empty
| Class (p : ascii -> bool)
| Cat (r s : regexp)
| Or (r s : regexp)
| Many (r : regexp).

(** ** The language of a pattern *)

Inductive lang : regexp -> string -> Prop :=
| lang_empty : lang Empty ""
| lang_class p c : p c = true -> lang (Class p) (String c "")
| lang_cat r s x y : lang r x -> lang s y -> lang (Cat r s) (x +:+ y)
| lang_left r s x : lang r x -> lang (Or r s) x
| lang_right r s x : lang s x -> lang (Or r s) x
| lang_none r : lang (Many r) ""
| lang_more r c x y : lang r (String c x) -> lang (Many r) y -> lang (Many r) (String c (x +:+ y)).

(** ** Matching *)

Fixpoint nullable (r : regexp) : bool :=
  match r with
  | Nothing | Class _ => false
  | Empty | Many _ => true
  | Cat r s => nullable r && nullable s
  | Or r s => nullable r || nullable s
  end.

Fixpoint derive (c : ascii) (r : regexp) : regexp :=
  match r with
  | Nothing | Empty => Nothing
  | Class p => if p c then Empty else Nothing
  | Cat r s =>
      if nullable r then Or (Cat (derive c r) s) (derive c s) else Cat (derive c r) s
  | Or r s => Or (derive c r) (derive c s)
  | Many r => Cat (derive c r) (Many r)
  end.

Fixpoint matches (r : regexp) (x : string) : bool :=
  match x with
  | EmptyString => nullable r
  | String c x' => matches (derive c r) x'
  end.

(** ** Writing patterns *)

Definition one (c : ascii) : regexp := Class (fun d => d == c).

Fixpoint literal (x : string) : regexp :=
  match x with
  | EmptyString => Empty
  | String c x' => Cat (one c) (literal x')
  end.

Fixpoint times (n : nat) (r : regexp) : regexp :=
  match n with
  | O => Empty
  | S n' => Cat r (times n' r)
  end.

(** [r{0,n}] *)
Fixpoint up_to (n : nat) (r : regexp) : regexp :=
  match n with
  | O => Empty
  | S n' => Or Empty (Cat r (up_to n' r))
  end.

Definition some (r : regexp) : regexp := Cat r (Many r).

Fixpoint seq (l : list regexp) : regexp :=
  match l with
  | [] => Empty
  | r :: l' => Cat r (seq l')
  end.

Definition digit : regexp := Class is_digit.
Definition hex : regexp := Class is_lower_hex.

(** ** Matching decides the language *)

Lemma nullable_spec r : nullable r = true <-> lang r "".
Proof.
  induction r as [| |p|r IHr s IHs|r IHr s IHs|r IHr]; cbn.
  - split; [done|]. inversion 1.
  - split; [constructor|done].
  - split; [done|]. inversion 1.
  - rewrite andb_true_iff, IHr, IHs. split.
    + intros [Hr Hs]. exact (lang_cat r s "" "" Hr Hs).
    + inversion 1 as [| |? ? x y Hx Hy Hr Heq| | | |]; subst. destruct x; [|done].
      rewrite app_nil_str in Heq. subst y. done.
  - rewrite orb_true_iff, IHr, IHs. split.
    + intros [Hr|Hs]; [by apply lang_left|by apply lang_right].
    + inversion 1; auto.
  - split; [constructor|done].
Qed.

Lemma derive_spec r c x : lang (derive c r) x <-> lang r (String c x).
Proof.
  revert x. induction r as [| |p|r IHr s IHs|r IHr s IHs|r IHr]; intros x; cbn [derive].
  - split; inversion 1.
  - split; inversion 1.
  - destruct (p c) eqn:Hp; split; inversion 1; subst; try congruence; by constructor.
  - assert (Hcat : lang (Cat (derive c r) s) x <->
      exists y z, x = y +:+ z /\ lang r (String c y) /\ lang s z).
    { split.
      - inversion 1; subst. eexists _, _. split; [done|]. split; [by apply IHr|done].
      - intros (y & z & -> & Hy & Hz). apply lang_cat; [by apply IHr|done]. }
    assert (Hfull : lang (Cat r s) (String c x) <->
      (exists y z, x = y +:+ z /\ lang r (String c y) /\ lang s z) \/
      (lang r "" /\ lang s (String c x))).
    { split.
      - inversion 1 as [| |? ? y z Hy Hz Hr Heq| | | |]; subst. destruct y as [|d y].
        + right. rewrite app_nil_str in Heq. by subst z.
        + left. rewrite app_cons_str in Heq. injection Heq as -> <-. by eexists _, _.
      - intros [(y & z & -> & Hy & Hz)|[Hr Hs]].
        + rewrite <- app_cons_str. by apply lang_cat.
        + exact (lang_cat r s "" (String c x) Hr Hs). }
    destruct (nullable r) eqn:Hn.
    + apply nullable_spec in Hn. rewrite Hfull, <- Hcat, <- IHs. split.
      * inversion 1; auto.
      * intros [Hl|[_ Hs]]; [by apply lang_left|by apply lang_right].
    + rewrite Hfull, <- Hcat. split; [by left|]. intros [Hl|[Hr _]]; [done|].
      apply nullable_spec in Hr. congruence.
  - split.
    + inversion 1; subst; [apply lang_left; by apply IHr|apply lang_right; by apply IHs].
    + inversion 1; subst; [apply lang_left; by apply IHr|apply lang_right; by apply IHs].
  - split.
    + inversion 1; subst. apply lang_more; [by apply IHr|done].
    + inversion 1; subst. apply lang_cat; [by apply IHr|done].
Qed.

Lemma matches_spec r x : matches r x = true <-> lang r x.
Proof.
  revert r. induction x as [|c x IH]; intros r; cbn.
  - apply nullable_spec.
  - by rewrite IH, derive_spec.
Qed.
