(* ===== verification/PgRetry.v ===== *)
(** * Retrying a transaction

    Models [go/internal/postgres/retry.go]: the classification of transient
    PostgreSQL conflicts and the bounded retry of a whole transaction.  The
    jitter of the pause is not modelled beyond its bounds: nothing depends on
    the clock but the pause itself. *)

From S2P Require Import Prelude GoStd.

Definition MaxTransactionAttempts : nat := 5.
Definition initialRetryBackoff : Z := 10 * Millisecond.
Definition maximumRetryBackoff : Z := 250 * Millisecond.

Definition ErrTransient : error := ErrNew "postgres: transient PostgreSQL conflict".

(** [errors.As] for [*pgconn.PgError], then its code. *)
Definition IsTransient (err : error) : bool :=
  match errors_As_SQLState err with
  | Some code => (code == "40001") || (code == "40P01")
  | None => false
  end.

(** The pause before the next attempt, before the jitter. *)
Definition retry_backoff (attempt : nat) : Z :=
  let backoff := Z.shiftl initialRetryBackoff (Z.of_nat attempt) in
  if maximumRetryBackoff <? backoff then maximumRetryBackoff else backoff.

(** [backoff/2 + rand.Int64N(backoff/2 + 1)] for a drawn value. *)
Definition jittered (backoff draw : Z) : Z := backoff / 2 + draw.

Section retry.
Context {S A : Type}.
(** One run of the callback, numbered by its attempt. *)
Variable operation : nat -> S -> res A * S.
(** The context is done before the pause after this attempt ends. *)
Variable ctx_done : nat -> option error.

(** The loop, with the attempts left as its measure.  The text of the last
    conflict, which the code prints after [ErrTransient], is left out; it is
    printed, not wrapped. *)
Fixpoint retry_loop (left attempt : nat) (s : S) : res A * S :=
  match left with
  | O => (Err (ErrWrap ErrTransient "retries exhausted"), s)
  | Datatypes.S left' =>
      let '(result, s') := operation attempt s in
      match result with
      | Ok a => (Ok a, s')
      | Err err =>
          if negb (IsTransient err) then (Err err, s')
          else if (left' =? 0)%nat then (Err (ErrWrap ErrTransient "retries exhausted"), s')
          else
            match ctx_done attempt with
            | Some e => (Err e, s')
            | None => retry_loop left' (Datatypes.S attempt) s'
            end
      end
  end.

Definition RetryTransaction (s : S) : res A * S :=
  retry_loop MaxTransactionAttempts 0 s.
End retry.

(** ** Lemmas *)

Lemma retry_backoff_bounds attempt :
  initialRetryBackoff <= retry_backoff attempt <= maximumRetryBackoff.
Proof.
  unfold retry_backoff. case_match eqn:E; [vm_compute; split; congruence|].
  apply Z.ltb_ge in E. split; [|done].
  rewrite Z.shiftl_mul_pow2 by lia. unfold initialRetryBackoff in *.
  assert (1 <= 2 ^ Z.of_nat attempt) by (apply (Z.pow_le_mono_r 2 0); lia).
  unfold Millisecond in *. lia.
Qed.

Section lemmas.
Context {S A : Type} (operation : nat -> S -> res A * S) (ctx_done : nat -> option error).

(** An invariant of every attempt is an invariant of the whole. *)
Lemma retry_loop_invariant (I : S -> Prop) left attempt s :
  (forall n s', I s' -> I (snd (operation n s'))) -> I s ->
  I (snd (retry_loop operation ctx_done left attempt s)).
Proof.
  intros Hop. revert attempt s. induction left as [|left IH]; intros attempt s Hs; [done|].
  cbn [retry_loop]. pose proof (Hop attempt s Hs) as Hs'.
  destruct (operation attempt s) as [[a|e] s'] eqn:E; cbn in *; [done|].
  destruct (negb (IsTransient e)); [done|]. destruct (left =? 0)%nat; [done|].
  destruct (ctx_done attempt); [done|]. by apply IH.
Qed.

Lemma retry_loop_success left attempt s a s' :
  retry_loop operation ctx_done left attempt s = (Ok a, s') ->
  exists n s1, (attempt <= n < attempt + left)%nat /\ operation n s1 = (Ok a, s').
Proof.
  revert attempt s. induction left as [|left IH]; intros attempt s; [done|].
  cbn [retry_loop]. destruct (operation attempt s) as [[b|e] s1] eqn:E.
  - intros [= <- <-]. exists attempt, s. split; [lia|done].
  - destruct (negb (IsTransient e)); [done|]. destruct (left =? 0)%nat; [done|].
    destruct (ctx_done attempt); [done|]. intros (n & s2 & Hn & Hop)%IH.
    exists n, s2. split; [lia|done].
Qed.

(** The attempt that succeeds starts from what the failed ones left. *)
Lemma retry_loop_success_from (I : S -> Prop) left attempt s a s' :
  (forall n x e x', I x -> operation n x = (Err e, x') -> I x') -> I s ->
  retry_loop operation ctx_done left attempt s = (Ok a, s') ->
  exists n x, I x /\ operation n x = (Ok a, s').
Proof.
  intros Hop. revert attempt s. induction left as [|left IH]; intros attempt s Hs; [done|].
  cbn [retry_loop]. destruct (operation attempt s) as [[b|e] s1] eqn:E.
  - intros [= <- <-]. by exists attempt, s.
  - destruct (negb (IsTransient e)); [done|]. destruct (left =? 0)%nat; [done|].
    destruct (ctx_done attempt); [done|]. apply IH. by eapply Hop.
Qed.
End lemmas.

(** ** What the retries do *)

Section guarantees.
Context {S A : Type} (operation : nat -> S -> res A * S) (ctx_done : nat -> option error).

(** [n] attempts in a row, starting with [attempt], ended in a transient
    conflict and the context was not done: [s] is where they began and [s']
    where they ended. *)
Inductive conflicts : nat -> nat -> S -> S -> Prop :=
| conflicts_none attempt s : conflicts attempt 0 s s
| conflicts_more attempt n s s1 s' e :
    operation attempt s = (Err e, s1) -> IsTransient e = true -> ctx_done attempt = None ->
    conflicts (Datatypes.S attempt) n s1 s' ->
    conflicts attempt (Datatypes.S n) s s'.

(** How the loop ends with attempt [k], the last one allowed or not. *)
Definition settled (k : nat) (is_last : bool) (last result : res A) : Prop :=
  match last with
  | Ok a => result = Ok a
  | Err e =>
      if IsTransient e then
        if is_last then result = Err (ErrWrap ErrTransient "retries exhausted")
        else exists e', ctx_done k = Some e' /\ result = Err e'
      else result = Err e
  end.

Lemma retry_loop_settles left attempt s result s' :
  retry_loop operation ctx_done (Datatypes.S left) attempt s = (result, s') ->
  exists n s1 last, (n <= left)%nat /\ conflicts attempt n s s1 /\
    operation (attempt + n)%nat s1 = (last, s') /\
    settled (attempt + n) (n =? left)%nat last result.
Proof.
  revert attempt s. induction left as [|left IH]; intros attempt s;
    remember (Datatypes.S _) as fuel; cbn [retry_loop]; subst fuel; cbn [retry_loop];
    destruct (operation attempt s) as [[a|e] s1] eqn:E;
    try (intros [= <- <-]; exists 0%nat, s, (Ok a); rewrite Nat.add_0_r;
         repeat split; try done; try lia; constructor);
    destruct (IsTransient e) eqn:Et; cbn [negb];
    try (intros [= <- <-]; exists 0%nat, s, (Err e); rewrite Nat.add_0_r;
         unfold settled; rewrite Et; repeat split; try done; try lia; constructor).
  change (Datatypes.S left =? 0)%nat with false. cbv iota.
  destruct (ctx_done attempt) as [e'|] eqn:Ec.
  - intros [= <- <-]. exists 0%nat, s, (Err e). rewrite Nat.add_0_r. unfold settled. rewrite Et.
    repeat split; [lia|constructor|done|]. cbn. eauto.
  - intros (n & s2 & last & Hn & Hc & Hop & Hs)%IH. exists (Datatypes.S n), s2, last.
    rewrite Nat.add_succ_r. repeat split; [lia|by econstructor|done|exact Hs].
Qed.

(** The retries of a transaction end.  The transaction is attempted at
    most five times; every attempt but the last one ended in a transient
    conflict, and the next one starts on the state it left; the loop stops at
    the first success, the first other error, the end of the context or the
    last attempt, and reports exactly that; and every pause is between half of
    the initial backoff and the maximal one. *)
Theorem retries_end (s : S) (result : res A) (s' : S) :
  RetryTransaction operation ctx_done s = (result, s') ->
  (exists n s1 last, (n < MaxTransactionAttempts)%nat /\ conflicts 0 n s s1 /\
    operation n s1 = (last, s') /\
    settled n (n =? MaxTransactionAttempts - 1)%nat last result) /\
  (forall attempt draw, 0 <= draw < retry_backoff attempt / 2 + 1 ->
    initialRetryBackoff / 2 <= jittered (retry_backoff attempt) draw <= maximumRetryBackoff).
Proof.
  intros Hr. split.
  - apply retry_loop_settles in Hr as (n & s1 & last & Hn & Hc & Hop & Hs).
    exists n, s1, last. repeat split; try done. unfold MaxTransactionAttempts. lia.
  - intros attempt draw Hd. pose proof (retry_backoff_bounds attempt).
    unfold jittered. pose proof (Z.div_le_mono initialRetryBackoff (retry_backoff attempt) 2).
    pose proof (Z.mul_div_le (retry_backoff attempt) 2). lia.
Qed.

End guarantees.

(** Two conflicts, then a success: the counter shows three attempts. *)
Definition sample_operation (attempt : nat) (s : Z) : res string * Z :=
  if (attempt <? 2)%nat then (Err (ErrPg "40001"), s + 1) else (Ok "done", s + 1).

Lemma retries_end_witness :
  RetryTransaction sample_operation (fun _ => None) 0 = (Ok "done", 3) /\
  exists n s1 last, (n < MaxTransactionAttempts)%nat /\
    conflicts sample_operation (fun _ => None) 0 n 0 s1 /\ sample_operation n s1 = (last, 3) /\
    settled (fun _ => None) n (n =? MaxTransactionAttempts - 1)%nat last (Ok "done").
Proof.
  split; [done|]. apply (retries_end sample_operation (fun _ => None) 0). reflexivity.
Defined.
