(* ===== verification/Programs.v ===== *)
(** * Programs that call services

    The control API and the stage handlers reach everything else through Go
    interfaces.  Such code is a program of the type below: it ends with a value
    or calls a method and goes on with the answer, whatever that is.  A
    property of its executions ([exec]) therefore holds for any
    implementation of the interfaces, over any number of concurrent callers;
    [run_prog] runs a program on given services. *)

From S2P Require Import Prelude.

Section programs.
(** The methods, each with the type of its answer. *)
Context {service : Type -> Type}.

Inductive prog (A : Type) : Type :=
| Return (a : A)
| Call {X : Type} (c : service X) (k : X -> prog A).

End programs.
Arguments prog service A : clear implicits.
Arguments Return {service A} a.
Arguments Call {service A X} c k.

Section programs.
Context {service : Type -> Type}.

Fixpoint prog_bind {A B} (p : prog service A) (f : A -> prog service B) : prog service B :=
  match p with
  | Return a => f a
  | Call c k => Call c (fun x => prog_bind (k x) f)
  end.

Definition ask {X} (c : service X) : prog service X := Call c Return.

(** [if err != nil { return err }] after a call. *)
Definition and_then {A B} (p : prog service (res A)) (f : A -> prog service (res B))
    : prog service (res B) :=
  prog_bind p (fun r => match r with Ok a => f a | Err e => Return (Err e) end).

Definition fail {A} (e : error) : prog service (res A) := Return (Err e).

Definition map_result {A B} (f : A -> B) (p : prog service (res A)) : prog service (res B) :=
  and_then p (fun a => Return (Ok (f a))).

(** The first error of the steps, in their order. *)
Fixpoint steps_in_order {A B} (step : A -> B -> prog service (res A)) (a : A) (l : list B)
    : prog service (res A) :=
  match l with
  | [] => Return (Ok a)
  | b :: rest => and_then (step a b) (fun a' => steps_in_order step a' rest)
  end.

(** ** Executions *)

(** A call that was made, and its answer. *)
Record event := called { ev_type : Type; ev_call : service ev_type; ev_answer : ev_type }.

Fixpoint exec {A} (p : prog service A) (history : list event) (b : A) : Prop :=
  match p with
  | Return a => history = [] /\ b = a
  | Call c k => exists x rest, history = called _ c x :: rest /\ exec (k x) rest b
  end.

(** On services over a world [W]. *)
Fixpoint run_prog {W A} (serve : forall X, service X -> W -> X * W) (p : prog service A) (w : W)
    : A * W :=
  match p with
  | Return a => (a, w)
  | Call c k => let '(x, w') := serve _ c w in run_prog serve (k x) w'
  end.

Fixpoint run_history {W A} (serve : forall X, service X -> W -> X * W) (p : prog service A) (w : W)
    : list event :=
  match p with
  | Return _ => []
  | Call c k => let '(x, w') := serve _ c w in called _ c x :: run_history serve (k x) w'
  end.

Lemma run_exec {W A} (serve : forall X, service X -> W -> X * W) (p : prog service A) w :
  exec p (run_history serve p w) (fst (run_prog serve p w)).
Proof.
  revert w. induction p as [a|X c k IH]; intros w; cbn; [done|].
  destruct (serve X c w) as [x w'] eqn:E. by exists x, (run_history serve (k x) w').
Qed.

Lemma run_bind {W A B} (serve : forall X, service X -> W -> X * W) (p : prog service A)
    (f : A -> prog service B) w :
  run_prog serve (prog_bind p f) w = let '(a, w') := run_prog serve p w in run_prog serve (f a) w'.
Proof.
  revert w. induction p as [a|X c k IH]; intros w; cbn; [done|].
  destruct (serve X c w) as [x w']. apply IH.
Qed.

Lemma run_and_then {W A B} (serve : forall X, service X -> W -> X * W) (p : prog service (res A))
    (f : A -> prog service (res B)) w a w' :
  run_prog serve p w = (Ok a, w') ->
  run_prog serve (and_then p f) w = run_prog serve (f a) w'.
Proof. intros Hp. unfold and_then. by rewrite run_bind, Hp. Qed.

Lemma run_ask {W X} (serve : forall X, service X -> W -> X * W) (c : service X) w :
  run_prog serve (ask c) w = serve X c w.
Proof. cbn. by destruct (serve X c w). Qed.

(** ** What is true of every call of a program *)

Section allowed.
Variable allowed : forall X, service X -> Prop.

Fixpoint all_calls {A} (p : prog service A) : Prop :=
  match p with
  | Return _ => True
  | Call c k => allowed _ c /\ forall x, all_calls (k x)
  end.

Definition allowed_event (e : event) : Prop := allowed (ev_type e) (ev_call e).

Lemma all_calls_exec {A} (p : prog service A) history a :
  all_calls p -> exec p history a -> Forall allowed_event history.
Proof.
  revert history. induction p as [b|X c k IH]; intros history.
  { intros _ [-> _]. constructor. }
  intros [Hc Hk] (x & rest & -> & He). constructor; [done|]. by eapply IH.
Qed.

Lemma all_calls_ask {X} (c : service X) : allowed X c -> all_calls (ask c).
Proof. by split. Qed.

Lemma all_calls_bind {A B} (p : prog service A) (f : A -> prog service B) :
  all_calls p -> (forall a, all_calls (f a)) -> all_calls (prog_bind p f).
Proof.
  intros Hp Hf. induction p as [a|X c k IH]; [apply Hf|].
  destruct Hp as [Hc Hk]. split; [done|]. intros x. apply IH, Hk.
Qed.

Lemma all_calls_and_then {A B} (p : prog service (res A)) (f : A -> prog service (res B)) :
  all_calls p -> (forall a, all_calls (f a)) -> all_calls (and_then p f).
Proof. intros Hp Hf. apply all_calls_bind; [done|]. by intros [a|e]. Qed.

Lemma all_calls_map {A B} (f : A -> B) (p : prog service (res A)) :
  all_calls p -> all_calls (map_result f p).
Proof. intros Hp. by apply all_calls_and_then. Qed.

Lemma all_calls_steps {A B} (step : A -> B -> prog service (res A)) a l :
  (forall a b, all_calls (step a b)) -> all_calls (steps_in_order step a l).
Proof.
  intros Hs. revert a. induction l as [|b l IH]; intros a; [done|].
  apply all_calls_and_then; [apply Hs|]. intros a'. apply IH.
Qed.

End allowed.

Lemma all_calls_mono {A} (P Q : forall X, service X -> Prop) (p : prog service A) :
  (forall X c, P X c -> Q X c) -> all_calls P p -> all_calls Q p.
Proof.
  intros HPQ. induction p as [a|X c k IH]; [done|]. intros [Hc Hk].
  split; [by apply HPQ|]. intros x. by apply IH.
Qed.

(** ** What an execution of a composed program is made of *)

Lemma exec_bind {A B} (p : prog service A) (f : A -> prog service B) history b :
  exec (prog_bind p f) history b ->
  exists first a rest, history = first ++ rest /\ exec p first a /\ exec (f a) rest b.
Proof.
  revert history. induction p as [a|X c k IH]; intros history He.
  { by exists [], a, history. }
  destruct He as (x & history' & -> & He).
  destruct (IH x _ He) as (first & a & rest & -> & Hp & Hf).
  exists (called X c x :: first), a, rest. split; [done|]. split; [by exists x, first|done].
Qed.

Lemma exec_and_then {A B} (p : prog service (res A)) (f : A -> prog service (res B)) history r :
  exec (and_then p f) history r ->
  (exists e, exec p history (Err e) /\ r = Err e) \/
  (exists first a rest, history = first ++ rest /\ exec p first (Ok a) /\ exec (f a) rest r).
Proof.
  intros (first & [a|e] & rest & -> & Hp & Hf)%exec_bind; [right; by exists first, a, rest|].
  left. destruct Hf as [-> ->]. exists e. by rewrite app_nil_r.
Qed.

End programs.

(** ** A goroutine beside a program

    It makes one call over and over, at its own times, until that call fails or
    the program ends.  Before the [n]-th call of the program, and before its
    end, it comes [ticks n] times. *)
Section beside.
Context {service : Type -> Type}.
Variable beat : service (res unit).
Variable ticks : nat -> nat.

(** Whether it goes on. *)
Fixpoint beats (times : nat) : prog service bool :=
  match times with
  | O => Return true
  | S times => Call beat (fun r => match r with Ok _ => beats times | Err _ => Return false end)
  end.

Definition beats_if (alive : bool) (n : nat) : prog service bool :=
  if alive then beats (ticks n) else Return false.

Fixpoint beside {A} (n : nat) (alive : bool) (p : prog service A) : prog service A :=
  match p with
  | Return a => prog_bind (beats_if alive n) (fun _ => Return a)
  | Call c k => prog_bind (beats_if alive n) (fun alive => Call c (fun x => beside (S n) alive (k x)))
  end.

(** The second history is the first one with calls of the goroutine in between,
    none after one that failed. *)
Inductive interspersed : bool -> list event -> list event -> Prop :=
| interspersed_nil alive : interspersed alive [] []
| interspersed_call alive e inner outer :
    interspersed alive inner outer -> interspersed alive (e :: inner) (e :: outer)
| interspersed_beat r inner outer :
    interspersed (match r with Ok _ => true | Err _ => false end) inner outer ->
    interspersed true inner (called _ beat r :: outer).

Lemma exec_beats times history alive inner outer :
  exec (beats times) history alive -> interspersed alive inner outer ->
  interspersed true inner (history ++ outer).
Proof.
  revert history. induction times as [|times IH]; intros history.
  { by intros [-> ->]. }
  intros (r & rest & -> & He) Hi. apply interspersed_beat. destruct r as [u|e].
  - by apply IH.
  - by destruct He as [-> ->].
Qed.

Lemma exec_beats_if alive n history alive' inner outer :
  exec (beats_if alive n) history alive' -> interspersed alive' inner outer ->
  interspersed alive inner (history ++ outer).
Proof. destruct alive; [apply exec_beats|]. by intros [-> ->]. Qed.

Lemma exec_beside {A} n alive (p : prog service A) history a :
  exec (beside n alive p) history a -> exists inner, exec p inner a /\ interspersed alive inner history.
Proof.
  revert n alive history. induction p as [b|X c k IH]; intros n alive history;
    cbn [beside]; intros (first & alive' & rest & -> & Hb & He)%exec_bind.
  - destruct He as [-> ->]. exists []. split; [done|].
    eapply exec_beats_if; [done|constructor].
  - destruct He as (x & rest' & -> & He). destruct (IH x _ _ _ He) as (inner & Hp & Hi).
    exists (called X c x :: inner). split; [by exists x, inner|].
    eapply exec_beats_if; [done|by constructor].
Qed.

Lemma all_calls_beside {A} (allowed : forall X, service X -> Prop) n alive (p : prog service A) :
  allowed _ beat -> all_calls allowed p -> all_calls allowed (beside n alive p).
Proof.
  intros Hb. assert (Hbeats : forall alive n, all_calls allowed (beats_if alive n)).
  { intros al m. destruct al; [|done]. cbn. induction (ticks m) as [|t IHt]; [done|].
    split; [done|]. by intros [u|e]. }
  revert n alive. induction p as [a|X c k IH]; intros n alive Hp; cbn [beside].
  - by apply all_calls_bind.
  - destruct Hp as [Hc Hk]. apply all_calls_bind; [done|]. intros al. split; [done|]. auto.
Qed.

End beside.

Declare Scope prog_scope.
Delimit Scope prog_scope with prog.
Notation "'let!' x := p 'in' q" := (and_then p (fun x => q))
  (at level 200, x name, p at level 200, q at level 200) : prog_scope.
Notation "'let*' x := p 'in' q" := (prog_bind p (fun x => q))
  (at level 200, x name, p at level 200, q at level 200) : prog_scope.
Notation "'do!' p 'in' q" := (and_then p (fun _ => q))
  (at level 200, p at level 200, q at level 200) : prog_scope.
Notation "'try!' x := r 'in' q" := (match r with Ok x => q | Err e => Return (Err e) end)
  (at level 200, x pattern, r at level 200, q at level 200) : prog_scope.
#[global] Open Scope prog_scope.

(** Goals that every call of a program is allowed. *)
Create HintDb calls discriminated.
#[export] Hint Resolve all_calls_ask all_calls_map : calls.
