(* ===== verification/WfTypes.v ===== *)
(** * Workflow values: states, actors, artifact references, envelopes

    Models [go/internal/workflow/types.go] and the sentinel errors of the
    package. *)

From S2P Require Import Prelude GoStd.

(** ** Sentinel errors *)

Definition ErrInvalid : error := ErrNew "workflow: invalid workflow value".
Definition ErrInvalidTransition : error := ErrNew "workflow: invalid transition".
Definition ErrUnauthorized : error := ErrNew "workflow: unauthorized actor".
Definition ErrRevisionConflict : error := ErrNew "workflow: revision conflict".
Definition ErrCommandConflict : error :=
  ErrNew "workflow: command ID reused with different content".
Definition ErrNotFound : error := ErrNew "workflow: aggregate not found".

(** [fmt.Errorf("%w: msg", ErrInvalid)] *)
Definition invalid (msg : string) : error := ErrWrap ErrInvalid msg.

(** ** States of a run and of a task

    Both are Go strings; a value outside the closed set can reach the code
    from a caller or from a row. *)

Inductive RunState :=
| RunStateDraft
| RunStateSpecificationReview
| RunStateTaskPlanning
| RunStateTaskPlanReview
| RunStateReady
| RunStateExecuting
| RunStateVerifying
| RunStateReviewing
| RunStateAwaitingApproval
| RunStateMergeReady
| RunStateMerged
| RunStateRejected
| RunStateFailed
| RunStateCancelled
| RunStateOther (s : string).

#[global] Instance RunState_eq_dec : EqDecision RunState.
Proof. solve_decision. Defined.

Definition RunState_string (s : RunState) : string :=
  match s with
  | RunStateDraft => "DRAFT"
  | RunStateSpecificationReview => "SPECIFICATION_REVIEW"
  | RunStateTaskPlanning => "TASK_PLANNING"
  | RunStateTaskPlanReview => "TASK_PLAN_REVIEW"
  | RunStateReady => "READY"
  | RunStateExecuting => "EXECUTING"
  | RunStateVerifying => "VERIFYING"
  | RunStateReviewing => "REVIEWING"
  | RunStateAwaitingApproval => "AWAITING_APPROVAL"
  | RunStateMergeReady => "MERGE_READY"
  | RunStateMerged => "MERGED"
  | RunStateRejected => "REJECTED"
  | RunStateFailed => "FAILED"
  | RunStateCancelled => "CANCELLED"
  | RunStateOther s => s
  end.

Definition RunState_Validate (s : RunState) : res unit :=
  match s with
  | RunStateOther _ => Err (invalid "run state")
  | _ => Ok tt
  end.

Definition RunState_Terminal (s : RunState) : bool :=
  (s == RunStateMerged) || (s == RunStateRejected) ||
  (s == RunStateFailed) || (s == RunStateCancelled).

Inductive TaskState :=
| TaskStatePending
| TaskStateReady
| TaskStateLeased
| TaskStateReasoning
| TaskStateProposalRejected
| TaskStateExecuting
| TaskStateVerifying
| TaskStateReviewing
| TaskStateReworkRequired
| TaskStateAwaitingApproval
| TaskStateAccepted
| TaskStateFailed
| TaskStateCancelled
| TaskStateOther (s : string).

#[global] Instance TaskState_eq_dec : EqDecision TaskState.
Proof. solve_decision. Defined.

Definition TaskState_string (s : TaskState) : string :=
  match s with
  | TaskStatePending => "PENDING"
  | TaskStateReady => "READY"
  | TaskStateLeased => "LEASED"
  | TaskStateReasoning => "REASONING"
  | TaskStateProposalRejected => "PROPOSAL_REJECTED"
  | TaskStateExecuting => "EXECUTING"
  | TaskStateVerifying => "VERIFYING"
  | TaskStateReviewing => "REVIEWING"
  | TaskStateReworkRequired => "REWORK_REQUIRED"
  | TaskStateAwaitingApproval => "AWAITING_APPROVAL"
  | TaskStateAccepted => "ACCEPTED"
  | TaskStateFailed => "FAILED"
  | TaskStateCancelled => "CANCELLED"
  | TaskStateOther s => s
  end.

Definition TaskState_Validate (s : TaskState) : res unit :=
  match s with
  | TaskStateOther _ => Err (invalid "task state")
  | _ => Ok tt
  end.

Definition TaskState_Terminal (s : TaskState) : bool :=
  (s == TaskStateAccepted) || (s == TaskStateFailed) || (s == TaskStateCancelled).

(** ** Actors *)

Inductive ActorKind :=
| ActorHuman
| ActorWorkflowService
| ActorReasoningService
| ActorExecutionService
| ActorVerificationService
| ActorReviewService
| ActorPublicationService
| ActorMergeService
| ActorPython
| ActorModel
| ActorOther (s : string).

#[global] Instance ActorKind_eq_dec : EqDecision ActorKind.
Proof. solve_decision. Defined.

Record Actor := mkActor { Actor_ID : string; Actor_Kind : ActorKind }.

#[global] Instance Actor_eq_dec : EqDecision Actor.
Proof. solve_decision. Defined.

Definition digestPattern : string -> bool := match_hex 64.
Definition commitPattern : string -> bool := match_hex 40.

Record ArtifactRef := mkArtifactRef { URI : string; Digest : string }.

#[global] Instance ArtifactRef_eq_dec : EqDecision ArtifactRef.
Proof. solve_decision. Defined.

Record CommandEnvelope := mkEnvelope {
  CommandID : string;
  Envelope_Actor : Actor;
  ExpectedRevision : Z;
  Timestamp : time;
  CorrelationID : string;
  CausationID : string;
}.

#[global] Instance CommandEnvelope_eq_dec : EqDecision CommandEnvelope.
Proof. solve_decision. Defined.

Definition ArtifactRef_Equal (a other : ArtifactRef) : bool :=
  (URI a == URI other) && (Digest a == Digest other).

Definition validateReason (reason : string) : res unit :=
  if blank reason then Err (invalid "reason") else Ok tt.

Section validation.
Context `{Platform}.

Definition validateID (label value : string) : res unit :=
  if uuid_Parse_ok value then Ok tt else Err (invalid (label +:+ " ID")).

Definition Actor_Validate (a : Actor) : res unit :=
  validateID "actor" (Actor_ID a) ;;
  match Actor_Kind a with
  | ActorOther _ => Err (invalid "actor kind")
  | _ => Ok tt
  end.

Definition ArtifactRef_Validate (a : ArtifactRef) : res unit :=
  if negb (absolute_request_uri authority_ok (URI a)) then Err (invalid "artifact URI")
  else if negb (digestPattern (Digest a)) then Err (invalid "artifact digest")
  else Ok tt.

(** The three identifiers sit in a Go map whose iteration order is open: the
    label in the error is the first offending one of that order. *)
Definition CommandEnvelope_Validate (e : CommandEnvelope) : res unit :=
  for_each (fun '(label, value) => validateID label value)
    (arbitrary_order [("command", CommandID e); ("correlation", CorrelationID e);
                      ("causation", CausationID e)]) ;;
  Actor_Validate (Envelope_Actor e) ;;
  if IsZero (Timestamp e) then Err (invalid "command timestamp") else Ok tt.

End validation.

(** A [*ArtifactRef] that, when set, must be valid. *)
Definition validate_optional `{Platform} (a : option ArtifactRef) : res unit :=
  match a with Some r => ArtifactRef_Validate r | None => Ok tt end.

Definition validateBoundArtifact `{Platform}
    (bound : option ArtifactRef) (supplied : ArtifactRef) (label : string) : res unit :=
  ArtifactRef_Validate supplied ;;
  match bound with
  | None => Err (invalid (label +:+ " binding"))
  | Some b => if ArtifactRef_Equal b supplied then Ok tt
              else Err (invalid (label +:+ " binding"))
  end.

Definition trustedOperationalActor (kind : ActorKind) : bool :=
  match kind with
  | ActorWorkflowService | ActorReasoningService | ActorExecutionService
  | ActorVerificationService | ActorReviewService => true
  | _ => false
  end.

(** ** Events *)

Inductive payload_value := PStr (s : string) | PNum (n : Z).

#[global] Instance payload_value_eq_dec : EqDecision payload_value.
Proof. solve_decision. Defined.

(** [map[string]any] with string and number values. *)
Abbreviation payload_map := (gmap string payload_value).

Record Event := mkEvent {
  Event_ID : string;
  AggregateType : string;
  AggregateID : string;
  Event_Revision : Z;
  Event_Type : string;
  Event_Timestamp : time;
  Event_Actor : Actor;
  Event_CorrelationID : string;
  Event_CausationID : string;
  Payload : payload_map;
}.

#[global] Instance Event_eq_dec : EqDecision Event.
Proof. solve_decision. Defined.

Definition artifactPayload (prefix : string) (a : ArtifactRef) : payload_map :=
  <[prefix +:+ "_uri" := PStr (URI a)]> {[prefix +:+ "_digest" := PStr (Digest a)]}.

(** ** Lemmas *)

Lemma ArtifactRef_Equal_eq a b : ArtifactRef_Equal a b = true <-> a = b.
Proof.
  unfold ArtifactRef_Equal. rewrite andb_true_iff, !bool_decide_eq_true.
  destruct a, b; simpl. naive_solver.
Qed.

Lemma validateBoundArtifact_Ok `{Platform} bound supplied label u :
  validateBoundArtifact bound supplied label = Ok u ->
  bound = Some supplied /\ ArtifactRef_Validate supplied = Ok tt.
Proof.
  unfold validateBoundArtifact. intros Hr.
  apply res_bind_Ok in Hr as ([] & Hv & Hr).
  destruct bound as [b|]; [|discriminate].
  destruct (ArtifactRef_Equal b supplied) eqn:E; [|discriminate].
  apply ArtifactRef_Equal_eq in E as ->. done.
Qed.

Lemma RunState_Terminal_spec s :
  RunState_Terminal s = true <->
  s = RunStateMerged \/ s = RunStateRejected \/ s = RunStateFailed \/ s = RunStateCancelled.
Proof.
  unfold RunState_Terminal. rewrite !orb_true_iff, !bool_decide_eq_true. tauto.
Qed.

Lemma TaskState_Terminal_spec s :
  TaskState_Terminal s = true <->
  s = TaskStateAccepted \/ s = TaskStateFailed \/ s = TaskStateCancelled.
Proof.
  unfold TaskState_Terminal. rewrite !orb_true_iff, !bool_decide_eq_true. tauto.
Qed.

Lemma CommandEnvelope_Validate_Ok `{PlatformLaws} e :
  CommandEnvelope_Validate e = Ok tt <->
  uuid_Parse_ok (CommandID e) = true /\ uuid_Parse_ok (CorrelationID e) = true /\
  uuid_Parse_ok (CausationID e) = true /\
  Actor_Validate (Envelope_Actor e) = Ok tt /\ IsZero (Timestamp e) = false.
Proof.
  assert (Hid : forall l v, validateID l v = Ok tt <-> uuid_Parse_ok v = true).
  { intros l v. unfold validateID. destruct (uuid_Parse_ok v); naive_solver. }
  unfold CommandEnvelope_Validate. split.
  - intros ([] & Hf & ([] & Ha & Ht)%res_bind_Ok)%res_bind_Ok.
    apply for_each_Ok in Hf. rewrite arbitrary_order_perm, !Forall_cons in Hf.
    destruct Hf as (?%Hid & ?%Hid & ?%Hid & _).
    destruct (IsZero (Timestamp e)); [discriminate|done].
  - intros (H1 & H2 & H3 & Ha & Ht).
    apply res_bind_Ok. exists tt. split.
    + apply for_each_Ok. rewrite arbitrary_order_perm, !Forall_cons, Forall_nil.
      rewrite !Hid. done.
    + apply res_bind_Ok. exists tt. by rewrite Ht.
Qed.
