(* ===== verification/WfTask.v ===== *)
(** * Tasks: the task state machine

    Models [go/internal/workflow/task.go]: leases, the task snapshot, the
    thirteen task commands and [Task.Apply].  (The creation of tasks from an
    approved task graph, in the same file, is in [WfPlan].) *)

From S2P Require Import Prelude GoStd WfTypes.

(** ** Data *)

Record LeaseRef := mkLease {
  Lease_ID : string;
  OwnerID : string;
  ExpiresAt : time;
  FencingToken : Z;
}.

#[global] Instance LeaseRef_eq_dec : EqDecision LeaseRef.
Proof. solve_decision. Defined.

(** Expiry is compared at the microsecond resolution of the database. *)
Definition LeaseRef_Equal (l other : LeaseRef) : bool :=
  (Lease_ID l == Lease_ID other) && (OwnerID l == OwnerID other) &&
  (UnixMicro (ExpiresAt l) =? UnixMicro (ExpiresAt other)) &&
  (FencingToken l =? FencingToken other).

Record Task := mkTask {
  Task_ID : string;
  Task_RunID : string;
  Task_State : TaskState;
  Task_Revision : Z;
  MaxAttempts : Z;
  CurrentAttempt : Z;
  Lease : option LeaseRef;
  Proposal : option ArtifactRef;
  Execution : option ArtifactRef;
  CandidateCommit : string;
  Verification : option ArtifactRef;
  Review : option ArtifactRef;
  Approval : option ArtifactRef;
  Task_CreatedAt : time;
  Task_UpdatedAt : time;
}.

#[global] Instance Task_eq_dec : EqDecision Task.
Proof. solve_decision. Defined.

(** Assignments to the fields of a copied snapshot ([next := t; next.X = v]). *)

Definition set_Task_State (v : TaskState) (t : Task) : Task :=
  mkTask (Task_ID t) (Task_RunID t) v (Task_Revision t) (MaxAttempts t)
    (CurrentAttempt t) (Lease t) (Proposal t) (Execution t) (CandidateCommit t)
    (Verification t) (Review t) (Approval t) (Task_CreatedAt t) (Task_UpdatedAt t).
Definition set_Task_Revision (v : Z) (t : Task) : Task :=
  mkTask (Task_ID t) (Task_RunID t) (Task_State t) v (MaxAttempts t) (CurrentAttempt
    t) (Lease t) (Proposal t) (Execution t) (CandidateCommit t) (Verification t) (Review
    t) (Approval t) (Task_CreatedAt t) (Task_UpdatedAt t).
Definition set_CurrentAttempt (v : Z) (t : Task) : Task :=
  mkTask (Task_ID t) (Task_RunID t) (Task_State t) (Task_Revision t) (MaxAttempts t) v
    (Lease t) (Proposal t) (Execution t) (CandidateCommit t) (Verification t) (Review t)
    (Approval t) (Task_CreatedAt t) (Task_UpdatedAt t).
Definition set_Lease (v : option LeaseRef) (t : Task) : Task :=
  mkTask (Task_ID t) (Task_RunID t) (Task_State t) (Task_Revision t) (MaxAttempts t)
    (CurrentAttempt t) v (Proposal t) (Execution t) (CandidateCommit t) (Verification t)
    (Review t) (Approval t) (Task_CreatedAt t) (Task_UpdatedAt t).
Definition set_Proposal (v : option ArtifactRef) (t : Task) : Task :=
  mkTask (Task_ID t) (Task_RunID t) (Task_State t) (Task_Revision t) (MaxAttempts t)
    (CurrentAttempt t) (Lease t) v (Execution t) (CandidateCommit t) (Verification t)
    (Review t) (Approval t) (Task_CreatedAt t) (Task_UpdatedAt t).
Definition set_Execution (v : option ArtifactRef) (t : Task) : Task :=
  mkTask (Task_ID t) (Task_RunID t) (Task_State t) (Task_Revision t) (MaxAttempts t)
    (CurrentAttempt t) (Lease t) (Proposal t) v (CandidateCommit t) (Verification t)
    (Review t) (Approval t) (Task_CreatedAt t) (Task_UpdatedAt t).
Definition set_CandidateCommit (v : string) (t : Task) : Task :=
  mkTask (Task_ID t) (Task_RunID t) (Task_State t) (Task_Revision t) (MaxAttempts t)
    (CurrentAttempt t) (Lease t) (Proposal t) (Execution t) v (Verification t) (Review
    t) (Approval t) (Task_CreatedAt t) (Task_UpdatedAt t).
Definition set_Verification (v : option ArtifactRef) (t : Task) : Task :=
  mkTask (Task_ID t) (Task_RunID t) (Task_State t) (Task_Revision t) (MaxAttempts t)
    (CurrentAttempt t) (Lease t) (Proposal t) (Execution t) (CandidateCommit t) v
    (Review t) (Approval t) (Task_CreatedAt t) (Task_UpdatedAt t).
Definition set_Review (v : option ArtifactRef) (t : Task) : Task :=
  mkTask (Task_ID t) (Task_RunID t) (Task_State t) (Task_Revision t) (MaxAttempts t)
    (CurrentAttempt t) (Lease t) (Proposal t) (Execution t) (CandidateCommit t)
    (Verification t) v (Approval t) (Task_CreatedAt t) (Task_UpdatedAt t).
Definition set_Approval (v : option ArtifactRef) (t : Task) : Task :=
  mkTask (Task_ID t) (Task_RunID t) (Task_State t) (Task_Revision t) (MaxAttempts t)
    (CurrentAttempt t) (Lease t) (Proposal t) (Execution t) (CandidateCommit t)
    (Verification t) (Review t) v (Task_CreatedAt t) (Task_UpdatedAt t).
Definition set_Task_UpdatedAt (v : time) (t : Task) : Task :=
  mkTask (Task_ID t) (Task_RunID t) (Task_State t) (Task_Revision t) (MaxAttempts t)
    (CurrentAttempt t) (Lease t) (Proposal t) (Execution t) (CandidateCommit t)
    (Verification t) (Review t) (Approval t) (Task_CreatedAt t) v.

(** A command, one constructor per Go struct; the last one is the nil
    interface value. *)
Inductive TaskCommand :=
| LeaseTask (Meta : CommandEnvelope) (Run ID : string) (lease : LeaseRef)
| ReleaseTaskLease (Meta : CommandEnvelope) (Run ID : string) (lease : LeaseRef)
| StartReasoning (Meta : CommandEnvelope) (Run ID : string) (lease : LeaseRef)
| RejectTaskProposal (Meta : CommandEnvelope) (Run ID : string)
    (proposal : ArtifactRef) (Reason : string)
| AcceptTaskProposal (Meta : CommandEnvelope) (Run ID : string)
    (proposal : ArtifactRef) (lease : LeaseRef)
| RecordTaskExecution (Meta : CommandEnvelope) (Run ID : string)
    (proposal execution : ArtifactRef) (candidate : string) (lease : LeaseRef)
| RecordTaskVerification (Meta : CommandEnvelope) (Run ID : string)
    (candidate : string) (Evidence : ArtifactRef) (Passed : bool)
| RecordTaskReview (Meta : CommandEnvelope) (Run ID : string)
    (candidate : string) (review : ArtifactRef) (Passed : bool)
| ApproveTask (Meta : CommandEnvelope) (Run ID : string)
    (candidate : string) (review approval : ArtifactRef)
| RequireTaskRework (Meta : CommandEnvelope) (Run ID : string)
    (candidate : string) (review : ArtifactRef) (Reason : string)
| RetryTask (Meta : CommandEnvelope) (Run ID : string)
| FailTask (Meta : CommandEnvelope) (Run ID : string)
    (Evidence : ArtifactRef) (Reason : string)
| CancelTask (Meta : CommandEnvelope) (Run ID : string) (Reason : string)
| NilTaskCommand.

#[global] Instance TaskCommand_eq_dec : EqDecision TaskCommand.
Proof. solve_decision. Defined.

(** The method [Envelope], [None] for the nil interface. *)
Definition TaskCommand_Envelope (c : TaskCommand) : option CommandEnvelope :=
  match c with
  | LeaseTask m _ _ _ | ReleaseTaskLease m _ _ _ | StartReasoning m _ _ _
  | RejectTaskProposal m _ _ _ _ | AcceptTaskProposal m _ _ _ _
  | RecordTaskExecution m _ _ _ _ _ _ | RecordTaskVerification m _ _ _ _ _
  | RecordTaskReview m _ _ _ _ _ | ApproveTask m _ _ _ _ _
  | RequireTaskRework m _ _ _ _ _ | RetryTask m _ _ | FailTask m _ _ _ _
  | CancelTask m _ _ _ => Some m
  | NilTaskCommand => None
  end.

Definition TaskCommand_RunID (c : TaskCommand) : string :=
  match c with
  | LeaseTask _ r _ _ | ReleaseTaskLease _ r _ _ | StartReasoning _ r _ _
  | RejectTaskProposal _ r _ _ _ | AcceptTaskProposal _ r _ _ _
  | RecordTaskExecution _ r _ _ _ _ _ | RecordTaskVerification _ r _ _ _ _
  | RecordTaskReview _ r _ _ _ _ | ApproveTask _ r _ _ _ _
  | RequireTaskRework _ r _ _ _ _ | RetryTask _ r _ | FailTask _ r _ _ _
  | CancelTask _ r _ _ => r
  | NilTaskCommand => ""
  end.

Definition TaskCommand_TaskID (c : TaskCommand) : string :=
  match c with
  | LeaseTask _ _ i _ | ReleaseTaskLease _ _ i _ | StartReasoning _ _ i _
  | RejectTaskProposal _ _ i _ _ | AcceptTaskProposal _ _ i _ _
  | RecordTaskExecution _ _ i _ _ _ _ | RecordTaskVerification _ _ i _ _ _
  | RecordTaskReview _ _ i _ _ _ | ApproveTask _ _ i _ _ _
  | RequireTaskRework _ _ i _ _ _ | RetryTask _ _ i | FailTask _ _ i _ _
  | CancelTask _ _ i _ => i
  | NilTaskCommand => ""
  end.

Record taskTransition := mkTaskTransition {
  task_next : Task;
  task_eventType : string;
  task_payload : payload_map;
}.

(** ** Validation *)

Section operations.
Context `{Platform}.

Definition LeaseRef_Validate (l : LeaseRef) : res unit :=
  validateID "lease" (Lease_ID l) ;;
  validateID "lease owner" (OwnerID l) ;;
  if IsZero (ExpiresAt l) then Err (invalid "lease expiry")
  else if FencingToken l =? 0 then Err (invalid "lease fencing token")
  else Ok tt.

Definition validateSnapshot (t : Task) : res unit :=
  validateID "task" (Task_ID t) ;;
  validateID "run" (Task_RunID t) ;;
  TaskState_Validate (Task_State t) ;;
  if (Task_Revision t =? 0) || (MaxAttempts t =? 0) ||
     (MaxAttempts t <? CurrentAttempt t) ||
     IsZero (Task_CreatedAt t) || IsZero (Task_UpdatedAt t)
  then Err (invalid "task snapshot") else Ok tt.

Definition validateBindings (t : Task) : res unit :=
  match Lease t with Some l => LeaseRef_Validate l | None => Ok tt end ;;
  for_each validate_optional [Proposal t; Execution t; Verification t; Review t; Approval t] ;;
  if (CandidateCommit t != "") && negb (commitPattern (CandidateCommit t))
  then Err (invalid "candidate commit") else Ok tt.

Definition Task_Validate (t : Task) : res unit :=
  validateSnapshot t ;; validateBindings t.

Definition validateTaskCommand (command : TaskCommand) : res unit :=
  match TaskCommand_Envelope command with
  | None => Err (invalid "nil command")
  | Some meta =>
      CommandEnvelope_Validate meta ;;
      validateID "run" (TaskCommand_RunID command) ;;
      validateID "task" (TaskCommand_TaskID command)
  end.

Definition validateLease (bound : option LeaseRef) (supplied : LeaseRef) : res unit :=
  LeaseRef_Validate supplied ;;
  match bound with
  | Some b => if LeaseRef_Equal b supplied then Ok tt else Err (invalid "lease binding")
  | None => Err (invalid "lease binding")
  end.

Definition validateActiveLease (t : Task) (lease : LeaseRef) (now : time) : res unit :=
  LeaseRef_Validate lease ;;
  match Lease t with
  | None => Err (ErrWrap ErrRevisionConflict "stale task lease")
  | Some bound =>
      if negb (LeaseRef_Equal bound lease)
      then Err (ErrWrap ErrRevisionConflict "stale task lease")
      else if negb (Before now (ExpiresAt bound))
      then Err (ErrWrap ErrRevisionConflict "expired task lease")
      else Ok tt
  end.

Definition Task_validateHumanReview
    (t : Task) (actor : Actor) (candidateCommit : string) (review : ArtifactRef) : res unit :=
  if Task_State t != TaskStateAwaitingApproval then Err ErrInvalidTransition
  else if Actor_Kind actor != ActorHuman then Err ErrUnauthorized
  else if candidateCommit != CandidateCommit t then Err (invalid "candidate commit")
  else validateBoundArtifact (Review t) review "review".

Definition Task_validateCommand (t : Task) (command : TaskCommand) : res unit :=
  Task_Validate t ;;
  validateTaskCommand command ;;
  if (TaskCommand_TaskID command != Task_ID t) || (TaskCommand_RunID command != Task_RunID t)
  then Err (invalid "task identity mismatch")
  else
    match TaskCommand_Envelope command with
    | None => Err (invalid "nil command")
    | Some meta =>
        if ExpectedRevision meta != Task_Revision t then Err ErrRevisionConflict
        else if TaskState_Terminal (Task_State t) then Err ErrInvalidTransition
        else Ok tt
    end.

(** ** The transitions *)

Definition Task_lease (t : Task) (Meta : CommandEnvelope) (lease : LeaseRef)
    : res taskTransition :=
  if (Task_State t != TaskStateReady) || (MaxAttempts t <=? CurrentAttempt t)
  then Err ErrInvalidTransition
  else if Actor_Kind (Envelope_Actor Meta) != ActorWorkflowService then Err ErrUnauthorized
  else
    LeaseRef_Validate lease ;;
    if FencingToken lease != u32 (CurrentAttempt t + 1)
    then Err (invalid "lease fencing token")
    else
      let next := set_Lease (Some lease) t in
      let next := set_CurrentAttempt (u32 (CurrentAttempt next + 1)) next in
      let next := set_Task_State TaskStateLeased next in
      Ok (mkTaskTransition next "TASK_LEASED" {["lease_id" := PStr (Lease_ID lease)]}).

Definition Task_releaseLease (t : Task) (Meta : CommandEnvelope) (lease : LeaseRef)
    : res taskTransition :=
  if Task_State t != TaskStateLeased then Err ErrInvalidTransition
  else if Actor_Kind (Envelope_Actor Meta) != ActorWorkflowService then Err ErrUnauthorized
  else
    validateLease (Lease t) lease ;;
    let next := set_Lease None t in
    let next := set_Task_State TaskStateReady next in
    Ok (mkTaskTransition next "TASK_LEASE_RELEASED" ∅).

Definition Task_startReasoning (t : Task) (Meta : CommandEnvelope) (lease : LeaseRef)
    : res taskTransition :=
  if Task_State t != TaskStateLeased then Err ErrInvalidTransition
  else if Actor_Kind (Envelope_Actor Meta) != ActorReasoningService then Err ErrUnauthorized
  else
    validateLease (Lease t) lease ;;
    let next := set_Task_State TaskStateReasoning t in
    Ok (mkTaskTransition next "TASK_REASONING_STARTED" ∅).

Definition Task_rejectProposal (t : Task) (Meta : CommandEnvelope)
    (proposal : ArtifactRef) (Reason : string) : res taskTransition :=
  if Task_State t != TaskStateReasoning then Err ErrInvalidTransition
  else if (Actor_Kind (Envelope_Actor Meta) != ActorHuman) &&
          (Actor_Kind (Envelope_Actor Meta) != ActorReasoningService)
  then Err ErrUnauthorized
  else
    ArtifactRef_Validate proposal ;;
    validateReason Reason ;;
    let next := set_Proposal (Some proposal) t in
    let next := set_Task_State TaskStateProposalRejected next in
    Ok (mkTaskTransition next "TASK_PROPOSAL_REJECTED" ∅).

Definition Task_acceptProposal (t : Task) (Meta : CommandEnvelope)
    (proposal : ArtifactRef) (lease : LeaseRef) : res taskTransition :=
  if Task_State t != TaskStateReasoning then Err ErrInvalidTransition
  else if Actor_Kind (Envelope_Actor Meta) != ActorExecutionService then Err ErrUnauthorized
  else
    validateActiveLease t lease (Timestamp Meta) ;;
    ArtifactRef_Validate proposal ;;
    let next := set_Proposal (Some proposal) t in
    let next := set_Task_State TaskStateExecuting next in
    Ok (mkTaskTransition next "TASK_EXECUTION_STARTED" ∅).

Definition Task_recordExecution (t : Task) (Meta : CommandEnvelope)
    (proposal execution : ArtifactRef) (candidate : string) (lease : LeaseRef)
    : res taskTransition :=
  if Task_State t != TaskStateExecuting then Err ErrInvalidTransition
  else if Actor_Kind (Envelope_Actor Meta) != ActorExecutionService then Err ErrUnauthorized
  else
    validateActiveLease t lease (Timestamp Meta) ;;
    validateBoundArtifact (Proposal t) proposal "proposal" ;;
    if negb (is_Ok (ArtifactRef_Validate execution)) || negb (commitPattern candidate)
    then Err (invalid "execution binding")
    else
      let next := set_Execution (Some execution) t in
      let next := set_CandidateCommit candidate next in
      let next := set_Task_State TaskStateVerifying next in
      Ok (mkTaskTransition next "TASK_EXECUTED" ∅).

Definition Task_recordVerification (t : Task) (Meta : CommandEnvelope)
    (candidate : string) (Evidence : ArtifactRef) (Passed : bool) : res taskTransition :=
  if Task_State t != TaskStateVerifying then Err ErrInvalidTransition
  else if Actor_Kind (Envelope_Actor Meta) != ActorVerificationService then Err ErrUnauthorized
  else if candidate != CandidateCommit t then Err (invalid "candidate commit")
  else
    ArtifactRef_Validate Evidence ;;
    let next := set_Verification (Some Evidence) t in
    let '(state, eventType) :=
      if Passed then (TaskStateReviewing, "TASK_VERIFIED")
      else (TaskStateReworkRequired, "TASK_VERIFICATION_FAILED") in
    Ok (mkTaskTransition (set_Task_State state next) eventType ∅).

Definition Task_recordReview (t : Task) (Meta : CommandEnvelope)
    (candidate : string) (review : ArtifactRef) (Passed : bool) : res taskTransition :=
  if Task_State t != TaskStateReviewing then Err ErrInvalidTransition
  else if Actor_Kind (Envelope_Actor Meta) != ActorReviewService then Err ErrUnauthorized
  else if candidate != CandidateCommit t then Err (invalid "candidate commit")
  else
    ArtifactRef_Validate review ;;
    let next := set_Review (Some review) t in
    let '(state, eventType) :=
      if Passed then (TaskStateAwaitingApproval, "TASK_REVIEWED")
      else (TaskStateReworkRequired, "TASK_REVIEW_FAILED") in
    Ok (mkTaskTransition (set_Task_State state next) eventType ∅).

Definition Task_approve (t : Task) (Meta : CommandEnvelope)
    (candidate : string) (review approval : ArtifactRef) : res taskTransition :=
  Task_validateHumanReview t (Envelope_Actor Meta) candidate review ;;
  ArtifactRef_Validate approval ;;
  let next := set_Approval (Some approval) t in
  let next := set_Task_State TaskStateAccepted next in
  Ok (mkTaskTransition next "TASK_ACCEPTED" ∅).

Definition Task_requireRework (t : Task) (Meta : CommandEnvelope)
    (candidate : string) (review : ArtifactRef) (Reason : string) : res taskTransition :=
  Task_validateHumanReview t (Envelope_Actor Meta) candidate review ;;
  validateReason Reason ;;
  let next := set_Task_State TaskStateReworkRequired t in
  Ok (mkTaskTransition next "TASK_REWORK_REQUIRED" ∅).

Definition Task_retry (t : Task) (Meta : CommandEnvelope) : res taskTransition :=
  if (Task_State t != TaskStateProposalRejected) && (Task_State t != TaskStateReworkRequired)
  then Err ErrInvalidTransition
  else if Actor_Kind (Envelope_Actor Meta) != ActorWorkflowService then Err ErrUnauthorized
  else
    let next := set_Execution None (set_Proposal None (set_Lease None t)) in
    let next := set_Approval None (set_Review None (set_Verification None next)) in
    let next := set_CandidateCommit "" next in
    let '(state, eventType) :=
      if MaxAttempts t <=? CurrentAttempt t
      then (TaskStateFailed, "TASK_ATTEMPTS_EXHAUSTED")
      else (TaskStateReady, "TASK_RETRY_READY") in
    Ok (mkTaskTransition (set_Task_State state next) eventType ∅).

Definition Task_fail (t : Task) (Meta : CommandEnvelope)
    (Evidence : ArtifactRef) (Reason : string) : res taskTransition :=
  if negb (trustedOperationalActor (Actor_Kind (Envelope_Actor Meta)))
  then Err ErrUnauthorized
  else
    ArtifactRef_Validate Evidence ;;
    validateReason Reason ;;
    let next := set_Task_State TaskStateFailed t in
    Ok (mkTaskTransition next "TASK_FAILED" ∅).

Definition Task_cancel (t : Task) (Meta : CommandEnvelope) (Reason : string)
    : res taskTransition :=
  if Actor_Kind (Envelope_Actor Meta) != ActorWorkflowService then Err ErrUnauthorized
  else
    validateReason Reason ;;
    let next := set_Task_State TaskStateCancelled t in
    Ok (mkTaskTransition next "TASK_CANCELLED" ∅).

Definition applyCommand (t : Task) (command : TaskCommand) : res taskTransition :=
  match command with
  | LeaseTask m _ _ l => Task_lease t m l
  | ReleaseTaskLease m _ _ l => Task_releaseLease t m l
  | StartReasoning m _ _ l => Task_startReasoning t m l
  | RejectTaskProposal m _ _ p reason => Task_rejectProposal t m p reason
  | AcceptTaskProposal m _ _ p l => Task_acceptProposal t m p l
  | RecordTaskExecution m _ _ p e c l => Task_recordExecution t m p e c l
  | RecordTaskVerification m _ _ c e passed => Task_recordVerification t m c e passed
  | RecordTaskReview m _ _ c r passed => Task_recordReview t m c r passed
  | ApproveTask m _ _ c r a => Task_approve t m c r a
  | RequireTaskRework m _ _ c r reason => Task_requireRework t m c r reason
  | RetryTask m _ _ => Task_retry t m
  | FailTask m _ _ e reason => Task_fail t m e reason
  | CancelTask m _ _ reason => Task_cancel t m reason
  | NilTaskCommand => Err (invalid "unsupported task command")
  end.

Definition finishTaskTransition (transition : taskTransition) (meta : CommandEnvelope)
    : Task * list Event :=
  let next := set_Task_Revision (u64 (Task_Revision (task_next transition) + 1))
                (task_next transition) in
  let next := set_Task_UpdatedAt (UTC (Timestamp meta)) next in
  (next, [mkEvent (CommandID meta) "TASK" (Task_ID next) (Task_Revision next)
            (task_eventType transition) (UTC (Timestamp meta)) (Envelope_Actor meta)
            (CorrelationID meta) (CausationID meta) (task_payload transition)]).

Definition Task_Apply (t : Task) (command : TaskCommand) : res (Task * list Event) :=
  Task_validateCommand t command ;;
  transition ← applyCommand t command;
  match TaskCommand_Envelope command with
  | Some meta => Ok (finishTaskTransition transition meta)
  | None => Err (invalid "nil command")
  end.

End operations.

(** ** The contract of the task state machine

    The transition table of [docs/workflow-state-machine.md] and the evidence
    a task carries in each of its states. *)

(** The documented successors of a state under [Task.Apply] ([PENDING] is left
    by the store, not by a command, except for failure and cancellation). *)
Definition task_edge (s s' : TaskState) : bool :=
  match s, s' with
  | TaskStateReady, TaskStateLeased
  | TaskStateLeased, TaskStateReasoning
  | TaskStateLeased, TaskStateReady
  | TaskStateReasoning, TaskStateProposalRejected
  | TaskStateReasoning, TaskStateExecuting
  | TaskStateProposalRejected, TaskStateReady
  | TaskStateExecuting, TaskStateVerifying
  | TaskStateVerifying, TaskStateReviewing
  | TaskStateVerifying, TaskStateReworkRequired
  | TaskStateReviewing, TaskStateAwaitingApproval
  | TaskStateReviewing, TaskStateReworkRequired
  | TaskStateReworkRequired, TaskStateReady
  | TaskStateAwaitingApproval, TaskStateAccepted
  | TaskStateAwaitingApproval, TaskStateReworkRequired => true
  | _, TaskStateFailed | _, TaskStateCancelled => negb (TaskState_Terminal s)
  | _, _ => false
  end.

(** The actors a command accepts. *)
Definition task_actor_allowed (c : TaskCommand) (k : ActorKind) : bool :=
  match c with
  | LeaseTask _ _ _ _ | ReleaseTaskLease _ _ _ _ | RetryTask _ _ _
  | CancelTask _ _ _ _ => k == ActorWorkflowService
  | StartReasoning _ _ _ _ => k == ActorReasoningService
  | RejectTaskProposal _ _ _ _ _ => (k == ActorHuman) || (k == ActorReasoningService)
  | AcceptTaskProposal _ _ _ _ _ | RecordTaskExecution _ _ _ _ _ _ _ =>
      k == ActorExecutionService
  | RecordTaskVerification _ _ _ _ _ _ => k == ActorVerificationService
  | RecordTaskReview _ _ _ _ _ _ => k == ActorReviewService
  | ApproveTask _ _ _ _ _ _ | RequireTaskRework _ _ _ _ _ _ => k == ActorHuman
  | FailTask _ _ _ _ _ => trustedOperationalActor k
  | NilTaskCommand => false
  end.

(** How many of the bindings, in the order they are made, a state requires:
    [n] of lease, proposal, execution (with its commit), verification, review,
    approval are set and the rest are not. *)
Definition trail (t : Task) (lease prop exec ver rev app : bool) : Prop :=
  (if lease then is_Some (Lease t) else Lease t = None) /\
  (if prop then is_Some (Proposal t) else Proposal t = None) /\
  (if exec then is_Some (Execution t) /\ commitPattern (CandidateCommit t) = true
   else Execution t = None /\ CandidateCommit t = "") /\
  (if ver then is_Some (Verification t) else Verification t = None) /\
  (if rev then is_Some (Review t) else Review t = None) /\
  (if app then is_Some (Approval t) else Approval t = None).

Definition task_evidence (t : Task) : Prop :=
  match Task_State t with
  | TaskStatePending | TaskStateReady => trail t false false false false false false
  | TaskStateLeased | TaskStateReasoning => trail t true false false false false false
  | TaskStateProposalRejected | TaskStateExecuting =>
      trail t true true false false false false
  | TaskStateVerifying => trail t true true true false false false
  | TaskStateReviewing => trail t true true true true false false
  | TaskStateReworkRequired => exists reviewed, trail t true true true true reviewed false
  | TaskStateAwaitingApproval => trail t true true true true true false
  | TaskStateAccepted => trail t true true true true true true
  | TaskStateFailed | TaskStateCancelled => True
  | TaskStateOther _ => False
  end.

(** The lease in force carries the number of the attempt in progress, and the
    attempts stay within the limit, which is a uint32. *)
Definition task_fenced (t : Task) : Prop :=
  0 <= CurrentAttempt t <= MaxAttempts t /\ 1 <= MaxAttempts t <= max_u32 /\
  (Task_State t = TaskStatePending -> CurrentAttempt t = 0) /\
  (forall l, Lease t = Some l -> FencingToken l = CurrentAttempt t /\ 1 <= CurrentAttempt t).

Definition task_ok (t : Task) : Prop := task_evidence t /\ task_fenced t.

(** Remaining work of a task: attempts left, then the stage within the
    attempt. *)
Definition stage_rank (s : TaskState) : Z :=
  match s with
  | TaskStatePending => 9
  | TaskStateLeased => 8
  | TaskStateReasoning => 7
  | TaskStateProposalRejected | TaskStateExecuting => 6
  | TaskStateVerifying => 5
  | TaskStateReviewing => 4
  | TaskStateAwaitingApproval => 3
  | TaskStateReworkRequired => 2
  | TaskStateReady => 1
  | _ => 0
  end.

Definition task_work (t : Task) : Z :=
  10 * (MaxAttempts t - CurrentAttempt t) + stage_rank (Task_State t).

(** A history of accepted commands. *)
Fixpoint apply_all `{Platform} (t : Task) (cs : list TaskCommand) : res Task :=
  match cs with
  | [] => Ok t
  | c :: cs' => '(t', _) ← Task_Apply t c; apply_all t' cs'
  end.

(** ** Lemmas *)

#[export] Instance LeaseRef_equiv : Equiv LeaseRef := fun a b => LeaseRef_Equal a b = true.

Lemma LeaseRef_Equal_spec a b :
  LeaseRef_Equal a b = true <->
  Lease_ID a = Lease_ID b /\ OwnerID a = OwnerID b /\
  UnixMicro (ExpiresAt a) = UnixMicro (ExpiresAt b) /\ FencingToken a = FencingToken b.
Proof.
  unfold LeaseRef_Equal.
  rewrite !andb_true_iff, !bool_decide_eq_true, !Z.eqb_eq. tauto.
Qed.

#[export] Instance LeaseRef_equivalence : Equivalence (equiv (A := LeaseRef)).
Proof.
  split; unfold equiv, LeaseRef_equiv; hnf; intros; rewrite LeaseRef_Equal_spec in *;
    intuition congruence.
Qed.

(** Two leases that agree up to the resolution of the database are
    interchangeable for the binding check, provided both are valid leases. *)
#[export] Instance LeaseRef_Equal_proper :
  Proper ((≡) ==> (≡) ==> eq) LeaseRef_Equal.
Proof.
  intros a a' Ha b b' Hb. apply eq_true_iff_eq.
  change (LeaseRef_Equal a b = true) with (a ≡ b).
  change (LeaseRef_Equal a' b' = true) with (a' ≡ b').
  by rewrite Ha, Hb.
Qed.

Section lemmas.
Context `{Platform}.

Lemma Task_Apply_Ok t c t' evs :
  Task_Apply t c = Ok (t', evs) <->
  exists meta tr, TaskCommand_Envelope c = Some meta /\
    Task_validateCommand t c = Ok tt /\ applyCommand t c = Ok tr /\
    (t', evs) = finishTaskTransition tr meta.
Proof.
  unfold Task_Apply. split.
  - intros ([] & Hv & (tr & Ha & Hf)%res_bind_Ok)%res_bind_Ok.
    destruct (TaskCommand_Envelope c) as [meta|]; [|discriminate].
    exists meta, tr. split_and!; [done..|congruence].
  - intros (meta & tr & He & Hv & Ha & Hf).
    apply res_bind_Ok. exists tt. split; [done|].
    apply res_bind_Ok. exists tr. split; [done|]. rewrite He. congruence.
Qed.

Lemma LeaseRef_Validate_Ok l u :
  LeaseRef_Validate l = Ok u -> FencingToken l <> 0 /\ IsZero (ExpiresAt l) = false.
Proof.
  unfold LeaseRef_Validate. intros Hr. go_run Hr. split; [by apply Z.eqb_neq|done].
Qed.

Lemma validateActiveLease_Ok t l now u :
  validateActiveLease t l now = Ok u ->
  exists b, Lease t = Some b /\ b ≡ l /\ Before now (ExpiresAt b) = true /\
    LeaseRef_Validate l = Ok tt.
Proof.
  unfold validateActiveLease. intros Hr. go_run Hr.
  exists l0. rewrite negb_false_iff in *. done.
Qed.

Lemma validateLease_Ok bound l u :
  validateLease bound l = Ok u -> exists b, bound = Some b /\ b ≡ l.
Proof. unfold validateLease. intros Hr. go_run Hr. eauto. Qed.

Lemma Task_validateHumanReview_Ok t actor c r u :
  Task_validateHumanReview t actor c r = Ok u ->
  Task_State t = TaskStateAwaitingApproval /\ Actor_Kind actor = ActorHuman /\
  c = CandidateCommit t /\ Review t = Some r.
Proof.
  unfold Task_validateHumanReview. intros Hr. go_run Hr.
  apply validateBoundArtifact_Ok in Hr as [-> _].
  rewrite !negb_false_iff, !bool_decide_eq_true in *. done.
Qed.

Lemma Task_validateCommand_Ok t c u :
  Task_validateCommand t c = Ok u ->
  Task_Validate t = Ok tt /\ TaskCommand_TaskID c = Task_ID t /\
  TaskCommand_RunID c = Task_RunID t /\ TaskState_Terminal (Task_State t) = false /\
  validateTaskCommand c = Ok tt /\
  exists meta, TaskCommand_Envelope c = Some meta /\ ExpectedRevision meta = Task_Revision t.
Proof.
  unfold Task_validateCommand. intros Hr. go_run Hr.
  rewrite !orb_false_iff, !negb_false_iff, !bool_decide_eq_true in *. naive_solver.
Qed.

(** The shape of every accepted transition: the fields that never change. *)
Lemma applyCommand_frame t c tr :
  applyCommand t c = Ok tr ->
  Task_ID (task_next tr) = Task_ID t /\ Task_RunID (task_next tr) = Task_RunID t /\
  Task_Revision (task_next tr) = Task_Revision t /\
  MaxAttempts (task_next tr) = MaxAttempts t /\
  Task_CreatedAt (task_next tr) = Task_CreatedAt t.
Proof.
  destruct c; simpl; unfold Task_lease, Task_releaseLease, Task_startReasoning,
    Task_rejectProposal, Task_acceptProposal, Task_recordExecution,
    Task_recordVerification, Task_recordReview, Task_approve, Task_requireRework,
    Task_retry, Task_fail, Task_cancel;
  intros Hr; go_run Hr; repeat case_match; simplify_eq; done.
Qed.

End lemmas.
