(* ===== verification/WfPlan.v ===== *)
(** * Planning: from an approved task graph to tasks

    Models [NewPlannedTasks] of [go/internal/workflow/task.go] with its
    helpers: identifiers, the dependency graph, the cycle check (Kahn's
    algorithm on Go maps, whose iteration order is open) and the construction
    of the tasks and of their events. *)

From S2P Require Import Prelude GoStd WfTypes WfTask.

(** ** Data *)

Record TaskDefinition := mkTaskDefinition {
  Definition_ID : string;
  Definition_MaxAttempts : Z;
}.

Record TaskDependency := mkTaskDependency {
  TaskID : string;
  DependsOnID : string;
}.

#[global] Instance TaskDefinition_eq_dec : EqDecision TaskDefinition.
Proof. solve_decision. Defined.
#[global] Instance TaskDependency_eq_dec : EqDecision TaskDependency.
Proof. solve_decision. Defined.

(** A Go map read returns the zero value for a missing key. *)
Definition get_int (m : gmap string Z) (k : string) : Z := default 0 (m !! k).
Definition get_list (m : gmap string (list string)) (k : string) : list string :=
  default [] (m !! k).

Record plannedGraph := mkPlannedGraph {
  incoming : gmap string Z;
  adjacency : gmap string (list string);
  edges : gset string;
}.

(** ** Operations *)

Section operations.
Context `{Platform}.

Fixpoint plannedTaskIDs_loop (definitions : list TaskDefinition) (taskIDs : gset string)
    : res (gset string) :=
  match definitions with
  | [] => Ok taskIDs
  | definition :: rest =>
      validateID "task" (Definition_ID definition) ;;
      if Definition_MaxAttempts definition =? 0 then Err (invalid "max attempts")
      else if bool_decide (Definition_ID definition ∈ taskIDs) then Err (invalid "duplicate task")
      else plannedTaskIDs_loop rest ({[Definition_ID definition]} ∪ taskIDs)
  end.

Definition plannedTaskIDs (definitions : list TaskDefinition) : res (gset string) :=
  match definitions with
  | [] => Err (invalid "empty task graph")
  | _ => plannedTaskIDs_loop definitions ∅
  end.

End operations.

Definition dependency_key (d : TaskDependency) : string := TaskID d +:+ ":" +:+ DependsOnID d.

Definition add_dependency (g : plannedGraph) (d : TaskDependency) : plannedGraph :=
  mkPlannedGraph
    (<[TaskID d := get_int (incoming g) (TaskID d) + 1]> (incoming g))
    (<[DependsOnID d := get_list (adjacency g) (DependsOnID d) ++ [TaskID d]]> (adjacency g))
    ({[dependency_key d]} ∪ edges g).

Fixpoint plannedTaskGraph_loop (taskIDs : gset string) (dependencies : list TaskDependency)
    (g : plannedGraph) : res plannedGraph :=
  match dependencies with
  | [] => Ok g
  | d :: rest =>
      if bool_decide (TaskID d ∉ taskIDs) then Err (invalid "dependency task")
      else if bool_decide (DependsOnID d ∉ taskIDs) then Err (invalid "dependency target")
      else if TaskID d == DependsOnID d then Err (invalid "self dependency")
      else if bool_decide (dependency_key d ∈ edges g) then Err (invalid "duplicate dependency")
      else plannedTaskGraph_loop taskIDs rest (add_dependency g d)
  end.

Definition plannedTaskGraph (taskIDs : gset string) (dependencies : list TaskDependency)
    : res plannedGraph :=
  plannedTaskGraph_loop taskIDs dependencies (mkPlannedGraph ∅ ∅ ∅).

(** [degrees[dependent]--] and the enqueueing at zero. *)
Definition release_dependent (st : gmap string Z * list string) (dependent : string)
    : gmap string Z * list string :=
  let '(degrees, queue) := st in
  let degrees := <[dependent := get_int degrees dependent - 1]> degrees in
  if get_int degrees dependent =? 0 then (degrees, queue ++ [dependent]) else (degrees, queue).

(** The loop [for len(queue) > 0]; [None] when the fuel runs out. *)
Fixpoint kahn (fuel : nat) (adjacency : gmap string (list string))
    (degrees : gmap string Z) (queue : list string) (visited : Z) : option Z :=
  match queue with
  | [] => Some visited
  | id :: queue =>
      match fuel with
      | O => None
      | S fuel =>
          let '(degrees, queue) := foldl release_dependent (degrees, queue) (get_list adjacency id) in
          kahn fuel adjacency degrees queue (visited + 1)
      end
  end.

Section acyclic.
Context `{Platform}.

(** The first loop ranges over a map: the queue starts in an open order. *)
Definition taskGraphAcyclic (taskIDs : gset string) (g : plannedGraph) : option bool :=
  let order := arbitrary_order (elements taskIDs) in
  let degrees := foldl (fun m id => <[id := get_int (incoming g) id]> m) (∅ : gmap string Z) order in
  let queue := List.filter (fun id => get_int (incoming g) id =? 0) order in
  visited ← kahn (size taskIDs) (adjacency g) degrees queue 0;
  Some (visited =? Z.of_nat (size taskIDs)).

Definition buildPlannedTask (runID : string) (incoming : gmap string Z) (meta : CommandEnvelope)
    (definition : TaskDefinition) : Task * Event :=
  let '(state, eventType) :=
    if get_int incoming (Definition_ID definition) =? 0 then (TaskStateReady, "TASK_READY")
    else (TaskStatePending, "TASK_CREATED") in
  let task := mkTask (Definition_ID definition) runID state 1 (Definition_MaxAttempts definition)
    0 None None None "" None None None (UTC (Timestamp meta)) (UTC (Timestamp meta)) in
  let eventID := uuid_NewSHA1 (CommandID meta) (Definition_ID definition +:+ ":" +:+ eventType) in
  (task, mkEvent eventID "TASK" (Task_ID task) 1 eventType (UTC (Timestamp meta))
     (Envelope_Actor meta) (CorrelationID meta) (CausationID meta)
     (<["run_id" := PStr runID]>
        {["max_attempts" := PNum (Definition_MaxAttempts definition)]})).

Definition buildPlannedTasks (runID : string) (definitions : list TaskDefinition)
    (incoming : gmap string Z) (meta : CommandEnvelope) : list Task * list Event :=
  let built := map (buildPlannedTask runID incoming meta) definitions in
  (map fst built, map snd built).

Definition NewPlannedTasks (runID : string) (definitions : list TaskDefinition)
    (dependencies : list TaskDependency) (meta : CommandEnvelope)
    : res (list Task * list TaskDependency * list Event) :=
  validateID "run" runID ;;
  taskIDs ← plannedTaskIDs definitions;
  graph ← plannedTaskGraph taskIDs dependencies;
  match taskGraphAcyclic taskIDs graph with
  | Some true =>
      let '(tasks, events) := buildPlannedTasks runID definitions (incoming graph) meta in
      Ok (tasks, dependencies, events)
  | _ => Err (invalid "cyclic task graph")
  end.

End acyclic.

(** ** The contract *)

(** [t] waits for [p]. *)
Definition depends_on (dependencies : list TaskDependency) (t p : string) : Prop :=
  exists d, d ∈ dependencies /\ TaskID d = t /\ DependsOnID d = p.

Definition acyclic (dependencies : list TaskDependency) : Prop :=
  forall t, ~ tc (depends_on dependencies) t t.

Definition dependencies_within (taskIDs : gset string) (dependencies : list TaskDependency) : Prop :=
  forall d, d ∈ dependencies -> TaskID d ∈ taskIDs /\ DependsOnID d ∈ taskIDs.

(** How many dependencies of [t] are on a task outside [done]. *)
Definition waiting (dependencies : list TaskDependency) (done : list string) (t : string) : nat :=
  length (List.filter
    (fun d => (TaskID d == t) && negb (bool_decide (DependsOnID d ∈ done))) dependencies).

(** The dependents of [p], in the order of the dependency list. *)
Definition dependents (dependencies : list TaskDependency) (p : string) : list string :=
  map TaskID (List.filter (fun d => DependsOnID d == p) dependencies).

Definition occurrences (x : string) (l : list string) : nat :=
  length (List.filter (fun y => y == x) l).
