(* ===== verification/WfRun.v ===== *)
(** * Runs: the run state machine

    Models [go/internal/workflow/run.go] and
    [go/internal/workflow/run_completion.go]: the run snapshot, the run
    commands, [NewRun], [Run.Apply] with [applyCompletion], and
    [Run.ApproveTaskGraph], which creates the tasks of the run. *)

From S2P Require Import Prelude GoStd WfTypes WfTask WfPlan.

(** ** Data *)

Record Run := mkRun {
  Run_ID : string;
  Run_State : RunState;
  Run_Revision : Z;
  Specification : option ArtifactRef;
  TaskGraph : option ArtifactRef;
  Run_Execution : option ArtifactRef;
  Run_CandidateCommit : string;
  Run_Verification : option ArtifactRef;
  Run_Review : option ArtifactRef;
  Run_Approval : option ArtifactRef;
  Publication : option ArtifactRef;
  Merge : option ArtifactRef;
  Run_CreatedAt : time;
  Run_UpdatedAt : time;
}.

#[global] Instance Run_eq_dec : EqDecision Run.
Proof. solve_decision. Defined.

Definition set_Run_State (v : RunState) (r : Run) : Run :=
  mkRun (Run_ID r) v (Run_Revision r) (Specification r) (TaskGraph r) (Run_Execution
    r) (Run_CandidateCommit r) (Run_Verification r) (Run_Review r) (Run_Approval r)
    (Publication r) (Merge r) (Run_CreatedAt r) (Run_UpdatedAt r).
Definition set_Run_Revision (v : Z) (r : Run) : Run :=
  mkRun (Run_ID r) (Run_State r) v (Specification r) (TaskGraph r) (Run_Execution r)
    (Run_CandidateCommit r) (Run_Verification r) (Run_Review r) (Run_Approval r)
    (Publication r) (Merge r) (Run_CreatedAt r) (Run_UpdatedAt r).
Definition set_Specification (v : option ArtifactRef) (r : Run) : Run :=
  mkRun (Run_ID r) (Run_State r) (Run_Revision r) v (TaskGraph r) (Run_Execution r)
    (Run_CandidateCommit r) (Run_Verification r) (Run_Review r) (Run_Approval r)
    (Publication r) (Merge r) (Run_CreatedAt r) (Run_UpdatedAt r).
Definition set_TaskGraph (v : option ArtifactRef) (r : Run) : Run :=
  mkRun (Run_ID r) (Run_State r) (Run_Revision r) (Specification r) v (Run_Execution
    r) (Run_CandidateCommit r) (Run_Verification r) (Run_Review r) (Run_Approval r)
    (Publication r) (Merge r) (Run_CreatedAt r) (Run_UpdatedAt r).
Definition set_Run_Execution (v : option ArtifactRef) (r : Run) : Run :=
  mkRun (Run_ID r) (Run_State r) (Run_Revision r) (Specification r) (TaskGraph r) v
    (Run_CandidateCommit r) (Run_Verification r) (Run_Review r) (Run_Approval r)
    (Publication r) (Merge r) (Run_CreatedAt r) (Run_UpdatedAt r).
Definition set_Run_CandidateCommit (v : string) (r : Run) : Run :=
  mkRun (Run_ID r) (Run_State r) (Run_Revision r) (Specification r) (TaskGraph r)
    (Run_Execution r) v (Run_Verification r) (Run_Review r) (Run_Approval r)
    (Publication r) (Merge r) (Run_CreatedAt r) (Run_UpdatedAt r).
Definition set_Run_Verification (v : option ArtifactRef) (r : Run) : Run :=
  mkRun (Run_ID r) (Run_State r) (Run_Revision r) (Specification r) (TaskGraph r)
    (Run_Execution r) (Run_CandidateCommit r) v (Run_Review r) (Run_Approval r)
    (Publication r) (Merge r) (Run_CreatedAt r) (Run_UpdatedAt r).
Definition set_Run_Review (v : option ArtifactRef) (r : Run) : Run :=
  mkRun (Run_ID r) (Run_State r) (Run_Revision r) (Specification r) (TaskGraph r)
    (Run_Execution r) (Run_CandidateCommit r) (Run_Verification r) v (Run_Approval r)
    (Publication r) (Merge r) (Run_CreatedAt r) (Run_UpdatedAt r).
Definition set_Run_Approval (v : option ArtifactRef) (r : Run) : Run :=
  mkRun (Run_ID r) (Run_State r) (Run_Revision r) (Specification r) (TaskGraph r)
    (Run_Execution r) (Run_CandidateCommit r) (Run_Verification r) (Run_Review r) v
    (Publication r) (Merge r) (Run_CreatedAt r) (Run_UpdatedAt r).
Definition set_Publication (v : option ArtifactRef) (r : Run) : Run :=
  mkRun (Run_ID r) (Run_State r) (Run_Revision r) (Specification r) (TaskGraph r)
    (Run_Execution r) (Run_CandidateCommit r) (Run_Verification r) (Run_Review r)
    (Run_Approval r) v (Merge r) (Run_CreatedAt r) (Run_UpdatedAt r).
Definition set_Merge (v : option ArtifactRef) (r : Run) : Run :=
  mkRun (Run_ID r) (Run_State r) (Run_Revision r) (Specification r) (TaskGraph r)
    (Run_Execution r) (Run_CandidateCommit r) (Run_Verification r) (Run_Review r)
    (Run_Approval r) (Publication r) v (Run_CreatedAt r) (Run_UpdatedAt r).
Definition set_Run_UpdatedAt (v : time) (r : Run) : Run :=
  mkRun (Run_ID r) (Run_State r) (Run_Revision r) (Specification r) (TaskGraph r)
    (Run_Execution r) (Run_CandidateCommit r) (Run_Verification r) (Run_Review r)
    (Run_Approval r) (Publication r) (Merge r) (Run_CreatedAt r) v.

(** A command, one constructor per Go struct; the last one is the nil
    interface value. *)
Inductive RunCommand :=
| CreateRun (Meta : CommandEnvelope) (ID : string)
| ProposeSpecification (Meta : CommandEnvelope) (ID : string) (specification : ArtifactRef)
| RejectSpecification (Meta : CommandEnvelope) (ID : string) (specification : ArtifactRef)
    (Reason : string) (Terminal : bool)
| ApproveSpecification (Meta : CommandEnvelope) (ID : string) (specification : ArtifactRef)
| ProposeTaskGraph (Meta : CommandEnvelope) (ID : string) (taskGraph : ArtifactRef)
| RejectTaskGraph (Meta : CommandEnvelope) (ID : string) (taskGraph : ArtifactRef)
    (Reason : string) (Terminal : bool)
| ApproveTaskGraph (Meta : CommandEnvelope) (ID : string) (taskGraph : ArtifactRef)
    (Tasks : list TaskDefinition) (Dependencies : list TaskDependency)
| StartRun (Meta : CommandEnvelope) (ID : string)
| RecordRunExecution (Meta : CommandEnvelope) (ID : string) (execution : ArtifactRef)
    (candidate : string)
| RecordRunVerification (Meta : CommandEnvelope) (ID : string) (candidate : string)
    (Evidence : ArtifactRef)
| RecordRunReview (Meta : CommandEnvelope) (ID : string) (candidate : string)
    (review : ArtifactRef)
| ApproveRun (Meta : CommandEnvelope) (ID : string) (candidate : string)
    (review approval : ArtifactRef)
| RejectRun (Meta : CommandEnvelope) (ID : string) (candidate : string)
    (review : ArtifactRef) (Reason : string)
| RecordDraftPullRequest (Meta : CommandEnvelope) (ID : string) (candidate : string)
    (approval publication : ArtifactRef)
| RecordMerge (Meta : CommandEnvelope) (ID : string) (candidate : string)
    (approval merge : ArtifactRef)
| FailRun (Meta : CommandEnvelope) (ID : string) (Evidence : ArtifactRef) (Reason : string)
| CancelRun (Meta : CommandEnvelope) (ID : string) (Reason : string)
| NilRunCommand.

#[global] Instance RunCommand_eq_dec : EqDecision RunCommand.
Proof. solve_decision. Defined.

(** The methods [Envelope] ([None] for the nil interface) and [RunID]. *)
Definition RunCommand_Envelope (c : RunCommand) : option CommandEnvelope :=
  match c with
  | CreateRun m _ | ProposeSpecification m _ _ | RejectSpecification m _ _ _ _
  | ApproveSpecification m _ _ | ProposeTaskGraph m _ _ | RejectTaskGraph m _ _ _ _
  | ApproveTaskGraph m _ _ _ _ | StartRun m _ | RecordRunExecution m _ _ _
  | RecordRunVerification m _ _ _ | RecordRunReview m _ _ _ | ApproveRun m _ _ _ _
  | RejectRun m _ _ _ _ | RecordDraftPullRequest m _ _ _ _ | RecordMerge m _ _ _ _
  | FailRun m _ _ _ | CancelRun m _ _ => Some m
  | NilRunCommand => None
  end.

Definition RunCommand_RunID (c : RunCommand) : string :=
  match c with
  | CreateRun _ i | ProposeSpecification _ i _ | RejectSpecification _ i _ _ _
  | ApproveSpecification _ i _ | ProposeTaskGraph _ i _ | RejectTaskGraph _ i _ _ _
  | ApproveTaskGraph _ i _ _ _ | StartRun _ i | RecordRunExecution _ i _ _
  | RecordRunVerification _ i _ _ | RecordRunReview _ i _ _ | ApproveRun _ i _ _ _
  | RejectRun _ i _ _ _ | RecordDraftPullRequest _ i _ _ _ | RecordMerge _ i _ _ _
  | FailRun _ i _ _ | CancelRun _ i _ => i
  | NilRunCommand => ""
  end.

(** The payload is a Go map, nil when the transition gives none. *)
Record runTransition := mkRunTransition {
  run_next : Run;
  run_eventType : string;
  run_payload : option payload_map;
}.

Record PlanningDecision := mkPlanningDecision {
  Decision_Run : Run;
  Decision_Tasks : list Task;
  Decision_Dependencies : list TaskDependency;
  Decision_Events : list Event;
}.

(** ** Operations *)

Section operations.
Context `{Platform}.

Definition Run_Validate (r : Run) : res unit :=
  validateID "run" (Run_ID r) ;;
  RunState_Validate (Run_State r) ;;
  if (Run_Revision r =? 0) || IsZero (Run_CreatedAt r) || IsZero (Run_UpdatedAt r)
  then Err (invalid "run snapshot")
  else
    validate_optional (Specification r) ;;
    validate_optional (TaskGraph r) ;;
    for_each validate_optional
      [Run_Execution r; Run_Verification r; Run_Review r; Run_Approval r;
       Publication r; Merge r] ;;
    if (Run_CandidateCommit r != "") && negb (commitPattern (Run_CandidateCommit r))
    then Err (invalid "run candidate commit") else Ok tt.

Definition validateRunCommand (command : RunCommand) : res unit :=
  match RunCommand_Envelope command with
  | None => Err (invalid "nil command")
  | Some meta =>
      CommandEnvelope_Validate meta ;;
      validateID "run" (RunCommand_RunID command)
  end.

Definition newRunEvent (run : Run) (meta : CommandEnvelope) (eventType : string)
    (payload : option payload_map) : Event :=
  mkEvent (CommandID meta) "RUN" (Run_ID run) (Run_Revision run) eventType
    (UTC (Timestamp meta)) (Envelope_Actor meta) (CorrelationID meta) (CausationID meta)
    (default ∅ payload).

Definition NewRun (command : RunCommand) : res (Run * list Event) :=
  match command with
  | CreateRun meta id =>
      validateRunCommand command ;;
      if ExpectedRevision meta != 0 then Err ErrRevisionConflict
      else if (Actor_Kind (Envelope_Actor meta) != ActorHuman) &&
              (Actor_Kind (Envelope_Actor meta) != ActorWorkflowService)
      then Err ErrUnauthorized
      else
        let next := mkRun id RunStateDraft 1 None None None "" None None None None None
          (UTC (Timestamp meta)) (UTC (Timestamp meta)) in
        Ok (next, [newRunEvent next meta "RUN_CREATED" None])
  | _ => Err (invalid "unsupported run command")
  end.

Definition Run_validateCommand (r : Run) (command : RunCommand) : res unit :=
  Run_Validate r ;;
  validateRunCommand command ;;
  if RunCommand_RunID command != Run_ID r then Err (invalid "command run mismatch")
  else
    match RunCommand_Envelope command with
    | None => Err (invalid "nil command")
    | Some meta =>
        if ExpectedRevision meta != Run_Revision r then Err ErrRevisionConflict
        else if RunState_Terminal (Run_State r) then Err ErrInvalidTransition
        else Ok tt
    end.

Definition validateSpecificationReview (r : Run) (actor : Actor) (specification : ArtifactRef)
    : res unit :=
  if Run_State r != RunStateSpecificationReview then Err ErrInvalidTransition
  else if Actor_Kind actor != ActorHuman then Err ErrUnauthorized
  else
    ArtifactRef_Validate specification ;;
    match Specification r with
    | None => Err (invalid "specification binding")
    | Some bound =>
        if ArtifactRef_Equal bound specification then Ok tt
        else Err (invalid "specification binding")
    end.

Definition proposeSpecification (r : Run) (Meta : CommandEnvelope) (specification : ArtifactRef)
    : res runTransition :=
  if Run_State r != RunStateDraft then Err ErrInvalidTransition
  else if Actor_Kind (Envelope_Actor Meta) != ActorWorkflowService then Err ErrUnauthorized
  else
    ArtifactRef_Validate specification ;;
    let next := set_Specification (Some specification) r in
    let next := set_Run_State RunStateSpecificationReview next in
    Ok (mkRunTransition next "SPECIFICATION_PROPOSED"
          (Some (artifactPayload "specification" specification))).

Definition rejectSpecification (r : Run) (Meta : CommandEnvelope) (specification : ArtifactRef)
    (Reason : string) (Terminal : bool) : res runTransition :=
  validateSpecificationReview r (Envelope_Actor Meta) specification ;;
  validateReason Reason ;;
  let next := set_Run_State RunStateDraft r in
  let next := if Terminal then set_Run_State RunStateRejected next else next in
  Ok (mkRunTransition next "SPECIFICATION_REJECTED"
        (Some (<["specification_uri" := PStr (URI specification)]>
                (<["specification_digest" := PStr (Digest specification)]>
                  {["reason" := PStr Reason]})))).

Definition approveSpecification (r : Run) (Meta : CommandEnvelope) (specification : ArtifactRef)
    : res runTransition :=
  validateSpecificationReview r (Envelope_Actor Meta) specification ;;
  Ok (mkRunTransition (set_Run_State RunStateTaskPlanning r) "SPECIFICATION_APPROVED"
        (Some (artifactPayload "specification" specification))).

Definition proposeTaskGraph (r : Run) (Meta : CommandEnvelope) (taskGraph : ArtifactRef)
    : res runTransition :=
  if Run_State r != RunStateTaskPlanning then Err ErrInvalidTransition
  else if Actor_Kind (Envelope_Actor Meta) != ActorWorkflowService then Err ErrUnauthorized
  else
    ArtifactRef_Validate taskGraph ;;
    let next := set_TaskGraph (Some taskGraph) r in
    let next := set_Run_State RunStateTaskPlanReview next in
    Ok (mkRunTransition next "TASK_GRAPH_PROPOSED"
          (Some (artifactPayload "task_graph" taskGraph))).

Definition rejectTaskGraph (r : Run) (Meta : CommandEnvelope) (taskGraph : ArtifactRef)
    (Reason : string) (Terminal : bool) : res runTransition :=
  if Run_State r != RunStateTaskPlanReview then Err ErrInvalidTransition
  else if Actor_Kind (Envelope_Actor Meta) != ActorHuman then Err ErrUnauthorized
  else
    validateBoundArtifact (TaskGraph r) taskGraph "task graph" ;;
    validateReason Reason ;;
    let next := set_Run_State RunStateTaskPlanning r in
    let next := if Terminal then set_Run_State RunStateRejected next else next in
    Ok (mkRunTransition next "TASK_GRAPH_REJECTED"
          (Some (<["reason" := PStr Reason]> (artifactPayload "task_graph" taskGraph)))).

Definition Run_start (r : Run) (Meta : CommandEnvelope) : res runTransition :=
  if Run_State r != RunStateReady then Err ErrInvalidTransition
  else if Actor_Kind (Envelope_Actor Meta) != ActorWorkflowService then Err ErrUnauthorized
  else Ok (mkRunTransition (set_Run_State RunStateExecuting r) "RUN_EXECUTION_STARTED" None).

Definition Run_recordExecution (r : Run) (Meta : CommandEnvelope) (execution : ArtifactRef)
    (candidate : string) : res runTransition :=
  if Run_State r != RunStateExecuting then Err ErrInvalidTransition
  else if Actor_Kind (Envelope_Actor Meta) != ActorExecutionService then Err ErrUnauthorized
  else if negb (is_Ok (ArtifactRef_Validate execution)) || negb (commitPattern candidate)
  then Err (invalid "run execution binding")
  else
    let next := set_Run_Execution (Some execution) r in
    let next := set_Run_CandidateCommit candidate next in
    let next := set_Run_State RunStateVerifying next in
    Ok (mkRunTransition next "RUN_EXECUTED" None).

Definition Run_recordVerification (r : Run) (Meta : CommandEnvelope) (candidate : string)
    (Evidence : ArtifactRef) : res runTransition :=
  if Run_State r != RunStateVerifying then Err ErrInvalidTransition
  else if Actor_Kind (Envelope_Actor Meta) != ActorVerificationService then Err ErrUnauthorized
  else if candidate != Run_CandidateCommit r then Err (invalid "run candidate commit")
  else
    ArtifactRef_Validate Evidence ;;
    let next := set_Run_Verification (Some Evidence) r in
    Ok (mkRunTransition (set_Run_State RunStateReviewing next) "RUN_VERIFIED" None).

Definition Run_recordReview (r : Run) (Meta : CommandEnvelope) (candidate : string)
    (review : ArtifactRef) : res runTransition :=
  if Run_State r != RunStateReviewing then Err ErrInvalidTransition
  else if Actor_Kind (Envelope_Actor Meta) != ActorReviewService then Err ErrUnauthorized
  else if candidate != Run_CandidateCommit r then Err (invalid "run candidate commit")
  else
    ArtifactRef_Validate review ;;
    let next := set_Run_Review (Some review) r in
    Ok (mkRunTransition (set_Run_State RunStateAwaitingApproval next) "RUN_REVIEWED" None).

Definition Run_validateHumanReview (r : Run) (actor : Actor) (candidateCommit : string)
    (review : ArtifactRef) : res unit :=
  if Run_State r != RunStateAwaitingApproval then Err ErrInvalidTransition
  else if Actor_Kind actor != ActorHuman then Err ErrUnauthorized
  else if candidateCommit != Run_CandidateCommit r then Err (invalid "run candidate commit")
  else validateBoundArtifact (Run_Review r) review "run review".

Definition Run_approve (r : Run) (Meta : CommandEnvelope) (candidate : string)
    (review approval : ArtifactRef) : res runTransition :=
  Run_validateHumanReview r (Envelope_Actor Meta) candidate review ;;
  ArtifactRef_Validate approval ;;
  let next := set_Run_Approval (Some approval) r in
  Ok (mkRunTransition (set_Run_State RunStateMergeReady next) "RUN_APPROVED" None).

Definition Run_reject (r : Run) (Meta : CommandEnvelope) (candidate : string)
    (review : ArtifactRef) (Reason : string) : res runTransition :=
  Run_validateHumanReview r (Envelope_Actor Meta) candidate review ;;
  validateReason Reason ;;
  Ok (mkRunTransition (set_Run_State RunStateRejected r) "RUN_REJECTED" None).

Definition recordDraftPullRequest (r : Run) (Meta : CommandEnvelope) (candidate : string)
    (approval publication : ArtifactRef) : res runTransition :=
  if Run_State r != RunStateMergeReady then Err ErrInvalidTransition
  else if Actor_Kind (Envelope_Actor Meta) != ActorPublicationService then Err ErrUnauthorized
  else if candidate != Run_CandidateCommit r then Err (invalid "run candidate commit")
  else
    validateBoundArtifact (Run_Approval r) approval "run approval" ;;
    ArtifactRef_Validate publication ;;
    match Publication r with
    | Some _ => Err (invalid "run publication binding")
    | None =>
        Ok (mkRunTransition (set_Publication (Some publication) r) "DRAFT_PULL_REQUEST_CREATED"
              (Some (artifactPayload "publication" publication)))
    end.

Definition recordMerge (r : Run) (Meta : CommandEnvelope) (candidate : string)
    (approval merge : ArtifactRef) : res runTransition :=
  if Run_State r != RunStateMergeReady then Err ErrInvalidTransition
  else if Actor_Kind (Envelope_Actor Meta) != ActorMergeService then Err ErrUnauthorized
  else if candidate != Run_CandidateCommit r then Err (invalid "run candidate commit")
  else
    validateBoundArtifact (Run_Approval r) approval "run approval" ;;
    ArtifactRef_Validate merge ;;
    let next := set_Merge (Some merge) r in
    Ok (mkRunTransition (set_Run_State RunStateMerged next) "RUN_MERGED" None).

Definition Run_fail (r : Run) (Meta : CommandEnvelope) (Evidence : ArtifactRef)
    (Reason : string) : res runTransition :=
  if RunState_Terminal (Run_State r) then Err ErrInvalidTransition
  else if negb (trustedOperationalActor (Actor_Kind (Envelope_Actor Meta)))
  then Err ErrUnauthorized
  else
    ArtifactRef_Validate Evidence ;;
    validateReason Reason ;;
    Ok (mkRunTransition (set_Run_State RunStateFailed r) "RUN_FAILED" None).

Definition Run_cancel (r : Run) (Meta : CommandEnvelope) (Reason : string)
    : res runTransition :=
  if RunState_Terminal (Run_State r) then Err ErrInvalidTransition
  else if Actor_Kind (Envelope_Actor Meta) != ActorHuman then Err ErrUnauthorized
  else
    validateReason Reason ;;
    Ok (mkRunTransition (set_Run_State RunStateCancelled r) "RUN_CANCELLED" None).

Definition finishRunTransition (transition : runTransition) (meta : CommandEnvelope)
    : Run * list Event :=
  let next := set_Run_Revision (u64 (Run_Revision (run_next transition) + 1))
                (run_next transition) in
  let next := set_Run_UpdatedAt (UTC (Timestamp meta)) next in
  (next, [newRunEvent next meta (run_eventType transition) (run_payload transition)]).

(** The completion commands ([applyCompletion]). *)
Definition completion (r : Run) (command : RunCommand) : res runTransition :=
  match command with
  | StartRun m _ => Run_start r m
  | RecordRunExecution m _ e c => Run_recordExecution r m e c
  | RecordRunVerification m _ c e => Run_recordVerification r m c e
  | RecordRunReview m _ c e => Run_recordReview r m c e
  | ApproveRun m _ c e a => Run_approve r m c e a
  | RejectRun m _ c e reason => Run_reject r m c e reason
  | RecordDraftPullRequest m _ c a p => recordDraftPullRequest r m c a p
  | RecordMerge m _ c a x => recordMerge r m c a x
  | FailRun m _ e reason => Run_fail r m e reason
  | CancelRun m _ reason => Run_cancel r m reason
  | _ => Err (invalid "unsupported completion command")
  end.

Definition finish (transition : res runTransition) (command : RunCommand)
    : res (Run * list Event) :=
  tr ← transition;
  match RunCommand_Envelope command with
  | Some meta => Ok (finishRunTransition tr meta)
  | None => Err (invalid "nil command")
  end.

Definition applyCompletion (r : Run) (command : RunCommand) : res (Run * list Event) :=
  finish (completion r command) command.

Definition Run_Apply (r : Run) (command : RunCommand) : res (Run * list Event) :=
  Run_validateCommand r command ;;
  match command with
  | ProposeSpecification m _ s => finish (proposeSpecification r m s) command
  | RejectSpecification m _ s reason terminal =>
      finish (rejectSpecification r m s reason terminal) command
  | ApproveSpecification m _ s => finish (approveSpecification r m s) command
  | ProposeTaskGraph m _ g => finish (proposeTaskGraph r m g) command
  | RejectTaskGraph m _ g reason terminal =>
      finish (rejectTaskGraph r m g reason terminal) command
  | ApproveTaskGraph _ _ _ _ _ => Err (invalid "task graph approval requires planning apply")
  | StartRun _ _ | RecordRunExecution _ _ _ _ | RecordRunVerification _ _ _ _
  | RecordRunReview _ _ _ _ | ApproveRun _ _ _ _ _ | RejectRun _ _ _ _ _
  | RecordDraftPullRequest _ _ _ _ _ | RecordMerge _ _ _ _ _ | FailRun _ _ _ _
  | CancelRun _ _ _ => applyCompletion r command
  | CreateRun _ _ | NilRunCommand => Err (invalid "unsupported run command")
  end.

(** The method [Run.ApproveTaskGraph]. *)
Definition Run_ApproveTaskGraph (r : Run) (command : RunCommand) : res PlanningDecision :=
  match command with
  | ApproveTaskGraph meta id taskGraph definitions dependencies =>
      Run_Validate r ;;
      validateRunCommand command ;;
      if id != Run_ID r then Err (invalid "command run mismatch")
      else if ExpectedRevision meta != Run_Revision r then Err ErrRevisionConflict
      else if Run_State r != RunStateTaskPlanReview then Err ErrInvalidTransition
      else if Actor_Kind (Envelope_Actor meta) != ActorHuman then Err ErrUnauthorized
      else
        validateBoundArtifact (TaskGraph r) taskGraph "task graph" ;;
        '(tasks, deps, taskEvents) ← NewPlannedTasks (Run_ID r) definitions dependencies meta;
        let next := set_Run_State RunStateReady r in
        let next := set_Run_Revision (u64 (Run_Revision next + 1)) next in
        let next := set_Run_UpdatedAt (UTC (Timestamp meta)) next in
        let runEvent := newRunEvent next meta "TASK_GRAPH_APPROVED"
          (Some (artifactPayload "task_graph" taskGraph)) in
        Ok (mkPlanningDecision next tasks deps (runEvent :: taskEvents))
  | _ => Err (invalid "unsupported run command")
  end.

End operations.

(** ** The contract of the run state machine

    The table of [docs/workflow-state-machine.md], and what a run has bound in
    each of its states. *)

(** One step of a run under a command: [Run.ApproveTaskGraph] for the planning
    command, [Run.Apply] for the others. *)
Definition run_step `{Platform} (r : Run) (c : RunCommand) : res (Run * list Event) :=
  match c with
  | ApproveTaskGraph _ _ _ _ _ =>
      decision ← Run_ApproveTaskGraph r c; Ok (Decision_Run decision, Decision_Events decision)
  | _ => Run_Apply r c
  end.

Definition run_edge (s s' : RunState) : bool :=
  match s, s' with
  | RunStateDraft, RunStateSpecificationReview
  | RunStateSpecificationReview, RunStateDraft
  | RunStateSpecificationReview, RunStateTaskPlanning
  | RunStateSpecificationReview, RunStateRejected
  | RunStateTaskPlanning, RunStateTaskPlanReview
  | RunStateTaskPlanReview, RunStateTaskPlanning
  | RunStateTaskPlanReview, RunStateReady
  | RunStateTaskPlanReview, RunStateRejected
  | RunStateReady, RunStateExecuting
  | RunStateExecuting, RunStateVerifying
  | RunStateVerifying, RunStateReviewing
  | RunStateReviewing, RunStateAwaitingApproval
  | RunStateAwaitingApproval, RunStateMergeReady
  | RunStateAwaitingApproval, RunStateRejected
  | RunStateMergeReady, RunStateMergeReady
  | RunStateMergeReady, RunStateMerged => true
  | _, RunStateFailed | _, RunStateCancelled => negb (RunState_Terminal s)
  | _, _ => false
  end.

Definition run_actor_allowed (c : RunCommand) (k : ActorKind) : bool :=
  match c with
  | CreateRun _ _ => (k == ActorHuman) || (k == ActorWorkflowService)
  | ProposeSpecification _ _ _ | ProposeTaskGraph _ _ _ | StartRun _ _ =>
      k == ActorWorkflowService
  | RejectSpecification _ _ _ _ _ | ApproveSpecification _ _ _ | RejectTaskGraph _ _ _ _ _
  | ApproveTaskGraph _ _ _ _ _ | ApproveRun _ _ _ _ _ | RejectRun _ _ _ _ _
  | CancelRun _ _ _ => k == ActorHuman
  | RecordRunExecution _ _ _ _ => k == ActorExecutionService
  | RecordRunVerification _ _ _ _ => k == ActorVerificationService
  | RecordRunReview _ _ _ _ => k == ActorReviewService
  | RecordDraftPullRequest _ _ _ _ _ => k == ActorPublicationService
  | RecordMerge _ _ _ _ _ => k == ActorMergeService
  | FailRun _ _ _ _ => trustedOperationalActor k
  | NilRunCommand => false
  end.

(** How far a run has come on the way to a merge: the number of the bindings
    made, in the order specification, task graph, execution with its commit,
    verification, review, approval, merge. *)
Definition run_trail (r : Run) (spec graph exec ver rev app merged : bool) : Prop :=
  (spec = true -> is_Some (Specification r)) /\
  (graph = true -> is_Some (TaskGraph r)) /\
  (if exec then is_Some (Run_Execution r) /\ commitPattern (Run_CandidateCommit r) = true
   else Run_Execution r = None /\ Run_CandidateCommit r = "") /\
  (if ver then is_Some (Run_Verification r) else Run_Verification r = None) /\
  (if rev then is_Some (Run_Review r) else Run_Review r = None) /\
  (if app then is_Some (Run_Approval r) else Run_Approval r = None /\ Publication r = None) /\
  (if merged then is_Some (Merge r) else Merge r = None).

Definition run_ok (r : Run) : Prop :=
  match Run_State r with
  | RunStateDraft => run_trail r false false false false false false false
  | RunStateSpecificationReview => run_trail r true false false false false false false
  | RunStateTaskPlanning => run_trail r true false false false false false false
  | RunStateTaskPlanReview | RunStateReady | RunStateExecuting =>
      run_trail r true true false false false false false
  | RunStateVerifying => run_trail r true true true false false false false
  | RunStateReviewing => run_trail r true true true true false false false
  | RunStateAwaitingApproval => run_trail r true true true true true false false
  | RunStateMergeReady => run_trail r true true true true true true false
  | RunStateMerged => run_trail r true true true true true true true
  | RunStateRejected | RunStateFailed | RunStateCancelled => Merge r = None
  | RunStateOther _ => False
  end.

Fixpoint run_steps `{Platform} (r : Run) (cs : list RunCommand) : res Run :=
  match cs with
  | [] => Ok r
  | c :: cs' => '(r', _) ← run_step r c; run_steps r' cs'
  end.
