(* ===== verification/Samples.v ===== *)
(** * Concrete values on which the witnesses are evaluated *)

From S2P Require Import Prelude GoStd WfTypes WfTask WfPlan WfRun.

Definition hex40 : string := "0123456789abcdef0123456789abcdef01234567".
Definition hex64 : string :=
  "0123456789abcdef0123456789abcdef0123456789abcdef0123456789abcdef".
Definition art (name : string) : ArtifactRef := mkArtifactRef ("artifact://sha256/" +:+ name) hex64.
Definition at_time (n : Z) : time := mkTime (unix_epoch + n * Second) 0.
Definition meta (id : string) (k : ActorKind) (revision now : Z) : CommandEnvelope :=
  mkEnvelope id (mkActor "actor-1" k) revision (at_time now) "corr-1" "cause-1".
Definition sample_lease (attempt : Z) : LeaseRef :=
  mkLease "lease-1" "owner-1" (at_time 1000) attempt.
Definition ready_task : Task :=
  mkTask "task-1" "run-1" TaskStateReady 1 2 0 None None None "" None None None
    (at_time 1) (at_time 1).

(** The life of [ready_task] from its lease to its approval. *)
Definition sample_history : list TaskCommand :=
  let l := sample_lease 1 in
  [ LeaseTask (meta "c1" ActorWorkflowService 1 10) "run-1" "task-1" l;
    StartReasoning (meta "c2" ActorReasoningService 2 20) "run-1" "task-1" l;
    AcceptTaskProposal (meta "c3" ActorExecutionService 3 30) "run-1" "task-1" (art "p") l;
    RecordTaskExecution (meta "c4" ActorExecutionService 4 40) "run-1" "task-1"
      (art "p") (art "e") hex40 l;
    RecordTaskVerification (meta "c5" ActorVerificationService 5 50) "run-1" "task-1"
      hex40 (art "v") true;
    RecordTaskReview (meta "c6" ActorReviewService 6 60) "run-1" "task-1" hex40 (art "r") true;
    ApproveTask (meta "c7" ActorHuman 7 70) "run-1" "task-1" hex40 (art "r") (art "a") ].

Definition lease_first : TaskCommand :=
  LeaseTask (meta "c1" ActorWorkflowService 1 10) "run-1" "task-1" (sample_lease 1).

(** The value of a run that succeeds. *)
Definition result {A} (d : A) (r : res A) : A := match r with Ok a => a | Err _ => d end.

Definition leased_task : Task := fst (result (ready_task, []) (Task_Apply ready_task lease_first)).
Definition last_attempt_task : Task :=
  set_Lease (Some (sample_lease 2)) (set_CurrentAttempt 2 leased_task).
Definition accepted_task : Task := result ready_task (apply_all ready_task sample_history).

(** A lease released during the last attempt. *)
Definition release_last : TaskCommand :=
  ReleaseTaskLease (meta "c2" ActorWorkflowService 2 20) "run-1" "task-1" (sample_lease 2).
Definition stranded : Task * list Event :=
  result (ready_task, []) (Task_Apply last_attempt_task release_last).
Definition give_up_task : TaskCommand :=
  CancelTask (meta "c3" ActorWorkflowService 3 30) "run-1" "task-1" "stuck".
Definition given_up : Task * list Event :=
  result (ready_task, []) (Task_Apply (fst stranded) give_up_task).

(** The life of a run of one task, up to its merge. *)
Definition create_run : RunCommand := CreateRun (meta "r1" ActorHuman 0 1) "run-1".
Definition sample_run : Run :=
  mkRun "run-1" RunStateDraft 1 None None None "" None None None None None
    (at_time 1) (at_time 1).
Definition plan_commands : list RunCommand :=
  [ ProposeSpecification (meta "r2" ActorWorkflowService 1 2) "run-1" (art "spec");
    ApproveSpecification (meta "r3" ActorHuman 2 3) "run-1" (art "spec");
    ProposeTaskGraph (meta "r4" ActorWorkflowService 3 4) "run-1" (art "graph");
    ApproveTaskGraph (meta "r5" ActorHuman 4 5) "run-1" (art "graph")
      [mkTaskDefinition "task-1" 2] [] ].
Definition completion_commands : list RunCommand :=
  [ StartRun (meta "r6" ActorWorkflowService 5 6) "run-1";
    RecordRunExecution (meta "r7" ActorExecutionService 6 7) "run-1" (art "exec") hex40;
    RecordRunVerification (meta "r8" ActorVerificationService 7 8) "run-1" hex40 (art "ver");
    RecordRunReview (meta "r9" ActorReviewService 8 9) "run-1" hex40 (art "rev");
    ApproveRun (meta "r10" ActorHuman 9 10) "run-1" hex40 (art "rev") (art "app") ].
Definition publish_commands : list RunCommand :=
  [ RecordDraftPullRequest (meta "r11" ActorPublicationService 10 11) "run-1" hex40
      (art "app") (art "pub");
    RecordMerge (meta "r12" ActorMergeService 11 12) "run-1" hex40 (art "app") (art "merge") ].
Definition approved_run : Run :=
  result sample_run (run_steps sample_run (plan_commands ++ completion_commands)).
Definition merged_run : Run :=
  result sample_run (run_steps approved_run publish_commands).
Definition python_start : RunCommand := StartRun (meta "r6" ActorPython 5 6) "run-1".
