(* ===== verification/WfTaskProps.v ===== *)
(** * Properties of the task state machine *)

From S2P Require Import Prelude GoStd Samples WfTypes WfTask.

(** Follow an accepted command into the branch that accepted it. *)
Ltac task_cases Hr :=
  simpl in Hr;
  unfold Task_lease, Task_releaseLease, Task_startReasoning,
    Task_rejectProposal, Task_acceptProposal, Task_recordExecution,
    Task_recordVerification, Task_recordReview, Task_approve, Task_requireRework,
    Task_retry, Task_fail, Task_cancel in Hr;
  go_run Hr;
  repeat match goal with
  | H : Task_validateHumanReview _ _ _ _ = Ok _ |- _ =>
      apply Task_validateHumanReview_Ok in H; destruct H as (? & ? & ? & ?)
  | H : validateActiveLease _ _ _ = Ok _ |- _ =>
      apply validateActiveLease_Ok in H; destruct H as (? & ? & ? & ? & ?)
  | H : validateBoundArtifact _ _ _ = Ok _ |- _ =>
      apply validateBoundArtifact_Ok in H; destruct H as (? & ?)
  | H : validateLease _ _ = Ok _ |- _ =>
      apply validateLease_Ok in H; destruct H as (? & ? & ?)
  end;
  rewrite ?orb_false_iff, ?andb_false_iff, ?negb_false_iff, ?bool_decide_eq_true,
    ?bool_decide_eq_false in *;
  repeat case_match; simplify_eq.

Section lemmas.
Context `{Platform}.

Lemma applyCommand_edge t c tr :
  TaskState_Terminal (Task_State t) = false -> applyCommand t c = Ok tr ->
  task_edge (Task_State t) (Task_State (task_next tr)) = true.
Proof.
  intros Ht Hr. destruct c; task_cases Hr; simpl; destruct_and?; destruct_or?;
    repeat match goal with H : Task_State t = _ |- _ => rewrite H end; try done.
  all: destruct (Task_State t); done.
Qed.

Lemma applyCommand_actor t c tr meta :
  TaskCommand_Envelope c = Some meta -> applyCommand t c = Ok tr ->
  task_actor_allowed c (Actor_Kind (Envelope_Actor meta)) = true.
Proof.
  intros He Hr. destruct c; simpl in He; simplify_eq; simpl;
    task_cases Hr; destruct_and?; destruct_or?;
    rewrite ?orb_true_iff, ?bool_decide_eq_true; auto.
Qed.

Lemma applyCommand_evidence t c tr :
  TaskState_Terminal (Task_State t) = false -> task_evidence t ->
  applyCommand t c = Ok tr -> task_evidence (task_next tr).
Proof.
  intros Ht Hev Hr. unfold task_evidence in *.
  destruct c; task_cases Hr; simpl; destruct_and?; destruct_or?;
    repeat match goal with
    | H : Task_State t = _ |- _ => rewrite H in *; simpl in Hev
    end; unfold trail in *; simpl; try done; try naive_solver.
  all: first [exists true; naive_solver | exists false; naive_solver].
Qed.

Lemma applyCommand_fenced t c tr :
  task_fenced t -> applyCommand t c = Ok tr -> task_fenced (task_next tr).
Proof.
  intros (Hr1 & Hm & Hp & Hl) Hr. unfold task_fenced.
  destruct c; task_cases Hr; simpl; destruct_and?; destruct_or?;
    rewrite ?Z.leb_gt in *; try (split_and!; [lia..|done|done]).
  - rewrite !u32_id by lia. split_and!; try lia; [done|].
    intros l [= <-].
    match goal with E : FencingToken _ = _ |- _ => rewrite E end.
    rewrite u32_id by lia. lia.
Qed.

Lemma applyCommand_work t c tr :
  TaskState_Terminal (Task_State t) = false -> task_ok t -> applyCommand t c = Ok tr ->
  task_work (task_next tr) < task_work t.
Proof.
  intros Ht [Hev (Hr1 & Hm & Hp & Hl)] Hr. unfold task_work.
  destruct c; task_cases Hr; simpl; destruct_and?; destruct_or?;
    repeat match goal with H : Task_State t = _ |- _ => rewrite H; simpl end;
    rewrite ?Z.leb_gt in *; rewrite ?u32_id by lia; try lia.
  all: unfold task_evidence in Hev; destruct (Task_State t); simpl; done || lia.
Qed.

Lemma task_work_nonneg t : task_ok t -> 0 <= task_work t.
Proof.
  intros [_ (? & ? & _)]. unfold task_work. destruct (Task_State t); simpl; lia.
Qed.

Lemma Task_Apply_ok t c t' evs :
  task_ok t -> Task_Apply t c = Ok (t', evs) -> task_ok t'.
Proof.
  intros [Hev Hf] (meta & tr & He & Hv & Ha & Hfin)%Task_Apply_Ok.
  apply Task_validateCommand_Ok in Hv as (_ & _ & _ & Hterm & _).
  injection Hfin as -> _. split.
  - apply (applyCommand_evidence _ _ _ Hterm Hev) in Ha. done.
  - apply (applyCommand_fenced _ _ _ Hf) in Ha. done.
Qed.

Lemma apply_all_ok t cs t' : task_ok t -> apply_all t cs = Ok t' -> task_ok t'.
Proof.
  revert t. induction cs as [|c cs IH]; simpl; intros t Hok Hr; [by simplify_eq|].
  apply res_bind_Ok in Hr as ([t1 evs] & Ha & Hr). eauto using Task_Apply_ok.
Qed.

Lemma Task_Apply_work t c t' evs :
  task_ok t -> Task_Apply t c = Ok (t', evs) -> task_work t' < task_work t.
Proof.
  intros Hok (meta & tr & He & Hv & Ha & Hfin)%Task_Apply_Ok.
  apply Task_validateCommand_Ok in Hv as (_ & _ & _ & Hterm & _).
  injection Hfin as -> _. apply (applyCommand_work _ _ _ Hterm Hok) in Ha. done.
Qed.

Lemma apply_all_work t cs t' :
  task_ok t -> apply_all t cs = Ok t' -> Z.of_nat (length cs) + task_work t' <= task_work t.
Proof.
  revert t. induction cs as [|c cs IH]; simpl; intros t Hok Hr; [simplify_eq; lia|].
  apply res_bind_Ok in Hr as ([t1 evs] & Ha & Hr).
  pose proof (Task_Apply_work _ _ _ _ Hok Ha).
  specialize (IH t1 (Task_Apply_ok _ _ _ _ Hok Ha) Hr). lia.
Qed.

(** A command that carries a lease to be matched against the one in force. *)
Definition presented_lease (c : TaskCommand) : option LeaseRef :=
  match c with
  | ReleaseTaskLease _ _ _ l | StartReasoning _ _ _ l
  | AcceptTaskProposal _ _ _ _ l | RecordTaskExecution _ _ _ _ _ _ l => Some l
  | _ => None
  end.

(** The two commands of the execution service. *)
Definition executes (c : TaskCommand) : bool :=
  match c with
  | AcceptTaskProposal _ _ _ _ _ | RecordTaskExecution _ _ _ _ _ _ _ => true
  | _ => false
  end.

Lemma presented_lease_current t c tr l meta :
  applyCommand t c = Ok tr -> presented_lease c = Some l ->
  TaskCommand_Envelope c = Some meta ->
  exists b, Lease t = Some b /\ b ≡ l /\
    (executes c = true -> Before (Timestamp meta) (ExpiresAt b) = true).
Proof.
  intros Hr Hl He. destruct c; simpl in Hl, He; simplify_eq; task_cases Hr;
    eexists; split_and!; done.
Qed.

Lemma apply_all_snoc t cs c t' :
  apply_all t (cs ++ [c]) = Ok t' <->
  exists t1 evs, apply_all t cs = Ok t1 /\ Task_Apply t1 c = Ok (t', evs).
Proof.
  revert t. induction cs as [|d cs IH]; intros t; cbn [app apply_all].
  - split.
    + intros ([t1 evs] & Ha & Hr)%res_bind_Ok. simplify_eq/=. eauto.
    + intros (t1 & evs & [= ->] & Ha). apply res_bind_Ok. eauto.
  - split.
    + intros ([t1 evs] & Ha & (t2 & evs2 & Hr & Hr2)%IH)%res_bind_Ok.
      exists t2, evs2. split; [|done]. apply res_bind_Ok. eauto.
    + intros (t1 & evs & ([t2 evs2] & Ha & Hr)%res_bind_Ok & Hr2).
      apply res_bind_Ok. exists (t2, evs2). split; [done|]. apply IH. eauto.
Qed.

(** Only [ApproveTask] leads to [ACCEPTED]. *)
Lemma applyCommand_accepted t c tr :
  Task_State t <> TaskStateAccepted -> applyCommand t c = Ok tr ->
  Task_State (task_next tr) = TaskStateAccepted ->
  exists meta run id r a, c = ApproveTask meta run id (CandidateCommit t) r a /\
    Actor_Kind (Envelope_Actor meta) = ActorHuman /\ Review t = Some r /\
    task_next tr = set_Task_State TaskStateAccepted (set_Approval (Some a) t).
Proof.
  intros Ht Hr Hs. destruct c; task_cases Hr; destruct_and?; destruct_or?; simplify_eq/=;
    naive_solver.
Qed.

End lemmas.

(** ** The properties *)

Section properties.
Context `{Platform}.

(** C39: every command [Task.Apply] accepts keeps the evidence a task must carry
    in its state (lease, proposal, execution with its commit, verification,
    review, approval: exactly those the state requires) and keeps the fencing
    rule: the lease in force carries the number of the attempt in progress and
    the attempts never exceed the limit. *)
Theorem task_invariant_preserved (t : Task) (c : TaskCommand) (t' : Task) (evs : list Event) :
  task_ok t -> Task_Apply t c = Ok (t', evs) -> task_ok t'.
Proof. apply Task_Apply_ok. Qed.

(** a task reaches [ACCEPTED] along a history of accepted commands only
    when the last command is a human's [ApproveTask] of the candidate commit
    and of the review that are bound to the task, and the task then carries a
    proposal, an execution, a verification, that review and the approval. *)
Theorem task_accepted_by_human (t0 t : Task) (cs : list TaskCommand) :
  task_ok t0 -> Task_State t0 = TaskStateReady -> apply_all t0 cs = Ok t ->
  Task_State t = TaskStateAccepted ->
  exists cs' meta run id review approval,
    cs = cs' ++ [ApproveTask meta run id (CandidateCommit t) review approval] /\
    Actor_Kind (Envelope_Actor meta) = ActorHuman /\
    Review t = Some review /\ Approval t = Some approval /\
    is_Some (Proposal t) /\ is_Some (Execution t) /\ is_Some (Verification t) /\
    commitPattern (CandidateCommit t) = true.
Proof.
  intros Hok Hs Hr Ha. pose proof (apply_all_ok _ _ _ Hok Hr) as [Hev _].
  unfold task_evidence, trail in Hev. rewrite Ha in Hev. destruct_and!.
  destruct cs as [|cl cs' _] using rev_ind; [simplify_eq/=; congruence|].
  apply apply_all_snoc in Hr as (t1 & evs & Hr & Hc).
  apply Task_Apply_Ok in Hc as (m & tr & He & Hv & Hc & [= -> ->]).
  apply Task_validateCommand_Ok in Hv as (_ & _ & _ & Hterm & _).
  assert (Task_State t1 <> TaskStateAccepted) by (intros E; by rewrite E in Hterm).
  destruct (applyCommand_accepted _ _ _ ltac:(done) Hc Ha)
    as (m' & run & id & r & a & -> & Hk & Hrev & Hn).
  rewrite Hn in *. simpl in *. exists cs', m', run, id, r, a. split_and!; done.
Qed.

(** [Task.Apply] refines the documented transition table: the successor is
    one the table lists, the actor is one the command accepts, the revision
    grows by one and is the one the caller named, the identity, the limit of
    attempts and the creation time stay, the update time is the command's in
    UTC, and exactly one event records the step. *)
Theorem task_apply_refines_table (t : Task) (c : TaskCommand) (t' : Task) (evs : list Event) :
  Task_Apply t c = Ok (t', evs) ->
  exists meta ev, TaskCommand_Envelope c = Some meta /\ evs = [ev] /\
    task_edge (Task_State t) (Task_State t') = true /\
    task_actor_allowed c (Actor_Kind (Envelope_Actor meta)) = true /\
    ExpectedRevision meta = Task_Revision t /\ Task_Revision t' = u64 (Task_Revision t + 1) /\
    Task_ID t' = Task_ID t /\ Task_RunID t' = Task_RunID t /\
    MaxAttempts t' = MaxAttempts t /\ Task_CreatedAt t' = Task_CreatedAt t /\
    Task_UpdatedAt t' = UTC (Timestamp meta) /\
    Event_ID ev = CommandID meta /\ AggregateType ev = "TASK" /\
    AggregateID ev = Task_ID t /\ Event_Revision ev = Task_Revision t' /\
    Event_Actor ev = Envelope_Actor meta.
Proof.
  intros (m & tr & He & Hv & Ha & [= -> ->])%Task_Apply_Ok.
  apply Task_validateCommand_Ok in Hv as (_ & _ & _ & Hterm & _ & m' & He' & Hrev).
  pose proof (applyCommand_frame _ _ _ Ha) as (H1 & H2 & H3 & H4 & H5).
  simplify_eq. eexists m, _. simpl.
  rewrite H1, H2, H3, H4, H5. split_and!; try done.
  - by apply applyCommand_edge with c.
  - by apply applyCommand_actor with t tr.
Qed.

(** The life of a task ends: whatever the commands, a task that satisfies
    its invariant accepts at most [task_work] of them, a bound that counts the
    attempts left and the stage within the attempt. *)
Theorem task_lifecycle_bounded (t t' : Task) (cs : list TaskCommand) :
  task_ok t -> apply_all t cs = Ok t' -> Z.of_nat (length cs) <= task_work t.
Proof.
  intros Hok Hr. pose proof (apply_all_work _ _ _ Hok Hr).
  pose proof (task_work_nonneg _ (apply_all_ok _ _ _ Hok Hr)). lia.
Qed.

(** fencing: a command that presents a lease is refused unless that lease
    is the one in force up to the microsecond resolution of its expiry, hence
    carries the number of the attempt in progress; and the execution service's
    two commands are refused at or after its expiry. *)
Theorem stale_lease_rejected (t : Task) (c : TaskCommand) (l : LeaseRef) (meta : CommandEnvelope) :
  task_ok t -> presented_lease c = Some l -> TaskCommand_Envelope c = Some meta ->
  FencingToken l <> CurrentAttempt t \/
  (executes c = true /\ forall b, Lease t = Some b -> Before (Timestamp meta) (ExpiresAt b) = false) ->
  is_Ok (Task_Apply t c) = false.
Proof.
  intros [_ (_ & _ & _ & Hf)] Hl He Hbad.
  destruct (Task_Apply t c) as [[t' evs]|e] eqn:Hr; [|done]. exfalso.
  apply Task_Apply_Ok in Hr as (m & tr & He' & _ & Ha & _).
  destruct (presented_lease_current _ _ _ _ _ Ha Hl He) as (b & Hb & Heq & Ht).
  destruct Hbad as [Hne|[Hx Hexp]].
  - destruct (Hf b Hb) as [Htok _]. apply LeaseRef_Equal_spec in Heq. lia || naive_solver congruence.
  - specialize (Ht Hx). by rewrite (Hexp b Hb) in Ht.
Qed.

(** a lease released during the last attempt strands the task: it is READY
    with no attempt left, and whatever is accepted next either fails or cancels
    it; it cannot be leased or retried, so it never reaches
    [TASK_ATTEMPTS_EXHAUSTED]. *)
Theorem released_last_attempt_strands (t t1 t2 : Task) (c1 c2 : TaskCommand)
    (evs1 evs2 : list Event) (meta : CommandEnvelope) (run id : string) (l : LeaseRef) :
  task_ok t -> CurrentAttempt t = MaxAttempts t ->
  c1 = ReleaseTaskLease meta run id l -> Task_Apply t c1 = Ok (t1, evs1) ->
  Task_Apply t1 c2 = Ok (t2, evs2) ->
  Task_State t1 = TaskStateReady /\
  (Task_State t2 = TaskStateFailed \/ Task_State t2 = TaskStateCancelled).
Proof.
  intros Hok Hmax -> (m & tr & He & Hv & Ha & [= -> ->])%Task_Apply_Ok
    (m2 & tr2 & He2 & Hv2 & Ha2 & [= -> ->])%Task_Apply_Ok.
  task_cases Ha. split; [done|]. simpl in *.
  destruct c2; task_cases Ha2; simpl; auto; destruct_and?; destruct_or?; simplify_eq/=; try lia; try (rewrite Z.leb_gt in *; lia).
Qed.

End properties.

(** ** Witnesses *)

Lemma ready_task_ok : task_ok ready_task.
Proof. repeat split; done || lia. Qed.

Lemma last_attempt_task_ok : task_ok last_attempt_task.
Proof.
  split; [vm_compute; eauto 10|].
  unfold task_fenced. split_and!; try (vm_compute; congruence).
  intros l [= <-]. vm_compute. split; congruence.
Qed.

Lemma task_invariant_preserved_witness :
  task_ok ready_task /\
  exists t' evs, Task_Apply ready_task lease_first = Ok (t', evs) /\ task_ok t'.
Proof.
  split; [exact ready_task_ok|].
  eexists _, _. split; [vm_compute; reflexivity|].
  eapply (task_invariant_preserved ready_task lease_first); [exact ready_task_ok|].
  vm_compute; reflexivity.
Defined.

Lemma task_accepted_by_human_witness :
  Task_State accepted_task = TaskStateAccepted /\
  exists cs' c, apply_all ready_task sample_history = Ok accepted_task /\
    sample_history = cs' ++ [c].
Proof.
  split; [vm_compute; reflexivity|].
  destruct (task_accepted_by_human ready_task accepted_task sample_history ready_task_ok)
    as (cs' & m & run & id & r & a & Hcs & _); [vm_compute; reflexivity..|].
  exists cs'. eexists. split; [vm_compute; reflexivity|exact Hcs].
Defined.

Lemma task_apply_refines_table_witness :
  exists t' evs ev, Task_Apply ready_task lease_first = Ok (t', evs) /\ evs = [ev] /\
    Task_Revision t' = 2.
Proof.
  eexists _, _.
  assert (Task_Apply ready_task lease_first = Ok _) as Hr by (vm_compute; reflexivity).
  destruct (task_apply_refines_table _ _ _ _ Hr) as (m & ev & _ & He & _ & _ & _ & Hrev & _).
  exists ev. split_and!; [exact Hr|exact He|vm_compute; reflexivity].
Defined.

Lemma task_lifecycle_bounded_witness :
  is_Ok (apply_all ready_task sample_history) = true /\
  Z.of_nat (length sample_history) <= task_work ready_task.
Proof.
  split; [vm_compute; reflexivity|].
  eapply (task_lifecycle_bounded ready_task); [exact ready_task_ok|].
  vm_compute; reflexivity.
Defined.

Lemma stale_lease_rejected_witness :
  let c := StartReasoning (meta "c2" ActorReasoningService 2 20) "run-1" "task-1" (sample_lease 1) in
  task_ok last_attempt_task /\ is_Ok (Task_Apply last_attempt_task c) = false.
Proof.
  intros c. split; [exact last_attempt_task_ok|].
  eapply (stale_lease_rejected last_attempt_task c _ _ last_attempt_task_ok); [reflexivity..|].
  left. vm_compute. discriminate.
Defined.

Lemma released_last_attempt_strands_witness :
  is_Ok (Task_Apply last_attempt_task release_last) = true /\
  Task_State (fst stranded) = TaskStateReady.
Proof.
  split; [vm_compute; reflexivity|].
  refine (proj1 (released_last_attempt_strands last_attempt_task (fst stranded) (fst given_up)
    release_last give_up_task (snd stranded) (snd given_up) _ _ _ _
    last_attempt_task_ok _ eq_refl _ _)); vm_compute; reflexivity.
Defined.
