(* ===== verification/WfPlanProps.v ===== *)
(** * Properties of planning *)

From S2P Require Import Prelude GoStd WfTypes WfTask WfPlan Samples.

(** ** Counting *)

Lemma waiting_done deps done p x :
  p ∉ done ->
  (waiting deps (p :: done) x + occurrences x (dependents deps p))%nat = waiting deps done x.
Proof.
  intros Hp. unfold waiting, occurrences, dependents.
  induction deps as [|d deps IH]; [done|]. cbn [List.filter].
  destruct (bool_decide (TaskID d = x)) eqn:Et, (bool_decide (DependsOnID d = p)) eqn:Ep;
    cbn [andb map List.filter]; rewrite ?Et; cbn [length].
  - apply bool_decide_eq_true in Ep. rewrite (bool_decide_true (_ ∈ p :: _)) by set_solver.
    rewrite bool_decide_false by (by rewrite Ep). cbn. lia.
  - apply bool_decide_eq_false in Ep.
    rewrite (bool_decide_ext (DependsOnID d ∈ p :: done) (DependsOnID d ∈ done)) by set_solver.
    destruct (bool_decide (DependsOnID d ∈ done)); cbn; lia.
  - lia.
  - lia.
Qed.

Lemma waiting_zero deps done x :
  waiting deps done x = 0%nat <-> forall p, depends_on deps x p -> p ∈ done.
Proof.
  unfold waiting, depends_on. induction deps as [|d deps IH].
  - cbn. set_solver.
  - cbn [List.filter]. destruct (decide (TaskID d = x)) as [Ht|Ht];
      destruct (decide (DependsOnID d ∈ done)) as [Hd|Hd].
    + rewrite bool_decide_true, bool_decide_true by done. cbn. rewrite IH. set_solver.
    + rewrite bool_decide_true, bool_decide_false by done. cbn. split; [lia|].
      intros Hall. exfalso. apply Hd, Hall. set_solver.
    + rewrite bool_decide_false by done. cbn. rewrite IH. set_solver.
    + rewrite bool_decide_false by done. cbn. rewrite IH. set_solver.
Qed.

Lemma waiting_positive deps done x :
  waiting deps done x <> 0%nat -> exists p, depends_on deps x p.
Proof.
  unfold waiting. intros Hn.
  destruct (List.filter _ deps) as [|d l] eqn:E; [done|].
  assert (In d (d :: l)) as Hd by (by left). rewrite <- E in Hd.
  apply List.filter_In in Hd as [Hd%list_elem_of_In [Ht _]%andb_true_iff].
  exists (DependsOnID d), d. rewrite bool_decide_eq_true in Ht. done.
Qed.

Lemma get_int_insert m k v x :
  get_int (<[k := v]> m) x = if decide (k = x) then v else get_int m x.
Proof. unfold get_int. rewrite lookup_insert. by case_decide. Qed.

Lemma get_list_insert m k v x :
  get_list (<[k := v]> m) x = if decide (k = x) then v else get_list m x.
Proof. unfold get_list. rewrite lookup_insert. by case_decide. Qed.

Lemma sn_irreflexive {A} (R : relation A) x : sn R x -> ~ tc R x x.
Proof.
  induction 1 as [x _ IH]. intros Hx.
  assert (exists y, R x y /\ tc R y y) as (y & Hy & Hc).
  { inversion Hx as [? ? Hxx|? y ? Hxy Hyx]; subst.
    - exists x. split; [done|]. by apply tc_once.
    - exists y. split; [done|]. by apply (tc_transitive _ x); [|apply tc_once]. }
  by apply (IH y).
Qed.

Lemma tc_endpoints deps ids x y :
  dependencies_within ids deps -> tc (depends_on deps) x y -> x ∈ ids /\ y ∈ ids.
Proof.
  intros Hw. induction 1 as [? ? (d & Hd & <- & <-)|? ? ? (d & Hd & <- & <-) _ IH];
    [by apply Hw|]. split; [by apply Hw|apply IH].
Qed.

(** ** The inner loop *)

(** The queue and the finished tasks are the tasks whose degree is zero. *)
Definition zero_degrees (ids : gset string) (finished queue : list string)
    (degrees : gmap string Z) : Prop :=
  NoDup (finished ++ queue) /\
  forall x, x ∈ finished ++ queue <-> x ∈ ids /\ get_int degrees x = 0.

Lemma release_all ids finished (w : string -> nat) l degrees queue degrees' queue' :
  (forall x, x ∈ ids -> get_int degrees x = Z.of_nat (w x + occurrences x l)) ->
  (forall x, x ∈ l -> x ∈ ids) ->
  zero_degrees ids finished queue degrees ->
  foldl release_dependent (degrees, queue) l = (degrees', queue') ->
  (forall x, x ∈ ids -> get_int degrees' x = Z.of_nat (w x)) /\
  zero_degrees ids finished queue' degrees'.
Proof.
  revert degrees queue. induction l as [|y l IH]; intros degrees queue Hdeg Hsub Hz Hf.
  { simplify_eq/=. split; [|done]. intros x Hx. rewrite Hdeg by done. f_equal. cbn. lia. }
  cbn [foldl release_dependent] in Hf. rewrite get_int_insert, decide_True in Hf by done.
  assert (Hy : y ∈ ids) by (apply Hsub; set_solver).
  assert (Hocc : get_int degrees y = Z.of_nat (w y + S (occurrences y l))).
  { rewrite Hdeg by done. unfold occurrences. cbn. by rewrite bool_decide_true. }
  assert (Hdeg' : forall x, x ∈ ids ->
    get_int (<[y := get_int degrees y - 1]> degrees) x = Z.of_nat (w x + occurrences x l)).
  { intros x Hx. rewrite get_int_insert. case_decide; [subst; lia|].
    rewrite Hdeg by done. unfold occurrences. cbn. by rewrite bool_decide_false. }
  destruct Hz as [Hnd Hmem].
  assert (Hynot : y ∉ finished ++ queue) by (rewrite Hmem; intros [_ ?]; lia).
  case_match eqn:E; eapply IH; try exact Hf; try done; [set_solver| |set_solver|].
  - apply Z.eqb_eq in E. split.
    + rewrite app_assoc. apply NoDup_app. split_and!; [done| |apply NoDup_singleton].
      intros z Hz ->%list_elem_of_singleton. done.
    + intros x. rewrite app_assoc, elem_of_app, Hmem, list_elem_of_singleton, get_int_insert.
      case_decide; subst; [|naive_solver]. split; [done|tauto].
  - apply Z.eqb_neq in E. split; [done|].
    intros x. rewrite Hmem, get_int_insert. case_decide; subst; [|done].
    split; [intros [_ ?]; lia|naive_solver].
Qed.

(** ** The main loop *)

Record kahn_inv (ids : gset string) (deps : list TaskDependency)
    (degrees : gmap string Z) (queue finished : list string) : Prop := {
  ki_zero : zero_degrees ids finished queue degrees;
  ki_degree : forall x, x ∈ ids -> get_int degrees x = Z.of_nat (waiting deps finished x);
  ki_sn : forall x, x ∈ finished -> sn (depends_on deps) x;
}.

Section kahn.
Context (ids : gset string) (deps : list TaskDependency) (adj : gmap string (list string)).
Hypothesis adj_dependents : forall x, get_list adj x = dependents deps x.
Hypothesis within : dependencies_within ids deps.

Lemma dependents_within p x : x ∈ dependents deps p -> x ∈ ids.
Proof.
  unfold dependents. rewrite list_elem_of_fmap. intros (d & -> & Hd).
  apply list_elem_of_In, List.filter_In in Hd as [Hd%list_elem_of_In _].
  by apply within.
Qed.

Lemma kahn_step degrees id queue finished degrees' queue' :
  kahn_inv ids deps degrees (id :: queue) finished ->
  foldl release_dependent (degrees, queue) (get_list adj id) = (degrees', queue') ->
  kahn_inv ids deps degrees' queue' (id :: finished).
Proof.
  intros [[Hnd Hmem] Hdeg Hsn] Hf. rewrite adj_dependents in Hf.
  assert (Hperm : finished ++ id :: queue ≡ₚ (id :: finished) ++ queue)
    by (symmetry; apply Permutation_middle).
  assert (Hid : id ∉ finished).
  { apply NoDup_app in Hnd as (_ & Hd & _). intros Hin. apply (Hd _ Hin). set_solver. }
  eapply (release_all ids (id :: finished) (waiting deps (id :: finished))) in Hf as [Hdeg' Hz'].
  - split; [done|done|]. intros x [->|Hx]%elem_of_cons; [|auto].
    constructor. intros p Hp. apply Hsn.
    apply (waiting_zero deps finished id); [|done].
    assert (id ∈ ids /\ get_int degrees id = 0) as [Hin H0] by (apply Hmem; set_solver).
    rewrite Hdeg in H0 by done. lia.
  - intros x Hx. rewrite Hdeg by done. f_equal. by rewrite waiting_done.
  - apply dependents_within.
  - split; [by rewrite <- Hperm|]. intros x. by rewrite <- Hperm.
Qed.

Lemma finished_bounded degrees queue finished :
  kahn_inv ids deps degrees queue finished -> (length finished + length queue <= size ids)%nat.
Proof.
  intros [[Hnd Hmem] _ _]. rewrite <- length_app, <- (size_list_to_set (C := gset string)) by done.
  apply subseteq_size. intros x. rewrite elem_of_list_to_set, Hmem. tauto.
Qed.

Lemma kahn_finishes fuel degrees queue finished :
  kahn_inv ids deps degrees queue finished -> (size ids <= length finished + fuel)%nat ->
  exists degrees' finished', kahn_inv ids deps degrees' [] finished' /\
    kahn fuel adj degrees queue (Z.of_nat (length finished)) = Some (Z.of_nat (length finished')).
Proof.
  revert degrees queue finished.
  induction fuel as [|fuel IH]; intros degrees [|id queue] finished Hinv Hfuel; cbn [kahn].
  - eauto.
  - pose proof (finished_bounded _ _ _ Hinv). cbn in *. lia.
  - eauto.
  - destruct (foldl _ _ _) as [degrees' queue'] eqn:Hf.
    replace (Z.of_nat (length finished) + 1) with (Z.of_nat (length (id :: finished)))
      by (cbn; lia).
    apply IH; [by eapply kahn_step|cbn; lia].
Qed.

Lemma finished_all degrees finished :
  kahn_inv ids deps degrees [] finished ->
  length finished = size ids <-> acyclic deps.
Proof.
  intros [[Hnd Hmem] Hdeg Hsn]. rewrite app_nil_r in *.
  assert (Hlen : length finished = size (list_to_set finished : gset string))
    by (by rewrite size_list_to_set).
  assert (Hsub : (list_to_set finished : gset string) ⊆ ids).
  { intros x. rewrite elem_of_list_to_set, Hmem. tauto. }
  split.
  - intros Heq t Ht.
    assert (Hall : (list_to_set finished : gset string) = ids).
    { apply leibniz_equiv, set_subseteq_size_equiv; [done|lia]. }
    apply (sn_irreflexive (depends_on deps) t); [|done]. apply Hsn.
    rewrite <- (elem_of_list_to_set (C := gset string)), Hall.
    by apply (tc_endpoints deps ids t t).
  - intros Hac. rewrite Hlen. f_equal. apply leibniz_equiv. apply (anti_symm subseteq); [done|].
    intros x Hx. rewrite elem_of_list_to_set.
    assert (Hx' : sn (depends_on deps) x).
    { apply tc_finite_sn; [exact Hac|]. exists (elements ids). intros y Hy.
      apply elem_of_elements. by apply (tc_endpoints deps ids x y). }
    revert Hx. induction Hx' as [x _ IH]. intros Hx. apply Hmem. split; [done|].
    rewrite Hdeg by done. cut (waiting deps finished x = 0%nat); [lia|].
    apply waiting_zero. intros p Hp. apply (IH p Hp).
    destruct Hp as (d & Hd & _ & <-). by apply within.
Qed.

End kahn.

(** ** What the validations establish *)

(** The maps of the graph count and list the dependencies. *)
Definition graph_of (deps : list TaskDependency) (g : plannedGraph) : Prop :=
  (forall x, get_int (incoming g) x = Z.of_nat (waiting deps [] x)) /\
  (forall x, get_list (adjacency g) x = dependents deps x) /\
  (forall k, k ∈ edges g <-> k ∈ map dependency_key deps).

Lemma waiting_snoc deps d x :
  waiting (deps ++ [d]) [] x = (waiting deps [] x + if decide (TaskID d = x) then 1 else 0)%nat.
Proof.
  unfold waiting. rewrite List.filter_app, length_app. cbn [List.filter].
  rewrite (bool_decide_false (_ ∈ [])) by set_solver. case_decide;
  [rewrite bool_decide_true|rewrite bool_decide_false]; done.
Qed.

Lemma dependents_snoc deps d x :
  dependents (deps ++ [d]) x =
  dependents deps x ++ if decide (DependsOnID d = x) then [TaskID d] else [].
Proof.
  unfold dependents. rewrite List.filter_app, map_app. cbn [List.filter].
  case_decide; [rewrite bool_decide_true|rewrite bool_decide_false]; done.
Qed.

Lemma add_dependency_graph deps d g :
  graph_of deps g -> graph_of (deps ++ [d]) (add_dependency g d).
Proof.
  intros (Hi & Ha & He). split_and!; cbn; intros x.
  - rewrite get_int_insert, waiting_snoc, Hi. case_decide; subst; rewrite ?Hi; lia.
  - rewrite get_list_insert, dependents_snoc, Ha.
    case_decide; subst; rewrite ?app_nil_r; done.
  - rewrite elem_of_union, He, map_app, elem_of_app, elem_of_singleton. cbn. set_solver.
Qed.

Lemma plannedTaskGraph_loop_Ok ids deps pre g g' :
  graph_of pre g -> plannedTaskGraph_loop ids deps g = Ok g' ->
  graph_of (pre ++ deps) g' /\ dependencies_within ids deps /\
  NoDup deps /\ (forall d, d ∈ deps -> TaskID d <> DependsOnID d /\ d ∉ pre).
Proof.
  revert pre g. induction deps as [|d deps IH]; intros pre g Hg Hr; cbn in Hr.
  { simplify_eq. rewrite app_nil_r. split_and!; [done| |constructor|]; intros ? ?%elem_of_nil; done. }
  go_run Hr. rewrite !bool_decide_eq_false in *.
  destruct (IH (pre ++ [d]) (add_dependency g d)) as (H1 & H2 & H3 & H4);
    [by apply add_dependency_graph|done|].
  rewrite <- app_assoc in H1. destruct Hg as (_ & _ & He).
  assert (d ∉ pre).
  { intros Hd. destruct Hc2. apply He, list_elem_of_fmap. eauto. }
  split_and!; [done| | |].
  - intros x [->|Hx]%elem_of_cons; [|by apply H2].
    split; by apply dec_stable.
  - constructor; [|done]. intros Hd. apply (H4 d Hd). set_solver.
  - intros x [->|Hx]%elem_of_cons; [done|]. split; [by apply H4|].
    intros Hp. apply (H4 x Hx). set_solver.
Qed.

Lemma plannedTaskGraph_Ok ids deps g :
  plannedTaskGraph ids deps = Ok g ->
  graph_of deps g /\ dependencies_within ids deps /\ NoDup deps.
Proof.
  intros Hr. apply (plannedTaskGraph_loop_Ok _ _ []) in Hr as (? & ? & ? & _).
  - done.
  - split_and!; intros x; cbn; unfold get_int, get_list; rewrite ?lookup_empty; set_solver.
Qed.

Section planning.
Context `{PlatformLaws}.

Lemma plannedTaskIDs_loop_Ok defs ids0 ids :
  plannedTaskIDs_loop defs ids0 = Ok ids ->
  ids = ids0 ∪ list_to_set (map Definition_ID defs) /\ NoDup (map Definition_ID defs) /\
  Forall (fun d => uuid_Parse_ok (Definition_ID d) = true /\ Definition_MaxAttempts d <> 0 /\
    Definition_ID d ∉ ids0) defs.
Proof.
  revert ids0. induction defs as [|d defs IH]; intros ids0 Hr; cbn in Hr.
  { simplify_eq. cbn. split_and!; [set_solver|constructor|constructor]. }
  apply res_bind_Ok in Hr as ([] & Hid & Hr). go_run Hr.
  rewrite bool_decide_eq_false, Z.eqb_neq in *. apply IH in Hr as (-> & Hnd & Hall).
  rewrite Forall_forall in Hall. split_and!.
  - cbn. set_solver.
  - cbn. constructor; [|done]. rewrite list_elem_of_fmap. intros (d' & Heq & Hd').
    apply Hall in Hd' as (_ & _ & Hn). set_solver.
  - constructor; [unfold validateID in Hid; case_match; done|].
    apply Forall_forall. intros d' (? & ? & ?)%Hall. set_solver.
Qed.

Lemma plannedTaskIDs_Ok defs ids :
  plannedTaskIDs defs = Ok ids ->
  defs <> [] /\ ids = list_to_set (map Definition_ID defs) /\ NoDup (map Definition_ID defs) /\
  Forall (fun d => uuid_Parse_ok (Definition_ID d) = true /\ Definition_MaxAttempts d <> 0) defs.
Proof.
  unfold plannedTaskIDs. intros Hr. destruct defs as [|d defs]; [done|].
  apply plannedTaskIDs_loop_Ok in Hr as (-> & ? & Hall).
  split_and!; [done|set_solver|done|]. eapply Forall_impl; [exact Hall|]. naive_solver.
Qed.

Lemma initial_degrees (m : gmap string Z) order acc x :
  get_int (foldl (fun m' id => <[id := get_int m id]> m') acc order) x =
  if decide (x ∈ order) then get_int m x else get_int acc x.
Proof.
  revert acc. induction order as [|y order IH]; intros acc; cbn [foldl].
  { rewrite decide_False by set_solver. done. }
  rewrite IH, get_int_insert. repeat case_decide; subst; done || set_solver.
Qed.

(** Kahn's loop ends within the fuel, and says whether the graph is acyclic. *)
Lemma taskGraphAcyclic_spec ids deps g :
  plannedTaskGraph ids deps = Ok g ->
  exists b, taskGraphAcyclic ids g = Some b /\ (b = true <-> acyclic deps).
Proof.
  intros ((Hi & Ha & _) & Hw & _)%plannedTaskGraph_Ok. unfold taskGraphAcyclic.
  set (order := arbitrary_order _).
  assert (Hord : order ≡ₚ elements ids) by apply arbitrary_order_perm.
  assert (Hin : forall x, x ∈ order <-> x ∈ ids) by (intros x; by rewrite Hord, elem_of_elements).
  set (degrees := foldl _ _ _). set (queue := List.filter _ _).
  assert (Hdeg : forall x, x ∈ ids -> get_int degrees x = Z.of_nat (waiting deps [] x)).
  { intros x Hx. unfold degrees. rewrite initial_degrees, decide_True by (by apply Hin). apply Hi. }
  assert (Hinv : kahn_inv ids deps degrees queue []).
  { split; [|done|set_solver]. split; cbn [app].
    - apply NoDup_ListNoDup, List.NoDup_filter, NoDup_ListNoDup. rewrite Hord.
      apply NoDup_elements.
    - intros x. unfold queue. rewrite list_elem_of_In, List.filter_In, <- list_elem_of_In, Hin,
        Z.eqb_eq. split; intros [Hx E]; (split; [done|]); rewrite Hi, Hdeg in *; done. }
  destruct (kahn_finishes ids deps (adjacency g) Ha Hw (size ids) _ _ _ Hinv)
    as (degrees' & done & Hinv' & Hk); [cbn; lia|].
  cbn in Hk. change (Z.of_nat 0) with 0 in Hk. rewrite Hk. cbn. eexists. split; [reflexivity|].
  rewrite Z.eqb_eq, Nat2Z.inj_iff. by apply (finished_all ids deps Hw degrees').
Qed.

(** An acyclic plan has a task to start with. *)
Lemma minimal_task defs deps :
  defs <> [] -> dependencies_within (list_to_set (map Definition_ID defs)) deps ->
  acyclic deps ->
  exists d, d ∈ defs /\ forall p, ~ depends_on deps (Definition_ID d) p.
Proof.
  intros Hne Hw Hac. destruct defs as [|d0 defs]; [done|].
  assert (Hsn : sn (depends_on deps) (Definition_ID d0)).
  { apply tc_finite_sn; [exact Hac|]. exists (map Definition_ID (d0 :: defs)). intros y Hy.
    apply (tc_endpoints _ _ _ _ Hw) in Hy as [_ Hy]. by apply elem_of_list_to_set in Hy. }
  assert (Hin : Definition_ID d0 ∈ map Definition_ID (d0 :: defs)) by set_solver.
  revert Hin. generalize (Definition_ID d0) as x, Hsn. clear Hsn Hne.
  induction 1 as [x _ IH]. intros Hin.
  destruct (waiting deps [] x) as [|n] eqn:E.
  - apply list_elem_of_fmap in Hin as (d & -> & Hd). exists d. split; [done|].
    intros p Hp. rewrite waiting_zero in E. apply E in Hp. set_solver.
  - destruct (waiting_positive deps [] x) as [p Hp]; [lia|]. apply (IH p Hp).
    destruct Hp as (e & He & _ & <-). apply Hw in He as [_ He]. by apply elem_of_list_to_set in He.
Qed.

(** The task built for a definition. *)
Lemma buildPlannedTask_spec run g deps m d :
  graph_of deps g ->
  let '(t, e) := buildPlannedTask run (incoming g) m d in
  Task_ID t = Definition_ID d /\ Task_RunID t = run /\ Task_Revision t = 1 /\
  MaxAttempts t = Definition_MaxAttempts d /\
  (Task_State t = TaskStateReady /\ (forall p, ~ depends_on deps (Task_ID t) p) \/
   Task_State t = TaskStatePending /\ exists p, depends_on deps (Task_ID t) p) /\
  (1 <= Definition_MaxAttempts d <= max_u32 -> task_ok t) /\
  AggregateID e = Task_ID t /\ Event_Revision e = 1.
Proof.
  intros (Hi & _). unfold buildPlannedTask. rewrite Hi.
  assert (Hok : forall s, s = TaskStateReady \/ s = TaskStatePending ->
    1 <= Definition_MaxAttempts d <= max_u32 ->
    task_ok (mkTask (Definition_ID d) run s 1 (Definition_MaxAttempts d) 0 None None None ""
      None None None (UTC (Timestamp m)) (UTC (Timestamp m)))).
  { intros s Hs Hm. split; [by destruct Hs as [-> | ->]|].
    unfold task_fenced. cbn. split_and!; [lia..|done|done]. }
  destruct (waiting deps [] (Definition_ID d)) as [|n] eqn:Hw; cbn;
    split_and!; try done; auto.
  - left. split; [done|]. intros p Hp.
    rewrite waiting_zero in Hw. apply Hw in Hp. set_solver.
  - right. split; [done|]. apply (waiting_positive deps [] (Definition_ID d)). by rewrite Hw.
Qed.

Lemma plannedTaskIDs_loop_complete defs (ids0 : gset string) :
  NoDup (map Definition_ID defs) ->
  Forall (fun d => uuid_Parse_ok (Definition_ID d) = true /\ Definition_MaxAttempts d <> 0 /\
    Definition_ID d ∉ ids0) defs ->
  is_Ok (plannedTaskIDs_loop defs ids0) = true.
Proof.
  revert ids0. induction defs as [|d defs IH]; intros ids0 Hnd Hall; [done|].
  cbn in *. apply NoDup_cons in Hnd as [Hd Hnd].
  apply Forall_cons in Hall as ((Hid & Hm & Hn) & Hall).
  unfold validateID. rewrite Hid. cbn. rewrite bool_decide_false by done.
  destruct (Z.eqb_spec (Definition_MaxAttempts d) 0); [done|]. apply IH; [done|].
  rewrite Forall_forall in *. intros d' Hd'. destruct (Hall d' Hd') as (? & ? & ?).
  split_and!; [done..|]. rewrite elem_of_union, elem_of_singleton. intros [Heq|?]; [|done].
  apply Hd. rewrite <- Heq. by apply list_elem_of_fmap_2.
Qed.

Lemma plannedTaskGraph_loop_complete (ids : gset string) deps g :
  dependencies_within ids deps -> (forall d, d ∈ deps -> TaskID d <> DependsOnID d) ->
  NoDup (map dependency_key deps) -> (forall d, d ∈ deps -> dependency_key d ∉ edges g) ->
  is_Ok (plannedTaskGraph_loop ids deps g) = true.
Proof.
  revert g. induction deps as [|d deps IH]; intros g Hw Hself Hnd He; [done|].
  cbn in *. apply NoDup_cons in Hnd as [Hd Hnd].
  destruct (Hw d) as [H1 H2]; [set_solver|].
  rewrite (bool_decide_false (TaskID d ∉ ids)) by (intros Hx; by apply Hx).
  rewrite (bool_decide_false (DependsOnID d ∉ ids)) by (intros Hx; by apply Hx).
  rewrite (bool_decide_false (TaskID d = _)) by (apply Hself; set_solver).
  rewrite (bool_decide_false (_ ∈ edges g)) by (apply He; set_solver).
  apply IH; [intros x Hx; apply Hw; set_solver|intros x Hx; apply Hself; set_solver|done|].
  intros x Hx. cbn. rewrite elem_of_union, elem_of_singleton. intros [Heq|Hin].
  - apply Hd. rewrite <- Heq. by apply list_elem_of_fmap_2.
  - apply (He x); [set_solver|done].
Qed.

(** The keys of accepted dependencies are distinct. *)
Lemma plannedTaskGraph_loop_keys ids deps g g' :
  plannedTaskGraph_loop ids deps g = Ok g' ->
  NoDup (map dependency_key deps) /\ forall d, d ∈ deps -> dependency_key d ∉ edges g.
Proof.
  revert g. induction deps as [|d deps IH]; intros g Hr; cbn in Hr.
  { split; [constructor|set_solver]. }
  go_run Hr. rewrite !bool_decide_eq_false in *. apply IH in Hr as [Hnd He]. split.
  - cbn. constructor; [|done]. rewrite list_elem_of_fmap. intros (x & Heq & Hx).
    apply (He x Hx). cbn. rewrite <- Heq. set_solver.
  - intros x [->|Hx]%elem_of_cons; [done|]. specialize (He x Hx). cbn in He. set_solver.
Qed.

(** A well formed plan: what a caller has to submit. *)
Definition well_formed_plan (run : string) (defs : list TaskDefinition)
    (deps : list TaskDependency) : Prop :=
  uuid_Parse_ok run = true /\ defs <> [] /\ NoDup (map Definition_ID defs) /\
  Forall (fun d => uuid_Parse_ok (Definition_ID d) = true /\ Definition_MaxAttempts d <> 0) defs /\
  dependencies_within (list_to_set (map Definition_ID defs)) deps /\
  NoDup (map dependency_key deps) /\ acyclic deps.

Lemma NewPlannedTasks_Ok run defs deps m ts ds evs :
  NewPlannedTasks run defs deps m = Ok (ts, ds, evs) ->
  well_formed_plan run defs deps /\ ds = deps /\
  exists g, graph_of deps g /\ (ts, evs) = buildPlannedTasks run defs (incoming g) m.
Proof.
  unfold NewPlannedTasks. intros ([] & Hrun & (ids & Hids & (g & Hg & Hr)%res_bind_Ok)%res_bind_Ok)%res_bind_Ok.
  destruct (taskGraphAcyclic_spec _ _ _ Hg) as (b & Hb & Hac).
  rewrite Hb in Hr. destruct b; [|done].
  pose proof (plannedTaskGraph_loop_keys _ _ _ _ Hg) as [Hkeys _].
  pose proof (plannedTaskGraph_Ok _ _ _ Hg) as (Hgr & Hw & _).
  apply plannedTaskIDs_Ok in Hids as (Hne & -> & Hnd & Hall).
  destruct (buildPlannedTasks _ _ _ _) as [ts' evs'] eqn:E. simplify_eq.
  unfold validateID in Hrun. case_match; [|done].
  split_and!; [|done|exists g; by rewrite E].
  unfold well_formed_plan. split_and!; try done. by apply Hac.
Qed.

Lemma NewPlannedTasks_complete run defs deps m :
  well_formed_plan run defs deps -> is_Ok (NewPlannedTasks run defs deps m) = true.
Proof.
  intros (Hrun & Hne & Hnd & Hall & Hw & Hkeys & Hac). unfold NewPlannedTasks, validateID.
  rewrite Hrun. cbn [mbind res_bind].
  assert (is_Ok (plannedTaskIDs defs) = true) as Hids.
  { destruct defs as [|d defs]; [done|]. apply plannedTaskIDs_loop_complete; [done|].
    eapply Forall_impl; [exact Hall|]. cbn. set_solver. }
  destruct (plannedTaskIDs defs) as [ids|] eqn:Ei; [|done]. cbn [mbind res_bind].
  apply plannedTaskIDs_Ok in Ei as (_ & -> & _).
  assert (is_Ok (plannedTaskGraph (list_to_set (map Definition_ID defs)) deps) = true) as Hgr.
  { apply plannedTaskGraph_loop_complete; [done| |done|set_solver].
    intros d Hd Heq. apply (Hac (TaskID d)). apply tc_once. exists d. by split_and!. }
  destruct (plannedTaskGraph _ deps) as [g|] eqn:Eg; [|done]. cbn [mbind res_bind].
  destruct (taskGraphAcyclic_spec _ _ _ Eg) as (b & -> & Hb).
  rewrite (proj2 Hb Hac). by destruct (buildPlannedTasks _ _ _ _).
Qed.

Lemma NoDup_map_weaker {A B C} (f : A -> B) (g : A -> C) l :
  (forall x y, f x = f y -> g x = g y) -> NoDup (map g l) -> NoDup (map f l).
Proof.
  intros Hfg. induction l as [|x l IH]; cbn; [constructor|]. intros [Hx Hl]%NoDup_cons.
  constructor; [|auto]. rewrite list_elem_of_fmap. intros (y & Heq & Hy).
  apply Hx, list_elem_of_fmap. eauto.
Qed.

(** The identifiers of the events of a plan. *)
Lemma planned_event_name_inj (x y : string) (s s' : string) :
  s = "TASK_READY" \/ s = "TASK_CREATED" -> s' = "TASK_READY" \/ s' = "TASK_CREATED" ->
  x +:+ ":" +:+ s = y +:+ ":" +:+ s' -> x = y.
Proof.
  intros Hs Hs' Heq.
  apply (f_equal (fun z => reverse (String.list_ascii_of_string z))) in Heq.
  assert (Happ : forall a b, String.list_ascii_of_string (a +:+ b) =
     String.list_ascii_of_string a ++ String.list_ascii_of_string b).
  { intros a b. induction a as [|c a IH]; [done|]. rewrite app_cons_str. cbn. by rewrite IH. }
  rewrite !Happ, !reverse_app in Heq.
  destruct Hs as [-> | ->], Hs' as [-> | ->]; cbn in Heq; try discriminate;
    injection Heq as Heq; apply (inj reverse) in Heq;
    apply (f_equal String.string_of_list_ascii) in Heq;
    by rewrite !String.string_of_list_ascii_of_string in Heq.
Qed.

End planning.

(** ** The properties *)

Section properties.
Context `{PlatformLaws}.

(** the cycle check is exact and always answers: on every graph that the
    validation of the dependencies lets through, Kahn's loop finishes within
    its bound (the number of tasks), whatever order Go's maps are iterated in,
    and answers true precisely when no task transitively depends on itself. *)
Theorem cycle_check_exact (ids : gset string) (deps : list TaskDependency) (g : plannedGraph) :
  plannedTaskGraph ids deps = Ok g ->
  exists b, taskGraphAcyclic ids g = Some b /\ (b = true <-> acyclic deps).
Proof. apply taskGraphAcyclic_spec. Qed.

(** Planning accepts exactly the well formed plans: a run identifier, at
    least one task, distinct valid task identifiers with attempts, dependencies
    between listed tasks, none listed twice, and no cycle. *)
Theorem planning_accepts_exactly (run : string) (defs : list TaskDefinition)
    (deps : list TaskDependency) (m : CommandEnvelope) :
  is_Ok (NewPlannedTasks run defs deps m) = true <-> well_formed_plan run defs deps.
Proof.
  split; [|apply NewPlannedTasks_complete].
  destruct (NewPlannedTasks run defs deps m) as [[[ts ds] evs]|e] eqn:E; [|done].
  intros _. by apply NewPlannedTasks_Ok in E as [Hw _].
Qed.

(** an accepted plan yields one task per definition, in the order of the
    definitions, each at revision 1 in a state that satisfies the task
    invariant: READY when nothing is before it, PENDING when it depends on
    another task; at least one task is READY, so work can start; the
    dependencies are those submitted. *)
Theorem planned_tasks_wellformed (run : string) (defs : list TaskDefinition)
    (deps : list TaskDependency) (m : CommandEnvelope)
    (ts : list Task) (ds : list TaskDependency) (evs : list Event) :
  NewPlannedTasks run defs deps m = Ok (ts, ds, evs) ->
  Forall (fun d => 0 <= Definition_MaxAttempts d <= max_u32) defs ->
  ds = deps /\ map Task_ID ts = map Definition_ID defs /\
  map AggregateID evs = map Task_ID ts /\
  Forall (fun t => task_ok t /\ Task_Revision t = 1 /\ Task_RunID t = run /\
    (Task_State t = TaskStateReady /\ (forall p, ~ depends_on deps (Task_ID t) p) \/
     Task_State t = TaskStatePending /\ exists p, depends_on deps (Task_ID t) p)) ts /\
  exists t, t ∈ ts /\ Task_State t = TaskStateReady.
Proof.
  intros (Hw & -> & g & Hg & [= -> ->])%NewPlannedTasks_Ok Hmax.
  destruct Hw as (Hrun & Hne & Hnd & Hall & Hwithin & Hkeys & Hac).
  assert (Hspec := buildPlannedTask_spec run g deps m).
  assert (Htasks : forall d, d ∈ defs ->
    let t := fst (buildPlannedTask run (incoming g) m d) in
    Task_ID t = Definition_ID d /\ AggregateID (snd (buildPlannedTask run (incoming g) m d)) = Task_ID t /\
    task_ok t /\ Task_Revision t = 1 /\ Task_RunID t = run /\
    (Task_State t = TaskStateReady /\ (forall p, ~ depends_on deps (Task_ID t) p) \/
     Task_State t = TaskStatePending /\ exists p, depends_on deps (Task_ID t) p)).
  { intros d Hd. specialize (Hspec d Hg). destruct (buildPlannedTask _ _ _ d) as [t e]. cbn.
    destruct Hspec as (? & ? & ? & ? & ? & Hok & ? & ?).
    rewrite Forall_forall in Hall, Hmax. destruct (Hall d Hd), (Hmax d Hd).
    split_and!; try done. apply Hok. lia. }
  split_and!; [done|..].
  - rewrite !map_map. apply map_ext_in. intros d Hd%list_elem_of_In. by apply Htasks.
  - rewrite !map_map. apply map_ext_in. intros d Hd%list_elem_of_In. by apply Htasks.
  - apply Forall_forall. intros t Ht. rewrite map_map in Ht.
    apply list_elem_of_fmap in Ht as (d & -> & Hd). by apply Htasks.
  - destruct (minimal_task defs deps Hne Hwithin Hac) as (d & Hd & Hmin).
    exists (fst (buildPlannedTask run (incoming g) m d)). split.
    + rewrite map_map. apply (list_elem_of_fmap_2 (fun x => fst (buildPlannedTask run (incoming g) m x))). done.
    + destruct (Htasks d Hd) as (Hid & _ & _ & _ & _ & [[? _]|[_ [p Hp]]]); [done|].
      rewrite Hid in Hp. by apply Hmin in Hp.
Qed.

(** the events of one planning command have pairwise different
    identifiers, provided different names give different version 5 UUIDs. *)
Theorem planned_event_ids_distinct (run : string) (defs : list TaskDefinition)
    (deps : list TaskDependency) (m : CommandEnvelope)
    (ts : list Task) (ds : list TaskDependency) (evs : list Event) :
  name_uuids_distinct -> NewPlannedTasks run defs deps m = Ok (ts, ds, evs) ->
  NoDup (map Event_ID evs).
Proof.
  intros Hd (Hw & -> & g & Hg & [= -> ->])%NewPlannedTasks_Ok.
  destruct Hw as (_ & _ & Hnd & _). rewrite !map_map.
  eapply NoDup_map_weaker; [|exact Hnd]. intros x y Heq.
  unfold buildPlannedTask in Heq.
  destruct (get_int _ (Definition_ID x) =? 0), (get_int _ (Definition_ID y) =? 0); cbn in Heq;
    apply Hd in Heq; apply planned_event_name_inj in Heq; auto.
Qed.

End properties.

(** ** Witnesses *)

(** Two tasks, the second waiting for the first. *)
Definition sample_definitions : list TaskDefinition :=
  [mkTaskDefinition "t1" 2; mkTaskDefinition "t2" 3].
Definition sample_dependencies : list TaskDependency := [mkTaskDependency "t2" "t1"].
Definition sample_graph : plannedGraph :=
  result (mkPlannedGraph ∅ ∅ ∅) (plannedTaskGraph {["t1"; "t2"]} sample_dependencies).
Definition sample_plan : list Task * list TaskDependency * list Event :=
  result ([], [], []) (NewPlannedTasks "run-1" sample_definitions sample_dependencies
    (meta "c9" ActorHuman 3 9)).

Lemma cycle_check_exact_witness :
  plannedTaskGraph {["t1"; "t2"]} sample_dependencies = Ok sample_graph /\
  exists b, taskGraphAcyclic {["t1"; "t2"]} sample_graph = Some b /\
    (b = true <-> acyclic sample_dependencies).
Proof.
  split; [vm_compute; reflexivity|].
  apply (cycle_check_exact {["t1"; "t2"]} sample_dependencies sample_graph).
  vm_compute. reflexivity.
Defined.

Lemma planned_tasks_wellformed_witness :
  map Task_State (fst (fst sample_plan)) = [TaskStateReady; TaskStatePending] /\
  exists t, t ∈ fst (fst sample_plan) /\ Task_State t = TaskStateReady.
Proof.
  split; [vm_compute; reflexivity|].
  apply (planned_tasks_wellformed "run-1" sample_definitions sample_dependencies
    (meta "c9" ActorHuman 3 9) (fst (fst sample_plan)) (snd (fst sample_plan)) (snd sample_plan)).
  - vm_compute. reflexivity.
  - repeat constructor; vm_compute; congruence.
Defined.

Lemma planned_event_ids_distinct_witness : NoDup (map Event_ID (snd sample_plan)).
Proof.
  apply (planned_event_ids_distinct "run-1" sample_definitions sample_dependencies
    (meta "c9" ActorHuman 3 9) (fst (fst sample_plan)) (snd (fst sample_plan)) (snd sample_plan)).
  - exact sample_name_uuids_distinct.
  - vm_compute. reflexivity.
Defined.

Lemma planning_accepts_exactly_witness :
  well_formed_plan "run-1" sample_definitions sample_dependencies.
Proof.
  apply (planning_accepts_exactly "run-1" sample_definitions sample_dependencies
    (meta "c9" ActorHuman 3 9)).
  vm_compute. reflexivity.
Defined.
