(* ===== verification/WfRunProps.v ===== *)
(** * Properties of the run state machine *)

From S2P Require Import Prelude GoStd WfTypes WfTask WfPlan WfRun.
From S2P Require Import Samples WfTaskProps WfPlanProps.

(** The shape of a step: the transition that was taken. *)
Definition transition_of `{Platform} (r : Run) (c : RunCommand) : res runTransition :=
  match c with
  | ProposeSpecification m _ s => proposeSpecification r m s
  | RejectSpecification m _ s reason terminal => rejectSpecification r m s reason terminal
  | ApproveSpecification m _ s => approveSpecification r m s
  | ProposeTaskGraph m _ g => proposeTaskGraph r m g
  | RejectTaskGraph m _ g reason terminal => rejectTaskGraph r m g reason terminal
  | _ => completion r c
  end.

(** Follow an accepted transition into the branch that accepted it. *)
Ltac run_cases Hr :=
  cbn [transition_of completion] in Hr; try discriminate Hr;
  unfold proposeSpecification, rejectSpecification, approveSpecification, proposeTaskGraph,
    rejectTaskGraph, Run_start, Run_recordExecution, Run_recordVerification, Run_recordReview,
    Run_approve, Run_reject, recordDraftPullRequest, recordMerge, Run_fail, Run_cancel,
    validateSpecificationReview, Run_validateHumanReview in Hr;
  go_run Hr;
  repeat match goal with
  | H : (if _ then _ else _) = Ok _ |- _ => go_run H
  | H : mbind _ _ = Ok _ |- _ => go_run H
  | H : validateBoundArtifact _ _ _ = Ok _ |- _ =>
      apply validateBoundArtifact_Ok in H; destruct H as (? & ?)
  | H : ArtifactRef_Equal _ _ = true |- _ => apply ArtifactRef_Equal_eq in H
  end;
  rewrite ?orb_false_iff, ?andb_false_iff, ?negb_false_iff, ?bool_decide_eq_true,
    ?bool_decide_eq_false in *;
  repeat case_match; simplify_eq.

Section lemmas.
Context `{Platform}.

Lemma Run_Apply_Ok r c r' evs :
  Run_Apply r c = Ok (r', evs) ->
  exists meta tr, RunCommand_Envelope c = Some meta /\ Run_validateCommand r c = Ok tt /\
    transition_of r c = Ok tr /\ (r', evs) = finishRunTransition tr meta.
Proof.
  unfold Run_Apply. intros ([] & Hv & Hr)%res_bind_Ok.
  destruct c; try discriminate Hr; unfold applyCompletion, finish in Hr;
    apply res_bind_Ok in Hr as (tr & Ht & Hr); simpl in Hr; injection Hr as <- <-;
    eexists _, tr; (split_and!; [reflexivity|exact Hv|exact Ht|reflexivity]).
Qed.

Lemma Run_validateCommand_Ok r c u :
  Run_validateCommand r c = Ok u ->
  Run_Validate r = Ok tt /\ validateRunCommand c = Ok tt /\ RunCommand_RunID c = Run_ID r /\
  RunState_Terminal (Run_State r) = false /\
  exists meta, RunCommand_Envelope c = Some meta /\ ExpectedRevision meta = Run_Revision r.
Proof.
  unfold Run_validateCommand. intros Hr. go_run Hr.
  rewrite !negb_false_iff, !bool_decide_eq_true in *. naive_solver.
Qed.

Lemma Run_ApproveTaskGraph_Ok r c d :
  Run_ApproveTaskGraph r c = Ok d ->
  exists meta g defs deps g_run evs,
    c = ApproveTaskGraph meta (Run_ID r) g defs deps /\
    Run_Validate r = Ok tt /\ validateRunCommand c = Ok tt /\
    ExpectedRevision meta = Run_Revision r /\ Run_State r = RunStateTaskPlanReview /\
    Actor_Kind (Envelope_Actor meta) = ActorHuman /\ TaskGraph r = Some g /\
    g_run = set_Run_UpdatedAt (UTC (Timestamp meta))
      (set_Run_Revision (u64 (Run_Revision r + 1)) (set_Run_State RunStateReady r)) /\
    NewPlannedTasks (Run_ID r) defs deps meta =
      Ok (Decision_Tasks d, Decision_Dependencies d, evs) /\
    d = mkPlanningDecision g_run (Decision_Tasks d) (Decision_Dependencies d)
      (newRunEvent g_run meta "TASK_GRAPH_APPROVED" (Some (artifactPayload "task_graph" g)) :: evs).
Proof.
  unfold Run_ApproveTaskGraph. destruct c; try discriminate. intros Hr.
  apply res_bind_Ok in Hr as ([] & Hv & Hr). apply res_bind_Ok in Hr as ([] & Hc & Hr).
  go_step Hr. go_step Hr. go_step Hr. go_step Hr.
  apply res_bind_Ok in Hr as ([] & Hb & Hr). apply validateBoundArtifact_Ok in Hb as [Hb _].
  apply res_bind_Ok in Hr as ([[ts ds] evs] & Hp & Hr).
  rewrite !negb_false_iff, !bool_decide_eq_true in *. simplify_eq.
  eexists _, _, _, _, _, _. split_and!; try reflexivity; done.
Qed.

Lemma transition_frame r c tr :
  transition_of r c = Ok tr ->
  Run_ID (run_next tr) = Run_ID r /\ Run_Revision (run_next tr) = Run_Revision r /\
  Run_CreatedAt (run_next tr) = Run_CreatedAt r.
Proof. destruct c; intros Hr; run_cases Hr; done. Qed.

Lemma transition_edge r c tr :
  RunState_Terminal (Run_State r) = false -> transition_of r c = Ok tr ->
  run_edge (Run_State r) (Run_State (run_next tr)) = true.
Proof.
  intros Ht Hr. destruct c; run_cases Hr; simpl;
    repeat match goal with H : Run_State r = _ |- _ => rewrite H end; try done.
  all: destruct (Run_State r); done.
Qed.

Lemma transition_actor r c tr meta :
  RunCommand_Envelope c = Some meta -> transition_of r c = Ok tr ->
  run_actor_allowed c (Actor_Kind (Envelope_Actor meta)) = true.
Proof.
  intros He Hr. destruct c; simpl in He; simplify_eq; simpl; run_cases Hr;
    rewrite ?bool_decide_eq_true; auto.
Qed.

Lemma run_ok_unmerged r :
  run_ok r -> RunState_Terminal (Run_State r) = false -> Merge r = None.
Proof.
  unfold run_ok, run_trail. intros Hok Ht. destruct (Run_State r); try done; by destruct_and!.
Qed.

Lemma transition_ok r c tr :
  run_ok r -> RunState_Terminal (Run_State r) = false ->
  transition_of r c = Ok tr -> run_ok (run_next tr).
Proof.
  intros Hok Ht Hr. pose proof (run_ok_unmerged _ Hok Ht).
  destruct c; run_cases Hr; unfold run_ok in *; simpl;
    repeat match goal with H : Run_State r = _ |- _ => rewrite H in * end;
    unfold run_trail in *; simpl; destruct_and?; split_and?; simpl; intros; eauto.
Qed.

(** A step of either kind, seen through the common contract. *)
Lemma run_step_Ok r c r' evs :
  run_step r c = Ok (r', evs) ->
  exists meta tr rest, RunCommand_Envelope c = Some meta /\
    ExpectedRevision meta = Run_Revision r /\ RunState_Terminal (Run_State r) = false /\
    RunCommand_RunID c = Run_ID r /\
    Run_Validate r = Ok tt /\ validateRunCommand c = Ok tt /\
    r' = fst (finishRunTransition tr meta) /\ evs = snd (finishRunTransition tr meta) ++ rest /\
    (transition_of r c = Ok tr /\ rest = [] \/
     Run_State r = RunStateTaskPlanReview /\ Actor_Kind (Envelope_Actor meta) = ActorHuman /\
     (exists i g ds dp, c = ApproveTaskGraph meta i g ds dp /\ TaskGraph r = Some g) /\
     run_next tr = set_Run_State RunStateReady r).
Proof.
  intros Hr. destruct (match c with ApproveTaskGraph _ _ _ _ _ => true | _ => false end) eqn:Hc.
  - destruct c; try discriminate Hc. unfold run_step in Hr.
    apply res_bind_Ok in Hr as (d & Hd & Hr).
    apply Run_ApproveTaskGraph_Ok in Hd as
      (m & g & defs & deps & gr & evs' & [= <- -> <- <- <-] & Hv & Hvc & Hrev & Hst & Hk & Hb & -> & Hp & Hd).
    rewrite Hd in Hr. simpl in Hr. injection Hr as <- <-.
    exists Meta, (mkRunTransition (set_Run_State RunStateReady r) "TASK_GRAPH_APPROVED"
      (Some (artifactPayload "task_graph" taskGraph))), evs'.
    split_and!; try done; [by rewrite Hst|]. right. split_and!; eauto 10.
  - assert (Run_Apply r c = Ok (r', evs)) as Ha by (destruct c; done).
    apply Run_Apply_Ok in Ha as (m & tr & He & Hv & Ht & Hf).
    apply Run_validateCommand_Ok in Hv as (H1 & H2 & H3 & H4 & m' & He' & H5).
    simplify_eq. exists m, tr, []. rewrite app_nil_r. injection Hf as -> ->.
    split_and!; auto.
Qed.

Lemma run_ok_set_ready r :
  run_ok r -> Run_State r = RunStateTaskPlanReview -> run_ok (set_Run_State RunStateReady r).
Proof.
  unfold run_ok, run_trail. intros Hok Hs. rewrite Hs in Hok. simpl. destruct_and!.
  split_and!; done.
Qed.

Lemma run_step_ok r c r' evs : run_ok r -> run_step r c = Ok (r', evs) -> run_ok r'.
Proof.
  intros Hok (m & tr & rest & _ & _ & Hterm & _ & _ & _ & -> & _ & Hcase)%run_step_Ok.
  change (run_ok (run_next tr)).
  destruct Hcase as [[Ht _]|(Hs & _ & _ & ->)]; [by eapply transition_ok|].
  by apply run_ok_set_ready.
Qed.

Lemma run_steps_ok r cs r' : run_ok r -> run_steps r cs = Ok r' -> run_ok r'.
Proof.
  revert r. induction cs as [|c cs IH]; simpl; intros r Hok Hr; [by simplify_eq|].
  apply res_bind_Ok in Hr as ([r1 evs] & Ha & Hr). eauto using run_step_ok.
Qed.

Lemma NewRun_Ok c r evs :
  NewRun c = Ok (r, evs) ->
  run_ok r /\ Run_State r = RunStateDraft /\ Run_Revision r = 1 /\
  exists meta, c = CreateRun meta (Run_ID r) /\ validateRunCommand c = Ok tt /\
    ExpectedRevision meta = 0 /\
    run_actor_allowed c (Actor_Kind (Envelope_Actor meta)) = true /\
    evs = [newRunEvent r meta "RUN_CREATED" None].
Proof.
  unfold NewRun. destruct c; try discriminate. intros Hr. go_run Hr.
  rewrite ?andb_false_iff, !negb_false_iff, !bool_decide_eq_true in *. simplify_eq.
  split_and!; try done.
  eexists. split_and!; try done. simpl. rewrite orb_true_iff, !bool_decide_eq_true. done.
Qed.

End lemmas.

(** ** Human gates along a history *)

Definition by_human (c : RunCommand) : Prop :=
  exists m, RunCommand_Envelope c = Some m /\ Actor_Kind (Envelope_Actor m) = ActorHuman.

(** The history holds a human's approval of the specification, of the task
    graph and of the candidate with its review that the run carries. *)
Definition specification_approved (cs : list RunCommand) (r : Run) : Prop :=
  exists m i s, ApproveSpecification m i s ∈ cs /\ Specification r = Some s /\
    Actor_Kind (Envelope_Actor m) = ActorHuman.
Definition task_graph_approved (cs : list RunCommand) (r : Run) : Prop :=
  exists m i g ds dp, ApproveTaskGraph m i g ds dp ∈ cs /\ TaskGraph r = Some g /\
    Actor_Kind (Envelope_Actor m) = ActorHuman.
Definition candidate_approved (cs : list RunCommand) (r : Run) : Prop :=
  exists m i review approval,
    ApproveRun m i (Run_CandidateCommit r) review approval ∈ cs /\
    Run_Review r = Some review /\ Run_Approval r = Some approval /\
    Actor_Kind (Envelope_Actor m) = ActorHuman.

(** The states after each gate. *)
Definition after_specification (s : RunState) : bool :=
  match s with
  | RunStateTaskPlanning | RunStateTaskPlanReview | RunStateReady | RunStateExecuting
  | RunStateVerifying | RunStateReviewing | RunStateAwaitingApproval
  | RunStateMergeReady | RunStateMerged => true
  | _ => false
  end.
Definition after_task_graph (s : RunState) : bool :=
  match s with
  | RunStateReady | RunStateExecuting | RunStateVerifying | RunStateReviewing
  | RunStateAwaitingApproval | RunStateMergeReady | RunStateMerged => true
  | _ => false
  end.
Definition after_approval (s : RunState) : bool :=
  match s with RunStateMergeReady | RunStateMerged => true | _ => false end.

Definition gated (cs : list RunCommand) (r : Run) : Prop :=
  (after_specification (Run_State r) = true -> specification_approved cs r) /\
  (after_task_graph (Run_State r) = true -> task_graph_approved cs r) /\
  (after_approval (Run_State r) = true -> candidate_approved cs r).

Section gates.
Context `{Platform}.

Lemma specification_approved_mono cs c r r' :
  specification_approved cs r -> Specification r' = Specification r ->
  specification_approved (cs ++ [c]) r'.
Proof. intros (m & i & s & Hin & Hs & Hk) E. exists m, i, s. rewrite E. set_solver. Qed.

Lemma task_graph_approved_mono cs c r r' :
  task_graph_approved cs r -> TaskGraph r' = TaskGraph r ->
  task_graph_approved (cs ++ [c]) r'.
Proof. intros (m & i & g & ds & dp & Hin & Hs & Hk) E. exists m, i, g, ds, dp. rewrite E. set_solver. Qed.

Lemma candidate_approved_mono cs c r r' :
  candidate_approved cs r -> Run_CandidateCommit r' = Run_CandidateCommit r ->
  Run_Review r' = Run_Review r -> Run_Approval r' = Run_Approval r ->
  candidate_approved (cs ++ [c]) r'.
Proof.
  intros (m & i & v & a & Hin & Hs & Ha & Hk) E1 E2 E3. exists m, i, v, a.
  rewrite E1, E2, E3. set_solver.
Qed.

Lemma transition_gated cs c r tr :
  transition_of r c = Ok tr -> gated cs r -> gated (cs ++ [c]) (run_next tr).
Proof.
  intros Hr (H1 & H2 & H3).
  destruct c; run_cases Hr; unfold gated; simpl;
    repeat match goal with H : Run_State r = _ |- _ => rewrite H in * end;
    simpl in *; (split_and!; intros; try discriminate);
    try (eapply specification_approved_mono; [by auto|done]);
    try (eapply task_graph_approved_mono; [by auto|done]);
    try (eapply candidate_approved_mono; [by auto|done..]).
  - do 3 eexists. split_and!; [apply elem_of_app; right; by apply list_elem_of_singleton|done|done].
  - do 4 eexists. split_and!; [apply elem_of_app; right; by apply list_elem_of_singleton|done..].
Qed.

Lemma run_step_gated cs c r r' evs :
  run_step r c = Ok (r', evs) -> gated cs r -> gated (cs ++ [c]) r'.
Proof.
  intros (m & tr & rest & He & _ & _ & _ & _ & _ & -> & _ & Hcase)%run_step_Ok Hg.
  change (gated (cs ++ [c]) (run_next tr)).
  destruct Hcase as [[Ht _]|(Hs & Hk & (i & g & ds & dp & -> & Hb) & ->)].
  { by eapply transition_gated. }
  destruct Hg as (H1 & _ & _). rewrite Hs in H1. unfold gated. simpl.
  split_and!; intros; try done.
  - eapply specification_approved_mono; [by auto|done].
  - exists m, i, g, ds, dp. split_and!; [|done..].
    apply elem_of_app. right. by apply list_elem_of_singleton.
Qed.

Lemma run_steps_gated pre cs r r' :
  run_steps r cs = Ok r' -> gated pre r -> gated (pre ++ cs) r'.
Proof.
  revert pre r. induction cs as [|c cs IH]; simpl; intros pre r Hr Hg.
  { simplify_eq. by rewrite app_nil_r. }
  apply res_bind_Ok in Hr as ([r1 evs] & Ha & Hr).
  rewrite (cons_middle c pre cs), app_assoc. eapply IH; [done|]. by eapply run_step_gated.
Qed.

(** Once approved, a candidate stays as it was approved. *)
Lemma run_step_approved_stable r c r' evs a :
  Run_Approval r = Some a -> run_ok r -> run_step r c = Ok (r', evs) ->
  Run_Approval r' = Some a /\ Run_CandidateCommit r' = Run_CandidateCommit r /\
  Run_Review r' = Run_Review r /\ Run_Verification r' = Run_Verification r /\
  Run_Execution r' = Run_Execution r /\
  (forall p, Publication r = Some p -> Publication r' = Some p).
Proof.
  intros Ha Hok (m & tr & rest & He & _ & _ & _ & _ & _ & -> & _ & Hcase)%run_step_Ok.
  simpl. destruct Hcase as [[Ht _]|(Hs & Hk & _ & ->)]; [|done].
  unfold run_ok, run_trail in Hok.
  destruct c; run_cases Ht; simpl; try done;
    repeat match goal with H : Run_State r = _ |- _ => rewrite H in Hok end;
    destruct_and!; congruence.
Qed.

End gates.

(** ** The properties *)

Section properties.
Context `{Platform}.

(** C35: no run reaches [MERGE_READY] or [MERGED] without three human decisions
    in its history, each on the very artifact the run carries: the approval of
    its specification, the approval of its task graph, and the approval of its
    candidate commit together with its review; and the run then carries the
    execution, the verification and that approval. *)
Theorem merge_requires_human_gates (c0 : RunCommand) (cs : list RunCommand) (r0 r : Run)
    (evs : list Event) :
  NewRun c0 = Ok (r0, evs) -> run_steps r0 cs = Ok r -> after_approval (Run_State r) = true ->
  specification_approved cs r /\ task_graph_approved cs r /\ candidate_approved cs r /\
  is_Some (Run_Execution r) /\ is_Some (Run_Verification r) /\
  commitPattern (Run_CandidateCommit r) = true.
Proof.
  intros (Hok & Hs & _)%NewRun_Ok Hr Ha.
  assert (gated [] r0) as Hg by (unfold gated; rewrite Hs; done).
  destruct (run_steps_gated _ _ _ _ Hr Hg) as (H1 & H2 & H3). simpl in *.
  pose proof (run_steps_ok _ _ _ Hok Hr) as Hokr. unfold run_ok, run_trail in Hokr.
  destruct (Run_State r); try discriminate Ha; destruct_and!; split_and!; auto.
Qed.

(** every step of a run refines the documented table: the successor is one
    the table lists, the actor is one the command accepts, the run named is
    this run, the revision the caller expected is the current one and grows by
    one, the creation time stays, the update time is the command's in UTC, and
    the first event records the step. *)
Theorem run_step_refines_table (r r' : Run) (c : RunCommand) (evs : list Event) :
  run_step r c = Ok (r', evs) ->
  exists meta ev rest, RunCommand_Envelope c = Some meta /\ evs = ev :: rest /\
    run_edge (Run_State r) (Run_State r') = true /\
    run_actor_allowed c (Actor_Kind (Envelope_Actor meta)) = true /\
    RunCommand_RunID c = Run_ID r /\ Run_ID r' = Run_ID r /\
    ExpectedRevision meta = Run_Revision r /\ Run_Revision r' = u64 (Run_Revision r + 1) /\
    Run_CreatedAt r' = Run_CreatedAt r /\ Run_UpdatedAt r' = UTC (Timestamp meta) /\
    Event_ID ev = CommandID meta /\ AggregateType ev = "RUN" /\ AggregateID ev = Run_ID r /\
    Event_Revision ev = Run_Revision r' /\ Event_Actor ev = Envelope_Actor meta /\
    (rest <> [] -> Run_State r = RunStateTaskPlanReview /\ Run_State r' = RunStateReady).
Proof.
  intros (m & tr & rest & He & Hrev & Hterm & Hid & _ & _ & -> & -> & Hcase)%run_step_Ok.
  exists m. simpl. eexists _, rest. split; [done|]. split; [reflexivity|]. simpl.
  destruct Hcase as [[Ht ->]|(Hs & Hk & (i & g & ds & dp & -> & Hb) & ->)].
  - pose proof (transition_frame _ _ _ Ht) as (-> & -> & ->). split_and!; try done.
    + by eapply transition_edge.
    + by eapply transition_actor.
  - simpl. rewrite Hs. split_and!; try done. by rewrite Hk.
Qed.

(** what a run must carry in its state is established by [NewRun] and kept
    by every step: the execution with its commit from VERIFYING on, the
    verification, the review and the approval one state later each, the merge
    exactly in MERGED, and nothing of them earlier. *)
Theorem run_invariant (c0 : RunCommand) (cs : list RunCommand) (r0 r : Run) (evs : list Event) :
  NewRun c0 = Ok (r0, evs) -> run_steps r0 cs = Ok r -> run_ok r.
Proof. intros (Hok & _)%NewRun_Ok. by apply run_steps_ok. Qed.

(** models and Python have no authority: a command whose actor is one of
    these kinds changes neither a run nor a task. *)
Theorem models_have_no_authority (r : Run) (rc : RunCommand) (t : Task) (tc : TaskCommand)
    (meta : CommandEnvelope) :
  Actor_Kind (Envelope_Actor meta) = ActorPython \/ Actor_Kind (Envelope_Actor meta) = ActorModel ->
  (RunCommand_Envelope rc = Some meta ->
     is_Ok (NewRun rc) = false /\ is_Ok (run_step r rc) = false) /\
  (TaskCommand_Envelope tc = Some meta -> is_Ok (Task_Apply t tc) = false).
Proof.
  intros Hk. split; [intros He; split|intros He].
  - destruct (NewRun rc) as [[r0 evs]|] eqn:E; [|done]. exfalso.
    apply NewRun_Ok in E as (_ & _ & _ & m & -> & _ & _ & Ha & _).
    injection He as ->. simpl in Ha. destruct Hk as [Hk | Hk]; by rewrite Hk in Ha.
  - destruct (run_step r rc) as [[r0 evs]|] eqn:E; [|done]. exfalso.
    apply run_step_Ok in E as (m & tr & rest & He' & _ & _ & _ & _ & _ & _ & _ & Hcase).
    simplify_eq. destruct Hcase as [[Ht _]|(_ & Hk' & _)].
    + pose proof (transition_actor _ _ _ _ He Ht) as Ha.
      destruct Hk as [Hk | Hk]; rewrite Hk in Ha; by destruct rc.
    + rewrite Hk' in Hk. by destruct Hk.
  - destruct (Task_Apply t tc) as [[t' evs]|] eqn:E; [|done]. exfalso.
    apply Task_Apply_Ok in E as (m & tr & He' & _ & Ha & _). simplify_eq.
    pose proof (applyCommand_actor _ _ _ _ He Ha) as Hact.
    destruct Hk as [Hk | Hk]; rewrite Hk in Hact; by destruct tc.
Qed.

(** what was approved is what is published and merged: after the approval
    no step changes the candidate commit, the execution, the verification, the
    review or the approval, and a recorded publication is never replaced. *)
Theorem approved_candidate_stable (r r' : Run) (cs : list RunCommand) (a : ArtifactRef) :
  run_ok r -> Run_Approval r = Some a -> run_steps r cs = Ok r' ->
  Run_Approval r' = Some a /\ Run_CandidateCommit r' = Run_CandidateCommit r /\
  Run_Review r' = Run_Review r /\ Run_Verification r' = Run_Verification r /\
  Run_Execution r' = Run_Execution r /\
  (forall p, Publication r = Some p -> Publication r' = Some p).
Proof.
  revert r. induction cs as [|c cs IH]; simpl; intros r Hok Ha Hr.
  { simplify_eq. done. }
  apply res_bind_Ok in Hr as ([r1 evs] & Hs & Hr).
  destruct (run_step_approved_stable _ _ _ _ _ Ha Hok Hs) as (H1 & H2 & H3 & H4 & H5 & H6).
  destruct (IH r1 (run_step_ok _ _ _ _ Hok Hs) H1 Hr) as (K1 & K2 & K3 & K4 & K5 & K6).
  split_and!; [done|congruence..|]. auto.
Qed.

End properties.

(** ** Witnesses *)

Lemma merge_requires_human_gates_witness :
  Run_State approved_run = RunStateMergeReady /\
  candidate_approved (plan_commands ++ completion_commands) approved_run.
Proof.
  split; [vm_compute; reflexivity|].
  refine (proj1 (proj2 (proj2 (merge_requires_human_gates create_run
    (plan_commands ++ completion_commands) sample_run approved_run
    [newRunEvent sample_run (meta "r1" ActorHuman 0 1) "RUN_CREATED" None] _ _ _))));
    vm_compute; reflexivity.
Defined.

Lemma run_step_refines_table_witness :
  exists ev rest, run_step approved_run (RecordMerge (meta "r12" ActorMergeService 10 12) "run-1"
      hex40 (art "app") (art "merge")) =
      Ok (fst (result (sample_run, []) (run_step approved_run
        (RecordMerge (meta "r12" ActorMergeService 10 12) "run-1" hex40 (art "app") (art "merge")))),
        ev :: rest).
Proof.
  destruct (run_step approved_run (RecordMerge (meta "r12" ActorMergeService 10 12) "run-1"
    hex40 (art "app") (art "merge"))) as [[r' evs]|e] eqn:E; [|vm_compute in E; discriminate E].
  destruct (run_step_refines_table _ _ _ _ E) as (m & ev & rest & _ & -> & _).
  exists ev, rest. reflexivity.
Defined.

Lemma run_invariant_witness :
  Run_State merged_run = RunStateMerged /\ run_ok merged_run.
Proof.
  split; [vm_compute; reflexivity|].
  refine (run_invariant create_run ((plan_commands ++ completion_commands) ++ publish_commands)
    sample_run merged_run
    [newRunEvent sample_run (meta "r1" ActorHuman 0 1) "RUN_CREATED" None] _ _);
    vm_compute; reflexivity.
Defined.

Lemma models_have_no_authority_witness :
  is_Ok (run_step sample_run python_start) = false.
Proof.
  refine (proj2 (proj1 (models_have_no_authority sample_run python_start ready_task
    NilTaskCommand (meta "r6" ActorPython 5 6) (or_introl _)) _)); reflexivity.
Defined.

Lemma approved_run_ok : run_ok approved_run.
Proof. vm_compute. repeat split; eauto. Qed.

Lemma approved_candidate_stable_witness :
  Run_CandidateCommit merged_run = Run_CandidateCommit approved_run /\ run_ok approved_run.
Proof.
  split; [|exact approved_run_ok].
  refine (proj1 (proj2 (approved_candidate_stable approved_run merged_run publish_commands
    (art "app") approved_run_ok _ _))); vm_compute; reflexivity.
Defined.
