(* ===== verification/WfDigest.v ===== *)
(** * The digest that identifies the content of a command

    Models [commandDigest], [taskCommandDigest] and [typedCommandDigest] of
    [go/internal/workflow/store.go]: the SHA-256 of the Go type name of the
    command, a NUL byte and the JSON text of the command.  A list field that
    is empty is taken as the nil slice. *)

From S2P Require Import Prelude GoStd GoJson WfTypes WfTask WfPlan WfRun.

(** ** JSON trees of the commands, by the field tags of the structs *)

Definition ActorKind_string (k : ActorKind) : string :=
  match k with
  | ActorHuman => "HUMAN"
  | ActorWorkflowService => "WORKFLOW_SERVICE"
  | ActorReasoningService => "REASONING_SERVICE"
  | ActorExecutionService => "EXECUTION_SERVICE"
  | ActorVerificationService => "VERIFICATION_SERVICE"
  | ActorReviewService => "REVIEW_SERVICE"
  | ActorPublicationService => "PUBLICATION_SERVICE"
  | ActorMergeService => "MERGE_SERVICE"
  | ActorPython => "PYTHON"
  | ActorModel => "MODEL"
  | ActorOther s => s
  end.

Definition actor_json (a : Actor) : json :=
  JObj [("id", JStr (Actor_ID a)); ("kind", JStr (ActorKind_string (Actor_Kind a)))].

Definition artifact_json (a : ArtifactRef) : json :=
  JObj [("uri", JStr (URI a)); ("digest", JStr (Digest a))].

Definition time_json (t : time) : res json := s ← time_text t; Ok (JStr s).

Definition envelope_json (e : CommandEnvelope) : res json :=
  timestamp ← time_json (Timestamp e);
  Ok (JObj [("command_id", JStr (CommandID e)); ("actor", actor_json (Envelope_Actor e));
            ("expected_revision", JNum (ExpectedRevision e)); ("timestamp", timestamp);
            ("correlation_id", JStr (CorrelationID e)); ("causation_id", JStr (CausationID e))]).

Definition lease_json (l : LeaseRef) : res json :=
  expires ← time_json (ExpiresAt l);
  Ok (JObj [("id", JStr (Lease_ID l)); ("owner_id", JStr (OwnerID l));
            ("expires_at", expires); ("fencing_token", JNum (FencingToken l))]).

Definition slice_json {A} (f : A -> json) (l : list A) : json :=
  match l with [] => JNull | _ => JArr (map f l) end.

Definition definition_json (d : TaskDefinition) : json :=
  JObj [("task_id", JStr (Definition_ID d)); ("max_attempts", JNum (Definition_MaxAttempts d))].

Definition dependency_json (d : TaskDependency) : json :=
  JObj [("task_id", JStr (TaskID d)); ("depends_on_id", JStr (DependsOnID d))].

(** The fields of a run command after [meta] and [run_id]. *)
Definition run_command_fields (c : RunCommand) : list (string * json) :=
  match c with
  | CreateRun _ _ | StartRun _ _ | NilRunCommand => []
  | ProposeSpecification _ _ s | ApproveSpecification _ _ s => [("specification", artifact_json s)]
  | RejectSpecification _ _ s reason terminal =>
      [("specification", artifact_json s); ("reason", JStr reason); ("terminal", JBool terminal)]
  | ProposeTaskGraph _ _ g => [("task_graph", artifact_json g)]
  | RejectTaskGraph _ _ g reason terminal =>
      [("task_graph", artifact_json g); ("reason", JStr reason); ("terminal", JBool terminal)]
  | ApproveTaskGraph _ _ g ts ds =>
      [("task_graph", artifact_json g); ("tasks", slice_json definition_json ts);
       ("dependencies", slice_json dependency_json ds)]
  | RecordRunExecution _ _ e c =>
      [("execution", artifact_json e); ("candidate_commit", JStr c)]
  | RecordRunVerification _ _ c e =>
      [("candidate_commit", JStr c); ("evidence", artifact_json e)]
  | RecordRunReview _ _ c r => [("candidate_commit", JStr c); ("review", artifact_json r)]
  | ApproveRun _ _ c r a =>
      [("candidate_commit", JStr c); ("review", artifact_json r); ("approval", artifact_json a)]
  | RejectRun _ _ c r reason =>
      [("candidate_commit", JStr c); ("review", artifact_json r); ("reason", JStr reason)]
  | RecordDraftPullRequest _ _ c a p =>
      [("candidate_commit", JStr c); ("approval", artifact_json a);
       ("publication", artifact_json p)]
  | RecordMerge _ _ c a m =>
      [("candidate_commit", JStr c); ("approval", artifact_json a); ("merge", artifact_json m)]
  | FailRun _ _ e reason => [("evidence", artifact_json e); ("reason", JStr reason)]
  | CancelRun _ _ reason => [("reason", JStr reason)]
  end.

(** The fields of a task command after [meta], [run_id] and [task_id]. *)
Definition task_command_fields (c : TaskCommand) : res (list (string * json)) :=
  match c with
  | LeaseTask _ _ _ l | ReleaseTaskLease _ _ _ l | StartReasoning _ _ _ l =>
      lease ← lease_json l; Ok [("lease", lease)]
  | RejectTaskProposal _ _ _ p reason =>
      Ok [("proposal", artifact_json p); ("reason", JStr reason)]
  | AcceptTaskProposal _ _ _ p l =>
      lease ← lease_json l; Ok [("proposal", artifact_json p); ("lease", lease)]
  | RecordTaskExecution _ _ _ p e c l =>
      lease ← lease_json l;
      Ok [("proposal", artifact_json p); ("execution", artifact_json e);
          ("candidate_commit", JStr c); ("lease", lease)]
  | RecordTaskVerification _ _ _ c e passed =>
      Ok [("candidate_commit", JStr c); ("evidence", artifact_json e); ("passed", JBool passed)]
  | RecordTaskReview _ _ _ c r passed =>
      Ok [("candidate_commit", JStr c); ("review", artifact_json r); ("passed", JBool passed)]
  | ApproveTask _ _ _ c r a =>
      Ok [("candidate_commit", JStr c); ("review", artifact_json r); ("approval", artifact_json a)]
  | RequireTaskRework _ _ _ c r reason =>
      Ok [("candidate_commit", JStr c); ("review", artifact_json r); ("reason", JStr reason)]
  | RetryTask _ _ _ | NilTaskCommand => Ok []
  | FailTask _ _ _ e reason => Ok [("evidence", artifact_json e); ("reason", JStr reason)]
  | CancelTask _ _ _ reason => Ok [("reason", JStr reason)]
  end.

(** The Go type name that [%T] prints. *)
Definition run_command_type (c : RunCommand) : string :=
  match c with
  | CreateRun _ _ => "workflow.CreateRun"
  | ProposeSpecification _ _ _ => "workflow.ProposeSpecification"
  | RejectSpecification _ _ _ _ _ => "workflow.RejectSpecification"
  | ApproveSpecification _ _ _ => "workflow.ApproveSpecification"
  | ProposeTaskGraph _ _ _ => "workflow.ProposeTaskGraph"
  | RejectTaskGraph _ _ _ _ _ => "workflow.RejectTaskGraph"
  | ApproveTaskGraph _ _ _ _ _ => "workflow.ApproveTaskGraph"
  | StartRun _ _ => "workflow.StartRun"
  | RecordRunExecution _ _ _ _ => "workflow.RecordRunExecution"
  | RecordRunVerification _ _ _ _ => "workflow.RecordRunVerification"
  | RecordRunReview _ _ _ _ => "workflow.RecordRunReview"
  | ApproveRun _ _ _ _ _ => "workflow.ApproveRun"
  | RejectRun _ _ _ _ _ => "workflow.RejectRun"
  | RecordDraftPullRequest _ _ _ _ _ => "workflow.RecordDraftPullRequest"
  | RecordMerge _ _ _ _ _ => "workflow.RecordMerge"
  | FailRun _ _ _ _ => "workflow.FailRun"
  | CancelRun _ _ _ => "workflow.CancelRun"
  | NilRunCommand => "<nil>"
  end.

Definition task_command_type (c : TaskCommand) : string :=
  match c with
  | LeaseTask _ _ _ _ => "workflow.LeaseTask"
  | ReleaseTaskLease _ _ _ _ => "workflow.ReleaseTaskLease"
  | StartReasoning _ _ _ _ => "workflow.StartReasoning"
  | RejectTaskProposal _ _ _ _ _ => "workflow.RejectTaskProposal"
  | AcceptTaskProposal _ _ _ _ _ => "workflow.AcceptTaskProposal"
  | RecordTaskExecution _ _ _ _ _ _ _ => "workflow.RecordTaskExecution"
  | RecordTaskVerification _ _ _ _ _ _ => "workflow.RecordTaskVerification"
  | RecordTaskReview _ _ _ _ _ _ => "workflow.RecordTaskReview"
  | ApproveTask _ _ _ _ _ _ => "workflow.ApproveTask"
  | RequireTaskRework _ _ _ _ _ _ => "workflow.RequireTaskRework"
  | RetryTask _ _ _ => "workflow.RetryTask"
  | FailTask _ _ _ _ _ => "workflow.FailTask"
  | CancelTask _ _ _ _ => "workflow.CancelTask"
  | NilTaskCommand => "<nil>"
  end.

Definition run_command_json (c : RunCommand) : res json :=
  match RunCommand_Envelope c with
  | None => Ok JNull
  | Some meta =>
      m ← envelope_json meta;
      Ok (JObj (("meta", m) :: ("run_id", JStr (RunCommand_RunID c)) :: run_command_fields c))
  end.

Definition task_command_json (c : TaskCommand) : res json :=
  match TaskCommand_Envelope c with
  | None => Ok JNull
  | Some meta =>
      m ← envelope_json meta;
      fields ← task_command_fields c;
      Ok (JObj (("meta", m) :: ("run_id", JStr (TaskCommand_RunID c)) ::
                ("task_id", JStr (TaskCommand_TaskID c)) :: fields))
  end.

(** ** The digest *)

(** What is hashed. *)
Definition typed_request (type_name request : string) : string :=
  type_name +:+ String (byte 0) request.

Definition typedCommandDigest `{Platform} (type_name : string) (tree : res json) (label : string)
    : res string :=
  request ← map_err (fun e => ErrWrap e ("marshal " +:+ label)) tree;
  Ok (sha256_hex (typed_request type_name (json_text request))).

Definition commandDigest `{Platform} (c : RunCommand) : res string :=
  typedCommandDigest (run_command_type c) (run_command_json c) "command".

Definition taskCommandDigest `{Platform} (c : TaskCommand) : res string :=
  typedCommandDigest (task_command_type c) (task_command_json c) "task command".

(** ** Lemmas *)

Lemma commandDigest_shape `{PlatformLaws} c d : commandDigest c = Ok d -> digestPattern d = true.
Proof.
  unfold commandDigest, typedCommandDigest. intros (r & _ & [= <-])%res_bind_Ok.
  apply sha256_hex_shape.
Qed.

Lemma taskCommandDigest_shape `{PlatformLaws} c d :
  taskCommandDigest c = Ok d -> digestPattern d = true.
Proof.
  unfold taskCommandDigest, typedCommandDigest. intros (r & _ & [= <-])%res_bind_Ok.
  apply sha256_hex_shape.
Qed.

Definition no_nul (s : string) : Prop :=
  string_forallb (fun d => negb (bool_decide (d = byte 0))) s = true.

Lemma run_command_type_no_nul c : no_nul (run_command_type c).
Proof. destruct c; reflexivity. Qed.

Lemma task_command_type_no_nul c : no_nul (task_command_type c).
Proof. destruct c; reflexivity. Qed.

Lemma typed_request_inj n n' r r' :
  no_nul n -> no_nul n' -> typed_request n r = typed_request n' r' -> n = n' /\ r = r'.
Proof. apply cut_unique. Qed.
