(* ===== verification/WfDb.v ===== *)
(** * The workflow tables

    The PostgreSQL tables of [go/internal/workflow/migrations] as finite maps
    of rows, with the constraints the migrations declare, and the functions of
    [go/internal/workflow/store.go] that turn snapshots into rows and rows
    into snapshots.  A row is addressed by the canonical text of its UUID;
    instants are microseconds from the Unix epoch, as in [timestamptz];
    [jsonb] columns are trees.  The columns [completed_at] and the value of
    the identity [sequence] (the order of the event list stands for it) are
    left out: nothing reads them. *)

From S2P Require Import Prelude GoStd GoJson WfTypes WfTask WfPlan WfRun.

(** ** Rows *)

Record run_row := mkRunRow {
  rr_state : RunState;
  rr_revision : Z;
  rr_specification_uri : option string;
  rr_specification_digest : option string;
  rr_task_graph_uri : option string;
  rr_task_graph_digest : option string;
  rr_lifecycle : json;
  rr_created : Z;
  rr_updated : Z;
}.

(** The nullable columns of a task. *)
Record taskRowBindings := mkTaskRowBindings {
  leaseID : option string;
  leaseOwner : option string;
  leaseExpiry : option Z;
  leaseFence : option Z;
  proposalURI : option string;
  proposalDigest : option string;
  executionURI : option string;
  executionDigest : option string;
  candidateCommit : option string;
  verificationURI : option string;
  verificationDigest : option string;
  reviewURI : option string;
  reviewDigest : option string;
  approvalURI : option string;
  approvalDigest : option string;
}.

Record task_row := mkTaskRow {
  tr_run : string;
  tr_state : TaskState;
  tr_revision : Z;
  tr_max_attempts : Z;
  tr_current_attempt : Z;
  tr_bindings : taskRowBindings;
  tr_created : Z;
  tr_updated : Z;
}.

Record command_row := mkCommandRow {
  cr_aggregate_type : string;
  cr_aggregate_id : string;
  cr_request_digest : string;
  cr_actor_id : string;
  cr_actor_kind : ActorKind;
  cr_expected_revision : Z;
  cr_correlation_id : string;
  cr_causation_id : string;
  cr_requested : Z;
  cr_result : option json;
}.

Record event_row := mkEventRow {
  er_event_id : string;
  er_command_id : string;
  er_aggregate_type : string;
  er_aggregate_id : string;
  er_revision : Z;
  er_event_type : string;
  er_occurred : Z;
  er_actor_id : string;
  er_actor_kind : ActorKind;
  er_correlation_id : string;
  er_causation_id : string;
  er_payload : json;
}.

(** A row of [workflow_task_dependencies]: run, task, prerequisite. *)
Definition dep_row : Type := string * string * string.

Record db := mkDb {
  runs : gmap string run_row;
  tasks : gmap string task_row;
  deps : gset dep_row;
  commands : gmap string command_row;
  events : list event_row;
}.

Definition set_runs (v : gmap string run_row) (s : db) : db :=
  mkDb v (tasks s) (deps s) (commands s) (events s).
Definition set_tasks (v : gmap string task_row) (s : db) : db :=
  mkDb (runs s) v (deps s) (commands s) (events s).
Definition set_deps (v : gset dep_row) (s : db) : db :=
  mkDb (runs s) (tasks s) v (commands s) (events s).
Definition set_commands (v : gmap string command_row) (s : db) : db :=
  mkDb (runs s) (tasks s) (deps s) v (events s).
Definition set_events (v : list event_row) (s : db) : db :=
  mkDb (runs s) (tasks s) (deps s) (commands s) v.

Definition empty_db : db := mkDb ∅ ∅ ∅ ∅ [].

(** SQLSTATE of a failed constraint. *)
Definition check_violation : error := ErrPg "23514".
Definition unique_violation : error := ErrPg "23505".
Definition foreign_key_violation : error := ErrPg "23503".

(** [fmt.Errorf("label: %w", err)] *)
Definition wrapped {S A} (label : string) (m : tx S A) : tx S A := fun s =>
  match m s with Ok x => Ok x | Err e => Err (ErrWrap e label) end.

(** ** Column types *)

Section columns.
Context `{Platform}.

Definition uuid_param (s : string) : res string :=
  match uuid_column s with Some k => Ok k | None => Err (ErrText "cannot encode uuid") end.

Definition bigint_param (z : Z) : res Z :=
  if z <=? max_i64 then Ok z else Err (ErrText "cannot encode bigint").

Definition int_param (z : Z) : res Z :=
  if z <=? max_i32 then Ok z else Err (ErrText "cannot encode int4").

Definition time_column (t : time) : Z := UnixMicro t.

(** [timestamptz] is scanned as an instant in the local zone. *)
Definition scan_time (us : Z) : time :=
  let i := unix_epoch + us * 1000 in mkTime i (local_zone i).

Definition nullable {A B} (f : A -> res B) (v : option A) : res (option B) :=
  match v with None => Ok None | Some a => b ← f a; Ok (Some b) end.

(** The two columns of an artifact reference. *)
Definition uri_of (a : option ArtifactRef) : option string := URI <$> a.
Definition digest_of (a : option ArtifactRef) : option string := Digest <$> a.

(** ** Constraints *)

Definition is_null {A} (v : option A) : bool := match v with None => true | Some _ => false end.

Definition both_or_neither {A B} (a : option A) (b : option B) : bool :=
  Bool.eqb (is_null a) (is_null b).

Definition null_or {A} (p : A -> bool) (v : option A) : bool :=
  match v with None => true | Some a => p a end.

(** [lifecycle_bindings->>'candidate_commit'] *)
Definition json_text_field (key : string) (v : json) : option string :=
  match v with
  | JObj fields => match json_field key fields with Some (JStr s) => Some s | _ => None end
  | _ => None
  end.

Definition check_run_row (r : run_row) : bool :=
  (0 <? rr_revision r) && is_Ok (RunState_Validate (rr_state r)) &&
  both_or_neither (rr_specification_uri r) (rr_specification_digest r) &&
  null_or digestPattern (rr_specification_digest r) &&
  both_or_neither (rr_task_graph_uri r) (rr_task_graph_digest r) &&
  null_or digestPattern (rr_task_graph_digest r) &&
  null_or commitPattern (json_text_field "candidate_commit" (rr_lifecycle r)).

Definition check_task_row (r : task_row) : bool :=
  let b := tr_bindings r in
  (0 <? tr_revision r) && (0 <? tr_max_attempts r) &&
  (0 <=? tr_current_attempt r) && (tr_current_attempt r <=? tr_max_attempts r) &&
  is_Ok (TaskState_Validate (tr_state r)) &&
  both_or_neither (leaseID b) (leaseOwner b) && both_or_neither (leaseID b) (leaseExpiry b) &&
  both_or_neither (leaseID b) (leaseFence b) && null_or (fun z => 0 <? z) (leaseFence b) &&
  both_or_neither (proposalURI b) (proposalDigest b) &&
  both_or_neither (executionURI b) (executionDigest b) &&
  both_or_neither (verificationURI b) (verificationDigest b) &&
  both_or_neither (reviewURI b) (reviewDigest b) &&
  both_or_neither (approvalURI b) (approvalDigest b) &&
  null_or commitPattern (candidateCommit b).

Definition actor_kind_closed (k : ActorKind) : bool :=
  match k with ActorOther _ => false | _ => true end.

(** ** The lifecycle column *)

Definition artifact_tree (a : ArtifactRef) : json :=
  JObj [("uri", JStr (URI a)); ("digest", JStr (Digest a))].

(** A field tagged [omitempty]. *)
Definition omitempty (key : string) (a : option ArtifactRef) : list (string * json) :=
  match a with Some v => [(key, artifact_tree v)] | None => [] end.

Definition encodeRunLifecycle (run : Run) : json :=
  JObj (omitempty "execution" (Run_Execution run) ++
        (if Run_CandidateCommit run != ""
         then [("candidate_commit", JStr (Run_CandidateCommit run))] else []) ++
        omitempty "verification" (Run_Verification run) ++
        omitempty "review" (Run_Review run) ++ omitempty "approval" (Run_Approval run) ++
        omitempty "publication" (Publication run) ++ omitempty "merge" (Merge run)).

Definition json_error : error := ErrText "json: cannot unmarshal".

(** Decoding into a string field: absent and null leave the zero value. *)
Definition decode_string (v : option json) : res string :=
  match v with
  | None | Some JNull => Ok ""
  | Some (JStr s) => Ok s
  | Some _ => Err json_error
  end.

Definition decode_artifact (v : option json) : res (option ArtifactRef) :=
  match v with
  | None | Some JNull => Ok None
  | Some (JObj fields) =>
      uri ← decode_string (json_field "uri" fields);
      digest ← decode_string (json_field "digest" fields);
      Ok (Some (mkArtifactRef uri digest))
  | Some _ => Err json_error
  end.

Definition decodeRunLifecycle (encoded : json) (run : Run) : res Run :=
  map_err (fun e => ErrWrap e "decode run lifecycle") (
    match encoded with
    | JObj fields =>
        execution ← decode_artifact (json_field "execution" fields);
        candidate ← decode_string (json_field "candidate_commit" fields);
        verification ← decode_artifact (json_field "verification" fields);
        review ← decode_artifact (json_field "review" fields);
        approval ← decode_artifact (json_field "approval" fields);
        publication ← decode_artifact (json_field "publication" fields);
        merge ← decode_artifact (json_field "merge" fields);
        Ok (mkRun (Run_ID run) (Run_State run) (Run_Revision run) (Specification run)
              (TaskGraph run) execution candidate verification review approval publication
              merge (Run_CreatedAt run) (Run_UpdatedAt run))
    | JNull => Ok run
    | _ => Err json_error
    end).

(** ** Rows from snapshots and back *)

Definition optionalArtifact (uri digest : option string) : res (option ArtifactRef) :=
  match uri, digest with
  | None, None => Ok None
  | Some u, Some d => Ok (Some (mkArtifactRef u d))
  | _, _ => Err (invalid "partial artifact binding")
  end.

(** The binding of a run column, with the message of its own. *)
Definition run_artifact (label : string) (uri digest : option string) : res (option ArtifactRef) :=
  match uri, digest with
  | None, None => Ok None
  | Some u, Some d => Ok (Some (mkArtifactRef u d))
  | _, _ => Err (invalid label)
  end.

Definition row_of_run (run : Run) : res run_row :=
  revision ← bigint_param (Run_Revision run);
  uri ← nullable text_column (uri_of (Specification run));
  digest ← nullable text_column (digest_of (Specification run));
  graphURI ← nullable text_column (uri_of (TaskGraph run));
  graphDigest ← nullable text_column (digest_of (TaskGraph run));
  lifecycle ← jsonb_column (encodeRunLifecycle run);
  Ok (mkRunRow (Run_State run) revision uri digest graphURI graphDigest lifecycle
        (time_column (Run_CreatedAt run)) (time_column (Run_UpdatedAt run))).

Definition run_of_row (id : string) (r : run_row) : res Run :=
  specification ← run_artifact "partial specification binding"
    (rr_specification_uri r) (rr_specification_digest r);
  taskGraph ← run_artifact "partial task graph binding"
    (rr_task_graph_uri r) (rr_task_graph_digest r);
  run ← decodeRunLifecycle (rr_lifecycle r)
    (mkRun id (rr_state r) (rr_revision r) specification taskGraph None "" None None None None
       None (scan_time (rr_created r)) (scan_time (rr_updated r)));
  Run_Validate run ;;
  Ok run.

Definition applyLease (b : taskRowBindings) : res (option LeaseRef) :=
  match leaseID b, leaseOwner b, leaseExpiry b, leaseFence b with
  | None, None, None, None => Ok None
  | Some id, Some owner, Some expiry, Some fence =>
      if (fence <? 1) || (max_u32 <? fence) then Err (invalid "partial lease")
      else Ok (Some (mkLease id owner (scan_time expiry) fence))
  | _, _, _, _ => Err (invalid "partial lease")
  end.

Definition taskBindingValues (task : Task) : res taskRowBindings :=
  lease_id ← nullable uuid_param (Lease_ID <$> Lease task);
  owner ← nullable uuid_param (OwnerID <$> Lease task);
  proposal_uri ← nullable text_column (uri_of (Proposal task));
  proposal_digest ← nullable text_column (digest_of (Proposal task));
  execution_uri ← nullable text_column (uri_of (Execution task));
  execution_digest ← nullable text_column (digest_of (Execution task));
  candidate ← nullable text_column
    (if CandidateCommit task != "" then Some (CandidateCommit task) else None);
  verification_uri ← nullable text_column (uri_of (Verification task));
  verification_digest ← nullable text_column (digest_of (Verification task));
  review_uri ← nullable text_column (uri_of (Review task));
  review_digest ← nullable text_column (digest_of (Review task));
  approval_uri ← nullable text_column (uri_of (Approval task));
  approval_digest ← nullable text_column (digest_of (Approval task));
  Ok (mkTaskRowBindings lease_id owner (time_column ∘ ExpiresAt <$> Lease task)
        (FencingToken <$> Lease task) proposal_uri proposal_digest execution_uri
        execution_digest candidate verification_uri verification_digest review_uri
        review_digest approval_uri approval_digest).

Definition bindings_apply (b : taskRowBindings) (task : Task) : res Task :=
  lease ← applyLease b;
  proposal ← optionalArtifact (proposalURI b) (proposalDigest b);
  execution ← optionalArtifact (executionURI b) (executionDigest b);
  verification ← optionalArtifact (verificationURI b) (verificationDigest b);
  review ← optionalArtifact (reviewURI b) (reviewDigest b);
  approval ← optionalArtifact (approvalURI b) (approvalDigest b);
  Ok (mkTask (Task_ID task) (Task_RunID task) (Task_State task) (Task_Revision task)
        (MaxAttempts task) (CurrentAttempt task) lease proposal execution
        (default (CandidateCommit task) (candidateCommit b)) verification review approval
        (Task_CreatedAt task) (Task_UpdatedAt task)).

Definition row_of_task (task : Task) : res task_row :=
  run ← uuid_param (Task_RunID task);
  revision ← bigint_param (Task_Revision task);
  max_attempts ← int_param (MaxAttempts task);
  current ← int_param (CurrentAttempt task);
  bindings ← taskBindingValues task;
  Ok (mkTaskRow run (Task_State task) revision max_attempts current bindings
        (time_column (Task_CreatedAt task)) (time_column (Task_UpdatedAt task))).

Definition task_of_row (id : string) (r : task_row) : res Task :=
  task ← bindings_apply (tr_bindings r)
    (mkTask id (tr_run r) (tr_state r) (tr_revision r) (tr_max_attempts r)
       (tr_current_attempt r) None None None "" None None None
       (scan_time (tr_created r)) (scan_time (tr_updated r)));
  Task_Validate task ;;
  Ok task.

End columns.
