(* ===== verification/WfStore.v ===== *)
(** * The workflow store and its queries *)

From S2P Require Import Prelude GoStd GoJson PgRetry WfTypes WfTask WfPlan WfRun WfDigest WfDb.

(** * The workflow store: commands executed inside transactions

    Models [go/internal/workflow/store.go] on the tables of [WfDb].  A
    transaction is a function on the database that returns an error or a
    result with the next database; [run_tx] commits or rolls back.  [inject]
    stands for the store's fault injection as well as for the database failing
    at that point.  [concurrent] is the set of commands that other
    transactions committed after this one took its snapshot: the unique index
    sees them, the queries of the serializable transaction do not. *)

Definition errReplayAfterConflict : error :=
  ErrNew "workflow: replay command after reservation conflict".

Inductive FaultPoint := FaultBeforeEvents | FaultBeforeSnapshot | FaultBeforeCommit.

#[global] Instance FaultPoint_eq_dec : EqDecision FaultPoint.
Proof. solve_decision. Defined.

(** ** Command results *)

Record CommandResult := mkCommandResult {
  Result_AggregateID : string;
  Result_State : string;
  Result_Revision : Z;
  EventIDs : list string;
  TaskIDs : list string;
  Replay : bool;
}.

#[global] Instance CommandResult_eq_dec : EqDecision CommandResult.
Proof. solve_decision. Defined.

Definition set_Replay (v : bool) (r : CommandResult) : CommandResult :=
  mkCommandResult (Result_AggregateID r) (Result_State r) (Result_Revision r) (EventIDs r)
    (TaskIDs r) v.

Definition result_json (r : CommandResult) : json :=
  JObj ([("aggregate_id", JStr (Result_AggregateID r)); ("state", JStr (Result_State r));
         ("revision", JNum (Result_Revision r)); ("event_ids", JArr (map JStr (EventIDs r)))] ++
        match TaskIDs r with [] => [] | _ => [("task_ids", JArr (map JStr (TaskIDs r)))] end ++
        [("replay", JBool (Replay r))]).

Definition decode_strings (v : option json) : res (list string) :=
  match v with
  | None | Some JNull => Ok []
  | Some (JArr l) => map_each (fun x => decode_string (Some x)) l
  | Some _ => Err json_error
  end.

Definition decode_uint64 (v : option json) : res Z :=
  match v with
  | None | Some JNull => Ok 0
  | Some (JNum n) => if (0 <=? n) && (n <? 2 ^ 64) then Ok n else Err json_error
  | Some _ => Err json_error
  end.

Definition decode_bool (v : option json) : res bool :=
  match v with
  | None | Some JNull => Ok false
  | Some (JBool b) => Ok b
  | Some _ => Err json_error
  end.

Definition decode_result (v : json) : res CommandResult :=
  match v with
  | JObj fields =>
      aggregate ← decode_string (json_field "aggregate_id" fields);
      state ← decode_string (json_field "state" fields);
      revision ← decode_uint64 (json_field "revision" fields);
      event_ids ← decode_strings (json_field "event_ids" fields);
      task_ids ← decode_strings (json_field "task_ids" fields);
      replay ← decode_bool (json_field "replay" fields);
      Ok (mkCommandResult aggregate state revision event_ids task_ids replay)
  | JNull => Ok (mkCommandResult "" "" 0 [] [] false)
  | _ => Err json_error
  end.

(** ** Statements *)

Section statements.
Context `{Platform}.

Definition tx_guard (b : bool) (e : error) : tx db unit := if b then mret tt else tx_err e.

Definition payload_json (p : payload_map) : json :=
  JObj (map (fun '(k, v) => (k, match v with PStr s => JStr s | PNum n => JNum n end))
          (map_to_list p)).

Definition insertEvent (event : Event) (commandID : string) : tx db unit :=
  wrapped "insert event" (
    id ← tx_lift (uuid_param (Event_ID event));
    command ← tx_lift (uuid_param commandID);
    aggregate_type ← tx_lift (text_column (AggregateType event));
    aggregate ← tx_lift (uuid_param (AggregateID event));
    revision ← tx_lift (bigint_param (Event_Revision event));
    event_type ← tx_lift (text_column (Event_Type event));
    actor ← tx_lift (uuid_param (Actor_ID (Event_Actor event)));
    correlation ← tx_lift (uuid_param (Event_CorrelationID event));
    causation ← tx_lift (uuid_param (Event_CausationID event));
    payload ← tx_lift (jsonb_column (payload_json (Payload event)));
    s ← tx_get;
    tx_guard ((0 <? revision) && actor_kind_closed (Actor_Kind (Event_Actor event)))
      check_violation ;;
    tx_guard (negb (existsb (fun e => er_event_id e == id) (events s))) unique_violation ;;
    tx_guard (negb (existsb (fun e =>
        (er_aggregate_type e == aggregate_type) && (er_aggregate_id e == aggregate) &&
        (er_revision e =? revision)) (events s))) unique_violation ;;
    tx_guard (bool_decide (is_Some (commands s !! command))) foreign_key_violation ;;
    tx_put (set_events (events s ++
      [mkEventRow id command aggregate_type aggregate revision event_type
         (time_column (Event_Timestamp event)) actor (Actor_Kind (Event_Actor event))
         correlation causation payload]) s)).

Definition insertTask (task : Task) : tx db unit :=
  wrapped "insert task" (
    id ← tx_lift (uuid_param (Task_ID task));
    row ← tx_lift (row_of_task task);
    s ← tx_get;
    tx_guard (check_task_row row) check_violation ;;
    tx_guard (bool_decide (tasks s !! id = None)) unique_violation ;;
    tx_guard (bool_decide (is_Some (runs s !! tr_run row))) foreign_key_violation ;;
    tx_put (set_tasks (<[id := row]> (tasks s)) s)).

Definition task_in_run (s : db) (run task : string) : bool :=
  match tasks s !! task with Some r => tr_run r == run | None => false end.

Definition insertDependency (runID : string) (d : TaskDependency) : tx db unit :=
  wrapped "insert task dependency" (
    run ← tx_lift (uuid_param runID);
    task ← tx_lift (uuid_param (TaskID d));
    depends_on ← tx_lift (uuid_param (DependsOnID d));
    s ← tx_get;
    tx_guard (task != depends_on) check_violation ;;
    tx_guard (negb (bool_decide ((run, task, depends_on) ∈ deps s))) unique_violation ;;
    tx_guard (bool_decide (is_Some (runs s !! run)) && task_in_run s run task &&
              task_in_run s run depends_on) foreign_key_violation ;;
    tx_put (set_deps ({[(run, task, depends_on)]} ∪ deps s) s)).

(** One reservation for both kinds of command ([reserveCommand] and
    [reserveTaskCommand]). *)
Definition reserve (label aggregateType aggregateID digest : string) (meta : CommandEnvelope)
    (concurrent : gset string) : tx db unit :=
  wrapped label (
    command ← tx_lift (uuid_param (CommandID meta));
    aggregate ← tx_lift (uuid_param aggregateID);
    digest' ← tx_lift (text_column digest);
    actor ← tx_lift (uuid_param (Actor_ID (Envelope_Actor meta)));
    expected ← tx_lift (bigint_param (ExpectedRevision meta));
    correlation ← tx_lift (uuid_param (CorrelationID meta));
    causation ← tx_lift (uuid_param (CausationID meta));
    s ← tx_get;
    tx_guard (digestPattern digest' && (0 <=? expected) &&
              actor_kind_closed (Actor_Kind (Envelope_Actor meta))) check_violation ;;
    tx_guard (bool_decide (commands s !! command = None) &&
              negb (bool_decide (command ∈ concurrent))) unique_violation ;;
    tx_put (set_commands (<[command := mkCommandRow aggregateType aggregate digest' actor
      (Actor_Kind (Envelope_Actor meta)) expected correlation causation
      (time_column (Timestamp meta)) None]> (commands s)) s)).

Definition reserveCommand (command : RunCommand) (meta : CommandEnvelope) (digest : string)
    (concurrent : gset string) : tx db unit :=
  reserve "reserve command" "RUN" (RunCommand_RunID command) digest meta concurrent.

Definition reserveTaskCommand (command : TaskCommand) (meta : CommandEnvelope) (digest : string)
    (concurrent : gset string) : tx db unit :=
  reserve "reserve task command" "TASK" (TaskCommand_TaskID command) digest meta concurrent.

Definition isUniqueViolation (err : error) : bool :=
  match errors_As_SQLState err with Some code => code == "23505" | None => false end.

(** A unique violation of the reservation means that another transaction won
    the race for the command ID. *)
Definition reserve_or_replay (m : tx db unit) : tx db unit := fun s =>
  match m s with
  | Ok x => Ok x
  | Err e => if isUniqueViolation e then Err errReplayAfterConflict else Err e
  end.

(** The stored result of a command row. *)
Definition stored_result (row : command_row) (digest : string) (incomplete : error)
    (label : string) : res CommandResult :=
  if cr_request_digest row != digest then Err ErrCommandConflict
  else
    match cr_result row with
    | None => Err incomplete
    | Some encoded => map_err (fun e => ErrWrap e label) (decode_result encoded)
    end.

Definition loadCommandResult (commandID digest : string) : tx db (option CommandResult) :=
  command ← wrapped "load command" (tx_lift (uuid_param commandID));
  s ← tx_get;
  match commands s !! command with
  | None => mret None
  | Some row =>
      result ← tx_lift (stored_result row digest
        (ErrWrap ErrCommandConflict "incomplete prior command") "decode command result");
      mret (Some result)
  end.

Definition record_result (label commandID : string) (result : CommandResult) : tx db unit :=
  wrapped label (
    command ← tx_lift (uuid_param commandID);
    encoded ← tx_lift (jsonb_column (result_json result));
    s ← tx_get;
    tx_put (set_commands (alter (fun row =>
      mkCommandRow (cr_aggregate_type row) (cr_aggregate_id row) (cr_request_digest row)
        (cr_actor_id row) (cr_actor_kind row) (cr_expected_revision row)
        (cr_correlation_id row) (cr_causation_id row) (cr_requested row) (Some encoded))
      command (commands s)) s)).

(** ** Runs and tasks *)

Definition loadRun (id : string) : tx db Run :=
  key ← wrapped "load run" (tx_lift (uuid_param id));
  s ← tx_get;
  match runs s !! key with
  | None => tx_err ErrNotFound
  | Some row => tx_lift (run_of_row key row)
  end.

Definition loadTask (runID taskID : string) : tx db Task :=
  run ← wrapped "load task" (tx_lift (uuid_param runID));
  task ← wrapped "load task" (tx_lift (uuid_param taskID));
  s ← tx_get;
  match tasks s !! task with
  | Some row => if tr_run row == run then tx_lift (task_of_row task row) else tx_err ErrNotFound
  | None => tx_err ErrNotFound
  end.

Definition insertRun (run : Run) : tx db unit :=
  wrapped "insert run" (
    id ← tx_lift (uuid_param (Run_ID run));
    row ← tx_lift (row_of_run run);
    s ← tx_get;
    tx_guard (check_run_row row) check_violation ;;
    tx_guard (bool_decide (runs s !! id = None)) unique_violation ;;
    tx_put (set_runs (<[id := row]> (runs s)) s)).

(** The creation time is not among the columns an update sets. *)
Definition updateRun (run : Run) (expected : Z) : tx db unit :=
  '(id, row) ← wrapped "update run" (
    id ← tx_lift (uuid_param (Run_ID run));
    row ← tx_lift (row_of_run run);
    tx_lift (bigint_param expected) ;;
    mret (id, row));
  s ← tx_get;
  match runs s !! id with
  | Some old =>
      if rr_revision old =? expected then
        wrapped "update run" (tx_guard (check_run_row row) check_violation) ;;
        tx_put (set_runs (<[id := mkRunRow (rr_state row) (rr_revision row)
          (rr_specification_uri row) (rr_specification_digest row) (rr_task_graph_uri row)
          (rr_task_graph_digest row) (rr_lifecycle row) (rr_created old) (rr_updated row)]>
          (runs s)) s)
      else tx_err ErrRevisionConflict
  | None => tx_err ErrRevisionConflict
  end.

(** The run, the limit of attempts and the creation time are not among the
    columns an update sets. *)
Definition updateTask (task : Task) (expected : Z) : tx db unit :=
  '(id, row) ← wrapped "update task" (
    id ← tx_lift (uuid_param (Task_ID task));
    row ← tx_lift (row_of_task task);
    tx_lift (bigint_param expected) ;;
    mret (id, row));
  s ← tx_get;
  match tasks s !! id with
  | Some old =>
      if (tr_run old == tr_run row) && (tr_revision old =? expected) then
        let new := mkTaskRow (tr_run old) (tr_state row) (tr_revision row) (tr_max_attempts old)
          (tr_current_attempt row) (tr_bindings row) (tr_created old) (tr_updated row) in
        wrapped "update task" (tx_guard (check_task_row new) check_violation) ;;
        tx_put (set_tasks (<[id := new]> (tasks s)) s)
      else tx_err ErrRevisionConflict
  | None => tx_err ErrRevisionConflict
  end.

(** The tasks of a run that satisfy a condition on their row. *)
Definition tasks_where (s : db) (run : string) (p : task_row -> bool) : list (string * task_row) :=
  List.filter (fun '(_, r) => (tr_run r == run) && p r) (map_to_list (tasks s)).

Definition count_tasks (s : db) (run : string) (p : task_row -> bool) : Z :=
  Z.of_nat (length (tasks_where s run p)).

(** ** Gates *)

(** Which question about the tasks a run command asks. *)
Inductive run_gate := gate_none | gate_runnable | gate_completed.

Definition gate_of (command : RunCommand) : run_gate :=
  match command with
  | StartRun _ _ => gate_runnable
  | RecordRunExecution _ _ _ _ | RecordRunVerification _ _ _ _ | RecordRunReview _ _ _ _
  | ApproveRun _ _ _ _ _ | RejectRun _ _ _ _ _ | RecordDraftPullRequest _ _ _ _ _
  | RecordMerge _ _ _ _ _ => gate_completed
  | _ => gate_none
  end.

Definition validateRunTaskGate (command : RunCommand) : tx db unit :=
  match gate_of command with
  | gate_none => mret tt
  | gate_runnable =>
      run ← wrapped "check runnable tasks" (tx_lift (uuid_param (RunCommand_RunID command)));
      s ← tx_get;
      let total := count_tasks s run (fun _ => true) in
      let terminal := count_tasks s run (fun r =>
        (tr_state r == TaskStateFailed) || (tr_state r == TaskStateCancelled)) in
      if (total =? 0) || negb (terminal =? 0) then tx_err ErrInvalidTransition else mret tt
  | gate_completed =>
      run ← wrapped "check completed tasks" (tx_lift (uuid_param (RunCommand_RunID command)));
      s ← tx_get;
      let total := count_tasks s run (fun _ => true) in
      let accepted := count_tasks s run (fun r => tr_state r == TaskStateAccepted) in
      if (total =? 0) || negb (accepted =? total) then tx_err ErrInvalidTransition else mret tt
  end.

Definition validateTaskRunGate (command : TaskCommand) : tx db unit :=
  run ← wrapped "lock owning run" (tx_lift (uuid_param (TaskCommand_RunID command)));
  s ← tx_get;
  match runs s !! run with
  | None => tx_err ErrNotFound
  | Some row =>
      match command with
      | CancelTask _ _ _ _ =>
          if rr_state row != RunStateCancelled then tx_err ErrInvalidTransition else mret tt
      | _ =>
          if rr_state row != RunStateExecuting then tx_err ErrInvalidTransition else mret tt
      end
  end.

(** [SET state=..., revision=revision+1, updated_at=...] on a task row. *)
Definition bump_task_row (state : TaskState) (now : time) (row : task_row) : res task_row :=
  if max_i64 <=? tr_revision row then Err (ErrPg "22003")
  else Ok (mkTaskRow (tr_run row) state (tr_revision row + 1) (tr_max_attempts row)
             (tr_current_attempt row) (tr_bindings row) (tr_created row) (time_column now)).

Definition tx_collect {A B} (f : A -> tx db (list B)) : list A -> tx db (list B) :=
  fix go l :=
    match l with
    | [] => mret []
    | a :: l' => x ← f a; y ← go l'; mret (x ++ y)
    end.

Definition cancelTaskRow (runID run : string) (meta : CommandEnvelope) (reason : string)
    (candidate : string * Z) : tx db (list Event) :=
  let '(id, revision) := candidate in
  s ← tx_get;
  match tasks s !! id with
  | Some row =>
      if tr_run row == run then
        row' ← wrapped "cancel task" (tx_lift (bump_task_row TaskStateCancelled (Timestamp meta) row));
        tx_put (set_tasks (<[id := row']> (tasks s)) s)
      else mret tt
  | None => mret tt
  end ;;
  mret [mkEvent (uuid_NewSHA1 (CommandID meta) (id +:+ ":cancel")) "TASK" id (revision + 1)
          "TASK_CANCELLED" (UTC (Timestamp meta)) (Envelope_Actor meta) (CorrelationID meta)
          (CausationID meta) (<["run_id" := PStr runID]> {["reason" := PStr reason]})].

(** The rows of the query come in no particular order. *)
Definition cancelRunTasks (runID : string) (meta : CommandEnvelope) (reason : string)
    : tx db (list Event) :=
  run ← wrapped "lock tasks for cancellation" (tx_lift (uuid_param runID));
  s ← tx_get;
  let candidates := map (fun '(id, r) => (id, tr_revision r))
    (arbitrary_order (tasks_where s run (fun r => negb (TaskState_Terminal (tr_state r))))) in
  tx_collect (cancelTaskRow runID run meta reason) candidates.

(** The dependencies of a task on a prerequisite that is not accepted. *)
Definition unmet_prerequisites (s : db) (run id : string) : list dep_row :=
  List.filter (fun '(r, t, p) => (r == run) && (t == id) &&
    match tasks s !! p with
    | Some row => (tr_run row == run) && (tr_state row != TaskStateAccepted)
    | None => false
    end) (elements (deps s)).

Definition readyDependent (run : string) (accepted : Task) (meta : CommandEnvelope)
    (candidate : string * Z) : tx db (list Event) :=
  let '(id, revision) := candidate in
  s ← tx_get;
  match unmet_prerequisites s run id with
  | _ :: _ => mret []
  | [] =>
      match tasks s !! id with
      | Some row =>
          if (tr_run row == run) && (tr_state row == TaskStatePending) &&
             (tr_revision row =? revision) then
            row' ← wrapped "ready dependent task"
              (tx_lift (bump_task_row TaskStateReady (Timestamp meta) row));
            tx_put (set_tasks (<[id := row']> (tasks s)) s)
          else tx_err ErrRevisionConflict
      | None => tx_err ErrRevisionConflict
      end ;;
      mret [mkEvent (uuid_NewSHA1 (CommandID meta) (id +:+ ":ready")) "TASK" id (revision + 1)
              "TASK_READY" (UTC (Timestamp meta)) (Envelope_Actor meta) (CorrelationID meta)
              (CausationID meta) {["dependency_task_id" := PStr (Task_ID accepted)]}]
  end.

(** The pending tasks of the run that wait for the accepted one. *)
Definition pending_dependents (s : db) (run prerequisite : string) : list (string * Z) :=
  omap (fun '(r, t, p) =>
    if (r == run) && (p == prerequisite) then
      match tasks s !! t with
      | Some row =>
          if (tr_run row == run) && (tr_state row == TaskStatePending)
          then Some (t, tr_revision row) else None
      | None => None
      end
    else None) (elements (deps s)).

Definition makeDependentsReady (accepted : Task) (meta : CommandEnvelope) : tx db (list Event) :=
  run ← wrapped "lock dependent tasks" (tx_lift (uuid_param (Task_RunID accepted)));
  prerequisite ← wrapped "lock dependent tasks" (tx_lift (uuid_param (Task_ID accepted)));
  s ← tx_get;
  tx_collect (readyDependent run accepted meta)
    (arbitrary_order (pending_dependents s run prerequisite)).

End statements.

(** ** The transactions *)

Record runPersistenceDecision := mkRunDecision {
  current : Run;
  next : Run;
  decision_tasks : list Task;
  decision_dependencies : list TaskDependency;
  decision_events : list Event;
}.

(** The zero value [Run{}]. *)
Definition zero_run : Run :=
  mkRun "" (RunStateOther "") 0 None None None "" None None None None None zero_time zero_time.

Definition eventIDs (l : list Event) : list string := map Event_ID l.
Definition taskIDs (l : list Task) : list string := map Task_ID l.

Section transactions.
Context `{Platform}.
(** The fault a point raises, if any. *)
Variable inject : FaultPoint -> option error.
(** Commands committed by others since the snapshot was taken. *)
Variable concurrent : gset string.

Definition fault (point : FaultPoint) : tx db unit :=
  match inject point with Some e => tx_err e | None => mret tt end.

Definition loadRunForCommand (command : RunCommand) : tx db Run :=
  match command with
  | CreateRun _ id => fun s =>
      match loadRun id s with
      | Ok _ => Err (ErrWrap ErrInvalidTransition "run already exists")
      | Err e => if errors_Is e ErrNotFound then Ok (zero_run, s) else Err e
      end
  | _ => loadRun (RunCommand_RunID command)
  end.

Definition decideRunCommand (current : Run) (command : RunCommand) : res runPersistenceDecision :=
  match command with
  | CreateRun _ _ =>
      '(next, events) ← NewRun command;
      Ok (mkRunDecision current next [] [] events)
  | ApproveTaskGraph _ _ _ _ _ =>
      decision ← Run_ApproveTaskGraph current command;
      Ok (mkRunDecision current (Decision_Run decision) (Decision_Tasks decision)
            (Decision_Dependencies decision) (Decision_Events decision))
  | _ =>
      '(next, events) ← Run_Apply current command;
      Ok (mkRunDecision current next [] [] events)
  end.

Definition insertEvents (l : list Event) (commandID : string) : tx db unit :=
  tx_each (fun event => insertEvent event commandID) l.

Definition persistRunTransition (command : RunCommand) (meta : CommandEnvelope) (digest : string)
    (decision : runPersistenceDecision) : tx db unit :=
  reserve_or_replay (reserveCommand command meta digest concurrent) ;;
  fault FaultBeforeEvents ;;
  insertEvents (decision_events decision) (CommandID meta) ;;
  tx_each insertTask (decision_tasks decision) ;;
  tx_each (insertDependency (Run_ID (next decision))) (decision_dependencies decision) ;;
  fault FaultBeforeSnapshot ;;
  match command with
  | CreateRun _ _ => insertRun (next decision)
  | _ => updateRun (next decision) (Run_Revision (current decision))
  end.

Definition recordRunCommandResult (meta : CommandEnvelope) (decision : runPersistenceDecision)
    : tx db CommandResult :=
  let result := mkCommandResult (Run_ID (next decision))
    (RunState_string (Run_State (next decision))) (Run_Revision (next decision))
    (eventIDs (decision_events decision)) (taskIDs (decision_tasks decision)) false in
  record_result "record command result" (CommandID meta) result ;;
  mret result.

(** The tasks of a run that is cancelled are cancelled with it. *)
Definition withCancellation (command : RunCommand) (decision : runPersistenceDecision)
    : tx db runPersistenceDecision :=
  match command with
  | CancelRun meta _ reason =>
      cancelEvents ← cancelRunTasks (Run_ID (next decision)) meta reason;
      mret (mkRunDecision (current decision) (next decision) (decision_tasks decision)
              (decision_dependencies decision) (decision_events decision ++ cancelEvents))
  | _ => mret decision
  end.

Definition executeRunTransaction (command : RunCommand) (digest : string) : tx db CommandResult :=
  match RunCommand_Envelope command with
  | None => tx_err (invalid "nil command")
  | Some meta =>
      found ← loadCommandResult (CommandID meta) digest;
      match found with
      | Some result => mret (set_Replay true result)
      | None =>
          current ← loadRunForCommand command;
          validateRunTaskGate command ;;
          decision ← tx_lift (decideRunCommand current command);
          decision ← withCancellation command decision;
          persistRunTransition command meta digest decision ;;
          result ← recordRunCommandResult meta decision;
          fault FaultBeforeCommit ;;
          mret result
      end
  end.

Definition persistTaskTransition (command : TaskCommand) (meta : CommandEnvelope) (digest : string)
    (current next : Task) (events : list Event) : tx db (list Event) :=
  reserve_or_replay (reserveTaskCommand command meta digest concurrent) ;;
  fault FaultBeforeEvents ;;
  insertEvents events (CommandID meta) ;;
  fault FaultBeforeSnapshot ;;
  updateTask next (Task_Revision current) ;;
  if Task_State next == TaskStateAccepted then
    readyEvents ← makeDependentsReady next meta;
    insertEvents readyEvents (CommandID meta) ;;
    mret (events ++ readyEvents)
  else mret events.

Definition recordTaskCommandResult (meta : CommandEnvelope) (next : Task) (events : list Event)
    : tx db CommandResult :=
  let result := mkCommandResult (Task_ID next) (TaskState_string (Task_State next))
    (Task_Revision next) (eventIDs events) [] false in
  record_result "record task command result" (CommandID meta) result ;;
  mret result.

Definition executeTaskTransaction (command : TaskCommand) (digest : string)
    : tx db CommandResult :=
  match TaskCommand_Envelope command with
  | None => tx_err (invalid "nil command")
  | Some meta =>
      found ← loadCommandResult (CommandID meta) digest;
      match found with
      | Some result => mret (set_Replay true result)
      | None =>
          validateTaskRunGate command ;;
          current ← loadTask (TaskCommand_RunID command) (TaskCommand_TaskID command);
          '(next, events) ← tx_lift (Task_Apply current command);
          events ← persistTaskTransition command meta digest current next events;
          result ← recordTaskCommandResult meta next events;
          fault FaultBeforeCommit ;;
          mret result
      end
  end.

End transactions.

(** ** Executing a command

    What can happen to one attempt at a transaction: it runs alone; it cannot
    begin; it meets a fault; its commit is refused; its commit takes effect
    but the acknowledgement is lost; or another transaction commits first.  In
    the last case the attempt either meets the other's command row or is
    refused by the database's serialization check, because a commit that takes
    effect is equivalent to running alone before or after the other one. *)
Inductive weather :=
| Clear
| BeginFails (e : error)
| FaultAt (point : FaultPoint) (e : error)
| CommitFails (e : error)
| CommitLost (e : error)
| OvertakenBy (other : db) (e : error).

Section execution.
Context `{Platform}.

Definition inject_of (w : weather) (point : FaultPoint) : option error :=
  match w with
  | FaultAt p e => if p == point then Some e else None
  | _ => None
  end.

(** A read outside any transaction. *)
Definition replayAfterConflict (s : db) (commandID digest : string) : res CommandResult :=
  command ← map_err (fun e => ErrWrap e "load conflicting command") (uuid_param commandID);
  match commands s !! command with
  | None => Err (ErrWrap (ErrNew "pgx: no rows in result set") "load conflicting command")
  | Some row =>
      result ← stored_result row digest ErrCommandConflict "decode conflicting command";
      Ok (set_Replay true result)
  end.

(** One attempt, for the transaction [body] of either kind of command. *)
Definition attempt (body : (FaultPoint -> option error) -> gset string -> tx db CommandResult)
    (label commandID digest : string) (w : weather) (s : db) : res CommandResult * db :=
  let replay (pool : db) (r : res (CommandResult * db)) : res CommandResult * db :=
    match r with
    | Err e =>
        if errors_Is e errReplayAfterConflict
        then (replayAfterConflict pool commandID digest, pool) else (Err e, pool)
    | Ok (result, s') => (Ok result, s')
    end in
  match w with
  | BeginFails e => (Err (ErrWrap e "begin workflow transaction"), s)
  | CommitFails e =>
      match replay s (body (inject_of w) ∅ s) with
      | (Ok _, _) => (Err (ErrWrap e label), s)
      | (Err e', _) => (Err e', s)
      end
  | CommitLost e =>
      match replay s (body (inject_of w) ∅ s) with
      | (Ok _, s') => (Err (ErrWrap e label), s')
      | (Err e', _) => (Err e', s)
      end
  | OvertakenBy other e =>
      match body (inject_of w) (dom (commands other)) s with
      | Err e' =>
          if errors_Is e' errReplayAfterConflict
          then (replayAfterConflict other commandID digest, other) else (Err e', other)
      | Ok _ => (Err (ErrWrap e label), other)
      end
  | Clear | FaultAt _ _ => replay s (body (inject_of w) ∅ s)
  end.

(** [climate n] is what the n-th attempt meets. *)
Definition ExecuteRun (climate : nat -> weather) (ctx_done : nat -> option error)
    (command : RunCommand) (s : db) : res CommandResult * db :=
  match validateRunCommand command, commandDigest command, RunCommand_Envelope command with
  | Ok _, Ok digest, Some meta =>
      RetryTransaction (fun n => attempt (fun inject others =>
        executeRunTransaction inject others command digest) "commit workflow transaction"
        (CommandID meta) digest (climate n))
        ctx_done s
  | Ok _, Ok _, None => (Err (invalid "nil command"), s)
  | Ok _, Err e, _ => (Err e, s)
  | Err e, _, _ => (Err e, s)
  end.

Definition ExecuteTask (climate : nat -> weather) (ctx_done : nat -> option error)
    (command : TaskCommand) (s : db) : res CommandResult * db :=
  match validateTaskCommand command, taskCommandDigest command, TaskCommand_Envelope command with
  | Ok _, Ok digest, Some meta =>
      RetryTransaction (fun n => attempt (fun inject others =>
        executeTaskTransaction inject others command digest) "commit task transaction"
        (CommandID meta) digest (climate n))
        ctx_done s
  | Ok _, Ok _, None => (Err (invalid "nil command"), s)
  | Ok _, Err e, _ => (Err e, s)
  | Err e, _, _ => (Err e, s)
  end.

(** A caller's transaction cannot be replayed outside of it. *)
Definition no_replay (m : tx db CommandResult) : tx db CommandResult := fun s =>
  match m s with
  | Ok x => Ok x
  | Err e => if errors_Is e errReplayAfterConflict then Err ErrCommandConflict else Err e
  end.

(** The command inside a transaction of the caller ([None] for a nil one). *)
Definition ExecuteRunTx (transaction : option (FaultPoint -> option error))
    (concurrent : gset string) (command : RunCommand) : tx db CommandResult :=
  match transaction with
  | None => tx_err (invalid "nil transaction")
  | Some inject =>
      tx_lift (validateRunCommand command) ;;
      digest ← tx_lift (commandDigest command);
      no_replay (executeRunTransaction inject concurrent command digest)
  end.

End execution.

(** * Reading runs, tasks, events and pending approvals

    Models [go/internal/workflow/query.go].  A query that runs in one
    transaction, or in one statement, is a function of the database it sees;
    [ListPendingApprovals] reads in many statements, each of which sees the
    database of its moment.  The copies [cloneRun], [cloneTask] and [cloneMap]
    make are the values themselves: values here are not shared. *)

Section queries.
Context `{Platform}.

Definition GetRun (runID : string) (s : db) : res Run :=
  '(run, _) ← loadRun runID s;
  Ok run.

Definition GetTask (runID taskID : string) (s : db) : res Task :=
  '(task, _) ← loadTask runID taskID s;
  Ok task.

(** [ORDER BY] on a uuid column: the order of the canonical text. *)
Definition text_le (a b : string) : Prop := String.leb a b = true.
#[global] Instance text_le_dec : RelDecision text_le.
Proof. intros a b. unfold text_le. apply _. Defined.

Definition ListTasks (runID : string) (s : db) : res (list Task) :=
  run ← map_err (fun e => ErrWrap e "list task identities") (uuid_param runID);
  let ids := merge_sort text_le (map fst (tasks_where s run (fun _ => true))) in
  map_each (fun id => '(task, _) ← loadTask runID id s; Ok task) ids.

(** A stored event, with its payload as the tree the program decodes. *)
Record ListedEvent := mkListedEvent {
  Listed_ID : string;
  Listed_AggregateType : string;
  Listed_AggregateID : string;
  Listed_Revision : Z;
  Listed_Type : string;
  Listed_Timestamp : time;
  Listed_Actor : Actor;
  Listed_CorrelationID : string;
  Listed_CausationID : string;
  Listed_Payload : json;
}.

(** Decoding into [map[string]any]. *)
Definition decode_map (v : json) : res json :=
  match v with JObj _ | JNull => Ok v | _ => Err json_error end.

Definition list_event (row : event_row) : res ListedEvent :=
  payload ← map_err (fun _ => invalid "event payload") (decode_map (er_payload row));
  let actor := mkActor (er_actor_id row) (er_actor_kind row) in
  if negb (is_Ok (Actor_Validate actor)) || (er_revision row =? 0)
  then Err (invalid "event snapshot")
  else Ok (mkListedEvent (er_event_id row) (er_aggregate_type row) (er_aggregate_id row)
             (er_revision row) (er_event_type row) (scan_time (er_occurred row)) actor
             (er_correlation_id row) (er_causation_id row) payload).

(** The rows are kept in the order of their sequence number. *)
Definition ListEvents (aggregateType aggregateID : string) (s : db) : res (list ListedEvent) :=
  ty ← map_err (fun e => ErrWrap e "list events") (text_column aggregateType);
  id ← map_err (fun e => ErrWrap e "list events") (uuid_param aggregateID);
  map_each list_event
    (List.filter (fun e => (er_aggregate_type e == ty) && (er_aggregate_id e == id)) (events s)).

(** ** Pending approvals *)

Record PendingApproval := mkPending {
  Pending_Kind : string;
  Pending_RunID : string;
  Pending_TaskID : string;
  Pending_Revision : Z;
  Pending_CandidateCommit : string;
  Pending_Artifact : option ArtifactRef;
}.

(** The states in which a human decision on the run is awaited. *)
Definition awaits_human (s : RunState) : bool :=
  match s with
  | RunStateSpecificationReview | RunStateTaskPlanReview | RunStateAwaitingApproval => true
  | _ => false
  end.

(** [ORDER BY created_at, id]. *)
Definition by_creation (a b : Z * string) : Prop :=
  a.1 < b.1 \/ a.1 = b.1 /\ text_le a.2 b.2.
#[global] Instance by_creation_dec : RelDecision by_creation.
Proof. intros a b. unfold by_creation. apply _. Defined.

(** The first statement: the identifiers and states of the runs. *)
Definition pending_runs (s : db) : list (string * RunState) :=
  let rows := List.filter (fun '(_, r) => awaits_human (rr_state r)) (map_to_list (runs s)) in
  omap (fun '(_, id) => (fun r => (id, rr_state r)) <$> runs s !! id)
    (merge_sort by_creation (map (fun '(id, r) => (rr_created r, id)) rows)).

Definition pending_run (identity : string * RunState) (s : db) : res PendingApproval :=
  let '(id, state) := identity in
  run ← GetRun id s;
  Ok (mkPending (RunState_string state) (Run_ID run) "" (Run_Revision run)
        (Run_CandidateCommit run)
        (match state with
         | RunStateSpecificationReview => Specification run
         | RunStateTaskPlanReview => TaskGraph run
         | RunStateAwaitingApproval => Run_Review run
         | _ => None
         end)).

(** The tasks whose approval is awaited, with their runs. *)
Definition pending_tasks (s : db) : list (string * string) :=
  let rows := List.filter (fun '(_, t) => tr_state t == TaskStateAwaitingApproval)
    (map_to_list (tasks s)) in
  omap (fun '(_, id) => (fun t => (tr_run t, id)) <$> tasks s !! id)
    (merge_sort by_creation (map (fun '(id, t) => (tr_created t, id)) rows)).

Definition pending_task (identity : string * string) (s : db) : res PendingApproval :=
  let '(runID, taskID) := identity in
  task ← GetTask runID taskID s;
  Ok (mkPending "TASK" runID taskID (Task_Revision task) (CandidateCommit task) (Review task)).

(** A loop of queries: the [n]-th statement sees [pool n]. *)
Fixpoint query_each {A} (f : A -> db -> res PendingApproval) (pool : nat -> db) (n : nat)
    (l : list A) : res (list PendingApproval) :=
  match l with
  | [] => Ok []
  | a :: l' =>
      item ← f a (pool n);
      items ← query_each f pool (Datatypes.S n) l';
      Ok (item :: items)
  end.

Definition ListPendingApprovals (pool : nat -> db) : res (list PendingApproval) :=
  let identities := pending_runs (pool 0%nat) in
  runs ← query_each pending_run pool 1 identities;
  let next := (1 + length identities)%nat in
  tasks ← query_each pending_task pool (Datatypes.S next) (pending_tasks (pool next));
  Ok (runs ++ tasks).

End queries.
