(* ===== verification/WfStoreLemmas.v ===== *)
(** * What the statements and the transactions of the workflow store do

    One inversion lemma per statement: on success the next database is the one
    before with exactly the rows the statement writes. *)

From S2P Require Import Prelude GoStd GoJson PgRetry WfTypes WfTask WfPlan WfRun.
From S2P Require Import WfDigest WfDb WfStore.

(** ** Following a transaction *)

Lemma wrapped_Ok {S A} label (m : tx S A) s x : wrapped label m s = Ok x -> m s = Ok x.
Proof. unfold wrapped. by destruct (m s). Qed.

Lemma tx_guard_Ok b e s u s' : tx_guard b e s = Ok (u, s') -> b = true /\ s' = s.
Proof. unfold tx_guard. destruct b; [intros [= <- <-]; done|done]. Qed.

Lemma fault_Ok inject point s u s' : fault inject point s = Ok (u, s') -> s' = s.
Proof. unfold fault. destruct (inject point); [done|by intros [= _ <-]]. Qed.

Lemma reserve_or_replay_Ok m s x : reserve_or_replay m s = Ok x -> m s = Ok x.
Proof.
  unfold reserve_or_replay. destruct (m s) as [?|e]; [done|].
  by destruct (isUniqueViolation e).
Qed.

(** And forwards: a part that is known to succeed. *)
Lemma tx_then {S A B} (t : tx S A) (f : A -> tx S B) s0 a s1 :
  t s0 = Ok (a, s1) -> mbind f t s0 = f a s1.
Proof. unfold mbind, tx_bind. by intros ->. Qed.

(** Replaces the right-hand variable of an equation. *)
Ltac subst_right H :=
  lazymatch type of H with
  | ?l = ?r => first [is_var r; subst r | subst | idtac]
  | _ => idtac
  end.

Ltac inject_pair H :=
  let Ha := fresh in let Hb := fresh in let Hc := fresh in
  first [ injection H as Ha Hb Hc; subst_right Ha; subst_right Hb; subst_right Hc
        | injection H as Ha Hb; subst_right Ha; subst_right Hb ].

(** Opens the successful run [H : m s = Ok (a, s')] of a transaction. *)
Ltac tx_open H :=
  cbn beta zeta in H;
  lazymatch type of H with
  | mbind _ _ _ = Ok _ =>
      let a := fresh "x" in let s1 := fresh "s" in let H1 := fresh "Hx" in
      apply tx_bind_Ok in H; destruct H as (a & s1 & H1 & H);
      lazymatch type of a with
      | prod _ _ => destruct a
      | _ => idtac
      end;
      tx_open H1; tx_open H
  | wrapped _ _ _ = Ok _ => apply wrapped_Ok in H; tx_open H
  | reserve_or_replay _ _ = Ok _ => apply reserve_or_replay_Ok in H; tx_open H
  | tx_lift _ _ = Ok _ =>
      let E := fresh in apply tx_lift_Ok in H; destruct H as [H E]; symmetry in E; subst_right E
  | tx_get _ = Ok _ => inject_pair H
  | mret _ _ = Ok _ => inject_pair H
  | tx_put _ _ = Ok _ => inject_pair H
  | tx_err _ _ = Ok _ => discriminate H
  | tx_guard _ _ _ = Ok _ =>
      let E := fresh in apply tx_guard_Ok in H; destruct H as [H E]; symmetry in E; subst_right E
  | fault _ _ _ = Ok _ => apply fault_Ok in H; symmetry in H; subst_right H
  | (if ?c then _ else _) _ = Ok _ =>
      lazymatch type of c with
      | bool => let E := fresh "Hc" in destruct c eqn:E; tx_open H
      | _ => idtac
      end
  | _ => idtac
  end.

Section statements.
Context `{Platform}.

Lemma uuid_param_Ok s k : uuid_param s = Ok k <-> uuid_column s = Some k.
Proof. unfold uuid_param. destruct (uuid_column s); naive_solver. Qed.

Lemma bigint_param_Ok z k : bigint_param z = Ok k -> k = z /\ z <= max_i64.
Proof. unfold bigint_param. destruct (Z.leb_spec z max_i64); [by intros [= <-]|done]. Qed.

(** The row of an event. *)
Record stored_event (e : Event) (row : event_row) : Prop := {
  se_id : uuid_column (Event_ID e) = Some (er_event_id row);
  se_type : er_aggregate_type row = AggregateType e;
  se_aggregate : uuid_column (AggregateID e) = Some (er_aggregate_id row);
  se_revision : er_revision row = Event_Revision e;
  se_bounds : 1 <= er_revision row <= max_i64;
  se_event : er_event_type row = Event_Type e;
  se_actor : uuid_column (Actor_ID (Event_Actor e)) = Some (er_actor_id row);
  se_kind : er_actor_kind row = Actor_Kind (Event_Actor e);
  se_closed : actor_kind_closed (er_actor_kind row) = true;
  se_payload : er_payload row = json_trip (payload_json (Payload e));
}.

Lemma insertEvent_Ok e c s u s' :
  insertEvent e c s = Ok (u, s') ->
  exists row, s' = set_events (events s ++ [row]) s /\ stored_event e row /\
    uuid_column c = Some (er_command_id row).
Proof.
  unfold insertEvent. intros Hr. tx_open Hr.
  repeat match goal with
  | Hx : uuid_param _ = Ok _ |- _ => apply uuid_param_Ok in Hx
  | Hx : bigint_param _ = Ok _ |- _ => apply bigint_param_Ok in Hx as [-> ?]
  | Hx : text_column _ = Ok _ |- _ => apply text_column_Ok in Hx as ->
  | Hx : jsonb_column _ = Ok _ |- _ => apply jsonb_column_Ok in Hx as ->
  end.
  rewrite !andb_true_iff, Z.ltb_lt in *. destruct_and!.
  eexists. split; [reflexivity|]. split; [|done]. split; cbn; first [done|lia].
Qed.

Lemma insertTask_Ok t s u s' :
  insertTask t s = Ok (u, s') ->
  exists id row, uuid_column (Task_ID t) = Some id /\ row_of_task t = Ok row /\
    tasks s !! id = None /\ (is_Some (runs s !! tr_run row)) /\
    s' = set_tasks (<[id := row]> (tasks s)) s.
Proof.
  unfold insertTask. intros Hr. tx_open Hr.
  rewrite bool_decide_eq_true in *. rewrite uuid_param_Ok in *. eauto 10.
Qed.

Lemma task_in_run_spec s run task :
  task_in_run s run task = true <-> exists r, tasks s !! task = Some r /\ tr_run r = run.
Proof.
  unfold task_in_run. destruct (tasks s !! task); rewrite ?bool_decide_eq_true; naive_solver.
Qed.

Lemma insertDependency_Ok run d s u s' :
  insertDependency run d s = Ok (u, s') ->
  exists r t p, uuid_column run = Some r /\ uuid_column (TaskID d) = Some t /\
    uuid_column (DependsOnID d) = Some p /\ t <> p /\
    task_in_run s r t = true /\ task_in_run s r p = true /\
    s' = set_deps ({[(r, t, p)]} ∪ deps s) s.
Proof.
  unfold insertDependency. intros Hr. tx_open Hr.
  rewrite !andb_true_iff, !negb_true_iff, !bool_decide_eq_false, !uuid_param_Ok in *.
  destruct_and!. eauto 15.
Qed.

Lemma reserve_Ok label ty agg digest meta conc s u s' :
  reserve label ty agg digest meta conc s = Ok (u, s') ->
  exists k row, uuid_column (CommandID meta) = Some k /\ commands s !! k = None /\ (k ∉ conc) /\
    cr_request_digest row = digest /\ cr_result row = None /\
    s' = set_commands (<[k := row]> (commands s)) s.
Proof.
  unfold reserve. intros Hr. tx_open Hr.
  rewrite !andb_true_iff, !negb_true_iff, !bool_decide_eq_false, !bool_decide_eq_true,
    !uuid_param_Ok in *. destruct_and!.
  match goal with Ht : text_column digest = Ok _ |- _ =>
    unfold text_column in Ht; case_match; [done|]; injection Ht as <- end.
  do 2 eexists. split_and!; cycle -1; [reflexivity|done..].
Qed.

Lemma record_result_Ok label c r s u s' :
  record_result label c r s = Ok (u, s') ->
  exists k, uuid_column c = Some k /\ json_has_nul (result_json r) = false /\
    exists f, (forall row, cr_request_digest (f row) = cr_request_digest row /\
      cr_result (f row) = Some (json_trip (result_json r))) /\
    s' = set_commands (alter f k (commands s)) s.
Proof.
  unfold record_result. intros Hr. tx_open Hr. rewrite uuid_param_Ok in *.
  match goal with Ht : jsonb_column _ = Ok _ |- _ =>
    unfold jsonb_column in Ht; case_match; [done|]; injection Ht as <- end.
  eexists. split; [done|]. split; [done|]. eexists. split; [|reflexivity]. done.
Qed.

Lemma loadRun_Ok id s r s' :
  loadRun id s = Ok (r, s') ->
  s' = s /\ exists k row, uuid_column id = Some k /\ runs s !! k = Some row /\
    run_of_row k row = Ok r.
Proof.
  unfold loadRun. intros Hr. tx_open Hr. rewrite uuid_param_Ok in *.
  match type of Hr with (match ?x with _ => _ end) _ = _ => destruct x eqn:E end; [|done].
  tx_open Hr. eauto 10.
Qed.

Lemma loadTask_Ok run id s t s' :
  loadTask run id s = Ok (t, s') ->
  s' = s /\ exists r k row, uuid_column run = Some r /\ uuid_column id = Some k /\
    tasks s !! k = Some row /\ tr_run row = r /\ task_of_row k row = Ok t.
Proof.
  unfold loadTask. intros Hr. tx_open Hr. rewrite !uuid_param_Ok in *.
  match type of Hr with (match ?x with _ => _ end) _ = _ => destruct x eqn:E end; [|done].
  tx_open Hr. rewrite bool_decide_eq_true in *. eauto 15.
Qed.

Lemma insertRun_Ok r s u s' :
  insertRun r s = Ok (u, s') ->
  exists k row, uuid_column (Run_ID r) = Some k /\ row_of_run r = Ok row /\
    runs s !! k = None /\ s' = set_runs (<[k := row]> (runs s)) s.
Proof.
  unfold insertRun. intros Hr. tx_open Hr.
  rewrite bool_decide_eq_true, uuid_param_Ok in *. eauto 10.
Qed.

(** The row an update writes over [old]. *)
Definition over_run (old row : run_row) : run_row :=
  mkRunRow (rr_state row) (rr_revision row) (rr_specification_uri row)
    (rr_specification_digest row) (rr_task_graph_uri row) (rr_task_graph_digest row)
    (rr_lifecycle row) (rr_created old) (rr_updated row).

Definition over_task (old row : task_row) : task_row :=
  mkTaskRow (tr_run old) (tr_state row) (tr_revision row) (tr_max_attempts old)
    (tr_current_attempt row) (tr_bindings row) (tr_created old) (tr_updated row).

Lemma updateRun_Ok r expected s u s' :
  updateRun r expected s = Ok (u, s') ->
  exists k row old, uuid_column (Run_ID r) = Some k /\ row_of_run r = Ok row /\
    runs s !! k = Some old /\ rr_revision old = expected /\
    s' = set_runs (<[k := over_run old row]> (runs s)) s.
Proof.
  unfold updateRun. intros Hr. tx_open Hr. rewrite uuid_param_Ok in *.
  match type of Hr with (match ?x with _ => _ end) _ = _ => destruct x eqn:E end; [|done].
  tx_open Hr. rewrite Z.eqb_eq in *. eauto 15.
Qed.

Lemma updateTask_Ok t expected s u s' :
  updateTask t expected s = Ok (u, s') ->
  exists k row old, uuid_column (Task_ID t) = Some k /\ row_of_task t = Ok row /\
    tasks s !! k = Some old /\ tr_run old = tr_run row /\ tr_revision old = expected /\
    s' = set_tasks (<[k := over_task old row]> (tasks s)) s.
Proof.
  unfold updateTask. intros Hr. tx_open Hr. rewrite uuid_param_Ok in *.
  match type of Hr with (match ?x with _ => _ end) _ = _ => destruct x eqn:E end; [|done].
  tx_open Hr. rewrite andb_true_iff, bool_decide_eq_true, Z.eqb_eq in *. destruct_and!. eauto 15.
Qed.

Lemma bump_task_row_Ok st now row row' :
  bump_task_row st now row = Ok row' ->
  row' = mkTaskRow (tr_run row) st (tr_revision row + 1) (tr_max_attempts row)
    (tr_current_attempt row) (tr_bindings row) (tr_created row) (time_column now).
Proof. unfold bump_task_row. case_match; [done|by intros [= <-]]. Qed.

(** The rows of a list of events. *)
Definition event_rows (l : list Event) (rows : list event_row) : Prop :=
  Forall2 stored_event l rows.

Lemma insertEvents_Ok l c s u s' :
  insertEvents l c s = Ok (u, s') ->
  exists rows, s' = set_events (events s ++ rows) s /\ event_rows l rows.
Proof.
  unfold insertEvents. revert s. induction l as [|e l IH]; intros s Hr; cbn [tx_each] in Hr.
  - injection Hr as <- <-. exists []. rewrite app_nil_r. split; [by destruct s|constructor].
  - tx_open Hr. apply insertEvent_Ok in Hx as (row & -> & He & _).
    apply IH in Hr as (rows & -> & Hf). exists (row :: rows).
    split; [by cbn; rewrite <- app_assoc|]. by constructor.
Qed.

End statements.

(** ** The tasks a run command or an acceptance changes besides its own *)

Lemma tasks_where_spec s run p id r :
  (id, r) ∈ tasks_where s run p <-> tasks s !! id = Some r /\ tr_run r = run /\ p r = true.
Proof.
  unfold tasks_where. rewrite list_elem_of_In, List.filter_In, <- list_elem_of_In,
    elem_of_map_to_list, andb_true_iff, bool_decide_eq_true. tauto.
Qed.

Lemma tasks_where_NoDup s run p : NoDup (tasks_where s run p).*1.
Proof.
  unfold tasks_where. pose proof (NoDup_fst_map_to_list (tasks s)) as Hnd.
  induction (map_to_list (tasks s)) as [|[k v] l IH]; [constructor|].
  cbn [List.filter]. cbn in Hnd. apply NoDup_cons in Hnd as [Hk Hnd].
  destruct ((tr_run v == run) && p v); [|by apply IH].
  cbn. constructor; [|by apply IH]. rewrite list_elem_of_fmap. intros ([k' v'] & -> & Hin).
  apply Hk, list_elem_of_fmap. exists (k', v'). split; [done|].
  apply list_elem_of_In, List.filter_In in Hin as [Hin%list_elem_of_In _]. done.
Qed.

Lemma count_tasks_zero s run p :
  count_tasks s run p = 0 <-> forall id r, tasks s !! id = Some r -> tr_run r = run -> p r = false.
Proof.
  unfold count_tasks. split.
  - intros H0 id r Hr Hrun. destruct (p r) eqn:E; [|done]. exfalso.
    assert ((id, r) ∈ tasks_where s run p) as Hin by (by apply tasks_where_spec).
    destruct (tasks_where s run p); [by apply elem_of_nil in Hin|]. cbn in H0. lia.
  - intros Hall. destruct (tasks_where s run p) as [|[id r] l] eqn:E; [done|]. exfalso.
    assert ((id, r) ∈ tasks_where s run p) as Hin by (rewrite E; set_solver).
    apply tasks_where_spec in Hin as (H1 & H2 & H3). by rewrite (Hall id r) in H3.
Qed.

Lemma filter_length_all {A} (f g : A -> bool) l :
  (forall x, f x = true -> g x = true) ->
  length (List.filter f l) = length (List.filter g l) ->
  forall x, x ∈ l -> g x = true -> f x = true.
Proof.
  intros Hfg. assert (Hle : forall l', (length (List.filter f l') <= length (List.filter g l'))%nat).
  { induction l' as [|y l' IH]; cbn; [lia|]. destruct (f y) eqn:Ef.
    - rewrite (Hfg y Ef). cbn. lia.
    - destruct (g y); cbn; lia. }
  induction l as [|y l IH]; cbn; intros Hlen x Hx Hg; [by apply elem_of_nil in Hx|].
  specialize (Hle l). destruct (f y) eqn:Ef.
  - rewrite (Hfg y Ef) in Hlen. cbn in Hlen.
    apply elem_of_cons in Hx as [->|Hx]; [done|]. apply IH; [lia|done|done].
  - destruct (g y) eqn:Eg; cbn in Hlen; [lia|].
    apply elem_of_cons in Hx as [->|Hx]; [congruence|]. by apply IH.
Qed.

(** All tasks of the run satisfy the condition. *)
Lemma count_tasks_all s run p :
  count_tasks s run p = count_tasks s run (fun _ => true) ->
  forall id r, tasks s !! id = Some r -> tr_run r = run -> p r = true.
Proof.
  unfold count_tasks. intros Heq%Nat2Z.inj id r Hr Hrun. unfold tasks_where in Heq.
  assert (Hx : (tr_run r == run) && p r = true).
  { apply (filter_length_all (fun '(_, r) => (tr_run r == run) && p r)
      (fun '(_, r) => (tr_run r == run) && true) (map_to_list (tasks s))) with (x := (id, r)).
    - intros [i x]. rewrite !andb_true_iff. tauto.
    - done.
    - by apply elem_of_map_to_list.
    - rewrite andb_true_r. by apply bool_decide_eq_true. }
  apply andb_true_iff in Hx. tauto.
Qed.

Lemma tasks_where_ext s run p q :
  (forall id r, tasks s !! id = Some r -> tr_run r = run -> p r = q r) ->
  tasks_where s run p = tasks_where s run q.
Proof.
  intros Hpq. apply List.filter_ext_in. intros [id r] Hin%list_elem_of_In%elem_of_map_to_list.
  destruct (bool_decide_reflect (tr_run r = run)) as [Hrun|]; [|done]. by rewrite (Hpq id r).
Qed.

Lemma payload_plain (p : payload_map) :
  (forall k v, p !! k = Some v ->
     has_nul k = false /\ match v with PStr t => has_nul t = false | PNum _ => True end) ->
  json_has_nul (payload_json p) = false.
Proof.
  intros Hp. unfold payload_json. cbn [json_has_nul]. apply not_true_iff_false.
  intros ([k w] & Hin & Hnul)%existsb_exists. apply in_map_iff in Hin as ([k' v] & [= -> <-] & Hin).
  apply list_elem_of_In, elem_of_map_to_list, Hp in Hin as [Hk Hv]. rewrite Hk in Hnul. by destruct v; cbn in *; congruence.
Qed.

Section bumps.
Context `{Platform}.

Definition bumped (st : TaskState) (now : time) (row : task_row) : task_row :=
  mkTaskRow (tr_run row) st (tr_revision row + 1) (tr_max_attempts row)
    (tr_current_attempt row) (tr_bindings row) (tr_created row) (time_column now).

Definition cancel_event (runID : string) (meta : CommandEnvelope) (reason : string)
    (c : string * Z) : Event :=
  mkEvent (uuid_NewSHA1 (CommandID meta) (fst c +:+ ":cancel")) "TASK" (fst c) (snd c + 1)
    "TASK_CANCELLED" (UTC (Timestamp meta)) (Envelope_Actor meta) (CorrelationID meta)
    (CausationID meta) (<["run_id" := PStr runID]> {["reason" := PStr reason]}).

Definition ready_event (accepted : Task) (meta : CommandEnvelope) (c : string * Z) : Event :=
  mkEvent (uuid_NewSHA1 (CommandID meta) (fst c +:+ ":ready")) "TASK" (fst c) (snd c + 1)
    "TASK_READY" (UTC (Timestamp meta)) (Envelope_Actor meta) (CorrelationID meta)
    (CausationID meta) {["dependency_task_id" := PStr (Task_ID accepted)]}.

(** The rows named by [cs] are bumped, the others are kept. *)
Definition bump_all (st : TaskState) (now : time) (cs : list (string * Z))
    (m : gmap string task_row) : gmap string task_row :=
  foldl (fun m c => alter (bumped st now) (fst c) m) m cs.

Lemma bump_all_lookup st now cs m id :
  NoDup cs.*1 ->
  bump_all st now cs m !! id =
  (if decide (id ∈ cs.*1) then bumped st now <$> m !! id else m !! id).
Proof.
  unfold bump_all. revert m. induction cs as [|[k rev] cs IH]; intros m Hnd; cbn [foldl fst].
  { rewrite decide_False by set_solver. done. }
  cbn in Hnd. apply NoDup_cons in Hnd as [Hk Hnd]. rewrite IH by done.
  destruct (decide (id = k)) as [->|Hne].
  - rewrite decide_False by done. rewrite decide_True by set_solver. by rewrite lookup_alter_eq.
  - rewrite lookup_alter_ne by done. cbn.
    destruct (decide (id ∈ cs.*1)); [rewrite decide_True by set_solver|
      rewrite decide_False by set_solver]; done.
Qed.

Lemma alter_insert_row (f : task_row -> task_row) (m : gmap string task_row) k row :
  m !! k = Some row -> <[k := f row]> m = alter f k m.
Proof.
  intros Hrow. apply map_eq. intros i. destruct (decide (i = k)) as [->|Hne].
  - by rewrite lookup_insert_eq, lookup_alter_eq, Hrow.
  - by rewrite lookup_insert_ne, lookup_alter_ne by done.
Qed.

Lemma tx_collect_cancel runID run meta reason cs s evs s' :
  NoDup cs.*1 ->
  (forall id rev, (id, rev) ∈ cs -> exists row, tasks s !! id = Some row /\ tr_run row = run) ->
  tx_collect (cancelTaskRow runID run meta reason) cs s = Ok (evs, s') ->
  evs = map (cancel_event runID meta reason) cs /\
  s' = set_tasks (bump_all TaskStateCancelled (Timestamp meta) cs (tasks s)) s.
Proof.
  revert s evs s'. induction cs as [|[k rev] cs IH]; intros s evs s' Hnd Hin Hr; cbn in Hr.
  { tx_open Hr. split; [done|]. by destruct s. }
  cbn in Hnd. apply NoDup_cons in Hnd as [Hk Hnd].
  destruct (Hin k rev) as (row & Hrow & Hrun); [set_solver|].
  tx_open Hr. rewrite Hrow in *. rewrite bool_decide_true in * by done. tx_open Hx0.
  match goal with Hb : bump_task_row _ _ _ = Ok _ |- _ => apply bump_task_row_Ok in Hb as -> end.
  apply IH in Hx as [-> ->]; [|done|].
  - split; [done|]. unfold bump_all. cbn [foldl fst].
    by rewrite <- (alter_insert_row _ _ _ _ Hrow).
  - intros id rev' Hid. destruct (Hin id rev') as (r & Hr' & Hrun'); [set_solver|].
    cbn. exists r. rewrite lookup_insert_ne; [done|]. intros <-. apply Hk.
    apply list_elem_of_fmap. by exists (k, rev').
Qed.

Lemma cancelRunTasks_Ok runID meta reason s evs s' :
  @PlatformLaws _ -> cancelRunTasks runID meta reason s = Ok (evs, s') ->
  exists run cs, uuid_column runID = Some run /\ NoDup cs.*1 /\
    (forall id rev, (id, rev) ∈ cs <-> exists row, tasks s !! id = Some row /\
       tr_run row = run /\ TaskState_Terminal (tr_state row) = false /\ tr_revision row = rev) /\
    evs = map (cancel_event runID meta reason) cs /\
    s' = set_tasks (bump_all TaskStateCancelled (Timestamp meta) cs (tasks s)) s.
Proof.
  intros Hlaws Hr. unfold cancelRunTasks in Hr. tx_open Hr. rewrite uuid_param_Ok in *.
  set (l := tasks_where _ _ _) in Hr.
  assert (Hperm := arbitrary_order_perm _ l).
  assert (Hfst : (map (fun '(id, r) => (id, tr_revision r)) (arbitrary_order l)).*1 =
                 (arbitrary_order l).*1).
  { rewrite map_map. apply map_ext. by intros []. }
  assert (Hin : forall id rev, (id, rev) ∈ map (fun '(id, r) => (id, tr_revision r)) (arbitrary_order l) <->
    exists row, tasks s !! id = Some row /\ tr_run row = x /\
      TaskState_Terminal (tr_state row) = false /\ tr_revision row = rev).
  { intros id rev. rewrite list_elem_of_fmap. split.
    - intros ([i r] & [= -> ->] & Hi). rewrite Hperm in Hi.
      apply tasks_where_spec in Hi as (? & ? & ?). rewrite negb_true_iff in *. eauto.
    - intros (row & H1 & H2 & H3 & <-). exists (id, row). split; [done|]. rewrite Hperm.
      apply tasks_where_spec. by rewrite H3. }
  assert (Hnd : NoDup (map (fun '(id, r) => (id, tr_revision r)) (arbitrary_order l)).*1).
  { rewrite Hfst, Hperm. apply tasks_where_NoDup. }
  apply tx_collect_cancel in Hr as [-> ->]; [|done|].
  - do 2 eexists. repeat (split; [eassumption|]). by split.
  - intros id rev Hi. apply Hin in Hi as (row & ? & ? & _). eauto.
Qed.

End bumps.

(** ** Dependents *)

Lemma unmet_prerequisites_nil s run id :
  unmet_prerequisites s run id = [] <->
  forall p row, (run, id, p) ∈ deps s -> tasks s !! p = Some row -> tr_run row = run ->
    tr_state row = TaskStateAccepted.
Proof.
  split.
  - intros Hnil p row Hd Hp Hrun. apply dec_stable. intros Hne.
    enough (Hin : In (run, id, p) (unmet_prerequisites s run id)) by (by rewrite Hnil in Hin).
    unfold unmet_prerequisites. apply List.filter_In. split.
    + by apply list_elem_of_In, elem_of_elements.
    + rewrite !bool_decide_true by done. rewrite Hp, bool_decide_true by done.
      by rewrite bool_decide_false.
  - intros Hall. unfold unmet_prerequisites.
    destruct (List.filter _ _) as [|[[r t] p] l] eqn:E; [done|]. exfalso.
    assert (In (r, t, p) ((r, t, p) :: l)) as Hin by (by left). rewrite <- E in Hin.
    apply List.filter_In in Hin as [Hd%list_elem_of_In%elem_of_elements Hc].
    rewrite !andb_true_iff, !bool_decide_eq_true in Hc. destruct Hc as [[-> ->] Hc].
    destruct (tasks s !! p) as [row|] eqn:Ep; [|done].
    rewrite andb_true_iff, bool_decide_eq_true, negb_true_iff, bool_decide_eq_false in Hc.
    destruct Hc as [Hrun Hst]. by apply Hst, (Hall p).
Qed.

(** Whether the prerequisites of a task are met depends on which tasks are
    accepted, not on the rest of their rows. *)
Lemma unmet_prerequisites_ext s s' run id :
  deps s' = deps s ->
  (forall p, (exists row, tasks s' !! p = Some row /\ tr_run row = run /\ tr_state row <> TaskStateAccepted) <->
             (exists row, tasks s !! p = Some row /\ tr_run row = run /\ tr_state row <> TaskStateAccepted)) ->
  unmet_prerequisites s' run id = unmet_prerequisites s run id.
Proof.
  intros Hd Heq. unfold unmet_prerequisites. rewrite Hd. apply List.filter_ext.
  intros [[r t] p]. f_equal. apply eq_true_iff_eq.
  assert (Hspec : forall m : gmap string task_row,
    match m !! p with
    | Some row => (tr_run row == run) && (tr_state row != TaskStateAccepted)
    | None => false
    end = true <-> exists row, m !! p = Some row /\ tr_run row = run /\ tr_state row <> TaskStateAccepted).
  { intros m. destruct (m !! p) as [row|]; [|naive_solver].
    rewrite andb_true_iff, bool_decide_eq_true, negb_true_iff, bool_decide_eq_false.
    naive_solver. }
  rewrite !Hspec. apply Heq.
Qed.

Lemma pending_dependents_spec s run p t rev :
  (t, rev) ∈ pending_dependents s run p <->
  exists row, (run, t, p) ∈ deps s /\ tasks s !! t = Some row /\ tr_run row = run /\
    tr_state row = TaskStatePending /\ tr_revision row = rev.
Proof.
  unfold pending_dependents. rewrite list_elem_of_omap. split.
  - intros ([[r' t'] p'] & Hd%elem_of_elements & Hf).
    repeat case_match; simplify_eq.
    rewrite !andb_true_iff, !bool_decide_eq_true in *. destruct_and!. subst. eauto 10.
  - intros (row & Hd & Ht & Hrun & Hst & <-). exists (run, t, p).
    split; [by apply elem_of_elements|].
    rewrite !bool_decide_true by done. cbn. rewrite Ht, !bool_decide_true by done. done.
Qed.

Lemma pending_dependents_NoDup s run p : NoDup (pending_dependents s run p).*1.
Proof.
  unfold pending_dependents. pose proof (NoDup_elements (deps s)) as Hnd.
  induction (elements (deps s)) as [|[[r t] q] l IH]; [constructor|].
  apply NoDup_cons in Hnd as [Hx Hnd]. cbn [omap list_omap].
  destruct ((r == run) && (q == p)) eqn:Ec; [|by apply IH].
  destruct (tasks s !! t) as [row|]; [|by apply IH].
  destruct ((tr_run row == run) && _); [|by apply IH].
  cbn. constructor; [|by apply IH]. intros Hin.
  apply list_elem_of_fmap in Hin as ([t' rev] & -> & Hin).
  apply list_elem_of_omap in Hin as ([[r' t''] q'] & Hin & Hf). apply Hx.
  rewrite andb_true_iff, !bool_decide_eq_true in Ec. destruct Ec as [-> ->].
  repeat case_match; simplify_eq. rewrite andb_true_iff, !bool_decide_eq_true in *.
  by destruct_and!; subst.
Qed.

Section ready.
Context `{Platform}.

Lemma unmet_bump s k row now run id :
  tasks s !! k = Some row -> tr_state row <> TaskStateAccepted ->
  unmet_prerequisites (set_tasks (<[k := bumped TaskStateReady now row]> (tasks s)) s) run id =
  unmet_prerequisites s run id.
Proof.
  intros Hk Hst. apply unmet_prerequisites_ext; [done|]. intros p. cbn.
  destruct (decide (p = k)) as [->|Hne].
  - rewrite lookup_insert_eq, Hk. cbn. split; intros (r & [= <-] & ? & ?); eauto.
  - by rewrite lookup_insert_ne by done.
Qed.

(** The candidates that became ready. *)
Definition met (s : db) (run : string) (c : string * Z) : bool :=
  match unmet_prerequisites s run (fst c) with [] => true | _ => false end.

Lemma tx_collect_ready run a meta cs s evs s' :
  NoDup cs.*1 ->
  (forall id rev, (id, rev) ∈ cs -> exists row, tasks s !! id = Some row /\
     tr_state row = TaskStatePending) ->
  tx_collect (readyDependent run a meta) cs s = Ok (evs, s') ->
  evs = map (ready_event a meta) (List.filter (met s run) cs) /\
  s' = set_tasks (bump_all TaskStateReady (Timestamp meta) (List.filter (met s run) cs) (tasks s)) s.
Proof.
  revert s evs s'. induction cs as [|[k rev] cs IH]; intros s evs s' Hnd Hin Hr; cbn in Hr.
  { tx_open Hr. split; [done|]. by destruct s. }
  cbn in Hnd. apply NoDup_cons in Hnd as [Hk Hnd].
  destruct (Hin k rev) as (row & Hrow & Hst); [set_solver|].
  tx_open Hr. cbn [List.filter].
  destruct (met s run (k, rev)) eqn:Em; unfold met in Em; cbn [fst] in Em.
  - destruct (unmet_prerequisites s run k); [|done].
    tx_open Hx.
    match goal with Hm : (match tasks s !! k with _ => _ end) s = Ok _ |- _ =>
      rewrite Hrow in Hm; tx_open Hm end.
    match goal with Hb : bump_task_row _ _ _ = Ok _ |- _ => apply bump_task_row_Ok in Hb as -> end.
    fold (bumped TaskStateReady (Timestamp meta) row) in *.
    match goal with Hl : tx_collect _ _ _ = Ok _ |- _ =>
      apply IH in Hl; [destruct Hl as [-> ->]|done|] end.
    + assert (Hfil : List.filter (met (set_tasks (<[k:=bumped TaskStateReady (Timestamp meta) row]>
        (tasks s)) s) run) cs = List.filter (met s run) cs).
      { apply List.filter_ext. intros c. unfold met. rewrite unmet_bump; [done..|by rewrite Hst]. }
      rewrite Hfil. split; [done|]. unfold bump_all. cbn [foldl fst].
      by rewrite <- (alter_insert_row _ _ _ _ Hrow).
    + intros id rev' Hid. destruct (Hin id rev') as (r & Hr' & Hst'); [set_solver|].
      cbn. exists r. rewrite lookup_insert_ne; [done|]. intros <-. apply Hk.
      apply list_elem_of_fmap. by exists (k, rev').
  - destruct (unmet_prerequisites s run k); [done|]. tx_open Hx.
    match goal with Hl : tx_collect _ _ _ = Ok _ |- _ =>
      apply IH in Hl; [by destruct Hl as [-> ->]|done|] end.
    intros id rev' Hid. apply (Hin id rev'). set_solver.
Qed.

Lemma makeDependentsReady_Ok a meta s evs s' :
  @PlatformLaws _ -> makeDependentsReady a meta s = Ok (evs, s') ->
  exists run p cs, uuid_column (Task_RunID a) = Some run /\ uuid_column (Task_ID a) = Some p /\
    NoDup cs.*1 /\
    (forall id rev, (id, rev) ∈ cs <-> exists row, (run, id, p) ∈ deps s /\
       tasks s !! id = Some row /\ tr_run row = run /\ tr_state row = TaskStatePending /\
       tr_revision row = rev /\ unmet_prerequisites s run id = []) /\
    evs = map (ready_event a meta) cs /\
    s' = set_tasks (bump_all TaskStateReady (Timestamp meta) cs (tasks s)) s.
Proof.
  intros Hlaws Hr. unfold makeDependentsReady in Hr. tx_open Hr. rewrite !uuid_param_Ok in *.
  set (l := pending_dependents s x x0) in Hr.
  assert (Hperm := arbitrary_order_perm _ l).
  assert (Hnd : NoDup (arbitrary_order l).*1) by (rewrite Hperm; apply pending_dependents_NoDup).
  assert (Hin : forall id rev, (id, rev) ∈ arbitrary_order l <-> (id, rev) ∈ l).
  { intros id rev. by rewrite Hperm. }
  apply tx_collect_ready in Hr as [-> ->]; [|done|].
  - do 3 eexists. split; [eassumption|]. split; [eassumption|]. split; [|split; [|by split]].
    + clear -Hnd. induction (arbitrary_order l) as [|c cs IH]; [constructor|].
      cbn in *. apply NoDup_cons in Hnd as [Hc Hnd]. destruct (met s x c); [|auto].
      cbn. constructor; [|auto]. intros Hin. apply Hc.
      apply list_elem_of_fmap in Hin as (c' & -> & Hin).
      apply list_elem_of_In, List.filter_In in Hin as [Hin%list_elem_of_In _].
      by apply list_elem_of_fmap_2.
    + intros id rev. rewrite list_elem_of_In, List.filter_In, <- list_elem_of_In, Hin.
      unfold l. rewrite pending_dependents_spec. unfold met. cbn [fst].
      destruct (unmet_prerequisites s x id); naive_solver.
  - intros id rev Hi. apply Hin in Hi. unfold l in Hi.
    apply pending_dependents_spec in Hi as (row & _ & ? & _ & ? & _). eauto.
Qed.

End ready.
