(* ===== verification/WfStoreTx.v ===== *)
(** * What a committed command changes

    [executeRunTransaction] and [executeTaskTransaction] summed up: a success
    either replays the stored result or makes exactly the changes listed. *)

From S2P Require Import Prelude GoStd GoJson PgRetry WfTypes WfTask WfPlan WfRun.
From S2P Require Import WfDigest WfDb WfStore WfStoreLemmas WfTaskProps WfPlanProps WfRunProps.

Section inserts.
Context `{Platform}.

(** A new task and its row. *)
Definition task_inserted (s : db) (t : Task) (c : string * task_row) : Prop :=
  uuid_column (Task_ID t) = Some c.1 /\ row_of_task t = Ok c.2 /\ is_Some (runs s !! tr_run c.2).

Lemma tx_each_insertTask ts s u s' :
  tx_each insertTask ts s = Ok (u, s') ->
  exists rows, Forall2 (task_inserted s) ts rows /\ NoDup rows.*1 /\
    (forall c, c ∈ rows -> tasks s !! c.1 = None) /\
    s' = set_tasks (list_to_map rows ∪ tasks s) s.
Proof.
  revert s. induction ts as [|t ts IH]; intros s Hr; cbn [tx_each] in Hr.
  { tx_open Hr. exists []. split_and!; [constructor|constructor|set_solver|].
    rewrite list_to_map_nil, (left_id_L ∅ (∪)). by destruct s. }
  tx_open Hr. apply insertTask_Ok in Hx as (id & row & Hid & Hrow & Hfresh & Hrun & ->).
  apply IH in Hr as (rows & Hf & Hnd & Hnew & ->). exists ((id, row) :: rows). split_and!.
  - constructor; [done|exact Hf].
  - cbn. constructor; [|done]. rewrite list_elem_of_fmap. intros (c & -> & Hc).
    specialize (Hnew c Hc). cbn in Hnew. by rewrite lookup_insert_eq in Hnew.
  - intros c [->|Hc]%elem_of_cons; [done|]. specialize (Hnew c Hc). cbn in Hnew.
    by apply lookup_insert_None in Hnew as [? _].
  - assert (Hn : (list_to_map rows : gmap string task_row) !! id = None).
    { apply not_elem_of_list_to_map_1. rewrite list_elem_of_fmap. intros (c & -> & Hc).
      specialize (Hnew c Hc). cbn in Hnew. by rewrite lookup_insert_eq in Hnew. }
    unfold set_tasks. cbn. rewrite <- insert_union_r by done. by rewrite insert_union_l.
Qed.

Definition dep_inserted (s : db) (run : string) (d : TaskDependency) (c : dep_row) : Prop :=
  exists r t p, c = (r, t, p) /\ uuid_column run = Some r /\ uuid_column (TaskID d) = Some t /\
    uuid_column (DependsOnID d) = Some p /\ t <> p /\
    task_in_run s r t = true /\ task_in_run s r p = true.

Lemma tx_each_insertDependency run ds s u s' :
  tx_each (insertDependency run) ds s = Ok (u, s') ->
  exists rows, Forall2 (dep_inserted s run) ds rows /\
    s' = set_deps (list_to_set rows ∪ deps s) s.
Proof.
  revert s. induction ds as [|d ds IH]; intros s Hr; cbn [tx_each] in Hr.
  { tx_open Hr. exists []. split; [constructor|]. cbn. rewrite (left_id_L ∅ (∪)). by destruct s. }
  tx_open Hr. apply insertDependency_Ok in Hx as (r & t & p & ? & ? & ? & ? & ? & ? & ->).
  apply IH in Hr as (rows & Hf & ->). exists ((r, t, p) :: rows). split.
  - constructor; [unfold dep_inserted; eauto 15|exact Hf].
  - unfold set_deps. cbn. by rewrite (assoc_L (∪)), (comm_L (∪) (list_to_set rows)).
Qed.

End inserts.

Section transactions.
Context `{PlatformLaws}.

(** The command row that a committed command leaves. *)
Definition recorded (commandID digest : string) (r : CommandResult) (s s' : db) : Prop :=
  exists k row, uuid_column commandID = Some k /\ commands s !! k = None /\
    cr_request_digest row = digest /\ cr_result row = Some (json_trip (result_json r)) /\
    json_has_nul (result_json r) = false /\
    commands s' = <[k := row]> (commands s).

(** A result read back from the command row. *)
Definition replayed (commandID digest : string) (r : CommandResult) (s : db) : Prop :=
  exists k row r0, uuid_column commandID = Some k /\ commands s !! k = Some row /\
    stored_result row digest (ErrWrap ErrCommandConflict "incomplete prior command")
      "decode command result" = Ok r0 /\ r = set_Replay true r0.

Lemma loadCommandResult_Ok c d s found s' :
  loadCommandResult c d s = Ok (found, s') ->
  s' = s /\ exists k, uuid_column c = Some k /\
    match found with
    | None => commands s !! k = None
    | Some r => exists row, commands s !! k = Some row /\
        stored_result row d (ErrWrap ErrCommandConflict "incomplete prior command")
          "decode command result" = Ok r
    end.
Proof.
  unfold loadCommandResult. intros Hr. tx_open Hr. rewrite uuid_param_Ok in *.
  match type of Hr with (match ?x with _ => _ end) _ = _ => destruct x as [row|] eqn:E end;
    tx_open Hr; split; try done; eexists; (split; [eassumption|]); eauto.
Qed.

Lemma record_recorded label c d r s0 k row0 s u s' :
  record_result label c r s = Ok (u, s') -> uuid_column c = Some k ->
  commands s0 !! k = None -> cr_request_digest row0 = d ->
  commands s = <[k := row0]> (commands s0) ->
  recorded c d r s0 s' /\ s' = set_commands (commands s') s.
Proof.
  intros (k' & Hk & Hnul & f & Hf & ->)%record_result_Ok Hk0 Hnone <- Hc. assert (k' = k) as -> by congruence.
  split; [|done]. exists k, (f row0). destruct (Hf row0) as [Hd' Hres].
  split_and!; try done. cbn. rewrite Hc. apply map_eq. intros i.
  destruct (decide (i = k)) as [->|Hne].
  - by rewrite lookup_alter_eq, !lookup_insert_eq.
  - by rewrite lookup_alter_ne, !lookup_insert_ne by done.
Qed.

(** What a committed task command changes. *)
Record task_commit (c : TaskCommand) (meta : CommandEnvelope) (s s' : db) (r : CommandResult) := {
  tc_run : string; tc_id : string;
  tc_run_row : run_row; tc_old : task_row; tc_new : task_row;
  tc_current : Task; tc_next : Task; tc_event : Event;
  tc_ready : list (string * Z); tc_rows : list event_row;
  tc_run_key : uuid_column (TaskCommand_RunID c) = Some tc_run;
  tc_task_key : uuid_column (TaskCommand_TaskID c) = Some tc_id;
  tc_gate : runs s !! tc_run = Some tc_run_row /\
    rr_state tc_run_row = (match c with CancelTask _ _ _ _ => RunStateCancelled | _ => RunStateExecuting end);
  tc_loaded : tasks s !! tc_id = Some tc_old /\ tr_run tc_old = tc_run /\
    task_of_row tc_id tc_old = Ok tc_current;
  tc_applied : Task_Apply tc_current c = Ok (tc_next, [tc_event]);
  tc_new_row : exists row, row_of_task tc_next = Ok row /\ tc_new = over_task tc_old row /\
    uuid_column (Task_ID tc_next) = Some tc_id;
  tc_ready_spec : NoDup tc_ready.*1 /\ forall id rev, (id, rev) ∈ tc_ready <->
    tr_state tc_new = TaskStateAccepted /\ exists row, (tc_run, id, tc_id) ∈ deps s /\
      <[tc_id := tc_new]> (tasks s) !! id = Some row /\ tr_run row = tc_run /\
      tr_state row = TaskStatePending /\ tr_revision row = rev /\
      unmet_prerequisites (set_tasks (<[tc_id := tc_new]> (tasks s)) s) tc_run id = [];
  tc_events : event_rows (tc_event :: map (ready_event tc_next meta) tc_ready) tc_rows;
  tc_result : r = mkCommandResult (Task_ID tc_next) (TaskState_string (Task_State tc_next))
    (Task_Revision tc_next) (eventIDs (tc_event :: map (ready_event tc_next meta) tc_ready)) [] false;
  tc_final : s' = mkDb (runs s)
    (bump_all TaskStateReady (Timestamp meta) tc_ready (<[tc_id := tc_new]> (tasks s)))
    (deps s) (commands s') (events s ++ tc_rows);
}.

Lemma row_of_task_Ok t row :
  row_of_task t = Ok row ->
  uuid_column (Task_RunID t) = Some (tr_run row) /\ tr_state row = Task_State t /\
  tr_revision row = Task_Revision t /\ tr_max_attempts row = MaxAttempts t /\
  tr_current_attempt row = CurrentAttempt t.
Proof.
  unfold row_of_task, bigint_param, int_param. intros Hr. go_run Hr.
  repeat case_match; simplify_eq/=. by rewrite <- uuid_param_Ok.
Qed.

Lemma validateTaskRunGate_Ok c s u s' :
  validateTaskRunGate c s = Ok (u, s') ->
  s' = s /\ exists run row, uuid_column (TaskCommand_RunID c) = Some run /\
    runs s !! run = Some row /\
    rr_state row = match c with CancelTask _ _ _ _ => RunStateCancelled | _ => RunStateExecuting end.
Proof.
  unfold validateTaskRunGate. intros Hr. tx_open Hr. rewrite uuid_param_Ok in *.
  match type of Hr with (match ?x with _ => _ end) _ = _ => destruct x as [row|] eqn:E end;
    [|done].
  destruct c; tx_open Hr; (split; [done|]); do 2 eexists; (split; [eassumption|]);
    (split; [eassumption|]); rewrite negb_false_iff, bool_decide_eq_true in *; done.
Qed.

Lemma Task_Apply_event t c t' evs :
  Task_Apply t c = Ok (t', evs) ->
  exists ev meta, evs = [ev] /\ TaskCommand_Envelope c = Some meta /\
    Event_ID ev = CommandID meta /\ AggregateType ev = "TASK" /\ AggregateID ev = Task_ID t /\
    Event_Revision ev = u64 (Task_Revision t + 1) /\ Task_Revision t' = u64 (Task_Revision t + 1) /\
    Task_ID t' = Task_ID t /\ Task_RunID t' = Task_RunID t /\ MaxAttempts t' = MaxAttempts t /\
    Actor_Validate (Envelope_Actor meta) = Ok tt.
Proof.
  intros (m & tr & He & Hv & Ha & [= -> ->])%Task_Apply_Ok.
  apply Task_validateCommand_Ok in Hv as (_ & _ & _ & _ & Hc & _).
  unfold validateTaskCommand in Hc. rewrite He in Hc. apply res_bind_Ok in Hc as ([] & Hc & _).
  apply CommandEnvelope_Validate_Ok in Hc as (_ & _ & _ & Hact & _).
  pose proof (applyCommand_frame _ _ _ Ha) as (H1 & H2 & H3 & H4 & H5).
  eexists _, m. cbn. rewrite H1, H2, H3, H4. done.
Qed.

Lemma task_of_row_Ok id row t :
  task_of_row id row = Ok t ->
  Task_ID t = id /\ Task_RunID t = tr_run row /\ Task_State t = tr_state row /\
  Task_Revision t = tr_revision row /\ MaxAttempts t = tr_max_attempts row /\
  CurrentAttempt t = tr_current_attempt row /\ Task_Validate t = Ok tt.
Proof.
  unfold task_of_row, bindings_apply. intros Hr. apply res_bind_Ok in Hr as (t0 & Ht0 & Hr).
  apply res_bind_Ok in Hr as ([] & Hv & [= <-]). go_run Ht0. cbn. split_and!; done.
Qed.

Lemma persistTaskTransition_Ok inject conc c meta digest cur nxt evs s evs' s' :
  persistTaskTransition inject conc c meta digest cur nxt evs s = Ok (evs', s') ->
  exists k crow id old row cs rows,
    uuid_column (CommandID meta) = Some k /\ cr_request_digest crow = digest /\
    uuid_column (Task_ID nxt) = Some id /\ row_of_task nxt = Ok row /\
    tasks s !! id = Some old /\ tr_run old = tr_run row /\ tr_revision old = Task_Revision cur /\
    let new := over_task old row in
    let m := <[id := new]> (tasks s) in
    (NoDup cs.*1 /\ forall t rev, (t, rev) ∈ cs <->
      Task_State nxt = TaskStateAccepted /\ exists r, (tr_run row, t, id) ∈ deps s /\
        m !! t = Some r /\ tr_run r = tr_run row /\ tr_state r = TaskStatePending /\
        tr_revision r = rev /\ unmet_prerequisites (set_tasks m s) (tr_run row) t = []) /\
    evs' = evs ++ map (ready_event nxt meta) cs /\ event_rows evs' rows /\
    s' = mkDb (runs s) (bump_all TaskStateReady (Timestamp meta) cs m) (deps s)
      (<[k := crow]> (commands s)) (events s ++ rows).
Proof.
  unfold persistTaskTransition, reserveTaskCommand. intros Hp. tx_open Hp.
  all: repeat match goal with
  | Hr : reserve _ _ _ _ _ _ _ = Ok _ |- _ =>
      apply reserve_Ok in Hr as (k & crow & Hk & _ & _ & Hd & _ & ->)
  | Hi : updateTask _ _ _ = Ok _ |- _ =>
      apply updateTask_Ok in Hi as (id & row & old & Hid & Hrow & Hold & Hrun & Hrev & ->)
  | Hm : makeDependentsReady _ _ _ = Ok _ |- _ =>
      apply makeDependentsReady_Ok in Hm as (run & p & cs & Hr & Hp & Hnd & Hcs & -> & ->); [|done]
  | Hi : insertEvents _ _ _ = Ok _ |- _ =>
      let rows := fresh "rows" in
      apply insertEvents_Ok in Hi as (rows & -> & ?)
  end; cbn in *.
  - destruct (row_of_task_Ok _ _ Hrow) as (Hrun' & _). 
    assert (run = tr_run row) as -> by congruence. assert (p = id) as -> by congruence.
    exists k, crow, id, old, row, cs, (rows0 ++ rows). split_and!; try done.
    + intros t rev. rewrite Hcs. rewrite bool_decide_eq_true in *. naive_solver.
    + by apply Forall2_app.
    + unfold set_events, set_tasks, set_commands. cbn. by rewrite app_assoc.
  - exists k, crow, id, old, row, [], rows. rewrite app_nil_r. split_and!; try done.
    + constructor.
    + intros t rev. rewrite bool_decide_eq_false in *. set_solver.
Qed.

Lemma executeTaskTransaction_Ok inject conc c digest s r s' :
  executeTaskTransaction inject conc c digest s = Ok (r, s') ->
  exists meta, TaskCommand_Envelope c = Some meta /\
    (s' = s /\ replayed (CommandID meta) digest r s \/
     recorded (CommandID meta) digest r s s' /\ inhabited (task_commit c meta s s' r)).
Proof.
  unfold executeTaskTransaction. destruct (TaskCommand_Envelope c) as [meta|] eqn:He; [|done].
  intros Hr. exists meta. split; [done|]. tx_open Hr.
  apply loadCommandResult_Ok in Hx as (-> & k & Hk & Hfound).
  destruct x as [r0|].
  { tx_open Hr. left. split; [done|]. destruct Hfound as (row & ? & ?).
    exists k, row, r0. done. }
  right. tx_open Hr.
  repeat match goal with
  | Hg : validateTaskRunGate _ _ = Ok _ |- _ =>
      apply validateTaskRunGate_Ok in Hg as (-> & run & rrow & Hrun & Hrrow & Hgate)
  | Hl : loadTask _ _ _ = Ok _ |- _ =>
      apply loadTask_Ok in Hl as (-> & run' & id & old & Hrun' & Hid & Hold & Hold_run & Hcur)
  end.
  assert (run' = run) as -> by congruence.
  match goal with Ha : Task_Apply _ _ = Ok _ |- _ => rename Ha into Happ end.
  destruct (Task_Apply_event _ _ _ _ Happ) as (ev & meta' & -> & Hm' & Hev).
  assert (meta' = meta) as -> by congruence.
  destruct (task_of_row_Ok _ _ _ Hcur) as (Hcid & Hcrun & Hcst & Hcrev & Hcmax & Hcatt & Hval).
  match goal with Hp : persistTaskTransition _ _ _ _ _ _ _ _ _ = Ok _ |- _ =>
    apply persistTaskTransition_Ok in Hp as
      (k' & crow & id' & old' & row & cs & rows & Hk' & Hdig & Hid' & Hrow & Hold' & Holdr &
       Holdrev & Hcs & -> & Hrows & ->) end.
  assert (k' = k) as -> by congruence.
  destruct Hev as (Heid & Hety & Heagg & Herev & Hnrev & Hnid & Hnrun & Hnmax & Hact).
  rewrite Hnid, Hcid, (uuid_column_canonical _ _ Hid) in Hid'. injection Hid' as <-.
  assert (old' = old) as -> by congruence.
  destruct (row_of_task_Ok _ _ Hrow) as (Hrowrun & Hrowst & Hrowrev & _).
  match goal with Hr : recordTaskCommandResult _ _ _ _ = Ok _ |- _ =>
    unfold recordTaskCommandResult in Hr; tx_open Hr end.
  match goal with Hr : record_result _ _ _ _ = Ok _ |- _ =>
    eapply (record_recorded _ _ digest _ s k crow) in Hr as [Hrec Hfin];
      [|done..] end.
  split; [exact Hrec|]. constructor.
  refine {| tc_run := run; tc_id := id; tc_run_row := rrow; tc_old := old;
    tc_new := over_task old row; tc_event := ev; tc_ready := cs; tc_rows := rows |}; try done.
  - exists row. split_and!; [done|done|].
    by rewrite Hnid, Hcid, (uuid_column_canonical _ _ Hid).
  - cbn [over_task tr_state]. rewrite Hrowst, <- Hold_run, Holdr. exact Hcs.
Qed.

(** ** Run commands *)

(** What a committed run command changes. *)
Record run_commit (c : RunCommand) (meta : CommandEnvelope) (s s' : db) (r : CommandResult) := {
  rc_id : string; rc_decision : runPersistenceDecision;
  rc_cancelled : list (string * Z); rc_cancel_events : list Event;
  rc_tasks : list (string * task_row); rc_deps : list dep_row; rc_rows : list event_row;
  rc_row : run_row; rc_new : run_row;
  rc_decided : decideRunCommand (current rc_decision) c = Ok rc_decision;
  rc_gate : validateRunTaskGate c s = Ok (tt, s);
  rc_key : uuid_column (Run_ID (next rc_decision)) = Some rc_id;
  rc_written : row_of_run (next rc_decision) = Ok rc_row;
  rc_loaded : match c with
    | CreateRun _ _ => runs s !! rc_id = None /\ rc_new = rc_row
    | _ => exists old, uuid_column (RunCommand_RunID c) = Some rc_id /\
        runs s !! rc_id = Some old /\ run_of_row rc_id old = Ok (current rc_decision) /\
        rc_new = over_run old rc_row
    end;
  rc_cancel : match c with
    | CancelRun m _ reason => NoDup rc_cancelled.*1 /\
        (forall id rev, (id, rev) ∈ rc_cancelled <-> exists row, tasks s !! id = Some row /\
           tr_run row = rc_id /\ TaskState_Terminal (tr_state row) = false /\
           tr_revision row = rev) /\
        rc_cancel_events = map (cancel_event (Run_ID (next rc_decision)) m reason) rc_cancelled
    | _ => rc_cancelled = [] /\ rc_cancel_events = []
    end;
  rc_inserted : Forall2 (task_inserted s) (decision_tasks rc_decision) rc_tasks /\
    NoDup rc_tasks.*1 /\ (forall c, c ∈ rc_tasks -> tasks s !! c.1 = None);
  rc_linked : exists s1, tasks s1 = tasks s' /\
    Forall2 (dep_inserted s1 (Run_ID (next rc_decision)))
      (decision_dependencies rc_decision) rc_deps;
  rc_events : event_rows (decision_events rc_decision ++ rc_cancel_events) rc_rows;
  rc_result : r = mkCommandResult (Run_ID (next rc_decision))
    (RunState_string (Run_State (next rc_decision))) (Run_Revision (next rc_decision))
    (eventIDs (decision_events rc_decision ++ rc_cancel_events))
    (taskIDs (decision_tasks rc_decision)) false;
  rc_final : s' = mkDb (<[rc_id := rc_new]> (runs s))
    (list_to_map rc_tasks ∪ bump_all TaskStateCancelled (Timestamp meta) rc_cancelled (tasks s))
    (list_to_set rc_deps ∪ deps s) (commands s') (events s ++ rc_rows);
}.

Lemma loadRunForCommand_Ok c s cur s' :
  loadRunForCommand c s = Ok (cur, s') ->
  s' = s /\ match c with
  | CreateRun _ _ => cur = zero_run
  | _ => exists k row, uuid_column (RunCommand_RunID c) = Some k /\ runs s !! k = Some row /\
      run_of_row k row = Ok cur
  end.
Proof.
  unfold loadRunForCommand. destruct c; try (by intros (-> & ?)%loadRun_Ok).
  destruct (loadRun ID s) as [?|e]; [done|].
  destruct (errors_Is e ErrNotFound); [|done]. by intros [= <- <-].
Qed.

Lemma validateRunTaskGate_same c s u s' : validateRunTaskGate c s = Ok (u, s') -> s' = s.
Proof.
  unfold validateRunTaskGate. destruct (gate_of c); intros Hr; tx_open Hr; done.
Qed.

Lemma decideRunCommand_current cur c d : decideRunCommand cur c = Ok d -> current d = cur.
Proof.
  intros Hr. destruct c; cbn in Hr; apply res_bind_Ok in Hr as (x & _ & Hr);
    try destruct x; by injection Hr as <-.
Qed.

Lemma withCancellation_Ok c d s d' s' :
  withCancellation c d s = Ok (d', s') ->
  exists run cs evs, current d' = current d /\ next d' = next d /\
    decision_tasks d' = decision_tasks d /\
    decision_dependencies d' = decision_dependencies d /\
    decision_events d' = decision_events d ++ evs /\
    match c with
    | CancelRun m _ reason =>
        uuid_column (Run_ID (next d)) = Some run /\ NoDup cs.*1 /\
        (forall id rev, (id, rev) ∈ cs <-> exists row, tasks s !! id = Some row /\
           tr_run row = run /\ TaskState_Terminal (tr_state row) = false /\
           tr_revision row = rev) /\
        evs = map (cancel_event (Run_ID (next d)) m reason) cs /\
        s' = set_tasks (bump_all TaskStateCancelled (Timestamp m) cs (tasks s)) s
    | _ => cs = [] /\ evs = [] /\ s' = s
    end.
Proof.
  unfold withCancellation. intros Hr.
  destruct c; tx_open Hr; try (exists "", [], []; rewrite app_nil_r; by split_and!).
  apply cancelRunTasks_Ok in Hx as (run & cs & Hrun & Hnd & Hcs & -> & ->); [|done].
  eexists run, cs, _. cbn. split_and!; try done.
Qed.

Lemma persistRunTransition_Ok inject conc c meta digest d s u s' :
  persistRunTransition inject conc c meta digest d s = Ok (u, s') ->
  exists k crow rows ts ds id row new,
    uuid_column (CommandID meta) = Some k /\ cr_request_digest crow = digest /\
    event_rows (decision_events d) rows /\
    Forall2 (task_inserted s) (decision_tasks d) ts /\ NoDup ts.*1 /\
    (forall c, c ∈ ts -> tasks s !! c.1 = None) /\
    (exists s1, tasks s1 = list_to_map ts ∪ tasks s /\
       Forall2 (dep_inserted s1 (Run_ID (next d))) (decision_dependencies d) ds) /\
    uuid_column (Run_ID (next d)) = Some id /\ row_of_run (next d) = Ok row /\
    match c with
    | CreateRun _ _ => runs s !! id = None /\ new = row
    | _ => exists old, runs s !! id = Some old /\ rr_revision old = Run_Revision (current d) /\
        new = over_run old row
    end /\
    s' = mkDb (<[id := new]> (runs s)) (list_to_map ts ∪ tasks s) (list_to_set ds ∪ deps s)
      (<[k := crow]> (commands s)) (events s ++ rows).
Proof.
  unfold persistRunTransition, reserveCommand. intros Hp. tx_open Hp.
  apply reserve_Ok in Hx as (k & crow & Hk & _ & _ & Hd & _ & ->).
  apply insertEvents_Ok in Hx0 as (rows & -> & Hrows).
  apply tx_each_insertTask in Hx1 as (ts & Hts & Hnd & Hfresh & ->).
  apply tx_each_insertDependency in Hx2 as (ds & Hds & ->). cbn in *.
  assert (Hlast : exists id row new, uuid_column (Run_ID (next d)) = Some id /\
    row_of_run (next d) = Ok row /\
    match c with
    | CreateRun _ _ => runs s !! id = None /\ new = row
    | _ => exists old, runs s !! id = Some old /\ rr_revision old = Run_Revision (current d) /\
        new = over_run old row
    end /\
    s' = mkDb (<[id := new]> (runs s)) (list_to_map ts ∪ tasks s) (list_to_set ds ∪ deps s)
      (<[k := crow]> (commands s)) (events s ++ rows)).
  { destruct c;
      first [apply insertRun_Ok in Hp as (id & row & ? & ? & ? & ->); exists id, row, row
            |apply updateRun_Ok in Hp as (id & row & old & ? & ? & ? & ? & ->);
             exists id, row, (over_run old row)];
      (split; [done|]; split; [done|]; split; [eauto|done]). }
  destruct Hlast as (id & row & new & ? & ? & ? & ->).
  exists k, crow, rows, ts, ds, id, row, new. split_and!; try done.
  eexists. split; [|exact Hds]. done.
Qed.

Lemma bump_all_None st now cs m id :
  NoDup cs.*1 -> bump_all st now cs m !! id = None -> m !! id = None.
Proof.
  intros Hnd. rewrite bump_all_lookup by done. case_decide; [|done]. by destruct (m !! id).
Qed.

Lemma run_of_row_Ok id row r :
  run_of_row id row = Ok r ->
  Run_ID r = id /\ Run_State r = rr_state row /\ Run_Revision r = rr_revision row /\
  Run_Validate r = Ok tt.
Proof.
  unfold run_of_row, decodeRunLifecycle. intros Hr.
  apply res_bind_Ok in Hr as (sp & _ & Hr). apply res_bind_Ok in Hr as (tg & _ & Hr).
  apply res_bind_Ok in Hr as (r0 & Hd & Hr). apply res_bind_Ok in Hr as ([] & Hv & [= <-]).
  unfold map_err in Hd. case_match eqn:E; [|done]. injection Hd as ->.
  case_match; try done; go_run E; simplify_eq/=; done.
Qed.

(** A decision, by the method of [Run] that takes it. *)
Lemma decideRunCommand_Ok cur c d :
  decideRunCommand cur c = Ok d ->
  current d = cur /\
  match c with
  | CreateRun _ _ => NewRun c = Ok (next d, decision_events d) /\
      decision_tasks d = [] /\ decision_dependencies d = []
  | ApproveTaskGraph _ _ _ _ _ =>
      Run_ApproveTaskGraph cur c = Ok (mkPlanningDecision (next d) (decision_tasks d)
        (decision_dependencies d) (decision_events d))
  | _ => Run_Apply cur c = Ok (next d, decision_events d) /\
      decision_tasks d = [] /\ decision_dependencies d = []
  end.
Proof.
  intros Hr. unfold decideRunCommand in Hr.
  destruct c; lazy iota beta in Hr;
    apply res_bind_Ok in Hr as (x & Hx & Hr); try destruct x as [r' evs];
    injection Hr as <-; split; try reflexivity; try (split; [exact Hx|done]).
  exact Hx.
Qed.

Lemma decide_id cur c d :
  decideRunCommand cur c = Ok d ->
  match c with CreateRun _ i => Run_ID (next d) = i | _ => Run_ID (next d) = Run_ID cur end.
Proof.
  intros [_ Hr]%decideRunCommand_Ok.
  destruct c; lazy iota beta in Hr |- *.
  2-6,8-18: destruct Hr as [Hr _]; apply Run_Apply_Ok in Hr as (m & tr & _ & _ & Ht & [= -> _]);
    apply transition_frame in Ht as (Ht & _); exact Ht.
  - destruct Hr as [Hr _]. by apply NewRun_Ok in Hr as (_ & _ & _ & m & [= _ ->] & _).
  - apply Run_ApproveTaskGraph_Ok in Hr as
      (m & g & defs & deps & gr & evs & _ & _ & _ & _ & _ & _ & _ & -> & _ & [= -> _]). done.
Qed.

Lemma executeRunTransaction_Ok inject conc c digest s r s' :
  executeRunTransaction inject conc c digest s = Ok (r, s') ->
  exists meta, RunCommand_Envelope c = Some meta /\
    (s' = s /\ replayed (CommandID meta) digest r s \/
     recorded (CommandID meta) digest r s s' /\ inhabited (run_commit c meta s s' r)).
Proof.
  unfold executeRunTransaction. destruct (RunCommand_Envelope c) as [meta|] eqn:He; [|done].
  intros Hr. exists meta. split; [done|]. tx_open Hr.
  apply loadCommandResult_Ok in Hx as (-> & k & Hk & Hfound).
  destruct x as [r0|].
  { tx_open Hr. left. split; [done|]. destruct Hfound as (row & ? & ?).
    exists k, row, r0. done. }
  right. tx_open Hr.
  rename x into cur, x1 into d, x2 into d'.
  apply loadRunForCommand_Ok in Hx as [-> Hload].
  pose proof (validateRunTaskGate_same _ _ _ _ Hx0) as ->. destruct x0.
  destruct (decideRunCommand_Ok _ _ _ Hx1) as [Hcur _].
  apply withCancellation_Ok in Hx2 as
    (run & cs & cevs & Hc' & Hn' & Ht' & Hd' & He' & Hcancel).
  apply persistRunTransition_Ok in Hx3 as
    (k' & crow & rows & ts & ds & id & row & new & Hk' & Hdig & Hrows & Hts & Hnd & Hfresh &
     Hds & Hid & Hrow & Hlast & ->).
  assert (k' = k) as -> by congruence.
  rewrite Hn', Ht', Hd', He', ?Hc' in *.
  unfold recordRunCommandResult in Hx4. tx_open Hx4.
  rewrite Hn', Ht', He' in *.
  (* the cancellation only touches the tasks *)
  assert (Hs2 : s2 = set_tasks (bump_all TaskStateCancelled (Timestamp meta) cs (tasks s)) s /\
    match c with
    | CancelRun m _ reason => NoDup cs.*1 /\
        (forall i rev, (i, rev) ∈ cs <-> exists row, tasks s !! i = Some row /\
           tr_run row = id /\ TaskState_Terminal (tr_state row) = false /\
           tr_revision row = rev) /\
        cevs = map (cancel_event (Run_ID (next d)) m reason) cs
    | _ => cs = [] /\ cevs = []
    end).
  { destruct c; try (destruct Hcancel as (-> & -> & ->); split; [by destruct s|done]).
    injection He as ->. destruct Hcancel as (Hrun & Hndc & Hcs & -> & ->).
    assert (run = id) as -> by congruence. split; [done|]. split; [done|]. split; [done|done]. }
  destruct Hs2 as [-> Hcan]. cbn [runs tasks deps commands events set_tasks] in *.
  assert (Hndc : NoDup cs.*1).
  { destruct c; try (destruct Hcan as [-> _]; constructor). by destruct Hcan. }
  match goal with Hr : record_result _ _ _ _ = Ok _ |- _ =>
    eapply (record_recorded _ _ digest _ s k crow) in Hr as [Hrec Hfin]; [|done..] end.
  split; [exact Hrec|]. constructor.
  refine {| rc_id := id; rc_decision := d; rc_cancelled := cs; rc_cancel_events := cevs;
    rc_tasks := ts; rc_deps := ds; rc_rows := rows; rc_row := row; rc_new := new |};
    rewrite ?Hcur in *; try done.
  - destruct c; try (destruct Hlast as (old & Hold & Hrev & ->);
      destruct Hload as (k0 & row0 & Hk0 & Hrow0 & Hcurrow)); try done.
    all: pose proof (decide_id _ _ _ Hx1) as Hnid; lazy iota beta in Hnid;
      destruct (run_of_row_Ok _ _ _ Hcurrow) as (Hcid & _);
      rewrite Hnid, Hcid, (uuid_column_canonical _ _ Hk0) in Hid; injection Hid as ->;
      exists old; (split_and!; [done|done| |done]); congruence.
  - split; [exact Hts|]. split; [done|]. intros x2 Hin. by eapply bump_all_None, Hfresh.
  - rewrite Hfin. destruct Hds as (s1 & Hs1 & Hf). exists s1. split; [exact Hs1|exact Hf].
Qed.

End transactions.
