(* ===== verification/WfReplay.v ===== *)
(** * A command takes effect at most once

    The stored result of a command reads back as the result that was returned,
    so a command that was committed is answered from its row ever after. *)

From S2P Require Import Prelude GoStd GoJson PgRetry WfTypes WfTask WfPlan WfRun.
From S2P Require Import WfDigest WfDb WfStore WfStoreLemmas Samples WfTaskProps WfPlanProps WfRunProps WfStoreTx.

(** ** The round trip of a result *)

Definition ascii_result (r : CommandResult) : Prop :=
  is_ascii_text (Result_AggregateID r) = true /\ is_ascii_text (Result_State r) = true /\
  Forall (fun s => is_ascii_text s = true) (EventIDs r) /\
  Forall (fun s => is_ascii_text s = true) (TaskIDs r) /\
  0 <= Result_Revision r < 2 ^ 64.

Lemma json_trip_strings l :
  Forall (fun s => is_ascii_text s = true) l ->
  json_trip (JArr (map JStr l)) = JArr (map JStr l).
Proof.
  intros Hl. cbn [json_trip]. f_equal. induction Hl as [|s l Hs _ IH]; [done|].
  cbn [map json_trip]. by rewrite sanitize_ascii, IH.
Qed.

Lemma json_trip_fields fields :
  Forall (fun f => sanitize f.1 = f.1 /\ json_trip f.2 = f.2) fields ->
  json_trip (JObj fields) = JObj fields.
Proof.
  intros Hf. cbn [json_trip]. f_equal. induction Hf as [|[k w] l [Hk Hw] _ IH]; [done|].
  cbn [map fst snd] in *. by rewrite Hk, Hw, IH.
Qed.

Lemma decode_strings_trip l : decode_strings (Some (JArr (map JStr l))) = Ok l.
Proof.
  cbn. apply map_each_Ok. induction l; constructor; done.
Qed.

Lemma decode_result_trip r :
  ascii_result r -> decode_result (json_trip (result_json r)) = Ok r.
Proof.
  intros (Ha & Hs & He & Ht & Hr). destruct r as [agg st rev evs ts rep].
  cbn [Result_AggregateID Result_State Result_Revision EventIDs TaskIDs Replay] in *.
  assert (Hu : decode_uint64 (Some (JNum rev)) = Ok rev).
  { unfold decode_uint64. destruct Hr as [Hlo Hhi].
    apply Z.leb_le in Hlo. apply Z.ltb_lt in Hhi. by rewrite Hlo, Hhi. }
  unfold result_json. cbn [Result_AggregateID Result_State Result_Revision EventIDs TaskIDs Replay].
  rewrite json_trip_fields.
  2: { repeat apply Forall_app_2; [| |by repeat constructor].
       - repeat constructor; cbn [fst snd]; first [by rewrite ?json_trip_strings
           |by cbn; rewrite sanitize_ascii].
       - destruct ts as [|t ts]; [constructor|]. constructor; [|constructor]. split; [done|].
         by apply json_trip_strings. }
  set (fields := _ ++ _ ++ _). unfold decode_result.
  assert (json_field "aggregate_id" fields = Some (JStr agg)) as -> by done.
  assert (json_field "state" fields = Some (JStr st)) as -> by done.
  assert (json_field "revision" fields = Some (JNum rev)) as -> by done.
  assert (json_field "event_ids" fields = Some (JArr (map JStr evs))) as -> by done.
  assert (json_field "replay" fields = Some (JBool rep)) as -> by (by destruct ts).
  assert (decode_strings (json_field "task_ids" fields) = Ok ts) as ->.
  { destruct ts as [|t ts]; [done|]. apply (decode_strings_trip (t :: ts)). }
  rewrite Hu, decode_strings_trip. done.
Qed.

(** ** The results of commands are plain text *)

Section ascii.
Context `{PlatformLaws}.

Lemma NewSHA1_ascii space d : is_ascii_text (uuid_NewSHA1 space d) = true.
Proof.
  destruct (uuid_NewSHA1_text space d) as [H1 H2]. by destruct (uuid_text _ _ H2 H1).
Qed.

Lemma RunState_string_ascii s s' : run_edge s s' = true -> is_ascii_text (RunState_string s') = true.
Proof. destruct s'; try done. by destruct s. Qed.

Lemma TaskState_string_ascii s s' : task_edge s s' = true -> is_ascii_text (TaskState_string s') = true.
Proof. destruct s'; try done. by destruct s. Qed.

Lemma u64_range z : 0 <= u64 z < 2 ^ 64.
Proof. apply Z.mod_pos_bound. lia. Qed.

(** Every event of a command carries the command's identifier or one derived
    from it. *)
Definition command_events (meta : CommandEnvelope) (l : list Event) : Prop :=
  Forall (fun e => Event_ID e = CommandID meta \/ exists d, Event_ID e = uuid_NewSHA1 (CommandID meta) d) l.

Lemma command_events_ascii meta l k :
  uuid_Parse_ok (CommandID meta) = true -> uuid_column (CommandID meta) = Some k ->
  command_events meta l -> Forall (fun s => is_ascii_text s = true) (eventIDs l).
Proof.
  intros Hp Hc Hl. unfold eventIDs. apply Forall_map. eapply Forall_impl; [exact Hl|].
  cbn. intros e [-> | [d ->]]; [|apply NewSHA1_ascii]. by destruct (uuid_text _ _ Hp Hc).
Qed.

Lemma planned_events_named run inc meta defs :
  command_events meta (map snd (map (buildPlannedTask run inc meta) defs)).
Proof.
  unfold command_events. rewrite map_map. apply Forall_map, Forall_forall.
  intros d _. unfold buildPlannedTask. case_match. cbn. eauto.
Qed.

Lemma decision_events_named cur c d meta :
  decideRunCommand cur c = Ok d -> RunCommand_Envelope c = Some meta ->
  command_events meta (decision_events d).
Proof.
  intros [_ Hr]%decideRunCommand_Ok He.
  destruct c; lazy iota beta in Hr; try discriminate He; injection He as ->.
  2-6,8-17: destruct Hr as [Hr _]; apply Run_Apply_Ok in Hr as (m & tr & [= ->] & _ & _ & [= _ ->]);
    constructor; [by left|constructor].
  - destruct Hr as [Hr _]. apply NewRun_Ok in Hr as (_ & _ & _ & m & [= -> _] & _ & _ & _ & ->).
    constructor; [by left|constructor].
  - apply Run_ApproveTaskGraph_Ok in Hr as
      (m & g & defs & deps & gr & evs & [= <- _ _ <- <-] & _ & _ & _ & _ & _ & _ & _ & Hp & Hd).
    injection Hd as _ ->. apply NewPlannedTasks_Ok in Hp as (_ & _ & g' & _ & [= _ ->]).
    constructor; [by left|]. apply planned_events_named.
Qed.

Lemma validated_ids c meta :
  validateRunCommand c = Ok tt -> RunCommand_Envelope c = Some meta ->
  uuid_Parse_ok (CommandID meta) = true /\ uuid_Parse_ok (RunCommand_RunID c) = true.
Proof.
  unfold validateRunCommand. intros Hv He. rewrite He in Hv.
  apply res_bind_Ok in Hv as ([] & Hm & Hid).
  apply CommandEnvelope_Validate_Ok in Hm as (Hm & _). split; [done|].
  unfold validateID in Hid. by case_match.
Qed.

Lemma run_commit_ascii c meta s s' r k :
  validateRunCommand c = Ok tt -> RunCommand_Envelope c = Some meta ->
  uuid_column (CommandID meta) = Some k -> run_commit c meta s s' r -> ascii_result r.
Proof.
  intros Hv He Hk rc. destruct (validated_ids _ _ Hv He) as [Hp Hrp].
  rewrite (rc_result _ _ _ _ _ rc).
  pose proof (rc_decided _ _ _ _ _ rc) as Hdec. set (d := rc_decision _ _ _ _ _ rc) in *.
  pose proof (decideRunCommand_Ok _ _ _ Hdec) as [_ Hd].
  assert (Hids : is_ascii_text (Run_ID (next d)) = true).
  { pose proof (decide_id _ _ _ Hdec) as Hid. pose proof (rc_loaded _ _ _ _ _ rc) as Hl.
    fold d in Hl.
    destruct c; lazy iota beta in Hid, Hl; rewrite Hid; try discriminate He;
      try (destruct Hl as (old & Hc & _ & Hrow & _);
           apply run_of_row_Ok in Hrow as (-> & _); by destruct (uuid_text _ _ Hrp Hc) as (_ & ? & _)).
    pose proof (rc_key _ _ _ _ _ rc) as Hkey. fold d in Hkey. rewrite Hid in Hkey.
    by destruct (uuid_text _ _ Hrp Hkey). }
  assert (Hstate : is_ascii_text (RunState_string (Run_State (next d))) = true /\
                   0 <= Run_Revision (next d) < 2 ^ 64).
  { destruct c; lazy iota beta in Hd; try discriminate He.
    2-6,8-17: destruct Hd as [Hd _]; apply Run_Apply_Ok in Hd as (m & tr & _ & Hvc & Ht & [= -> _]);
      apply Run_validateCommand_Ok in Hvc as (_ & _ & _ & Hterm & _);
      (split; [eapply RunState_string_ascii, transition_edge; done|apply u64_range]).
    - destruct Hd as [Hd _]. apply NewRun_Ok in Hd as (_ & -> & -> & _). done.
    - apply Run_ApproveTaskGraph_Ok in Hd as
        (m & g & defs & deps & gr & evs & _ & _ & _ & _ & _ & _ & _ & -> & _ & [= -> _]).
      split; [done|apply u64_range]. }
  unfold ascii_result. cbn [Result_AggregateID Result_State Result_Revision EventIDs TaskIDs Replay]. split; [done|]. split; [apply Hstate|]. split; [|split; [|apply Hstate]].
  - apply (command_events_ascii meta _ k); [done..|]. unfold command_events. apply Forall_app.
    split; [by eapply decision_events_named|].
    pose proof (rc_cancel _ _ _ _ _ rc) as Hcan. fold d in Hcan.
    destruct c; lazy iota beta in Hcan; try (destruct Hcan as [_ ->]; constructor).
    injection He as ->. destruct Hcan as (_ & _ & ->). apply Forall_map, Forall_forall.
    intros x _. cbn. eauto.
  - unfold taskIDs. apply Forall_map.
    pose proof (rc_inserted _ _ _ _ _ rc) as (Hins & _). fold d in Hins.
    assert (Forall (fun t => uuid_Parse_ok (Task_ID t) = true) (decision_tasks d)) as Hparse.
    { destruct c; lazy iota beta in Hd; try discriminate He;
        try (destruct Hd as (_ & -> & _); constructor).
      apply Run_ApproveTaskGraph_Ok in Hd as
        (m & g & defs & deps & gr & evs & _ & _ & _ & _ & _ & _ & _ & _ & Hpl & _). cbn in Hpl.
      apply NewPlannedTasks_Ok in Hpl as ((_ & _ & _ & Hall & _) & _ & g' & _ & [= -> _]).
      rewrite map_map. apply Forall_map. eapply Forall_impl; [exact Hall|].
      intros x [Hx _]. unfold buildPlannedTask. by case_match. }
    rewrite Forall_forall in *. intros t Ht.
    destruct (Forall2_in_l _ _ _ _ Hins Ht) as (c0 & _ & Hcol & _).
    by destruct (uuid_text _ _ (Hparse t Ht) Hcol).
Qed.

Lemma task_commit_ascii c meta s s' r k :
  validateTaskCommand c = Ok tt -> TaskCommand_Envelope c = Some meta ->
  uuid_column (CommandID meta) = Some k -> task_commit c meta s s' r -> ascii_result r.
Proof.
  intros Hv He Hk tc. unfold validateTaskCommand in Hv. rewrite He in Hv.
  apply res_bind_Ok in Hv as ([] & Hm & Hv). apply res_bind_Ok in Hv as ([] & _ & Hid).
  apply CommandEnvelope_Validate_Ok in Hm as (Hp & _).
  assert (Hip : uuid_Parse_ok (TaskCommand_TaskID c) = true) by (unfold validateID in Hid; by case_match).
  rewrite (tc_result _ _ _ _ _ tc).
  pose proof (tc_applied _ _ _ _ _ tc) as Happ. pose proof (tc_loaded _ _ _ _ _ tc) as (_ & _ & Hrow).
  apply task_of_row_Ok in Hrow as (Hcid & _).
  pose proof (Task_Apply_event _ _ _ _ Happ) as
    (ev & m & [= Hev] & Hm & Heid & _ & _ & _ & Hrev & Hnid & _).
  apply Task_Apply_Ok in Happ as (m' & tr & Hm' & Hvc & Ha & [= Hn _]).
  apply Task_validateCommand_Ok in Hvc as (_ & _ & _ & Hterm & _).
  assert (m = meta) as -> by congruence. rewrite Hev, Hnid, Hcid.
  unfold ascii_result. cbn [Result_AggregateID Result_State Result_Revision EventIDs TaskIDs Replay]. split_and!.
  - by destruct (uuid_text _ _ Hip (tc_task_key _ _ _ _ _ tc)) as (_ & ? & _).
  - rewrite Hn. eapply TaskState_string_ascii, applyCommand_edge; done.
  - change (Event_ID ev :: ?x) with (eventIDs [ev] ++ x). constructor.
    + rewrite Heid. by destruct (uuid_text _ _ Hp Hk).
    + apply Forall_map, Forall_map, Forall_forall. intros x _. cbn. apply NewSHA1_ascii.
  - constructor.
  - rewrite Hrev. apply u64_range.
  - rewrite Hrev. apply u64_range.
Qed.

End ascii.

(** ** Both kinds of command *)

Definition command : Type := RunCommand + TaskCommand.

Definition envelope (c : command) : option CommandEnvelope :=
  match c with inl c => RunCommand_Envelope c | inr c => TaskCommand_Envelope c end.
Definition validate `{Platform} (c : command) : res unit :=
  match c with inl c => validateRunCommand c | inr c => validateTaskCommand c end.
Definition digest_of_command `{Platform} (c : command) : res string :=
  match c with inl c => commandDigest c | inr c => taskCommandDigest c end.
Definition transaction `{Platform} (c : command) (inject : FaultPoint -> option error)
    (concurrent : gset string) (digest : string) : tx db CommandResult :=
  match c with
  | inl c => executeRunTransaction inject concurrent c digest
  | inr c => executeTaskTransaction inject concurrent c digest
  end.
Definition commit_label (c : command) : string :=
  match c with inl _ => "commit workflow transaction" | inr _ => "commit task transaction" end.

(** [ExecuteRun] or [ExecuteTask]. *)
Definition execute `{Platform} (climate : nat -> weather) (ctx_done : nat -> option error)
    (c : command) (s : db) : res CommandResult * db :=
  match c with
  | inl c => ExecuteRun climate ctx_done c s
  | inr c => ExecuteTask climate ctx_done c s
  end.

Section execute.
Context `{PlatformLaws}.

Lemma execute_unfold climate cd c s meta digest :
  validate c = Ok tt -> digest_of_command c = Ok digest -> envelope c = Some meta ->
  execute climate cd c s =
  RetryTransaction (fun n => attempt (fun inject others => transaction c inject others digest)
    (commit_label c) (CommandID meta) digest (climate n)) cd s.
Proof.
  intros Hv Hd He. destruct c; cbn in *; [unfold ExecuteRun|unfold ExecuteTask];
    by rewrite Hv, Hd, He.
Qed.

(** An execution either is refused before any transaction or runs one. *)
Lemma execute_cases climate cd c s :
  (exists e, execute climate cd c s = (Err e, s)) \/
  exists meta digest, validate c = Ok tt /\ digest_of_command c = Ok digest /\
    envelope c = Some meta.
Proof.
  destruct c as [c|c]; cbn [execute validate digest_of_command envelope];
    [unfold ExecuteRun|unfold ExecuteTask].
  - destruct (validateRunCommand c) as [[]|], (commandDigest c), (RunCommand_Envelope c); eauto 10.
  - destruct (validateTaskCommand c) as [[]|], (taskCommandDigest c), (TaskCommand_Envelope c);
      eauto 10.
Qed.

(** The command row answers the command with [r]. *)
Definition answered (commandID digest : string) (s : db) (r : CommandResult) : Prop :=
  exists k row encoded, uuid_column commandID = Some k /\ commands s !! k = Some row /\
    cr_request_digest row = digest /\ cr_result row = Some encoded /\
    decode_result encoded = Ok r.

Lemma replayed_answered id d r s :
  replayed id d r s -> exists r0, answered id d s r0 /\ r = set_Replay true r0.
Proof.
  intros (k & row & r0 & Hk & Hrow & Hst & ->). exists r0. split; [|done].
  unfold stored_result in Hst. case_match eqn:E; [done|].
  rewrite negb_false_iff, bool_decide_eq_true in E.
  destruct (cr_result row) as [enc|] eqn:Ee; [|done].
  unfold map_err in Hst. case_match eqn:Ed; [|done]. injection Hst as ->.
  exists k, row, enc. done.
Qed.

Lemma answered_load id d s r :
  answered id d s r -> loadCommandResult id d s = Ok (Some r, s).
Proof.
  intros (k & row & enc & Hk & Hrow & Hd & Hres & Hdec). unfold loadCommandResult.
  unfold wrapped, tx_lift, uuid_param, mbind, tx_bind. rewrite Hk. cbn. rewrite Hrow.
  unfold tx_bind, stored_result. rewrite Hd, bool_decide_true by done. cbn. by rewrite Hres, Hdec.
Qed.

Lemma transaction_answered c inject conc digest s r meta :
  envelope c = Some meta -> answered (CommandID meta) digest s r ->
  transaction c inject conc digest s = Ok (set_Replay true r, s).
Proof.
  intros He Ha%answered_load.
  destruct c as [c|c]; cbn in *; [unfold executeRunTransaction|unfold executeTaskTransaction];
    rewrite He; unfold mbind, tx_bind; by rewrite Ha.
Qed.

Lemma transaction_step c inject conc digest s r s' meta :
  validate c = Ok tt -> envelope c = Some meta ->
  transaction c inject conc digest s = Ok (r, s') ->
  s' = s /\ (exists r0, answered (CommandID meta) digest s r0 /\ r = set_Replay true r0) \/
  answered (CommandID meta) digest s' r /\ Replay r = false.
Proof.
  intros Hv He Hr.
  assert (Hcases : s' = s /\ replayed (CommandID meta) digest r s \/
    recorded (CommandID meta) digest r s s' /\ Replay r = false /\
    forall k, uuid_column (CommandID meta) = Some k -> ascii_result r).
  { destruct c as [c|c]; cbn in *.
    - apply executeRunTransaction_Ok in Hr as (m & Hm & [Hr|[Hrec [rc]]]);
        (assert (m = meta) as -> by congruence); [by left|right].
      split; [done|]. split; [by rewrite (rc_result _ _ _ _ _ rc)|].
      intros k Hk. by eapply run_commit_ascii.
    - apply executeTaskTransaction_Ok in Hr as (m & Hm & [Hr|[Hrec [tc]]]);
        (assert (m = meta) as -> by congruence); [by left|right].
      split; [done|]. split; [by rewrite (tc_result _ _ _ _ _ tc)|].
      intros k Hk. by eapply task_commit_ascii. }
  destruct Hcases as [[-> Hrep]|(Hrec & Hfresh & Hascii)].
  - left. split; [done|]. by apply replayed_answered.
  - right. split; [|done]. destruct Hrec as (k & row & Hk & Hnone & Hd & Hres & _ & Hc).
    exists k, row, (json_trip (result_json r)). rewrite Hc, lookup_insert_eq.
    split_and!; try done. apply decode_result_trip. by apply (Hascii k).
Qed.

Lemma replay_answered id d s r :
  replayAfterConflict s id d = Ok r -> exists r0, answered id d s r0 /\ r = set_Replay true r0.
Proof.
  unfold replayAfterConflict. intros (k & Hk & Hr)%res_bind_Ok.
  unfold map_err, uuid_param in Hk. repeat case_match; simplify_eq.
  apply res_bind_Ok in Hr as (r0 & Hst & [= <-]). exists r0. split; [|done].
  unfold stored_result in Hst. case_match eqn:E; [done|].
  rewrite negb_false_iff, bool_decide_eq_true in E.
  match type of Hst with match ?x with _ => _ end = _ => destruct x as [enc|] eqn:Ee; [|done] end.
  unfold map_err in Hst. case_match eqn:Ed; [|done]. injection Hst as ->.
  eexists k, _, enc. done.
Qed.

Definition overtaken (w : weather) : Prop := exists o e, w = OvertakenBy o e.

(** One attempt: what is acknowledged is answered by the row; without a
    competing transaction the database is the one before or answers. *)
Lemma attempt_step c digest meta w s res s' :
  validate c = Ok tt -> envelope c = Some meta ->
  attempt (fun inject others => transaction c inject others digest) (commit_label c)
    (CommandID meta) digest w s = (res, s') ->
  (forall r, res = Ok r -> exists r0, answered (CommandID meta) digest s' r0 /\
     set_Replay true r = set_Replay true r0) /\
  (~ overtaken w -> s' = s \/ exists r0, answered (CommandID meta) digest s' r0).
Proof.
  intros Hv He Ha.
  assert (Hbody : forall inj conc r s1, transaction c inj conc digest s = Ok (r, s1) ->
    (s1 = s \/ exists r0, answered (CommandID meta) digest s1 r0) /\
    exists r0, answered (CommandID meta) digest s1 r0 /\ set_Replay true r = set_Replay true r0).
  { intros inj conc r s1 Ht. apply (transaction_step _ _ _ _ _ _ _ _ Hv He) in Ht as
      [[-> (r0 & Hr0 & ->)]|[Hr _]]; split; eauto. }
  unfold attempt in Ha. destruct w; unfold overtaken.
  1,3: destruct (transaction c _ _ digest s) as [[r s1]|e'] eqn:Et;
    [injection Ha as <- <-; destruct (Hbody _ _ _ _ Et) as [H1 H2];
       split; [intros ? [= <-]; exact H2|intros _; exact H1]
    |destruct (errors_Is e' errReplayAfterConflict); injection Ha as <- <-;
       (split; [|intros _; by left]); [|done];
       intros r (r0 & Hr0 & ->)%replay_answered; eauto].
  - injection Ha as <- <-. split; [done|intros _; by left].
  - repeat case_match; simplify_eq; split; try done; intros _; by left.
  - destruct (transaction c _ _ digest s) as [[r s1]|e'] eqn:Et.
    + injection Ha as <- <-. split; [done|]. intros _. by destruct (Hbody _ _ _ _ Et).
    + destruct (errors_Is e' errReplayAfterConflict).
      * destruct (replayAfterConflict s _ _) eqn:Er; injection Ha as <- <-;
          (split; [done|intros _; by left]).
      * injection Ha as <- <-. split; [done|intros _; by left].
  - split; [|intros Hn; destruct Hn; eauto].
    destruct (transaction c _ _ digest s) as [[r s1]|e'] eqn:Et; [by injection Ha as <- <-|].
    destruct (errors_Is e' errReplayAfterConflict); injection Ha as <- <-; [|done].
    intros r (r0 & Hr0 & ->)%replay_answered. eauto.
Qed.

Lemma attempt_answered c digest meta w s r :
  envelope c = Some meta -> answered (CommandID meta) digest s r -> ~ overtaken w ->
  snd (attempt (fun inject others => transaction c inject others digest) (commit_label c)
    (CommandID meta) digest w s) = s.
Proof.
  intros He Ha Hw. unfold attempt.
  destruct w; try (rewrite (transaction_answered _ _ _ _ _ _ _ He Ha)); try done.
  destruct Hw. unfold overtaken. eauto.
Qed.

Lemma execute_answered cd c s digest meta r :
  validate c = Ok tt -> digest_of_command c = Ok digest -> envelope c = Some meta ->
  answered (CommandID meta) digest s r ->
  execute (fun _ => Clear) cd c s = (Ok (set_Replay true r), s).
Proof.
  intros Hv Hd He Ha. rewrite (execute_unfold _ _ _ _ _ _ Hv Hd He).
  unfold RetryTransaction, MaxTransactionAttempts. cbn [retry_loop]. unfold attempt.
  by rewrite (transaction_answered _ _ _ _ _ _ _ He Ha).
Qed.

(** ** The properties *)

(** C4: a command takes effect at most once.  Whatever faults, lost
    acknowledgements, competing transactions and retries an execution meets, a
    result it returned is returned again, marked as a replay and without any
    change, when the same command is executed again; and when no other
    transaction interferes, an execution that reported an error left the
    database as it was, or its effect is complete and repeating the command
    only reports it. *)
Theorem command_at_most_once (climate : nat -> weather) (ctx_done : nat -> option error)
    (c : command) (s s' : db) (res : res CommandResult) :
  execute climate ctx_done c s = (res, s') ->
  (forall r, res = Ok r ->
     execute (fun _ => Clear) ctx_done c s' = (Ok (set_Replay true r), s')) /\
  ((forall n, ~ overtaken (climate n)) ->
     s' = s \/ exists r, execute (fun _ => Clear) ctx_done c s' = (Ok (set_Replay true r), s')).
Proof.
  intros Hr. destruct (execute_cases climate ctx_done c s) as [[e He]|(meta & digest & Hv & Hd & He)].
  { rewrite He in Hr. injection Hr as <- <-. split; [done|]. intros _. by left. }
  rewrite (execute_unfold _ _ _ _ _ _ Hv Hd He) in Hr. unfold RetryTransaction in Hr. split.
  - intros r ->. apply retry_loop_success in Hr as (n & s1 & _ & Hop).
    apply (attempt_step _ _ _ _ _ _ _ Hv He) in Hop as [Hok _].
    destruct (Hok r eq_refl) as (r0 & Ha & ->). by eapply execute_answered.
  - intros Hno. pose proof (retry_loop_invariant
      (fun n => attempt (fun inject others => transaction c inject others digest)
        (commit_label c) (CommandID meta) digest (climate n)) ctx_done
      (fun x => x = s \/ exists r0, answered (CommandID meta) digest x r0)
      MaxTransactionAttempts 0 s) as Hinv.
    rewrite Hr in Hinv. cbn [snd] in Hinv. destruct Hinv as [->|(r0 & Ha)]; [|by left|by left|].
    + intros n x [->|(r0 & Ha)].
      * destruct (attempt _ _ _ _ _ s) as [res1 x'] eqn:Hop.
        exact (proj2 (attempt_step _ _ _ _ _ _ _ Hv He Hop) (Hno n)).
      * rewrite (attempt_answered _ _ _ _ _ _ He Ha (Hno n)). eauto.
    + right. exists r0. by eapply execute_answered.
Qed.

(** a command identifier is spent on its content: once a command was
    acknowledged, another command with the same identifier and a different
    digest is refused as a conflict and changes nothing. *)
Theorem command_id_conflict (climate : nat -> weather) (ctx_done : nat -> option error)
    (c c2 : command) (s s' : db) (r : CommandResult) (m m2 : CommandEnvelope) (d d2 : string) :
  execute climate ctx_done c s = (Ok r, s') ->
  envelope c = Some m -> envelope c2 = Some m2 -> CommandID m2 = CommandID m ->
  digest_of_command c = Ok d -> digest_of_command c2 = Ok d2 -> d <> d2 ->
  validate c2 = Ok tt ->
  execute (fun _ => Clear) ctx_done c2 s' = (Err ErrCommandConflict, s').
Proof.
  intros Hr Hm Hm2 Hid Hd Hd2 Hne Hv2.
  destruct (execute_cases climate ctx_done c s) as [[e He]|(m0 & d0 & Hv & Hd0 & He)];
    [by rewrite He in Hr|].
  assert (m0 = m) as -> by congruence. assert (d0 = d) as -> by congruence.
  rewrite (execute_unfold _ _ _ _ _ _ Hv Hd He) in Hr.
  apply retry_loop_success in Hr as (n & s1 & _ & Hop).
  apply (attempt_step _ _ _ _ _ _ _ Hv He) in Hop as [Hok _].
  destruct (Hok r eq_refl) as (r0 & (k & row & enc & Hk & Hrow & Hdig & _) & _).
  rewrite (execute_unfold _ _ _ _ _ _ Hv2 Hd2 Hm2).
  unfold RetryTransaction, MaxTransactionAttempts. cbn [retry_loop].
  assert (Hload : loadCommandResult (CommandID m2) d2 s' = Err ErrCommandConflict).
  { unfold loadCommandResult, wrapped, tx_lift, uuid_param, mbind, tx_bind.
    rewrite Hid, Hk. cbn. rewrite Hrow. unfold tx_bind, stored_result.
    rewrite Hdig, bool_decide_false by done. done. }
  unfold attempt. destruct c2 as [c2|c2]; cbn [transaction inject_of] in *;
    [unfold executeRunTransaction|unfold executeTaskTransaction]; cbn in Hm2; rewrite Hm2;
    unfold mbind, tx_bind; rewrite Hload; done.
Qed.

(** commands of different types never share the bytes that are hashed into
    their digest, whatever their content: the type name is part of the request
    and cannot run into the JSON text. *)
Theorem digest_separates_types (c c2 : RunCommand) (t t2 : TaskCommand) (x y : string) :
  (typed_request (run_command_type c) x = typed_request (run_command_type c2) y ->
     run_command_type c = run_command_type c2 /\ x = y) /\
  (typed_request (task_command_type t) x = typed_request (task_command_type t2) y ->
     task_command_type t = task_command_type t2 /\ x = y) /\
  (c <> NilRunCommand ->
     typed_request (run_command_type c) x <> typed_request (task_command_type t) y).
Proof.
  split; [|split].
  - apply typed_request_inj; apply run_command_type_no_nul.
  - apply typed_request_inj; apply task_command_type_no_nul.
  - intros Hc Heq. apply typed_request_inj in Heq as [Heq _];
      [|apply run_command_type_no_nul|apply task_command_type_no_nul].
    by destruct c, t.
Qed.

End execute.

(** ** Witnesses *)

(** The commit of the first attempt takes effect, its acknowledgement is lost
    with a transient error. *)
Definition lost_once (n : nat) : weather :=
  match n with O => CommitLost (ErrPg "40001") | _ => Clear end.
Definition never_done (n : nat) : option error := None.

Definition lost_create : res CommandResult * db :=
  execute lost_once never_done (inl create_run) empty_db.
Definition lost_result : CommandResult :=
  result (mkCommandResult "" "" 0 [] [] false) (fst lost_create).

Lemma command_at_most_once_witness :
  Replay lost_result = true /\ Result_State lost_result = "DRAFT" /\
  execute (fun _ => Clear) never_done (inl create_run) (snd lost_create) =
    (Ok (set_Replay true lost_result), snd lost_create).
Proof.
  split; [by vm_compute|]. split; [by vm_compute|].
  apply (command_at_most_once lost_once never_done (inl create_run) empty_db
    (snd lost_create) (fst lost_create)); by vm_compute.
Defined.

(** The identifier of [create_run] on another run. *)
Definition other_create : command := inl (CreateRun (meta "r1" ActorHuman 0 1) "run-2").
Definition digest_text (c : command) : string := result "" (digest_of_command c).

Lemma command_id_conflict_witness :
  digest_text (inl create_run) <> digest_text other_create /\
  execute (fun _ => Clear) never_done other_create (snd lost_create) =
    (Err ErrCommandConflict, snd lost_create).
Proof.
  split; [by vm_compute|].
  apply (command_id_conflict lost_once never_done (inl create_run) other_create empty_db
    (snd lost_create) lost_result (meta "r1" ActorHuman 0 1) (meta "r1" ActorHuman 0 1)
    (digest_text (inl create_run)) (digest_text other_create)); by vm_compute.
Defined.

Lemma digest_separates_types_witness :
  typed_request (run_command_type create_run) "{}" <>
  typed_request (task_command_type lease_first) "{}".
Proof. by apply (digest_separates_types create_run create_run lease_first lease_first). Defined.
