(* ===== verification/WfCodec.v ===== *)
(** * Rows round trip *)

From S2P Require Import Prelude GoStd WfTypes WfTask WfPlan WfRun Samples WfTaskProps.
From S2P Require Import WfPlanProps WfRunProps GoJson PgRetry WfDigest WfDb WfStore.
From S2P Require Import WfStoreLemmas WfStoreTx WfReplay.

(** * Every snapshot the state machines produce is valid

    [Run.Validate] and [Task.Validate] as conditions on the fields, and their
    preservation: whatever a command binds was validated before, so what is
    stored can be loaded again. *)

Section valid.
Context `{Hlaws : PlatformLaws}.

Definition commit_ok (c : string) : Prop := c = "" \/ commitPattern c = true.

Definition valid_optional (a : option ArtifactRef) : Prop := validate_optional a = Ok tt.

Record valid_run (r : Run) : Prop := {
  vr_id : uuid_Parse_ok (Run_ID r) = true;
  vr_state : RunState_Validate (Run_State r) = Ok tt;
  vr_revision : Run_Revision r <> 0;
  vr_created : IsZero (Run_CreatedAt r) = false;
  vr_updated : IsZero (Run_UpdatedAt r) = false;
  vr_specification : valid_optional (Specification r);
  vr_graph : valid_optional (TaskGraph r);
  vr_execution : valid_optional (Run_Execution r);
  vr_verification : valid_optional (Run_Verification r);
  vr_review : valid_optional (Run_Review r);
  vr_approval : valid_optional (Run_Approval r);
  vr_publication : valid_optional (Publication r);
  vr_merge : valid_optional (Merge r);
  vr_commit : commit_ok (Run_CandidateCommit r);
}.

Lemma validateID_Ok l v u : validateID l v = Ok u <-> uuid_Parse_ok v = true.
Proof. unfold validateID. destruct u. destruct (uuid_Parse_ok v); naive_solver. Qed.

Lemma commit_check c (e : error) u :
  (if (c != "") && negb (commitPattern c) then Err e else Ok tt) = Ok u <-> commit_ok c.
Proof.
  unfold commit_ok. destruct u. case_bool_decide as E; cbn; [naive_solver|].
  destruct (commitPattern c); naive_solver.
Qed.

Lemma Run_Validate_Ok r : Run_Validate r = Ok tt <-> valid_run r.
Proof.
  unfold Run_Validate. split.
  - intros ([] & Hid%validateID_Ok & ([] & Hst & Hr)%res_bind_Ok)%res_bind_Ok.
    destruct ((Run_Revision r =? 0) || IsZero (Run_CreatedAt r) || IsZero (Run_UpdatedAt r)) eqn:E;
      [done|]. rewrite !orb_false_iff, Z.eqb_neq in E. destruct E as [[E1 E2] E3].
    apply res_bind_Ok in Hr as ([] & Hs & ([] & Hg & ([] & Hf%for_each_Ok & Hc)%res_bind_Ok)%res_bind_Ok).
    rewrite !Forall_cons in Hf. destruct_and! Hf. apply commit_check in Hc. by split.
  - intros []. rewrite res_bind_Ok. exists tt. split; [by apply validateID_Ok|].
    rewrite res_bind_Ok. exists tt. split; [done|].
    assert ((Run_Revision r =? 0) = false) as -> by (by apply Z.eqb_neq).
    repeat match goal with Hz : IsZero _ = false |- _ => rewrite Hz; clear Hz end. cbn [orb].
    rewrite res_bind_Ok. exists tt. split; [done|]. rewrite res_bind_Ok. exists tt. split; [done|].
    rewrite res_bind_Ok. exists tt. split; [|by apply commit_check].
    apply for_each_Ok. rewrite !Forall_cons. by split_and!.
Qed.

Lemma is_Ok_unit (m : res unit) : is_Ok m = true -> m = Ok tt.
Proof. by destruct m as [[]|]. Qed.

Lemma transition_valid r c tr :
  valid_run r -> transition_of r c = Ok tr -> valid_run (run_next tr).
Proof.
  intros [] Hr. destruct c; run_cases Hr; destruct_and?; split; cbn; try done;
    repeat match goal with Hc : is_Ok _ = true |- _ => apply is_Ok_unit in Hc end;
    first [done|by right|congruence].
Qed.

Lemma valid_finish r t n :
  valid_run r -> IsZero t = false -> n <> 0 ->
  valid_run (set_Run_UpdatedAt t (set_Run_Revision n r)).
Proof. intros [] Ht Hn. by split. Qed.

(** The next revision of a stored one is not 0. *)
Lemma u64_succ_nonzero n : 1 <= n <= max_i64 -> u64 (n + 1) <> 0.
Proof. intros Hn. rewrite u64_id; unfold max_i64 in Hn; lia. Qed.

Lemma envelope_time m : CommandEnvelope_Validate m = Ok tt -> IsZero (UTC (Timestamp m)) = false.
Proof. intros (_ & _ & _ & _ & Ht)%CommandEnvelope_Validate_Ok. exact Ht. Qed.

Lemma validateRunCommand_Ok c m :
  validateRunCommand c = Ok tt -> RunCommand_Envelope c = Some m ->
  CommandEnvelope_Validate m = Ok tt /\ uuid_Parse_ok (RunCommand_RunID c) = true.
Proof.
  unfold validateRunCommand. intros Hv He. rewrite He in Hv.
  by apply res_bind_Ok in Hv as ([] & Hm & Hid%validateID_Ok).
Qed.

Lemma run_step_valid r c r' evs :
  1 <= Run_Revision r <= max_i64 -> run_step r c = Ok (r', evs) -> valid_run r'.
Proof.
  intros Hn (m & tr & rest & He & _ & _ & _ & Hv & Hvc & -> & _ & Hcase)%run_step_Ok.
  apply Run_Validate_Ok in Hv. destruct (validateRunCommand_Ok _ _ Hvc He) as [Hm _].
  assert (Hnext : valid_run (run_next tr) /\ Run_Revision (run_next tr) = Run_Revision r).
  { destruct Hcase as [[Ht _]|(_ & _ & _ & ->)].
    - split; [by eapply transition_valid|]. by apply transition_frame in Ht as (_ & ? & _).
    - split; [|done]. destruct Hv. by split. }
  destruct Hnext as [Hnext Hrev]. apply valid_finish; [done|by apply envelope_time|].
  rewrite Hrev. by apply u64_succ_nonzero.
Qed.

Lemma NewRun_valid c r evs : NewRun c = Ok (r, evs) -> valid_run r.
Proof.
  unfold NewRun. intros Hr. destruct c; try done. apply res_bind_Ok in Hr as ([] & Hv & Hr).
  destruct (validateRunCommand_Ok _ Meta Hv eq_refl) as [Hm Hid].
  repeat case_match; simplify_eq. split; cbn; try done; try (by left); by apply envelope_time.
Qed.

(** ** Tasks *)

Record valid_task (t : Task) : Prop := {
  vt_id : uuid_Parse_ok (Task_ID t) = true;
  vt_run : uuid_Parse_ok (Task_RunID t) = true;
  vt_state : TaskState_Validate (Task_State t) = Ok tt;
  vt_revision : Task_Revision t <> 0;
  vt_max : MaxAttempts t <> 0;
  vt_attempts : CurrentAttempt t <= MaxAttempts t;
  vt_created : IsZero (Task_CreatedAt t) = false;
  vt_updated : IsZero (Task_UpdatedAt t) = false;
  vt_lease : forall l, Lease t = Some l -> LeaseRef_Validate l = Ok tt;
  vt_proposal : valid_optional (Proposal t);
  vt_execution : valid_optional (Execution t);
  vt_verification : valid_optional (Verification t);
  vt_review : valid_optional (Review t);
  vt_approval : valid_optional (Approval t);
  vt_commit : commit_ok (CandidateCommit t);
}.

Lemma Task_Validate_Ok t : Task_Validate t = Ok tt <-> valid_task t.
Proof.
  unfold Task_Validate, validateSnapshot, validateBindings. split.
  - intros ([] & Hs & Hb)%res_bind_Ok.
    apply res_bind_Ok in Hs as ([] & Hid%validateID_Ok & ([] & Hrun%validateID_Ok & ([] & Hst & Hs)%res_bind_Ok)%res_bind_Ok).
    match type of Hs with (if ?b then _ else _) = _ => destruct b eqn:E; [done|] end.
    rewrite !orb_false_iff, !Z.eqb_neq, Z.ltb_ge in E. destruct_and! E.
    apply res_bind_Ok in Hb as ([] & Hl & ([] & Hf%for_each_Ok & Hc)%res_bind_Ok).
    rewrite !Forall_cons in Hf. destruct_and! Hf. apply commit_check in Hc. split; try done.
    intros l Hl'. by rewrite Hl' in Hl.
  - intros []. apply res_bind_Ok. exists tt. split.
    + apply res_bind_Ok. exists tt. split; [by apply validateID_Ok|].
      apply res_bind_Ok. exists tt. split; [by apply validateID_Ok|].
      apply res_bind_Ok. exists tt. split; [done|].
      assert ((Task_Revision t =? 0) = false) as -> by (by apply Z.eqb_neq).
      assert ((MaxAttempts t =? 0) = false) as -> by (by apply Z.eqb_neq).
      assert ((MaxAttempts t <? CurrentAttempt t) = false) as -> by (by apply Z.ltb_ge).
      by repeat match goal with Hz : IsZero _ = false |- _ => rewrite Hz; clear Hz end.
    + apply res_bind_Ok. exists tt. split; [destruct (Lease t); [auto|done]|].
      apply res_bind_Ok. exists tt. split; [|by apply commit_check].
      apply for_each_Ok. rewrite !Forall_cons. by split_and!.
Qed.

(** The attempts of a task, as the columns of its row bound them. *)
Lemma command_attempts t c tr :
  0 <= CurrentAttempt t <= MaxAttempts t -> MaxAttempts t <= max_u32 ->
  applyCommand t c = Ok tr -> CurrentAttempt (task_next tr) <= MaxAttempts (task_next tr).
Proof.
  intros Ht Hm Hr. destruct c; task_cases Hr; cbn; try lia.
  destruct_and?. rewrite Z.leb_gt in *. rewrite u32_id by lia. lia.
Qed.

Lemma command_valid t c tr :
  valid_task t -> 0 <= CurrentAttempt t -> MaxAttempts t <= max_u32 ->
  applyCommand t c = Ok tr -> valid_task (task_next tr).
Proof.
  intros Hv H0 Hm Hr. pose proof (command_attempts _ _ _ (conj H0 (vt_attempts _ Hv)) Hm Hr) as Hatt.
  assert (Hlease : forall l, Lease (task_next tr) = Some l -> LeaseRef_Validate l = Ok tt).
  { destruct Hv. intros l Hl. destruct c; try (task_cases Hr; cbn in Hl; by eauto).
    cbn in Hr. unfold Task_lease in Hr. go_run Hr. cbn in Hl. congruence. }
  destruct Hv. destruct c; task_cases Hr; destruct_and?; split; cbn in *; try done;
    repeat match goal with Hc : is_Ok _ = true |- _ => apply is_Ok_unit in Hc end;
    first [done|by left|by right|congruence].
Qed.

Lemma Task_Apply_valid_columns t c t' evs :
  1 <= Task_Revision t <= max_i64 -> 0 <= CurrentAttempt t -> MaxAttempts t <= max_u32 ->
  Task_Apply t c = Ok (t', evs) -> valid_task t'.
Proof.
  intros Hn H0 Hmax (m & tr & He & Hv & Ha & [= -> _])%Task_Apply_Ok.
  apply Task_validateCommand_Ok in Hv as (Hv & _ & _ & _ & Hc & _).
  apply Task_Validate_Ok in Hv. pose proof (command_valid _ _ _ Hv H0 Hmax Ha) as Hnext.
  pose proof (applyCommand_frame _ _ _ Ha) as (_ & _ & Hrev & _).
  unfold validateTaskCommand in Hc. rewrite He in Hc. apply res_bind_Ok in Hc as ([] & Hm & _).
  destruct Hnext. split; cbn; try done; [|by apply envelope_time].
  rewrite Hrev. by apply u64_succ_nonzero.
Qed.

End valid.

(** * Rows and snapshots are inverse to each other

    A run or a task that was written reads back as itself, with the canonical
    text of its identifiers and its instants cut to microseconds in the local
    zone; nothing else is lost.  The one instant that cannot be kept is within
    the first microsecond of the zero time, which reads back as the zero time
    and is refused by the validation. *)

(** ** Instants *)

(** An instant outside the first microsecond of the zero time. *)
Definition representable (t : time) : bool := (instant t <? 0) || (1000 <=? instant t).

Definition stored_time `{Platform} (t : time) : time := scan_time (time_column t).

Lemma stored_instant `{Platform} t :
  instant (stored_time t) <= instant t < instant (stored_time t) + 1000 /\
  (IsZero t = false -> representable t = true -> IsZero (stored_time t) = false) /\
  UnixMicro (stored_time t) = UnixMicro t.
Proof.
  unfold stored_time, scan_time, time_column, IsZero, representable. cbn [instant].
  pose proof (Z.div_mod (instant t - unix_epoch) 1000 ltac:(lia)) as Hd.
  pose proof (Z.mod_pos_bound (instant t - unix_epoch) 1000 ltac:(lia)) as Hm.
  unfold UnixMicro. cbn [instant].
  replace (unix_epoch + (instant t - unix_epoch) / 1000 * 1000 - unix_epoch)
    with ((instant t - unix_epoch) / 1000 * 1000) by lia.
  rewrite Z.div_mul by lia. split; [lia|]. split; [|done].
  rewrite orb_true_iff, Z.ltb_lt, Z.leb_le, !Z.eqb_neq. unfold unix_epoch in *. lia.
Qed.

(** ** Columns *)

Section codec.
Context `{Hlaws : PlatformLaws}.

Lemma nullable_text (a : option string) b : nullable text_column a = Ok b -> b = a.
Proof.
  unfold nullable. destruct a as [s|]; [|by intros [= <-]].
  intros (x & ->%text_column_Ok & [= <-])%res_bind_Ok. done.
Qed.

Lemma run_artifact_columns label (a : option ArtifactRef) :
  run_artifact label (uri_of a) (digest_of a) = Ok a.
Proof. by destruct a as [[]|]. Qed.

Lemma optional_columns (a : option ArtifactRef) : optionalArtifact (uri_of a) (digest_of a) = Ok a.
Proof. by destruct a as [[]|]. Qed.

Lemma hex_ascii n s : match_hex n s = true -> sanitize s = s.
Proof.
  intros [_ Hs]%andb_true_iff. apply sanitize_ascii. unfold is_ascii_text.
  induction s as [|c s IH]; [done|]. cbn in *. apply andb_true_iff in Hs as [Hc Hs].
  rewrite IH by done. rewrite andb_true_r. apply Z.ltb_lt.
  unfold is_lower_hex, is_digit, in_range in Hc.
  rewrite orb_true_iff, !andb_true_iff, !Z.leb_le in Hc.
  change (byte_of "9") with 57 in Hc. change (byte_of "f") with 102 in Hc. lia.
Qed.

(** What [validate_optional] accepts and the text of a URI that is valid UTF-8
    survive the JSON column. *)
Definition utf8_uri (a : option ArtifactRef) : bool :=
  match a with Some r => valid_utf8 (URI r) | None => true end.

Lemma artifact_trip a :
  validate_optional (Some a) = Ok tt -> utf8_uri (Some a) = true ->
  json_trip (artifact_tree a) = artifact_tree a.
Proof.
  intros Hv Hu. cbn in Hv, Hu. apply bool_decide_eq_true in Hu.
  unfold ArtifactRef_Validate in Hv.
  destruct (negb (absolute_request_uri authority_ok (URI a))); [done|].
  destruct (digestPattern (Digest a)) eqn:Hd; [|done].
  unfold artifact_tree. cbn [json_trip map]. by rewrite Hu, (hex_ascii 64 (Digest a)).
Qed.

Lemma lifecycle_trip r :
  Run_Validate r = Ok tt ->
  forallb utf8_uri [Run_Execution r; Run_Verification r; Run_Review r; Run_Approval r;
    Publication r; Merge r] = true ->
  json_trip (encodeRunLifecycle r) = encodeRunLifecycle r.
Proof.
  intros Hv Hu. unfold Run_Validate in Hv. go_run Hv.
  match goal with Hf : for_each validate_optional _ = Ok _ |- _ =>
    apply for_each_Ok in Hf; rewrite !Forall_cons in Hf; destruct_and! Hf end.
  cbn [forallb] in Hu. rewrite !andb_true_iff in Hu. destruct_and! Hu.
  assert (Ho : forall key a, sanitize key = key -> validate_optional a = Ok tt ->
    utf8_uri a = true ->
    Forall (fun f => sanitize f.1 = f.1 /\ json_trip f.2 = f.2) (omitempty key a)).
  { intros key [a|] Hk Ha Hua; [|constructor]. repeat constructor; cbn [fst snd]; [done|].
    by apply artifact_trip. }
  apply json_trip_fields.
  repeat apply Forall_app_2; try (by apply Ho).
  destruct (Run_CandidateCommit r != "") eqn:E; [|constructor]. repeat constructor; cbn [fst snd].
  cbn [json_trip]. rewrite (hex_ascii 40); [done|].
  match goal with Hc : _ && negb (commitPattern _) = false |- _ =>
    rewrite andb_false_iff, negb_false_iff in Hc; destruct Hc as [Hc|Hc] end; [congruence|done].
Qed.

Lemma json_field_omitempty key k a rest :
  json_field key (omitempty k a ++ rest) =
  (if k == key then match a with Some v => Some (artifact_tree v) | None => json_field key rest end
   else json_field key rest).
Proof. destruct a as [a|]; cbn; by destruct (k == key). Qed.

Lemma json_field_candidate key c rest :
  json_field key ((if c != "" then [("candidate_commit", JStr c)] else []) ++ rest) =
  (if ("candidate_commit" == key) && (c != "") then Some (JStr c) else json_field key rest).
Proof. destruct (c != ""); cbn; [|by rewrite andb_false_r]. rewrite andb_true_r. done. Qed.

Lemma lifecycle_decode r r0 :
  decodeRunLifecycle (encodeRunLifecycle r) r0 =
  Ok (mkRun (Run_ID r0) (Run_State r0) (Run_Revision r0) (Specification r0) (TaskGraph r0)
    (Run_Execution r) (Run_CandidateCommit r) (Run_Verification r) (Run_Review r)
    (Run_Approval r) (Publication r) (Merge r) (Run_CreatedAt r0) (Run_UpdatedAt r0)).
Proof.
  assert (Ha : forall a : option ArtifactRef,
    decode_artifact (match a with Some v => Some (artifact_tree v) | None => None end) = Ok a)
    by (by intros [[]|]).
  assert (Hc : decode_string (if Run_CandidateCommit r != "" then Some (JStr (Run_CandidateCommit r))
    else None) = Ok (Run_CandidateCommit r)).
  { case_bool_decide as E; cbn; [by rewrite E|done]. }
  unfold decodeRunLifecycle, encodeRunLifecycle.
  rewrite <- (app_nil_r (omitempty "merge" (Merge r))).
  rewrite !json_field_omitempty, !json_field_candidate, !json_field_omitempty. cbn [json_field].
  repeat match goal with |- context [bool_decide (?a = ?b)] =>
    first [change (bool_decide (a = b)) with true|change (bool_decide (a = b)) with false] end.
  cbn [andb]. rewrite !Ha. cbn. by rewrite Hc.
Qed.

(** ** Runs *)

(** What reads back of a run. *)
Definition stored_form (key : string) (r : Run) : Run :=
  mkRun key (Run_State r) (Run_Revision r) (Specification r) (TaskGraph r) (Run_Execution r)
    (Run_CandidateCommit r) (Run_Verification r) (Run_Review r) (Run_Approval r) (Publication r)
    (Merge r) (stored_time (Run_CreatedAt r)) (stored_time (Run_UpdatedAt r)).

Definition storable (r : Run) : bool :=
  representable (Run_CreatedAt r) && representable (Run_UpdatedAt r) &&
  forallb utf8_uri [Run_Execution r; Run_Verification r; Run_Review r; Run_Approval r;
    Publication r; Merge r].

Lemma stored_form_valid key r :
  Run_Validate r = Ok tt -> storable r = true -> uuid_column (Run_ID r) = Some key ->
  Run_Validate (stored_form key r) = Ok tt.
Proof.
  unfold storable. rewrite !andb_true_iff. intros Hv [[Hc Hu] _] Hk.
  unfold Run_Validate, validateID in *. cbn [stored_form Run_ID Run_State Run_Revision Specification
    TaskGraph Run_Execution Run_CandidateCommit Run_Verification Run_Review Run_Approval Publication
    Merge Run_CreatedAt Run_UpdatedAt] in *.
  apply res_bind_Ok in Hv as ([] & Hid & Hv).
  destruct (uuid_Parse_ok (Run_ID r)) eqn:Ep; [|done].
  destruct (uuid_text _ _ Ep Hk) as (_ & _ & ->). cbn.
  apply res_bind_Ok in Hv as ([] & Hst & Hv). rewrite Hst. cbn.
  destruct ((Run_Revision r =? 0) || IsZero (Run_CreatedAt r) || IsZero (Run_UpdatedAt r)) eqn:E;
    [done|]. rewrite !orb_false_iff in E. destruct E as [[-> Ezc] Ezu].
  destruct (stored_instant (Run_CreatedAt r)) as (_ & Hzc & _).
  destruct (stored_instant (Run_UpdatedAt r)) as (_ & Hzu & _).
  rewrite Hzc, Hzu by done. exact Hv.
Qed.

Lemma run_row_round_trip key r row :
  Run_Validate r = Ok tt -> storable r = true -> uuid_column (Run_ID r) = Some key ->
  row_of_run r = Ok row -> run_of_row key row = Ok (stored_form key r).
Proof.
  intros Hv Hs Hk Hrow. pose proof (stored_form_valid _ _ Hv Hs Hk) as Hvalid.
  unfold storable in Hs. apply andb_true_iff in Hs as [_ Hu].
  unfold row_of_run in Hrow. go_run Hrow.
  repeat match goal with
  | Hx : nullable text_column _ = Ok _ |- _ => apply nullable_text in Hx as ->
  | Hx : bigint_param _ = Ok _ |- _ => apply bigint_param_Ok in Hx as [-> _]
  | Hx : jsonb_column _ = Ok _ |- _ => apply jsonb_column_Ok in Hx as ->
  end.
  unfold run_of_row. cbn [rr_specification_uri rr_specification_digest rr_task_graph_uri
    rr_task_graph_digest rr_lifecycle rr_state rr_revision rr_created rr_updated].
  rewrite !run_artifact_columns, lifecycle_trip by done.
  unfold mbind, res_bind. rewrite lifecycle_decode. cbn [Run_ID Run_State Run_Revision Specification
    TaskGraph Run_CreatedAt Run_UpdatedAt].
  change (mkRun key _ _ _ _ _ _ _ _ _ _ _ _ _) with (stored_form key r). by rewrite Hvalid.
Qed.

(** ** Tasks *)

(** The canonical text of a stored identifier. *)
Definition canonical (s : string) : string := default s (uuid_column s).

Definition stored_lease (l : LeaseRef) : LeaseRef :=
  mkLease (canonical (Lease_ID l)) (canonical (OwnerID l)) (stored_time (ExpiresAt l))
    (FencingToken l).

Definition stored_task_form (t : Task) : Task :=
  mkTask (canonical (Task_ID t)) (canonical (Task_RunID t)) (Task_State t) (Task_Revision t)
    (MaxAttempts t) (CurrentAttempt t) (stored_lease <$> Lease t) (Proposal t) (Execution t)
    (CandidateCommit t) (Verification t) (Review t) (Approval t)
    (stored_time (Task_CreatedAt t)) (stored_time (Task_UpdatedAt t)).

(** The fencing token is a uint32 in the code. *)
Definition storable_task (t : Task) : bool :=
  representable (Task_CreatedAt t) && representable (Task_UpdatedAt t) &&
  match Lease t with
  | Some l => representable (ExpiresAt l) && (0 <=? FencingToken l) && (FencingToken l <=? max_u32)
  | None => true
  end.

Lemma canonical_column s k : uuid_column s = Some k -> canonical s = k.
Proof. unfold canonical. by intros ->. Qed.

Lemma canonical_text s k :
  uuid_Parse_ok s = true -> uuid_column s = Some k -> uuid_Parse_ok (canonical s) = true.
Proof. intros Hp Hk. rewrite (canonical_column _ _ Hk). by destruct (uuid_text _ _ Hp Hk) as (_ & _ & ?). Qed.

Lemma nullable_uuid a b :
  nullable uuid_param a = Ok b ->
  b = canonical <$> a /\ (forall s, a = Some s -> is_Some (uuid_column s)).
Proof.
  unfold nullable. destruct a as [s|]; [|by intros [= <-]].
  intros (x & Hx%uuid_param_Ok & [= <-])%res_bind_Ok. cbn.
  rewrite (canonical_column _ _ Hx). split; [done|]. intros ? [= <-]. eauto.
Qed.

Lemma stored_lease_valid l :
  LeaseRef_Validate l = Ok tt -> representable (ExpiresAt l) = true ->
  is_Some (uuid_column (Lease_ID l)) -> is_Some (uuid_column (OwnerID l)) ->
  LeaseRef_Validate (stored_lease l) = Ok tt.
Proof.
  unfold LeaseRef_Validate. intros Hv Hr [k Hk] [o Ho].
  apply res_bind_Ok in Hv as ([] & Hid%validateID_Ok & Hv).
  apply res_bind_Ok in Hv as ([] & Hown%validateID_Ok & Hv).
  destruct (IsZero (ExpiresAt l)) eqn:Ez; [done|].
  destruct (FencingToken l =? 0) eqn:Ef; [done|].
  apply res_bind_Ok. exists tt. split; [by eapply validateID_Ok, canonical_text|].
  apply res_bind_Ok. exists tt. split; [by eapply validateID_Ok, canonical_text|].
  unfold stored_lease. cbn [ExpiresAt FencingToken].
  destruct (stored_instant (ExpiresAt l)) as (_ & Hz & _). by rewrite Hz, Ef.
Qed.

Lemma stored_task_valid t :
  valid_task t -> storable_task t = true ->
  is_Some (uuid_column (Task_ID t)) -> is_Some (uuid_column (Task_RunID t)) ->
  (forall l, Lease t = Some l -> is_Some (uuid_column (Lease_ID l)) /\ is_Some (uuid_column (OwnerID l))) ->
  valid_task (stored_task_form t).
Proof.
  unfold storable_task. rewrite !andb_true_iff. intros [] [[Hc Hu] Hl] [k Hk] [o Ho] Hcol.
  split; cbn; try done; try (by eapply canonical_text); try (by apply stored_instant).
  intros l Hsl. destruct (Lease t) as [l0|] eqn:El; [|done]. injection Hsl as <-.
  rewrite !andb_true_iff in Hl. destruct (Hcol _ eq_refl) as [? ?].
  apply stored_lease_valid; try done; auto. tauto.
Qed.

Lemma row_bindings_apply t b t0 :
  taskBindingValues t = Ok b -> storable_task t = true -> valid_task t ->
  CandidateCommit t0 = "" -> bindings_apply b t0 =
  Ok (mkTask (Task_ID t0) (Task_RunID t0) (Task_State t0) (Task_Revision t0) (MaxAttempts t0)
    (CurrentAttempt t0) (stored_lease <$> Lease t) (Proposal t) (Execution t) (CandidateCommit t)
    (Verification t) (Review t) (Approval t) (Task_CreatedAt t0) (Task_UpdatedAt t0)) /\
  (forall l, Lease t = Some l -> is_Some (uuid_column (Lease_ID l)) /\ is_Some (uuid_column (OwnerID l))).
Proof.
  intros Hb Hs Hv Hc. unfold taskBindingValues in Hb. go_run Hb.
  repeat match goal with
  | Hx : nullable text_column _ = Ok _ |- _ => apply nullable_text in Hx as ->
  | Hx : nullable uuid_param _ = Ok _ |- _ => apply nullable_uuid in Hx as [-> ?]
  end.
  split.
  2: { intros l Hl. rewrite Hl in *. cbn in *. auto. }
  unfold bindings_apply. cbn [leaseID leaseOwner leaseExpiry leaseFence proposalURI proposalDigest
    executionURI executionDigest candidateCommit verificationURI verificationDigest reviewURI
    reviewDigest approvalURI approvalDigest].
  rewrite !optional_columns.
  assert (Hl : applyLease (mkTaskRowBindings (canonical <$> (Lease_ID <$> Lease t))
    (canonical <$> (OwnerID <$> Lease t)) (time_column ∘ ExpiresAt <$> Lease t)
    (FencingToken <$> Lease t) None None None None None None None None None None None) =
    Ok (stored_lease <$> Lease t)).
  { unfold applyLease. destruct (Lease t) as [l|] eqn:El; [|done]. cbn.
    pose proof (vt_lease _ Hv l El) as Hlv. apply LeaseRef_Validate_Ok in Hlv as [Hne _].
    unfold storable_task in Hs. rewrite El, !andb_true_iff, !Z.leb_le in Hs.
    assert ((FencingToken l <? 1) = false) as -> by (apply Z.ltb_ge; lia).
    assert ((max_u32 <? FencingToken l) = false) as -> by (apply Z.ltb_ge; lia). done. }
  change (applyLease _) with (applyLease (mkTaskRowBindings (canonical <$> (Lease_ID <$> Lease t))
    (canonical <$> (OwnerID <$> Lease t)) (time_column ∘ ExpiresAt <$> Lease t)
    (FencingToken <$> Lease t) None None None None None None None None None None None)).
  rewrite Hl. cbn. rewrite Hc. do 2 f_equal. case_bool_decide; cbn; congruence.
Qed.

Lemma task_row_round_trip key t row :
  valid_task t -> storable_task t = true -> uuid_column (Task_ID t) = Some key ->
  row_of_task t = Ok row -> task_of_row key row = Ok (stored_task_form t).
Proof.
  intros Hv Hs Hk Hrow. unfold row_of_task in Hrow. go_run Hrow.
  repeat match goal with
  | Hx : bigint_param _ = Ok _ |- _ => apply bigint_param_Ok in Hx as [-> _]
  | Hx : uuid_param _ = Ok _ |- _ => apply uuid_param_Ok in Hx
  | Hx : int_param _ = Ok _ |- _ => unfold int_param in Hx; case_match; [injection Hx as <-|done]
  end.
  unfold task_of_row.
  destruct (row_bindings_apply t x3 (mkTask key x (Task_State t) (Task_Revision t) (MaxAttempts t)
    (CurrentAttempt t) None None None "" None None None (stored_time (Task_CreatedAt t))
    (stored_time (Task_UpdatedAt t)))) as [Happ Hcol]; [done..|].
  cbn [tr_bindings tr_run tr_state tr_revision tr_max_attempts tr_current_attempt tr_created tr_updated].
  unfold stored_time in Happ. unfold mbind, res_bind. rewrite Happ.
  cbn [Task_ID Task_RunID Task_State Task_Revision MaxAttempts CurrentAttempt Task_CreatedAt
    Task_UpdatedAt].
  pose proof (stored_task_valid t Hv Hs ltac:(eauto) ltac:(eauto) Hcol) as Hsv%Task_Validate_Ok.
  unfold stored_task_form in *. erewrite (canonical_column (Task_ID t)) in * by done.
  erewrite (canonical_column (Task_RunID t)) in * by done. unfold stored_time in *. by rewrite Hsv.
Qed.

(** C34: A valid run or task that its columns can keep reads back from its row as itself, with the
    canonical text of its identifiers and its instants cut to microseconds: every state, revision,
    artifact, commit, lease and attempt survives.  What the columns can keep is [storable] and
    [storable_task], which the validation does not ensure: the URIs of the artifacts in the JSON
    column of a run are valid UTF-8, since the encoding replaces other bytes; the instants are not
    within the first microsecond of the year 1, which reads back as the zero time; and the fencing
    token of a lease is a uint32, as its Go type is.  The row itself has to be accepted by the
    statement ([row_of_run], [row_of_task]), and the identifiers have to be uuids. *)
Theorem rows_round_trip key r row tkey t trow :
  Run_Validate r = Ok tt -> storable r = true -> uuid_column (Run_ID r) = Some key ->
  row_of_run r = Ok row ->
  Task_Validate t = Ok tt -> storable_task t = true -> uuid_column (Task_ID t) = Some tkey ->
  row_of_task t = Ok trow ->
  run_of_row key row = Ok (stored_form key r) /\ task_of_row tkey trow = Ok (stored_task_form t).
Proof.
  intros Hr Hs Hk Hrow Ht%Task_Validate_Ok Hst Htk Htrow.
  split; [by apply run_row_round_trip|by apply task_row_round_trip].
Qed.

End codec.

Lemma rows_round_trip_witness :
  exists row trow, row_of_run approved_run = Ok row /\ row_of_task leased_task = Ok trow /\
    run_of_row "run-1" row = Ok (stored_form "run-1" approved_run) /\
    task_of_row "task-1" trow = Ok (stored_task_form leased_task).
Proof.
  destruct (row_of_run approved_run) as [row|] eqn:Hr; [|vm_compute in Hr; discriminate Hr].
  destruct (row_of_task leased_task) as [trow|] eqn:Ht; [|vm_compute in Ht; discriminate Ht].
  exists row, trow. split; [reflexivity|]. split; [reflexivity|].
  apply rows_round_trip; try exact Hr; try exact Ht; vm_compute; reflexivity.
Defined.
