(* ===== verification/WfInvariants.v ===== *)
(** * What always holds of the workflow tables

    The databases that histories of executed commands can reach, under any
    faults, retries and competing transactions, and the invariants of their
    rows: delivery gates, cancellation, pending tasks and the event log. *)

From S2P Require Import Prelude GoStd GoJson PgRetry WfTypes WfTask WfPlan WfRun.
From S2P Require Import WfDigest WfDb WfStore WfStoreLemmas Samples WfTaskProps WfPlanProps WfRunProps WfStoreTx WfReplay.

(** ** Histories *)

Inductive reachable `{Platform} : db -> Prop :=
| reachable_empty : reachable empty_db
| reachable_execute climate ctx_done c s res s' :
    reachable s ->
    (forall n o e, climate n = OvertakenBy o e -> reachable o) ->
    execute climate ctx_done c s = (res, s') -> reachable s'
| reachable_tx inject concurrent c s r s' :
    reachable s -> ExecuteRunTx inject concurrent c s = Ok (r, s') -> reachable s'.

(** A property of the tables that every committed command keeps. *)
Record kept `{Platform} (I : db -> Prop) : Prop := {
  kept_empty : I empty_db;
  kept_run : forall c meta s s' r, I s -> validateRunCommand c = Ok tt ->
    RunCommand_Envelope c = Some meta -> run_commit c meta s s' r -> I s';
  kept_task : forall c meta s s' r, I s -> validateTaskCommand c = Ok tt ->
    TaskCommand_Envelope c = Some meta -> task_commit c meta s s' r -> I s';
}.

Section reachable.
Context `{Hlaws : PlatformLaws}.

Lemma transaction_kept (I : db -> Prop) c inject conc digest s r s' :
  kept I -> I s -> validate c = Ok tt -> transaction c inject conc digest s = Ok (r, s') -> I s'.
Proof.
  intros [_ Hrun Htask] Hs Hv Ht. destruct c as [c|c]; cbn in *.
  - apply executeRunTransaction_Ok in Ht as (m & Hm & [[-> _]|[_ [rc]]]); [done|]. by eapply Hrun.
  - apply executeTaskTransaction_Ok in Ht as (m & Hm & [[-> _]|[_ [tc]]]); [done|]. by eapply Htask.
Qed.

Lemma reachable_kept (I : db -> Prop) s : kept I -> reachable s -> I s.
Proof.
  intros HI. induction 1 as [|climate cd c s res s' _ IH _ IHo Hr|inject conc c s r s' _ IH Hr].
  - apply (kept_empty I HI).
  - destruct (execute_cases climate cd c s) as [[e He]|(meta & d & Hv & Hd & He)].
    { rewrite He in Hr. by injection Hr as _ <-. }
    rewrite (execute_unfold _ _ _ _ _ _ Hv Hd He) in Hr. unfold RetryTransaction in Hr.
    pose proof (retry_loop_invariant
      (fun n => attempt (fun inject others => transaction c inject others d) (commit_label c)
        (CommandID meta) d (climate n)) cd I MaxTransactionAttempts 0 s) as Hinv.
    rewrite Hr in Hinv. apply Hinv; [|done]. clear -IHo HI Hv Hlaws. intros n x Hx.
    assert (Hbody : forall inj conc r x', transaction c inj conc d x = Ok (r, x') -> I x')
      by (intros; by eapply transaction_kept).
    specialize (IHo n). unfold attempt. destruct (climate n); repeat case_match; simplify_eq; cbn;
      by eauto.
  - unfold ExecuteRunTx in Hr. destruct inject as [inject|]; [|done]. tx_open Hr.
    unfold no_replay in Hr. case_match eqn:E; [|by case_match]. injection Hr as ->.
    eapply (transaction_kept I (inl c)); [done|done| |exact E].
    match goal with Hv : validateRunCommand c = Ok ?u |- _ => by destruct u end.
Qed.

(** ** Phases of a run *)

Definition before_plan (s : RunState) : bool :=
  match s with
  | RunStateDraft | RunStateSpecificationReview | RunStateTaskPlanning
  | RunStateTaskPlanReview => true
  | _ => false
  end.

(** The states in which the run delivers what its tasks produced. *)
Definition delivering (s : RunState) : bool :=
  match s with
  | RunStateVerifying | RunStateReviewing | RunStateAwaitingApproval
  | RunStateMergeReady | RunStateMerged => true
  | _ => false
  end.

(** How [Run.Apply] moves between the phases. *)
Lemma Run_Apply_phases r c r' evs :
  Run_Apply r c = Ok (r', evs) ->
  (before_plan (Run_State r') = true -> before_plan (Run_State r) = true) /\
  (delivering (Run_State r') = true -> gate_of c = gate_completed) /\
  (Run_State r' = RunStateCancelled -> exists m i reason, c = CancelRun m i reason) /\
  Run_State r' <> RunStateReady.
Proof.
  intros (m & tr & _ & _ & Ht & [= -> _])%Run_Apply_Ok. cbn [Run_State set_Run_UpdatedAt set_Run_Revision].
  destruct c; run_cases Ht; cbn;
    repeat match goal with Hs : Run_State r = _ |- _ => rewrite Hs in * end;
    (split_and!; intros; try done; eauto).
Qed.

(** ** The structure of the tables *)

Definition tasks_of (s : db) (run : string) (p : task_row -> Prop) : Prop :=
  forall id row, tasks s !! id = Some row -> tr_run row = run -> p row.

Record structure (s : db) : Prop := {
  st_owner : forall id row, tasks s !! id = Some row -> is_Some (runs s !! tr_run row);
  st_unplanned : forall run r, runs s !! run = Some r -> before_plan (rr_state r) = true ->
    tasks_of s run (fun _ => False);
  st_deps : forall run t p, (run, t, p) ∈ deps s ->
    task_in_run s run t = true /\ task_in_run s run p = true;
}.

(** Delivery gate: while a run delivers, it has tasks and all are accepted.
    Cancellation: no task of a cancelled run is left open. *)
Record gates (s : db) : Prop := {
  gt_structure : structure s;
  gt_delivering : forall run r, runs s !! run = Some r -> delivering (rr_state r) = true ->
    tasks_of s run (fun row => tr_state row = TaskStateAccepted) /\
    exists id row, tasks s !! id = Some row /\ tr_run row = run;
  gt_cancelled : forall run r, runs s !! run = Some r -> rr_state r = RunStateCancelled ->
    tasks_of s run (fun row => TaskState_Terminal (tr_state row) = true);
}.

Lemma row_of_run_Ok r row :
  row_of_run r = Ok row -> rr_state row = Run_State r /\ rr_revision row = Run_Revision r.
Proof.
  unfold row_of_run, bigint_param. intros Hr. go_run Hr. repeat case_match; simplify_eq/=. done.
Qed.

(** The task rows after a committed task command. *)
Lemma task_commit_lookup c meta s s' r (tc : task_commit c meta s s' r) id row' :
  tasks s' !! id = Some row' ->
  exists row, tasks s !! id = Some row /\ tr_run row' = tr_run row /\
    (row' = row \/
     tr_run row = tc_run _ _ _ _ _ tc /\
     (id = tc_id _ _ _ _ _ tc /\ row' = tc_new _ _ _ _ _ tc \/
      tr_state row = TaskStatePending /\ tr_state row' = TaskStateReady /\
      tr_revision row' = tr_revision row + 1)).
Proof.
  destruct tc as [run tid rrow old new cur nxt ev ready rows Hrk Htk Hg (Hold & Hrun & Hcur) Happ
    (row0 & Hrow0 & Hnew & Hid) [Hnd Hready] Hev Hres Hfin]; cbn.
  rewrite Hfin. cbn [tasks]. rewrite bump_all_lookup by done. rewrite Hnew in *.
  destruct (decide (id = tid)) as [->|Hne].
  - rewrite lookup_insert_eq. case_decide as Hin; cbn; intros [= <-].
    + exfalso. apply list_elem_of_fmap in Hin as ([i rev] & -> & Hin).
      apply Hready in Hin as (Hacc & x & _ & Hx & _ & Hst & _). cbn in Hx.
      rewrite lookup_insert_eq in Hx. injection Hx as <-. congruence.
    + exists old. split; [done|]. cbn. auto 10.
  - rewrite lookup_insert_ne by done. case_decide as Hin.
    + apply list_elem_of_fmap in Hin as ([i rev] & -> & Hin).
      apply Hready in Hin as (Hacc & x & _ & Hx & Hxr & Hst & Hrev & _). cbn [fst] in *.
      rewrite lookup_insert_ne in Hx by done. rewrite Hx. cbn. intros [= <-].
      exists x. cbn. auto 15.
    + intros Hrow. exists row'. auto.
Qed.

(** No task row disappears, and none changes its run. *)
Lemma task_commit_domain c meta s s' r (tc : task_commit c meta s s' r) id row :
  tasks s !! id = Some row -> exists row', tasks s' !! id = Some row' /\ tr_run row' = tr_run row.
Proof.
  intros Hrow. destruct (tasks s' !! id) as [row'|] eqn:E.
  - destruct (task_commit_lookup _ _ _ _ _ tc _ _ E) as (row0 & Hr & Hrun & _).
    exists row'. split; [done|]. congruence.
  - exfalso. rewrite (tc_final _ _ _ _ _ tc) in E. cbn [tasks] in E.
    apply bump_all_None in E; [|apply (tc_ready_spec _ _ _ _ _ tc)].
    apply lookup_insert_None in E as [E _]. congruence.
Qed.

Lemma task_in_run_mono s s' run t :
  (forall id row, tasks s !! id = Some row ->
     exists row', tasks s' !! id = Some row' /\ tr_run row' = tr_run row) ->
  task_in_run s run t = true -> task_in_run s' run t = true.
Proof.
  intros Hm (row & Hrow & Hrun)%task_in_run_spec. destruct (Hm _ _ Hrow) as (row' & ? & ?).
  apply task_in_run_spec. exists row'. split; [done|congruence].
Qed.

Lemma task_commit_runs c meta s s' r :
  task_commit c meta s s' r -> runs s' = runs s /\ deps s' = deps s.
Proof. intros tc. by rewrite (tc_final _ _ _ _ _ tc). Qed.

Lemma structure_task c meta s s' r :
  structure s -> task_commit c meta s s' r -> structure s'.
Proof.
  intros [H1 H2 H3] tc. destruct (task_commit_runs _ _ _ _ _ tc) as [Hr Hd]. split.
  - intros id row' Hrow. destruct (task_commit_lookup _ _ _ _ _ tc _ _ Hrow) as (row & Hl & -> & _).
    rewrite Hr. by eapply H1.
  - intros run rr. rewrite Hr. intros Hrr Hb id row' Hrow Hrun.
    destruct (task_commit_lookup _ _ _ _ _ tc _ _ Hrow) as (row & Hl & Hsame & _).
    apply (H2 run rr Hrr Hb id row Hl). congruence.
  - intros run t p. rewrite Hd. intros Hin. apply H3 in Hin as [Ht Hp].
    split; eapply task_in_run_mono; try done; intros; by eapply task_commit_domain.
Qed.

(** A task command only changes tasks of a run that executes. *)
Lemma task_commit_executing c meta s s' r (tc : task_commit c meta s s' r) :
  gates s -> rr_state (tc_run_row _ _ _ _ _ tc) = RunStateExecuting.
Proof.
  intros [_ _ Hcan]. destruct (tc_gate _ _ _ _ _ tc) as [Hrow Hst].
  destruct (tc_loaded _ _ _ _ _ tc) as (Hold & Hrun & Hcur).
  destruct c; try done. exfalso.
  specialize (Hcan _ _ Hrow Hst _ _ Hold Hrun).
  apply task_of_row_Ok in Hcur as (_ & _ & Hs & _).
  pose proof (tc_applied _ _ _ _ _ tc) as Happ.
  apply Task_Apply_Ok in Happ as (m & tr & _ & Hv & _).
  apply Task_validateCommand_Ok in Hv as (_ & _ & _ & Hterm & _). congruence.
Qed.

Lemma gates_task c meta s s' r : gates s -> task_commit c meta s s' r -> gates s'.
Proof.
  intros Hg tc. pose proof (task_commit_executing _ _ _ _ _ tc Hg) as Hex.
  destruct (tc_gate _ _ _ _ _ tc) as [Hrow _].
  pose proof (task_commit_runs _ _ _ _ _ tc) as [Hr _].
  destruct Hg as [Hst Hdel Hcan].
  (* rows of runs in another state are as they were *)
  assert (Hsame : forall run rr, runs s !! run = Some rr -> rr_state rr <> RunStateExecuting ->
    forall id row', tasks s' !! id = Some row' -> tr_run row' = run -> tasks s !! id = Some row').
  { intros run rr Hrr Hne id row' Hl Hrun.
    destruct (task_commit_lookup _ _ _ _ _ tc _ _ Hl) as (row & Hl0 & Heq & [->|[Hrr' _]]); [done|].
    exfalso. assert (run = tc_run _ _ _ _ _ tc) as -> by congruence. congruence. }
  split; [by eapply structure_task|..]; intros run rr; rewrite Hr; intros Hrr Hs.
  - assert (rr_state rr <> RunStateExecuting) as Hne by (intros E; by rewrite E in Hs).
    destruct (Hdel run rr Hrr Hs) as [Hall (id & row & Hl & Hrun)]. split.
    + intros i row' Hl' Hrun'. eapply Hall; [|exact Hrun']. by eapply Hsame.
    + destruct (task_commit_domain _ _ _ _ _ tc _ _ Hl) as (row' & ? & ?).
      exists id, row'. split; [done|congruence].
  - assert (rr_state rr <> RunStateExecuting) as Hne by congruence.
    intros i row' Hl' Hrun'. eapply (Hcan run rr Hrr Hs); [|exact Hrun']. by eapply Hsame.
Qed.

(** ** Run commands *)

Lemma decided_planned cur c d t :
  decideRunCommand cur c = Ok d -> t ∈ decision_tasks d ->
  exists m g defs dps, c = ApproveTaskGraph m (Run_ID cur) g defs dps /\
    Run_State cur = RunStateTaskPlanReview /\ Run_State (next d) = RunStateReady /\
    Run_ID (next d) = Run_ID cur /\ Task_RunID t = Run_ID cur /\ Task_Revision t = 1 /\
    decision_dependencies d = dps /\ well_formed_plan (Run_ID cur) defs dps /\
    exists gr, graph_of dps gr /\
      exists def, def ∈ defs /\ t = fst (buildPlannedTask (Run_ID cur) (incoming gr) m def).
Proof.
  intros [_ Hr]%decideRunCommand_Ok Ht.
  destruct c; lazy iota beta in Hr;
    try (destruct Hr as (_ & Hts & _); rewrite Hts in Ht; by apply elem_of_nil in Ht).
  apply Run_ApproveTaskGraph_Ok in Hr as
    (m & g & defs & dps & gr & evs & [= -> -> -> -> ->] & _ & _ & _ & Hst & _ & _ & Hgr & Hp & Hd).
  cbn in Hp. injection Hd as Hn _. apply NewPlannedTasks_Ok in Hp as (Hw & Hdps & g' & Hg' & [= Hts _]).
  rewrite Hts in Ht. rewrite map_map in Ht. apply list_elem_of_fmap in Ht as (def & -> & Hdef).
  assert (Hn' : Run_State (next d) = RunStateReady /\ Run_ID (next d) = Run_ID cur)
    by (rewrite Hn, Hgr; done).
  destruct Hn' as [Hns Hnid].
  eexists _, _, _, _. split; [reflexivity|].
  assert (Hb : Task_RunID (buildPlannedTask (Run_ID cur) (incoming g') m def).1 = Run_ID cur /\
    Task_Revision (buildPlannedTask (Run_ID cur) (incoming g') m def).1 = 1)
    by (unfold buildPlannedTask; by case_match).
  destruct Hb as [Hb1 Hb2].
  split_and!; try done. exists g'. eauto.
Qed.

Lemma completed_gate_passed c s u s' :
  validateRunTaskGate c s = Ok (u, s') -> gate_of c = gate_completed ->
  exists run, uuid_column (RunCommand_RunID c) = Some run /\
    tasks_of s run (fun row => tr_state row = TaskStateAccepted) /\
    exists i row, tasks s !! i = Some row /\ tr_run row = run.
Proof.
  unfold validateRunTaskGate. intros Hg Hgate. rewrite Hgate in Hg. tx_open Hg.
  rewrite uuid_param_Ok in *. rewrite orb_false_iff, Z.eqb_neq, negb_false_iff, Z.eqb_eq in *.
  destruct_and!. exists x. split; [done|]. split.
  - intros i row Hl Hrun. eapply bool_decide_unpack, Is_true_eq_left.
    by apply (count_tasks_all s x (fun r => tr_state r == TaskStateAccepted) H1 i).
  - unfold count_tasks in *.
    destruct (tasks_where s x (fun _ => true)) as [|[i row] l] eqn:E; [cbn in *; lia|].
    assert ((i, row) ∈ tasks_where s x (fun _ => true)) as Hin by (rewrite E; set_solver).
    apply tasks_where_spec in Hin as (? & ? & _). eauto.
Qed.

Section run_commit.
Context (c : RunCommand) (meta : CommandEnvelope) (s s' : db) (r : CommandResult).
Context (rc : run_commit c meta s s' r).

#[local] Abbreviation id := (rc_id _ _ _ _ _ rc).
#[local] Abbreviation d := (rc_decision _ _ _ _ _ rc).
#[local] Abbreviation cur := (current (rc_decision _ _ _ _ _ rc)).

Lemma rc_new_state : rr_state (rc_new _ _ _ _ _ rc) = Run_State (next d) /\
  rr_revision (rc_new _ _ _ _ _ rc) = Run_Revision (next d).
Proof.
  destruct (row_of_run_Ok _ _ (rc_written _ _ _ _ _ rc)) as [H1 H2].
  pose proof (rc_loaded _ _ _ _ _ rc) as Hl.
  destruct c; lazy iota beta in Hl;
    first [destruct Hl as (old & _ & _ & _ & ->); done | destruct Hl as [_ ->]; done].
Qed.

(** What was there before: nothing for a new run, else the row of [cur]. *)
Lemma rc_before :
  (exists m i, c = CreateRun m i) /\ runs s !! id = None /\ NewRun c = Ok (next d, decision_events d) \/
  exists old, runs s !! id = Some old /\ rr_state old = Run_State cur /\
    rr_revision old = Run_Revision cur /\ Run_ID cur = id /\
    (forall m i, c <> CreateRun m i).
Proof.
  pose proof (rc_loaded _ _ _ _ _ rc) as Hl.
  pose proof (decideRunCommand_Ok _ _ _ (rc_decided _ _ _ _ _ rc)) as [_ Hd].
  destruct c; lazy iota beta in Hl, Hd;
    first [left; destruct Hl as [Hl _]; destruct Hd as [Hd _]; by eauto
          |right; destruct Hl as (old & _ & Hold & Hrow & _);
           apply run_of_row_Ok in Hrow as (-> & -> & -> & _); exists old; by split_and!].
Qed.

Lemma rc_runs : runs s' = <[id := rc_new _ _ _ _ _ rc]> (runs s).
Proof. exact (f_equal runs (rc_final _ _ _ _ _ rc)). Qed.

Lemma rc_tasks_eq : tasks s' = list_to_map (rc_tasks _ _ _ _ _ rc) ∪
  bump_all TaskStateCancelled (Timestamp meta) (rc_cancelled _ _ _ _ _ rc) (tasks s).
Proof. exact (f_equal tasks (rc_final _ _ _ _ _ rc)). Qed.

Lemma rc_deps_eq : deps s' = list_to_set (rc_deps _ _ _ _ _ rc) ∪ deps s.
Proof. exact (f_equal deps (rc_final _ _ _ _ _ rc)). Qed.

Lemma rc_new_task i row :
  (i, row) ∈ rc_tasks _ _ _ _ _ rc ->
  exists t, t ∈ decision_tasks d /\ task_inserted s t (i, row) /\ tr_run row = id /\
    tr_state row = Task_State t /\ tr_revision row = 1.
Proof.
  intros Hin. destruct (rc_inserted _ _ _ _ _ rc) as (Hf & _).
  destruct (Forall2_in_r _ _ _ _ Hf Hin) as (t & Ht & Hins). exists t.
  destruct (decided_planned _ _ _ _ (rc_decided _ _ _ _ _ rc) Ht) as
    (m & g & defs & dps & _ & _ & _ & Hnid & Htr & Hrev & _).
  destruct Hins as (Hcol & Hrow & Hsome). cbn in *.
  destruct (row_of_task_Ok _ _ Hrow) as (Hrun & Hst & Hr & _).
  pose proof (rc_key _ _ _ _ _ rc) as Hkey. rewrite Hnid in Hkey. rewrite Htr in Hrun.
  split; [done|]. split; [done|]. split; [congruence|]. split; congruence.
Qed.

Lemma run_commit_lookup i row' :
  tasks s' !! i = Some row' ->
  (i, row') ∈ rc_tasks _ _ _ _ _ rc \/
  (i ∉ (rc_tasks _ _ _ _ _ rc).*1) /\
  exists row, tasks s !! i = Some row /\ tr_run row' = tr_run row /\
    (row' = row \/
     (exists m j reason, c = CancelRun m j reason) /\ tr_run row = id /\
     TaskState_Terminal (tr_state row) = false /\ tr_state row' = TaskStateCancelled /\
     tr_revision row' = tr_revision row + 1).
Proof.
  rewrite rc_tasks_eq.
  destruct (rc_inserted _ _ _ _ _ rc) as (_ & Hnd & _).
  intros [Hl|[Hn Hl]]%lookup_union_Some_raw; [left|right].
  - by apply elem_of_list_to_map_2 in Hl.
  - split; [by apply not_elem_of_list_to_map_2|].
    pose proof (rc_cancel _ _ _ _ _ rc) as Hcan.
    destruct c; lazy iota beta in Hcan;
      try (destruct Hcan as [Hcs _]; rewrite Hcs in Hl; exists row'; by auto).
    destruct Hcan as (Hndc & Hcs & _). rewrite bump_all_lookup in Hl by done.
    case_decide as Hin; [|exists row'; by auto].
    apply list_elem_of_fmap in Hin as ([j rev] & -> & Hin).
    apply Hcs in Hin as (row & Hrow & Hrun & Hterm & Hrev). cbn [fst] in *.
    rewrite Hrow in Hl. injection Hl as <-. exists row. cbn. split_and!; [done|done|].
    right. split_and!; eauto.
Qed.

Lemma run_commit_domain i row :
  tasks s !! i = Some row -> exists row', tasks s' !! i = Some row' /\ tr_run row' = tr_run row.
Proof.
  intros Hrow. destruct (tasks s' !! i) as [row'|] eqn:E.
  - destruct (run_commit_lookup _ _ E) as [Hin|(_ & row0 & Hr & Hrun & _)].
    + exfalso. destruct (rc_inserted _ _ _ _ _ rc) as (_ & _ & Hfresh).
      specialize (Hfresh _ Hin). cbn in Hfresh. congruence.
    + exists row'. split; [done|]. congruence.
  - exfalso. rewrite rc_tasks_eq in E.
    apply lookup_union_None in E as [_ E].
    apply bump_all_None in E; [congruence|].
    pose proof (rc_cancel _ _ _ _ _ rc) as Hcan.
    destruct c; lazy iota beta in Hcan; try (destruct Hcan as [-> _]; constructor). by destruct Hcan.
Qed.

(** The run in the phases. *)
Lemma rc_phases :
  structure s ->
  (before_plan (Run_State (next d)) = true -> tasks_of s' id (fun _ => False)) /\
  (delivering (Run_State (next d)) = true -> gate_of c = gate_completed) /\
  (Run_State (next d) = RunStateCancelled -> exists m i reason, c = CancelRun m i reason).
Proof.
  intros [H1 H2 H3].
  pose proof (decideRunCommand_Ok _ _ _ (rc_decided _ _ _ _ _ rc)) as [_ Hd].
  destruct rc_before as [((m & i & Hc) & Hnone & Hnew)|(old & Hold & Host & _ & Hid & Hnc)].
  - apply NewRun_Ok in Hnew as (_ & Hst & _). rewrite Hst. split_and!; try done. intros _ j row Hl Hrun.
    destruct (run_commit_lookup _ _ Hl) as [Hin|(_ & row0 & Hl0 & Hr & _)].
    + destruct (rc_new_task _ _ Hin) as (t & Ht & _).
      apply (decided_planned _ _ _ _ (rc_decided _ _ _ _ _ rc)) in Ht as (? & ? & ? & ? & Hbad & _).
      congruence.
    + destruct (H1 _ _ Hl0) as [x Hx]. congruence.
  - assert (Hcases : (exists i g ts ds m, c = ApproveTaskGraph m i g ts ds) /\
        Run_State (next d) = RunStateReady \/
      Run_Apply cur c = Ok (next d, decision_events d) /\ decision_tasks d = []).
    { destruct c; lazy iota beta in Hd; try (right; by destruct Hd as (? & ? & _)).
      - by destruct (Hnc Meta ID).
      - left. apply Run_ApproveTaskGraph_Ok in Hd as
          (m & g & defs & dps & gr & evs & _ & _ & _ & _ & _ & _ & _ & Hgr & _ & [= Hn _]).
        split; [eauto 10|]. by rewrite Hn, Hgr. }
    destruct Hcases as [[_ ->]|[Happ Hno]]; [done|].
    apply Run_Apply_phases in Happ as (Hb & Hdel & Hcan & _). split_and!; try done.
    intros Hbp j row Hl Hrun. specialize (Hb Hbp). rewrite <- Host in Hb.
    destruct (run_commit_lookup _ _ Hl) as [Hin|(_ & row0 & Hl0 & Hr & _)].
    + destruct (rc_new_task _ _ Hin) as (t & Ht & _). rewrite Hno in Ht. by apply elem_of_nil in Ht.
    + apply (H2 _ _ Hold Hb _ _ Hl0). congruence.
Qed.

(** The gate of the completion commands was passed. *)
Lemma rc_completed :
  gate_of c = gate_completed ->
  tasks_of s id (fun row => tr_state row = TaskStateAccepted) /\
  exists i row, tasks s !! i = Some row /\ tr_run row = id.
Proof.
  intros Hgate.
  destruct (completed_gate_passed _ _ _ _ (rc_gate _ _ _ _ _ rc) Hgate) as (run & Hk & Hall).
  pose proof (rc_loaded _ _ _ _ _ rc) as Hl.
  assert (run = id) as <-; [|exact Hall].
  destruct c; try discriminate Hgate; lazy iota beta in Hl;
    destruct Hl as (old & Hk' & _); congruence.
Qed.

Lemma gate_no_change :
  gate_of c = gate_completed -> rc_tasks _ _ _ _ _ rc = [] /\
  forall i row, tasks s' !! i = Some row -> tasks s !! i = Some row.
Proof.
  intros Hgate.
  pose proof (decideRunCommand_Ok _ _ _ (rc_decided _ _ _ _ _ rc)) as [_ Hd].
  assert (Hno : rc_tasks _ _ _ _ _ rc = []).
  { destruct (rc_inserted _ _ _ _ _ rc) as (Hf & _).
    destruct c; try discriminate Hgate; lazy iota beta in Hd; destruct Hd as (_ & Hts & _);
      rewrite Hts in Hf; by apply Forall2_nil_inv_l in Hf. }
  split; [done|]. intros i row Hl.
  destruct (run_commit_lookup _ _ Hl) as [Hin|(_ & row0 & Hl0 & _ & [->|[(m & j & rs & Hc) _]])].
  - rewrite Hno in Hin. by apply elem_of_nil in Hin.
  - done.
  - by rewrite Hc in Hgate.
Qed.

Lemma rc_cancel_spec :
  (exists m i reason, c = CancelRun m i reason) ->
  NoDup (rc_cancelled _ _ _ _ _ rc).*1 /\
  (forall i rev, (i, rev) ∈ rc_cancelled _ _ _ _ _ rc <-> exists row, tasks s !! i = Some row /\
     tr_run row = id /\ TaskState_Terminal (tr_state row) = false /\ tr_revision row = rev) /\
  rc_tasks _ _ _ _ _ rc = [].
Proof.
  intros Hc. pose proof (rc_cancel _ _ _ _ _ rc) as Hcan.
  pose proof (decideRunCommand_Ok _ _ _ (rc_decided _ _ _ _ _ rc)) as [_ Hd].
  destruct (rc_inserted _ _ _ _ _ rc) as (Hf & _).
  destruct c; try (by destruct Hc as (? & ? & ? & [=])).
  lazy iota beta in Hcan, Hd. destruct Hcan as (H1 & H2 & _). destruct Hd as (_ & Hts & _).
  rewrite Hts in Hf. apply Forall2_nil_inv_l in Hf. done.
Qed.

Lemma structure_run : structure s -> structure s'.
Proof.
  intros Hst. pose proof (rc_phases Hst) as (Hplan & _). destruct Hst as [H1 H2 H3].
  destruct rc_new_state as [Hns _]. split.
  - intros i row Hl. rewrite rc_runs.
    destruct (run_commit_lookup _ _ Hl) as [Hin|(_ & row0 & Hl0 & -> & _)].
    + destruct (rc_new_task _ _ Hin) as (t & _ & _ & -> & _). by rewrite lookup_insert_eq.
    + apply lookup_insert_is_Some'. right. by eapply H1.
  - intros run rr. rewrite rc_runs. destruct (decide (run = id)) as [->|Hne].
    + rewrite lookup_insert_eq. intros [= <-]. rewrite Hns. exact Hplan.
    + rewrite lookup_insert_ne by done. intros Hrr Hb i row Hl Hrun.
      destruct (run_commit_lookup _ _ Hl) as [Hin|(_ & row0 & Hl0 & Hr & _)].
      * destruct (rc_new_task _ _ Hin) as (t & _ & _ & Hid & _). congruence.
      * apply (H2 _ _ Hrr Hb _ _ Hl0). congruence.
  - intros run t p. rewrite rc_deps_eq, elem_of_union, elem_of_list_to_set.
    intros [Hin|Hin].
    + destruct (rc_linked _ _ _ _ _ rc) as (s1 & Hs1 & Hf).
      destruct (Forall2_in_r _ _ _ _ Hf Hin) as (x & _ & r0 & t0 & p0 & [= -> -> ->] & _ & _ & _ & _ & Ht & Hp).
      unfold task_in_run in *. rewrite Hs1 in Ht, Hp. by split.
    + apply H3 in Hin as [Ht Hp]. split; (eapply task_in_run_mono; [|done]); apply run_commit_domain.
Qed.

Lemma gates_run : gates s -> gates s'.
Proof.
  intros [Hst Hdel Hcan]. pose proof (rc_phases Hst) as (_ & Hpd & Hpc).
  destruct rc_new_state as [Hns _]. split; [by apply structure_run|..];
    intros run rr; rewrite rc_runs; (destruct (decide (run = id)) as [->|Hne];
      [rewrite lookup_insert_eq; intros [= <-]; rewrite Hns
      |rewrite lookup_insert_ne by done; intros Hrr]).
  - intros Hd. specialize (Hpd Hd). destruct (rc_completed Hpd) as [Hall (i & row & Hl & Hrun)].
    destruct (gate_no_change Hpd) as [_ Hsame]. split.
    + intros j row' Hl' Hrun'. apply (Hall j row'); [by apply Hsame|done].
    + destruct (run_commit_domain _ _ Hl) as (row' & ? & ?). exists i, row'. split; [done|congruence].
  - intros Hd. destruct (Hdel run rr Hrr Hd) as [Hall (i & row & Hl & Hrun)]. split.
    + intros j row' Hl' Hrun'.
      destruct (run_commit_lookup _ _ Hl') as [Hin|(_ & row0 & Hl0 & Hr & [->|(_ & Hid & _)])].
      * destruct (rc_new_task _ _ Hin) as (t & _ & _ & Hid & _). congruence.
      * by eapply Hall.
      * congruence.
    + destruct (run_commit_domain _ _ Hl) as (row' & ? & ?). exists i, row'. split; [done|congruence].
  - intros Hd j row' Hl' Hrun'. destruct (Hpc Hd) as (m & i & rs & Hc).
    destruct (run_commit_lookup _ _ Hl') as [Hin|(_ & row0 & Hl0 & Hr & [->|(_ & Hid & _ & -> & _)])].
    + destruct (rc_new_task _ _ Hin) as (t & Ht & _).
      apply (decided_planned _ _ _ _ (rc_decided _ _ _ _ _ rc)) in Ht as (? & ? & ? & ? & Hbad & _).
      congruence.
    + destruct (TaskState_Terminal (tr_state row0)) eqn:Et; [done|]. exfalso.
      destruct rc_cancel_spec as (Hb & Hcs & Hno); [eauto|].
      rewrite rc_tasks_eq, Hno in Hl'. rewrite list_to_map_nil, (left_id_L ∅ (∪)) in Hl'.
      rewrite bump_all_lookup, decide_True, Hl0 in Hl'; [|
        apply list_elem_of_fmap; exists (j, tr_revision row0); (split; [done|]); apply Hcs; by eauto
        |done].
      injection Hl' as Hbad. by rewrite <- Hbad in Et.
    + done.
  - intros Hd j row' Hl' Hrun'.
    destruct (run_commit_lookup _ _ Hl') as [Hin|(_ & row0 & Hl0 & Hr & [->|(_ & Hid & _)])].
    + destruct (rc_new_task _ _ Hin) as (t & _ & _ & Hid & _). congruence.
    + by eapply (Hcan run rr).
    + congruence.
Qed.

End run_commit.

Lemma gates_kept : kept gates.
Proof.
  split.
  - split; [split|..]; intros *; unfold tasks_of; cbn; set_solver.
  - intros c meta s s' r Hg _ _ rc. by eapply gates_run.
  - intros c meta s s' r Hg _ _ tc. by eapply gates_task.
Qed.

End reachable.
