(* ===== verification/WfGuarantees.v ===== *)
(** * What the workflow store guarantees *)

From S2P Require Import Prelude GoStd GoJson PgRetry WfTypes WfTask WfPlan WfRun.
From S2P Require Import WfDigest WfDb WfStore WfStoreLemmas Samples WfTaskProps WfPlanProps.
From S2P Require Import WfRunProps WfStoreTx WfReplay WfInvariants.

(** * Pending tasks wait for something, and not for each other

    A task is PENDING only while a prerequisite of its run is not accepted,
    and the stored dependencies have no cycle: a run cannot get stuck with
    nothing but accepted and pending tasks. *)

(** [t] waits for the prerequisite [p] of its run, which is not accepted. *)
Definition waits (s : db) (run t p : string) : Prop :=
  exists row, (run, t, p) ∈ deps s /\ tasks s !! p = Some row /\ tr_run row = run /\
    tr_state row <> TaskStateAccepted.

Lemma unmet_some s run t :
  unmet_prerequisites s run t <> [] <-> exists p, waits s run t p.
Proof.
  split.
  - intros Hne. destruct (unmet_prerequisites s run t) as [|[[r t'] p] l] eqn:E; [done|].
    assert ((r, t', p) ∈ unmet_prerequisites s run t) as Hin by (rewrite E; set_solver).
    unfold unmet_prerequisites in Hin.
    apply list_elem_of_In, List.filter_In in Hin as [Hd%list_elem_of_In%elem_of_elements Hc].
    rewrite !andb_true_iff, !bool_decide_eq_true in Hc. destruct Hc as [[-> ->] Hc].
    destruct (tasks s !! p) as [row|] eqn:Ep; [|done].
    rewrite andb_true_iff, bool_decide_eq_true, negb_true_iff, bool_decide_eq_false in Hc.
    exists p, row. tauto.
  - intros (p & row & Hd & Hp & Hr & Hst) Hnil. rewrite unmet_prerequisites_nil in Hnil.
    by apply Hst, (Hnil p).
Qed.

Lemma tc_mono {A} (R R' : relation A) x y :
  (forall a b, R a b -> R' a b) -> tc R x y -> tc R' x y.
Proof. intros HR. induction 1; [by apply tc_once, HR|eapply tc_l; [by apply HR|done]]. Qed.

Definition row_edge (s : db) (run t p : string) : Prop := (run, t, p) ∈ deps s.

Record unstuck (s : db) : Prop := {
  us_structure : structure s;
  us_pending : forall t row, tasks s !! t = Some row -> tr_state row = TaskStatePending ->
    exists p, waits s (tr_run row) t p;
  us_acyclic : forall run t, ~ tc (row_edge s run) t t;
}.

Section unstuck.
Context `{Hlaws : PlatformLaws}.

(** ** Task commands *)

Lemma tc_id_lookup c meta s s' r (tc : task_commit c meta s s' r) :
  tasks s' !! tc_id _ _ _ _ _ tc = Some (tc_new _ _ _ _ _ tc).
Proof.
  destruct tc as [run tid rrow old new cur nxt ev ready rows Hrk Htk Hg (Hold & Hrun & Hcur) Happ
    (row0 & Hrow0 & Hnew & Hid) [Hnd Hready] Hev Hres Hfin]; cbn.
  rewrite Hfin. cbn [tasks]. rewrite bump_all_lookup by done.
  rewrite lookup_insert_eq, decide_False; [done|].
  intros Hin. apply list_elem_of_fmap in Hin as ([i rev] & -> & Hin).
  apply Hready in Hin as (Hacc & x & _ & Hx & _ & Hst & _). cbn in Hx.
  rewrite lookup_insert_eq in Hx. congruence.
Qed.

Lemma tc_new_not_pending c meta s s' r (tc : task_commit c meta s s' r) :
  tr_state (tc_new _ _ _ _ _ tc) <> TaskStatePending.
Proof.
  destruct (tc_new_row _ _ _ _ _ tc) as (row0 & Hrow0 & -> & _).
  destruct (row_of_task_Ok _ _ Hrow0) as (_ & Hst & _). cbn. rewrite Hst.
  pose proof (tc_applied _ _ _ _ _ tc) as Happ.
  apply Task_Apply_Ok in Happ as (m & tr & _ & Hv & Ha & [= -> _]).
  apply Task_validateCommand_Ok in Hv as (_ & _ & _ & Hterm & _).
  apply applyCommand_edge in Ha; [|done]. cbn. intros E. rewrite E in Ha.
  by destruct (Task_State (tc_current _ _ _ _ _ tc)).
Qed.

(** A prerequisite other than the task of the command keeps blocking. *)
Lemma waits_task c meta s s' r (tc : task_commit c meta s s' r) s1 run t p :
  deps s1 = deps s -> p <> tc_id _ _ _ _ _ tc -> tasks s1 !! p = tasks s !! p ->
  waits s1 run t p -> waits s' run t p.
Proof.
  intros Hd Hne Hsame (row & Hdep & Hp & Hrun & Hst). rewrite Hsame in Hp.
  destruct (task_commit_domain _ _ _ _ _ tc _ _ Hp) as (row' & Hp' & Hrun').
  exists row'. destruct (task_commit_runs _ _ _ _ _ tc) as [_ Hdeps].
  split; [by rewrite Hdeps, <- Hd|]. split; [done|]. split; [congruence|].
  destruct (task_commit_lookup _ _ _ _ _ tc _ _ Hp') as (row0 & Hp0 & _ & Hcase).
  assert (row0 = row) as -> by congruence.
  destruct Hcase as [->|(_ & [[-> _]|(_ & -> & _)])]; [done| |done].
  by destruct Hne.
Qed.

Lemma unstuck_task c meta s s' r : unstuck s -> task_commit c meta s s' r -> unstuck s'.
Proof.
  intros [Hst Hp Hac] tc. destruct (task_commit_runs _ _ _ _ _ tc) as [_ Hdeps].
  split; [by eapply structure_task| |].
  - intros t row Hl Hs.
    destruct (task_commit_lookup _ _ _ _ _ tc _ _ Hl) as (row0 & Hl0 & Hrun & Hcase).
    pose proof (tc_new_not_pending _ _ _ _ _ tc) as Hnp.
    destruct Hcase as [->|(_ & [[_ ->]|(_ & Hs' & _)])]; [|done|congruence].
    destruct (Hp t row0 Hl0 Hs) as (p & Hw).
    destruct (decide (p = tc_id _ _ _ _ _ tc)) as [->|Hne];
      [|exists p; by eapply (waits_task _ _ _ _ _ tc s)].
    destruct (decide (tr_state (tc_new _ _ _ _ _ tc) = TaskStateAccepted)) as [Hacc|Hacc].
    + (* the prerequisite was accepted: the task was looked at and not released *)
      set (s1 := set_tasks (<[tc_id _ _ _ _ _ tc := tc_new _ _ _ _ _ tc]> (tasks s)) s).
      assert (Hunmet : unmet_prerequisites s1 (tr_run row0) t <> []).
      { intros Hnil. destruct Hw as (rowp & Hdep & Hpl & Hpr & Hps).
        destruct (tc_ready_spec _ _ _ _ _ tc) as [Hnd Hready].
        destruct (tc_loaded _ _ _ _ _ tc) as (Hold & Holdrun & _).
        assert (tr_run row0 = tc_run _ _ _ _ _ tc) as Hr by congruence.
        assert (Htne : t <> tc_id _ _ _ _ _ tc).
        { intros ->. rewrite (tc_id_lookup _ _ _ _ _ tc) in Hl. congruence. }
        assert (Hin : (t, tr_revision row0) ∈ tc_ready _ _ _ _ _ tc).
        { apply Hready. split; [done|]. exists row0. rewrite Hr in *.
          rewrite lookup_insert_ne by done. split_and!; done. }
        pose proof (f_equal tasks (tc_final _ _ _ _ _ tc)) as Hts. cbn [tasks] in Hts.
        rewrite Hts, bump_all_lookup, decide_True, lookup_insert_ne, Hl0 in Hl;
          [|done| |done]; [injection Hl as Hbad; by rewrite <- Hbad in Hs|].
        apply list_elem_of_fmap. by exists (t, tr_revision row0). }
      apply unmet_some in Hunmet as (p & Hw1). exists p.
      assert (Hne : p <> tc_id _ _ _ _ _ tc).
      { intros ->. destruct Hw1 as (rowp & _ & Hpl & _ & Hps). unfold s1 in Hpl. cbn in Hpl.
        rewrite lookup_insert_eq in Hpl. congruence. }
      apply (waits_task _ _ _ _ _ tc s1); [done|done| |done].
      unfold s1. cbn. by rewrite lookup_insert_ne.
    + exists (tc_id _ _ _ _ _ tc). destruct Hw as (rowp & Hdep & Hpl & Hpr & Hps).
      exists (tc_new _ _ _ _ _ tc). rewrite Hdeps.
      split; [done|]. split; [by apply tc_id_lookup|]. split; [|done].
      destruct (tc_loaded _ _ _ _ _ tc) as (Hold & _).
      destruct (tc_new_row _ _ _ _ _ tc) as (row1 & _ & -> & _). cbn. congruence.
  - intros run t. unfold row_edge. rewrite Hdeps. apply Hac.
Qed.

(** ** Run commands *)

Lemma same_task (l : list Task) (rows : list (string * task_row)) s t1 t2 k :
  Forall2 (task_inserted s) l rows -> NoDup rows.*1 -> t1 ∈ l -> t2 ∈ l ->
  uuid_column (Task_ID t1) = Some k -> uuid_column (Task_ID t2) = Some k -> t1 = t2.
Proof.
  induction 1 as [|t c l rows (Hcol & _) HF IH]; intros Hnd H1 H2 Hk1 Hk2;
    [by apply elem_of_nil in H1|].
  cbn in Hnd. apply NoDup_cons in Hnd as [Hc Hnd].
  assert (Hkey : forall t', t' ∈ l -> uuid_column (Task_ID t') = Some k -> c.1 <> k).
  { intros t' Hin Hcol' Heq. destruct (Forall2_in_l _ _ _ _ HF Hin) as (c' & Hin' & Hcol'' & _).
    apply Hc. rewrite Heq. assert (k = c'.1) as -> by congruence. by apply list_elem_of_fmap_2. }
  apply elem_of_cons in H1 as [->|H1]; apply elem_of_cons in H2 as [->|H2'].
  - done.
  - by destruct (Hkey t2 H2' Hk2); congruence.
  - by destruct (Hkey t1 H1 Hk1); congruence.
  - by apply IH.
Qed.

Section run_commit.
Context (c : RunCommand) (meta : CommandEnvelope) (s s' : db) (r : CommandResult).
Context (rc : run_commit c meta s s' r).

#[local] Abbreviation id := (rc_id _ _ _ _ _ rc).
#[local] Abbreviation d := (rc_decision _ _ _ _ _ rc).

(** The stored dependencies of a plan, by the plan's. *)
Lemma rc_dep_source run t p :
  (run, t, p) ∈ rc_deps _ _ _ _ _ rc ->
  run = id /\ exists x y, depends_on (decision_dependencies d) x y /\
    uuid_column x = Some t /\ uuid_column y = Some p.
Proof.
  intros Hin. destruct (rc_linked _ _ _ _ _ rc) as (s1 & _ & Hf).
  destruct (Forall2_in_r _ _ _ _ Hf Hin) as (x & Hx & r0 & t0 & p0 & [= -> -> ->] & Hr & Ht & Hp & _).
  split; [pose proof (rc_key _ _ _ _ _ rc); congruence|].
  exists (TaskID x), (DependsOnID x). split; [|done]. by exists x.
Qed.

Lemma rc_dep_stored x y :
  depends_on (decision_dependencies d) x y -> exists t p,
    uuid_column x = Some t /\ uuid_column y = Some p /\ (id, t, p) ∈ deps s'.
Proof.
  intros (e & He & <- & <-). destruct (rc_linked _ _ _ _ _ rc) as (s1 & _ & Hf).
  destruct (Forall2_in_l _ _ _ _ Hf He) as (x & Hx & r0 & t0 & p0 & -> & Hr & Ht & Hp & _).
  exists t0, p0. split; [done|]. split; [done|]. rewrite (rc_deps_eq _ _ _ _ _ rc), elem_of_union. left.
  apply elem_of_list_to_set. pose proof (rc_key _ _ _ _ _ rc). by assert (id = r0) as -> by congruence.
Qed.

(** A dependency command exists only in a plan. *)
Lemma rc_planned :
  decision_tasks d = [] /\ decision_dependencies d = [] \/
  exists defs gr m, well_formed_plan (Run_ID (current d)) defs (decision_dependencies d) /\
    graph_of (decision_dependencies d) gr /\
    decision_tasks d = map (fun x => fst (buildPlannedTask (Run_ID (current d)) (incoming gr) m x)) defs /\
    Run_State (current d) = RunStateTaskPlanReview.
Proof.
  pose proof (decideRunCommand_Ok _ _ _ (rc_decided _ _ _ _ _ rc)) as [_ Hd].
  destruct c; lazy iota beta in Hd; try (left; by destruct Hd as (_ & ? & ?)).
  right. apply Run_ApproveTaskGraph_Ok in Hd as
    (m & g & defs & dps & gr & evs & _ & _ & _ & _ & Hst & _ & _ & _ & Hp & _).
  cbn in Hp. apply NewPlannedTasks_Ok in Hp as (Hw & Hdps & g' & Hg' & [= Hts _]).
  rewrite Hdps. exists defs, g', m. split_and!; [done|done| |done].
  by rewrite Hts, map_map.
Qed.

(** Two names of a plan with the same stored identifier are the same. *)
Lemma planned_name defs gr m x y k :
  decision_tasks d = map (fun x => fst (buildPlannedTask (Run_ID (current d)) (incoming gr) m x)) defs ->
  x ∈ (list_to_set (map Definition_ID defs) : gset string) ->
  y ∈ (list_to_set (map Definition_ID defs) : gset string) ->
  uuid_column x = Some k -> uuid_column y = Some k -> x = y.
Proof.
  intros Hts Hx Hy Hkx Hky. destruct (rc_inserted _ _ _ _ _ rc) as (Hf & Hnd & _).
  apply elem_of_list_to_set, list_elem_of_fmap in Hx as (dx & -> & Hdx).
  apply elem_of_list_to_set, list_elem_of_fmap in Hy as (dy & -> & Hdy).
  assert (Hid : forall x, Task_ID (fst (buildPlannedTask (Run_ID (current d)) (incoming gr) m x)) =
    Definition_ID x) by (intros z; unfold buildPlannedTask; by case_match).
  rewrite <- (Hid dx), <- (Hid dy). f_equal.
  eapply (same_task _ _ _ _ _ k Hf Hnd); rewrite ?Hts, ?Hid; try done;
    apply list_elem_of_fmap; eauto.
Qed.

Lemma rc_new_lookup t :
  t ∈ decision_tasks d -> exists k row, uuid_column (Task_ID t) = Some k /\
    tasks s' !! k = Some row /\ tr_run row = id /\ tr_state row = Task_State t.
Proof.
  intros Ht. destruct (rc_inserted _ _ _ _ _ rc) as (Hf & Hnd & _).
  destruct (Forall2_in_l _ _ _ _ Hf Ht) as ([k row] & Hin & Hcol & Hrow & _). cbn in *.
  exists k, row. split; [done|]. split.
  - rewrite (rc_tasks_eq _ _ _ _ _ rc). apply lookup_union_Some_l. by apply elem_of_list_to_map_1.
  - destruct (rc_new_task _ _ _ _ _ rc _ _ Hin) as (t' & Ht' & (Hcol' & Hrow' & _) & Hrun & Hst & _).
    cbn in *. split; [done|]. destruct (row_of_task_Ok _ _ Hrow) as (_ & ? & _). done.
Qed.

Lemma unstuck_run_pending t row :
  unstuck s -> tasks s' !! t = Some row -> tr_state row = TaskStatePending ->
  exists p, waits s' (tr_run row) t p.
Proof.
  intros [Hst Hp Hac] Hl Hs.
  destruct (run_commit_lookup _ _ _ _ _ rc _ _ Hl) as [Hin|(_ & row0 & Hl0 & Hrun & Hcase)].
  - destruct (rc_new_task _ _ _ _ _ rc _ _ Hin) as (t0 & Ht0 & (Hcol & _) & -> & Hst0 & _).
    cbn in Hcol. destruct rc_planned as [[Hno _]|(defs & gr & m & Hw & Hgr & Hts & _)].
    { rewrite Hno in Ht0. by apply elem_of_nil in Ht0. }
    rewrite Hts in Ht0. apply list_elem_of_fmap in Ht0 as (def & -> & Hdef).
    pose proof (buildPlannedTask_spec (Run_ID (current d)) gr _ m def Hgr) as Hspec.
    destruct (buildPlannedTask _ _ m def) as [t1 e1] eqn:Eb. cbn [fst] in *.
    destruct Hspec as (Hid & _ & _ & _ & [[Hbad _]|[_ [y Hy]]] & _); [congruence|].
    destruct (rc_dep_stored _ _ Hy) as (kt & kp & Hkt & Hkp & Hdep).
    assert (kt = t) as -> by congruence.
    destruct Hw as (_ & _ & _ & _ & Hwithin & _).
    destruct Hy as (e & He & _ & <-). apply Hwithin in He as [_ He].
    apply elem_of_list_to_set, list_elem_of_fmap in He as (def2 & Hd2 & Hdef2).
    destruct (rc_new_lookup (fst (buildPlannedTask (Run_ID (current d)) (incoming gr) m def2)))
      as (k2 & row2 & Hk2 & Hl2 & Hr2 & Hs2).
    { rewrite Hts. apply list_elem_of_fmap. by exists def2. }
    pose proof (buildPlannedTask_spec (Run_ID (current d)) gr _ m def2 Hgr) as Hspec2.
    destruct (buildPlannedTask _ _ m def2) as [t2 e2]. cbn [fst] in *.
    destruct Hspec2 as (Hid2 & _ & _ & _ & Hst2 & _).
    assert (k2 = kp) as -> by congruence.
    exists kp, row2. split_and!; [done|done|done|]. rewrite Hs2.
    by destruct Hst2 as [[-> _]|[-> _]].
  - destruct Hcase as [->|(_ & _ & _ & Hbad & _)]; [|congruence].
    destruct (Hp _ _ Hl0 Hs) as (p & rowp & Hdep & Hpl & Hpr & Hps).
    destruct (run_commit_domain _ _ _ _ _ rc _ _ Hpl) as (row' & Hl' & Hr').
    exists p, row'. split; [rewrite (rc_deps_eq _ _ _ _ _ rc); set_solver|]. split; [done|]. split; [congruence|].
    destruct (run_commit_lookup _ _ _ _ _ rc _ _ Hl') as [Hin|(_ & row1 & Hl1 & _ & Hcase)].
    + destruct (rc_new_task _ _ _ _ _ rc _ _ Hin) as (t0 & Ht0 & _ & _ & -> & _).
      apply (decided_planned _ _ _ _ (rc_decided _ _ _ _ _ rc)) in Ht0 as
        (? & ? & ? & ? & _ & _ & _ & _ & _ & _ & _ & _ & gr & _ & def & _ & ->).
      unfold buildPlannedTask. by destruct (get_int _ _ =? 0).
    + assert (row1 = rowp) as -> by congruence.
      destruct Hcase as [->|(_ & _ & _ & -> & _)]; done.
Qed.

Lemma unstuck_run : unstuck s -> unstuck s'.
Proof.
  intros Hu. pose proof Hu as [Hst Hp Hac]. split; [by eapply structure_run| |].
  { intros t row. by apply unstuck_run_pending. }
  intros run t Htc.
  destruct rc_planned as [[_ Hnod]|(defs & gr & m & Hw & Hgr & Hts & Hreview)].
  - (* no new dependency *)
    apply (Hac run t). eapply tc_mono; [|exact Htc]. intros x y. unfold row_edge.
    rewrite (rc_deps_eq _ _ _ _ _ rc), elem_of_union. intros [Hin|Hin]; [|done].
    apply elem_of_list_to_set, rc_dep_source in Hin as (_ & x0 & y0 & (e & He & _) & _).
    rewrite Hnod in He. by apply elem_of_nil in He.
  - destruct (decide (run = id)) as [->|Hne].
    + (* the plan is acyclic, and the run had no dependency before *)
      assert (Hold : forall x y, (id, x, y) ∈ deps s -> False).
      { intros x y Hin. destruct Hst as [H1 H2 H3]. apply H3 in Hin as [Hin _].
        apply task_in_run_spec in Hin as (row & Hl & Hrun).
        destruct (rc_before _ _ _ _ _ rc) as [(_ & Hnone & _)|(old & Hold & Host & _)].
        - destruct (H1 _ _ Hl) as [? ?]. congruence.
        - apply (H2 _ _ Hold) with x row; [by rewrite Host, Hreview|done|done]. }
      assert (Hmap : forall x y, tc (row_edge s' id) x y -> exists x0 y0,
        tc (depends_on (decision_dependencies d)) x0 y0 /\
        uuid_column x0 = Some x /\ uuid_column y0 = Some y).
      { induction 1 as [x y Hxy|x y z Hxy _ (y0 & z0 & Hyz & Hy & Hz)];
          unfold row_edge in Hxy; rewrite (rc_deps_eq _ _ _ _ _ rc), elem_of_union in Hxy;
          (destruct Hxy as [Hin|Hin]; [|by destruct (Hold x y)]);
          apply elem_of_list_to_set, rc_dep_source in Hin as (_ & x1 & y1 & Hd1 & Hx1 & Hy1).
        - exists x1, y1. split; [by apply tc_once|done].
        - exists x1, z0. split; [|done]. eapply tc_l; [exact Hd1|].
          assert (y1 = y0) as ->; [|done].
          destruct Hw as (_ & _ & _ & _ & Hwithin & _). eapply planned_name; try done.
          + destruct Hd1 as (e & He & _ & <-). by apply Hwithin in He as [_ ?].
          + by apply (tc_endpoints _ _ _ _ Hwithin) in Hyz as [? _]. }
      destruct (Hmap _ _ Htc) as (x0 & y0 & Hxy & Hx & Hy).
      destruct Hw as (_ & _ & _ & _ & Hwithin & _ & Hacyc). apply (Hacyc x0).
      assert (y0 = x0) as ->; [|done].
      destruct (tc_endpoints _ _ _ _ Hwithin Hxy). by eapply planned_name.
    + apply (Hac run t). eapply tc_mono; [|exact Htc]. intros x y. unfold row_edge.
      rewrite (rc_deps_eq _ _ _ _ _ rc), elem_of_union. intros [Hin|Hin]; [|done].
      by apply elem_of_list_to_set, rc_dep_source in Hin as (-> & _).
Qed.

End run_commit.

Lemma unstuck_kept : kept unstuck.
Proof.
  split.
  - split; [split|..]; intros *; unfold tasks_of; cbn; try set_solver.
    intros Htc. assert (exists y, row_edge empty_db run t y) as [y Hy].
    { inversion Htc; subst; eauto. }
    unfold row_edge in Hy. cbn in Hy. set_solver.
  - intros c meta s s' r Hg _ _ rc. by eapply unstuck_run.
  - intros c meta s s' r Hg _ _ tc. by eapply unstuck_task.
Qed.

End unstuck.

(** * What the workflow service guarantees of every reachable database

    The theorems about histories of commands, on the invariants of
    [WfInvariants] and [WfLiveness], and a concrete history that delivers a
    run, on which they are evaluated. *)

(** ** A concrete history *)

(** Each command executed without interference. *)
Definition execute_all `{Platform} (l : list command) (s : db) : db :=
  foldl (fun s c => snd (execute (fun _ => Clear) (fun _ => None) c s)) s l.

Lemma execute_all_reachable `{Platform} l s : reachable s -> reachable (execute_all l s).
Proof.
  revert s. induction l as [|c l IH]; intros s Hs; [done|]. cbn. apply IH.
  destruct (execute (fun _ => Clear) (fun _ => None) c s) as [r s'] eqn:E. cbn.
  by eapply (reachable_execute _ _ _ _ _ _ Hs); [|exact E].
Qed.

Definition planned_commands : list command :=
  inl create_run :: map inl plan_commands.
Definition start_run : RunCommand := StartRun (meta "r6" ActorWorkflowService 5 6) "run-1".
Definition executing_commands : list command := planned_commands ++ [inl start_run].
Definition delivered_commands : list command :=
  executing_commands ++ map inr sample_history ++ map inl (tail completion_commands).

(** The approval task that waits for [task-1]. *)
Definition two_task_plan : list command :=
  [ inl create_run;
    inl (ProposeSpecification (meta "r2" ActorWorkflowService 1 2) "run-1" (art "spec"));
    inl (ApproveSpecification (meta "r3" ActorHuman 2 3) "run-1" (art "spec"));
    inl (ProposeTaskGraph (meta "r4" ActorWorkflowService 3 4) "run-1" (art "graph"));
    inl (ApproveTaskGraph (meta "r5" ActorHuman 4 5) "run-1" (art "graph")
           [mkTaskDefinition "task-1" 2; mkTaskDefinition "task-2" 2]
           [mkTaskDependency "task-2" "task-1"]);
    inl start_run ].

Definition delivered_db : db := execute_all delivered_commands empty_db.
Definition two_task_db : db := execute_all (two_task_plan ++ map inr sample_history) empty_db.
Definition cancelled_db : db :=
  execute_all (two_task_plan ++
    [inl (CancelRun (meta "r7" ActorHuman 6 7) "run-1" "abandoned")]) empty_db.

Definition run_states (s : db) : list (string * RunState) :=
  map (fun '(k, r) => (k, rr_state r)) (map_to_list (runs s)).
Definition task_states (s : db) : list (string * TaskState) :=
  map (fun '(k, r) => (k, tr_state r)) (map_to_list (tasks s)).

(** ** Lemmas *)

Section guarantees.
Context `{Hlaws : PlatformLaws}.

Lemma reachable_gates s : reachable s -> gates s.
Proof. intros Hs. by eapply reachable_kept; [apply gates_kept|]. Qed.

Lemma reachable_unstuck s : reachable s -> unstuck s.
Proof. intros Hs. by eapply reachable_kept; [apply unstuck_kept|]. Qed.

(** Following prerequisites ends: the dependencies are finite and acyclic. *)
Lemma row_edge_sn s run t : unstuck s -> sn (row_edge s run) t.
Proof.
  intros [_ _ Hac]. apply tc_finite_sn.
  - intros x Hx. by apply (Hac run x).
  - exists (map snd (elements (deps s))). intros y Hty.
    assert (Hlast : exists x, row_edge s run x y).
    { clear -Hty. induction Hty as [x y Hxy|x y z Hxy _ IH]; eauto. }
    destruct Hlast as [x Hx]. apply list_elem_of_fmap. exists (run, x, y).
    split; [done|]. by apply elem_of_elements.
Qed.

Lemma cancel_task_commits_nothing m r t reason meta s s' res :
  gates s -> task_commit (CancelTask m r t reason) meta s s' res -> False.
Proof.
  intros Hg tc. pose proof (task_commit_executing _ _ _ _ _ tc Hg) as He.
  destruct (tc_gate _ _ _ _ _ tc) as [_ Hc]. lazy iota beta in Hc. congruence.
Qed.

Lemma cancel_task_attempt cd m r t reason climate s s' out :
  reachable s -> (forall n, ~ overtaken (climate n)) ->
  execute climate cd (inr (CancelTask m r t reason)) s = (out, s') -> s' = s.
Proof.
  intros Hs Hno Hx. set (c := inr (CancelTask m r t reason) : command) in *.
  destruct (execute_cases climate cd c s) as [[e He]|(meta & d & Hv & Hd & He)].
  { rewrite He in Hx. by injection Hx as _ <-. }
  rewrite (execute_unfold _ _ _ _ _ _ Hv Hd He) in Hx. unfold RetryTransaction in Hx.
  pose proof (retry_loop_invariant
    (fun n => attempt (fun inject others => transaction c inject others d) (commit_label c)
      (CommandID meta) d (climate n)) cd (fun x => x = s) MaxTransactionAttempts 0 s) as Hinv.
  rewrite Hx in Hinv. apply Hinv; [|done]. clear Hinv Hx. intros n x ->.
  assert (Hbody : forall inj conc res x', transaction c inj conc d s = Ok (res, x') -> x' = s).
  { intros inj conc res x' Ht. unfold c in Ht. cbn [transaction] in Ht.
    apply executeTaskTransaction_Ok in Ht as (m0 & _ & [[-> _]|[_ [tc]]]); [done|].
    by apply cancel_task_commits_nothing in tc; [|by apply reachable_gates]. }
  specialize (Hno n). unfold attempt. destruct (climate n); try (by destruct Hno; unfold overtaken; eauto);
    repeat case_match; simplify_eq; cbn; eauto.
Qed.

(** ** The properties *)

(** C1: the delivery gate.  Whatever history of commands, faults, retries and
    competing transactions led to the stored tables, a run that is verified,
    reviewed, awaiting approval, ready to merge or merged has at least one
    task, and every task of it was accepted. *)
Theorem delivery_gate (s : db) (run : string) (r : run_row) :
  reachable s -> runs s !! run = Some r -> delivering (rr_state r) = true ->
  (exists id row, tasks s !! id = Some row /\ tr_run row = run) /\
  (forall id row, tasks s !! id = Some row -> tr_run row = run ->
     tr_state row = TaskStateAccepted).
Proof.
  intros Hs Hr Hd. destruct (gt_delivering _ (reachable_gates s Hs) run r Hr Hd) as [Hall Hex].
  split; [exact Hex|exact Hall].
Qed.

(** Cancelling a run leaves no task of it open, in every reachable
    database: a run is never cancelled with tasks that could still be worked
    on. *)
Theorem cancelled_run_closes_tasks (s : db) (run : string) (r : run_row) :
  reachable s -> runs s !! run = Some r -> rr_state r = RunStateCancelled ->
  forall id row, tasks s !! id = Some row -> tr_run row = run ->
    TaskState_Terminal (tr_state row) = true.
Proof. intros Hs. apply (gt_cancelled _ (reachable_gates s Hs)). Qed.

(** C32: a run cannot get stuck on its dependencies.  In every reachable
    database, a pending task has a prerequisite in its own run that is not
    accepted yet, and when nothing but accepted and pending tasks is left in a
    run, all of them are accepted. *)
Theorem dependencies_never_deadlock (s : db) (run : string) :
  reachable s ->
  (forall id row, tasks s !! id = Some row -> tr_state row = TaskStatePending ->
     exists p, waits s (tr_run row) id p) /\
  ((forall id row, tasks s !! id = Some row -> tr_run row = run ->
      tr_state row = TaskStatePending \/ tr_state row = TaskStateAccepted) ->
   forall id row, tasks s !! id = Some row -> tr_run row = run ->
     tr_state row = TaskStateAccepted).
Proof.
  intros Hs. pose proof (reachable_unstuck s Hs) as Hu. pose proof Hu as [_ Hp _].
  split; [exact Hp|]. intros Hall id row Hrow Hrun.
  destruct (Hall id row Hrow Hrun) as [Hst|Hst]; [|done]. exfalso.
  revert row Hrow Hrun Hst. induction (row_edge_sn s run id Hu) as [id _ IH].
  intros row Hrow Hrun Hst. destruct (Hp id row Hrow Hst) as (p & row' & Hdep & Hp' & Hrun' & Hne).
  rewrite Hrun in *. destruct (Hall p row' Hp' Hrun') as [Hst'|]; [|done].
  by apply (IH p Hdep row').
Qed.

(** the store never cancels a single task.  The gate of [CancelTask] asks
    for a cancelled run, and cancelling the run has already closed its tasks:
    without competing transactions an execution of the command leaves every
    reachable database as it was. *)
Theorem cancel_task_has_no_effect (ctx_done : nat -> option error) (m : CommandEnvelope)
    (run task reason : string) (climate : nat -> weather) (s s' : db) (res : res CommandResult) :
  reachable s -> (forall n, ~ overtaken (climate n)) ->
  execute climate ctx_done (inr (CancelTask m run task reason)) s = (res, s') -> s' = s.
Proof. apply cancel_task_attempt. Qed.

End guarantees.

(** ** Witnesses *)

Lemma delivered_reachable l : reachable (execute_all l empty_db).
Proof. apply execute_all_reachable, reachable_empty. Qed.

Definition stored_run (s : db) : run_row :=
  default (mkRunRow (RunStateOther "") 0 None None None None JNull 0 0) (runs s !! "run-1").
Definition stored_task (s : db) (id : string) : task_row :=
  default (mkTaskRow "" (TaskStateOther "") 0 0 0
    (mkTaskRowBindings None None None None None None None None None None None None None None None)
    0 0) (tasks s !! id).

(** One step after another of a delivered run. *)
Lemma delivery_gate_witness :
  rr_state (stored_run delivered_db) = RunStateMergeReady /\
  (exists id row, tasks delivered_db !! id = Some row /\ tr_run row = "run-1").
Proof.
  split; [by vm_compute|].
  apply (delivery_gate delivered_db "run-1" (stored_run delivered_db)).
  - apply execute_all_reachable, reachable_empty.
  - by vm_compute.
  - by vm_compute.
Defined.

Lemma cancelled_run_closes_tasks_witness :
  tr_run (stored_task cancelled_db "task-2") = "run-1" /\
  TaskState_Terminal (tr_state (stored_task cancelled_db "task-2")) = true.
Proof.
  split; [by vm_compute|].
  apply (cancelled_run_closes_tasks cancelled_db "run-1" (stored_run cancelled_db)) with (id := "task-2").
  - apply execute_all_reachable, reachable_empty.
  - by vm_compute.
  - by vm_compute.
  - by vm_compute.
  - by vm_compute.
Defined.

Definition waiting_db : db := execute_all two_task_plan empty_db.

Lemma dependencies_never_deadlock_witness :
  tr_state (stored_task waiting_db "task-2") = TaskStatePending /\
  exists p, waits waiting_db "run-1" "task-2" p.
Proof.
  split; [by vm_compute|].
  replace "run-1" with (tr_run (stored_task waiting_db "task-2")) by (by vm_compute).
  apply (dependencies_never_deadlock waiting_db "run-1").
  - apply execute_all_reachable, reachable_empty.
  - by vm_compute.
  - by vm_compute.
Defined.

Definition cancel_task_1 : command :=
  inr (CancelTask (meta "c9" ActorWorkflowService 1 20) "run-1" "task-1" "obsolete").

Lemma cancel_task_has_no_effect_witness :
  fst (execute (fun _ => Clear) (fun _ => None) cancel_task_1 waiting_db) =
    Err ErrInvalidTransition /\
  snd (execute (fun _ => Clear) (fun _ => None) cancel_task_1 waiting_db) = waiting_db.
Proof.
  split; [by vm_compute|].
  apply (cancel_task_has_no_effect (fun _ => None) (meta "c9" ActorWorkflowService 1 20)
    "run-1" "task-1" "obsolete" (fun _ => Clear) waiting_db _
    (fst (execute (fun _ => Clear) (fun _ => None) cancel_task_1 waiting_db))).
  - apply execute_all_reachable, reachable_empty.
  - intros n (o & e & Hw). discriminate Hw.
  - apply surjective_pairing.
Defined.
