(* ===== verification/WfHistory.v ===== *)
(** * The history of a run *)

From S2P Require Import Prelude GoStd GoJson PgRetry WfTypes WfTask WfPlan WfRun WfDigest WfDb.
From S2P Require Import WfStore WfStoreLemmas WfTaskProps WfPlanProps WfRunProps WfStoreTx.
From S2P Require Import WfReplay WfInvariants WfGuarantees Samples.

(** * The event log records every revision exactly once

    The events of a run or a task are numbered 1, 2, ..., n in the order in
    which they were appended, where n is the revision of its row: the log is
    complete, has no gap and no duplicate, and every event belongs to an
    aggregate that is stored. *)

(** The revisions recorded for an aggregate, in the order of the log. *)
Definition is_event_of (ty id : string) (e : event_row) : bool :=
  (er_aggregate_type e == ty) && (er_aggregate_id e == id).
Definition logged (ty id : string) (l : list event_row) : list Z :=
  map er_revision (List.filter (is_event_of ty id) l).

Lemma logged_app ty id l k : logged ty id (l ++ k) = logged ty id l ++ logged ty id k.
Proof. unfold logged. by rewrite List.filter_app, map_app. Qed.

Lemma logged_cons ty id e l :
  logged ty id (e :: l) = (if is_event_of ty id e then [er_revision e] else []) ++ logged ty id l.
Proof. unfold logged. cbn. by destruct (is_event_of ty id e). Qed.

Lemma is_event_of_spec ty id e :
  is_event_of ty id e = true <-> er_aggregate_type e = ty /\ er_aggregate_id e = id.
Proof. unfold is_event_of. by rewrite andb_true_iff, !bool_decide_eq_true. Qed.

(** [n] is the revision of an aggregate whose log is complete. *)
Definition complete (ty id : string) (l : list event_row) (n : Z) : Prop :=
  logged ty id l = seqZ 1 n /\ 1 <= n <= max_i64.

Lemma complete_next ty id l k n :
  complete ty id l n -> logged ty id k = [n + 1] -> n + 1 <= max_i64 ->
  complete ty id (l ++ k) (n + 1).
Proof.
  intros [Hl Hn] Hk Hmax. split; [|lia].
  rewrite logged_app, Hl, Hk, seqZ_app by lia. do 2 f_equal. by rewrite Z.add_comm.
Qed.

Lemma complete_same ty id l k n :
  complete ty id l n -> logged ty id k = [] -> complete ty id (l ++ k) n.
Proof. intros [Hl Hn] Hk. split; [|done]. by rewrite logged_app, Hl, Hk, app_nil_r. Qed.

Lemma complete_first ty id l k :
  logged ty id l = [] -> logged ty id k = [1] -> complete ty id (l ++ k) 1.
Proof. intros Hl Hk. split; [|done]. by rewrite logged_app, Hl, Hk. Qed.

(** Every event belongs to a stored aggregate, and stored keys are canonical. *)
Record log_ok `{Platform} (s : db) : Prop := {
  lg_runs : forall id r, runs s !! id = Some r -> complete "RUN" id (events s) (rr_revision r);
  lg_tasks : forall id t, tasks s !! id = Some t -> complete "TASK" id (events s) (tr_revision t);
  lg_owned : forall e, e ∈ events s ->
    er_aggregate_type e = "RUN" /\ is_Some (runs s !! er_aggregate_id e) \/
    er_aggregate_type e = "TASK" /\ is_Some (tasks s !! er_aggregate_id e);
  lg_keys : forall id, is_Some (tasks s !! id) -> uuid_column id = Some id;
}.

Lemma logged_none ty id l :
  (forall e, e ∈ l -> is_event_of ty id e = false) -> logged ty id l = [].
Proof.
  unfold logged. induction l as [|e l IH]; intros Hall; [done|]. cbn.
  rewrite Hall by set_solver. apply IH. set_solver.
Qed.

Section log.
Context `{Hlaws : PlatformLaws}.

(** No event before the aggregate. *)
Lemma unlogged s ty id :
  log_ok s -> (ty = "RUN" -> runs s !! id = None) -> (ty = "TASK" -> tasks s !! id = None) ->
  logged ty id (events s) = [].
Proof.
  intros [_ _ Hown _] Hr Ht. apply logged_none. intros e He.
  destruct (is_event_of ty id e) eqn:E; [|done]. exfalso.
  apply is_event_of_spec in E as [<- <-].
  destruct (Hown e He) as [[Hty [x Hx]]|[Hty [x Hx]]]; [rewrite Hr in Hx|rewrite Ht in Hx]; done.
Qed.

(** Rows of events that each move one task to its next revision. *)
Definition bump_rows (cs : list (string * Z)) (rows : list event_row) : Prop :=
  Forall2 (fun c row => er_aggregate_type row = "TASK" /\ er_aggregate_id row = fst c /\
    er_revision row = snd c + 1 /\ snd c + 1 <= max_i64) cs rows.

Lemma bump_rows_other cs rows ty id :
  bump_rows cs rows -> ty <> "TASK" \/ (id ∉ cs.*1) -> logged ty id rows = [].
Proof.
  intros Hf Hno. apply logged_none. intros e He.
  destruct (Forall2_in_r _ _ _ _ Hf He) as (c & Hc & Hty & Hid & _).
  destruct (is_event_of ty id e) eqn:E; [|done]. exfalso.
  apply is_event_of_spec in E as [<- <-]. destruct Hno as [Hno|Hno]; [done|].
  apply Hno. rewrite Hid. by apply list_elem_of_fmap_2.
Qed.

Lemma bump_rows_in cs rows id rev :
  bump_rows cs rows -> NoDup cs.*1 -> (id, rev) ∈ cs ->
  logged "TASK" id rows = [rev + 1] /\ rev + 1 <= max_i64.
Proof.
  induction 1 as [|c row cs rows (Hty & Hid & Hrev & Hmax) Hf IH]; intros Hnd Hin;
    [by apply elem_of_nil in Hin|].
  cbn in Hnd. apply NoDup_cons in Hnd as [Hc Hnd]. rewrite logged_cons.
  apply elem_of_cons in Hin as [<-|Hin]; cbn [fst snd] in *.
  - rewrite (proj2 (is_event_of_spec "TASK" id row)) by done.
    rewrite (bump_rows_other cs rows "TASK" id Hf) by auto. rewrite Hrev. done.
  - destruct (is_event_of "TASK" id row) eqn:E; [|by apply IH]. exfalso.
    apply is_event_of_spec in E as [_ E]. apply Hc. rewrite <- Hid, E.
    apply list_elem_of_fmap. by exists (id, rev).
Qed.

Lemma event_rows_bumps f cs rows :
  (forall c, AggregateType (f c) = "TASK" /\ AggregateID (f c) = fst c /\
     Event_Revision (f c) = snd c + 1) ->
  (forall c, c ∈ cs -> uuid_column (fst c) = Some (fst c)) ->
  event_rows (map f cs) rows -> bump_rows cs rows.
Proof.
  intros Hf. revert rows. induction cs as [|c cs IH]; intros rows Hkey Hrows.
  { apply Forall2_nil_inv_l in Hrows as ->. constructor. }
  apply Forall2_cons_inv_l in Hrows as (row & rows' & Hrow & Hrows & ->). constructor.
  - destruct (Hf c) as (H1 & H2 & H3). destruct Hrow as [_ Hty Hagg Hrev Hb _ _ _ _ _].
    rewrite H2, (Hkey c) in Hagg by set_solver. injection Hagg as Hagg.
    rewrite Hty, H1, <- Hagg. rewrite H3 in Hrev. split_and!; try done. lia.
  - apply IH; [|done]. intros c' Hc'. apply Hkey. set_solver.
Qed.

(** ** Task commands *)

Lemma u64_next n z : 1 <= n <= max_i64 -> z = u64 (n + 1) -> z = n + 1.
Proof. intros Hn ->. apply u64_id. unfold max_i64 in Hn. lia. Qed.

(** The revisions a task command records. *)
Lemma task_commit_log c meta s s' r (tc : task_commit c meta s s' r) :
  log_ok s -> exists row rows, tc_rows _ _ _ _ _ tc = row :: rows /\
    er_aggregate_type row = "TASK" /\ er_aggregate_id row = tc_id _ _ _ _ _ tc /\
    er_revision row = tr_revision (tc_old _ _ _ _ _ tc) + 1 /\
    tr_revision (tc_new _ _ _ _ _ tc) = tr_revision (tc_old _ _ _ _ _ tc) + 1 /\
    er_revision row <= max_i64 /\ bump_rows (tc_ready _ _ _ _ _ tc) rows.
Proof.
  intros Hlog. pose proof (tc_events _ _ _ _ _ tc) as Hev.
  apply Forall2_cons_inv_l in Hev as (row & rows & Hrow & Hrows & ->).
  exists row, rows. split; [done|].
  destruct (tc_loaded _ _ _ _ _ tc) as (Hold & _ & Hcur).
  destruct (task_of_row_Ok _ _ _ Hcur) as (Hcid & _ & _ & Hcrev & _).
  destruct (Task_Apply_event _ _ _ _ (tc_applied _ _ _ _ _ tc)) as
    (ev & m & [= <-] & _ & _ & Hty & Hagg & Herev & Hnrev & _).
  destruct (tc_new_row _ _ _ _ _ tc) as (row0 & Hrow0 & -> & _).
  destruct (row_of_task_Ok _ _ Hrow0) as (_ & _ & Hr0 & _).
  destruct Hrow as [_ Ety Eagg Erev Eb _ _ _ _ _].
  destruct (lg_tasks s Hlog _ _ Hold) as [_ Hb].
  rewrite Hcrev in *. pose proof (u64_next _ _ Hb Herev) as He. pose proof (u64_next _ _ Hb Hnrev) as Hn.
  split; [congruence|]. split.
  { rewrite Hagg, Hcid, (lg_keys s Hlog) in Eagg by eauto. congruence. }
  split; [congruence|]. split; [cbn [over_task tr_revision]; congruence|].
  split; [lia|]. eapply event_rows_bumps; [| |exact Hrows]; [done|].
  intros [i rev] Hin. apply (lg_keys s Hlog).
  apply (tc_ready_spec _ _ _ _ _ tc) in Hin as (_ & x & _ & Hx & _). cbn.
  apply lookup_insert_Some in Hx as [[<- _]|[_ Hx]]; eauto.
Qed.

(** The rows of the tasks after the command and the log of their changes. *)
Lemma log_task c meta s s' r : log_ok s -> task_commit c meta s s' r -> log_ok s'.
Proof.
  intros Hlog tc.
  destruct (task_commit_log _ _ _ _ _ tc Hlog) as
    (row & rows & Hrows & Hty & Hagg & Hrev & Hnew & Hmax & Hb).
  destruct (tc_ready_spec _ _ _ _ _ tc) as [Hnd Hready].
  destruct (tc_loaded _ _ _ _ _ tc) as (Hold & _).
  assert (Hevents : events s' = events s ++ row :: rows)
    by (rewrite (f_equal events (tc_final _ _ _ _ _ tc)), Hrows; done).
  destruct (task_commit_runs _ _ _ _ _ tc) as [Hruns _].
  assert (Hnotready : (tc_id _ _ _ _ _ tc) ∉ (tc_ready _ _ _ _ _ tc).*1).
  { intros Hin. apply list_elem_of_fmap in Hin as ([i rev] & Hi & Hin).
    apply Hready in Hin as (Hacc & x & _ & Hx & _ & Hst & _). cbn in Hi. subst i.
    rewrite lookup_insert_eq in Hx. congruence. }
  split.
  - intros id r0. rewrite Hruns, Hevents. intros Hr. apply complete_same; [by apply (lg_runs s Hlog)|].
    rewrite logged_cons, (bump_rows_other _ _ "RUN" id Hb) by auto.
    unfold is_event_of. by rewrite Hty.
  - intros id t Ht. rewrite Hevents.
    destruct (decide (id = tc_id _ _ _ _ _ tc)) as [->|Hne].
    + rewrite (tc_id_lookup _ _ _ _ _ tc) in Ht. injection Ht as <-. rewrite Hnew.
      apply complete_next; [by apply (lg_tasks s Hlog)| |lia].
      rewrite logged_cons, (bump_rows_other _ _ "TASK" _ Hb) by auto.
      rewrite (proj2 (is_event_of_spec "TASK" _ row)) by done. by rewrite Hrev.
    + assert (Hfirst : is_event_of "TASK" id row = false).
      { destruct (is_event_of "TASK" id row) eqn:E; [|done].
        apply is_event_of_spec in E as [_ E]. congruence. }
      pose proof (f_equal tasks (tc_final _ _ _ _ _ tc)) as Hts. cbn [tasks] in Hts.
      rewrite Hts, bump_all_lookup, lookup_insert_ne in Ht by done.
      case_decide as Hin.
      * apply list_elem_of_fmap in Hin as ([i rev] & -> & Hin). cbn [fst] in *.
        pose proof (bump_rows_in _ _ _ _ Hb Hnd Hin) as [Hl Hm].
        apply Hready in Hin as (_ & x & _ & Hx & _ & _ & Hxr & _).
        rewrite lookup_insert_ne in Hx by done. rewrite Hx in Ht. injection Ht as <-.
        cbn. rewrite Hxr. apply complete_next; [rewrite <- Hxr; by apply (lg_tasks s Hlog)| |done].
        by rewrite logged_cons, Hfirst, Hl.
      * apply complete_same; [by apply (lg_tasks s Hlog)|].
        by rewrite logged_cons, Hfirst, (bump_rows_other _ _ "TASK" id Hb) by auto.
  - intros e. rewrite Hevents, Hruns. intros [He|He]%elem_of_app.
    + destruct (lg_owned s Hlog e He) as [?|[Ht [x Hx]]]; [by left|right].
      destruct (task_commit_domain _ _ _ _ _ tc _ _ Hx) as (x' & ? & _). eauto.
    + right. assert (Hkey : er_aggregate_type e = "TASK" /\ is_Some (tasks s !! er_aggregate_id e)).
      { apply elem_of_cons in He as [->|He]; [split; [done|rewrite Hagg; eauto]|].
        destruct (Forall2_in_r _ _ _ _ Hb He) as ([i rev] & Hc & -> & -> & _). split; [done|].
        apply Hready in Hc as (_ & x & _ & Hx & _). cbn.
        apply lookup_insert_Some in Hx as [[<- _]|[_ Hx]]; eauto. }
      destruct Hkey as [? [x Hx]]. split; [done|].
      destruct (task_commit_domain _ _ _ _ _ tc _ _ Hx) as (x' & ? & _). eauto.
  - intros id [x Hx]. destruct (task_commit_lookup _ _ _ _ _ tc _ _ Hx) as (row0 & Hr & _).
    apply (lg_keys s Hlog). eauto.
Qed.

(** ** Run commands *)

Definition planned_event (t : Task) (e : Event) : Prop :=
  AggregateType e = "TASK" /\ AggregateID e = Task_ID t /\ Event_Revision e = 1.

Lemma buildPlannedTasks_events run inc m defs :
  Forall2 planned_event (map fst (map (buildPlannedTask run inc m) defs))
    (map snd (map (buildPlannedTask run inc m) defs)).
Proof.
  induction defs as [|x l IH]; constructor; [|done].
  unfold buildPlannedTask. by destruct (get_int _ _ =? 0).
Qed.

(** The events of a decision: one of the run, then one per planned task. *)
Lemma decision_shape cur c d :
  decideRunCommand cur c = Ok d ->
  exists e evs, decision_events d = e :: evs /\ AggregateType e = "RUN" /\
    AggregateID e = Run_ID (next d) /\ Event_Revision e = Run_Revision (next d) /\
    (match c with
     | CreateRun _ _ => Run_Revision (next d) = 1
     | _ => Run_Revision (next d) = u64 (Run_Revision cur + 1)
     end) /\ Forall2 planned_event (decision_tasks d) evs.
Proof.
  intros [_ Hr]%decideRunCommand_Ok.
  destruct c; lazy iota beta in Hr |- *.
  2-6,8-18: destruct Hr as (Hr & -> & _); apply Run_Apply_Ok in Hr as (m & tr & _ & _ & Ht & [= -> ->]);
    apply transition_frame in Ht as (_ & Hrev & _); eexists _, []; cbn;
    rewrite Hrev; split_and!; try reflexivity; constructor.
  - destruct Hr as (Hr & -> & _). apply NewRun_Ok in Hr as (_ & _ & Hrev & m & [= _ ->] & _ & _ & _ & ->).
    eexists _, []. split_and!; try reflexivity; [done|constructor].
  - apply Run_ApproveTaskGraph_Ok in Hr as
      (m & g & defs & deps & gr & evs & _ & _ & _ & _ & _ & _ & _ & -> & Hp & [= -> ->]).
    cbn in Hp. apply NewPlannedTasks_Ok in Hp as (_ & _ & g' & _ & [= -> ->]).
    eexists _, _. split; [reflexivity|]. do 4 (split; [reflexivity|]). apply buildPlannedTasks_events.
Qed.

Lemma planned_bump_rows s ts rows l erows :
  Forall2 (task_inserted s) ts rows -> Forall2 planned_event ts l -> event_rows l erows ->
  bump_rows (map (fun c => (c.1, 0)) rows) erows.
Proof.
  intros Hf. revert l erows. induction Hf as [|t c ts rows (Hcol & _) _ IH]; intros l erows Hp He.
  { apply Forall2_nil_inv_l in Hp as ->. apply Forall2_nil_inv_l in He as ->. constructor. }
  apply Forall2_cons_inv_l in Hp as (e & l' & (Hty & Hagg & Hrev) & Hp & ->).
  apply Forall2_cons_inv_l in He as (row & erows' & Hrow & He & ->).
  constructor; [|by eapply IH]. destruct Hrow as [_ Ety Eagg Erev Eb _ _ _ _ _].
  cbn. split_and!; congruence || lia.
Qed.

Section run_commit.
Context (c : RunCommand) (meta : CommandEnvelope) (s s' : db) (r : CommandResult).
Context (rc : run_commit c meta s s' r).

#[local] Abbreviation id := (rc_id _ _ _ _ _ rc).
#[local] Abbreviation d := (rc_decision _ _ _ _ _ rc).
#[local] Abbreviation new := (rc_new _ _ _ _ _ rc).
(** The tasks whose revision the command moves, with their revision before. *)
#[local] Abbreviation moved :=
  (map (fun c => (c.1, 0)) (rc_tasks _ _ _ _ _ rc) ++ rc_cancelled _ _ _ _ _ rc).

Lemma rc_cancelled_spec :
  NoDup (rc_cancelled _ _ _ _ _ rc).*1 /\
  (forall i rev, (i, rev) ∈ rc_cancelled _ _ _ _ _ rc -> exists row, tasks s !! i = Some row /\
     tr_revision row = rev) /\
  (exists f, (forall x, AggregateType (f x) = "TASK" /\ AggregateID (f x) = fst x /\
       Event_Revision (f x) = snd x + 1) /\
     rc_cancel_events _ _ _ _ _ rc = map f (rc_cancelled _ _ _ _ _ rc)).
Proof.
  pose proof (rc_cancel _ _ _ _ _ rc) as Hcan.
  destruct c; lazy iota beta in Hcan;
    try (destruct Hcan as [-> ->]; split; [constructor|]; split; [set_solver|];
         exists (cancel_event "" meta ""); done).
  destruct Hcan as (Hnd & Hcs & ->). split; [done|]. split.
  - intros i rev Hin. apply Hcs in Hin as (row & ? & _ & _ & ?). eauto.
  - eexists. split; [|reflexivity]. done.
Qed.

Lemma moved_NoDup : NoDup moved.*1.
Proof.
  destruct rc_cancelled_spec as (Hndc & Hcs & _).
  destruct (rc_inserted _ _ _ _ _ rc) as (_ & Hnd & Hfresh).
  rewrite fmap_app. apply NoDup_app. split; [|split; [|done]].
  - by rewrite map_map.
  - intros i Hi Hin. rewrite map_map in Hi. apply list_elem_of_fmap in Hi as (x & -> & Hx).
    apply list_elem_of_fmap in Hin as ([j rev] & Hj & Hin). cbn in Hj.
    apply Hcs in Hin as (row & Hrow & _). rewrite <- Hj, (Hfresh _ Hx) in Hrow. done.
Qed.

Context (Hlog : log_ok s).

Lemma run_commit_log :
  exists row rows, rc_rows _ _ _ _ _ rc = row :: rows /\
    er_aggregate_type row = "RUN" /\ er_aggregate_id row = id /\
    er_revision row = rr_revision new /\ er_revision row <= max_i64 /\
    bump_rows moved rows.
Proof.
  destruct (decision_shape _ _ _ (rc_decided _ _ _ _ _ rc)) as
    (e & evs & He & Hty & Hagg & Hrev & _ & Hpl).
  destruct rc_cancelled_spec as (_ & Hcs & f & Hf & Hce).
  destruct (rc_new_state _ _ _ _ _ rc) as [_ Hnew].
  pose proof (rc_events _ _ _ _ _ rc) as Hev. rewrite He, Hce in Hev.
  apply Forall2_cons_inv_l in Hev as (row & rows & Hrow & Hrows & ->).
  apply Forall2_app_inv_l in Hrows as (rows1 & rows2 & H1 & H2 & ->).
  exists row, (rows1 ++ rows2). split; [done|].
  destruct Hrow as [_ Ety Eagg Erev Eb _ _ _ _ _].
  pose proof (rc_key _ _ _ _ _ rc) as Hkey.
  split; [congruence|]. split; [congruence|]. split; [congruence|]. split; [lia|].
  apply Forall2_app.
  - destruct (rc_inserted _ _ _ _ _ rc) as (Hins & _). by eapply planned_bump_rows.
  - eapply event_rows_bumps; [exact Hf| |exact H2].
    intros [i rev] Hin. apply Hcs in Hin as (x & Hx & _). apply (lg_keys s Hlog). eauto.
Qed.

Lemma rc_next_revision :
  runs s !! id = None /\ rr_revision new = 1 \/
  exists old, runs s !! id = Some old /\ rr_revision new = rr_revision old + 1.
Proof.
  destruct (rc_new_state _ _ _ _ _ rc) as [_ Hnew].
  destruct (decision_shape _ _ _ (rc_decided _ _ _ _ _ rc)) as (_ & _ & _ & _ & _ & _ & Hn & _).
  destruct (rc_before _ _ _ _ _ rc) as [((m & i & ->) & Hnone & _)|(old & Hold & _ & Hrev & _ & Hnc)];
    [left|right].
  - split; [done|congruence].
  - exists old. split; [done|]. destruct (lg_runs s Hlog _ _ Hold) as [_ Hb].
    apply (u64_next _ _ Hb). rewrite Hnew, Hrev.
    destruct c; try exact Hn. by destruct (Hnc Meta ID).
Qed.

Lemma moved_task i row' :
  tasks s' !! i = Some row' ->
  (tasks s !! i = None /\ tr_revision row' = 1 /\ (i, 0) ∈ moved) \/
  exists row, tasks s !! i = Some row /\
    ((i, tr_revision row) ∈ moved /\ tr_revision row' = tr_revision row + 1 \/
     (i ∉ moved.*1) /\ row' = row).
Proof.
  intros Hl. destruct (rc_inserted _ _ _ _ _ rc) as (_ & _ & Hfresh).
  destruct rc_cancelled_spec as (Hndc & Hcs & _).
  pose proof Hl as Hl'. rewrite (rc_tasks_eq _ _ _ _ _ rc) in Hl'.
  apply lookup_union_Some_raw in Hl' as [Hin|[Hnone Hl']].
  - left. apply elem_of_list_to_map_2 in Hin. split; [by apply (Hfresh (i, row'))|].
    destruct (rc_new_task _ _ _ _ _ rc _ _ Hin) as (t & _ & _ & _ & _ & Hrev). split; [done|].
    apply elem_of_app. left. apply list_elem_of_fmap. by exists (i, row').
  - right. rewrite bump_all_lookup in Hl' by done.
    assert (Hnew : i ∉ (map (fun c => (c.1, 0)) (rc_tasks _ _ _ _ _ rc)).*1)
      by (rewrite map_map; by apply not_elem_of_list_to_map_2).
    case_decide as Hin.
    + pose proof Hin as Hin'. apply list_elem_of_fmap in Hin' as ([j rev] & -> & Hin').
      destruct (Hcs _ _ Hin') as (row & Hrow & <-). cbn [fst] in *. rewrite Hrow in Hl'.
      injection Hl' as <-. exists row. split; [done|]. left. cbn. split; [|done].
      apply elem_of_app. by right.
    + exists row'. split; [done|]. right. split; [|done]. rewrite fmap_app. set_solver.
Qed.

Lemma log_run : log_ok s'.
Proof.
  destruct run_commit_log as (row & rows & Hrows & Hty & Hagg & Hrev & Hmax & Hb).
  assert (Hevents : events s' = events s ++ row :: rows)
    by (rewrite (f_equal events (rc_final _ _ _ _ _ rc)), Hrows; done).
  assert (Hrun : forall ty i, logged ty i (row :: rows) =
    (if is_event_of ty i row then [rr_revision new] else []) ++ logged ty i rows)
    by (intros; by rewrite logged_cons, Hrev).
  split.
  - intros i r0. rewrite (rc_runs _ _ _ _ _ rc), Hevents. destruct (decide (i = id)) as [->|Hne].
    + rewrite lookup_insert_eq. intros [= <-].
      assert (Hl : logged "RUN" id (row :: rows) = [rr_revision new]).
      { rewrite Hrun, (proj2 (is_event_of_spec "RUN" id row)) by done.
        by rewrite (bump_rows_other _ _ "RUN" id Hb) by auto. }
      destruct rc_next_revision as [[Hnone ->]|(old & Hold & Hn)].
      * apply complete_first; [by apply unlogged|]. rewrite Hl.
        destruct rc_next_revision as [[_ ->]|(old & Hold & _)]; [done|congruence].
      * rewrite Hn. apply complete_next; [by apply (lg_runs s Hlog)|by rewrite Hl, Hn|lia].
    + rewrite lookup_insert_ne by done. intros Hr. apply complete_same; [by apply (lg_runs s Hlog)|].
      rewrite Hrun, (bump_rows_other _ _ "RUN" i Hb) by auto.
      destruct (is_event_of "RUN" i row) eqn:E; [|done]. apply is_event_of_spec in E as [_ E]. congruence.
  - intros i t Ht. rewrite Hevents.
    assert (Hl : logged "TASK" i (row :: rows) = logged "TASK" i rows).
    { rewrite Hrun. destruct (is_event_of "TASK" i row) eqn:E; [|done].
      apply is_event_of_spec in E as [E _]. congruence. }
    destruct (moved_task _ _ Ht) as [(Hnone & -> & Hin)|(row0 & Hrow0 & [[Hin ->]|[Hin ->]])].
    + apply complete_first; [by apply unlogged|]. rewrite Hl.
      apply (bump_rows_in _ _ _ 0 Hb moved_NoDup Hin).
    + destruct (bump_rows_in _ _ _ _ Hb moved_NoDup Hin) as [Hlog' ?].
      apply complete_next; [by apply (lg_tasks s Hlog)|by rewrite Hl|done].
    + apply complete_same; [by apply (lg_tasks s Hlog)|]. rewrite Hl.
      by apply (bump_rows_other _ _ "TASK" i Hb); right.
  - intros e. rewrite Hevents. intros [He|He]%elem_of_app.
    + destruct (lg_owned s Hlog e He) as [[? Hx]|[? [x Hx]]]; [left|right]; (split; [done|]).
      * rewrite (rc_runs _ _ _ _ _ rc). apply lookup_insert_is_Some'. by right.
      * destruct (run_commit_domain _ _ _ _ _ rc _ _ Hx) as (x' & ? & _). eauto.
    + apply elem_of_cons in He as [->|He].
      * left. split; [done|]. rewrite (rc_runs _ _ _ _ _ rc), Hagg, lookup_insert_eq. eauto.
      * right. destruct (Forall2_in_r _ _ _ _ Hb He) as ([i rev] & Hin & -> & -> & _).
        split; [done|]. cbn [fst]. apply elem_of_app in Hin as [Hin|Hin].
        -- apply list_elem_of_fmap in Hin as ([j x] & [= -> _] & Hin).
           destruct (rc_inserted _ _ _ _ _ rc) as (_ & Hnd & _).
           rewrite (rc_tasks_eq _ _ _ _ _ rc). exists x. apply lookup_union_Some_l.
           by apply elem_of_list_to_map_1.
        -- destruct rc_cancelled_spec as (_ & Hcs & _). destruct (Hcs _ _ Hin) as (x & Hx & _).
           destruct (run_commit_domain _ _ _ _ _ rc _ _ Hx) as (x' & ? & _). eauto.
  - intros i [x Hx]. destruct (run_commit_lookup _ _ _ _ _ rc _ _ Hx) as [Hin|(_ & row0 & Hr & _)].
    + destruct (rc_new_task _ _ _ _ _ rc _ _ Hin) as (t & _ & (Hcol & _) & _).
      by eapply uuid_column_canonical.
    + apply (lg_keys s Hlog). eauto.
Qed.

End run_commit.

Lemma log_kept : kept log_ok.
Proof.
  split.
  - split; cbn; try done; intros *; [by intros ?%elem_of_nil|by intros [? ?]].
  - intros c meta s s' r Hg _ _ rc. by eapply log_run.
  - intros c meta s s' r Hg _ _ tc. by eapply log_task.
Qed.

End log.

(** * What the queries return

    In a reachable database every stored event can be read, the history of an
    aggregate is complete, and the list of pending approvals names exactly
    what waits for a human. *)

(** ** Stored events can be read *)

Definition readable `{Platform} (row : event_row) : Prop :=
  Actor_Validate (mkActor (er_actor_id row) (er_actor_kind row)) = Ok tt /\
  1 <= er_revision row /\ exists fields, er_payload row = JObj fields.

Definition all_readable `{Platform} (s : db) : Prop := Forall readable (events s).

Section readable.
Context `{Hlaws : PlatformLaws}.

Lemma stored_readable e row :
  stored_event e row -> Actor_Validate (Event_Actor e) = Ok tt -> readable row.
Proof.
  intros [_ _ _ _ Hb _ Hactor Hkind _ Hp] Ha.
  apply res_bind_Ok in Ha as ([] & Hid & Hk). unfold validateID in Hid.
  destruct (uuid_Parse_ok (Actor_ID (Event_Actor e))) eqn:Eid; [|done].
  destruct (uuid_text _ _ Eid Hactor) as (_ & _ & Hok).
  split; [|split; [lia|]].
  - unfold Actor_Validate, validateID. cbn. by rewrite Hok, Hkind.
  - rewrite Hp. unfold payload_json. cbn. eauto.
Qed.

Lemma event_rows_readable l rows :
  event_rows l rows -> Forall (fun e => Actor_Validate (Event_Actor e) = Ok tt) l ->
  Forall readable rows.
Proof.
  induction 1 as [|e row l rows Hrow _ IH]; intros Hl; [constructor|].
  apply Forall_cons in Hl as [He Hl]. constructor; [by eapply stored_readable|auto].
Qed.

(** All events of a command carry its actor. *)
Lemma decision_actor cur c d meta :
  decideRunCommand cur c = Ok d -> RunCommand_Envelope c = Some meta ->
  Forall (fun e => Event_Actor e = Envelope_Actor meta) (decision_events d).
Proof.
  intros [_ Hr]%decideRunCommand_Ok He.
  destruct c; lazy iota beta in Hr; try discriminate He; injection He as ->.
  2-6,8-17: destruct Hr as [Hr _]; apply Run_Apply_Ok in Hr as (m & tr & [= ->] & _ & _ & [= _ ->]);
    by repeat constructor.
  - destruct Hr as [Hr _]. apply NewRun_Ok in Hr as (_ & _ & _ & m & [= -> _] & _ & _ & _ & ->).
    by repeat constructor.
  - apply Run_ApproveTaskGraph_Ok in Hr as
      (m & g & defs & deps & gr & evs & [= <- _ _ <- <-] & _ & _ & _ & _ & _ & _ & _ & Hp & Hd).
    injection Hd as _ ->. apply NewPlannedTasks_Ok in Hp as (_ & _ & g' & _ & [= _ ->]).
    constructor; [done|]. rewrite map_map. apply Forall_map, Forall_forall.
    intros x _. unfold buildPlannedTask. by destruct (get_int _ _ =? 0).
Qed.

Lemma readable_kept : kept all_readable.
Proof.
  split.
  - constructor.
  - intros c meta s s' r Hs Hv He rc.
    assert (Hev : events s' = events s ++ rc_rows _ _ _ _ _ rc)
      by exact (f_equal events (rc_final _ _ _ _ _ rc)).
    unfold all_readable. rewrite Hev. apply Forall_app. split; [exact Hs|].
    unfold validateRunCommand in Hv. rewrite He in Hv.
    apply res_bind_Ok in Hv as ([] & Hm & _). apply CommandEnvelope_Validate_Ok in Hm as (_ & _ & _ & Ha & _).
    eapply event_rows_readable; [apply (rc_events _ _ _ _ _ rc)|]. apply Forall_app. split.
    + eapply Forall_impl; [by eapply (decision_actor _ _ _ _ (rc_decided _ _ _ _ _ rc))|].
      cbn. by intros e ->.
    + pose proof (rc_cancel _ _ _ _ _ rc) as Hcan.
      destruct c; lazy iota beta in Hcan; try (destruct Hcan as [_ ->]; constructor).
      destruct Hcan as (_ & _ & ->). injection He as ->. by apply Forall_map, Forall_forall.
  - intros c meta s s' r Hs Hv He tc.
    assert (Hev : events s' = events s ++ tc_rows _ _ _ _ _ tc)
      by exact (f_equal events (tc_final _ _ _ _ _ tc)).
    unfold all_readable. rewrite Hev. apply Forall_app. split; [exact Hs|].
    unfold validateTaskCommand in Hv. rewrite He in Hv.
    apply res_bind_Ok in Hv as ([] & Hm & _). apply CommandEnvelope_Validate_Ok in Hm as (_ & _ & _ & Ha & _).
    eapply event_rows_readable; [apply (tc_events _ _ _ _ _ tc)|].
    pose proof (tc_applied _ _ _ _ _ tc) as Happ.
    apply Task_Apply_Ok in Happ as (m & tr & Hm & _ & _ & [= _ Hte]).
    assert (m = meta) as -> by congruence. constructor.
    + by rewrite Hte.
    + by apply Forall_map, Forall_forall.
Qed.

Lemma list_event_readable row :
  readable row -> exists e, list_event row = Ok e /\ Listed_Revision e = er_revision row /\
    Listed_AggregateType e = er_aggregate_type row /\ Listed_AggregateID e = er_aggregate_id row.
Proof.
  intros (Ha & Hr & fields & Hp). unfold list_event. rewrite Hp, Ha. cbn.
  destruct (Z.eqb_spec (er_revision row) 0); [lia|]. eexists. split; [reflexivity|done].
Qed.

Lemma list_events_readable rows :
  Forall readable rows -> exists evs, map_each list_event rows = Ok evs /\
    map Listed_Revision evs = map er_revision rows.
Proof.
  induction 1 as [|row rows Hrow _ (evs & He & Hm)]; [by exists []|].
  destruct (list_event_readable row Hrow) as (e & Hle & Hrev & _).
  exists (e :: evs). cbn [map_each]. rewrite Hle. cbn. rewrite He. cbn. by rewrite Hrev, Hm.
Qed.

Lemma ListEvents_complete s ty id n :
  all_readable s -> text_column ty = Ok ty -> uuid_column id = Some id ->
  complete ty id (events s) n ->
  exists evs, ListEvents ty id s = Ok evs /\ map Listed_Revision evs = seqZ 1 n.
Proof.
  intros Hr Hty Hid [Hl _]. unfold ListEvents, uuid_param. rewrite Hty, Hid. cbn.
  destruct (list_events_readable (List.filter (is_event_of ty id) (events s))) as (evs & He & Hm).
  { apply Forall_forall. intros e [He _]%list_elem_of_In%List.filter_In.
    eapply Forall_forall in Hr; [exact Hr|]. by apply list_elem_of_In. }
  exists evs. split; [exact He|]. by rewrite Hm.
Qed.

(** Keys of stored runs are canonical. *)
Definition run_keys (s : db) : Prop := forall id, is_Some (runs s !! id) -> uuid_column id = Some id.

Lemma run_keys_kept : kept run_keys.
Proof.
  split.
  - intros id [x Hx]. discriminate Hx.
  - intros c meta s s' r Hs _ _ rc id. rewrite (rc_runs _ _ _ _ _ rc).
    intros [<-|[_ Hx]]%lookup_insert_is_Some; [|by apply Hs].
    eapply uuid_column_canonical, (rc_key _ _ _ _ _ rc).
  - intros c meta s s' r Hs _ _ tc id. rewrite (proj1 (task_commit_runs _ _ _ _ _ tc)). apply Hs.
Qed.

(** ** Pending approvals *)

Lemma query_each_quiet {A} (f : A -> db -> res PendingApproval) s n l items :
  query_each f (fun _ => s) n l = Ok items <-> map_each (fun a => f a s) l = Ok items.
Proof.
  revert n items. induction l as [|a l IH]; intros n items; cbn; [done|].
  rewrite !res_bind_Ok. split; intros (x & Hx & (y & Hy & Hr)%res_bind_Ok); exists x;
    (split; [done|]); apply res_bind_Ok; exists y; (split; [by eapply IH|done]).
Qed.

Lemma omap_found {V K} `{Countable K} {B} (m : gmap K V) (f : K -> V -> B) (l : list (Z * K)) b :
  b ∈ omap (fun '(_, id) => f id <$> m !! id) l <-> exists z id v, (z, id) ∈ l /\ m !! id = Some v /\ b = f id v.
Proof.
  rewrite list_elem_of_omap. split.
  - intros ([z id] & Hin & Hf). destruct (m !! id) as [v|] eqn:E; [|done].
    injection Hf as <-. exists z, id, v. done.
  - intros (z & id & v & Hin & Hv & ->). exists (z, id). split; [done|]. by rewrite Hv.
Qed.

Lemma pending_runs_spec s id st :
  (id, st) ∈ pending_runs s <-> exists r, runs s !! id = Some r /\ rr_state r = st /\
    awaits_human st = true.
Proof.
  unfold pending_runs. rewrite (omap_found (runs s) (fun id r => (id, rr_state r))). split.
  - intros (z & i & r & Hin & Hr & [= -> ->]). exists r. split_and!; try done.
    rewrite (merge_sort_Permutation by_creation) in Hin. apply list_elem_of_fmap in Hin as ([j r'] & [= -> ->] & Hin).
    apply list_elem_of_In, List.filter_In in Hin as [Hin%list_elem_of_In%elem_of_map_to_list Ha].
    congruence.
  - intros (r & Hr & <- & Ha). exists (rr_created r), id, r. split; [|done].
    rewrite (merge_sort_Permutation by_creation). apply list_elem_of_fmap. exists (id, r). split; [done|].
    apply list_elem_of_In, List.filter_In. split; [|done]. by apply list_elem_of_In, elem_of_map_to_list.
Qed.

Lemma pending_tasks_spec s run id :
  (run, id) ∈ pending_tasks s <-> exists t, tasks s !! id = Some t /\ tr_run t = run /\
    tr_state t = TaskStateAwaitingApproval.
Proof.
  unfold pending_tasks. rewrite (omap_found (tasks s) (fun id t => (tr_run t, id))). split.
  - intros (z & i & t & Hin & Ht & [= -> ->]). exists t. split_and!; try done.
    rewrite (merge_sort_Permutation by_creation) in Hin. apply list_elem_of_fmap in Hin as ([j t'] & [= -> ->] & Hin).
    apply list_elem_of_In, List.filter_In in Hin as [Hin%list_elem_of_In%elem_of_map_to_list Ha].
    rewrite bool_decide_eq_true in Ha. congruence.
  - intros (t & Ht & <- & Ha). exists (tr_created t), id, t. split; [|done].
    rewrite (merge_sort_Permutation by_creation). apply list_elem_of_fmap. exists (id, t). split; [done|].
    apply list_elem_of_In, List.filter_In. split; [by apply list_elem_of_In, elem_of_map_to_list|].
    by apply bool_decide_eq_true.
Qed.

Lemma pending_run_Ok id st s item :
  runs s !! id <> None -> run_keys s -> pending_run (id, st) s = Ok item ->
  exists r, runs s !! id = Some r /\ Pending_Kind item = RunState_string st /\
    Pending_RunID item = id /\ Pending_TaskID item = "" /\ Pending_Revision item = rr_revision r.
Proof.
  intros Hin Hk Hr. unfold pending_run in Hr. apply res_bind_Ok in Hr as (run & Hg & [= <-]).
  unfold GetRun in Hg. apply res_bind_Ok in Hg as ([run' s'] & Hl & [= <-]).
  apply loadRun_Ok in Hl as (_ & k & row & Hc & Hrow & Hof).
  rewrite Hk in Hc by (by apply not_eq_None_Some). injection Hc as <-.
  apply run_of_row_Ok in Hof as (-> & _ & -> & _). exists row. done.
Qed.

Lemma pending_task_Ok run id s item :
  pending_task (run, id) s = Ok item ->
  uuid_column id = Some id -> exists t, tasks s !! id = Some t /\
    Pending_Kind item = "TASK" /\ Pending_RunID item = run /\ Pending_TaskID item = id /\
    Pending_Revision item = tr_revision t.
Proof.
  intros Hr Hk. unfold pending_task in Hr. apply res_bind_Ok in Hr as (t & Hg & [= <-]).
  unfold GetTask in Hg. apply res_bind_Ok in Hg as ([t' s'] & Hl & [= <-]).
  apply loadTask_Ok in Hl as (_ & r & k & row & _ & Hc & Hrow & _ & Hof).
  assert (k = id) as -> by congruence.
  apply task_of_row_Ok in Hof as (_ & _ & _ & -> & _). exists row. done.
Qed.

(** ** The properties *)

(** C30: the history of an aggregate is complete.  In every reachable database
    the events of a run or of a task can be listed, and they are numbered 1,
    2, ..., n in the order of the log, where n is the revision of the stored
    row: no change is missing, duplicated or out of order. *)
Theorem history_is_complete (s : db) :
  reachable s ->
  (forall id r, runs s !! id = Some r -> exists evs,
     ListEvents "RUN" id s = Ok evs /\ map Listed_Revision evs = seqZ 1 (rr_revision r)) /\
  (forall id t, tasks s !! id = Some t -> exists evs,
     ListEvents "TASK" id s = Ok evs /\ map Listed_Revision evs = seqZ 1 (tr_revision t)).
Proof.
  intros Hs. pose proof (reachable_kept _ _ log_kept Hs) as Hlog.
  pose proof (reachable_kept _ _ readable_kept Hs) as Hr.
  pose proof (reachable_kept _ _ run_keys_kept Hs) as Hk.
  split; intros id x Hx; (apply ListEvents_complete; [done|done| |]).
  - apply Hk. eauto.
  - by apply (lg_runs s Hlog).
  - apply (lg_keys s Hlog). eauto.
  - by apply (lg_tasks s Hlog).
Qed.

(** The list of pending approvals is exact.  Read from a reachable database
    that does not change meanwhile, it has an item for every run that waits
    for a human decision and for every task that awaits its approval, with
    their current revision, and no other item. *)
Theorem pending_approvals_exact (s : db) (items : list PendingApproval) :
  reachable s -> ListPendingApprovals (fun _ => s) = Ok items ->
  forall kind run task revision,
    (exists item, item ∈ items /\ Pending_Kind item = kind /\ Pending_RunID item = run /\
       Pending_TaskID item = task /\ Pending_Revision item = revision) <->
    (exists r, runs s !! run = Some r /\ awaits_human (rr_state r) = true /\
       kind = RunState_string (rr_state r) /\ task = "" /\ revision = rr_revision r) \/
    (exists t, tasks s !! task = Some t /\ tr_state t = TaskStateAwaitingApproval /\
       kind = "TASK" /\ run = tr_run t /\ revision = tr_revision t).
Proof.
  intros Hs Hl kind run task revision.
  pose proof (reachable_kept _ _ log_kept Hs) as Hlog.
  pose proof (reachable_kept _ _ run_keys_kept Hs) as Hk.
  unfold ListPendingApprovals in Hl.
  apply res_bind_Ok in Hl as (rs & Hrs%query_each_quiet%map_each_Ok & Hl).
  apply res_bind_Ok in Hl as (ts & Hts%query_each_quiet%map_each_Ok & [= <-]).
  split.
  - intros (item & Hin & <- & <- & <- & <-). apply elem_of_app in Hin as [Hin|Hin]; [left|right].
    + destruct (Forall2_in_r _ _ _ _ Hrs Hin) as ([i st] & Hi & Hp).
      apply pending_runs_spec in Hi as (r & Hr & <- & Ha).
      apply pending_run_Ok in Hp as (r' & Hr' & -> & -> & -> & ->); [|congruence|done].
      exists r. assert (r' = r) as -> by congruence. done.
    + destruct (Forall2_in_r _ _ _ _ Hts Hin) as ([ru i] & Hi & Hp).
      apply pending_tasks_spec in Hi as (t & Ht & <- & Ha).
      apply pending_task_Ok in Hp as (t' & Ht' & -> & -> & -> & ->); [|apply (lg_keys s Hlog); eauto].
      exists t. assert (t' = t) as -> by congruence. done.
  - intros [(r & Hr & Ha & -> & -> & ->)|(t & Ht & Ha & -> & -> & ->)].
    + destruct (Forall2_in_l _ _ _ (run, rr_state r) Hrs) as (item & Hi & Hp).
      { apply pending_runs_spec. eauto. }
      exists item. split; [apply elem_of_app; by left|].
      apply pending_run_Ok in Hp as (r' & Hr' & -> & -> & -> & ->); [|congruence|done].
      split_and!; congruence.
    + destruct (Forall2_in_l _ _ _ (tr_run t, task) Hts) as (item & Hi & Hp).
      { apply pending_tasks_spec. eauto. }
      exists item. split; [apply elem_of_app; by right|].
      apply pending_task_Ok in Hp as (t' & Ht' & -> & -> & -> & ->); [|apply (lg_keys s Hlog); eauto].
      split_and!; congruence.
Qed.

End readable.

(** ** Witnesses *)

Lemma history_is_complete_witness :
  rr_revision (stored_run delivered_db) = 10 /\
  exists evs, ListEvents "RUN" "run-1" delivered_db = Ok evs /\
    map Listed_Revision evs = seqZ 1 (rr_revision (stored_run delivered_db)).
Proof.
  split; [by vm_compute|].
  destruct (history_is_complete delivered_db) as [Hruns _].
  - apply execute_all_reachable, reachable_empty.
  - apply (Hruns "run-1" (stored_run delivered_db)). by vm_compute.
Defined.

(** A run whose specification waits for a human. *)
Definition review_db : db := execute_all (firstn 2 two_task_plan) empty_db.

Lemma pending_approvals_exact_witness :
  exists item, item ∈ result [] (ListPendingApprovals (fun _ => review_db)) /\
    Pending_Kind item = "SPECIFICATION_REVIEW" /\ Pending_RunID item = "run-1" /\
    Pending_TaskID item = "" /\ Pending_Revision item = 2.
Proof.
  apply (pending_approvals_exact review_db).
  - apply execute_all_reachable, reachable_empty.
  - by vm_compute.
  - left. exists (stored_run review_db). repeat split; by vm_compute.
Defined.
