(* ===== verification/WfRefine.v ===== *)
(** * The store refines the state machines

    A command that the store executes, whatever faults and competitors it
    meets, is a step of the pure state machine on the snapshot that was stored
    when its last attempt began, and what is loaded afterwards is the snapshot
    the step produced.  Conversely, the command that records a publication is
    carried out when the run is in the state for it. *)

From S2P Require Import Prelude GoStd GoJson PgRetry WfTypes WfTask WfPlan WfRun.
From S2P Require Import WfDigest WfDb WfStore WfStoreLemmas Samples WfTaskProps WfPlanProps WfRunProps.
From S2P Require Import WfCodec WfStoreTx WfReplay WfInvariants WfGuarantees WfHistory.

(** ** Columns of the stored tasks *)

Definition attempt_columns (s : db) : Prop :=
  forall id row, tasks s !! id = Some row ->
    0 <= tr_current_attempt row /\ tr_max_attempts row <= max_i32.

Section refine.
Context `{Hlaws : PlatformLaws}.

Lemma row_of_task_columns t row :
  row_of_task t = Ok row -> tr_max_attempts row <= max_i32 /\
    tr_created row = time_column (Task_CreatedAt t).
Proof.
  unfold row_of_task. intros Hr. go_run Hr. cbn. split; [|done].
  match goal with Hx : int_param (MaxAttempts t) = Ok _ |- _ =>
    unfold int_param in Hx; destruct (Z.leb_spec (MaxAttempts t) max_i32); [by injection Hx as <-|done] end.
Qed.

Lemma applyCommand_attempt t c tr :
  0 <= CurrentAttempt t -> applyCommand t c = Ok tr -> 0 <= CurrentAttempt (task_next tr).
Proof.
  intros Ht Hr. destruct c; task_cases Hr; cbn; try done; apply Z.mod_pos_bound; lia.
Qed.

Lemma attempt_columns_kept : kept attempt_columns.
Proof.
  split.
  - intros id row Hl. discriminate Hl.
  - intros c meta s s' r Hs _ _ rc id row Hl.
    destruct (run_commit_lookup _ _ _ _ _ rc _ _ Hl) as [Hin|(_ & row0 & Hl0 & _)].
    + destruct (rc_new_task _ _ _ _ _ rc _ _ Hin) as (t & Ht & (_ & Hrow & _) & _).
      destruct (row_of_task_columns _ _ Hrow) as [Hmax _]. cbn in Hmax, Hrow.
      apply row_of_task_Ok in Hrow as (_ & _ & _ & _ & Hcur). split; [|done]. rewrite Hcur.
      apply (decided_planned _ _ _ _ (rc_decided _ _ _ _ _ rc)) in Ht as
        (? & ? & ? & ? & _ & _ & _ & _ & _ & _ & _ & _ & gr & _ & def & _ & ->).
      unfold buildPlannedTask. by destruct (get_int _ _ =? 0).
    + rewrite (rc_tasks_eq _ _ _ _ _ rc) in Hl.
      apply lookup_union_Some_raw in Hl as [Hl|[_ Hl]].
      * apply elem_of_list_to_map_2 in Hl. destruct (rc_inserted _ _ _ _ _ rc) as (_ & _ & Hf).
        specialize (Hf _ Hl). cbn in Hf. congruence.
      * rewrite bump_all_lookup in Hl by apply (rc_cancelled_spec _ _ _ _ _ rc). rewrite Hl0 in Hl.
        specialize (Hs _ _ Hl0). case_decide; injection Hl as <-; exact Hs.
  - intros c meta s s' r Hs _ _ tc id row Hl.
    destruct (tc_loaded _ _ _ _ _ tc) as (Hold & _ & Hcur).
    destruct (decide (id = tc_id _ _ _ _ _ tc)) as [->|Hne].
    + rewrite (tc_id_lookup _ _ _ _ _ tc) in Hl. injection Hl as <-.
      destruct (tc_new_row _ _ _ _ _ tc) as (row0 & Hrow0 & -> & _). cbn.
      apply row_of_task_Ok in Hrow0 as (_ & _ & _ & _ & ->). destruct (Hs _ _ Hold) as [H0 Hmax].
      split; [|done]. pose proof (tc_applied _ _ _ _ _ tc) as Happ.
      apply Task_Apply_Ok in Happ as (m & tr & _ & _ & Ha & [= -> _]).
      cbn. eapply applyCommand_attempt; [|exact Ha].
      by destruct (task_of_row_Ok _ _ _ Hcur) as (_ & _ & _ & _ & _ & -> & _).
    + pose proof (f_equal tasks (tc_final _ _ _ _ _ tc)) as Hts. cbn [tasks] in Hts.
      rewrite Hts, bump_all_lookup, lookup_insert_ne in Hl by (done || apply (tc_ready_spec _ _ _ _ _ tc)).
      case_decide; [|by apply (Hs id)].
      destruct (tasks s !! id) as [x|] eqn:Ex; [|done]. injection Hl as <-. exact (Hs _ _ Ex).
Qed.

(** ** Tasks *)

Lemma time_column_scan us : time_column (scan_time us) = us.
Proof.
  unfold time_column, scan_time, UnixMicro. cbn [instant].
  replace (unix_epoch + us * 1000 - unix_epoch) with (us * 1000) by lia. by apply Z.div_mul.
Qed.

Lemma task_of_row_created id row t :
  task_of_row id row = Ok t -> Task_CreatedAt t = scan_time (tr_created row).
Proof.
  unfold task_of_row, bindings_apply. intros Hr. apply res_bind_Ok in Hr as (t0 & Ht0 & Hr).
  apply res_bind_Ok in Hr as ([] & _ & [= <-]). go_run Ht0. done.
Qed.

(** The row a command writes over the old one is the row of the next
    snapshot. *)
Lemma over_task_row c meta s s' r (tc : task_commit c meta s s' r) :
  row_of_task (tc_next _ _ _ _ _ tc) = Ok (tc_new _ _ _ _ _ tc).
Proof.
  destruct (tc_new_row _ _ _ _ _ tc) as (row & Hrow & -> & _). rewrite Hrow. f_equal.
  destruct (tc_loaded _ _ _ _ _ tc) as (_ & Hrun & Hcur).
  destruct (task_of_row_Ok _ _ _ Hcur) as (_ & Hcrun & _ & _ & Hcmax & _).
  pose proof (task_of_row_created _ _ _ Hcur) as Hcc.
  destruct (row_of_task_Ok _ _ Hrow) as (Hr & _ & _ & Hm & _).
  destruct (row_of_task_columns _ _ Hrow) as [_ Hc].
  pose proof (tc_applied _ _ _ _ _ tc) as Happ.
  apply Task_Apply_Ok in Happ as (m & tr & _ & _ & Ha & [= Hn _]).
  destruct (applyCommand_frame _ _ _ Ha) as (_ & Hfrun & _ & Hfmax & Hfcr).
  rewrite Hn in Hr, Hm, Hc. cbn in Hr, Hm, Hc. rewrite Hfrun, Hcrun, Hrun in Hr.
  rewrite (uuid_column_canonical _ _ (tc_run_key _ _ _ _ _ tc)) in Hr. injection Hr as Hr.
  rewrite Hfcr, Hcc, time_column_scan in Hc.
  destruct row; unfold over_task; cbn in *. congruence.
Qed.

Lemma task_commit_refines c meta s s' r (tc : task_commit c meta s s' r) :
  log_ok s -> attempt_columns s -> storable_task (tc_next _ _ _ _ _ tc) = true ->
  GetTask (TaskCommand_RunID c) (TaskCommand_TaskID c) s' =
  Ok (stored_task_form (tc_next _ _ _ _ _ tc)).
Proof.
  intros Hlog Hcols Hst. destruct (tc_loaded _ _ _ _ _ tc) as (Hold & Hrun & Hcur).
  destruct (task_of_row_Ok _ _ _ Hcur) as (_ & _ & _ & Hcrev & Hcmax & Hcatt & Hcv).
  apply Task_Validate_Ok in Hcv. destruct (Hcols _ _ Hold) as [H0 Hmax].
  destruct (lg_tasks s Hlog _ _ Hold) as [_ Hrevb].
  assert (Hvn : valid_task (tc_next _ _ _ _ _ tc)).
  { eapply Task_Apply_valid_columns; [| | |apply (tc_applied _ _ _ _ _ tc)]; [by rewrite Hcrev| |];
      rewrite ?Hcatt, ?Hcmax; [done|]. unfold max_i32, max_u32 in *. lia. }
  destruct (tc_new_row _ _ _ _ _ tc) as (_ & _ & _ & Hid).
  pose proof (task_row_round_trip _ _ _ Hvn Hst Hid (over_task_row _ _ _ _ _ tc)) as Hrt.
  unfold GetTask, loadTask, wrapped, tx_lift, uuid_param, mbind, res_bind, tx_bind.
  rewrite (tc_run_key _ _ _ _ _ tc), (tc_task_key _ _ _ _ _ tc). cbn.
  rewrite (tc_id_lookup _ _ _ _ _ tc).
  destruct (tc_new_row _ _ _ _ _ tc) as (row & _ & Hnew & _).
  assert (tr_run (tc_new _ _ _ _ _ tc) = tc_run _ _ _ _ _ tc) as -> by (rewrite Hnew; exact Hrun).
  rewrite bool_decide_true by done. cbn. by rewrite Hrt.
Qed.

(** ** Runs *)

Lemma run_of_row_created id row r :
  run_of_row id row = Ok r -> Run_CreatedAt r = scan_time (rr_created row).
Proof.
  unfold run_of_row, decodeRunLifecycle. intros Hr.
  apply res_bind_Ok in Hr as (sp & _ & Hr). apply res_bind_Ok in Hr as (tg & _ & Hr).
  apply res_bind_Ok in Hr as (r0 & Hd & Hr). apply res_bind_Ok in Hr as ([] & _ & [= <-]).
  unfold map_err in Hd. case_match eqn:E; [|done]. injection Hd as ->.
  case_match; try done; go_run E; simplify_eq/=; done.
Qed.

Lemma row_of_run_created r row :
  row_of_run r = Ok row -> rr_created row = time_column (Run_CreatedAt r).
Proof. unfold row_of_run. intros Hr. go_run Hr. done. Qed.

(** The step a decision takes. *)
Lemma decision_step cur c d :
  decideRunCommand cur c = Ok d ->
  match c with
  | CreateRun _ _ => NewRun c = Ok (next d, decision_events d)
  | _ => run_step cur c = Ok (next d, decision_events d)
  end.
Proof.
  intros [_ Hr]%decideRunCommand_Ok. destruct c; lazy iota beta in Hr |- *;
    try exact (proj1 Hr).
  unfold run_step. by rewrite Hr.
Qed.

Lemma run_step_created cur c r' evs :
  run_step cur c = Ok (r', evs) -> Run_CreatedAt r' = Run_CreatedAt cur.
Proof.
  intros (m & tr & rest & _ & _ & _ & _ & _ & _ & -> & _ & Hcase)%run_step_Ok.
  destruct Hcase as [[Ht _]|(_ & _ & _ & Hn)].
  - by apply transition_frame in Ht as (_ & _ & ?).
  - cbn. by rewrite Hn.
Qed.

Section run_commit.
Context (c : RunCommand) (meta : CommandEnvelope) (s s' : db) (r : CommandResult).
Context (rc : run_commit c meta s s' r) (Hlog : log_ok s).

#[local] Abbreviation d := (rc_decision _ _ _ _ _ rc).

Lemma over_run_row : row_of_run (next d) = Ok (rc_new _ _ _ _ _ rc).
Proof.
  rewrite (rc_written _ _ _ _ _ rc). f_equal.
  pose proof (rc_loaded _ _ _ _ _ rc) as Hl.
  pose proof (decision_step _ _ _ (rc_decided _ _ _ _ _ rc)) as Hstep.
  pose proof (row_of_run_created _ _ (rc_written _ _ _ _ _ rc)) as Hc.
  assert (Hover : forall old, run_of_row (rc_id _ _ _ _ _ rc) old = Ok (current d) ->
    Run_CreatedAt (next d) = Run_CreatedAt (current d) ->
    over_run old (rc_row _ _ _ _ _ rc) = rc_row _ _ _ _ _ rc).
  { intros old Ho%run_of_row_created Hn. rewrite Hn, Ho, time_column_scan in Hc.
    destruct (rc_row _ _ _ _ _ rc). unfold over_run. cbn in *. by rewrite Hc. }
  destruct c; lazy iota beta in Hl, Hstep;
    first [destruct Hl as (old & _ & _ & Hcur & ->); symmetry; apply Hover;
             [exact Hcur|by eapply run_step_created]
          |by destruct Hl as [_ ->]].
Qed.

Lemma rc_next_valid : Run_Validate (next d) = Ok tt.
Proof.
  apply Run_Validate_Ok.
  pose proof (rc_loaded _ _ _ _ _ rc) as Hl.
  pose proof (decision_step _ _ _ (rc_decided _ _ _ _ _ rc)) as Hstep.
  assert (Hv : forall old, runs s !! rc_id _ _ _ _ _ rc = Some old ->
    run_of_row (rc_id _ _ _ _ _ rc) old = Ok (current d) ->
    run_step (current d) c = Ok (next d, decision_events d) -> valid_run (next d)).
  { intros old Hold Hcur Hs. apply run_of_row_Ok in Hcur as (_ & _ & Hrev & _).
    eapply run_step_valid; [|exact Hs]. rewrite Hrev.
    by destruct (lg_runs s Hlog _ _ Hold). }
  destruct c; lazy iota beta in Hl, Hstep;
    first [destruct Hl as (old & _ & Hold & Hcur & _); by eapply Hv|by eapply NewRun_valid].
Qed.

Lemma run_commit_refines :
  storable (next d) = true ->
  GetRun (RunCommand_RunID c) s' = Ok (stored_form (rc_id _ _ _ _ _ rc) (next d)).
Proof.
  intros Hst.
  pose proof (run_row_round_trip _ _ _ rc_next_valid Hst (rc_key _ _ _ _ _ rc) over_run_row) as Hrt.
  assert (Hk : uuid_column (RunCommand_RunID c) = Some (rc_id _ _ _ _ _ rc)).
  { pose proof (rc_loaded _ _ _ _ _ rc) as Hl. pose proof (rc_key _ _ _ _ _ rc) as Hkey.
    pose proof (decide_id _ _ _ (rc_decided _ _ _ _ _ rc)) as Hid.
    destruct c; lazy iota beta in Hl, Hid;
      first [by destruct Hl as (old & Hk & _)|by rewrite Hid in Hkey]. }
  unfold GetRun, loadRun, wrapped, tx_lift, uuid_param, mbind, res_bind, tx_bind.
  rewrite Hk. cbn. rewrite (rc_runs _ _ _ _ _ rc), lookup_insert_eq. by rewrite Hrt.
Qed.

End run_commit.

(** *** The attempt that carries a command out

    Whatever an execution meets, a result that is not a replay comes from one
    transaction, which began on the given database or on one that a competing
    transaction left behind. *)

Lemma attempt_fresh c digest id w s r s' :
  attempt (fun inject others => transaction c inject others digest) (commit_label c) id digest w s =
    (Ok r, s') -> Replay r = false ->
  exists inject, transaction c inject ∅ digest s = Ok (r, s').
Proof.
  assert (Hno : forall pool r0, replayAfterConflict pool id digest = Ok r0 -> Replay r0 = true)
    by (by intros pool r0 (r1 & _ & ->)%replay_answered; destruct r1).
  unfold attempt. intros Ha Hrep. destruct w; repeat case_match; simplify_eq; eauto;
    match goal with Hx : replayAfterConflict _ _ _ = Ok _ |- _ => apply Hno in Hx; congruence end.
Qed.

Lemma attempt_overtaken c digest id o e s :
  snd (attempt (fun inject others => transaction c inject others digest) (commit_label c) id digest
    (OvertakenBy o e) s) = o.
Proof. unfold attempt. by repeat case_match. Qed.

(** The database [sb] is the one before, or what a competitor left. *)
Definition begun_from (climate : nat -> weather) (s sb : db) : Prop :=
  sb = s \/ exists n e, climate n = OvertakenBy sb e.

Lemma fresh_execution climate (c : command) cd s r s' :
  execute climate cd c s = (Ok r, s') -> Replay r = false ->
  exists m dg inject sb, validate c = Ok tt /\ envelope c = Some m /\ begun_from climate s sb /\
    transaction c inject ∅ dg sb = Ok (r, s').
Proof.
  intros Hr Hrep. destruct (execute_cases climate cd c s) as [[e He]|(m & dg & Hv & Hd & He)];
    [by rewrite He in Hr|]. rewrite (execute_unfold _ _ _ _ _ _ Hv Hd He) in Hr.
  apply (retry_loop_success_from _ _
    (fun x => begun_from climate s x \/ exists r0, answered (CommandID m) dg x r0))
    in Hr as (n & x & Hx & Hop); [| |by left; left].
  - apply attempt_fresh in Hop as [inject Ht]; [|done].
    exists m, dg, inject, x. split_and!; [done..| |done]. destruct Hx as [|[r0 Ha]]; [done|].
    rewrite (transaction_answered _ _ _ _ _ _ _ He Ha) in Ht. injection Ht as <- _. by destruct r0.
  - intros n x e x' Hx Hop.
    assert (Hw : (exists o e', climate n = OvertakenBy o e') \/ ~ overtaken (climate n)).
    { unfold overtaken. destruct (climate n); try (right; by intros (? & ? & ?)). left. eauto. }
    destruct Hw as [(o & e' & Hw)|Hw].
    + left. right. exists n, e'. rewrite Hw in Hop |- *. f_equal.
      rewrite <- (attempt_overtaken c dg (CommandID m) o e' x). by rewrite Hop.
    + destruct Hx as [Hx|[r0 Ha]].
      * destruct (attempt_step _ _ _ _ _ _ _ Hv He Hop) as [_ Hs].
        destruct (Hs Hw) as [->|?]; [by left|by right].
      * right. exists r0. pose proof (attempt_answered _ _ _ _ _ _ He Ha Hw) as Hs.
        rewrite Hop in Hs. cbn in Hs. by subst.
Qed.

Lemma begun_reachable climate s sb :
  reachable s -> (forall n o e, climate n = OvertakenBy o e -> reachable o) ->
  begun_from climate s sb -> reachable sb.
Proof. intros Hs Hfair [->|(n & e & Hn)]; [done|by eapply Hfair]. Qed.

(** *** Recording the publication of a run

    What is asked of the database so that [RecordDraftPullRequest] is carried
    out: the command is new, the run is ready to merge with the commit and the
    approval of the command and without a publication, and the columns can
    keep what is written. *)

Section recording.
Context (m : CommandEnvelope) (run candidate : string) (approval publication : ArtifactRef).
Context (s : db) (cur nxt : Run).

#[local] Abbreviation command := (RecordDraftPullRequest m run candidate approval publication).

Record recordable : Prop := {
  rec_reachable : reachable s;
  (** the command is one of the publication service, valid and new *)
  rec_valid : validateRunCommand command = Ok tt;
  rec_dated : is_Ok (commandDigest command) = true;
  rec_actor : Actor_Kind (Envelope_Actor m) = ActorPublicationService;
  rec_columns : forall id, id ∈ [run; Actor_ID (Envelope_Actor m); CorrelationID m; CausationID m] ->
    is_Some (uuid_column id);
  rec_new : exists k, uuid_column (CommandID m) = Some k /\ commands s !! k = None /\
    forall e, e ∈ events s -> er_event_id e <> k;
  (** the run is ready to merge, with the commit and the approval of the command *)
  rec_run : GetRun run s = Ok cur;
  rec_id : Run_ID cur = run;
  rec_state : Run_State cur = RunStateMergeReady;
  rec_revision : ExpectedRevision m = Run_Revision cur;
  rec_commit : Run_CandidateCommit cur = candidate;
  rec_approval : Run_Approval cur = Some approval;
  rec_unpublished : Publication cur = None;
  (** the artifact of the publication is valid, and the columns keep what is written *)
  rec_artifact_ok : ArtifactRef_Validate publication = Ok tt;
  rec_text : forall t, t ∈ [CommandID m; run; URI publication] -> has_nul t = false;
  rec_next : nxt = set_Run_UpdatedAt (UTC (Timestamp m))
    (set_Run_Revision (u64 (Run_Revision cur + 1)) (set_Publication (Some publication) cur));
  rec_written : exists row, row_of_run nxt = Ok row /\ check_run_row row = true;
  rec_storable : storable nxt = true;
}.

Hypothesis Hrec : recordable.

Lemma recordable_row :
  exists row, uuid_column run = Some run /\ runs s !! run = Some row /\ run_of_row run row = Ok cur /\
    rr_state row = RunStateMergeReady /\ rr_revision row = Run_Revision cur.
Proof.
  pose proof (rec_run Hrec) as Hg. unfold GetRun in Hg. apply res_bind_Ok in Hg as ([r s'] & Hl & [= ->]).
  apply loadRun_Ok in Hl as (_ & k & row & Hk & Hrow & Hof).
  pose proof (run_of_row_Ok _ _ _ Hof) as (Hid & Hst & Hrev & _).
  rewrite (rec_id Hrec) in Hid. subst k. rewrite (rec_state Hrec) in Hst. by exists row.
Qed.

Lemma recordable_decision :
  decideRunCommand cur command = Ok (mkRunDecision cur nxt [] []
    [newRunEvent nxt m "DRAFT_PULL_REQUEST_CREATED" (Some (artifactPayload "publication" publication))]).
Proof.
  destruct recordable_row as (row & _ & _ & (_ & _ & _ & Hv)%run_of_row_Ok & _).
  assert (Ha : ArtifactRef_Validate approval = Ok tt).
  { pose proof (vr_approval _ (proj1 (Run_Validate_Ok _) Hv)) as Ho. unfold valid_optional in Ho.
    by rewrite (rec_approval Hrec) in Ho. }
  unfold decideRunCommand, Run_Apply, Run_validateCommand. rewrite Hv, (rec_valid Hrec). cbn [mbind res_bind].
  cbn [RunCommand_RunID RunCommand_Envelope]. rewrite (rec_id Hrec), (rec_revision Hrec), (rec_state Hrec).
  rewrite !bool_decide_eq_true_2 by done. cbn [negb RunState_Terminal].
  unfold applyCompletion, finish. cbn [completion]. unfold recordDraftPullRequest, validateBoundArtifact.
  rewrite (rec_state Hrec), (rec_actor Hrec), (rec_commit Hrec), (rec_approval Hrec), (rec_unpublished Hrec),
    Ha, (rec_artifact_ok Hrec), (proj2 (ArtifactRef_Equal_eq _ _) eq_refl).
  rewrite !bool_decide_eq_true_2 by done. cbn. by rewrite (rec_next Hrec).
Qed.

Lemma gate_stands : validateRunTaskGate command s = Ok (tt, s).
Proof.
  destruct recordable_row as (row & Hk & Hrow & _ & Hst & _).
  destruct (gt_delivering _ (reachable_gates s (rec_reachable Hrec)) run row Hrow) as [Hall (i & t & Ht & Hrun)];
    [by rewrite Hst|].
  unfold validateRunTaskGate, wrapped, tx_lift, uuid_param, mbind, tx_bind. cbn [gate_of RunCommand_RunID].
  rewrite Hk. cbn.
  assert (He : count_tasks s run (fun r => tr_state r == TaskStateAccepted) = count_tasks s run (fun _ => true)).
  { unfold count_tasks. f_equal. f_equal. apply tasks_where_ext. intros j r Hj Hr.
    by rewrite (Hall j r Hj Hr), bool_decide_eq_true_2. }
  assert (Hz : (count_tasks s run (fun _ => true) =? 0) = false).
  { apply Z.eqb_neq. rewrite count_tasks_zero. intros Hn. by discriminate (Hn i t Ht Hrun). }
  by rewrite He, Hz, Z.eqb_refl.
Qed.

#[local] Abbreviation event :=
  (newRunEvent nxt m "DRAFT_PULL_REQUEST_CREATED" (Some (artifactPayload "publication" publication))).

Lemma next_revision : Run_Revision nxt = Run_Revision cur + 1 /\ 1 <= Run_Revision cur < max_i64.
Proof.
  destruct recordable_row as (row & _ & Hrow & _ & _ & Hrev).
  destruct (lg_runs s (reachable_kept _ _ log_kept (rec_reachable Hrec)) run row Hrow) as [_ Hb].
  rewrite Hrev in Hb. destruct (rec_written Hrec) as (new & Hnew & _).
  assert (Hn : Run_Revision nxt = Run_Revision cur + 1).
  { rewrite (rec_next Hrec). cbn. apply u64_id. unfold max_i64 in *. lia. }
  unfold row_of_run in Hnew. apply res_bind_Ok in Hnew as (rv & [_ Hmax]%bigint_param_Ok & _). lia.
Qed.

(** The event is the next one of the run, and nothing else bears its name. *)
Lemma event_inserted crows k :
  uuid_column (CommandID m) = Some k -> is_Some (crows !! k) -> (forall e, e ∈ events s -> er_event_id e <> k) ->
  exists row, insertEvent event (CommandID m) (set_commands crows s) =
    Ok (tt, set_events (events s ++ [row]) (set_commands crows s)).
Proof.
  intros Hk Hc Hname. destruct recordable_row as (old & Hrun & Hold & _ & _ & Hrev).
  pose proof next_revision as [Hn Hb].
  destruct (lg_runs s (reachable_kept _ _ log_kept (rec_reachable Hrec)) run old Hold) as [Hlog _].
  assert (Hids : Run_ID nxt = run) by (rewrite (rec_next Hrec); exact (rec_id Hrec)).
  destruct (rec_columns Hrec (Actor_ID (Envelope_Actor m))) as [ka Ha]; [set_solver|].
  destruct (rec_columns Hrec (CorrelationID m)) as [kc Hcor]; [set_solver|].
  destruct (rec_columns Hrec (CausationID m)) as [kd Hcau]; [set_solver|].
  assert (Hpay : json_has_nul (payload_json (Payload event)) = false).
  { apply payload_plain. intros key v. cbn. unfold artifactPayload.
    intros [[<- <-]|[_ [<- <-]%lookup_singleton_Some]]%lookup_insert_Some; (split; [reflexivity|]).
    - apply (rec_text Hrec). set_solver.
    - pose proof (rec_artifact_ok Hrec) as Hok. unfold ArtifactRef_Validate in Hok.
      destruct (negb _); [done|]. destruct (digestPattern _) eqn:Ed; [|done]. by apply (hex_plain 64). }
  assert (Hfresh : existsb (fun e => er_event_id e == k) (events s) = false).
  { apply not_true_iff_false. intros (e & He%list_elem_of_In & Hid%bool_decide_eq_true)%existsb_exists.
    by apply (Hname e He). }
  assert (Hlast : existsb (fun e => (er_aggregate_type e == "RUN") && (er_aggregate_id e == run) &&
      (er_revision e =? Run_Revision cur + 1)) (events s) = false).
  { apply not_true_iff_false. intros (e & He & [Hof Hr%Z.eqb_eq]%andb_true_iff)%existsb_exists.
    assert (Hin : er_revision e ∈ logged "RUN" run (events s)).
    { apply list_elem_of_In, in_map, List.filter_In. by split. }
    rewrite Hlog, elem_of_seqZ in Hin. lia. }
  eexists. unfold insertEvent, wrapped, tx_lift, uuid_param, mbind, tx_bind, bigint_param, jsonb_column.
  cbn [newRunEvent Event_ID AggregateType AggregateID Event_Revision Event_Type Event_Actor Event_CorrelationID
    Event_CausationID Event_Timestamp].
  rewrite Hk, Hids, Hrun, Ha, Hcor, Hcau, Hpay, Hn.
  rewrite (proj2 (Z.leb_le _ _)) by lia. unfold tx_guard, tx_get.
  rewrite (proj2 (Z.ltb_lt _ _)) by lia. rewrite (rec_actor Hrec). cbn [andb actor_kind_closed].
  change (text_column "RUN") with (Ok "RUN" : res string).
  change (text_column "DRAFT_PULL_REQUEST_CREATED") with (Ok "DRAFT_PULL_REQUEST_CREATED" : res string).
  cbn -[existsb]. rewrite Hfresh. cbn -[existsb]. rewrite Hlast. cbn. by rewrite bool_decide_eq_true_2.
Qed.

Lemma reserved digest :
  digestPattern digest = true ->
  exists k row, uuid_column (CommandID m) = Some k /\
    reserveCommand command m digest ∅ s = Ok (tt, set_commands (<[k := row]> (commands s)) s) /\
    forall e, e ∈ events s -> er_event_id e <> k.
Proof.
  intros Hd. destruct recordable_row as (old & Hrun & _). pose proof next_revision as [_ Hb].
  destruct (rec_new Hrec) as (k & Hk & Hnone & Hname).
  destruct (rec_columns Hrec (Actor_ID (Envelope_Actor m))) as [ka Ha]; [set_solver|].
  destruct (rec_columns Hrec (CorrelationID m)) as [kc Hcor]; [set_solver|].
  destruct (rec_columns Hrec (CausationID m)) as [kd Hcau]; [set_solver|].
  exists k. eexists. split; [done|]. split; [|done].
  unfold reserveCommand, reserve, wrapped, tx_lift, uuid_param, mbind, tx_bind, bigint_param.
  cbn [RunCommand_RunID]. rewrite Hk, Hrun, Ha, Hcor, Hcau, (text_column_hex 64) by done.
  rewrite (rec_revision Hrec), (proj2 (Z.leb_le (Run_Revision cur) _)) by lia.
  unfold tx_guard, tx_get. rewrite Hd, (proj2 (Z.leb_le 0 _)) by lia. rewrite (rec_actor Hrec).
  cbn. rewrite Hnone, bool_decide_eq_true_2 by done. done.
Qed.

Lemma updated s1 :
  runs s1 = runs s ->
  exists row, updateRun nxt (Run_Revision cur) s1 = Ok (tt, set_runs (<[run := row]> (runs s)) s1).
Proof.
  intros Hs. destruct recordable_row as (old & Hrun & Hold & _ & _ & Hrev). pose proof next_revision as [_ Hb].
  destruct (rec_written Hrec) as (row & Hrow & Hck).
  assert (Hids : Run_ID nxt = run) by (rewrite (rec_next Hrec); exact (rec_id Hrec)).
  eexists. unfold updateRun, wrapped, tx_lift, uuid_param, mbind, tx_bind, bigint_param.
  rewrite Hids, Hrun, Hrow, (proj2 (Z.leb_le (Run_Revision cur) _)) by lia.
  cbn. rewrite Hs, Hold, Hrev, Z.eqb_refl. unfold tx_guard. rewrite Hck. done.
Qed.

Lemma recording_transaction digest :
  digestPattern digest = true ->
  exists r s', executeRunTransaction (fun _ => None) ∅ command digest s = Ok (r, s') /\ Replay r = false.
Proof.
  intros Hd. destruct (reserved digest Hd) as (k & crow & Hk & Hres & Hname).
  destruct (event_inserted (<[k := crow]> (commands s)) k Hk) as [erow Hev];
    [by rewrite lookup_insert_eq|done|].
  destruct (updated (set_events (events s ++ [erow]) (set_commands (<[k := crow]> (commands s)) s)) eq_refl)
    as [row Hup].
  destruct recordable_row as (old & Hrun & Hold & Hof & _).
  unfold executeRunTransaction. cbn [RunCommand_Envelope].
  assert (Hfound : loadCommandResult (CommandID m) digest s = Ok (None, s)).
  { destruct (rec_new Hrec) as (k' & Hk' & Hnone & _).
    unfold loadCommandResult, wrapped, tx_lift, uuid_param, mbind, tx_bind. rewrite Hk'. cbn. by rewrite Hnone. }
  assert (Hload : loadRunForCommand command s = Ok (cur, s)).
  { cbn [loadRunForCommand RunCommand_RunID]. unfold loadRun, wrapped, tx_lift, uuid_param, mbind, tx_bind.
    rewrite Hrun. cbn. rewrite Hold. by rewrite Hof. }
  rewrite (tx_then _ _ _ _ _ Hfound), (tx_then _ _ _ _ _ Hload), (tx_then _ _ _ _ _ gate_stands).
  erewrite tx_then by (unfold tx_lift; by rewrite recordable_decision).
  erewrite tx_then by reflexivity.
  assert (Hfirst : reserve_or_replay (reserveCommand command m digest ∅) s =
    Ok (tt, set_commands (<[k := crow]> (commands s)) s)) by (unfold reserve_or_replay; by rewrite Hres).
  assert (Hpersist : persistRunTransition (fun _ => None) ∅ command m digest
      (mkRunDecision cur nxt [] [] [event]) s =
    Ok (tt, set_runs (<[run := row]> (runs s))
      (set_events (events s ++ [erow]) (set_commands (<[k := crow]> (commands s)) s)))).
  { unfold persistRunTransition. cbn [decision_events decision_tasks decision_dependencies next current].
    rewrite (tx_then _ _ _ _ _ Hfirst). unfold insertEvents. erewrite tx_then by reflexivity.
    cbn [tx_each]. erewrite tx_then; [|erewrite tx_then by exact Hev; reflexivity].
    by do 3 (erewrite tx_then by reflexivity). }
  erewrite tx_then by exact Hpersist.
  unfold recordRunCommandResult. cbn [decision_events decision_tasks next].
  match goal with |- context [record_result _ _ ?r] =>
    assert (Hplain : json_has_nul (result_json r) = false) end.
  { assert (Run_ID nxt = run) as -> by (rewrite (rec_next Hrec); exact (rec_id Hrec)).
    assert (Run_State nxt = RunStateMergeReady) as -> by (rewrite (rec_next Hrec); exact (rec_state Hrec)).
    pose proof (rec_text Hrec) as Ht. cbn -[has_nul].
    rewrite (Ht run), (Ht (CommandID m)) by set_solver. reflexivity. }
  unfold record_result, wrapped, tx_lift, uuid_param, mbind, tx_bind, jsonb_column. rewrite Hk, Hplain.
  eexists _, _. split; [reflexivity|reflexivity].
Qed.

(** The command is carried out in one attempt when nothing disturbs it. *)
Lemma recording_executes cd :
  exists r s', ExecuteRun (fun _ => Clear) cd command s = (Ok r, s') /\ Replay r = false /\
    GetRun run s' = Ok (stored_form run nxt).
Proof.
  destruct (commandDigest command) as [digest|e] eqn:Hd; [|by pose proof (rec_dated Hrec) as Hn; rewrite Hd in Hn].
  destruct (recording_transaction digest) as (r & s' & Hr & Hrep); [by eapply commandDigest_shape|].
  exists r, s'. split; [|split; [done|]].
  - unfold ExecuteRun. rewrite (rec_valid Hrec), Hd. cbn [RunCommand_Envelope].
    unfold RetryTransaction, MaxTransactionAttempts. cbn [retry_loop]. unfold attempt.
    change (inject_of Clear) with (fun _ : FaultPoint => None : option error). by rewrite Hr.
  - apply executeRunTransaction_Ok in Hr as (m' & [= <-] & [[_ (k & row & r0 & _ & _ & _ & ->)]|[_ [rc]]]);
      [by destruct r0|].
    assert (Hdec := rc_decided _ _ _ _ _ rc). pose proof (rc_loaded _ _ _ _ _ rc) as (old & Hk & Hold & Hof & _).
    destruct recordable_row as (row & Hrun & Hrow & Hcur & _).
    assert (Hnext : next (rc_decision _ _ _ _ _ rc) = nxt).
    { cbn [RunCommand_RunID] in Hk. rewrite Hrun in Hk. injection Hk as Hk. rewrite <- Hk, Hrow in Hold.
      injection Hold as <-. rewrite <- Hk, Hcur in Hof. injection Hof as Hof.
      rewrite <- Hof, recordable_decision in Hdec. by injection Hdec as <-. }
    pose proof (run_commit_refines _ _ _ _ _ rc) as Hrefines. rewrite Hnext in Hrefines.
    cbn [RunCommand_RunID] in Hrefines. rewrite Hrefines; [|exact (reachable_kept _ _ log_kept (rec_reachable Hrec))|exact (rec_storable Hrec)].
    cbn [RunCommand_RunID] in Hk. do 2 f_equal. congruence.
Qed.

End recording.

(** ** The properties *)

(** C38: Executing a task command refines the state machine, whatever the execution meets: faults,
    retries, lost acknowledgements and competing transactions.  When [ExecuteTask] returns a result
    that is no replay, the command is one that [Task.Apply] accepts on the task as it is stored in
    the database that the last attempt began with, which is the given database or one that a
    competitor left; the result reports the state and revision of the next task; and the task that
    is loaded afterwards is that next task in its stored form, with its identifiers in canonical text
    and its instants cut to microseconds, provided that its columns can keep it: its instants are
    outside of the first microsecond of the year 1 and the fencing token of its lease is a uint32
    ([storable_task]). *)
Theorem task_execution_refines (climate : nat -> weather) (ctx_done : nat -> option error)
    (c : TaskCommand) (s s' : db) (r : CommandResult) :
  reachable s -> (forall n o e, climate n = OvertakenBy o e -> reachable o) ->
  ExecuteTask climate ctx_done c s = (Ok r, s') -> Replay r = false ->
  exists sb cur nxt ev, begun_from climate s sb /\
    GetTask (TaskCommand_RunID c) (TaskCommand_TaskID c) sb = Ok cur /\
    Task_Apply cur c = Ok (nxt, [ev]) /\
    Result_State r = TaskState_string (Task_State nxt) /\ Result_Revision r = Task_Revision nxt /\
    (storable_task nxt = true ->
     GetTask (TaskCommand_RunID c) (TaskCommand_TaskID c) s' = Ok (stored_task_form nxt)).
Proof.
  intros Hs Hfair Hx Hrep.
  destruct (fresh_execution climate (inr c) _ _ _ _ Hx Hrep) as (m & dg & inject & sb & Hv & He & Hb & Ht).
  pose proof (begun_reachable _ _ _ Hs Hfair Hb) as Hsb.
  cbn [transaction] in Ht.
  apply executeTaskTransaction_Ok in Ht as (m' & _ & [[_ (k & row & r0 & _ & _ & _ & ->)]|[_ [tc]]]);
    [done|]. exists sb.
  exists (tc_current _ _ _ _ _ tc), (tc_next _ _ _ _ _ tc), (tc_event _ _ _ _ _ tc).
  destruct (tc_loaded _ _ _ _ _ tc) as (Hold & Hrun & Hcur). split; [done|]. split_and!.
  - unfold GetTask, loadTask, wrapped, tx_lift, uuid_param, mbind, res_bind, tx_bind.
    rewrite (tc_run_key _ _ _ _ _ tc), (tc_task_key _ _ _ _ _ tc). cbn. rewrite Hold, Hrun.
    rewrite bool_decide_true by done. cbn. by rewrite Hcur.
  - apply (tc_applied _ _ _ _ _ tc).
  - exact (f_equal Result_State (tc_result _ _ _ _ _ tc)).
  - exact (f_equal Result_Revision (tc_result _ _ _ _ _ tc)).
  - apply task_commit_refines; by eapply reachable_kept; [apply log_kept || apply attempt_columns_kept|].
Qed.

(** C3: Executing a run command refines the state machine, whatever the execution meets: faults,
    retries, lost acknowledgements and competing transactions.  When [ExecuteRun] returns a result
    that is no replay, the command is one that [NewRun], [Run.ApproveTaskGraph] or [Run.Apply]
    accepts on the run as it is stored in the database that the last attempt began with, which is
    the given database or one that a competitor left; the result reports the state and revision of
    the next run; and the run that is loaded afterwards is that next run in its stored form, with
    its identifier in canonical text and its instants cut to microseconds, provided that its columns
    can keep it: the URIs of its artifacts are valid UTF-8 and its instants are outside of the first
    microsecond of the year 1 ([storable]). *)
Theorem run_execution_refines (climate : nat -> weather) (ctx_done : nat -> option error)
    (c : RunCommand) (s s' : db) (r : CommandResult) :
  reachable s -> (forall n o e, climate n = OvertakenBy o e -> reachable o) ->
  ExecuteRun climate ctx_done c s = (Ok r, s') -> Replay r = false ->
  exists sb nxt evs, begun_from climate s sb /\
    match c with
    | CreateRun _ _ => NewRun c = Ok (nxt, evs)
    | _ => exists cur, GetRun (RunCommand_RunID c) sb = Ok cur /\ run_step cur c = Ok (nxt, evs)
    end /\
    Result_State r = RunState_string (Run_State nxt) /\ Result_Revision r = Run_Revision nxt /\
    (storable nxt = true ->
     GetRun (RunCommand_RunID c) s' = Ok (stored_form (canonical (RunCommand_RunID c)) nxt)).
Proof.
  intros Hs Hfair Hx Hrep.
  destruct (fresh_execution climate (inl c) _ _ _ _ Hx Hrep) as (m & dg & inject & sb & Hv & He & Hb & Ht).
  pose proof (begun_reachable _ _ _ Hs Hfair Hb) as Hsb.
  cbn [transaction] in Ht.
  apply executeRunTransaction_Ok in Ht as (m' & _ & [[_ (k & row & r0 & _ & _ & _ & ->)]|[_ [rc]]]);
    [done|].
  pose proof (reachable_kept _ _ log_kept Hsb) as Hlog. exists sb.
  exists (next (rc_decision _ _ _ _ _ rc)), (decision_events (rc_decision _ _ _ _ _ rc)). split; [done|].
  split; [|split; [exact (f_equal Result_State (rc_result _ _ _ _ _ rc))|
    split; [exact (f_equal Result_Revision (rc_result _ _ _ _ _ rc))|]]].
  - pose proof (decision_step _ _ _ (rc_decided _ _ _ _ _ rc)) as Hstep.
    pose proof (rc_loaded _ _ _ _ _ rc) as Hl.
    destruct c; lazy iota beta in Hl, Hstep |- *; try exact Hstep;
      destruct Hl as (old & Hk & Hold & Hcur & _); eexists; (split; [|exact Hstep]);
      unfold GetRun, loadRun, wrapped, tx_lift, uuid_param, mbind, res_bind, tx_bind;
      rewrite Hk; cbn; rewrite Hold; by rewrite Hcur.
  - intros Hst. rewrite (run_commit_refines _ _ _ _ _ rc Hlog Hst). do 2 f_equal.
    symmetry. apply canonical_column. pose proof (rc_loaded _ _ _ _ _ rc) as Hl.
    pose proof (rc_key _ _ _ _ _ rc) as Hkey.
    pose proof (decide_id _ _ _ (rc_decided _ _ _ _ _ rc)) as Hid.
    destruct c; lazy iota beta in Hl, Hid;
      first [by destruct Hl as (old & Hk & _)|by rewrite Hid in Hkey].
Qed.

End refine.

(** ** Witnesses *)

Definition executing_db : db := execute_all executing_commands empty_db.
(** The commit is not acknowledged because a competitor came first; the second
    attempt succeeds. *)
Definition overtaken_once (other : db) (n : nat) : weather :=
  match n with O => OvertakenBy other (ErrPg "40001") | _ => Clear end.

Lemma overtaken_once_fair other n o e :
  reachable other -> overtaken_once other n = OvertakenBy o e -> reachable o.
Proof. intros Ho. destruct n; [by intros [= <- _]|done]. Qed.

(** A competitor creates another run meanwhile. *)
Definition create_other : RunCommand := CreateRun (meta "x1" ActorHuman 0 1) "run-2".

Definition executing_other : db := snd (execute (fun _ => Clear) (fun _ => None) (inl create_other) executing_db).

Lemma executing_other_reachable : reachable executing_other.
Proof.
  eapply (reachable_execute (fun _ => Clear) (fun _ => None) (inl create_other) executing_db);
    [apply execute_all_reachable, reachable_empty|done|by apply surjective_pairing].
Qed.

Definition lease_execution : res CommandResult * db :=
  ExecuteTask (overtaken_once executing_other) (fun _ => None) lease_first executing_db.
Definition no_result : CommandResult := mkCommandResult "" "" 0 [] [] false.

Lemma task_execution_refines_witness :
  Result_State (result no_result (fst lease_execution)) = "LEASED" /\
  exists sb cur nxt ev, begun_from (overtaken_once executing_other) executing_db sb /\
    GetTask "run-1" "task-1" sb = Ok cur /\
    Task_Apply cur lease_first = Ok (nxt, [ev]) /\
    Result_State (result no_result (fst lease_execution)) = TaskState_string (Task_State nxt) /\
    Result_Revision (result no_result (fst lease_execution)) = Task_Revision nxt /\
    (storable_task nxt = true ->
     GetTask "run-1" "task-1" (snd lease_execution) = Ok (stored_task_form nxt)).
Proof.
  split; [by vm_compute|].
  apply (task_execution_refines (overtaken_once executing_other) (fun _ => None) lease_first
    executing_db (snd lease_execution) (result no_result (fst lease_execution))).
  - apply execute_all_reachable, reachable_empty.
  - intros n o e. apply overtaken_once_fair, executing_other_reachable.
  - by vm_compute.
  - by vm_compute.
Defined.

Definition planned_db : db := execute_all planned_commands empty_db.
Definition planned_other : db := snd (execute (fun _ => Clear) (fun _ => None) (inl create_other) planned_db).

Lemma planned_other_reachable : reachable planned_other.
Proof.
  eapply (reachable_execute (fun _ => Clear) (fun _ => None) (inl create_other) planned_db);
    [apply execute_all_reachable, reachable_empty|done|by apply surjective_pairing].
Qed.

Definition start_execution : res CommandResult * db :=
  ExecuteRun (overtaken_once planned_other) (fun _ => None) start_run planned_db.

(** Both runs are there: the command was carried out on what the competitor left. *)
Example start_after_competitor :
  run_states (snd start_execution) = [("run-1", RunStateExecuting); ("run-2", RunStateDraft)].
Proof. vm_compute. reflexivity. Qed.

Lemma run_execution_refines_witness :
  Result_State (result no_result (fst start_execution)) = "EXECUTING" /\
  exists sb nxt evs, begun_from (overtaken_once planned_other) planned_db sb /\
    (exists cur, GetRun "run-1" sb = Ok cur /\ run_step cur start_run = Ok (nxt, evs)) /\
    Result_State (result no_result (fst start_execution)) = RunState_string (Run_State nxt) /\
    Result_Revision (result no_result (fst start_execution)) = Run_Revision nxt /\
    (storable nxt = true ->
     GetRun "run-1" (snd start_execution) = Ok (stored_form (canonical "run-1") nxt)).
Proof.
  split; [by vm_compute|].
  apply (run_execution_refines (overtaken_once planned_other) (fun _ => None) start_run planned_db
    (snd start_execution) (result no_result (fst start_execution))).
  - apply execute_all_reachable, reachable_empty.
  - intros n o e. apply overtaken_once_fair, planned_other_reachable.
  - by vm_compute.
  - by vm_compute.
Defined.
