(* ===== verification/RtLedger.v ===== *)
(** * The durable runtime ledger

    Models [go/internal/runtime/ledger.go]: the stage jobs that workers claim
    under a fencing token, and the idempotency records of the API, on the
    tables of [go/internal/workflow/migrations/0018], [0019] and [0021].
    Every operation is one statement, or one transaction that locks the row it
    changes, so it takes effect as one step; [locked] is the set of rows that
    concurrent transactions hold locked when [Claim] skips locked rows.  The
    clock of the process is an argument ([now]), that of the database too
    ([clock]). *)

From S2P Require Import Prelude GoStd GoJson WfTypes WfDb WfStore.

Definition ErrConflict : error := ErrNew "runtime: runtime identity conflicts with existing content".
Definition ErrInProgress : error := ErrNew "runtime: runtime request is still processing".
Definition RtErrNotFound : error := ErrNew "runtime: runtime record not found".
Definition ErrStaleFence : error := ErrNew "runtime: stale runtime fencing token".
Definition ErrTerminal : error := ErrNew "runtime: runtime job is terminal".
Definition no_rows : error := ErrNew "pgx: no rows in result set".

(** ** Data *)

Inductive JobState :=
| JobReady | JobClaimed | JobRetry | JobCompleted | JobFailed | JobCancelled.

#[global] Instance JobState_eq_dec : EqDecision JobState.
Proof. solve_decision. Defined.

Definition JobState_Terminal (s : JobState) : bool :=
  match s with JobCompleted | JobFailed | JobCancelled => true | _ => false end.

(** A job that is only described has no state yet. *)
Record Job := mkJob {
  Job_ID : string;
  Job_RunID : string;
  Job_TaskID : option string;
  Job_Attempt : Z;
  Job_Stage : string;
  Job_State : option JobState;
  AvailableAt : time;
  ClaimOwner : option string;
  ClaimExpires : option time;
  Job_FencingToken : Z;
  RetryCount : Z;
  TransientRescheduleCount : Z;
  Job_Result : option ArtifactRef;
  Job_Failure : option ArtifactRef;
}.

Record IdempotencyRequest := mkIdemRequest {
  Key : string;
  Method : string;
  Target : string;
  PrincipalID : string;
  RequestDigest : string;
  ReservationTTL : Z;
}.

Record IdempotencyResult := mkIdemResult {
  StatusCode : Z;
  Response : option json;
  Idem_Replay : bool;
  Idem_FencingToken : Z;
}.

(** A row of [runtime_stage_jobs]. *)
Record job_row := mkJobRow {
  jr_run : string;
  jr_task : option string;
  jr_attempt : Z;
  jr_stage : string;
  jr_state : JobState;
  jr_available : Z;
  jr_owner : option string;
  jr_expires : option Z;
  jr_fence : Z;
  jr_retry : Z;
  jr_transient : Z;
  jr_result : option ArtifactRef;
  jr_failure : option ArtifactRef;
  jr_created : Z;
  jr_updated : Z;
}.

(** A row of [runtime_api_idempotency]; [ir_outcome] is the status with the
    response, once completed. *)
Record idempotencyReservation := mkReservation {
  ir_method : string;
  ir_target : string;
  ir_principal : string;
  ir_digest : string;
  ir_outcome : option (Z * json);
  ir_until : Z;
  ir_fence : Z;
}.

Record rt_db := mkRtDb {
  rt_workflow : db;
  rt_jobs : gmap string job_row;
  rt_requests : gmap string idempotencyReservation;
}.

Definition set_rt_jobs (v : gmap string job_row) (s : rt_db) : rt_db :=
  mkRtDb (rt_workflow s) v (rt_requests s).
Definition set_rt_requests (v : gmap string idempotencyReservation) (s : rt_db) : rt_db :=
  mkRtDb (rt_workflow s) (rt_jobs s) v.

Definition empty_rt (workflow : db) : rt_db := mkRtDb workflow ∅ ∅.

Section ledger.
Context `{Platform}.
(** [make_interval(secs => d.Seconds())] in microseconds. *)
Variable interval_us : Z -> Z.

(** ** Idempotent requests *)

Definition reservation_matches (r : idempotencyReservation) (request : IdempotencyRequest) : bool :=
  (ir_method r == Method request) && (ir_target r == Target request) &&
  (ir_principal r == PrincipalID request) && (ir_digest r == RequestDigest request).

(** [INSERT ... ON CONFLICT DO NOTHING]: whether a row was inserted. *)
Definition insertIdempotencyReservation (request : IdempotencyRequest) (ttl : Z) (now : time)
    : tx rt_db bool :=
  key ← tx_lift (uuid_param (Key request));
  method ← tx_lift (text_column (Method request));
  target ← tx_lift (text_column (Target request));
  principal ← tx_lift (uuid_param (PrincipalID request));
  digest ← tx_lift (text_column (RequestDigest request));
  s ← tx_get;
  if negb (digestPattern digest) then tx_err check_violation
  else if bool_decide (is_Some (rt_requests s !! key)) then mret false
  else
    tx_put (set_rt_requests (<[key := mkReservation method target principal digest None
      (time_column (time_Add now ttl)) 1]> (rt_requests s)) s) ;;
    mret true.

Definition loadIdempotencyReservation (key : string) : tx rt_db idempotencyReservation :=
  k ← tx_lift (uuid_param key);
  s ← tx_get;
  match rt_requests s !! k with Some r => mret r | None => tx_err no_rows end.

Definition reclaimIdempotencyReservation (key : string) (fencingToken : Z) (now : time) (ttl : Z)
    : tx rt_db unit :=
  k ← tx_lift (uuid_param key);
  fence ← tx_lift (bigint_param fencingToken);
  s ← tx_get;
  if fence <=? 0 then tx_err check_violation
  else tx_put (set_rt_requests (alter (fun r =>
    mkReservation (ir_method r) (ir_target r) (ir_principal r) (ir_digest r) (ir_outcome r)
      (time_column (time_Add now ttl)) fence) k (rt_requests s)) s).

Definition BeginIdempotency (request : IdempotencyRequest) (now : time)
    : tx rt_db IdempotencyResult :=
  if negb (uuid_Parse_ok (Key request)) then tx_err (ErrWrap ErrConflict "idempotency key")
  else
    let now := UTC now in
    let ttl := if ReservationTTL request <=? 0 then 30 * Second else ReservationTTL request in
    inserted ← insertIdempotencyReservation request ttl now;
    if inserted : bool then mret (mkIdemResult 0 None false 1)
    else
      reservation ← loadIdempotencyReservation (Key request);
      if negb (reservation_matches reservation request) then tx_err ErrConflict
      else
        match ir_outcome reservation with
        | Some (status, response) =>
            mret (mkIdemResult status (Some response) true (ir_fence reservation))
        | None =>
            if After (scan_time (ir_until reservation)) now then tx_err ErrInProgress
            else
              let fencingToken := u64 (ir_fence reservation + 1) in
              reclaimIdempotencyReservation (Key request) fencingToken now ttl ;;
              mret (mkIdemResult 0 None false fencingToken)
        end.

(** [UPDATE ... WHERE idempotency_key=$1 AND reservation_generation=$2 AND
    completed_at IS NULL]: whether a row was updated. *)
Definition update_reservation (key : string) (fencingToken : Z)
    (f : idempotencyReservation -> idempotencyReservation) : tx rt_db bool :=
  k ← tx_lift (uuid_param key);
  fence ← tx_lift (bigint_param fencingToken);
  s ← tx_get;
  match rt_requests s !! k with
  | Some r =>
      if (ir_fence r =? fence) && bool_decide (ir_outcome r = None) then
        tx_put (set_rt_requests (<[k := f r]> (rt_requests s)) s) ;;
        mret true
      else mret false
  | None => mret false
  end.

Definition with_until (v : Z) (r : idempotencyReservation) : idempotencyReservation :=
  mkReservation (ir_method r) (ir_target r) (ir_principal r) (ir_digest r) (ir_outcome r) v
    (ir_fence r).

Definition RenewIdempotency (key : string) (fencingToken ttl clock : Z) : tx rt_db unit :=
  if ttl <=? 0 then tx_err ErrConflict
  else
    updated ← update_reservation key fencingToken (with_until (clock + interval_us ttl));
    if updated : bool then mret tt else tx_err ErrStaleFence.

(** Why no row was updated. *)
Definition classify_reservation (key : string) : tx rt_db unit :=
  k ← tx_lift (uuid_param key);
  s ← tx_get;
  match rt_requests s !! k with
  | None => tx_err RtErrNotFound
  | Some r => match ir_outcome r with Some _ => tx_err ErrTerminal | None => tx_err ErrConflict end
  end.

Definition CompleteIdempotency (key : string) (fencingToken status : Z) (response : option json)
    : tx rt_db unit :=
  status ← tx_lift (int_param status);
  response ← tx_lift (nullable jsonb_column response);
  match response with
  | None =>
      (* the status without a response breaks a constraint of the row *)
      updated ← update_reservation key fencingToken (fun r => r);
      if updated : bool then tx_err check_violation else classify_reservation key
  | Some response =>
      updated ← update_reservation key fencingToken (fun r =>
        mkReservation (ir_method r) (ir_target r) (ir_principal r) (ir_digest r)
          (Some (status, response)) (ir_until r) (ir_fence r));
      if updated : bool then mret tt else classify_reservation key
  end.

Definition AbandonIdempotency (key : string) (fencingToken clock : Z) : tx rt_db unit :=
  updated ← update_reservation key fencingToken (with_until clock);
  if updated : bool then mret tt else classify_reservation key.

(** ** Stage jobs *)

(** The unique columns: a NULL task is distinct from every other. *)
Definition same_identity (run : string) (task : option string) (attempt : Z) (stage : string)
    (r : job_row) : bool :=
  (jr_run r == run) && (jr_task r == task) && (jr_attempt r =? attempt) && (jr_stage r == stage).

Definition jobs_where (s : rt_db) (p : job_row -> bool) : list (string * job_row) :=
  List.filter (fun '(_, r) => p r) (map_to_list (rt_jobs s)).

Definition job_conflict (s : rt_db) (id run : string) (task : option string) (attempt : Z)
    (stage : string) : bool :=
  bool_decide (is_Some (rt_jobs s !! id)) ||
  match task with
  | Some _ => negb (bool_decide (jobs_where s (same_identity run task attempt stage) = []))
  | None => false
  end.

(** [EnqueueTx] and [enqueueSuccessorTx], which run the same statements. *)
Definition EnqueueTx (job : Job) : tx rt_db unit :=
  id ← tx_lift (uuid_param (Job_ID job));
  run ← tx_lift (uuid_param (Job_RunID job));
  task ← tx_lift (nullable uuid_param (Job_TaskID job));
  attempt ← tx_lift (int_param (Job_Attempt job));
  stage ← tx_lift (text_column (Job_Stage job));
  let available := time_column (UTC (AvailableAt job)) in
  s ← tx_get;
  if attempt <=? 0 then tx_err check_violation
  else if negb (job_conflict s id run task attempt stage) then
    if bool_decide (is_Some (runs (rt_workflow s) !! run)) &&
       match task with Some t => task_in_run (rt_workflow s) run t | None => true end
    then tx_put (set_rt_jobs (<[id := mkJobRow run task attempt stage JobReady available None
      None 0 0 0 None None available available]> (rt_jobs s)) s)
    else tx_err foreign_key_violation
  else
    match arbitrary_order (jobs_where s (same_identity run task attempt stage)) with
    | [] => tx_err no_rows
    | (found, _) :: _ => if found != Job_ID job then tx_err ErrConflict else mret tt
    end.

Definition Enqueue (job : Job) : tx rt_db unit := EnqueueTx job.

Record StageStatus := mkStageStatus {
  Status_TaskID : option string;
  Status_Attempt : Z;
  Status_Stage : string;
  Status_State : JobState;
  Status_RetryCount : Z;
  Status_Failure : option ArtifactRef;
}.

Definition RunStages (runID : string) (s : rt_db) : res (list StageStatus) :=
  run ← uuid_param runID;
  let rows := jobs_where s (fun r => jr_run r == run) in
  Ok (omap (fun '(_, id) => (fun r => mkStageStatus (jr_task r) (jr_attempt r) (jr_stage r)
                                        (jr_state r) (jr_retry r) (jr_failure r)) <$>
                            rt_jobs s !! id)
        (merge_sort by_creation (map (fun '(id, r) => (jr_created r, id)) rows))).

(** A job that may be claimed at [now]. *)
Definition claimable (now : Z) (r : job_row) : bool :=
  match jr_state r with
  | JobReady | JobRetry => jr_available r <=? now
  | JobClaimed =>
      (jr_available r <=? now) &&
      match jr_expires r with Some e => e <=? now | None => false end
  | _ => false
  end.

(** The first claimable row that nobody has locked. *)
Definition next_claim (s : rt_db) (now : Z) (locked : gset string) : option string :=
  head (List.filter (fun id => negb (bool_decide (id ∈ locked)))
    (map snd (merge_sort by_creation
      (map (fun '(id, r) => (jr_available r, id)) (jobs_where s (claimable now)))))).

(** The row under a new claim. *)
Definition claimed_row (owner : string) (expires updated : Z) (r : job_row) : job_row :=
  mkJobRow (jr_run r) (jr_task r) (jr_attempt r) (jr_stage r) JobClaimed (jr_available r)
    (Some owner) (Some expires) (u64 (jr_fence r + 1)) (jr_retry r) (jr_transient r)
    (jr_result r) (jr_failure r) (jr_created r) updated.

Definition Claim (owner : string) (now : time) (ttl : Z) (locked : gset string)
    : tx rt_db (option Job) :=
  s ← tx_get;
  match next_claim s (time_column (UTC now)) locked with
  | None => mret None
  | Some id =>
      match rt_jobs s !! id with
      | None => mret None
      | Some r =>
          let expires := time_Add (UTC now) ttl in
          let token := u64 (jr_fence r + 1) in
          owner_id ← tx_lift (uuid_param owner);
          tx_lift (bigint_param token) ;;
          tx_put (set_rt_jobs (<[id := claimed_row owner_id (time_column expires)
            (time_column (UTC now)) r]> (rt_jobs s)) s) ;;
          mret (Some (mkJob id (jr_run r) (jr_task r) (jr_attempt r) (jr_stage r)
            (Some JobClaimed) (scan_time (jr_available r)) (Some owner) (Some expires) token
            (jr_retry r) (jr_transient r) (jr_result r) (jr_failure r)))
      end
  end.

(** Why no row was updated. *)
Definition classifyJobUpdate (jobID : string) : tx rt_db unit :=
  id ← tx_lift (uuid_param jobID);
  s ← tx_get;
  match rt_jobs s !! id with
  | None => tx_err RtErrNotFound
  | Some r => if JobState_Terminal (jr_state r) then tx_err ErrTerminal else tx_err ErrStaleFence
  end.

(** The fenced update the operations share: [WHERE job_id=$1 AND
    state='CLAIMED' AND claim_owner=$2 AND fencing_token=$3]. *)
Definition update_claimed (jobID owner : string) (fence : Z) (f : job_row -> res job_row)
    : tx rt_db unit :=
  id ← tx_lift (uuid_param jobID);
  owner_id ← tx_lift (uuid_param owner);
  token ← tx_lift (bigint_param fence);
  s ← tx_get;
  match rt_jobs s !! id with
  | Some r =>
      if (jr_state r == JobClaimed) && (jr_owner r == Some owner_id) && (jr_fence r =? token) then
        r' ← tx_lift (f r);
        tx_put (set_rt_jobs (<[id := r']> (rt_jobs s)) s)
      else classifyJobUpdate jobID
  | None => classifyJobUpdate jobID
  end.

(** [integer + 1] in a column. *)
Definition int_succ (z : Z) : res Z := if max_i32 <=? z then Err (ErrPg "22003") else Ok (z + 1).

Definition artifact_columns (a : ArtifactRef) : res ArtifactRef :=
  uri ← text_column (URI a); digest ← text_column (Digest a); Ok (mkArtifactRef uri digest).

(** The row released from its claim in a new state. *)
Definition released (r : job_row) (state : JobState) (available retry transient : Z)
    (result failure : option ArtifactRef) (updated : Z) : job_row :=
  mkJobRow (jr_run r) (jr_task r) (jr_attempt r) (jr_stage r) state available None None (jr_fence r)
    retry transient result failure (jr_created r) updated.

Definition complete_row (result : ArtifactRef) (now : time) (r : job_row) : res job_row :=
  result ← artifact_columns result;
  Ok (released r JobCompleted (jr_available r) (jr_retry r) (jr_transient r) (Some result)
        (jr_failure r) (time_column (UTC now))).

Definition Complete (jobID owner : string) (fence : Z) (result : ArtifactRef) (now : time)
    : tx rt_db unit :=
  tx_lift (ArtifactRef_Validate result) ;;
  update_claimed jobID owner fence (complete_row result now).

(** The row under a prolonged claim. *)
Definition renewed_row (expires updated : Z) (r : job_row) : job_row :=
  mkJobRow (jr_run r) (jr_task r) (jr_attempt r) (jr_stage r) (jr_state r) (jr_available r)
    (jr_owner r) (Some expires) (jr_fence r) (jr_retry r) (jr_transient r) (jr_result r)
    (jr_failure r) (jr_created r) updated.

Definition Renew (jobID owner : string) (fence : Z) (expires : time) (clock : Z) : tx rt_db unit :=
  update_claimed jobID owner fence (fun r =>
    Ok (renewed_row (time_column (UTC expires)) clock r)).

Definition CompletedResult (runID : string) (taskID : option string) (attempt : Z) (stage : string)
    (s : rt_db) : res ArtifactRef :=
  run ← uuid_param runID;
  task ← nullable uuid_param taskID;
  attempt ← int_param attempt;
  stage ← text_column stage;
  match arbitrary_order (jobs_where s (fun r =>
    same_identity run task attempt stage r && (jr_state r == JobCompleted))) with
  | [] => Err RtErrNotFound
  | (_, r) :: _ =>
      match jr_result r with
      | None => Err (ErrText "cannot scan NULL into *string")
      | Some ref => ArtifactRef_Validate ref ;; Ok ref
      end
  end.

Definition CompleteAndEnqueue (jobID owner : string) (fence : Z) (result : ArtifactRef)
    (next : option Job) (now : time) : tx rt_db unit :=
  tx_lift (ArtifactRef_Validate result) ;;
  update_claimed jobID owner fence (complete_row result now) ;;
  match next with Some job => EnqueueTx job | None => mret tt end.

Definition retry_row (available : time) (clock : Z) (r : job_row) : res job_row :=
  retry ← int_succ (jr_retry r);
  Ok (released r JobRetry (time_column (UTC available)) retry (jr_transient r) (jr_result r)
        (jr_failure r) clock).

Definition Retry (jobID owner : string) (fence : Z) (available : time) (clock : Z) : tx rt_db unit :=
  update_claimed jobID owner fence (retry_row available clock).

Definition reschedule_row (available : time) (clock : Z) (r : job_row) : res job_row :=
  transient ← int_succ (jr_transient r);
  Ok (released r JobRetry (time_column (UTC available)) (jr_retry r) transient (jr_result r)
        (jr_failure r) clock).

Definition RescheduleTransient (jobID owner : string) (fence : Z) (available : time) (clock : Z)
    : tx rt_db unit :=
  update_claimed jobID owner fence (reschedule_row available clock).

Definition fail_row (failure : ArtifactRef) (now : time) (r : job_row) : res job_row :=
  failure ← artifact_columns failure;
  Ok (released r JobFailed (jr_available r) (jr_retry r) (jr_transient r) (jr_result r)
        (Some failure) (time_column (UTC now))).

Definition Fail (jobID owner : string) (fence : Z) (failure : ArtifactRef) (now : time)
    : tx rt_db unit :=
  tx_lift (ArtifactRef_Validate failure) ;;
  update_claimed jobID owner fence (fail_row failure now).

Definition cancel_job (run : string) (now : Z) (r : job_row) : job_row :=
  if (jr_run r == run) && negb (JobState_Terminal (jr_state r))
  then released r JobCancelled (jr_available r) (jr_retry r) (jr_transient r) (jr_result r)
         (jr_failure r) now
  else r.

Definition CancelRunJobs (runID : string) (now : time) : tx rt_db unit :=
  run ← tx_lift (uuid_param runID);
  s ← tx_get;
  tx_put (set_rt_jobs (cancel_job run (time_column (UTC now)) <$> rt_jobs s) s).

End ledger.
