(* ===== verification/RtHistory.v ===== *)
(** * How the runtime ledger evolves, with sample rows *)

From S2P Require Import Prelude GoStd GoJson WfTypes WfDb WfStore WfStoreLemmas.
From S2P Require Import RtLedger Samples WfGuarantees.

(** * Histories of the runtime ledger

    The calls of the ledger in the order they take effect, with the answer of
    each, and what no call undoes: a job keeps its identity, its fencing token
    and counters only grow, and a terminal job never changes. *)

(** Follow a successful transaction, [match]es on the state included. *)
Ltac tx_run H :=
  repeat (cbn beta in H;
    first
      [ discriminate H
      | lazymatch type of H with
        | mbind _ _ _ = Ok _ =>
            let E := fresh "Hx" in apply tx_bind_Ok in H; destruct H as (? & ? & E & H);
            first [ apply tx_lift_Ok in E; destruct E as [E ->]
                  | injection E as <- <- | injection E as <- | idtac ]
        | tx_lift _ _ = Ok _ => apply tx_lift_Ok in H; destruct H as [H ->]
        | (match ?c with _ => _ end) _ = Ok _ => let E := fresh "Hc" in destruct c eqn:E
        | match ?c with _ => _ end = Ok _ => let E := fresh "Hc" in destruct c eqn:E
        end ]).

Inductive rt_call :=
| CallEnqueue (job : Job)
| CallClaim (owner : string) (now : time) (ttl : Z) (locked : gset string)
| CallRenew (jobID owner : string) (fence : Z) (expires : time) (clock : Z)
| CallComplete (jobID owner : string) (fence : Z) (result : ArtifactRef) (now : time)
| CallCompleteAndEnqueue (jobID owner : string) (fence : Z) (result : ArtifactRef)
    (next : option Job) (now : time)
| CallRetry (jobID owner : string) (fence : Z) (available : time) (clock : Z)
| CallReschedule (jobID owner : string) (fence : Z) (available : time) (clock : Z)
| CallFail (jobID owner : string) (fence : Z) (failure : ArtifactRef) (now : time)
| CallCancelRun (runID : string) (now : time)
| CallBegin (request : IdempotencyRequest) (now : time)
| CallRenewRequest (key : string) (fence ttl clock : Z)
| CallCompleteRequest (key : string) (fence status : Z) (response : option json)
| CallAbandon (key : string) (fence clock : Z).

Inductive rt_answer :=
| Done (r : res unit)
| ClaimAnswer (r : res (option Job))
| BeginAnswer (r : res IdempotencyResult).

Definition answered {A} (f : res A -> rt_answer) (m : tx rt_db A) (s : rt_db)
    : rt_answer * rt_db :=
  let '(r, s') := run_tx m s in (f r, s').

(** The claim a call gives up: job, owner and fencing token. *)
Definition settles (c : rt_call) : option (string * string * Z) :=
  match c with
  | CallComplete id o f _ _ | CallCompleteAndEnqueue id o f _ _ _ | CallRetry id o f _ _
  | CallReschedule id o f _ _ | CallFail id o f _ _ => Some (id, o, f)
  | _ => None
  end.

Section histories.
Context `{Platform}.
Variable interval_us : Z -> Z.

Definition perform (c : rt_call) (s : rt_db) : rt_answer * rt_db :=
  match c with
  | CallEnqueue job => answered Done (Enqueue job) s
  | CallClaim owner now ttl locked => answered ClaimAnswer (Claim owner now ttl locked) s
  | CallRenew id owner fence expires clock => answered Done (Renew id owner fence expires clock) s
  | CallComplete id owner fence result now => answered Done (Complete id owner fence result now) s
  | CallCompleteAndEnqueue id owner fence result next now =>
      answered Done (CompleteAndEnqueue id owner fence result next now) s
  | CallRetry id owner fence available clock =>
      answered Done (Retry id owner fence available clock) s
  | CallReschedule id owner fence available clock =>
      answered Done (RescheduleTransient id owner fence available clock) s
  | CallFail id owner fence failure now => answered Done (Fail id owner fence failure now) s
  | CallCancelRun run now => answered Done (CancelRunJobs run now) s
  | CallBegin request now => answered BeginAnswer (BeginIdempotency request now) s
  | CallRenewRequest key fence ttl clock =>
      answered Done (RenewIdempotency interval_us key fence ttl clock) s
  | CallCompleteRequest key fence status response =>
      answered Done (CompleteIdempotency key fence status response) s
  | CallAbandon key fence clock => answered Done (AbandonIdempotency key fence clock) s
  end.

Fixpoint history (calls : list rt_call) (s : rt_db) : list (rt_call * rt_answer) :=
  match calls with
  | [] => []
  | c :: rest => (c, fst (perform c s)) :: history rest (snd (perform c s))
  end.

Fixpoint ledger_after (calls : list rt_call) (s : rt_db) : rt_db :=
  match calls with
  | [] => s
  | c :: rest => ledger_after rest (snd (perform c s))
  end.

Lemma ledger_after_app a b s : ledger_after (a ++ b) s = ledger_after b (ledger_after a s).
Proof. revert s. induction a as [|c a IH]; intros s; [done|]. exact (IH _). Qed.

Lemma history_lookup calls s i c a :
  history calls s !! i = Some (c, a) ->
  calls !! i = Some c /\
  perform c (ledger_after (take i calls) s) = (a, ledger_after (take (S i) calls) s).
Proof.
  revert s i. induction calls as [|c' rest IH]; intros s i; [done|].
  destruct i as [|i]; cbn.
  - intros [= -> <-]. split; [done|]. rewrite take_0. cbn. by destruct (perform c s).
  - intros Hl. by apply IH in Hl.
Qed.

(** The calls from the [i]th to the [j]th. *)
Lemma ledger_between calls s i j :
  (i <= j)%nat ->
  ledger_after (take j calls) s = ledger_after (drop i (take j calls)) (ledger_after (take i calls) s).
Proof.
  intros Hij. rewrite <- ledger_after_app. f_equal.
  rewrite <- (take_drop i (take j calls)) at 1. f_equal. rewrite take_take. f_equal. lia.
Qed.

Lemma history_length calls s : length (history calls s) = length calls.
Proof. revert s. induction calls as [|c rest IH]; intros s; [done|]. cbn. by rewrite IH. Qed.

Lemma answered_Ok {A} (f : res A -> rt_answer) (m : tx rt_db A) s x s' :
  answered f m s = (x, s') ->
  (exists a, m s = Ok (a, s') /\ x = f (Ok a)) \/ (exists e, x = f (Err e) /\ s' = s).
Proof.
  unfold answered, run_tx. destruct (m s) as [[a s1]|e]; intros [= <- <-]; eauto.
Qed.

(** ** What the fenced update changes *)


Lemma classify_never_Ok id s u s' : classifyJobUpdate id s = Ok (u, s') -> False.
Proof.
  unfold classifyJobUpdate. intros Hr. tx_run Hr.
Qed.

Lemma update_claimed_Ok id owner fence f s u s' :
  update_claimed id owner fence f s = Ok (u, s') ->
  exists k o r r', uuid_column id = Some k /\ uuid_column owner = Some o /\
    rt_jobs s !! k = Some r /\ jr_state r = JobClaimed /\ jr_owner r = Some o /\
    jr_fence r = fence /\ f r = Ok r' /\ s' = set_rt_jobs (<[k := r']> (rt_jobs s)) s.
Proof.
  unfold update_claimed. intros Hr.
  tx_run Hr; try by apply classify_never_Ok in Hr.
  unfold uuid_param in *.
  destruct (uuid_column id) as [k|] eqn:Ek; [|done].
  destruct (uuid_column owner) as [o|] eqn:Eo; [|done].
  apply bigint_param_Ok in Hx1 as [-> _].
  apply andb_true_iff in Hc0 as [[Hst%bool_decide_eq_true How%bool_decide_eq_true]%andb_true_iff
    Hf%Z.eqb_eq].
  injection Hx as ->. injection Hx0 as ->. injection Hr as _ <-.
  eauto 15.
Qed.

(** ** What the other calls change *)

Lemma EnqueueTx_Ok job s u s' :
  EnqueueTx job s = Ok (u, s') ->
  s' = s \/
  exists k run task, uuid_column (Job_ID job) = Some k /\ uuid_column (Job_RunID job) = Some run /\
    nullable uuid_param (Job_TaskID job) = Ok task /\
    job_conflict s k run task (Job_Attempt job) (Job_Stage job) = false /\
    s' = set_rt_jobs (<[k := mkJobRow run task (Job_Attempt job) (Job_Stage job) JobReady
      (time_column (UTC (AvailableAt job))) None None 0 0 0 None None
      (time_column (UTC (AvailableAt job))) (time_column (UTC (AvailableAt job)))]> (rt_jobs s)) s.
Proof.
  unfold EnqueueTx. intros Hr. tx_run Hr.
  - right. apply uuid_param_Ok in Hx, Hx0. apply text_column_Ok in Hx3 as ->.
    unfold int_param in Hx2. destruct (_ <=? _); [|done]. injection Hx2 as <-.
    injection Hr as _ <-. apply negb_true_iff in Hc0. eexists _, _, _. done.
  - left. by injection Hr as _ <-.
Qed.

Lemma Claim_Ok owner now ttl locked s a s' :
  Claim owner now ttl locked s = Ok (a, s') ->
  (a = None /\ s' = s) \/
  exists id r o, rt_jobs s !! id = Some r /\ claimable (time_column (UTC now)) r = true /\
    (id ∉ locked) /\ uuid_column owner = Some o /\ u64 (jr_fence r + 1) <= max_i64 /\
    s' = set_rt_jobs (<[id := claimed_row o (time_column (time_Add (UTC now) ttl))
           (time_column (UTC now)) r]> (rt_jobs s)) s /\
    a = Some (mkJob id (jr_run r) (jr_task r) (jr_attempt r) (jr_stage r) (Some JobClaimed)
      (scan_time (jr_available r)) (Some owner) (Some (time_Add (UTC now) ttl))
      (u64 (jr_fence r + 1)) (jr_retry r) (jr_transient r) (jr_result r) (jr_failure r)).
Proof.
  unfold Claim. intros Hr. tx_run Hr.
  - right.
    match goal with Hx : uuid_param _ = Ok _ |- _ => apply uuid_param_Ok in Hx end.
    match goal with Hx : bigint_param _ = Ok _ |- _ => apply bigint_param_Ok in Hx as [-> Hle] end.
    injection Hr as <- <-. unfold next_claim in Hc. apply head_Some_elem_of in Hc.
    apply list_elem_of_In, filter_In in Hc as [Hin Hlk].
    apply list_elem_of_In, list_elem_of_fmap in Hin as ([t id] & -> & Hin).
    rewrite merge_sort_Permutation in Hin.
    apply list_elem_of_fmap in Hin as ([id' r] & [= -> ->] & Hin).
    apply list_elem_of_In, filter_In in Hin as [Hin Hcl].
    apply list_elem_of_In, elem_of_map_to_list in Hin. cbn in Hc0. rewrite Hin in Hc0.
    injection Hc0 as ->. apply negb_true_iff, bool_decide_eq_false in Hlk.
    eexists id', _, _. done.
  - left. by injection Hr as <- <-.
  - left. by injection Hr as <- <-.
Qed.

(** ** What the calls about requests change *)

Lemma update_reservation_Ok key fence f s b s' :
  update_reservation key fence f s = Ok (b, s') ->
  (b = false /\ s' = s) \/
  exists k r, b = true /\ uuid_column key = Some k /\ rt_requests s !! k = Some r /\
    ir_fence r = fence /\ ir_outcome r = None /\
    s' = set_rt_requests (<[k := f r]> (rt_requests s)) s.
Proof.
  unfold update_reservation. intros Hr. tx_run Hr; try (left; by injection Hr as <- <-).
  right. apply uuid_param_Ok in Hx. apply bigint_param_Ok in Hx0 as [-> _].
  apply andb_true_iff in Hc0 as [Hf%Z.eqb_eq Ho%bool_decide_eq_true].
  injection Hr as <- <-. eauto 10.
Qed.

Lemma classify_reservation_never_Ok key s u s' : classify_reservation key s = Ok (u, s') -> False.
Proof. unfold classify_reservation. intros Hr. tx_run Hr. Qed.

(** The request a reservation is for. *)
Definition asks (r : idempotencyReservation) (request : IdempotencyRequest) : Prop :=
  ir_method r = Method request /\ ir_target r = Target request /\
  ir_digest r = RequestDigest request.

Definition same_request (r r' : idempotencyReservation) : Prop :=
  ir_method r' = ir_method r /\ ir_target r' = ir_target r /\ ir_digest r' = ir_digest r.

Lemma matches_asks r request : reservation_matches r request = true -> asks r request.
Proof.
  unfold reservation_matches. rewrite !andb_true_iff, !bool_decide_eq_true.
  intros [[[? ?] ?] ?]. done.
Qed.

Lemma insertIdempotencyReservation_Ok request ttl now s b s' :
  insertIdempotencyReservation request ttl now s = Ok (b, s') ->
  exists k, uuid_column (Key request) = Some k /\
    ((b = false /\ is_Some (rt_requests s !! k) /\ s' = s) \/
     (b = true /\ rt_requests s !! k = None /\
      exists r, ir_fence r = 1 /\ ir_outcome r = None /\ asks r request /\
        s' = set_rt_requests (<[k := r]> (rt_requests s)) s)).
Proof.
  unfold insertIdempotencyReservation. intros Hr. tx_run Hr;
    apply uuid_param_Ok in Hx; eexists; (split; [done|]); injection Hr as <- <-.
  - left. by apply bool_decide_eq_true in Hc0.
  - right. apply bool_decide_eq_false, eq_None_not_Some in Hc0. split; [done|]. split; [done|].
    apply text_column_Ok in Hx0 as ->. apply text_column_Ok in Hx1 as ->.
    apply text_column_Ok in Hx3 as ->. by eexists (mkReservation _ _ _ _ _ _ _).
Qed.

Lemma reclaimIdempotencyReservation_Ok key k r fence now ttl s u s' :
  uuid_column key = Some k -> rt_requests s !! k = Some r ->
  reclaimIdempotencyReservation key fence now ttl s = Ok (u, s') ->
  0 < fence <= max_i64 /\
  exists r', ir_fence r' = fence /\ ir_outcome r' = ir_outcome r /\ same_request r r' /\
    s' = set_rt_requests (<[k := r']> (rt_requests s)) s.
Proof.
  intros Hk Hl. unfold reclaimIdempotencyReservation. intros Hr. tx_run Hr.
  apply uuid_param_Ok in Hx. apply bigint_param_Ok in Hx0 as [-> Hle].
  rewrite Hk in Hx. injection Hx as <-. injection Hr as _ <-. split; [lia|].
  eexists (mkReservation _ _ _ _ _ _ _). cbn. do 3 (split; [done|]).
  f_equal. apply map_eq. intros i. destruct (decide (i = k)) as [->|Hne].
  - by rewrite lookup_alter_eq, lookup_insert_eq, Hl.
  - by rewrite lookup_alter_ne, lookup_insert_ne.
Qed.

Definition begins (request : IdempotencyRequest) (k : string) (answer : IdempotencyResult)
    (s s' : rt_db) : Prop :=
  (rt_requests s !! k = None /\ answer = mkIdemResult 0 None false 1 /\
   exists r, ir_fence r = 1 /\ ir_outcome r = None /\ asks r request /\
     s' = set_rt_requests (<[k := r]> (rt_requests s)) s) \/
  exists r, rt_requests s !! k = Some r /\ asks r request /\
    ((exists status response, ir_outcome r = Some (status, response) /\ s' = s /\
        answer = mkIdemResult status (Some response) true (ir_fence r)) \/
     (ir_outcome r = None /\ 0 < u64 (ir_fence r + 1) <= max_i64 /\
        answer = mkIdemResult 0 None false (u64 (ir_fence r + 1)) /\
        exists r', ir_fence r' = u64 (ir_fence r + 1) /\ ir_outcome r' = None /\
          same_request r r' /\ s' = set_rt_requests (<[k := r']> (rt_requests s)) s)).

Lemma BeginIdempotency_Ok request now s answer s' :
  BeginIdempotency request now s = Ok (answer, s') ->
  exists k, uuid_column (Key request) = Some k /\ begins request k answer s s'.
Proof.
  unfold BeginIdempotency. destruct (negb _); [done|]. cbv zeta.
  intros ([] & s1 & (k & Hk & Hi)%insertIdempotencyReservation_Ok & Hr)%tx_bind_Ok;
    exists k; (split; [done|]).
  - injection Hr as <- <-. destruct Hi as [[[=] _]|(_ & Hn & r & Hf & Ho & Ha & ->)].
    left. eauto 10.
  - destruct Hi as [(_ & [r Hl] & ->)|[[=] _]]. right. exists r.
    apply tx_bind_Ok in Hr as (r1 & s1 & Hload & Hr). unfold loadIdempotencyReservation in Hload.
    tx_run Hload. apply uuid_param_Ok in Hx. rewrite Hk in Hx. injection Hx as <-.
    rewrite Hl in Hc. injection Hc as ->. injection Hload as <- <-.
    destruct (reservation_matches i request) eqn:Hm; cbn in Hr; [|done].
    split; [done|]. split; [by apply matches_asks|]. destruct (ir_outcome i) as [[status response]|] eqn:Ho.
    + left. injection Hr as <- <-. eauto.
    + right. destruct (After _ _); [done|].
      apply tx_bind_Ok in Hr as (u & s1 & Hre & [= <- <-]).
      destruct (reclaimIdempotencyReservation_Ok _ _ _ _ _ _ _ _ _ Hk Hl Hre)
        as (Hb & r' & Hf & Hou & Hsr & ->).
      split; [done|]. split; [done|]. split; [done|]. exists r'. by rewrite Hou.
Qed.

Lemma begins_jobs request k answer s s' :
  begins request k answer s s' -> rt_jobs s' = rt_jobs s.
Proof.
  intros [(_ & _ & r & _ & _ & _ & ->)|
          (r & _ & _ & [(? & ? & _ & -> & _)|(_ & _ & _ & r' & _ & _ & _ & ->)])];
    done.
Qed.

(** Completing sets the outcome; renewing and abandoning only the deadline. *)
Lemma CompleteIdempotency_Ok key fence status response s u s' :
  CompleteIdempotency key fence status response s = Ok (u, s') ->
  exists k r v, uuid_column key = Some k /\ rt_requests s !! k = Some r /\ ir_fence r = fence /\
    ir_outcome r = None /\ status <= max_i32 /\ (exists w, response = Some w /\ jsonb_column w = Ok v) /\
    s' = set_rt_requests (<[k := mkReservation (ir_method r) (ir_target r) (ir_principal r)
      (ir_digest r) (Some (status, v)) (ir_until r) (ir_fence r)]> (rt_requests s)) s.
Proof.
  unfold CompleteIdempotency.
  intros (status' & s1 & [Hs ->]%tx_lift_Ok & Hr)%tx_bind_Ok.
  apply tx_bind_Ok in Hr as (response' & s1 & [Hj ->]%tx_lift_Ok & Hr).
  unfold int_param in Hs. destruct (Z.leb_spec status max_i32); [|done]. injection Hs as <-.
  destruct response' as [v|].
  - apply tx_bind_Ok in Hr as ([] & s1 & Hu & Hr);
      apply update_reservation_Ok in Hu as [[? ->]|(k & r & ? & Hk & Hl & Hf & Ho & ->)]; try done;
      [|by apply classify_reservation_never_Ok in Hr].
    injection Hr as _ <-. exists k, r, v. split_and!; try done.
    destruct response as [w|]; [|done]. cbn in Hj. exists w. split; [done|]. by go_run Hj.
  - apply tx_bind_Ok in Hr as ([] & s1 & Hu & Hr); [done|].
    by apply classify_reservation_never_Ok in Hr.
Qed.

Definition deadline_moved (key : string) (fence : Z) (s s' : rt_db) : Prop :=
  exists k r v, uuid_column key = Some k /\ rt_requests s !! k = Some r /\ ir_fence r = fence /\
    ir_outcome r = None /\ s' = set_rt_requests (<[k := with_until v r]> (rt_requests s)) s.

Lemma RenewIdempotency_Ok key fence ttl clock s u s' :
  RenewIdempotency interval_us key fence ttl clock s = Ok (u, s') -> deadline_moved key fence s s'.
Proof.
  unfold RenewIdempotency. destruct (ttl <=? 0); [done|].
  intros ([] & s1 & Hu & Hr)%tx_bind_Ok; [|done]. injection Hr as _ <-.
  apply update_reservation_Ok in Hu as [[? ->]|(k & r & ? & Hk & Hl & Hf & Ho & ->)]; [done|].
  by eexists k, r, _.
Qed.

Lemma AbandonIdempotency_Ok key fence clock s u s' :
  AbandonIdempotency key fence clock s = Ok (u, s') -> deadline_moved key fence s s'.
Proof.
  unfold AbandonIdempotency.
  intros ([] & s1 & Hu & Hr)%tx_bind_Ok; [|by apply classify_reservation_never_Ok in Hr].
  injection Hr as _ <-.
  apply update_reservation_Ok in Hu as [[? ->]|(k & r & ? & Hk & Hl & Hf & Ho & ->)]; [done|].
  by eexists k, r, _.
Qed.

(** ** Changes of the job table *)

(** The columns that identify a job. *)
Definition same_job (r r' : job_row) : bool :=
  same_identity (jr_run r) (jr_task r) (jr_attempt r) (jr_stage r) r'.

Definition released_from (r r' : job_row) : Prop :=
  same_job r r' = true /\
  jr_state r' <> JobClaimed /\ jr_fence r' = jr_fence r /\
  jr_retry r <= jr_retry r' /\ jr_transient r <= jr_transient r'.

(** One change that is not a claim. *)
Inductive job_change (J : gmap string job_row) : gmap string job_row -> Prop :=
| change_new k r : J !! k = None -> jr_state r = JobReady -> jr_fence r = 0 ->
    (forall id r0, J !! id = Some r0 -> jr_task r <> None -> same_job r r0 = false) ->
    job_change J (<[k := r]> J)
| change_renew k r e u : J !! k = Some r -> jr_state r = JobClaimed ->
    job_change J (<[k := renewed_row e u r]> J)
| change_release k r r' : J !! k = Some r -> jr_state r = JobClaimed -> released_from r r' ->
    job_change J (<[k := r']> J)
| change_cancel run now : job_change J (cancel_job run now <$> J).

Lemma released_same r state available retry transient result failure updated :
  state <> JobClaimed -> jr_retry r <= retry -> jr_transient r <= transient ->
  released_from r (released r state available retry transient result failure updated).
Proof.
  intros Hs Hr Ht. split; [|done]. unfold same_job, same_identity. cbn.
  by rewrite !bool_decide_true, Z.eqb_refl.
Qed.

Lemma int_succ_Ok z z' : int_succ z = Ok z' -> z' = z + 1.
Proof. unfold int_succ. destruct (_ <=? _); [done|by intros [= <-]]. Qed.

(** What the row functions do to a claimed row. *)
Lemma complete_row_Ok result now r r' :
  complete_row result now r = Ok r' ->
  released_from r r' /\ jr_state r' = JobCompleted /\ jr_retry r' = jr_retry r /\
  jr_transient r' = jr_transient r.
Proof.
  unfold complete_row. intros Hr. go_run Hr. split; [|done]. by apply released_same.
Qed.

Lemma retry_row_Ok available clock r r' :
  retry_row available clock r = Ok r' ->
  released_from r r' /\ jr_state r' = JobRetry /\ jr_retry r' = jr_retry r + 1 /\
  jr_transient r' = jr_transient r.
Proof.
  unfold retry_row. intros (n & ->%int_succ_Ok & [= <-])%res_bind_Ok.
  split; [|done]. by apply released_same; [|lia|].
Qed.

Lemma reschedule_row_Ok available clock r r' :
  reschedule_row available clock r = Ok r' ->
  released_from r r' /\ jr_state r' = JobRetry /\ jr_retry r' = jr_retry r /\
  jr_transient r' = jr_transient r + 1.
Proof.
  unfold reschedule_row. intros (n & ->%int_succ_Ok & [= <-])%res_bind_Ok.
  split; [|done]. by apply released_same; [| |lia].
Qed.

Lemma fail_row_Ok failure now r r' :
  fail_row failure now r = Ok r' ->
  released_from r r' /\ jr_state r' = JobFailed /\ jr_retry r' = jr_retry r /\
  jr_transient r' = jr_transient r.
Proof.
  unfold fail_row. intros Hr. go_run Hr. split; [|done]. by apply released_same.
Qed.

Lemma job_conflict_false s k run task attempt stage :
  job_conflict s k run task attempt stage = false ->
  rt_jobs s !! k = None /\
  forall t id r, task = Some t -> rt_jobs s !! id = Some r ->
    same_identity run task attempt stage r = false.
Proof.
  intros [Hn%bool_decide_eq_false Hw]%orb_false_iff. split; [by apply eq_None_not_Some|].
  intros t id r -> Hl. apply negb_false_iff, bool_decide_eq_true in Hw.
  destruct (same_identity run (Some t) attempt stage r) eqn:Hs; [|done].
  assert (Hin : (id, r) ∈ jobs_where s (same_identity run (Some t) attempt stage)).
  { apply list_elem_of_In, filter_In. split; [|done]. by apply list_elem_of_In, elem_of_map_to_list. }
  rewrite Hw in Hin. by apply elem_of_nil in Hin.
Qed.

Lemma EnqueueTx_changes job s u s' :
  EnqueueTx job s = Ok (u, s') ->
  rt_requests s' = rt_requests s /\ rtc job_change (rt_jobs s) (rt_jobs s').
Proof.
  intros [->|(k & run & task & _ & _ & _ & Hc & ->)]%EnqueueTx_Ok; [done|].
  split; [done|]. apply rtc_once. apply job_conflict_false in Hc as [Hn Hu].
  apply change_new; [done..|]. intros id r0 Hl0 Ht. cbn in Ht.
  destruct task as [task|]; [|done]. exact (Hu task id r0 eq_refl Hl0).
Qed.

Definition settled (id owner : string) (fence : Z) (s s' : rt_db) : Prop :=
  exists k o r r' , uuid_column id = Some k /\ uuid_column owner = Some o /\
    rt_jobs s !! k = Some r /\ jr_state r = JobClaimed /\ jr_owner r = Some o /\
    jr_fence r = fence /\ released_from r r' /\ rt_requests s' = rt_requests s /\
    rtc job_change (<[k := r']> (rt_jobs s)) (rt_jobs s').

Lemma update_settles id owner fence f s u s' :
  (forall r r', f r = Ok r' -> released_from r r') ->
  update_claimed id owner fence f s = Ok (u, s') -> settled id owner fence s s'.
Proof.
  intros Hf (k & o & r & r' & Hk & Ho & Hl & Hst & How & Hfe & Hr & ->)%update_claimed_Ok.
  exists k, o, r, r'. split_and!; try done. by apply Hf.
Qed.

(** A call that settles a claim releases the row of the job. *)
Lemma settles_Ok c s s' id owner fence :
  settles c = Some (id, owner, fence) -> perform c s = (Done (Ok tt), s') ->
  settled id owner fence s s'.
Proof.
  destruct c; cbn; intros [=] Hp; subst;
    apply answered_Ok in Hp as [([] & Hr & _)|(e & [=] & _)];
    unfold Complete, CompleteAndEnqueue, Retry, RescheduleTransient, Fail in Hr.
  - tx_run Hr. eapply update_settles; [|exact Hr]. intros r r' Hf. by apply complete_row_Ok in Hf as [? _].
  - apply tx_bind_Ok in Hr as (? & ? & [_ ->]%tx_lift_Ok & Hr).
    apply tx_bind_Ok in Hr as (? & s1 & Hu & Hr).
    assert (Hs : settled id owner fence s s1).
    { eapply update_settles; [|exact Hu]. intros r r' Hf. by apply complete_row_Ok in Hf as [? _]. }
    destruct next as [job|]; [|by injection Hr as <-].
    destruct Hs as (k & o & r & r' & Hk & Ho & Hl & Hst & How & Hfe & Hre & Hq & Hc).
    apply EnqueueTx_changes in Hr as [Hq' Hc']. exists k, o, r, r'.
    split_and!; try done; [by rewrite Hq'|by etrans].
  - eapply update_settles; [|exact Hr]. intros r r' Hf. by apply retry_row_Ok in Hf as [? _].
  - eapply update_settles; [|exact Hr]. intros r r' Hf. by apply reschedule_row_Ok in Hf as [? _].
  - tx_run Hr. eapply update_settles; [|exact Hr]. intros r r' Hf. by apply fail_row_Ok in Hf as [? _].
Qed.

(** A call is a claim, or leaves every claim as it is or released. *)
Lemma perform_changes c s a s' :
  perform c s = (a, s') ->
  rtc job_change (rt_jobs s) (rt_jobs s') \/
  exists owner now ttl locked id r o,
    c = CallClaim owner now ttl locked /\ uuid_column owner = Some o /\
    rt_jobs s !! id = Some r /\ claimable (time_column (UTC now)) r = true /\
    u64 (jr_fence r + 1) <= max_i64 /\
    rt_jobs s' = <[id := claimed_row o (time_column (time_Add (UTC now) ttl))
      (time_column (UTC now)) r]> (rt_jobs s) /\
    a = ClaimAnswer (Ok (Some (mkJob id (jr_run r) (jr_task r) (jr_attempt r) (jr_stage r)
      (Some JobClaimed) (scan_time (jr_available r)) (Some owner) (Some (time_Add (UTC now) ttl))
      (u64 (jr_fence r + 1)) (jr_retry r) (jr_transient r) (jr_result r) (jr_failure r)))).
Proof.
  intros Hp. destruct (settles c) as [[[id o] f]|] eqn:Hs.
  { left. destruct c; try discriminate Hs;
      (pose proof Hp as Ha; apply answered_Ok in Ha as [([] & _ & ->)|(e & _ & ->)]; [|done]);
      destruct (settles_Ok _ _ _ _ _ _ Hs Hp) as (k & o' & r & r' & _ & _ & Hl & Hst & _ & _ & Hr & _ & Hc);
      (eapply rtc_l; [by eapply change_release|exact Hc]). }
  destruct c; try discriminate Hs; clear Hs;
    apply answered_Ok in Hp as [(x & Hr & ->)|(e & _ & ->)]; try (left; done).
  - left. by apply EnqueueTx_changes in Hr as [_ ?].
  - apply Claim_Ok in Hr as [[-> ->]|(id & r & o & Hl & Hcl & _ & Ho & Hle & -> & ->)];
      [left; done|right]. eexists _, _, _, _, id, r, o. done.
  - left. apply update_claimed_Ok in Hr as (k & o & r & r' & _ & _ & Hl & Hst & _ & _ & [= <-] & ->).
    by apply rtc_once, change_renew.
  - left. unfold CancelRunJobs in Hr. tx_run Hr. injection Hr as _ <-. apply rtc_once, change_cancel.
  - left. apply BeginIdempotency_Ok in Hr as (k & _ & Hb). by rewrite (begins_jobs _ _ _ _ _ Hb).
  - left. by apply RenewIdempotency_Ok in Hr as (k & r & v & _ & _ & _ & _ & ->).
  - left. by apply CompleteIdempotency_Ok in Hr as (k & r & v & _ & _ & _ & _ & _ & _ & ->).
  - left. by apply AbandonIdempotency_Ok in Hr as (k & r & v & _ & _ & _ & _ & ->).
Qed.

End histories.

(** * Concrete histories of the runtime ledger *)

Definition sample_interval (ttl : Z) : Z := ttl / 1000.
Definition sample_rt : rt_db := empty_rt (execute_all executing_commands empty_db).
Definition start_job : Job :=
  mkJob "job-1" "run-1" (Some "task-1") 1 "start" None (at_time 20) None None 0 0 0 None None.

(** A claim that expires, is taken over, and is then completed by both. *)
Definition takeover_calls : list rt_call :=
  [ CallEnqueue start_job;
    CallClaim "owner-1" (at_time 21) (30 * Second) ∅;
    CallClaim "owner-2" (at_time 60) (30 * Second) ∅;
    CallComplete "job-1" "owner-1" 1 (art "late") (at_time 61);
    CallComplete "job-1" "owner-2" 2 (art "done") (at_time 62);
    CallFail "job-1" "owner-2" 2 (art "failure") (at_time 63) ].

Definition sample_request : IdempotencyRequest :=
  mkIdemRequest "key-1" "POST" "/runs" "principal-1" hex64 0.

(** A request whose first owner is too slow. *)
Definition request_calls : list rt_call :=
  [ CallBegin sample_request (at_time 1);
    CallBegin sample_request (at_time 2);
    CallBegin sample_request (at_time 40);
    CallCompleteRequest "key-1" 1 500 (Some (JObj []));
    CallCompleteRequest "key-1" 2 201 (Some (JObj [("run_id", JStr "run-1")]));
    CallBegin sample_request (at_time 80) ].

Definition answer_summary (a : rt_answer) : string :=
  match a with
  | Done (Ok _) => "done"
  | Done (Err (ErrNew e)) => e
  | ClaimAnswer (Ok (Some job)) => "claimed " +:+ decimal (Job_FencingToken job)
  | ClaimAnswer (Ok None) => "nothing"
  | BeginAnswer (Ok r) =>
      (if Idem_Replay r then "replay " else "fresh ") +:+ decimal (StatusCode r) +:+ " " +:+
      decimal (Idem_FencingToken r)
  | BeginAnswer (Err (ErrNew e)) => e
  | _ => "error"
  end.

Example takeover_answers :
  map (fun x => answer_summary (snd x)) (history sample_interval takeover_calls sample_rt) =
  ["done"; "claimed 1"; "claimed 2"; "runtime: stale runtime fencing token"; "done";
   "runtime: runtime job is terminal"].
Proof. vm_compute. reflexivity. Qed.

Example request_answers :
  map (fun x => answer_summary (snd x)) (history sample_interval request_calls sample_rt) =
  ["fresh 0 1"; "runtime: runtime request is still processing"; "fresh 0 2";
   "runtime: runtime identity conflicts with existing content"; "done"; "replay 201 2"].
Proof. vm_compute. reflexivity. Qed.
