(* ===== verification/RtFencing.v ===== *)
(** * Fencing of the claims on stage jobs

    What every history of ledger calls preserves, whoever makes the calls: the
    fencing token of a job only grows, a released claim stays released, the
    counters of failures only grow and a terminal job never changes.  Hence a
    claim is settled at most once, by the owner it was given to. *)

From S2P Require Import Prelude GoStd GoJson WfTypes WfDb WfStore WfStoreLemmas.
From S2P Require Import Samples RtLedger RtHistory.

(** ** What a job keeps *)

(** The smallest token that can still settle the job. *)
Definition floor (r : job_row) : Z :=
  if bool_decide (jr_state r = JobClaimed) then jr_fence r else jr_fence r + 1.

Record job_kept (r r' : job_row) : Prop := {
  jk_identity : same_job r r' = true;
  jk_fence : jr_fence r <= jr_fence r';
  jk_floor : floor r <= floor r';
  jk_terminal : JobState_Terminal (jr_state r) = true -> r' = r;
  jk_retry : jr_retry r <= jr_retry r';
  jk_transient : jr_transient r <= jr_transient r';
  jk_frozen : jr_state r = JobClaimed -> jr_state r' = JobClaimed -> jr_fence r' = jr_fence r ->
    jr_retry r' = jr_retry r /\ jr_transient r' = jr_transient r /\ jr_owner r' = jr_owner r;
}.

Lemma same_job_spec r r' :
  same_job r r' = true <->
  jr_run r' = jr_run r /\ jr_task r' = jr_task r /\ jr_attempt r' = jr_attempt r /\
  jr_stage r' = jr_stage r.
Proof.
  unfold same_job, same_identity. rewrite !andb_true_iff, !bool_decide_eq_true, Z.eqb_eq. tauto.
Qed.

Lemma floor_claimed r : jr_state r = JobClaimed -> floor r = jr_fence r.
Proof. intros Hs. unfold floor. by rewrite bool_decide_true. Qed.

Lemma floor_released r : jr_state r <> JobClaimed -> floor r = jr_fence r + 1.
Proof. intros Hs. unfold floor. by rewrite bool_decide_false. Qed.

Lemma floor_cases r :
  (jr_state r = JobClaimed /\ floor r = jr_fence r) \/
  (jr_state r <> JobClaimed /\ floor r = jr_fence r + 1).
Proof. unfold floor. case_bool_decide; auto. Qed.

#[global] Instance job_kept_preorder : PreOrder job_kept.
Proof.
  split.
  - intros r. split; try done; try lia. by apply same_job_spec.
  - intros r1 r2 r3 [Hi Hf Hfl Ht Hr Htr Hz] [Hi' Hf' Hfl' Ht' Hr' Htr' Hz'].
    apply same_job_spec in Hi as (? & ? & ? & ?).
    apply same_job_spec in Hi' as (? & ? & ? & ?).
    split; try lia.
    + apply same_job_spec. split_and!; congruence.
    + intros Hterm. specialize (Ht Hterm). subst r2. by apply Ht'.
    + intros Hc1 Hc3 Heq. destruct (floor_cases r1), (floor_cases r2), (floor_cases r3); open_hyps;
        try done; try lia.
      destruct Hz as (? & ? & ?), Hz' as (? & ? & ?); try done; try lia. split_and!; congruence.
Qed.

Definition jobs_kept (J J' : gmap string job_row) : Prop :=
  forall id r, J !! id = Some r -> exists r', J' !! id = Some r' /\ job_kept r r'.

#[global] Instance jobs_kept_preorder : PreOrder jobs_kept.
Proof.
  split.
  - intros J id r Hl. by exists r.
  - intros J1 J2 J3 H12 H23 id r Hl. destruct (H12 _ _ Hl) as (r2 & Hl2 & Hk).
    destruct (H23 _ _ Hl2) as (r3 & Hl3 & Hk3). exists r3. split; [done|]. by etrans.
Qed.

Lemma jobs_kept_insert J k r' :
  (forall r, J !! k = Some r -> job_kept r r') -> jobs_kept J (<[k := r']> J).
Proof.
  intros Hk id r Hl. destruct (decide (id = k)) as [->|Hne].
  - exists r'. rewrite lookup_insert_eq. auto.
  - exists r. by rewrite lookup_insert_ne.
Qed.

(** Tokens fit their column. *)
Definition tokens_fit : gmap string job_row -> Prop :=
  map_Forall (fun _ r => 0 <= jr_fence r <= max_i64).

Lemma released_kept r r' : jr_state r = JobClaimed -> released_from r r' -> job_kept r r'.
Proof.
  intros Hs (Hi & Hs' & Hf & Hr & Ht).
  destruct (floor_cases r) as [[_ Hfl]|[? _]], (floor_cases r') as [[? _]|[_ Hfl']]; try done.
  split; try done; try lia. rewrite Hs. done.
Qed.

Lemma cancel_kept run now r : job_kept r (cancel_job run now r).
Proof.
  unfold cancel_job. destruct (_ && _) eqn:Hc; [|done].
  apply andb_true_iff in Hc as [_ Ht%negb_true_iff].
  split; try done; cbn; try lia.
  - by apply same_job_spec.
  - rewrite (floor_released (released _ _ _ _ _ _ _ _)) by done. cbn.
    destruct (floor_cases r); open_hyps; lia.
  - congruence.
Qed.

Lemma job_change_kept J J' :
  job_change J J' -> tokens_fit J -> jobs_kept J J' /\ tokens_fit J'.
Proof.
  intros [k r Hn Hs Hf _|k r e u Hl Hs|k r r' Hl Hs Hr|run now] Hfit.
  - split; [apply jobs_kept_insert; congruence|].
    apply map_Forall_insert_2; [unfold max_i64; lia|done].
  - split; [|apply map_Forall_insert_2; [exact (Hfit _ _ Hl)|done]].
    apply jobs_kept_insert. intros r0 Hl0. rewrite Hl in Hl0. injection Hl0 as <-.
    split; try done; try (cbn; lia).
    + apply same_job_spec. done.
    + cbn. rewrite Hs. done.
  - split.
    + apply jobs_kept_insert. intros r0 Hl0. rewrite Hl in Hl0. injection Hl0 as <-.
      by apply released_kept.
    + apply map_Forall_insert_2; [|done]. destruct Hr as (_ & _ & -> & _). exact (Hfit _ _ Hl).
  - split.
    + intros id r Hl. exists (cancel_job run now r). rewrite lookup_fmap, Hl.
      split; [done|apply cancel_kept].
    + intros id r'. rewrite lookup_fmap. intros (r & Hl & ->)%fmap_Some.
      specialize (Hfit _ _ Hl). unfold cancel_job. by destruct (_ && _).
Qed.

Lemma job_changes_kept J J' :
  rtc job_change J J' -> tokens_fit J -> jobs_kept J J' /\ tokens_fit J'.
Proof.
  induction 1 as [J|J1 J2 J3 H12 _ IH]; [done|]. intros Hfit.
  destruct (job_change_kept _ _ H12 Hfit) as [Hk Hfit2]. destruct (IH Hfit2).
  split; [by etrans|done].
Qed.

Lemma claim_kept now r o e u :
  claimable now r = true -> 0 <= jr_fence r <= max_i64 ->
  job_kept r (claimed_row o e u r) /\ jr_fence (claimed_row o e u r) = jr_fence r + 1.
Proof.
  intros Hc Hf. assert (Hu : u64 (jr_fence r + 1) = jr_fence r + 1)
    by (apply u64_id; unfold max_i64 in Hf; lia).
  cbn. split; [|done]. split; cbn; try done; try lia.
  - by apply same_job_spec.
  - rewrite (floor_claimed (claimed_row _ _ _ _)) by done. cbn.
    destruct (floor_cases r); open_hyps; lia.
  - unfold claimable in Hc. destruct (jr_state r); done.
Qed.

Section fencing.
Context `{Platform}.
Variable interval_us : Z -> Z.
Local Abbreviation perform := (perform interval_us).
Local Abbreviation history := (history interval_us).
Local Abbreviation ledger_after := (ledger_after interval_us).

Lemma perform_kept c s a s' :
  perform c s = (a, s') -> tokens_fit (rt_jobs s) ->
  jobs_kept (rt_jobs s) (rt_jobs s') /\ tokens_fit (rt_jobs s').
Proof.
  intros Hp Hfit.
  destruct (perform_changes _ _ _ _ _ Hp) as
    [Hc|(o & now & ttl & lk & id & r & o' & -> & _ & Hl & Hcl & Hle & -> & _)];
    [by apply job_changes_kept|].
  pose proof (Hfit _ _ Hl) as Hf. cbn in Hf.
  destruct (claim_kept _ r o' (time_column (time_Add (UTC now) ttl)) (time_column (UTC now)) Hcl Hf)
    as [Hk Hfe].
  split.
  - apply jobs_kept_insert. intros r0 Hl0. rewrite Hl in Hl0. by injection Hl0 as <-.
  - apply map_Forall_insert_2; [|done]. rewrite Hfe in *. cbn in Hfe. lia.
Qed.

Lemma ledger_kept calls s :
  tokens_fit (rt_jobs s) ->
  jobs_kept (rt_jobs s) (rt_jobs (ledger_after calls s)) /\
  tokens_fit (rt_jobs (ledger_after calls s)).
Proof.
  revert s. induction calls as [|c rest IH]; intros s Hfit; [done|]. cbn.
  destruct (perform c s) as [a s1] eqn:Hp.
  destruct (perform_kept _ _ _ _ Hp Hfit) as [Hk Hfit1]. cbn.
  destruct (IH s1 Hfit1). split; [by etrans|done].
Qed.

Lemma kept_between calls s i j :
  (i <= j)%nat -> tokens_fit (rt_jobs s) ->
  jobs_kept (rt_jobs (ledger_after (take i calls) s)) (rt_jobs (ledger_after (take j calls) s)).
Proof.
  intros Hij Hfit. rewrite (ledger_between _ calls s i j Hij).
  apply ledger_kept. by apply ledger_kept.
Qed.

(** The table before and after a settled claim. *)
Lemma settled_at calls s i c id owner fence :
  tokens_fit (rt_jobs s) ->
  history calls s !! i = Some (c, Done (Ok tt)) -> settles c = Some (id, owner, fence) ->
  exists k o r r1, uuid_column id = Some k /\ uuid_column owner = Some o /\
    rt_jobs (ledger_after (take i calls) s) !! k = Some r /\
    jr_state r = JobClaimed /\ jr_owner r = Some o /\ jr_fence r = fence /\
    rt_jobs (ledger_after (take (S i) calls) s) !! k = Some r1 /\ fence + 1 <= floor r1.
Proof.
  intros Hfit Hl Hs. apply history_lookup in Hl as [_ Hp].
  destruct (settles_Ok _ _ _ _ _ _ _ Hs Hp) as
    (k & o & r & r' & Hk & Ho & Hr & Hst & How & Hf & Hre & _ & Hc).
  pose proof (proj2 (ledger_kept (take i calls) s Hfit)) as Hfit'.
  destruct (job_changes_kept _ _ Hc) as [Hkept _].
  { apply map_Forall_insert_2; [|done]. destruct Hre as (_ & _ & -> & _). exact (Hfit' _ _ Hr). }
  destruct (Hkept k r') as (r1 & Hl1 & Hk1); [apply lookup_insert_eq|].
  exists k, o, r, r1. split_and!; try done. destruct Hre as (_ & Hne & Hfe & _).
  pose proof (jk_floor _ _ Hk1) as Hfl. rewrite floor_released in Hfl by done. lia.
Qed.

(** The table before and after a claim. *)
Lemma claimed_at calls s i owner now ttl locked job :
  tokens_fit (rt_jobs s) ->
  history calls s !! i = Some (CallClaim owner now ttl locked, ClaimAnswer (Ok (Some job))) ->
  exists r r1 o, uuid_column owner = Some o /\
    rt_jobs (ledger_after (take i calls) s) !! Job_ID job = Some r /\
    jr_fence r < Job_FencingToken job /\
    rt_jobs (ledger_after (take (S i) calls) s) !! Job_ID job = Some r1 /\
    jr_state r1 = JobClaimed /\ jr_owner r1 = Some o /\ jr_fence r1 = Job_FencingToken job.
Proof.
  intros Hfit Hl. apply history_lookup in Hl as [_ Hp].
  pose proof (proj2 (ledger_kept (take i calls) s Hfit)) as Hfit'.
  apply answered_Ok in Hp as [(a & Hr & [= <-])|(e & [=] & _)].
  apply Claim_Ok in Hr as [[[=] _]|(id & r & o & Hl & Hcl & _ & Ho & _ & Hs & [= ->])].
  destruct (claim_kept _ r o (time_column (time_Add (UTC now) ttl)) (time_column (UTC now)) Hcl
    (Hfit' _ _ Hl)) as [_ Hf]. cbn in Hf |- *.
  eexists r, (claimed_row o _ _ r), o. rewrite Hs. cbn. rewrite lookup_insert_eq.
  split; [done|]. split; [done|]. split; [lia|]. done.
Qed.

(** A change that is no claim creates no claim. *)
Lemma job_changes_claimed J J' id r :
  rtc job_change J J' -> J' !! id = Some r -> jr_state r = JobClaimed ->
  exists r0, J !! id = Some r0 /\ jr_state r0 = JobClaimed /\ jr_owner r0 = jr_owner r /\
    jr_fence r0 = jr_fence r.
Proof.
  intros Hc. revert r. induction Hc as [J|J1 J2 J3 H12 _ IH]; intros r Hl Hs; [by exists r|].
  destruct (IH _ Hl Hs) as (r2 & Hl2 & Hs2 & Ho2 & Hf2). rewrite <- Ho2, <- Hf2. clear IH Hl.
  destruct H12 as [k r0 Hn Hr0 _ _|k r0 e u Hk _|k r0 r0' Hk _ Hre|run now].
  - apply lookup_insert_Some in Hl2 as [[-> ->]|[_ Hl2]]; [congruence|eauto].
  - apply lookup_insert_Some in Hl2 as [[-> <-]|[_ Hl2]]; [by exists r0|eauto].
  - destruct Hre as (_ & Hne & _). apply lookup_insert_Some in Hl2 as [[-> ->]|[_ Hl2]]; [done|eauto].
  - rewrite lookup_fmap in Hl2. apply fmap_Some in Hl2 as (r0 & Hl0 & ->). exists r0.
    unfold cancel_job in *. by destruct (_ && _).
Qed.

(** Every claim in the table was given by a call. *)
Lemma claim_origin calls s n id r :
  rt_jobs s = ∅ -> rt_jobs (ledger_after (take n calls) s) !! id = Some r ->
  jr_state r = JobClaimed ->
  exists j owner now ttl locked job, (j < n)%nat /\
    history calls s !! j = Some (CallClaim owner now ttl locked, ClaimAnswer (Ok (Some job))) /\
    Job_ID job = id /\ Job_FencingToken job = jr_fence r /\ uuid_column owner = jr_owner r.
Proof.
  intros Hempty. revert r. induction n as [|n IH]; intros r Hl Hs.
  { rewrite take_0 in Hl. cbn in Hl. by rewrite Hempty, lookup_empty in Hl. }
  destruct (history calls s !! n) as [[c a]|] eqn:Hn.
  - pose proof Hn as [_ Hp]%history_lookup.
    destruct (perform_changes _ _ _ _ _ Hp) as
      [Hc|(owner & now & ttl & lk & id' & r' & o' & -> & Ho & Hl' & _ & _ & HJ & ->)].
    + destruct (job_changes_claimed _ _ _ _ Hc Hl Hs) as (r0 & Hl0 & Hs0 & Ho0 & Hf0).
      destruct (IH _ Hl0 Hs0) as (j & owner & now & ttl & lk & job & ? & ? & ? & ? & ?).
      exists j, owner, now, ttl, lk, job. split_and!; try done; try lia; congruence.
    + rewrite HJ in Hl. apply lookup_insert_Some in Hl as [[-> <-]|[_ Hl]].
      * exists n, owner, now, ttl, lk. eexists. split_and!; (exact Hn || done || lia).
      * destruct (IH _ Hl Hs) as (j & ow & nw & tt' & lk' & job & ? & ? & ? & ? & ?).
        exists j, ow, nw, tt', lk', job. split_and!; (done || lia).
  - apply lookup_ge_None in Hn. rewrite history_length in Hn.
    rewrite !take_ge in * by lia.
    destruct (IH _ Hl Hs) as (j & ow & nw & tt' & lk' & job & ? & ? & ? & ? & ?).
    exists j, ow, nw, tt', lk', job. split_and!; (done || lia).
Qed.

Lemma empty_tokens_fit s : rt_jobs s = ∅ -> tokens_fit (rt_jobs s).
Proof. intros ->. apply map_Forall_empty. Qed.

(** Of two calls that settle one claim, at most one succeeds. *)
Lemma settled_twice calls s i j c c' id id' owner owner' fence k :
  tokens_fit (rt_jobs s) -> (i < j)%nat ->
  history calls s !! i = Some (c, Done (Ok tt)) -> settles c = Some (id, owner, fence) ->
  history calls s !! j = Some (c', Done (Ok tt)) -> settles c' = Some (id', owner', fence) ->
  uuid_column id = Some k -> uuid_column id' = Some k -> False.
Proof.
  intros Hfit Hij Hi Hs Hj Hs' Hk Hk'.
  destruct (settled_at _ _ _ _ _ _ _ Hfit Hi Hs) as (k1 & o & r & r1 & Hk1 & _ & _ & _ & _ & _ & Hl1 & Hfl).
  destruct (settled_at _ _ _ _ _ _ _ Hfit Hj Hs')
    as (k2 & o' & r' & _ & Hk2 & _ & Hl' & Hst & _ & Hf & _).
  assert (k1 = k) as -> by congruence. assert (k2 = k) as -> by congruence.
  destruct (kept_between calls s (S i) j Hij Hfit _ _ Hl1) as (r2 & Hl2 & Hk12).
  assert (r2 = r') as -> by congruence. apply jk_floor in Hk12.
  rewrite (floor_claimed r') in Hk12 by done. lia.
Qed.

Lemma claim_call calls s i call job :
  history calls s !! i = Some (call, ClaimAnswer (Ok (Some job))) ->
  exists owner now ttl locked, call = CallClaim owner now ttl locked.
Proof.
  intros [_ Hp]%history_lookup. destruct call;
    apply answered_Ok in Hp as [(a & _ & [=])|(e & [=] & _)]; eauto.
Qed.

Lemma claims_increase calls s i j call call' job job' :
  tokens_fit (rt_jobs s) -> (i < j)%nat ->
  history calls s !! i = Some (call, ClaimAnswer (Ok (Some job))) ->
  history calls s !! j = Some (call', ClaimAnswer (Ok (Some job'))) ->
  Job_ID job = Job_ID job' -> Job_FencingToken job < Job_FencingToken job'.
Proof.
  intros Hfit Hij Hi Hj Hid.
  destruct (claim_call _ _ _ _ _ Hi) as (? & ? & ? & ? & ->).
  destruct (claim_call _ _ _ _ _ Hj) as (? & ? & ? & ? & ->).
  destruct (claimed_at _ _ _ _ _ _ _ _ Hfit Hi) as (_ & r1 & _ & _ & _ & _ & Hl1 & _ & _ & Hf1).
  destruct (claimed_at _ _ _ _ _ _ _ _ Hfit Hj) as (r2 & _ & _ & _ & Hl2 & Hf2 & _).
  rewrite Hid in Hl1. destruct (kept_between calls s (S i) j Hij Hfit _ _ Hl1) as (r3 & Hl3 & Hk).
  assert (r3 = r2) as -> by congruence. apply jk_fence in Hk. lia.
Qed.

(** ** Results stay *)

(** Two jobs of a task differ in their stage or attempt. *)
Definition unique_jobs (J : gmap string job_row) : Prop :=
  forall id id' r r', J !! id = Some r -> J !! id' = Some r' -> jr_task r <> None ->
    same_job r r' = true -> id = id'.

Lemma unique_jobs_back J J' :
  (forall id r', J' !! id = Some r' -> exists r, J !! id = Some r /\ same_job r r' = true) ->
  unique_jobs J -> unique_jobs J'.
Proof.
  intros Hb Hu id id' r r' Hl Hl' Ht Hs.
  destruct (Hb _ _ Hl) as (r0 & Hl0 & Hs0), (Hb _ _ Hl') as (r0' & Hl0' & Hs0').
  apply same_job_spec in Hs, Hs0, Hs0'. open_hyps.
  apply (Hu id id' r0 r0' Hl0 Hl0'); [congruence|]. apply same_job_spec. split_and!; congruence.
Qed.

Lemma unique_jobs_insert J k r r' :
  J !! k = Some r -> same_job r r' = true -> unique_jobs J -> unique_jobs (<[k := r']> J).
Proof.
  intros Hl Hs. apply unique_jobs_back. intros id r0 Hl0.
  apply lookup_insert_Some in Hl0 as [[-> <-]|[_ Hl0]]; [by exists r|].
  exists r0. split; [done|]. by apply same_job_spec.
Qed.

Lemma job_change_unique J J' : job_change J J' -> unique_jobs J -> unique_jobs J'.
Proof.
  intros [k r Hn _ _ Hnew|k r e u Hl _|k r r' Hl _ Hr|run now] Hu.
  - intros id id' r1 r2 Hl1 Hl2 Ht Hs.
    apply lookup_insert_Some in Hl1 as [[<- <-]|[Hne1 Hl1]],
      Hl2 as [[<- <-]|[Hne2 Hl2]]; try done.
    + rewrite (Hnew _ _ Hl2 Ht) in Hs. done.
    + pose proof (proj1 (same_job_spec _ _) Hs) as (? & Hts & ? & ?).
      assert (Hs' : same_job r r1 = true) by (apply same_job_spec; split_and!; congruence).
      rewrite (Hnew _ _ Hl1) in Hs'; congruence.
    + by apply (Hu id id' r1 r2).
  - eapply unique_jobs_insert; [done| |done]. by apply same_job_spec.
  - eapply unique_jobs_insert; [done| |done]. apply Hr.
  - revert Hu. apply unique_jobs_back. intros id r'. rewrite lookup_fmap.
    intros (r & Hl & ->)%fmap_Some. exists r. split; [done|]. apply cancel_kept.
Qed.

Lemma perform_unique c s a s' :
  perform c s = (a, s') -> unique_jobs (rt_jobs s) -> unique_jobs (rt_jobs s').
Proof.
  intros Hp Hu.
  destruct (perform_changes _ _ _ _ _ Hp) as
    [Hc|(o & now & ttl & lk & id & r & o' & _ & _ & Hl & _ & _ & -> & _)].
  - induction Hc as [|J1 J2 J3 H12 _ IH]; [done|]. apply IH. by eapply job_change_unique.
  - eapply unique_jobs_insert; [done| |done]. by apply same_job_spec.
Qed.

Lemma ledger_unique calls s :
  unique_jobs (rt_jobs s) -> unique_jobs (rt_jobs (ledger_after calls s)).
Proof.
  revert s. induction calls as [|c rest IH]; intros s Hu; [done|]. cbn. apply IH.
  destruct (perform c s) as [a s1] eqn:Hp. by eapply perform_unique.
Qed.

(** C2: In every history of calls on the ledger, whoever makes them, a claim is settled (completed,
    retried, rescheduled or failed) at most once, and only with the owner and the token that the
    last claim of that job was answered with; each claim of a job gets a larger token. *)
Theorem claim_settled_once calls s :
  rt_jobs s = ∅ ->
  (forall i c id owner fence,
    history calls s !! i = Some (c, Done (Ok tt)) -> settles c = Some (id, owner, fence) ->
    exists k o, uuid_column id = Some k /\ uuid_column owner = Some o /\
    (exists j claimant now ttl locked job, (j < i)%nat /\
      history calls s !! j = Some (CallClaim claimant now ttl locked, ClaimAnswer (Ok (Some job))) /\
      Job_ID job = k /\ Job_FencingToken job = fence /\ uuid_column claimant = Some o /\
      (forall j' call job', (j < j' < i)%nat ->
        history calls s !! j' = Some (call, ClaimAnswer (Ok (Some job'))) -> Job_ID job' <> k)) /\
    (forall i' c' id' owner', history calls s !! i' = Some (c', Done (Ok tt)) ->
      settles c' = Some (id', owner', fence) -> uuid_column id' = Some k -> i' = i)) /\
  (forall i j call call' job job', (i < j)%nat ->
    history calls s !! i = Some (call, ClaimAnswer (Ok (Some job))) ->
    history calls s !! j = Some (call', ClaimAnswer (Ok (Some job'))) ->
    Job_ID job = Job_ID job' -> Job_FencingToken job < Job_FencingToken job').
Proof.
  intros Hempty. pose proof (empty_tokens_fit _ Hempty) as Hfit.
  split; [|by intros; eapply claims_increase].
  intros i c id owner fence Hi Hs.
  destruct (settled_at _ _ _ _ _ _ _ Hfit Hi Hs) as (k & o & r & _ & Hk & Ho & Hl & Hst & How & Hf & _).
  exists k, o. split; [done|]. split; [done|]. split.
  - destruct (claim_origin _ _ _ _ _ Hempty Hl Hst) as (j & cl & now & ttl & lk & job & Hj & Hh & Hid & Hfe & Hcl).
    exists j, cl, now, ttl, lk, job. split_and!; try congruence.
    intros j' call job' [Hj1 Hj2] Hh' Hid'.
    assert (Hlt : Job_FencingToken job < Job_FencingToken job')
      by (eapply (claims_increase calls s j j'); eauto; congruence).
    destruct (claim_call _ _ _ _ _ Hh') as (cl' & now' & ttl' & lk' & ->).
    destruct (claimed_at _ _ _ _ _ _ _ _ Hfit Hh') as (_ & r1 & _ & _ & _ & _ & Hl1 & _ & _ & Hf1).
    rewrite Hid' in Hl1. destruct (kept_between calls s (S j') i Hj2 Hfit _ _ Hl1) as (r2 & Hl2 & Hk2).
    assert (r2 = r) as -> by congruence. apply jk_fence in Hk2. lia.
  - intros i' c' id' owner' Hi' Hs' Hk'.
    destruct (lt_eq_lt_dec i i') as [[Hlt| ->]|Hlt]; [exfalso|done|exfalso].
    + by eapply (settled_twice calls s i i').
    + by eapply (settled_twice calls s i' i).
Qed.

End fencing.

Section results.
Context `{Hlaws : PlatformLaws}.
Variable interval_us : Z -> Z.

Lemma jobs_where_In s p id r :
  (id, r) ∈ jobs_where s p <-> rt_jobs s !! id = Some r /\ p r = true.
Proof.
  unfold jobs_where. rewrite list_elem_of_In, filter_In, <- list_elem_of_In, elem_of_map_to_list.
  done.
Qed.

Lemma arbitrary_head {A} (l : list A) :
  match arbitrary_order l with [] => l = [] | a :: _ => a ∈ l end.
Proof.
  pose proof (arbitrary_order_perm A l) as Hp. destruct (arbitrary_order l) as [|a rest].
  - by apply Permutation_nil_l in Hp.
  - rewrite <- Hp. by left.
Qed.

(** [CompletedResult] reads the completed job with the given identity. *)
Definition completed_as (s : rt_db) (run task : string) (attempt : Z) (stage : string)
    (ref : ArtifactRef) : Prop :=
  exists id r, rt_jobs s !! id = Some r /\ jr_state r = JobCompleted /\
    jr_result r = Some ref /\ ArtifactRef_Validate ref = Ok tt /\
    uuid_param run = Ok (jr_run r) /\ nullable uuid_param (Some task) = Ok (jr_task r) /\
    int_param attempt = Ok (jr_attempt r) /\ text_column stage = Ok (jr_stage r).

Lemma CompletedResult_Ok s run task attempt stage ref :
  CompletedResult run (Some task) attempt stage s = Ok ref ->
  completed_as s run task attempt stage ref.
Proof.
  unfold CompletedResult. intros Hr. go_run Hr.
  match goal with Hm : arbitrary_order ?l = (?id, ?j) :: _ |- _ =>
    pose proof (arbitrary_head l) as Hh; rewrite Hm in Hh; exists id, j end.
  apply jobs_where_In in Hh as [Hl [Hs Hst%bool_decide_eq_true]%andb_true_iff].
  unfold same_identity in Hs. rewrite !andb_true_iff, !bool_decide_eq_true, Z.eqb_eq in Hs.
  destruct Hs as [[[-> ->] ->] ->]. done.
Qed.

Lemma CompletedResult_complete s run task attempt stage ref :
  unique_jobs (rt_jobs s) -> completed_as s run task attempt stage ref ->
  CompletedResult run (Some task) attempt stage s = Ok ref.
Proof.
  intros Hu (id & r & Hl & Hst & Hres & Hv & Hrun & Htask & Hatt & Hstage).
  assert (Ht : jr_task r <> None).
  { cbn in Htask. destruct (uuid_param task); [injection Htask as <-|]; done. }
  unfold CompletedResult. rewrite Hrun, Htask, Hatt, Hstage. cbn.
  match goal with |- context [arbitrary_order ?l] =>
    pose proof (arbitrary_head l) as Hh; destruct (arbitrary_order l) as [|[id' r'] rest] end.
  - exfalso. assert (Hin : (id, r) ∈ jobs_where s (fun r0 =>
      same_identity (jr_run r) (jr_task r) (jr_attempt r) (jr_stage r) r0 &&
      (jr_state r0 == JobCompleted))).
    { apply jobs_where_In. rewrite Hst. split; [done|]. apply andb_true_iff.
      split; [by apply same_job_spec|done]. }
    rewrite Hh in Hin. by apply elem_of_nil in Hin.
  - apply jobs_where_In in Hh as [Hl' [Hs _]%andb_true_iff].
    assert (id = id') as <- by by apply (Hu id id' r r').
    assert (r' = r) as -> by congruence. rewrite Hres. cbn. by rewrite Hv.
Qed.

(** In every history of calls on the ledger a completed, failed or cancelled job never changes
    again, and once the result of a stage of a task can be read it is read the same ever after. *)
Theorem settled_jobs_final calls s i j :
  rt_jobs s = ∅ -> (i <= j)%nat ->
  let before := ledger_after interval_us (take i calls) s in
  let after := ledger_after interval_us (take j calls) s in
  (forall id r, rt_jobs before !! id = Some r -> JobState_Terminal (jr_state r) = true ->
    rt_jobs after !! id = Some r) /\
  (forall run task attempt stage ref,
    CompletedResult run (Some task) attempt stage before = Ok ref ->
    CompletedResult run (Some task) attempt stage after = Ok ref).
Proof.
  intros Hempty Hij before after. pose proof (empty_tokens_fit _ Hempty) as Hfit.
  assert (Hfinal : forall id r, rt_jobs before !! id = Some r ->
    JobState_Terminal (jr_state r) = true -> rt_jobs after !! id = Some r).
  { intros id r Hl Ht. destruct (kept_between interval_us calls s i j Hij Hfit _ _ Hl) as (r' & Hl' & Hk).
    by rewrite <- (jk_terminal _ _ Hk Ht). }
  split; [done|]. intros run task attempt stage ref (id & r & Hl & Hst & Hrest)%CompletedResult_Ok.
  apply CompletedResult_complete.
  - apply ledger_unique. rewrite Hempty. intros ? ? ? ? Hn. by rewrite lookup_empty in Hn.
  - exists id, r. split; [|done]. apply Hfinal; [done|]. by rewrite Hst.
Qed.

End results.

(** ** Witnesses *)

(** The claim that was taken over is settled by its new owner alone. *)
Lemma claim_settled_once_witness :
  rt_jobs sample_rt = ∅ /\
  history sample_interval takeover_calls sample_rt !! 4%nat =
    Some (CallComplete "job-1" "owner-2" 2 (art "done") (at_time 62), Done (Ok tt)) /\
  exists k, uuid_column "job-1" = Some k /\
    forall i c id owner, history sample_interval takeover_calls sample_rt !! i = Some (c, Done (Ok tt)) ->
      settles c = Some (id, owner, 2) -> uuid_column id = Some k -> i = 4%nat.
Proof.
  assert (Hempty : rt_jobs sample_rt = ∅) by reflexivity.
  assert (H4 : history sample_interval takeover_calls sample_rt !! 4%nat =
    Some (CallComplete "job-1" "owner-2" 2 (art "done") (at_time 62), Done (Ok tt)))
    by (vm_compute; reflexivity).
  split; [exact Hempty|]. split; [exact H4|].
  destruct (claim_settled_once sample_interval takeover_calls sample_rt Hempty) as [Hs _].
  destruct (Hs _ _ _ _ _ H4 eq_refl) as (k & o & Hk & _ & _ & Hu).
  exists k. split; [exact Hk|exact Hu].
Defined.

Lemma settled_jobs_final_witness :
  CompletedResult "run-1" (Some "task-1") 1 "start"
    (ledger_after sample_interval (take 5 takeover_calls) sample_rt) = Ok (art "done") /\
  CompletedResult "run-1" (Some "task-1") 1 "start"
    (ledger_after sample_interval (take 6 takeover_calls) sample_rt) = Ok (art "done").
Proof.
  assert (H5 : CompletedResult "run-1" (Some "task-1") 1 "start"
    (ledger_after sample_interval (take 5 takeover_calls) sample_rt) = Ok (art "done"))
    by (vm_compute; reflexivity).
  split; [exact H5|].
  destruct (settled_jobs_final sample_interval takeover_calls sample_rt 5 6 eq_refl ltac:(lia))
    as [_ Hr].
  exact (Hr _ _ _ _ _ H5).
Defined.
