(* ===== verification/RtIdempotency.v ===== *)
(** * Idempotent requests

    What every history of ledger calls promises about one idempotency key: the
    reservation stays for one request, each owner gets a larger token, one
    response is recorded and every later attempt is answered with it. *)

From S2P Require Import Prelude GoStd GoJson WfTypes WfDb WfStore WfStoreLemmas.
From S2P Require Import Samples RtLedger RtHistory.

Record request_kept (r r' : idempotencyReservation) : Prop := {
  qk_same : same_request r r';
  qk_fence : ir_fence r <= ir_fence r';
  qk_final : ir_outcome r <> None -> r' = r;
}.

#[global] Instance request_kept_preorder : PreOrder request_kept.
Proof.
  split.
  - intros r. by split.
  - intros r1 r2 r3 [(? & ? & ?) Hf Ho] [(? & ? & ?) Hf' Ho']. split; [|lia|].
    + unfold same_request. split_and!; congruence.
    + intros Hn. specialize (Ho Hn). subst r2. by apply Ho'.
Qed.

Definition requests_kept (R R' : gmap string idempotencyReservation) : Prop :=
  forall k r, R !! k = Some r -> exists r', R' !! k = Some r' /\ request_kept r r'.

#[global] Instance requests_kept_preorder : PreOrder requests_kept.
Proof.
  split.
  - intros R k r Hl. by exists r.
  - intros R1 R2 R3 H12 H23 k r Hl. destruct (H12 _ _ Hl) as (r2 & Hl2 & Hk).
    destruct (H23 _ _ Hl2) as (r3 & Hl3 & Hk3). exists r3. split; [done|]. by etrans.
Qed.

Lemma requests_kept_insert R k r' :
  (forall r, R !! k = Some r -> request_kept r r') -> requests_kept R (<[k := r']> R).
Proof.
  intros Hk id r Hl. destruct (decide (id = k)) as [->|Hne].
  - exists r'. rewrite lookup_insert_eq. auto.
  - exists r. by rewrite lookup_insert_ne.
Qed.

Definition generations_fit : gmap string idempotencyReservation -> Prop :=
  map_Forall (fun _ r => 0 < ir_fence r <= max_i64).

Section idempotency.
Context `{Platform}.
Variable interval_us : Z -> Z.
Local Abbreviation perform := (perform interval_us).
Local Abbreviation history := (history interval_us).
Local Abbreviation ledger_after := (ledger_after interval_us).

(** What one call does to the reservations. *)
Inductive request_step (R : gmap string idempotencyReservation)
    : rt_call -> rt_answer -> gmap string idempotencyReservation -> Prop :=
| step_other c a : (forall answer, a <> BeginAnswer (Ok answer)) ->
    (forall key f st resp, c = CallCompleteRequest key f st resp -> a <> Done (Ok tt)) ->
    request_step R c a R
| step_replay request now k r status response :
    uuid_column (Key request) = Some k -> R !! k = Some r -> asks r request ->
    ir_outcome r = Some (status, response) ->
    request_step R (CallBegin request now)
      (BeginAnswer (Ok (mkIdemResult status (Some response) true (ir_fence r)))) R
| step_fresh request now k r token :
    uuid_column (Key request) = Some k -> ir_fence r = token -> ir_outcome r = None ->
    asks r request -> 0 < token <= max_i64 ->
    (R !! k = None \/ exists r0, R !! k = Some r0 /\ ir_outcome r0 = None /\ same_request r0 r /\
       token = u64 (ir_fence r0 + 1)) ->
    request_step R (CallBegin request now)
      (BeginAnswer (Ok (mkIdemResult 0 None false token))) (<[k := r]> R)
| step_deadline c k r v :
    (forall key f st resp, c <> CallCompleteRequest key f st resp) ->
    R !! k = Some r -> ir_outcome r = None ->
    request_step R c (Done (Ok tt)) (<[k := with_until v r]> R)
| step_complete key fence status body v k r :
    uuid_column key = Some k -> R !! k = Some r -> ir_fence r = fence -> ir_outcome r = None ->
    jsonb_column body = Ok v ->
    request_step R (CallCompleteRequest key fence status (Some body)) (Done (Ok tt))
      (<[k := mkReservation (ir_method r) (ir_target r) (ir_principal r) (ir_digest r)
         (Some (status, v)) (ir_until r) (ir_fence r)]> R).

Lemma update_claimed_requests id owner fence f s u s' :
  update_claimed id owner fence f s = Ok (u, s') -> rt_requests s' = rt_requests s.
Proof. by intros (? & ? & ? & ? & _ & _ & _ & _ & _ & _ & _ & ->)%update_claimed_Ok. Qed.

Lemma begins_step request now k answer s s' :
  uuid_column (Key request) = Some k -> begins request k answer s s' ->
  request_step (rt_requests s) (CallBegin request now) (BeginAnswer (Ok answer)) (rt_requests s').
Proof.
  intros Hk [(Hn & -> & r & Hf & Ho & Ha & ->)|(r & Hl & Ha & [(st & v & Ho & -> & ->)|
    (Ho & Hb & -> & r' & Hf & Ho' & Hs & ->)])].
  - apply (step_fresh _ request now k r 1); try done. by left.
  - by eapply step_replay.
  - eapply step_fresh; eauto 10. destruct Ha as (? & ? & ?), Hs as (? & ? & ?).
    unfold asks. split_and!; congruence.
Qed.

Lemma perform_request_step c s a s' :
  perform c s = (a, s') -> request_step (rt_requests s) c a (rt_requests s').
Proof.
  intros Hp. destruct (settles c) as [[[id o] f]|] eqn:Hs.
  { assert (Heq : rt_requests s' = rt_requests s /\ exists r, a = Done r).
    { destruct c; try discriminate Hs;
        (pose proof Hp as Ha; apply answered_Ok in Ha as [([] & _ & ->)|(e & -> & ->)]; [|eauto]);
        destruct (settles_Ok _ _ _ _ _ _ _ Hs Hp) as (? & ? & ? & ? & _ & _ & _ & _ & _ & _ & _ & Hq & _);
        eauto. }
    destruct Heq as [-> [r ->]]. apply step_other; [done|]. by intros ? ? ? ? ->. }
  destruct c; try discriminate Hs; clear Hs;
    apply answered_Ok in Hp as [(x & Hr & ->)|(e & -> & ->)]; try (by apply step_other).
  - apply EnqueueTx_changes in Hr as [-> _]. by apply step_other.
  - apply Claim_Ok in Hr as [[_ ->]|(? & ? & ? & _ & _ & _ & _ & _ & -> & _)]; by apply step_other.
  - apply update_claimed_requests in Hr as ->. by apply step_other.
  - unfold CancelRunJobs in Hr. tx_run Hr. injection Hr as _ <-. by apply step_other.
  - apply BeginIdempotency_Ok in Hr as (k & Hk & Hb). by eapply begins_step.
  - apply RenewIdempotency_Ok in Hr as (k & r & v & _ & Hl & _ & Ho & ->). destruct x.
    by apply step_deadline.
  - apply CompleteIdempotency_Ok in Hr as (k & r & v & Hk & Hl & Hf & Ho & _ & (w & -> & Hj) & ->).
    destruct x. by eapply step_complete.
  - apply AbandonIdempotency_Ok in Hr as (k & r & v & _ & Hl & _ & Ho & ->). destruct x.
    by apply step_deadline.
Qed.

Lemma request_step_kept R c a R' :
  request_step R c a R' -> generations_fit R -> requests_kept R R' /\ generations_fit R'.
Proof.
  intros [c' a' _ _|? ? ? ? ? ? _ _ _ _|req now k r tok Hk Hf Ho Ha Hb Hc|c' k r v _ Hl Ho|
    key f st body v k r Hk Hl Hf Ho Hj] Hfit; try done.
  - split; [|by apply map_Forall_insert_2; [rewrite Hf|]]. apply requests_kept_insert. intros r0 Hl0.
    destruct Hc as [Hn|(r0' & Hl0' & Hn & Hs & Ht)]; [congruence|].
    assert (r0' = r0) as -> by congruence. pose proof (Hfit _ _ Hl0) as Hb0. cbn in Hb0.
    rewrite u64_id in Ht by (unfold max_i64 in *; lia). by split; [| lia|].
  - split; [|apply map_Forall_insert_2; [exact (Hfit _ _ Hl)|done]].
    apply requests_kept_insert. intros r0 Hl0. rewrite Hl in Hl0. injection Hl0 as <-.
    split; [done|cbn; lia|done].
  - split; [|apply map_Forall_insert_2; [exact (Hfit _ _ Hl)|done]].
    apply requests_kept_insert. intros r0 Hl0. rewrite Hl in Hl0. injection Hl0 as <-.
    split; [done|cbn; lia|done].
Qed.

Lemma ledger_requests_kept calls s :
  generations_fit (rt_requests s) ->
  requests_kept (rt_requests s) (rt_requests (ledger_after calls s)) /\
  generations_fit (rt_requests (ledger_after calls s)).
Proof.
  revert s. induction calls as [|c rest IH]; intros s Hfit; [done|]. cbn.
  destruct (perform c s) as [a s1] eqn:Hp.
  destruct (request_step_kept _ _ _ _ (perform_request_step _ _ _ _ Hp) Hfit) as [Hk Hfit1].
  cbn. destruct (IH s1 Hfit1). split; [by etrans|done].
Qed.

Lemma requests_between calls s i j :
  (i <= j)%nat -> generations_fit (rt_requests s) ->
  requests_kept (rt_requests (ledger_after (take i calls) s))
    (rt_requests (ledger_after (take j calls) s)).
Proof.
  intros Hij Hfit. rewrite (ledger_between _ calls s i j Hij).
  apply ledger_requests_kept. by apply ledger_requests_kept.
Qed.

Lemma history_step calls s i c a :
  history calls s !! i = Some (c, a) ->
  request_step (rt_requests (ledger_after (take i calls) s)) c a
    (rt_requests (ledger_after (take (S i) calls) s)).
Proof. intros [_ Hp]%history_lookup. by apply perform_request_step. Qed.

Lemma empty_generations_fit s : rt_requests s = ∅ -> generations_fit (rt_requests s).
Proof. intros ->. apply map_Forall_empty. Qed.

(** Answers of [BeginIdempotency] that hand out the key. *)
Definition handed_out (calls : list rt_call) (s : rt_db) (i : nat) (k : string) (token : Z) : Prop :=
  exists request now, history calls s !! i =
      Some (CallBegin request now, BeginAnswer (Ok (mkIdemResult 0 None false token))) /\
    uuid_column (Key request) = Some k.

Lemma handed_out_at calls s i k token :
  generations_fit (rt_requests s) -> handed_out calls s i k token ->
  exists r1, rt_requests (ledger_after (take (S i) calls) s) !! k = Some r1 /\
    ir_fence r1 = token /\
    forall r, rt_requests (ledger_after (take i calls) s) !! k = Some r -> ir_fence r < token.
Proof.
  intros Hfit (request & now & Hi & Hk). pose proof (history_step _ _ _ _ _ Hi) as Hst.
  pose proof (proj2 (ledger_requests_kept (take i calls) s Hfit)) as Hfit'.
  inversion Hst as [? ? Hno|? ? k' ? ? ? Hk' Hl|? ? k' r tok Hk' Hf Ho Ha Hb Hc| |]; subst;
    [by edestruct Hno|].
  assert (k' = k) as -> by congruence. exists r. rewrite lookup_insert_eq. split; [done|]. split; [done|].
  intros r0 Hl0. destruct Hc as [Hn|(r0' & Hl0' & _ & _ & Ht)]; [congruence|].
  assert (r0' = r0) as -> by congruence. pose proof (Hfit' _ _ Hl0) as Hb0. cbn in Hb0.
  rewrite u64_id in Ht by (unfold max_i64 in *; lia). lia.
Qed.

Lemma handed_out_increase calls s i j k token token' :
  generations_fit (rt_requests s) -> (i < j)%nat -> handed_out calls s i k token ->
  handed_out calls s j k token' -> token < token'.
Proof.
  intros Hfit Hij Hi Hj.
  destruct (handed_out_at _ _ _ _ _ Hfit Hi) as (r1 & Hl1 & <- & _).
  destruct (handed_out_at _ _ _ _ _ Hfit Hj) as (_ & _ & _ & Hbefore).
  destruct (requests_between calls s (S i) j Hij Hfit _ _ Hl1) as (r2 & Hl2 & Hk).
  apply qk_fence in Hk. specialize (Hbefore _ Hl2). lia.
Qed.

(** Every open reservation was handed out with its token. *)
Lemma reservation_origin calls s n k r :
  rt_requests s = ∅ -> rt_requests (ledger_after (take n calls) s) !! k = Some r ->
  ir_outcome r = None ->
  exists j, (j < n)%nat /\ handed_out calls s j k (ir_fence r).
Proof.
  intros Hempty. revert r. induction n as [|n IH]; intros r Hl Ho.
  { rewrite take_0 in Hl. cbn in Hl. by rewrite Hempty, lookup_empty in Hl. }
  assert (Hback : forall r0, rt_requests (ledger_after (take n calls) s) !! k = Some r0 ->
    ir_outcome r0 = None -> ir_fence r0 = ir_fence r ->
    exists j, (j < S n)%nat /\ handed_out calls s j k (ir_fence r)).
  { intros r0 Hl0 Ho0 <-. destruct (IH _ Hl0 Ho0) as (j & Hj & Hh). exists j. split; [lia|done]. }
  destruct (history calls s !! n) as [[c a]|] eqn:Hn.
  - pose proof (history_step _ _ _ _ _ Hn) as Hst.
    remember (rt_requests (ledger_after (take (S n) calls) s)) as R' eqn:HR.
    destruct Hst as [| |request now k' r' token Hk' Hf Ho' _ _ _|? k' r' v _ Hl' Ho'|
      ? ? ? ? ? k' r' Hk' Hl' Hf Ho' _]; try by apply Hback in Hl.
    + apply lookup_insert_Some in Hl as [[-> ->]|[_ Hl]]; [|by apply Hback in Hl].
      exists n. split; [lia|]. exists request, now. by rewrite Hf.
    + apply lookup_insert_Some in Hl as [[-> <-]|[_ Hl]]; [by apply Hback in Hl'|by apply Hback in Hl].
    + apply lookup_insert_Some in Hl as [[-> <-]|[_ Hl]]; [done|by apply Hback in Hl].
  - apply lookup_ge_None in Hn. rewrite history_length in Hn.
    rewrite !take_ge in * by lia. by apply Hback in Hl.
Qed.

Definition same_question (a b : IdempotencyRequest) : Prop :=
  Method a = Method b /\ Target a = Target b /\ RequestDigest a = RequestDigest b.

(** The reservation after an answered request. *)
Lemma answered_at calls s i request now answer k :
  generations_fit (rt_requests s) ->
  history calls s !! i = Some (CallBegin request now, BeginAnswer (Ok answer)) ->
  uuid_column (Key request) = Some k ->
  exists r1, rt_requests (ledger_after (take (S i) calls) s) !! k = Some r1 /\ asks r1 request.
Proof.
  intros Hfit Hi Hk. pose proof (history_step _ _ _ _ _ Hi) as Hst.
  inversion Hst as [? ? Hno|? ? k' r ? ? Hk' Hl Ha|? ? k' r tok Hk' Hf Ho Ha Hb Hc| |]; subst;
    [by edestruct Hno| |]; assert (k' = k) as -> by congruence.
  - by exists r.
  - exists r. by rewrite lookup_insert_eq.
Qed.

Lemma asked_same r r' a b : asks r a -> same_request r r' -> asks r' b -> same_question a b.
Proof. intros (? & ? & ?) (? & ? & ?) (? & ? & ?). unfold same_question. split_and!; congruence. Qed.

(** The reservation before and after a response is recorded. *)
Lemma completed_at calls s i key fence status response :
  history calls s !! i = Some (CallCompleteRequest key fence status response, Done (Ok tt)) ->
  exists k body v r r1, uuid_column key = Some k /\ response = Some body /\
    jsonb_column body = Ok v /\ rt_requests (ledger_after (take i calls) s) !! k = Some r /\
    ir_fence r = fence /\ ir_outcome r = None /\
    rt_requests (ledger_after (take (S i) calls) s) !! k = Some r1 /\ ir_fence r1 = fence /\
    ir_outcome r1 = Some (status, v).
Proof.
  intros Hi. pose proof (history_step _ _ _ _ _ Hi) as Hst.
  inversion Hst as [? ? ? Hno| | |? k' r' v Hno|? ? ? body v k r Hk Hl Hf Ho Hj]; subst;
    [by edestruct Hno|by edestruct Hno|].
  eexists k, body, v, r, (mkReservation _ _ _ _ _ _ _). rewrite lookup_insert_eq.
  repeat split; done.
Qed.

Lemma completed_final calls s i j k r r1 :
  generations_fit (rt_requests s) -> (i < j)%nat ->
  rt_requests (ledger_after (take (S i) calls) s) !! k = Some r1 -> ir_outcome r1 <> None ->
  rt_requests (ledger_after (take j calls) s) !! k = Some r -> ir_outcome r = None -> False.
Proof.
  intros Hfit Hij Hl1 Ho1 Hl Ho.
  destruct (requests_between calls s (S i) j Hij Hfit _ _ Hl1) as (r2 & Hl2 & Hk).
  apply qk_final in Hk; [|done]. congruence.
Qed.

Lemma same_questions calls s i j k request request' now now' answer answer' :
  generations_fit (rt_requests s) ->
  history calls s !! i = Some (CallBegin request now, BeginAnswer (Ok answer)) ->
  history calls s !! j = Some (CallBegin request' now', BeginAnswer (Ok answer')) ->
  uuid_column (Key request) = Some k -> uuid_column (Key request') = Some k ->
  same_question request request'.
Proof.
  intros Hfit Hi Hj Hk Hk'.
  destruct (answered_at _ _ _ _ _ _ _ Hfit Hi Hk) as (r & Hl & Ha).
  destruct (answered_at _ _ _ _ _ _ _ Hfit Hj Hk') as (r' & Hl' & Ha').
  destruct (Nat.le_ge_cases i j) as [Hij|Hij].
  - destruct (requests_between calls s (S i) (S j) ltac:(lia) Hfit _ _ Hl) as (r2 & Hl2 & [Hs _ _]).
    assert (r2 = r') as -> by congruence. by eapply asked_same.
  - destruct (requests_between calls s (S j) (S i) ltac:(lia) Hfit _ _ Hl') as (r2 & Hl2 & [Hs _ _]).
    assert (r2 = r) as -> by congruence. destruct (asked_same _ _ _ _ Ha' Hs Ha) as (? & ? & ?). done.
Qed.

(** C6: In every history of calls on the ledger, one response at most is recorded for an idempotency
    key, by the caller that was handed the key last; every later attempt that is answered repeats
    that response, and is for the same method, target and body.  Callers are handed increasing
    tokens. *)
Theorem request_answered_once calls s :
  rt_requests s = ∅ ->
  (forall i key fence status response,
    history calls s !! i = Some (CallCompleteRequest key fence status response, Done (Ok tt)) ->
    exists k body v, uuid_column key = Some k /\ response = Some body /\ jsonb_column body = Ok v /\
    (exists j, (j < i)%nat /\ handed_out calls s j k fence /\
      forall j' token, (j < j' < i)%nat -> ~ handed_out calls s j' k token) /\
    (forall i' key' fence' status' response',
      history calls s !! i' = Some (CallCompleteRequest key' fence' status' response', Done (Ok tt)) ->
      uuid_column key' = Some k -> i' = i) /\
    (forall j request now answer, (i < j)%nat ->
      history calls s !! j = Some (CallBegin request now, BeginAnswer (Ok answer)) ->
      uuid_column (Key request) = Some k -> answer = mkIdemResult status (Some v) true fence)) /\
  (forall i j k request request' now now' answer answer',
    history calls s !! i = Some (CallBegin request now, BeginAnswer (Ok answer)) ->
    history calls s !! j = Some (CallBegin request' now', BeginAnswer (Ok answer')) ->
    uuid_column (Key request) = Some k -> uuid_column (Key request') = Some k ->
    same_question request request') /\
  (forall i j k token token', (i < j)%nat -> handed_out calls s i k token ->
    handed_out calls s j k token' -> token < token').
Proof.
  intros Hempty. pose proof (empty_generations_fit _ Hempty) as Hfit.
  split; [|split; [by intros; eapply same_questions|by intros; eapply handed_out_increase]].
  intros i key fence status response Hi.
  destruct (completed_at _ _ _ _ _ _ _ Hi) as (k & body & v & r & r1 & Hk & -> & Hv & Hl & Hf & Ho & Hl1 & Hf1 & Ho1).
  exists k, body, v. do 3 (split; [done|]). split; [|split].
  - destruct (reservation_origin _ _ _ _ _ Hempty Hl Ho) as (j & Hj & Hh). rewrite Hf in Hh.
    exists j. split; [done|]. split; [done|]. intros j' token [Hj1 Hj2] Hh'.
    pose proof (handed_out_increase _ _ _ _ _ _ _ Hfit Hj1 Hh Hh') as Hlt.
    destruct (handed_out_at _ _ _ _ _ Hfit Hh') as (r2 & Hl2 & Hf2 & _).
    destruct (requests_between calls s (S j') i Hj2 Hfit _ _ Hl2) as (r3 & Hl3 & Hk3).
    assert (r3 = r) as -> by congruence. apply qk_fence in Hk3. lia.
  - intros i' key' fence' status' response' Hi' Hk'.
    destruct (completed_at _ _ _ _ _ _ _ Hi')
      as (k' & body' & v' & r' & r1' & Hk2 & -> & Hv' & Hl' & Hf' & Ho' & Hl1' & Hf1' & Ho1').
    assert (k' = k) as -> by congruence.
    destruct (lt_eq_lt_dec i i') as [[Hlt| ->]|Hlt]; [exfalso|done|exfalso].
    + by apply (completed_final calls s i i' k r' r1); rewrite ?Ho1.
    + by apply (completed_final calls s i' i k r r1'); rewrite ?Ho1'.
  - intros j request now answer Hij Hj Hk'. pose proof (history_step _ _ _ _ _ Hj) as Hst.
    destruct (requests_between calls s (S i) j Hij Hfit _ _ Hl1) as (r2 & Hl2 & Hk2).
    apply qk_final in Hk2 as ->; [|by rewrite Ho1].
    inversion Hst as [? ? Hno|? ? k' r' ? ? Hk2 Hl' Ha Ho'|? ? k' r' tok Hk2 Hf' Ho' Ha Hb Hc| |]; subst;
      [by edestruct Hno| |]; assert (k' = k) as -> by congruence.
    + assert (r' = r1) as -> by congruence. rewrite Ho1 in Ho'. injection Ho' as <- <-. by rewrite Hf1.
    + destruct Hc as [Hn|(r0 & Hl0 & Hn & _)]; congruence.
Qed.

End idempotency.

(** The slow owner's response is refused, the second owner's is replayed. *)
Lemma request_answered_once_witness :
  rt_requests sample_rt = ∅ /\
  exists answer v, jsonb_column (JObj [("run_id", JStr "run-1")]) = Ok v /\
    snd <$> (history sample_interval request_calls sample_rt !! 5%nat) =
      Some (BeginAnswer (Ok answer)) /\
    answer = mkIdemResult 201 (Some v) true 2.
Proof.
  assert (Hempty : rt_requests sample_rt = ∅) by reflexivity. split; [exact Hempty|].
  assert (H4 : history sample_interval request_calls sample_rt !! 4%nat =
    Some (CallCompleteRequest "key-1" 2 201 (Some (JObj [("run_id", JStr "run-1")])), Done (Ok tt)))
    by (vm_compute; reflexivity).
  assert (H5 : history sample_interval request_calls sample_rt !! 5%nat =
    Some (CallBegin sample_request (at_time 80),
      BeginAnswer (Ok (mkIdemResult 201 (Some (JObj [("run_id", JStr "run-1")])) true 2))))
    by (vm_compute; reflexivity).
  destruct (request_answered_once sample_interval request_calls sample_rt Hempty) as [Ho _].
  destruct (Ho _ _ _ _ _ H4) as (k & body & v & Hk & Hbody & Hv & _ & _ & Hrep).
  injection Hbody as <-. eexists _, v. split; [exact Hv|]. rewrite H5. split; [reflexivity|].
  exact (Hrep 5%nat _ _ _ ltac:(lia) H5 Hk).
Defined.
