(* ===== verification/RtReconciler.v ===== *)
(** * The reconciler that drives the stages of a task

    Models [go/internal/orchestration/reconciler.go]: the order of the stages,
    the identifiers derived from a job, the backoff, and [Once], which claims a
    job, runs its handler and settles the claim.  The handler runs outside of
    any transaction: [env_meanwhile] is what others commit to the ledger while
    it runs.  The loop of [RunWithDrain] (tickers, goroutines and draining) and
    the logging are not modelled. *)

From S2P Require Import Prelude GoStd GoJson PgRetry WfTypes RtLedger.

Definition StageStart : string := "start".
Definition StageImplementationRequest : string := "implementation_request".
Definition StageReasoning : string := "implementation_reasoning".
Definition StageExecution : string := "execution".
Definition StageVerification : string := "verification".
Definition StageReview : string := "review".
Definition StageAwaitingApproval : string := "awaiting_approval".

Definition orderedStages : list string :=
  [StageStart; StageImplementationRequest; StageReasoning; StageExecution; StageVerification;
   StageReview; StageAwaitingApproval].

(** The stage after the first occurrence of [stage]. *)
Fixpoint next_in (l : list string) (stage : string) : option string :=
  match l with
  | a :: ((b :: _) as rest) => if a == stage then Some b else next_in rest stage
  | _ => None
  end.

Definition nextStage (stage : string) : option string := next_in orderedStages stage.

(** ** Identifiers derived from a job *)

(** [strconv.Quote], rune by rune; [print_rune] is [unicode.IsPrint] on the
    runes outside ASCII. *)
Definition hex2 (b : Z) : string := String (hex_digit (b / 16)) (String (hex_digit (b `mod` 16)) "").

(** The code point of a rune in UTF-8. *)
Definition rune_value (r : string) : Z :=
  match map byte_of (String.list_ascii_of_string r) with
  | [a] => a
  | [a; b] => (a - 192) * 64 + (b - 128)
  | [a; b; c] => (a - 224) * 4096 + (b - 128) * 64 + (c - 128)
  | [a; b; c; d] => (a - 240) * 262144 + (b - 128) * 4096 + (c - 128) * 64 + (d - 128)
  | _ => 0
  end.

Definition quote_ascii (c : ascii) : string :=
  let b := byte_of c in
  if (b =? 34) || (b =? 92) then escaped (String c "")
  else if (32 <=? b) && (b <=? 126) then String c ""
  else if b =? 7 then escaped "a"
  else if b =? 8 then escaped "b"
  else if b =? 12 then escaped "f"
  else if b =? 10 then escaped "n"
  else if b =? 13 then escaped "r"
  else if b =? 9 then escaped "t"
  else if b =? 11 then escaped "v"
  else escaped ("x" +:+ hex2 b).

Section quote.
Variable print_rune : string -> bool.

Definition quote_rune (r : string) : string :=
  match r with
  | String c "" => quote_ascii c
  | _ =>
      if print_rune r then r
      else
        let v := rune_value r in
        if v <? 65536 then escaped ("u" +:+ hex4 v)
        else escaped ("U" +:+ hex4 (v / 65536) +:+ hex4 (v `mod` 65536))
  end.

(** Like [map_runes], with the broken byte at hand. *)
Fixpoint quote_runes (fuel : nat) (s : string) : string :=
  match fuel with
  | O => ""
  | S f =>
      match s with
      | EmptyString => ""
      | String c s' =>
          match rune_len s with
          | Some n => quote_rune (str_take n s) +:+ quote_runes f (str_drop n s)
          | None => escaped ("x" +:+ hex2 (byte_of c)) +:+ quote_runes f s'
          end
      end
  end.

Definition Quote (s : string) : string :=
  String quote (quote_runes (String.length s) s +:+ String quote "").

(** [fmt.Sprintf("%q", parts)] *)
Definition quote_list (parts : list string) : string :=
  "[" +:+ join " " (map Quote parts) +:+ "]".
End quote.

Definition NameSpaceOID : string := "6ba7b812-9dad-11d1-80b4-00c04fd430c8".

Record Identities := mkIdentities {
  ActivityID : string;
  InvocationID : string;
  ExecutionID : string;
  VerificationID : string;
  ReviewID : string;
  Identity_CommandID : string;
}.

Definition taskValue (task : option string) : string := default "-" task.

Section identities.
Context `{Platform}.
Variable print_rune : string -> bool.

Definition StableID (parts : list string) : string :=
  uuid_NewSHA1 NameSpaceOID (quote_list print_rune parts).

Definition job_parts (job : Job) : list string :=
  [Job_RunID job; taskValue (Job_TaskID job); decimal (Job_Attempt job); Job_Stage job].

Definition StableIdentities (job : Job) : Identities :=
  let id label := StableID (job_parts job ++ [label]) in
  mkIdentities (id "activity") (id "invocation") (id "execution") (id "verification")
    (id "review") (id "command").
End identities.

(** ** Backoff *)

(** Two's complement of 64 bits. *)
Definition i64 (z : Z) : Z := (z + 2 ^ 63) `mod` 2 ^ 64 - 2 ^ 63.

Fixpoint backoff_loop (exponent : nat) (value maximum : Z) : Z :=
  match exponent with
  | O => if maximum <? value then maximum else value
  | S n =>
      if (maximum <=? value) || (maximum / 2 <? value) then maximum
      else backoff_loop n (i64 (value * 2)) maximum
  end.

Definition saturatingBackoff (initial exponent maximum : Z) : Z :=
  backoff_loop (Z.to_nat exponent) initial maximum.

(** ** The reconciler *)

Record HandlerResult := mkHandlerResult { Artifact : ArtifactRef; Continue : bool }.
Definition Handler : Type := Job -> Identities -> res HandlerResult.

Record Config := mkConfig {
  OwnerID' : string;
  ClaimTTL : Z;
  PollInterval : Z;
  MaxRetries : Z;
  InitialBackoff : Z;
}.

Definition context_Canceled : error := ErrNew "context canceled".
Definition context_DeadlineExceeded : error := ErrNew "context deadline exceeded".

(** What surrounds one call of [Once]. *)
Record environment := mkEnvironment {
  (** the readings of the process's clock, in order *)
  env_now : nat -> time;
  (** the clock of the database *)
  env_clock : Z;
  env_locked : gset string;
  env_meanwhile : rt_db -> rt_db;
  (** the heartbeat was refused *)
  env_heartbeat : option error;
  (** [Put] of the failure report of a job *)
  env_put : Job -> error -> res ArtifactRef;
}.

Section reconciler.
Context `{Platform}.
Variable print_rune : string -> bool.

Definition New (config : Config) (handlers : string -> option Handler) : res unit :=
  if negb (uuid_Parse_ok (OwnerID' config)) || (ClaimTTL config <=? 0) ||
     (PollInterval config <=? 0) || (MaxRetries config =? 0) || (InitialBackoff config <=? 0)
  then Err (ErrText "invalid reconciler configuration")
  else
    for_each (fun stage =>
      match handlers stage with
      | Some _ => Ok tt
      | None => Err (ErrText ("missing stage handler " +:+ Quote print_rune stage))
      end) orderedStages.

Section once.
Variable config : Config.
Variable handlers : string -> option Handler.
Variable env : environment.

Definition reconciler_handle (job : Job) : res HandlerResult :=
  match handlers (Job_Stage job) with
  | None => Err (ErrText ("no handler registered for stage " +:+ Quote print_rune (Job_Stage job)))
  | Some handler =>
      result ← handler job (StableIdentities print_rune job);
      match env_heartbeat env with Some e => Err e | None => Ok result end
  end.

Definition successor (job : Job) (next : string) (available : time) : Job :=
  mkJob (StableID print_rune
           [Job_RunID job; taskValue (Job_TaskID job); decimal (Job_Attempt job); next; "job"])
    (Job_RunID job) (Job_TaskID job) (Job_Attempt job) next None (UTC available) None None 0 0 0
    None None.

Definition reconciler_complete (job : Job) (result : HandlerResult) : tx rt_db unit :=
  let nextJob :=
    match nextStage (Job_Stage job) with
    | Some next => if Continue result then Some (successor job next (env_now env 1)) else None
    | None => None
    end in
  CompleteAndEnqueue (Job_ID job) (OwnerID' config) (Job_FencingToken job) (Artifact result)
    nextJob (env_now env 2).

Definition reconciler_fail (job : Job) (handleErr : error) : tx rt_db unit :=
  failure ← tx_lift (env_put env job handleErr);
  Fail (Job_ID job) (OwnerID' config) (Job_FencingToken job) failure (env_now env 1).

Definition handleFailure (job : Job) (handleErr : error) : tx rt_db unit :=
  if errors_Is handleErr context_Canceled || errors_Is handleErr context_DeadlineExceeded
  then tx_err handleErr
  else if errors_Is handleErr ErrTransient then
    if MaxRetries config <=? u32 (TransientRescheduleCount job + 1)
    then reconciler_fail job handleErr
    else
      let backoff := saturatingBackoff (InitialBackoff config) (TransientRescheduleCount job)
        Minute in
      RescheduleTransient (Job_ID job) (OwnerID' config) (Job_FencingToken job)
        (time_Add (env_now env 1) backoff) (env_clock env)
  else if u32 (RetryCount job + 1) <? MaxRetries config then
    let backoff := saturatingBackoff (InitialBackoff config) (RetryCount job) Minute in
    Retry (Job_ID job) (OwnerID' config) (Job_FencingToken job)
      (time_Add (env_now env 1) backoff) (env_clock env)
  else reconciler_fail job handleErr.

(** Settling a claimed job after its handler ended. *)
Definition settle (job : Job) : tx rt_db unit :=
  match reconciler_handle job with
  | Ok result => reconciler_complete job result
  | Err e => handleFailure job e
  end.

(** Whether a job was found, and the error; with the ledger afterwards. *)
Definition Once (s : rt_db) : (bool * res unit) * rt_db :=
  let now := UTC (env_now env 0) in
  match run_tx (Claim (OwnerID' config) now (ClaimTTL config) (env_locked env)) s with
  | (Err e, s1) => ((false, Err e), s1)
  | (Ok None, s1) => ((false, Ok tt), s1)
  | (Ok (Some job), s1) =>
      let '(r, s2) := run_tx (settle job) (env_meanwhile env s1) in
      ((true, r), s2)
  end.

End once.
End reconciler.
