(* ===== verification/RtRounds.v ===== *)
(** * Identities, backoff and the rounds of a job *)

From stdpp Require Import pretty.
From S2P Require Import Prelude GoStd GoJson WfTypes RtLedger RtReconciler PgRetry WfDb.
From S2P Require Import WfStore WfStoreLemmas RtHistory RtFencing.

(** * Identifiers derived from a job are distinct

    [StableID] hashes the Go-quoted list of its parts; quoting is unambiguous
    on ASCII text, so different parts name different identifiers. *)

(** ** Reading back a quoted character *)

Definition hex_value (c : ascii) : Z :=
  if is_digit c then byte_of c - 48 else byte_of c - 87.

Definition named_escape (c : ascii) : ascii :=
  if c == "a"%char then byte 7 else if c == "b"%char then byte 8
  else if c == "f"%char then byte 12 else if c == "n"%char then byte 10
  else if c == "r"%char then byte 13 else if c == "t"%char then byte 9
  else if c == "v"%char then byte 11 else c.

(** The character at the head of a quoted text, unless the quote ends there. *)
Definition unquote_head (s : string) : option (ascii * string) :=
  match s with
  | String a s1 =>
      if a == quote then None
      else if a == backslash then
        match s1 with
        | String e s2 =>
            if e == "x"%char then
              match s2 with
              | String h (String l s3) =>
                  Some (ascii_of_N (Z.to_N (hex_value h * 16 + hex_value l)), s3)
              | _ => None
              end
            else Some (named_escape e, s2)
        | EmptyString => None
        end
      else Some (a, s1)
  | EmptyString => None
  end.

Lemma unquote_quote c x : unquote_head (quote_ascii c +:+ x) = Some (c, x).
Proof. destruct c as [[] [] [] [] [] [] [] []]; reflexivity. Qed.

Lemma quote_ascii_cut c d x y :
  quote_ascii c +:+ x = quote_ascii d +:+ y -> c = d /\ x = y.
Proof.
  intros Heq. apply (f_equal unquote_head) in Heq. rewrite !unquote_quote in Heq.
  by injection Heq.
Qed.

Lemma quote_ascii_open c x y : quote_ascii c +:+ x <> String quote y.
Proof.
  intros Heq. apply (f_equal unquote_head) in Heq. rewrite unquote_quote in Heq. done.
Qed.

Section quoting.
Variable print_rune : string -> bool.

Lemma quote_runes_ascii f c s :
  (byte_of c <? 128) = true ->
  quote_runes print_rune (S f) (String c s) = quote_ascii c +:+ quote_runes print_rune f s.
Proof. intros Hc. cbn [quote_runes rune_len]. by rewrite Hc. Qed.

(** The closing quote is where the text ends. *)
Lemma quote_cut s t x y :
  is_ascii_text s = true -> is_ascii_text t = true ->
  Quote print_rune s +:+ x = Quote print_rune t +:+ y -> s = t /\ x = y.
Proof.
  unfold Quote. intros Hs Ht. rewrite !app_cons_str. intros [= Heq]. revert t Ht Heq.
  induction s as [|c s IH]; intros [|d t] Ht; cbn [String.length];
    rewrite ?string_app_assoc.
  - intros Heq. by injection Heq.
  - cbn in Ht. apply andb_true_iff in Ht as [Hd _]. rewrite quote_runes_ascii by done.
    rewrite string_app_assoc. intros Heq. symmetry in Heq. by apply quote_ascii_open in Heq.
  - cbn in Hs. apply andb_true_iff in Hs as [Hc _]. rewrite quote_runes_ascii by done.
    rewrite string_app_assoc. intros Heq. by apply quote_ascii_open in Heq.
  - cbn in Hs, Ht. apply andb_true_iff in Hs as [Hc Hs]. apply andb_true_iff in Ht as [Hd Ht].
    rewrite !quote_runes_ascii, !string_app_assoc by done.
    intros [-> Heq]%quote_ascii_cut. rewrite <- !string_app_assoc in Heq.
    destruct (IH Hs t Ht Heq) as [-> ->]. done.
Qed.

Lemma join_cut l k x y :
  Forall (fun s => is_ascii_text s = true) l -> Forall (fun s => is_ascii_text s = true) k ->
  join " " (map (Quote print_rune) l) +:+ String "]" x =
  join " " (map (Quote print_rune) k) +:+ String "]" y -> l = k.
Proof.
  revert k. induction l as [|s l IH]; intros [|t k] Hl Hk; cbn [map].
  - done.
  - intros Heq. exfalso. destruct k; cbn [map join] in Heq; unfold Quote in Heq;
      rewrite ?app_cons_str in Heq; discriminate Heq.
  - intros Heq. exfalso. destruct l; cbn [map join] in Heq; unfold Quote in Heq;
      rewrite ?app_cons_str in Heq; discriminate Heq.
  - apply Forall_cons in Hl as [Hs Hl], Hk as [Ht Hk].
    assert (Hstep : forall w (r : list string) z,
      join " " (map (Quote print_rune) (w :: r)) +:+ z =
      Quote print_rune w +:+ match r with
        | [] => z
        | _ => String " " (join " " (map (Quote print_rune) r) +:+ z) end).
    { intros w [|v r] z; [done|]. cbn [map join]. by rewrite !string_app_assoc. }
    rewrite <- !map_cons, !Hstep. intros [-> Heq]%quote_cut; [|done..]. f_equal.
    destruct l as [|s' l], k as [|t' k]; [done|discriminate Heq..|].
    injection Heq as Heq. by apply IH.
Qed.

Lemma quote_list_inj l k :
  Forall (fun s => is_ascii_text s = true) l -> Forall (fun s => is_ascii_text s = true) k ->
  quote_list print_rune l = quote_list print_rune k -> l = k.
Proof.
  unfold quote_list. intros Hl Hk. rewrite !app_cons_str, !app_nil_str. intros [= Heq].
  by eapply join_cut.
Qed.
End quoting.

(** ** Decimal numerals *)

Lemma pretty_N_go_ascii x s : is_ascii_text s = true -> is_ascii_text (pretty_N_go x s) = true.
Proof.
  revert s. induction (N.lt_wf_0 x) as [x _ IH]; intros s Hs.
  destruct (decide (x = 0%N)) as [->|Hne]; [by rewrite pretty_N_go_0|].
  rewrite pretty_N_go_step by lia. apply IH; [apply N.div_lt; lia|].
  cbn. rewrite andb_true_iff. split; [|done]. unfold pretty_N_char. by repeat case_match.
Qed.

Lemma decimal_ascii z : is_ascii_text (decimal z) = true.
Proof.
  destruct z as [|p|p]; [done| |]; unfold decimal, pretty, pretty_Z, pretty, pretty_positive, pretty,
    pretty_N; rewrite decide_False by done.
  - by apply pretty_N_go_ascii.
  - rewrite is_ascii_text_app. by rewrite pretty_N_go_ascii.
Qed.

Lemma decimal_inj z z' : decimal z = decimal z' -> z = z'.
Proof. apply (inj pretty). Qed.

(** ** Identifiers *)

Definition identity_list (ids : Identities) : list string :=
  [ActivityID ids; InvocationID ids; ExecutionID ids; VerificationID ids; ReviewID ids;
   Identity_CommandID ids].

Definition identity_labels : list string :=
  ["activity"; "invocation"; "execution"; "verification"; "review"; "command"].

(** The texts of a job are ASCII and its task, when there is one, is not ["-"]. *)
Definition plain_job (job : Job) : Prop :=
  is_ascii_text (Job_RunID job) = true /\ is_ascii_text (Job_Stage job) = true /\
  (forall t, Job_TaskID job = Some t -> is_ascii_text t = true /\ t <> "-").

Definition job_identity (job : Job) : string * option string * Z * string :=
  (Job_RunID job, Job_TaskID job, Job_Attempt job, Job_Stage job).

Section identities.
Context `{Platform}.
Variable print_rune : string -> bool.

Lemma StableID_inj parts parts' :
  name_uuids_distinct ->
  Forall (fun s => is_ascii_text s = true) parts ->
  Forall (fun s => is_ascii_text s = true) parts' ->
  StableID print_rune parts = StableID print_rune parts' -> parts = parts'.
Proof.
  intros Hd Hp Hp' Heq. unfold StableID in Heq. apply Hd in Heq.
  by eapply quote_list_inj.
Qed.

Lemma job_parts_ascii job extra :
  plain_job job -> is_ascii_text extra = true ->
  Forall (fun s => is_ascii_text s = true) (job_parts job ++ [extra]).
Proof.
  intros (Hr & Hs & Ht) He. unfold job_parts, taskValue. repeat constructor; try done.
  - destruct (Job_TaskID job) as [t|]; [by apply Ht|done].
  - apply decimal_ascii.
Qed.

Lemma job_parts_inj job job' e e' :
  plain_job job -> plain_job job' -> job_parts job ++ [e] = job_parts job' ++ [e'] ->
  job_identity job = job_identity job' /\ e = e'.
Proof.
  intros (_ & _ & Ht) (_ & _ & Ht') Heq. unfold job_parts in Heq.
  injection Heq as Hr Htask Ha%decimal_inj Hs He. split; [|done].
  unfold job_identity. rewrite Hr, Ha, Hs. do 3 f_equal. unfold taskValue in Htask.
  destruct (Job_TaskID job) as [t|], (Job_TaskID job') as [t'|]; cbn in Htask; try congruence.
  - destruct (Ht t eq_refl). congruence.
  - destruct (Ht' t' eq_refl). congruence.
Qed.

Lemma identity_list_lookup job i x :
  identity_list (StableIdentities print_rune job) !! i = Some x ->
  exists label, identity_labels !! i = Some label /\ is_ascii_text label = true /\
    x = StableID print_rune (job_parts job ++ [label]).
Proof.
  intros Hl. do 6 (destruct i as [|i]; [injection Hl as <-; by eexists|]). done.
Qed.

(** The six identifiers of every job, over all runs, tasks, attempts and stages, are distinct,
    and the job enqueued for a stage has an identifier of its own: two equal identifiers belong to
    the same job and the same purpose. *)
Theorem stable_identities_distinct :
  name_uuids_distinct ->
  (forall job job' i j x, plain_job job -> plain_job job' ->
    identity_list (StableIdentities print_rune job) !! i = Some x ->
    identity_list (StableIdentities print_rune job') !! j = Some x ->
    i = j /\ job_identity job = job_identity job') /\
  (forall job job' next next' now now', plain_job job -> plain_job job' ->
    is_ascii_text next = true -> is_ascii_text next' = true ->
    Job_ID (successor print_rune job next now) = Job_ID (successor print_rune job' next' now') ->
    job_identity (successor print_rune job next now) =
    job_identity (successor print_rune job' next' now')) /\
  (forall job job' next now i, plain_job job -> plain_job job' -> is_ascii_text next = true ->
    identity_list (StableIdentities print_rune job) !! i <>
    Some (Job_ID (successor print_rune job' next now))).
Proof.
  intros Hd.
  assert (Hinj : forall job job' e e', plain_job job -> plain_job job' ->
    is_ascii_text e = true -> is_ascii_text e' = true ->
    StableID print_rune (job_parts job ++ [e]) = StableID print_rune (job_parts job' ++ [e']) ->
    job_identity job = job_identity job' /\ e = e').
  { intros job job' e e' Hj Hj' He He' Heq. apply job_parts_inj; [done..|].
    apply StableID_inj; [done|by apply job_parts_ascii..|done]. }
  assert (Hplain : forall job next now, plain_job job -> is_ascii_text next = true ->
    plain_job (successor print_rune job next now)).
  { intros job next now (Hr & _ & Ht) Hn. done. }
  split; [|split].
  - intros job job' i j x Hj Hj' (a & Ha & Haa & ->)%identity_list_lookup
      (b & Hb & Hba & Heq)%identity_list_lookup.
    destruct (Hinj _ _ _ _ Hj Hj' Haa Hba Heq) as [Hid <-]. split; [|done].
    eapply NoDup_lookup; [|exact Ha|exact Hb].
    unfold identity_labels. repeat constructor; set_solver.
  - intros job job' next next' now now' Hj Hj' Hn Hn' Heq.
    apply (Hinj (successor print_rune job next now) (successor print_rune job' next' now')
      "job" "job" (Hplain _ _ _ Hj Hn) (Hplain _ _ _ Hj' Hn') eq_refl eq_refl Heq).
  - intros job job' next now i Hj Hj' Hn (a & Ha & Haa & Heq)%identity_list_lookup.
    destruct (Hinj _ (successor print_rune job' next now) _ "job" Hj (Hplain _ _ _ Hj' Hn) Haa eq_refl
      (eq_sym Heq)) as [_ ->].
    apply list_elem_of_lookup_2 in Ha. unfold identity_labels in Ha. set_solver.
Qed.
End identities.

Definition all_printable (_ : string) : bool := true.

Definition start_of (task : option string) : Job :=
  mkJob "job-1" "run-1" task 1 "start" None zero_time None None 0 0 0 None None.

Lemma stable_identities_distinct_witness :
  @name_uuids_distinct sample_platform /\
  forall i j x,
    identity_list (StableIdentities all_printable (start_of (Some "task-1"))) !! i = Some x ->
    identity_list (StableIdentities all_printable (start_of None)) !! j = Some x -> False.
Proof.
  split; [exact sample_name_uuids_distinct|].
  destruct (stable_identities_distinct all_printable sample_name_uuids_distinct) as [Hd _].
  intros i j x Hi Hj.
  assert (Hp : plain_job (start_of (Some "task-1")))
    by (split; [reflexivity|split; [reflexivity|intros t [= <-]; split; [reflexivity|discriminate]]]).
  assert (Hp' : plain_job (start_of None))
    by (split; [reflexivity|split; [reflexivity|intros t [=]]]).
  destruct (Hd _ _ _ _ _ Hp Hp' Hi Hj) as [_ He]. discriminate He.
Defined.

(** * Rounds of the reconciler

    What the rounds of any number of reconcilers guarantee together, in every
    interleaving with other calls on the ledger: the backoff saturates, a job
    whose handler keeps failing is given up after a bounded number of failures,
    and a stage is enqueued only when every stage before it has completed. *)

(** ** Backoff *)

Lemma i64_id z : - 2 ^ 63 <= z <= max_i64 -> i64 z = z.
Proof. unfold i64, max_i64. intros. rewrite Z.mod_small; lia. Qed.

Lemma backoff_loop_exact n value maximum :
  0 < value <= max_i64 -> 0 <= maximum <= max_i64 ->
  backoff_loop n value maximum = Z.min maximum (value * 2 ^ Z.of_nat n).
Proof.
  revert value. induction n as [|n IH]; intros value Hv Hm; cbn [backoff_loop].
  - rewrite Z.mul_1_r. destruct (Z.ltb_spec maximum value); lia.
  - assert (Hp : 2 ^ Z.of_nat (S n) = 2 * 2 ^ Z.of_nat n) by (rewrite Nat2Z.inj_succ, Z.pow_succ_r; lia).
    assert (H1 : 1 <= 2 ^ Z.of_nat n) by (pose proof (Z.pow_pos_nonneg 2 (Z.of_nat n)); lia).
    rewrite Hp. destruct ((_ <=? _) || (_ <? _)) eqn:Hc.
    + rewrite Z.min_l; [done|]. apply orb_true_iff in Hc as [Hc%Z.leb_le|Hc%Z.ltb_lt]; [nia|].
      assert (maximum < 2 * value) by (pose proof (Z.div_mod maximum 2); pose proof (Z.mod_pos_bound maximum 2); lia).
      nia.
    + apply orb_false_iff in Hc as [Hc1%Z.leb_gt Hc2%Z.ltb_ge].
      assert (value * 2 <= maximum) by (pose proof (Z.div_mod maximum 2); pose proof (Z.mod_pos_bound maximum 2); lia).
      rewrite i64_id by (unfold max_i64 in *; lia). rewrite IH by lia. f_equal. lia.
Qed.

(** C40: For every positive initial backoff and every retry counter the backoff is exactly the
    initial one doubled once per retry, capped at the maximum, with no overflow of the 64-bit
    duration on the way. *)
Theorem saturating_backoff_exact initial exponent maximum :
  0 < initial <= max_i64 -> 0 <= exponent <= max_u32 -> 0 <= maximum <= max_i64 ->
  saturatingBackoff initial exponent maximum = Z.min maximum (initial * 2 ^ exponent).
Proof.
  intros Hi He Hm. unfold saturatingBackoff. rewrite backoff_loop_exact by done.
  by rewrite Z2Nat.id by lia.
Qed.

Lemma saturating_backoff_exact_witness :
  saturatingBackoff Second 3 Minute = 8 * Second /\ saturatingBackoff Second 200 Minute = Minute.
Proof.
  split; (rewrite saturating_backoff_exact; [|unfold Minute, Second, Millisecond, max_i64, max_u32; lia..]).
  - reflexivity.
  - reflexivity.
Defined.

(** ** Settling a claim is one call on the ledger *)

Section rounds.
Context `{Platform}.
Variable interval_us : Z -> Z.
Variable print_rune : string -> bool.
Local Abbreviation perform := (perform interval_us).

(** The call that records the failure of a handler. *)
Inductive failure_call (config : Config) (job : Job) : rt_call -> Prop :=
| failure_retry available clock : u32 (RetryCount job + 1) < MaxRetries config ->
    failure_call config job
      (CallRetry (Job_ID job) (OwnerID' config) (Job_FencingToken job) available clock)
| failure_reschedule available clock : u32 (TransientRescheduleCount job + 1) < MaxRetries config ->
    failure_call config job
      (CallReschedule (Job_ID job) (OwnerID' config) (Job_FencingToken job) available clock)
| failure_final report now :
    failure_call config job
      (CallFail (Job_ID job) (OwnerID' config) (Job_FencingToken job) report now).

Lemma reconciler_fail_call config env job e s s' :
  reconciler_fail config env job e s = Ok (tt, s') ->
  exists c, failure_call config job c /\ perform c s = (Done (Ok tt), s').
Proof.
  unfold reconciler_fail. intros (report & s1 & [_ ->]%tx_lift_Ok & Hf)%tx_bind_Ok.
  eexists. split; [apply failure_final|]. cbn. unfold answered, run_tx. by rewrite Hf.
Qed.

Lemma handleFailure_call config env job e s s' :
  handleFailure config env job e s = Ok (tt, s') ->
  exists c, failure_call config job c /\ perform c s = (Done (Ok tt), s').
Proof.
  unfold handleFailure. destruct (_ || _); [done|]. destruct (errors_Is e ErrTransient).
  - destruct (Z.leb_spec (MaxRetries config) (u32 (TransientRescheduleCount job + 1)));
      [apply reconciler_fail_call|]. intros Hr. eexists.
    split; [by apply failure_reschedule|]. cbn. unfold answered, run_tx. by rewrite Hr.
  - destruct (Z.ltb_spec (u32 (RetryCount job + 1)) (MaxRetries config));
      [|apply reconciler_fail_call]. intros Hr. eexists.
    split; [by apply failure_retry|]. cbn. unfold answered, run_tx. by rewrite Hr.
Qed.

(** The call that records what the handler produced. *)
Definition completion_call (config : Config) (job : Job) (result : HandlerResult) (available now : time)
    : rt_call :=
  CallCompleteAndEnqueue (Job_ID job) (OwnerID' config) (Job_FencingToken job) (Artifact result)
    (match nextStage (Job_Stage job) with
     | Some next => if Continue result then Some (successor print_rune job next available) else None
     | None => None end) now.

Lemma settle_cases config handlers env job s r s' :
  run_tx (settle print_rune config handlers env job) s = (r, s') ->
  match r with
  | Err _ => s' = s
  | Ok tt =>
      exists c, perform c s = (Done (Ok tt), s') /\
        match reconciler_handle print_rune handlers env job with
        | Ok result => exists available now, c = completion_call config job result available now
        | Err _ => failure_call config job c
        end
  end.
Proof.
  intros Hr. destruct r as [[]|e]; [|by apply run_tx_err in Hr].
  apply run_tx_ok in Hr. unfold settle in Hr.
  destruct (reconciler_handle print_rune handlers env job) as [result|e].
  - exists (completion_call config job result (env_now env 1) (env_now env 2)).
    split; [|by eexists _, _]. unfold reconciler_complete in Hr.
    unfold completion_call. cbn [RtHistory.perform]. unfold answered, run_tx. by rewrite Hr.
  - apply handleFailure_call in Hr as (c & Hc & Hp). eauto.
Qed.

(** ** Everything that happens to the ledger *)

(** Whether a round of [id] ended with its failure recorded. *)
Definition records_failure (config : Config) (handlers : string -> option Handler)
    (env : environment) (id : string) (s : rt_db) : bool :=
  match run_tx (Claim (OwnerID' config) (UTC (env_now env 0)) (ClaimTTL config) (env_locked env)) s with
  | (Ok (Some job), s1) =>
      (Job_ID job == id) &&
      negb (is_Ok (reconciler_handle print_rune handlers env job)) &&
      is_Ok (fst (run_tx (settle print_rune config handlers env job) (env_meanwhile env s1)))
  | _ => false
  end.

Definition after_claim (config : Config) (env : environment) (s : rt_db) : rt_db :=
  snd (run_tx (Claim (OwnerID' config) (UTC (env_now env 0)) (ClaimTTL config) (env_locked env)) s).

(** Calls and rounds in some order; what happens while a handler runs is such
    an activity too.  [n] counts the recorded failures of job [id]. *)
Inductive activity (allowed : rt_call -> Prop) (M : Z) (id : string) : nat -> rt_db -> rt_db -> Prop :=
| act_none s : activity allowed M id 0 s s
| act_then n m s1 s2 s3 : activity allowed M id n s1 s2 -> activity allowed M id m s2 s3 ->
    activity allowed M id (n + m) s1 s3
| act_call c s : allowed c -> activity allowed M id 0 s (snd (perform c s))
| act_idle config handlers env s : fst (fst (Once print_rune config handlers env s)) = false ->
    activity allowed M id 0 s (snd (Once print_rune config handlers env s))
| act_round config handlers env s n : MaxRetries config <= M ->
    fst (fst (Once print_rune config handlers env s)) = true ->
    activity allowed M id n (after_claim config env s) (env_meanwhile env (after_claim config env s)) ->
    activity allowed M id (n + if records_failure config handlers env id s then 1 else 0)
      s (snd (Once print_rune config handlers env s)).

(** A round is a claim, whatever happens meanwhile, and a settlement. *)
Lemma round_cases config handlers env id s :
  let s1 := after_claim config env s in
  let claim := CallClaim (OwnerID' config) (UTC (env_now env 0)) (ClaimTTL config) (env_locked env) in
  s1 = snd (perform claim s) /\
  ((snd (Once print_rune config handlers env s) = s1 /\
    fst (fst (Once print_rune config handlers env s)) = false) \/
   exists job r s3,
     perform claim s = (ClaimAnswer (Ok (Some job)), s1) /\
     run_tx (settle print_rune config handlers env job) (env_meanwhile env s1) = (r, s3) /\
     snd (Once print_rune config handlers env s) = s3 /\
     fst (fst (Once print_rune config handlers env s)) = true /\
     records_failure config handlers env id s =
       (Job_ID job == id) && negb (is_Ok (reconciler_handle print_rune handlers env job)) && is_Ok r).
Proof.
  cbv zeta. split.
  { cbn. unfold after_claim, answered. by destruct (run_tx _ s). }
  unfold after_claim, records_failure, Once. cbn. unfold answered.
  destruct (run_tx (Claim _ _ _ _) s) as [[[job|]|e] s1] eqn:Hc; cbn; [|by left..].
  right. destruct (run_tx (settle _ _ _ _ job) _) as [r s3] eqn:Hs. by exists job, r, s3.
Qed.

(** ** Failures are bounded *)

Definition failures_left (M : Z) (r : job_row) : Z :=
  if JobState_Terminal (jr_state r) then 0
  else Z.max 0 (M - 1 - jr_retry r) + Z.max 0 (M - 1 - jr_transient r) + 1.

Lemma failures_left_kept M r r' : job_kept r r' -> failures_left M r' <= failures_left M r.
Proof.
  intros [_ _ _ Ht Hr Htr _]. unfold failures_left in *.
  destruct (JobState_Terminal (jr_state r)) eqn:E.
  - rewrite (Ht eq_refl), E. lia.
  - destruct (JobState_Terminal (jr_state r')); lia.
Qed.

(** The row of a job before and after its failure is recorded. *)
Lemma failure_call_row config job c s s' k :
  failure_call config job c -> uuid_column (Job_ID job) = Some k ->
  perform c s = (Done (Ok tt), s') ->
  exists r r', rt_jobs s !! k = Some r /\ rt_jobs s' !! k = Some r' /\
    jr_state r = JobClaimed /\ jr_fence r = Job_FencingToken job /\
    ((jr_retry r < max_i32 /\ jr_retry r' = jr_retry r + 1 /\
      u32 (RetryCount job + 1) < MaxRetries config) \/
     (jr_transient r < max_i32 /\ jr_transient r' = jr_transient r + 1 /\
      u32 (TransientRescheduleCount job + 1) < MaxRetries config) \/
     JobState_Terminal (jr_state r') = true).
Proof.
  intros Hf Hk Hp. destruct Hf as [av cl Hlt|av cl Hlt|rep now];
    apply answered_Ok in Hp as [([] & Hr & _)|(e & [=] & _)].
  - apply update_claimed_Ok in Hr as (k' & o & r & r' & Hk' & _ & Hl & Hst & _ & Hfe & Hrow & ->).
    assert (k' = k) as -> by congruence. exists r, r'. cbn. rewrite lookup_insert_eq.
    repeat (split; [done|]). left. unfold retry_row, int_succ in Hrow.
    destruct (Z.leb_spec max_i32 (jr_retry r)); [done|]. by injection Hrow as <-.
  - apply update_claimed_Ok in Hr as (k' & o & r & r' & Hk' & _ & Hl & Hst & _ & Hfe & Hrow & ->).
    assert (k' = k) as -> by congruence. exists r, r'. cbn. rewrite lookup_insert_eq.
    repeat (split; [done|]). right. left. unfold reschedule_row, int_succ in Hrow.
    destruct (Z.leb_spec max_i32 (jr_transient r)); [done|]. by injection Hrow as <-.
  - unfold Fail in Hr. apply tx_bind_Ok in Hr as ([] & s1 & [_ ->]%tx_lift_Ok & Hr).
    apply update_claimed_Ok in Hr as (k' & o & r & r' & Hk' & _ & Hl & Hst & _ & Hfe & Hrow & ->).
    assert (k' = k) as -> by congruence. exists r, r'. cbn. rewrite lookup_insert_eq.
    repeat (split; [done|]). right. right. apply fail_row_Ok in Hrow as (_ & -> & _). done.
Qed.

(** What a claim answers is what the claimed row holds. *)
Lemma claim_answer owner now ttl lk s job s1 :
  tokens_fit (rt_jobs s) ->
  perform (CallClaim owner now ttl lk) s = (ClaimAnswer (Ok (Some job)), s1) ->
  exists r r1, rt_jobs s !! Job_ID job = Some r /\ rt_jobs s1 = <[Job_ID job := r1]> (rt_jobs s) /\
    jr_state r1 = JobClaimed /\ jr_fence r1 = Job_FencingToken job /\
    jr_retry r1 = RetryCount job /\ jr_transient r1 = TransientRescheduleCount job /\
    same_job r r1 = true /\ jr_run r1 = Job_RunID job /\ jr_task r1 = Job_TaskID job /\
    jr_attempt r1 = Job_Attempt job /\ jr_stage r1 = Job_Stage job.
Proof.
  intros Hfit Hp. apply answered_Ok in Hp as [(a & Hr & [= <-])|(e & [=] & _)].
  apply Claim_Ok in Hr as [[[=] _]|(id & r & o & Hl & _ & _ & _ & _ & -> & [= ->])].
  exists r, (claimed_row o (time_column (time_Add (UTC now) ttl)) (time_column (UTC now)) r).
  cbn. repeat (split; [done|]). split; [by apply same_job_spec|done].
Qed.

Lemma settle_kept config handlers env job s r s' :
  tokens_fit (rt_jobs s) -> run_tx (settle print_rune config handlers env job) s = (r, s') ->
  jobs_kept (rt_jobs s) (rt_jobs s') /\ tokens_fit (rt_jobs s').
Proof.
  intros Hfit Hs. pose proof (settle_cases _ _ _ _ _ _ _ Hs) as Hc.
  destruct r as [[]|e]; [|by subst]. destruct Hc as (c & Hp & _). by eapply perform_kept.
Qed.

(** One recorded failure uses up one of the failures left. *)
Lemma failure_uses_one M config job c s s' r1 r :
  MaxRetries config <= M -> failure_call config job c ->
  uuid_column (Job_ID job) = Some (Job_ID job) -> perform c s = (Done (Ok tt), s') ->
  tokens_fit (rt_jobs s) ->
  jr_state r1 = JobClaimed -> jr_fence r1 = Job_FencingToken job ->
  jr_retry r1 = RetryCount job -> jr_transient r1 = TransientRescheduleCount job ->
  0 <= jr_retry r1 -> 0 <= jr_transient r1 ->
  rt_jobs s !! Job_ID job = Some r -> job_kept r1 r ->
  exists r', rt_jobs s' !! Job_ID job = Some r' /\ job_kept r r' /\
    1 + failures_left M r' <= failures_left M r.
Proof.
  intros HM Hf Hk Hp Hfit Hst Hfe Hre Htr Hre0 Htr0 Hl Hkept.
  destruct (failure_call_row _ _ _ _ _ _ Hf Hk Hp) as (r2 & r' & Hl2 & Hl' & Hst2 & Hfe2 & Hc).
  assert (r2 = r) as -> by congruence.
  destruct (perform_kept _ _ _ _ _ Hp Hfit) as [Hkp _].
  destruct (Hkp _ _ Hl) as (r3 & Hl3 & Hk3). assert (r3 = r') as -> by congruence.
  exists r'. split; [done|]. split; [done|].
  destruct (jk_frozen _ _ Hkept Hst Hst2) as (Hre2 & Htr2 & _); [congruence|].
  pose proof (jk_retry _ _ Hk3). pose proof (jk_transient _ _ Hk3).
  unfold failures_left. rewrite Hst2. cbn [JobState_Terminal].
  destruct (JobState_Terminal (jr_state r')) eqn:Ht; [lia|].
  unfold max_i32 in Hc.
  destruct Hc as [(Hb & Heq & Hlt)|[(Hb & Heq & Hlt)|Hc]]; [| |congruence];
    rewrite u32_id in Hlt by (unfold max_u32; lia); lia.
Qed.

Lemma activity_kept allowed M id n s s' :
  uuid_column id = Some id -> activity allowed M id n s s' -> tokens_fit (rt_jobs s) ->
  jobs_kept (rt_jobs s) (rt_jobs s') /\ tokens_fit (rt_jobs s') /\
  forall r, rt_jobs s !! id = Some r -> 0 <= jr_retry r -> 0 <= jr_transient r ->
    exists r', rt_jobs s' !! id = Some r' /\ job_kept r r' /\
      Z.of_nat n + failures_left M r' <= failures_left M r.
Proof.
  intros Hid. induction 1 as [s|n m s1 s2 s3 _ IH1 _ IH2|c s _|config handlers env s Hno|
    config handlers env s n HM Hyes _ IH]; intros Hfit.
  - split; [done|]. split; [done|]. intros r Hl _ _. exists r. split; [done|]. split; [done|lia].
  - destruct (IH1 Hfit) as (Hk1 & Hfit2 & Hf1). destruct (IH2 Hfit2) as (Hk2 & Hfit3 & Hf2).
    split; [by etrans|]. split; [done|]. intros r Hl Hre Htr.
    destruct (Hf1 _ Hl Hre Htr) as (r2 & Hl2 & Hkr & Hle).
    pose proof (jk_retry _ _ Hkr). pose proof (jk_transient _ _ Hkr).
    destruct (Hf2 _ Hl2) as (r3 & Hl3 & Hkr3 & Hle3); [lia..|].
    exists r3. split; [done|]. split; [by etrans|lia].
  - destruct (perform c s) as [a s'] eqn:Hp. destruct (perform_kept _ _ _ _ _ Hp Hfit) as [Hk Hfit'].
    split; [done|]. split; [done|]. intros r Hl _ _. destruct (Hk _ _ Hl) as (r' & Hl' & Hkr).
    exists r'. split; [done|]. split; [done|]. by apply (failures_left_kept M) in Hkr.
  - destruct (round_cases config handlers env id s) as [Hs1 [[-> _]|(job & r & s3 & _ & _ & _ & Ht & _)]];
      [|congruence].
    destruct (perform _ s) as [a s1'] eqn:Hc. cbn in Hs1. rewrite Hs1.
    destruct (perform_kept _ _ _ _ _ Hc Hfit) as [Hk Hfit'].
    split; [done|]. split; [done|]. intros r Hl _ _. destruct (Hk _ _ Hl) as (r' & Hl' & Hkr).
    exists r'. split; [done|]. split; [done|]. by apply (failures_left_kept M) in Hkr.
  - destruct (round_cases config handlers env id s) as [Hs1 [[_ Hf]|(job & r & s3 & Hc & Hset & -> & _ & ->)]];
      [congruence|].
    set (s1 := after_claim config env s) in *.
    destruct (perform_kept _ _ _ _ _ Hc Hfit) as [Hk1 Hfit1].
    destruct (IH Hfit1) as (Hk2 & Hfit2 & Hf2). clear IH.
    destruct (settle_kept _ _ _ _ _ _ _ Hfit2 Hset) as [Hk3 Hfit3].
    split; [etrans; [exact Hk1|]; etrans; [exact Hk2|exact Hk3]|]. split; [done|]. intros r0 Hl Hre Htr.
    destruct (Hk1 _ _ Hl) as (r1 & Hl1 & Hkr1).
    pose proof (jk_retry _ _ Hkr1). pose proof (jk_transient _ _ Hkr1).
    destruct (Hf2 _ Hl1) as (r2 & Hl2 & Hkr2 & Hle2); [lia..|].
    pose proof (failures_left_kept M _ _ Hkr1) as Hle1.
    pose proof (settle_cases _ _ _ _ _ _ _ Hset) as Hcase.
    destruct (_ && _) eqn:Hrec.
    + rewrite !andb_true_iff, negb_true_iff, bool_decide_eq_true in Hrec.
      destruct Hrec as [[<- Hno] Hok]. destruct r as [[]|e]; [|done].
      destruct Hcase as (c & Hp & Hcase).
      destruct (reconciler_handle print_rune handlers env job); [done|].
      destruct (claim_answer _ _ _ _ _ _ _ Hfit Hc) as
        (r0' & r1' & Hl0' & Hs1' & Hst1 & Hfe1 & Hre1 & Htr1 & _).
      assert (r1' = r1) as -> by (rewrite Hs1', lookup_insert_eq in Hl1; congruence).
      destruct (failure_uses_one M _ _ _ _ _ _ r2 HM Hcase Hid Hp Hfit2 Hst1 Hfe1 Hre1 Htr1
        ltac:(lia) ltac:(lia) Hl2 Hkr2) as (r3 & Hl3 & Hkr3 & Hle3).
      exists r3. split; [done|]. split; [etrans; [exact Hkr1|]; etrans; [exact Hkr2|exact Hkr3]|lia].
    + destruct (Hk3 _ _ Hl2) as (r3 & Hl3 & Hkr3).
      pose proof (failures_left_kept M _ _ Hkr3).
      exists r3. split; [done|]. split; [etrans; [exact Hkr1|]; etrans; [exact Hkr2|exact Hkr3]|lia].
Qed.

(** C31: A job that is new in the ledger has its failures recorded at most twice the retry limit less
    one times, counting ordinary and transient failures of all reconcilers together, whatever else
    is called on the ledger in between. *)
Theorem failures_bounded allowed M id n s s' r :
  uuid_column id = Some id -> tokens_fit (rt_jobs s) -> rt_jobs s !! id = Some r ->
  jr_retry r = 0 -> jr_transient r = 0 -> 1 <= M ->
  activity allowed M id n s s' -> Z.of_nat n <= 2 * M - 1.
Proof.
  intros Hid Hfit Hl Hre Htr HM Hact.
  destruct (activity_kept _ _ _ _ _ _ Hid Hact Hfit) as (_ & _ & Hf).
  destruct (Hf r Hl) as (r' & _ & _ & Hle); [lia..|].
  assert (0 <= failures_left M r') by (unfold failures_left; destruct (JobState_Terminal _); lia).
  unfold failures_left in Hle at 2. rewrite Hre, Htr in Hle.
  destruct (JobState_Terminal (jr_state r)); lia.
Qed.

End rounds.
