(* ===== verification/RtStages.v ===== *)
(** * Stages run in order

    Whatever the reconcilers and the other users of the ledger do, a stage of a
    task is in the ledger only when every stage before it has completed, for
    the same run, task and attempt, with a result. *)

From S2P Require Import Prelude GoStd GoJson PgRetry WfTypes WfDb WfStore WfStoreLemmas.
From S2P Require Import RtLedger RtHistory RtFencing RtReconciler RtRounds Samples.

(** The calls that others may make: only the first stage is enqueued directly. *)
Definition outside (c : rt_call) : Prop :=
  match c with
  | CallEnqueue job => Job_Stage job = StageStart
  | CallCompleteAndEnqueue _ _ _ _ (Some _) _ => False
  | _ => True
  end.

(** No row is new, and every row keeps its identity. *)
Definition no_new_jobs (J J' : gmap string job_row) : Prop :=
  forall id r', J' !! id = Some r' -> exists r, J !! id = Some r /\ same_job r r' = true.

Lemma no_new_refl J : no_new_jobs J J.
Proof. intros id r Hl. exists r. split; [done|]. by apply same_job_spec. Qed.

Lemma no_new_insert J k r r' :
  J !! k = Some r -> same_job r r' = true -> no_new_jobs J (<[k := r']> J).
Proof.
  intros Hl Hs id r0 Hl0. apply lookup_insert_Some in Hl0 as [[-> <-]|[_ Hl0]]; [by exists r|].
  by apply no_new_refl.
Qed.

(** The stage before, completed. *)
Definition completed_stage (J : gmap string job_row) (like : job_row) (stage : string) : Prop :=
  exists id r, J !! id = Some r /\ jr_run r = jr_run like /\ jr_task r = jr_task like /\
    jr_attempt r = jr_attempt like /\ jr_stage r = stage /\ jr_state r = JobCompleted /\
    is_Some (jr_result r).

Section stages.
Context `{Hlaws : PlatformLaws}.
Variable interval_us : Z -> Z.
Variable print_rune : string -> bool.
Local Abbreviation perform := (perform interval_us).

Record row_staged (J : gmap string job_row) (id : string) (r : job_row) : Prop := {
  rs_id : uuid_column id = Some id;
  rs_run : uuid_param (jr_run r) = Ok (jr_run r);
  rs_task : nullable uuid_param (jr_task r) = Ok (jr_task r);
  rs_before : jr_stage r = StageStart \/
    exists prev, nextStage prev = Some (jr_stage r) /\ completed_stage J r prev;
}.

Definition staged (J : gmap string job_row) : Prop :=
  forall id r, J !! id = Some r -> row_staged J id r.

Lemma completed_stage_kept J J' like like' stage :
  jobs_kept J J' -> same_job like like' = true -> completed_stage J like stage ->
  completed_stage J' like' stage.
Proof.
  intros Hk Hs (id & r & Hl & Hr & Ht & Ha & Hst & Hc & Hres).
  apply same_job_spec in Hs as (? & ? & ? & ?). destruct (Hk _ _ Hl) as (r' & Hl' & Hkr).
  rewrite (jk_terminal _ _ Hkr) in Hl' by (by rewrite Hc). exists id, r.
  split_and!; congruence || done.
Qed.

Lemma staged_kept J J' : jobs_kept J J' -> no_new_jobs J J' -> staged J -> staged J'.
Proof.
  intros Hk Hn Hs id r' Hl'. destruct (Hn _ _ Hl') as (r & Hl & Hsame).
  destruct (Hs _ _ Hl) as [Hid Hrun Htask Hb].
  pose proof (proj1 (same_job_spec _ _) Hsame) as (Hr & Ht & Ha & Hst).
  split; [done|by rewrite Hr|by rewrite Ht|]. rewrite Hst.
  destruct Hb as [Hb|(prev & Hp & Hc)]; [by left|right]. exists prev. split; [done|].
  by eapply completed_stage_kept.
Qed.

(** A new row with its predecessor. *)
Lemma staged_insert J k r :
  staged J -> J !! k = None -> row_staged J k r -> staged (<[k := r]> J).
Proof.
  intros Hs Hn Hr.
  assert (Hk : jobs_kept J (<[k := r]> J)) by (apply jobs_kept_insert; congruence).
  assert (Hup : forall id r0, row_staged J id r0 -> row_staged (<[k := r]> J) id r0).
  { intros id r0 [Hid Hrun Htask Hb]. split; [done..|].
    destruct Hb as [Hb|(prev & Hp & Hc)]; [by left|right]. exists prev. split; [done|].
    eapply completed_stage_kept; [done| |done]. by apply same_job_spec. }
  intros id r0 [[<- <-]|[_ Hl]]%lookup_insert_Some; [by apply Hup|]. by apply Hup, Hs.
Qed.

(** The row that [EnqueueTx] inserts. *)
Lemma EnqueueTx_staged job s u s' :
  staged (rt_jobs s) -> EnqueueTx job s = Ok (u, s') ->
  (Job_Stage job = StageStart \/
   forall run task, uuid_param (Job_RunID job) = Ok run -> nullable uuid_param (Job_TaskID job) = Ok task ->
     exists prev like, nextStage prev = Some (Job_Stage job) /\ completed_stage (rt_jobs s) like prev /\
       jr_run like = run /\ jr_task like = task /\ jr_attempt like = Job_Attempt job) ->
  staged (rt_jobs s').
Proof.
  intros Hs [->|(k & run & task & Hk & Hrun & Htask & Hc & ->)]%EnqueueTx_Ok Hstage; [done|].
  apply job_conflict_false in Hc as [Hn _]. apply staged_insert; [done..|].
  split; cbn.
  - by eapply uuid_column_canonical.
  - apply uuid_param_Ok. by eapply uuid_column_canonical.
  - destruct (Job_TaskID job) as [t|]; cbn in Htask; [|by injection Htask as <-].
    destruct (uuid_param t) as [t'|e] eqn:Et; [|done]. injection Htask as <-.
    apply uuid_param_Ok in Et. cbn. unfold uuid_param. by rewrite (uuid_column_canonical _ _ Et).
  - destruct Hstage as [Hst|Hprev]; [by left|right].
    destruct (Hprev run task) as (prev & like & Hp & Hcs & Hr & Ht & Ha);
      [by apply uuid_param_Ok|done|].
    exists prev. split; [done|]. destruct Hcs as (id & r & Hl & ? & ? & ? & ? & ? & ?).
    exists id, r. cbn. split_and!; congruence || done.
Qed.

Lemma perform_no_new c s a s' :
  perform c s = (a, s') ->
  (forall job, c <> CallEnqueue job) ->
  (forall id o f res next now, c <> CallCompleteAndEnqueue id o f res (Some next) now) ->
  no_new_jobs (rt_jobs s) (rt_jobs s').
Proof.
  intros Hp Hne Hnc.
  assert (Hup : forall id o f g s1 u, (forall r r', g r = Ok r' -> same_job r r' = true) ->
    update_claimed id o f g s = Ok (u, s1) -> no_new_jobs (rt_jobs s) (rt_jobs s1)).
  { intros id o f g s1 u Hg (k & ow & r & r' & _ & _ & Hl & _ & _ & _ & Hr & ->)%update_claimed_Ok.
    eapply no_new_insert; [done|by apply Hg]. }
  destruct c; try (by destruct (Hne job)); try (by destruct next; [edestruct Hnc|]);
    apply answered_Ok in Hp as [(x & Hr & _)|(e & _ & ->)]; try (by apply no_new_refl).
  - apply Claim_Ok in Hr as [[_ ->]|(id & r & o & Hl & _ & _ & _ & _ & -> & _)]; [apply no_new_refl|].
    eapply no_new_insert; [done|]. by apply same_job_spec.
  - eapply Hup; [|exact Hr]. intros r r' [= <-]. by apply same_job_spec.
  - unfold Complete in Hr. tx_run Hr. eapply Hup; [|exact Hr]. intros r r' Hg.
    by apply complete_row_Ok in Hg as [[? _] _].
  - unfold CompleteAndEnqueue in Hr. destruct next as [next|]; [by edestruct Hnc|]. 
    apply tx_bind_Ok in Hr as (? & ? & [_ ->]%tx_lift_Ok & Hr).
    apply tx_bind_Ok in Hr as (? & s1 & Hu & [= _ <-]). eapply Hup; [|exact Hu]. intros r r' Hg.
    by apply complete_row_Ok in Hg as [[? _] _].
  - eapply Hup; [|exact Hr]. intros r r' Hg. by apply retry_row_Ok in Hg as [[? _] _].
  - eapply Hup; [|exact Hr]. intros r r' Hg. by apply reschedule_row_Ok in Hg as [[? _] _].
  - unfold Fail in Hr. tx_run Hr. eapply Hup; [|exact Hr]. intros r r' Hg.
    by apply fail_row_Ok in Hg as [[? _] _].
  - unfold CancelRunJobs in Hr. tx_run Hr. injection Hr as _ <-. intros id r'. cbn.
    rewrite lookup_fmap. intros (r & Hl & ->)%fmap_Some. exists r. split; [done|]. apply cancel_kept.
  - apply BeginIdempotency_Ok in Hr as (k & _ & Hb). rewrite (begins_jobs _ _ _ _ _ Hb).
    apply no_new_refl.
  - apply RenewIdempotency_Ok in Hr as (k & r & v & _ & _ & _ & _ & ->). apply no_new_refl.
  - apply CompleteIdempotency_Ok in Hr as (k & r & v & _ & _ & _ & _ & _ & _ & ->). apply no_new_refl.
  - apply AbandonIdempotency_Ok in Hr as (k & r & v & _ & _ & _ & _ & ->). apply no_new_refl.
Qed.

Lemma outside_staged c s a s' :
  outside c -> perform c s = (a, s') -> tokens_fit (rt_jobs s) -> staged (rt_jobs s) ->
  staged (rt_jobs s').
Proof.
  intros Ho Hp Hfit Hs.
  destruct c; try (eapply staged_kept; [by eapply perform_kept| |done];
    eapply perform_no_new; [exact Hp| |]; intros; intros [=]; by subst).
  apply answered_Ok in Hp as [([] & Hr & _)|(e & _ & ->)]; [|done].
  eapply EnqueueTx_staged; [done|exact Hr|by left].
Qed.

(** Completing the claimed job of a stage enqueues the next one behind it. *)
Lemma completion_staged config job result available now s a s' r :
  perform (completion_call print_rune config job result available now) s = (a, s') ->
  tokens_fit (rt_jobs s) -> staged (rt_jobs s) ->
  rt_jobs s !! Job_ID job = Some r -> jr_run r = Job_RunID job -> jr_task r = Job_TaskID job ->
  jr_attempt r = Job_Attempt job -> jr_stage r = Job_Stage job -> staged (rt_jobs s').
Proof.
  intros Hp Hfit Hs Hl Hrun Htask Hatt Hstage. unfold completion_call in Hp.
  pose proof Hp as Hkeep. apply perform_kept in Hkeep; [|done].
  apply answered_Ok in Hp as [([] & Hr & _)|(e & _ & ->)]; [|done]. unfold CompleteAndEnqueue in Hr.
  apply tx_bind_Ok in Hr as (? & ? & [_ ->]%tx_lift_Ok & Hr).
  apply tx_bind_Ok in Hr as (? & s1 & Hu & Hr).
  apply update_claimed_Ok in Hu as (k & o & r0 & r' & Hk & _ & Hl0 & Hst & _ & _ & Hrow & ->).
  destruct (Hs _ _ Hl) as [Hid Hrunc Htaskc _]. assert (k = Job_ID job) as -> by congruence.
  assert (r0 = r) as -> by congruence.
  pose proof (complete_row_Ok _ _ _ _ Hrow) as (Hrel & Hdone & _ & _).
  assert (Hres : is_Some (jr_result r')).
  { unfold complete_row in Hrow. apply res_bind_Ok in Hrow as (ref & _ & [= <-]). by eexists. }
  assert (Hs1 : staged (<[Job_ID job := r']> (rt_jobs s))).
  { eapply staged_kept; [| |exact Hs].
    - apply jobs_kept_insert. intros r1 Hl1. assert (r1 = r) as -> by congruence.
      by apply released_kept.
    - eapply no_new_insert; [done|]. apply Hrel. }
  destruct (nextStage (Job_Stage job)) as [next|] eqn:Hn; [|by injection Hr as <-].
  destruct (Continue result); [|by injection Hr as <-].
  eapply EnqueueTx_staged; [|exact Hr|]; [exact Hs1|]. right. cbn. intros run task Hrun' Htask'.
  exists (Job_Stage job), r'. destruct Hrel as [Hsame _].
  apply same_job_spec in Hsame as (Hr1 & Hr2 & Hr3 & Hr4).
  rewrite Hrun in Hrunc. rewrite Htask in Htaskc. rewrite Hrunc in Hrun'. rewrite Htaskc in Htask'.
  injection Hrun' as <-. injection Htask' as <-.
  split; [exact Hn|]. split; [|split_and!; congruence].
  exists (Job_ID job), r'. cbn. rewrite lookup_insert_eq. split_and!; congruence || done.
Qed.

Lemma failure_outside config job c : failure_call config job c -> outside c.
Proof. by intros []. Qed.

Lemma activity_staged M id n s s' :
  activity interval_us print_rune outside M id n s s' -> tokens_fit (rt_jobs s) -> staged (rt_jobs s) ->
  jobs_kept (rt_jobs s) (rt_jobs s') /\ tokens_fit (rt_jobs s') /\ staged (rt_jobs s').
Proof.
  induction 1 as [s|n m s1 s2 s3 _ IH1 _ IH2|c s Ho|config handlers env s Hno|
    config handlers env s n HM Hyes _ IH]; intros Hfit Hs.
  - done.
  - destruct (IH1 Hfit Hs) as (Hk1 & Hfit2 & Hs2). destruct (IH2 Hfit2 Hs2) as (Hk2 & Hfit3 & Hs3).
    split; [by etrans|done].
  - destruct (perform c s) as [a s'] eqn:Hp. destruct (perform_kept _ _ _ _ _ Hp Hfit) as [Hk Hfit'].
    split; [done|]. split; [done|]. by eapply outside_staged.
  - destruct (round_cases interval_us print_rune config handlers env id s)
      as [Hs1 [[-> _]|(job & r & s3 & _ & _ & _ & Ht & _)]]; [|congruence].
    destruct (perform _ s) as [a s1'] eqn:Hc. cbn in Hs1. rewrite Hs1.
    destruct (perform_kept _ _ _ _ _ Hc Hfit) as [Hk Hfit'].
    split; [done|]. split; [done|]. eapply outside_staged; [|exact Hc|done|done]. done.
  - destruct (round_cases interval_us print_rune config handlers env id s)
      as [_ [[_ Hf]|(job & r & s3 & Hc & Hset & -> & _ & _)]]; [congruence|].
    set (s1 := after_claim config env s) in *.
    destruct (perform_kept _ _ _ _ _ Hc Hfit) as [Hk1 Hfit1].
    assert (Hs1 : staged (rt_jobs s1)) by (by eapply outside_staged; [|exact Hc| |]).
    destruct (IH Hfit1 Hs1) as (Hk2 & Hfit2 & Hs2). clear IH.
    destruct (settle_kept interval_us _ _ _ _ _ _ _ _ Hfit2 Hset) as [Hk3 Hfit3].
    split; [etrans; [exact Hk1|]; etrans; [exact Hk2|exact Hk3]|]. split; [done|].
    pose proof (settle_cases interval_us _ _ _ _ _ _ _ _ Hset) as Hcase.
    destruct r as [[]|e]; [|by subst]. destruct Hcase as (c & Hp & Hcase).
    destruct (reconciler_handle print_rune handlers env job) as [result|e].
    + destruct Hcase as (available & now & ->).
      destruct (claim_answer _ _ _ _ _ _ _ _ Hfit Hc) as
        (r0 & r1 & _ & HJ & _ & _ & _ & _ & _ & Hrun & Htask & Hatt & Hstage).
      destruct (Hk2 (Job_ID job) r1) as (r2 & Hl2 & Hkr); [rewrite HJ; apply lookup_insert_eq|].
      pose proof (proj1 (same_job_spec _ _) (jk_identity _ _ Hkr)) as (? & ? & ? & ?).
      eapply completion_staged; [exact Hp|done|done|exact Hl2|congruence..].
    + apply failure_outside in Hcase. by eapply outside_staged.
Qed.

Lemma next_in_lookup l a b :
  next_in l a = Some b -> exists i, l !! i = Some a /\ l !! S i = Some b.
Proof.
  induction l as [|x [|y rest] IH]; [done..|]. cbn [next_in]. case_bool_decide as Hx.
  - intros [= <-]. subst x. by exists 0%nat.
  - intros (i & Hi & Hi')%IH. by exists (S i).
Qed.

Lemma orderedStages_NoDup : NoDup orderedStages.
Proof. unfold orderedStages. repeat constructor; set_solver. Qed.

(** C29: Starting from an empty ledger, whatever the reconcilers do and whatever else is called, as
    long as only the first stage is enqueued directly: when the job of a stage is in the ledger,
    every earlier stage of the same run, task and attempt has completed with a result. *)
Theorem stages_complete_in_order M id n s s' k r i j earlier :
  rt_jobs s = ∅ -> activity interval_us print_rune outside M id n s s' ->
  rt_jobs s' !! k = Some r -> orderedStages !! i = Some (jr_stage r) ->
  orderedStages !! j = Some earlier -> (j < i)%nat -> completed_stage (rt_jobs s') r earlier.
Proof.
  intros Hempty Hact Hl Hi Hj Hji.
  destruct (activity_staged _ _ _ _ _ Hact) as (_ & _ & Hs).
  { by apply empty_tokens_fit. }
  { rewrite Hempty. intros ? ? Hn. by rewrite lookup_empty in Hn. }
  revert k r Hl Hi. induction i as [|i IH]; [lia|]. intros k r Hl Hi.
  destruct (Hs _ _ Hl) as [_ _ _ [Hb|(prev & Hp & Hc)]].
  - assert (S i = 0%nat); [|lia]. eapply NoDup_lookup; [apply orderedStages_NoDup|exact Hi|].
    by rewrite Hb.
  - apply next_in_lookup in Hp as (i' & Hi' & HSi').
    assert (i' = i) as ->.
    { assert (S i' = S i); [|lia]. by eapply NoDup_lookup; [apply orderedStages_NoDup| |]. }
    destruct (decide (j = i)) as [->|Hne]; [by assert (prev = earlier) as <- by congruence|].
    destruct Hc as (k0 & r0 & Hl0 & Hrun & Htask & Hatt & Hstage & _).
    destruct (IH ltac:(lia) _ _ Hl0) as (k1 & r1 & Hl1 & ? & ? & ? & Hrest); [congruence|].
    exists k1, r1. split_and!; congruence || apply Hrest.
Qed.

End stages.

(** ** Witnesses *)

Definition sample_config : Config := mkConfig "owner-1" (30 * Second) Second 2 Second.
Definition sample_env (t : Z) : environment :=
  mkEnvironment (fun _ => at_time t) t ∅ (fun s => s) None (fun _ _ => Ok (art "failure")).
Definition always (r : res HandlerResult) (_ : string) : option Handler := Some (fun _ _ => r).
Definition failing := always (Err (ErrText "tests failed")).
Definition succeeding := always (Ok (mkHandlerResult (art "done") true)).
Definition printable (_ : string) : bool := true.
Definition enqueued : rt_db := snd (perform sample_interval (CallEnqueue start_job) sample_rt).
Definition round (handlers : string -> option Handler) (t : Z) (s : rt_db) : rt_db :=
  snd (Once printable sample_config handlers (sample_env t) s).

(** A round during which nothing else happens. *)
Lemma sample_round allowed id handlers t s n :
  fst (fst (Once printable sample_config handlers (sample_env t) s)) = true ->
  records_failure printable sample_config handlers (sample_env t) id s = (n =? 1)%nat ->
  (n <= 1)%nat ->
  activity sample_interval printable allowed 2 id n s (round handlers t s).
Proof.
  intros Hyes Hrec Hn.
  replace n with (0 + if records_failure printable sample_config handlers (sample_env t) id s
    then 1 else 0)%nat by (rewrite Hrec; destruct n as [|[|n]]; cbn; lia).
  apply act_round; [done|done|]. apply act_none.
Qed.

(** With two retries a failing job is given up after its second failure. *)
Lemma failures_bounded_witness :
  activity sample_interval printable (fun _ => True) 2 "job-1" 2 enqueued
    (round failing 60 (round failing 30 enqueued)) /\
  jr_state <$> rt_jobs (round failing 60 (round failing 30 enqueued)) !! "job-1" = Some JobFailed /\
  Z.of_nat 2 <= 2 * 2 - 1.
Proof.
  assert (Hact : activity sample_interval printable (fun _ => True) 2 "job-1" 2 enqueued
    (round failing 60 (round failing 30 enqueued))).
  { apply (act_then _ _ _ _ _ 1 1 _ (round failing 30 enqueued));
      (apply sample_round; [vm_compute; reflexivity|vm_compute; reflexivity|lia]). }
  split; [exact Hact|]. split; [vm_compute; reflexivity|].
  destruct (rt_jobs enqueued !! "job-1") as [r|] eqn:Hl; [|vm_compute in Hl; discriminate Hl].
  assert (Hfit : tokens_fit (rt_jobs enqueued)).
  { apply (perform_kept sample_interval (CallEnqueue start_job) sample_rt
      (fst (perform sample_interval (CallEnqueue start_job) sample_rt))); [|done].
    unfold enqueued. by destruct (perform _ _ _). }
  assert (Hrow : jr_retry <$> rt_jobs enqueued !! "job-1" = Some 0) by (vm_compute; reflexivity).
  assert (Htr : jr_transient <$> rt_jobs enqueued !! "job-1" = Some 0) by (vm_compute; reflexivity).
  rewrite Hl in Hrow, Htr. injection Hrow as Hrow. injection Htr as Htr.
  exact (failures_bounded sample_interval printable _ 2 "job-1" 2 _ _ r eq_refl Hfit Hl Hrow Htr
    ltac:(lia) Hact).
Defined.

(** After the first stage its successor is in the ledger. *)
Lemma stages_complete_in_order_witness :
  exists k r, rt_jobs (round succeeding 30 enqueued) !! k = Some r /\
    jr_stage r = "implementation_request" /\
    completed_stage (rt_jobs (round succeeding 30 enqueued)) r "start".
Proof.
  assert (Hact : activity sample_interval printable outside 2 "job-1" (0 + 0) sample_rt
    (round succeeding 30 enqueued)).
  { apply (act_then _ _ _ _ _ 0 0 _ enqueued).
    - apply act_call. reflexivity.
    - apply sample_round; [vm_compute; reflexivity|vm_compute; reflexivity|lia]. }
  pose (k := Job_ID (successor printable start_job "implementation_request" (at_time 30))).
  assert (Hst : jr_stage <$> rt_jobs (round succeeding 30 enqueued) !! k =
    Some "implementation_request") by (vm_compute; reflexivity).
  destruct (rt_jobs (round succeeding 30 enqueued) !! k) as [r|] eqn:Hl; [|discriminate Hst].
  injection Hst as Hst. exists k, r. split; [exact Hl|]. split; [exact Hst|].
  apply (stages_complete_in_order sample_interval printable 2 "job-1" (0 + 0) sample_rt _ k r 1 0
    "start" eq_refl Hact Hl); [rewrite Hst; reflexivity|reflexivity|lia].
Defined.
