(* ===== verification/CtMessages.v ===== *)
(** * Transport messages of the reasoning contracts

    The messages of [go/gen/harness/reasoning/v1] as the getters show them: a
    getter of a nil message gives the zero value, so an element of a repeated
    field is never distinguished from the zero message; a singular message is
    an [option] because the program looks whether it is nil.  Enumerations are
    open, as in proto3: any number.  The protobuf runtime itself (timestamps
    and the names of enumeration values) is a parameter of the model. *)

From S2P Require Import Prelude GoStd GoJson.

(** ** The protobuf runtime *)

Record Timestamp := mkTimestamp { Seconds : Z; Nanos : Z }.

Class Protobuf := {
  CheckValid : Timestamp -> res unit;
  AsTime : Timestamp -> time;
  (** [timestamppb.New] *)
  Timestamp_New : time -> Timestamp;
  (** [EnumStringOf] for the values a generated file names *)
  EnumStringOf : list (Z * string) -> Z -> string;
}.

Fixpoint enum_name (names : list (Z * string)) (n : Z) : option string :=
  match names with
  | [] => None
  | (m, name) :: rest => if m =? n then Some name else enum_name rest n
  end.

Class ProtobufLaws `{Protobuf} : Prop := {
  EnumStringOf_named : forall names n name,
    enum_name names n = Some name -> EnumStringOf names n = name;
  (** the text of an unnamed value is its number *)
  EnumStringOf_unnamed : forall names n,
    enum_name names n = None -> EnumStringOf names n = decimal n;
}.

#[export] Instance sample_protobuf : Protobuf := {|
  CheckValid t :=
    if (0 <=? Nanos t) && (Nanos t <? 1000000000) && (-62135596800 <=? Seconds t) &&
       (Seconds t <=? 253402300799)
    then Ok tt else Err (ErrText "proto: timestamp is out of range");
  AsTime t := mkTime (unix_epoch + Seconds t * Second + Nanos t) 0;
  Timestamp_New t :=
    mkTimestamp ((instant t - unix_epoch) / Second) ((instant t - unix_epoch) `mod` Second);
  EnumStringOf names n := default (decimal n) (enum_name names n);
|}.

#[export] Instance sample_protobuf_laws : ProtobufLaws.
Proof. split; intros names n; [intros name|]; cbn; by intros ->. Qed.

(** ** common.proto *)

Definition REASONING_STAGE_SPECIFICATION : Z := 1.
Definition REASONING_STAGE_PLANNING : Z := 2.
Definition REASONING_STAGE_IMPLEMENTATION : Z := 3.
Definition REASONING_STAGE_REVIEW : Z := 4.
Definition AUTHORITY_MODE_PROPOSAL_ONLY : Z := 1.

Definition REJECTION_CODE_UNSPECIFIED : Z := 0.
Definition REJECTION_CODE_SCHEMA_INVALID : Z := 1.
Definition REJECTION_CODE_REQUEST_MISMATCH : Z := 2.
Definition REJECTION_CODE_AUTHORITY_VIOLATION : Z := 3.
Definition REJECTION_CODE_SCOPE_VIOLATION : Z := 4.
Definition REJECTION_CODE_REQUIRED_COVERAGE_MISSING : Z := 5.

Record pb_RejectionDetail := mkRejectionDetail {
  rd_field : string;
  rd_message : string;
}.

Record pb_ProposalRejection := mkProposalRejection {
  pj_code : Z;
  pj_summary : string;
  pj_details : list pb_RejectionDetail;
  pj_retryable : bool;
  pj_request_id : string;
  pj_run_id : string;
  pj_task_id : option string;
  pj_attempt : Z;
  pj_timestamp : option Timestamp;
}.

Record pb_AuthorityConstraints := mkAuthority {
  ac_mode : Z;
  ac_may_mutate_kernel_state : bool;
  ac_may_execute_commands : bool;
  ac_may_modify_files : bool;
  ac_may_expand_scope : bool;
  ac_may_approve_work : bool;
}.

Record pb_ReasoningBudget := mkBudget {
  rb_maximum_input_tokens : Z;
  rb_maximum_output_tokens : Z;
  rb_maximum_provider_requests : Z;
}.

Record pb_ArtifactDigest := mkArtifactDigest {
  ad_artifact_uri : string;
  ad_sha256 : string;
}.

Record pb_ReasoningRequestEnvelope := mkRequestEnvelope {
  re_schema_version : string;
  re_request_id : string;
  re_run_id : string;
  re_task_id : option string;
  re_stage : Z;
  re_attempt : Z;
  re_created_at : option Timestamp;
  re_expires_at : option Timestamp;
  re_authority : option pb_AuthorityConstraints;
  re_budget : option pb_ReasoningBudget;
  re_input_artifacts : list pb_ArtifactDigest;
  re_agent_manifest_digest : string;
}.

Record pb_ProposalIdentity := mkIdentity {
  pi_schema_version : string;
  pi_request_id : string;
  pi_run_id : string;
  pi_task_id : option string;
  pi_stage : Z;
  pi_attempt : Z;
  pi_agent_manifest_digest : string;
  pi_input_artifact_digests : list string;
}.

(** A string getter of an optional field. *)
Definition get_string (v : option string) : string := default "" v.

(** ** specification.proto *)

Record pb_SpecificationRequest := mkSpecificationRequest {
  sr_envelope : option pb_ReasoningRequestEnvelope;
  sr_problem_statement : string;
  sr_desired_outcome : string;
  sr_known_constraints : list string;
  sr_known_non_goals : list string;
  sr_stakeholders : list string;
  sr_repository_summary : option string;
}.

Record pb_AcceptanceCriterion := mkCriterion {
  cr_criterion_id : string;
  cr_description : string;
  cr_verification_method : string;
}.

Record pb_SpecificationRisk := mkSpecRisk {
  sk_risk_id : string;
  sk_description : string;
  sk_mitigation : string;
}.

Record pb_SpecificationQuestion := mkSpecQuestion {
  sq_question_id : string;
  sq_question : string;
  sq_blocking : bool;
}.

Record pb_SpecificationProposal := mkSpecificationProposal {
  sp_identity : option pb_ProposalIdentity;
  sp_title : string;
  sp_goal : string;
  sp_actors : list string;
  sp_constraints : list string;
  sp_non_goals : list string;
  sp_acceptance_criteria : list pb_AcceptanceCriterion;
  sp_assumptions : list string;
  sp_risks : list pb_SpecificationRisk;
  sp_questions : list pb_SpecificationQuestion;
}.

(** ** planning.proto *)

Record pb_RepositoryEntry := mkRepositoryEntry {
  ry_path : string;
  ry_kind : string;
  ry_sha256 : string;
}.

Record pb_TaskPlanningRequest := mkPlanningRequest {
  pr_envelope : option pb_ReasoningRequestEnvelope;
  pr_approved_specification_id : string;
  pr_approved_specification_digest : string;
  pr_repository_map : list pb_RepositoryEntry;
  pr_readable_paths : list string;
  pr_writable_paths : list string;
  pr_prohibited_paths : list string;
  pr_task_count_limit : Z;
  pr_parallelism_limit : Z;
  pr_acceptance_criterion_ids : list string;
}.

(** A dependency is its task identifier. *)
Record pb_PlannedTask := mkPbTask {
  pt_task_id : string;
  pt_objective : string;
  pt_dependencies : list string;
  pt_acceptance_criterion_ids : list string;
  pt_readable_paths : list string;
  pt_writable_paths : list string;
  pt_prohibited_paths : list string;
  pt_exclusive_resources : list string;
  pt_required_check_ids : list string;
  pt_stop_conditions : list string;
}.

Record pb_TaskGraphProposal := mkGraphProposal {
  tg_identity : option pb_ProposalIdentity;
  tg_approved_specification_id : string;
  tg_approved_specification_digest : string;
  tg_tasks : list pb_PlannedTask;
  tg_assumptions : list string;
  tg_unresolved_scope_questions : list string;
}.

(** ** implementation.proto *)

Definition FILE_OPERATION_CREATE : Z := 1.
Definition FILE_OPERATION_UPDATE : Z := 2.
Definition FILE_OPERATION_DELETE : Z := 3.

Definition FileOperation_name : list (Z * string) :=
  [(0, "FILE_OPERATION_UNSPECIFIED"); (1, "FILE_OPERATION_CREATE"); (2, "FILE_OPERATION_UPDATE");
   (3, "FILE_OPERATION_DELETE")].

Record pb_RepositoryContextFile := mkContextFile {
  rf_path : string;
  rf_sha256 : string;
  rf_content : string;
}.

Record pb_ImplementationRequest := mkImplementationRequest {
  ir_envelope : option pb_ReasoningRequestEnvelope;
  ir_approved_task_id : string;
  ir_approved_task_digest : string;
  ir_approved_specification_id : string;
  ir_approved_specification_digest : string;
  ir_base_commit : string;
  ir_readable_paths : list string;
  ir_writable_paths : list string;
  ir_prohibited_paths : list string;
  ir_acceptance_criterion_ids : list string;
  ir_available_check_ids : list string;
  ir_repository_context : list pb_RepositoryContextFile;
}.

Record pb_FileChange := mkPbChange {
  fc_path : string;
  fc_operation : Z;
  fc_expected_original_sha256 : string;
  fc_replacement_content : option string;
  fc_rationale : string;
  fc_acceptance_criterion_ids : list string;
}.

Record pb_ScopeChangeRequest := mkScopeChange {
  sc_summary : string;
  sc_requested_readable_paths : list string;
  sc_requested_writable_paths : list string;
  sc_requested_acceptance_criterion_ids : list string;
  sc_requested_check_ids : list string;
}.

Record pb_ImplementationProposal := mkPbImplementation {
  ip_identity : option pb_ProposalIdentity;
  ip_approved_task_id : string;
  ip_approved_task_digest : string;
  ip_approved_specification_digest : string;
  ip_summary : string;
  ip_changes : list pb_FileChange;
  ip_requested_declared_check_ids : list string;
  ip_assumptions : list string;
  ip_unresolved_questions : list string;
  ip_scope_change_request : option pb_ScopeChangeRequest;
}.

(** ** review.proto *)

Definition REVIEW_RECOMMENDATION_REWORK_REQUIRED : Z := 1.
Definition REVIEW_RECOMMENDATION_ADVISORY_ACCEPT : Z := 2.
Definition FINDING_SEVERITY_UNSPECIFIED : Z := 0.
Definition FINDING_SEVERITY_HIGH : Z := 4.
Definition FINDING_SEVERITY_CRITICAL : Z := 5.
Definition FINDING_CATEGORY_UNSPECIFIED : Z := 0.

Definition ReviewRecommendation_name : list (Z * string) :=
  [(0, "REVIEW_RECOMMENDATION_UNSPECIFIED"); (1, "REVIEW_RECOMMENDATION_REWORK_REQUIRED");
   (2, "REVIEW_RECOMMENDATION_ADVISORY_ACCEPT")].

Definition FindingSeverity_name : list (Z * string) :=
  [(0, "FINDING_SEVERITY_UNSPECIFIED"); (1, "FINDING_SEVERITY_INFO"); (2, "FINDING_SEVERITY_LOW");
   (3, "FINDING_SEVERITY_MEDIUM"); (4, "FINDING_SEVERITY_HIGH"); (5, "FINDING_SEVERITY_CRITICAL")].

Definition FindingCategory_name : list (Z * string) :=
  [(0, "FINDING_CATEGORY_UNSPECIFIED"); (1, "FINDING_CATEGORY_CORRECTNESS");
   (2, "FINDING_CATEGORY_SECURITY"); (3, "FINDING_CATEGORY_SCOPE"); (4, "FINDING_CATEGORY_TESTING");
   (5, "FINDING_CATEGORY_MAINTAINABILITY"); (6, "FINDING_CATEGORY_COMPATIBILITY")].

Record pb_ReviewCandidateIdentity := mkPbCandidate {
  ci_approved_specification_digest : string;
  ci_approved_task_digest : string;
  ci_base_commit : string;
  ci_candidate_commit : string;
  ci_implementation_proposal_digest : string;
}.

Record pb_ActualDiffFile := mkPbDiff {
  df_path : string;
  df_operation : Z;
  df_before_sha256 : string;
  df_after_sha256 : string;
}.

Record pb_ScopeReport := mkPbScope {
  ss_authorized_changed_paths : list string;
  ss_unexpected_changed_paths : list string;
}.

Record pb_IndependentEvidence := mkPbEvidence {
  ie_evidence_id : string;
  ie_check_id : string;
  ie_candidate_commit : string;
  ie_exit_code : Z;
  ie_output_sha256 : string;
  ie_artifact_uri : string;
  ie_started_at : option Timestamp;
  ie_completed_at : option Timestamp;
}.

Record pb_AcceptanceEvidence := mkPbCoverage {
  ae_acceptance_criterion_id : string;
  ae_evidence_ids : list string;
}.

Record pb_ReviewPolicy := mkPbPolicy {
  rp_blocking_severities : list Z;
  rp_report_unrequested_changes : bool;
}.

Record pb_ReviewRequest := mkPbReviewRequest {
  rr_envelope : option pb_ReasoningRequestEnvelope;
  rr_candidate : option pb_ReviewCandidateIdentity;
  rr_actual_diff : list pb_ActualDiffFile;
  rr_scope_report : option pb_ScopeReport;
  rr_independent_evidence : list pb_IndependentEvidence;
  rr_acceptance_coverage : list pb_AcceptanceEvidence;
  rr_review_policy : option pb_ReviewPolicy;
  rr_approved_acceptance_criterion_ids : list string;
  rr_authorized_writable_paths : list string;
}.

Record pb_ReviewFinding := mkPbFinding {
  rg_finding_id : string;
  rg_severity : Z;
  rg_category : Z;
  rg_summary : string;
  rg_evidence_references : list string;
}.

Record pb_RequiredAction := mkPbAction {
  ra_action_id : string;
  ra_finding_id : string;
  ra_description : string;
}.

Record pb_ResidualRisk := mkPbRisk {
  rk_risk_id : string;
  rk_description : string;
  rk_severity : Z;
}.

Record pb_ReviewProposal := mkPbReview {
  rv_identity : option pb_ProposalIdentity;
  rv_recommendation : Z;
  rv_findings : list pb_ReviewFinding;
  rv_required_actions : list pb_RequiredAction;
  rv_unrequested_changes : list string;
  rv_residual_risks : list pb_ResidualRisk;
  rv_assumptions : list string;
}.

(** ** The wire format *)

(** [proto.MarshalOptions{Deterministic: true}.Marshal] and [proto.Unmarshal] *)
Class Wire := {
  marshal_implementation_request : option pb_ImplementationRequest -> res string;
  marshal_implementation_proposal : option pb_ImplementationProposal -> res string;
  marshal_review_request : option pb_ReviewRequest -> res string;
  marshal_review_proposal : option pb_ReviewProposal -> res string;
  unmarshal_implementation_request : string -> res pb_ImplementationRequest;
  unmarshal_implementation_proposal : string -> res pb_ImplementationProposal;
  unmarshal_review_request : string -> res pb_ReviewRequest;
  unmarshal_review_proposal : string -> res pb_ReviewProposal;
  unmarshal_specification_proposal : string -> res pb_SpecificationProposal;
  marshal_specification_proposal : option pb_SpecificationProposal -> res string;
  marshal_task_graph_proposal : option pb_TaskGraphProposal -> res string;
  marshal_planned_task : option pb_PlannedTask -> res string;
  marshal_rejection : option pb_ProposalRejection -> res string;
  unmarshal_task_graph_proposal : string -> res pb_TaskGraphProposal;
  unmarshal_planned_task : string -> res pb_PlannedTask;
}.
