(* ===== verification/CtCommon.v ===== *)
(** * The common part of the reasoning contracts

    Models [go/internal/reasoning/contracts/common.go] and [validation.go]: the
    envelope of a request, its authority, budget, lifetime and artifacts, and
    the identity a proposal must repeat. *)

From S2P Require Import Prelude GoStd GoJson GoText WfTypes CtMessages.

(** ** Rejections *)

Definition validationFailure {A} (code : Z) (field message : string) : res A :=
  Err (ErrRejected code field message).

(** [Error()] of an error value. *)
Fixpoint error_text (e : error) : string :=
  match e with
  | ErrNew name => name
  | ErrText msg => msg
  | ErrWrap inner msg => msg +:+ ": " +:+ error_text inner
  | ErrPg code => code
  | ErrRejected _ field message => if field == "" then message else field +:+ ": " +:+ message
  | ErrJoin first second => error_text first +:+ String (byte 10) (error_text second)
  end.

(** [ValidationCode]: the rejection code along the chain. *)
Fixpoint ValidationCode (e : error) : option Z :=
  match e with
  | ErrRejected code _ _ => Some code
  | ErrWrap inner _ => ValidationCode inner
  | ErrJoin first second =>
      match ValidationCode first with Some code => Some code | None => ValidationCode second end
  | _ => None
  end.

(** Rejected with a code, keeping the text of the cause. *)
Definition rejecting {A} (code : Z) (field : string) (r : res A) : res A :=
  map_err (fun e => ErrRejected code field (error_text e)) r.

(** [if condition { return err }] *)
Definition unless (reject : bool) (e : error) : res unit := if reject then Err e else Ok tt.

(** ** Data *)

Inductive Stage := StageSpecification | StagePlanning | StageImplementation | StageReview.
#[global] Instance Stage_eq_dec : EqDecision Stage.
Proof. solve_decision. Defined.

Record Artifact := mkArtifact { Artifact_URI : string; Artifact_SHA256 : string }.

Record Envelope := mkEnvelopeOf {
  Env_SchemaVersion : string;
  Env_RequestID : string;
  Env_RunID : string;
  Env_TaskID : option string;
  Env_Stage : Stage;
  Env_Attempt : Z;
  Env_CreatedAt : time;
  Env_ExpiresAt : time;
  MaximumInputTokens : Z;
  MaximumOutputTokens : Z;
  MaximumRequests : Z;
  InputArtifacts : list Artifact;
  AgentManifestDigest : string;
}.

(** ** Validation *)

Definition mapStage (value : Z) : res Stage :=
  if value =? REASONING_STAGE_SPECIFICATION then Ok StageSpecification
  else if value =? REASONING_STAGE_PLANNING then Ok StagePlanning
  else if value =? REASONING_STAGE_IMPLEMENTATION then Ok StageImplementation
  else if value =? REASONING_STAGE_REVIEW then Ok StageReview
  else Err (ErrText "unknown reasoning stage").

(** Whether the stage maps to the expected one. *)
Definition stage_is (value : Z) (expected : Stage) : bool :=
  match mapStage value with Ok stage => stage == expected | Err _ => false end.

Definition validateAuthority (value : option pb_AuthorityConstraints) : res unit :=
  unless
    match value with
    | None => true
    | Some v =>
        negb (ac_mode v =? AUTHORITY_MODE_PROPOSAL_ONLY) || ac_may_mutate_kernel_state v ||
        ac_may_execute_commands v || ac_may_modify_files v || ac_may_expand_scope v ||
        ac_may_approve_work v
    end
    (ErrText "authority violation: proposal_only with all capabilities false is required").

Definition validateEnvelopeHeader (value : pb_ReasoningRequestEnvelope) (expected : Stage)
    : res Stage :=
  unless (negb (stage_is (re_stage value) expected)) (ErrText "unexpected reasoning stage") ;;
  validateAuthority (re_authority value) ;;
  unless ((re_schema_version value != "1") || (re_request_id value == "") ||
          (re_run_id value == "")) (ErrText "invalid envelope identity") ;;
  Ok expected.

Definition validateEnvelopeBudget (value : pb_ReasoningRequestEnvelope) : res unit :=
  unless
    match re_budget value with
    | None => true
    | Some b =>
        (rb_maximum_input_tokens b =? 0) || (rb_maximum_output_tokens b =? 0) ||
        (rb_maximum_provider_requests b =? 0)
    end
    (ErrText "positive reasoning budget is required").

Definition artifact_ok (artifact : pb_ArtifactDigest) : bool :=
  digestPattern (ad_sha256 artifact) &&
  (ad_artifact_uri artifact == "artifact://sha256/" +:+ ad_sha256 artifact).

Definition mapArtifacts (values : list pb_ArtifactDigest) : res (list Artifact) :=
  map_each (fun artifact =>
    if negb (artifact_ok artifact) then Err (ErrText "invalid input artifact")
    else Ok (mkArtifact (ad_artifact_uri artifact) (ad_sha256 artifact))) values.

Section envelopes.
Context `{Protobuf}.

Definition mapEnvelopeTimes (value : pb_ReasoningRequestEnvelope) : res (time * time) :=
  match re_created_at value, re_expires_at value with
  | Some created_at, Some expires_at =>
      if re_attempt value =? 0 then Err (ErrText "invalid attempt or timestamps")
      else
        map_err (fun e => ErrWrap e "created_at") (CheckValid created_at) ;;
        map_err (fun e => ErrWrap e "expires_at") (CheckValid expires_at) ;;
        let created := AsTime created_at in
        let expires := AsTime expires_at in
        if negb (After expires created) then Err (ErrText "expires_at must follow created_at")
        else Ok (created, expires)
  | _, _ => Err (ErrText "invalid attempt or timestamps")
  end.

Definition MapEnvelope (value : option pb_ReasoningRequestEnvelope) (expected : Stage)
    : res Envelope :=
  match value with
  | None => Err (ErrText "envelope is required")
  | Some value =>
      stage ← validateEnvelopeHeader value expected;
      '(created, expires) ← mapEnvelopeTimes value;
      validateEnvelopeBudget value ;;
      unless (negb (digestPattern (re_agent_manifest_digest value)))
        (ErrText "invalid agent manifest digest") ;;
      artifacts ← mapArtifacts (re_input_artifacts value);
      let budget := default (mkBudget 0 0 0) (re_budget value) in
      Ok (mkEnvelopeOf (re_schema_version value) (re_request_id value) (re_run_id value)
            (re_task_id value) stage (re_attempt value) created expires
            (rb_maximum_input_tokens budget) (rb_maximum_output_tokens budget)
            (rb_maximum_provider_requests budget) artifacts (re_agent_manifest_digest value))
  end.

End envelopes.

(** The task of the proposal is the task of the request. *)
Definition same_task (proposal request : option string) : bool := proposal == request.

(** The digests at the positions of the request's artifacts. *)
Fixpoint same_digests (digests : list string) (artifacts : list Artifact) : bool :=
  match artifacts, digests with
  | [], _ => true
  | a :: artifacts', d :: digests' => (d == Artifact_SHA256 a) && same_digests digests' artifacts'
  | _ :: _, [] => false
  end.

Definition validateProposalIdentity (value : pb_ProposalIdentity) (request : Envelope)
    (expected : Stage) : res unit :=
  let mismatch := ErrText "proposal request identity mismatch" in
  unless (negb (stage_is (pi_stage value) expected) ||
          (pi_schema_version value != Env_SchemaVersion request) ||
          (pi_request_id value != Env_RequestID request) ||
          (pi_run_id value != Env_RunID request) ||
          negb (pi_attempt value =? Env_Attempt request) ||
          (pi_agent_manifest_digest value != AgentManifestDigest request)) mismatch ;;
  unless (negb (same_task (pi_task_id value) (Env_TaskID request)) ||
          negb (length (pi_input_artifact_digests value) =? length (InputArtifacts request))%nat)
    mismatch ;;
  unless (negb (same_digests (pi_input_artifact_digests value) (InputArtifacts request))) mismatch.

(** ** Guards *)

Lemma unless_Ok b e : unless b e = Ok tt <-> b = false.
Proof. unfold unless. by destruct b. Qed.

Lemma unless_unit b e u : unless b e = Ok u <-> b = false.
Proof. destruct u. apply unless_Ok. Qed.

Lemma for_each_unless {A} (f : A -> bool) e l :
  for_each (fun a => unless (f a) e) l = Ok tt <-> forall a, a ∈ l -> f a = false.
Proof.
  rewrite for_each_Ok, Forall_forall. by setoid_rewrite unless_Ok.
Qed.

Lemma then_Ok {A} (m : res unit) (r : res A) a :
  (m ;; r) = Ok a <-> m = Ok tt /\ r = Ok a.
Proof. destruct m as [[]|e]; cbn; naive_solver. Qed.

Lemma length_zero {A} (l : list A) : (length l =? 0)%nat = false <-> l <> [].
Proof. destruct l; cbn; split; done. Qed.

(** A check of every element that gives the element back. *)
Lemma map_each_same {A} (p : A -> res A) l k :
  (forall a b, p a = Ok b -> b = a) ->
  map_each p l = Ok k <-> k = l /\ forall a, a ∈ l -> p a = Ok a.
Proof.
  intros Hp. rewrite map_each_Ok. revert k. induction l as [|a l IH]; intros k.
  - split; [intros ->%Forall2_nil_inv_l; split; [done|]; intros a Ha; by apply elem_of_nil in Ha|].
    intros [-> _]. constructor.
  - split.
    + intros (b & k' & Hb & Hk & ->)%Forall2_cons_inv_l. apply IH in Hk as [-> Hk].
      pose proof (Hp _ _ Hb) as ->. split; [done|]. intros c [->|Hc]%elem_of_cons; auto.
    + intros [-> Hk]. constructor; [apply Hk; by left|]. apply IH. split; [done|].
      intros c Hc. apply Hk. by right.
Qed.

Lemma string_nonempty s : bool_decide (s = "") = false <-> s <> "".
Proof. apply bool_decide_eq_false. Qed.

(** ** Errors with a code *)

Lemma rejecting_Ok {A} code field (r : res A) a : rejecting code field r = Ok a <-> r = Ok a.
Proof. unfold rejecting. destruct r; cbn; naive_solver. Qed.

Lemma map_err_Ok {A} f (r : res A) a : map_err f r = Ok a <-> r = Ok a.
Proof. destruct r; cbn; naive_solver. Qed.

(** ** Identities *)

Definition stage_number (s : Stage) : Z :=
  match s with
  | StageSpecification => REASONING_STAGE_SPECIFICATION
  | StagePlanning => REASONING_STAGE_PLANNING
  | StageImplementation => REASONING_STAGE_IMPLEMENTATION
  | StageReview => REASONING_STAGE_REVIEW
  end.

Lemma stage_is_spec n s : stage_is n s = true <-> n = stage_number s.
Proof.
  unfold stage_is, mapStage, REASONING_STAGE_SPECIFICATION, REASONING_STAGE_PLANNING,
    REASONING_STAGE_IMPLEMENTATION, REASONING_STAGE_REVIEW.
  destruct (Z.eqb_spec n 1) as [->|H1]; [by destruct s|].
  destruct (Z.eqb_spec n 2) as [->|H2]; [by destruct s|].
  destruct (Z.eqb_spec n 3) as [->|H3]; [by destruct s|].
  destruct (Z.eqb_spec n 4) as [->|H4]; [by destruct s|].
  split; [done|]. by destruct s.
Qed.

(** The proposal answers the request: it repeats its identity, and the digests
    of its artifacts in their order. *)
Record answers (request : Envelope) (s : Stage) (i : pb_ProposalIdentity) : Prop := {
  an_stage : pi_stage i = stage_number s;
  an_version : pi_schema_version i = Env_SchemaVersion request;
  an_request : pi_request_id i = Env_RequestID request;
  an_run : pi_run_id i = Env_RunID request;
  an_task : pi_task_id i = Env_TaskID request;
  an_attempt : pi_attempt i = Env_Attempt request;
  an_manifest : pi_agent_manifest_digest i = AgentManifestDigest request;
  an_artifacts : pi_input_artifact_digests i = map Artifact_SHA256 (InputArtifacts request);
}.

Lemma same_digests_spec ds artifacts :
  length ds = length artifacts ->
  same_digests ds artifacts = true <-> ds = map Artifact_SHA256 artifacts.
Proof.
  revert ds. induction artifacts as [|a artifacts IH]; intros [|d ds] Hl; cbn in *; try done.
  rewrite andb_true_iff, bool_decide_eq_true, IH by lia. naive_solver.
Qed.

Lemma artifact_digests_spec ds artifacts :
  negb (length ds =? length artifacts)%nat = false /\ negb (same_digests ds artifacts) = false <->
  ds = map Artifact_SHA256 artifacts.
Proof.
  rewrite !negb_false_iff, Nat.eqb_eq. split.
  - intros [Hl Hs]. by apply same_digests_spec.
  - intros ->. rewrite length_map. split; [done|]. apply same_digests_spec; [|done].
    by rewrite length_map.
Qed.

Lemma validateProposalIdentity_spec i request s :
  validateProposalIdentity i request s = Ok tt <-> answers request s i.
Proof.
  unfold validateProposalIdentity, same_task.
  rewrite !then_Ok, !unless_Ok, !orb_false_iff, (negb_false_iff (stage_is _ _)), stage_is_spec.
  rewrite !(negb_false_iff (bool_decide _)), !bool_decide_eq_true, (negb_false_iff (_ =? _)%Z),
    Z.eqb_eq.
  pose proof (artifact_digests_spec (pi_input_artifact_digests i) (InputArtifacts request)).
  split; [intros (Ha & Hb & Hc); split; tauto|intros []; tauto].
Qed.
