(* ===== verification/CtPlanning.v ===== *)
(** * Contracts of specification and planning *)

From S2P Require Import Prelude GoStd GoJson GoText WfTypes CtMessages CtCommon.

(** * Specification contracts

    Models [go/internal/reasoning/contracts/specification.go]. *)

(** [^AC-[0-9]{3}$] *)
Definition criterionID : string -> bool := matches (Cat (literal "AC-") (times 3 digit)).

Record SpecificationRequest := mkSpecificationRequestOf {
  SR_Envelope : Envelope;
  ProblemStatement : string;
  DesiredOutcome : string;
  KnownConstraints : list string;
  KnownNonGoals : list string;
  Stakeholders : list string;
  RepositorySummary : option string;
}.

Record AcceptanceCriterion := mkAcceptanceCriterion {
  AC_ID : string;
  AC_Description : string;
  VerificationMethod : string;
}.

Record SpecificationRisk := mkSpecificationRisk {
  SRisk_ID : string;
  SRisk_Description : string;
  Mitigation : string;
}.

Record SpecificationQuestion := mkSpecificationQuestion {
  Question_ID : string;
  Question : string;
  Blocking : bool;
}.

Record SpecificationProposal := mkSpecificationProposalOf {
  Title : string;
  Goal : string;
  Actors : list string;
  Constraints : list string;
  NonGoals : list string;
  AcceptanceCriteria : list AcceptanceCriterion;
  SP_Assumptions : list string;
  Risks : list SpecificationRisk;
  Questions : list SpecificationQuestion;
}.

Definition MapSpecificationRequest `{Protobuf} (value : option pb_SpecificationRequest)
    : res SpecificationRequest :=
  match value with
  | None => Err (ErrText "specification request is required")
  | Some value =>
      envelope ← MapEnvelope (sr_envelope value) StageSpecification;
      unless ((sr_problem_statement value == "") || (sr_desired_outcome value == "") ||
              (length (sr_stakeholders value) =? 0)%nat)
        (ErrText "incomplete specification request") ;;
      Ok (mkSpecificationRequestOf envelope (sr_problem_statement value)
            (sr_desired_outcome value) (sr_known_constraints value) (sr_known_non_goals value)
            (sr_stakeholders value) (sr_repository_summary value))
  end.

Fixpoint mapAcceptanceCriteria_loop (values : list pb_AcceptanceCriterion) (seen : gset string)
    : res (list AcceptanceCriterion) :=
  match values with
  | [] => Ok []
  | criterion :: rest =>
      if negb (criterionID (cr_criterion_id criterion)) || (cr_description criterion == "") ||
         (cr_verification_method criterion == "")
      then Err (ErrText "invalid acceptance criterion")
      else if bool_decide (cr_criterion_id criterion ∈ seen)
      then Err (ErrText "duplicate acceptance criterion")
      else
        criteria ← mapAcceptanceCriteria_loop rest ({[cr_criterion_id criterion]} ∪ seen);
        Ok (mkAcceptanceCriterion (cr_criterion_id criterion) (cr_description criterion)
              (cr_verification_method criterion) :: criteria)
  end.

Definition mapAcceptanceCriteria (values : list pb_AcceptanceCriterion)
    : res (list AcceptanceCriterion) := mapAcceptanceCriteria_loop values ∅.

Definition mapSpecificationRisks (values : list pb_SpecificationRisk)
    : res (list SpecificationRisk) :=
  map_each (fun risk =>
    if (sk_risk_id risk == "") || (sk_description risk == "") || (sk_mitigation risk == "")
    then Err (ErrText "invalid specification risk")
    else Ok (mkSpecificationRisk (sk_risk_id risk) (sk_description risk) (sk_mitigation risk)))
    values.

Definition mapSpecificationQuestions (values : list pb_SpecificationQuestion)
    : res (list SpecificationQuestion) :=
  map_each (fun question =>
    if (sq_question_id question == "") || (sq_question question == "")
    then Err (ErrText "invalid specification question")
    else Ok (mkSpecificationQuestion (sq_question_id question) (sq_question question)
               (sq_blocking question))) values.

Definition MapSpecificationProposal (value : option pb_SpecificationProposal)
    (request : SpecificationRequest) : res SpecificationProposal :=
  match value with
  | None => Err (ErrText "specification proposal identity is required")
  | Some value =>
      match sp_identity value with
      | None => Err (ErrText "specification proposal identity is required")
      | Some ident =>
          validateProposalIdentity ident (SR_Envelope request) StageSpecification ;;
          unless ((sp_title value == "") || (sp_goal value == "") ||
                  (length (sp_actors value) =? 0)%nat ||
                  (length (sp_acceptance_criteria value) =? 0)%nat)
            (ErrText "incomplete specification proposal") ;;
          criteria ← mapAcceptanceCriteria (sp_acceptance_criteria value);
          risks ← mapSpecificationRisks (sp_risks value);
          questions ← mapSpecificationQuestions (sp_questions value);
          Ok (mkSpecificationProposalOf (sp_title value) (sp_goal value) (sp_actors value)
                (sp_constraints value) (sp_non_goals value) criteria (sp_assumptions value) risks
                questions)
      end
  end.

(** * Task planning contracts

    Models [go/internal/reasoning/contracts/planning.go]: the paths of a
    repository, the scopes of a request and of each planned task, the coverage
    of the acceptance criteria and the search for a cycle among the tasks.  A
    Go map used as a set is a [gset]; one iterated over is taken in any order
    ([arbitrary_order]). *)

(** ** Patterns *)

Definition hyphen_or (p : ascii -> bool) : regexp := Class (fun c => p c || (c == "-"%char)).

(** [[0-9a-f]{8}-[0-9a-f]{4}-[1-5][0-9a-f]{3}-[89ab][0-9a-f]{3}-[0-9a-f]{12}] *)
Definition uuid_pattern : regexp :=
  seq [times 8 hex; literal "-"; times 4 hex; literal "-"; Class (in_range "1" "5"); times 3 hex;
       literal "-"; Class (fun c => in_range "8" "9" c || in_range "a" "b" c); times 3 hex;
       literal "-"; times 12 hex].

(** [^(TASK-[0-9]{3}|uuid)$] *)
Definition taskIDPattern : string -> bool :=
  matches (Or (Cat (literal "TASK-") (times 3 digit)) uuid_pattern).

(** [^(CHECK-[A-Z0-9][A-Z0-9-]*|[a-z][a-z0-9-]*-v[0-9]+)$] *)
Definition checkIDPattern : string -> bool :=
  let upper c := is_upper c || is_digit c in
  let lower c := is_lower c || is_digit c in
  matches (Or (seq [literal "CHECK-"; Class upper; Many (hyphen_or upper)])
              (seq [Class is_lower; Many (hyphen_or lower); literal "-v"; some digit])).

(** [^[a-z][a-z0-9-]{0,62}$] *)
Definition resourcePattern : string -> bool :=
  matches (Cat (Class is_lower) (up_to 62 (hyphen_or (fun c => is_lower c || is_digit c)))).

(** ** Data *)

Record RepositoryEntry := mkRepositoryEntryOf {
  Entry_Path : string;
  Entry_Kind : string;
  Entry_SHA256 : string;
}.

Record TaskPlanningRequest := mkTaskPlanningRequest {
  PR_Envelope : Envelope;
  PR_ApprovedSpecificationID : string;
  PR_ApprovedSpecificationDigest : string;
  RepositoryMap : list RepositoryEntry;
  PR_ReadablePaths : list string;
  PR_WritablePaths : list string;
  PR_ProhibitedPaths : list string;
  TaskCountLimit : Z;
  ParallelismLimit : Z;
  PR_AcceptanceCriterionIDs : list string;
}.

Record PlannedTask := mkPlannedTask {
  PT_ID : string;
  Objective : string;
  Dependencies : list string;
  PT_AcceptanceCriterionIDs : list string;
  PT_ReadablePaths : list string;
  PT_WritablePaths : list string;
  PT_ProhibitedPaths : list string;
  ExclusiveResources : list string;
  RequiredCheckIDs : list string;
  StopConditions : list string;
}.

Record TaskGraphProposal := mkTaskGraphProposal {
  Tasks : list PlannedTask;
  TG_Assumptions : list string;
  UnresolvedScopeQuestions : list string;
}.

(** ** Paths *)

Definition validRepoPath (value : string) : bool :=
  (value != "") && (value != ".") && negb (HasPrefix value "/") &&
  negb (Contains value (String backslash "")) && (path_Clean value == value) &&
  negb (HasPrefix value "../").

Definition pathWithin (value : string) (roots : list string) : bool :=
  existsb (fun root => (value == root) || HasPrefix value (root +:+ "/")) roots.

Definition pathsWithin (values roots : list string) : bool :=
  forallb (fun value => pathWithin value roots) values.

(** Whether one of the two paths is within the other. *)
Definition overlapping (writablePath prohibitedPath : string) : bool :=
  pathWithin writablePath [prohibitedPath] || pathWithin prohibitedPath [writablePath].

Definition validatePathScopes (readable writable prohibited : list string) : res unit :=
  unless (length readable =? 0)%nat (ErrText "readable paths are required") ;;
  for_each (for_each (fun value =>
    unless (negb (validRepoPath value)) (ErrText "invalid repository-relative path")))
    [readable; writable; prohibited] ;;
  unless (negb (pathsWithin writable readable)) (ErrText "writable paths must be readable") ;;
  for_each (fun writablePath =>
    for_each (fun prohibitedPath =>
      unless (overlapping writablePath prohibitedPath)
        (ErrText "writable and prohibited paths overlap")) prohibited) writable.

(** ** Criteria *)

Fixpoint validCriteria_loop (values : list string) (seen : gset string) : bool :=
  match values with
  | [] => true
  | value :: rest =>
      if negb (criterionID value) then false
      else if bool_decide (value ∈ seen) then false
      else validCriteria_loop rest ({[value]} ∪ seen)
  end.

Definition validCriteria (values : list string) : bool := validCriteria_loop values ∅.

(** ** Requests *)

Definition mapRepositoryEntry (entry : pb_RepositoryEntry) : res RepositoryEntry :=
  if negb (validRepoPath (ry_path entry)) || (ry_kind entry == "") ||
     negb (digestPattern (ry_sha256 entry))
  then Err (ErrText "invalid repository map entry")
  else Ok (mkRepositoryEntryOf (ry_path entry) (ry_kind entry) (ry_sha256 entry)).

Definition MapTaskPlanningRequest `{Protobuf} (value : option pb_TaskPlanningRequest)
    : res TaskPlanningRequest :=
  match value with
  | None => Err (ErrText "task planning request is required")
  | Some value =>
      envelope ← MapEnvelope (pr_envelope value) StagePlanning;
      unless ((pr_approved_specification_id value == "") ||
              negb (digestPattern (pr_approved_specification_digest value)) ||
              (pr_task_count_limit value =? 0) || (pr_parallelism_limit value =? 0) ||
              (length (pr_acceptance_criterion_ids value) =? 0)%nat)
        (ErrText "incomplete task planning request") ;;
      unless (length (pr_repository_map value) =? 0)%nat (ErrText "repository map is required") ;;
      repositoryMap ← map_each mapRepositoryEntry (pr_repository_map value);
      validatePathScopes (pr_readable_paths value) (pr_writable_paths value)
        (pr_prohibited_paths value) ;;
      unless (negb (validCriteria (pr_acceptance_criterion_ids value)))
        (ErrText "invalid acceptance criteria") ;;
      Ok (mkTaskPlanningRequest envelope (pr_approved_specification_id value)
            (pr_approved_specification_digest value) repositoryMap (pr_readable_paths value)
            (pr_writable_paths value) (pr_prohibited_paths value) (pr_task_count_limit value)
            (pr_parallelism_limit value) (pr_acceptance_criterion_ids value))
  end.

(** ** Proposals *)

Fixpoint collectTaskIDs_loop (values : list pb_PlannedTask) (known : gset string)
    : res (gset string) :=
  match values with
  | [] => Ok known
  | task :: rest =>
      if negb (taskIDPattern (pt_task_id task)) then Err (ErrText "invalid task ID")
      else if bool_decide (pt_task_id task ∈ known) then Err (ErrText "duplicate task ID")
      else collectTaskIDs_loop rest ({[pt_task_id task]} ∪ known)
  end.

Definition collectTaskIDs (values : list pb_PlannedTask) : res (gset string) :=
  collectTaskIDs_loop values ∅.

Definition mapTaskDependencies (task : pb_PlannedTask) (known : gset string)
    : res (list string) :=
  map_each (fun dependency =>
    if dependency == pt_task_id task then Err (ErrText "task cannot depend on itself")
    else if negb (bool_decide (dependency ∈ known)) then Err (ErrText "unknown task dependency")
    else Ok dependency) (pt_dependencies task).

Definition validateTaskCriteria (criteria : list string) (request : TaskPlanningRequest)
    : res unit :=
  for_each (fun criterion =>
    unless (negb (bool_decide (criterion ∈ PR_AcceptanceCriterionIDs request)))
      (ErrText "unknown acceptance criterion assignment")) criteria.

Definition validateTaskResourcesAndChecks (task : pb_PlannedTask) : res unit :=
  for_each (fun resource =>
    unless (negb (resourcePattern resource)) (ErrText "invalid exclusive resource"))
    (pt_exclusive_resources task) ;;
  for_each (fun check =>
    unless (negb (checkIDPattern check)) (ErrText "invalid required check ID"))
    (pt_required_check_ids task).

Definition mapPlannedTask (task : pb_PlannedTask) (request : TaskPlanningRequest)
    (known : gset string) : res PlannedTask :=
  unless ((pt_objective task == "") || (length (pt_acceptance_criterion_ids task) =? 0)%nat ||
          (length (pt_required_check_ids task) =? 0)%nat ||
          (length (pt_stop_conditions task) =? 0)%nat) (ErrText "incomplete planned task") ;;
  validatePathScopes (pt_readable_paths task) (pt_writable_paths task)
    (pt_prohibited_paths task) ;;
  unless (negb (pathsWithin (pt_readable_paths task) (PR_ReadablePaths request)) ||
          negb (pathsWithin (pt_writable_paths task) (PR_WritablePaths request)))
    (ErrText "task scope exceeds planning request") ;;
  dependencies ← mapTaskDependencies task known;
  validateTaskCriteria (pt_acceptance_criterion_ids task) request ;;
  validateTaskResourcesAndChecks task ;;
  Ok (mkPlannedTask (pt_task_id task) (pt_objective task) dependencies
        (pt_acceptance_criterion_ids task) (pt_readable_paths task) (pt_writable_paths task)
        (pt_prohibited_paths task) (pt_exclusive_resources task) (pt_required_check_ids task)
        (pt_stop_conditions task)).

(** [assigned[criterion]++] *)
Definition count_criterion (assigned : gmap string Z) (criterion : string) : gmap string Z :=
  <[criterion := default 0 (assigned !! criterion) + 1]> assigned.

Fixpoint mapPlannedTasks_loop (values : list pb_PlannedTask) (request : TaskPlanningRequest)
    (known : gset string) (assigned : gmap string Z) : res (list PlannedTask * gmap string Z) :=
  match values with
  | [] => Ok ([], assigned)
  | value :: rest =>
      task ← mapPlannedTask value request known;
      '(tasks, assigned') ← mapPlannedTasks_loop rest request known
        (foldl count_criterion assigned (PT_AcceptanceCriterionIDs task));
      Ok (task :: tasks, assigned')
  end.

Definition mapPlannedTasks (values : list pb_PlannedTask) (request : TaskPlanningRequest)
    (known : gset string) : res (list PlannedTask * gmap string Z) :=
  mapPlannedTasks_loop values request known ∅.

Definition validateCriterionCoverage (criteria : list string) (assigned : gmap string Z)
    : res unit :=
  for_each (fun criterion =>
    unless (negb (default 0 (assigned !! criterion) =? 1))
      (ErrText "each acceptance criterion must be assigned exactly once")) criteria.

(** ** The search for a cycle *)

(** The two maps of the search: the nodes whose entry is [true]. *)
Record search := mkSearch { visiting : gset string; visited : gset string }.

Inductive outcome :=
| CycleFound
| NoCycle (st : search)
| OutOfFuel.

(** [for _, next := range l { if visit(next) { return true } }] *)
Fixpoint visit_all (visit : string -> search -> outcome) (l : list string) (st : search)
    : outcome :=
  match l with
  | [] => NoCycle st
  | next :: rest =>
      match visit next st with
      | NoCycle st' => visit_all visit rest st'
      | other => other
      end
  end.

(** The depth of the recursion is bounded by the number of nodes that can be
    being visited at once. *)
Fixpoint visit (dependencies : gmap string (list string)) (fuel : nat) (id : string) (st : search)
    : outcome :=
  match fuel with
  | O => OutOfFuel
  | S fuel' =>
      if bool_decide (id ∈ visiting st) then CycleFound
      else if bool_decide (id ∈ visited st) then NoCycle st
      else
        match visit_all (visit dependencies fuel') (default [] (dependencies !! id))
                (mkSearch ({[id]} ∪ visiting st) (visited st)) with
        | NoCycle st' => NoCycle (mkSearch (visiting st' ∖ {[id]}) ({[id]} ∪ visited st'))
        | other => other
        end
  end.

Definition task_dependencies (tasks : list PlannedTask) : gmap string (list string) :=
  foldl (fun m task => <[PT_ID task := Dependencies task]> m) ∅ tasks.

(** Every node of the graph: the tasks and their dependencies. *)
Definition graph_nodes (dependencies : gmap string (list string)) : gset string :=
  list_to_set (concat (map (fun '(id, ds) => id :: ds) (map_to_list dependencies))).

Section planning.
Context `{Platform}.

Definition cycle_search (tasks : list PlannedTask) : outcome :=
  let dependencies := task_dependencies tasks in
  visit_all (visit dependencies (S (size (graph_nodes dependencies))))
    (arbitrary_order (map fst (map_to_list dependencies))) (mkSearch ∅ ∅).

Definition graphHasCycle (tasks : list PlannedTask) : bool :=
  match cycle_search tasks with CycleFound => true | _ => false end.

Definition MapTaskGraphProposal (value : option pb_TaskGraphProposal)
    (request : TaskPlanningRequest) : res TaskGraphProposal :=
  match value with
  | None => Err (ErrText "task graph proposal identity is required")
  | Some value =>
      match tg_identity value with
      | None => Err (ErrText "task graph proposal identity is required")
      | Some ident =>
          validateProposalIdentity ident (PR_Envelope request) StagePlanning ;;
          unless ((tg_approved_specification_id value != PR_ApprovedSpecificationID request) ||
                  (tg_approved_specification_digest value !=
                   PR_ApprovedSpecificationDigest request))
            (ErrText "approved specification mismatch") ;;
          unless ((length (tg_tasks value) =? 0)%nat ||
                  (TaskCountLimit request <? u32 (Z.of_nat (length (tg_tasks value)))))
            (ErrText "task count is outside approved limit") ;;
          known ← collectTaskIDs (tg_tasks value);
          '(tasks, assigned) ← mapPlannedTasks (tg_tasks value) request known;
          validateCriterionCoverage (PR_AcceptanceCriterionIDs request) assigned ;;
          if graphHasCycle tasks then Err (ErrText "task graph contains a cycle")
          else Ok (mkTaskGraphProposal tasks (tg_assumptions value)
                     (tg_unresolved_scope_questions value))
      end
  end.

End planning.
