(* ===== verification/CtGraph.v ===== *)
(** * Paths and graphs of the contracts *)

From S2P Require Import Prelude GoStd GoJson GoText WfTypes CtMessages CtCommon.
From S2P Require Import CtPlanning.

(** * Paths and scopes, component by component

    A valid repository path is a list of plain components, and one path is
    within another when its components extend the other's: the tests on texts
    that [CtPlanning] makes are these, exactly. *)

(** ** Splitting and joining *)

Definition components (p : string) : list string := split_at "/" p.

Definition no_slash (c : string) : Prop := string_forallb (fun d => negb (bool_decide (d = "/"%char))) c = true.

Lemma split_nonempty s : components s <> [].
Proof.
  induction s as [|c s IH]; cbn; [done|]. unfold components in IH.
  destruct (split_at "/" s); [done|]. by destruct (bool_decide _).
Qed.

Lemma join_split s : join "/" (components s) = s.
Proof.
  unfold components. induction s as [|c s IH]; [done|]. cbn [split_at].
  pose proof (split_nonempty s) as Hne. unfold components in Hne.
  destruct (split_at "/" s) as [|w ws] eqn:E; [done|]. case_bool_decide as Hc.
  - subst c. change (String "/" (join "/" (w :: ws)) = String "/" s). by rewrite IH.
  - rewrite <- IH. destruct ws as [|v ws]; cbn [join]; [done|].
    by rewrite !app_cons_str.
Qed.

Lemma split_no_slash s : Forall no_slash (components s).
Proof.
  unfold components. induction s as [|c s IH]; cbn [split_at]; [by repeat constructor|].
  pose proof (split_nonempty s) as Hne. unfold components in Hne.
  destruct (split_at "/" s) as [|w ws]; [done|]. case_bool_decide as Hc.
  - by constructor.
  - apply Forall_cons in IH as [Hw Hws]. constructor; [|done].
    unfold no_slash. cbn. by rewrite bool_decide_false, Hw.
Qed.

Lemma split_app_slash a b : no_slash a -> components (a +:+ String "/" b) = a :: components b.
Proof.
  unfold no_slash, components. induction a as [|c a IH]; intros Ha.
  - rewrite app_nil_str. cbn [split_at]. by rewrite bool_decide_true.
  - cbn in Ha. apply andb_true_iff in Ha as [Hc Ha]. rewrite app_cons_str. cbn [split_at].
    rewrite IH by done. apply negb_true_iff in Hc. by rewrite Hc.
Qed.

Lemma split_single a : no_slash a -> components a = [a].
Proof.
  unfold no_slash, components. induction a as [|c a IH]; intros Ha; [done|].
  cbn in Ha. apply andb_true_iff in Ha as [Hc Ha]. cbn [split_at]. rewrite IH by done.
  apply negb_true_iff in Hc. by rewrite Hc.
Qed.

Lemma join_cons w v l : join "/" (w :: v :: l) = w +:+ String "/" (join "/" (v :: l)).
Proof. done. Qed.

Lemma split_join l : l <> [] -> Forall no_slash l -> components (join "/" l) = l.
Proof.
  induction l as [|a l IH]; intros Hne Hl; [done|]. apply Forall_cons in Hl as [Ha Hl].
  destruct l as [|b l]; [by apply split_single|].
  rewrite join_cons, split_app_slash by done. f_equal. by apply IH.
Qed.

Lemma components_app a b : components (a +:+ String "/" b) = components a ++ components b.
Proof.
  rewrite <- (join_split a) at 1. generalize (components a) (split_no_slash a) (split_nonempty a).
  intros l Hl Hne. induction l as [|w l IH]; [done|].
  apply Forall_cons in Hl as [Hw Hl]. destruct l as [|v l].
  - cbn [join]. by rewrite split_app_slash.
  - rewrite (join_cons w v l), string_app_assoc, app_cons_str, split_app_slash by done.
    cbn [app]. f_equal. by apply IH.
Qed.

Lemma HasPrefix_spec s pre : HasPrefix s pre = true <-> exists rest, s = pre +:+ rest.
Proof.
  unfold HasPrefix. revert s. induction pre as [|c pre IH]; intros s; cbn [String.prefix].
  - split; [by exists s|intros _; by destruct s].
  - destruct s as [|d s]; [split; [done|intros (rest & Heq); by rewrite app_cons_str in Heq]|].
    cbn [String.prefix]. destruct (ascii_dec c d) as [->|Hne].
    + rewrite IH. split; intros (rest & Heq); exists rest; rewrite app_cons_str in *; [by rewrite Heq|].
      by injection Heq.
    + split; [done|]. intros (rest & Heq). rewrite app_cons_str in Heq. by injection Heq.
Qed.

(** ** Containment of paths *)

(** [value] is [root] or lies below it. *)
Definition below (root value : string) : Prop := components root `prefix_of` components value.

Lemma below_spec root value :
  below root value <-> value = root \/ HasPrefix value (root +:+ "/") = true.
Proof.
  unfold below. rewrite HasPrefix_spec. split.
  - intros [rest Hrest]. destruct rest as [|w rest].
    + left. rewrite app_nil_r in Hrest. by rewrite <- (join_split value), Hrest, join_split.
    + right. exists (join "/" (w :: rest)). rewrite string_app_assoc, (app_cons_str "/" ""), app_nil_str.
      rewrite <- (join_split value), Hrest. rewrite <- (join_split (root +:+ _)), components_app.
      rewrite split_join; [done..|]. pose proof (split_no_slash value) as Hv. rewrite Hrest in Hv.
      by apply Forall_app in Hv as [_ ?].
  - intros [->|(rest & ->)]; [done|].
    rewrite string_app_assoc, (app_cons_str "/" ""), app_nil_str, components_app. by eexists.
Qed.

Lemma pathWithin_spec value roots :
  pathWithin value roots = true <-> exists root, root ∈ roots /\ below root value.
Proof.
  unfold pathWithin. rewrite existsb_exists. setoid_rewrite <- list_elem_of_In.
  setoid_rewrite below_spec. setoid_rewrite orb_true_iff. by setoid_rewrite bool_decide_eq_true.
Qed.

Lemma pathsWithin_spec values roots :
  pathsWithin values roots = true <-> forall value, value ∈ values -> exists root, root ∈ roots /\ below root value.
Proof.
  unfold pathsWithin. rewrite forallb_forall. setoid_rewrite <- list_elem_of_In.
  by setoid_rewrite pathWithin_spec.
Qed.

Lemma overlapping_spec p q : overlapping p q = true <-> below q p \/ below p q.
Proof.
  unfold overlapping. rewrite orb_true_iff, !pathWithin_spec. set_solver.
Qed.

(** ** Valid paths *)

Definition plain_component (c : string) : Prop := c <> "" /\ c <> "." /\ c <> "..".

Lemma clean_plain l stack :
  Forall plain_component l -> foldl (clean_step false) stack l = reverse l ++ stack.
Proof.
  revert stack. induction l as [|c l IH]; intros stack Hl; [done|].
  apply Forall_cons in Hl as [(H1 & H2 & H3) Hl]. cbn [foldl].
  assert (Hc : clean_step false stack c = c :: stack)
    by (unfold clean_step; by rewrite !bool_decide_false).
  rewrite Hc, IH by done. by rewrite reverse_cons, <- app_assoc.
Qed.

(** What the stack of [path_Clean] looks like: plain components above ["..",...]. *)
Definition clean_stack (stack : list string) : Prop :=
  exists ns k, stack = ns ++ replicate k ".." /\ Forall plain_component ns.

Lemma clean_step_shape stack c : clean_stack stack -> clean_stack (clean_step false stack c).
Proof.
  intros (ns & k & -> & Hns). unfold clean_step. destruct (_ || _) eqn:Hc; [by exists ns, k|].
  apply orb_false_iff in Hc as [H1%bool_decide_eq_false H2%bool_decide_eq_false].
  case_bool_decide as H3.
  - destruct ns as [|n ns]; cbn.
    + destruct k as [|k]; cbn; [by exists [], 1%nat|]. by exists [], (S (S k)).
    + apply Forall_cons in Hns as [(? & ? & ?) Hns]. rewrite bool_decide_false by done. by exists ns, k.
  - exists (c :: ns), k. split; [done|]. by constructor.
Qed.

Lemma clean_shape l stack : clean_stack stack -> clean_stack (foldl (clean_step false) stack l).
Proof.
  revert stack. induction l as [|c l IH]; intros stack Hs; [done|]. by apply IH, clean_step_shape.
Qed.

Lemma clean_no_slash l stack :
  Forall no_slash l -> Forall no_slash stack -> Forall no_slash (foldl (clean_step false) stack l).
Proof.
  revert stack. induction l as [|c l IH]; intros stack Hl Hs; [done|].
  apply Forall_cons in Hl as [Hc Hl]. apply IH; [done|]. unfold clean_step.
  destruct (_ || _); [done|]. case_bool_decide; [|by constructor].
  destruct stack as [|top rest]; [by constructor|]. apply Forall_cons in Hs as [? ?].
  case_bool_decide; [by repeat constructor|done].
Qed.

Lemma reverse_replicate {A} n (a : A) : reverse (replicate n a) = replicate n a.
Proof.
  induction n as [|n IH]; [done|]. cbn [replicate]. rewrite reverse_cons, IH.
  clear IH. induction n as [|n IH]; [done|]. cbn. by rewrite IH.
Qed.

(** A cleaned relative path, by components. *)
Lemma clean_relative p :
  p <> "" -> p <> "." -> HasPrefix p "/" = false -> path_Clean p = p ->
  exists k ns, components p = replicate k ".." ++ ns /\ Forall plain_component ns.
Proof.
  intros Hne Hdot Habs Hclean. unfold path_Clean in Hclean.
  rewrite bool_decide_false in Hclean by done. unfold path_IsAbs in Hclean. rewrite Habs in Hclean.
  cbv zeta in Hclean. set (stack := foldl (clean_step false) [] (split_at "/" p)) in *.
  case_bool_decide as Hb; [congruence|].
  destruct (clean_shape (split_at "/" p) []) as (ns & k & Hst & Hns); [by exists [], 0%nat|].
  fold stack in Hst. exists k, (reverse ns). split; [|by apply Forall_reverse].
  rewrite <- Hclean, split_join.
  - rewrite Hst, reverse_app, reverse_replicate. done.
  - intros Hr. by rewrite Hr in Hb.
  - apply Forall_reverse. apply clean_no_slash; [apply split_no_slash|constructor].
Qed.

Definition no_backslash (p : string) : Prop := Contains p (String backslash "") = false.

(** The paths the program accepts: plain components, or the parent directory alone. *)
Lemma validRepoPath_spec p :
  validRepoPath p = true <->
  p = ".." \/ (Forall plain_component (components p) /\ no_backslash p).
Proof.
  unfold validRepoPath. rewrite !andb_true_iff, !negb_true_iff, !bool_decide_eq_false, bool_decide_eq_true.
  split.
  - intros [[[[[Hne Hdot] Habs] Hbs] Hclean] Hup].
    destruct (clean_relative p Hne Hdot Habs Hclean) as (k & ns & Hc & Hns).
    destruct k as [|k]; [right; by rewrite Hc|]. left.
    destruct k as [|k]; [destruct ns as [|n ns]|].
    + rewrite <- (join_split p), Hc. done.
    + exfalso. rewrite <- (join_split p), Hc in Hup.
      assert (Ht : HasPrefix (join "/" ([".."] ++ n :: ns)) "../" = true); [|cbn in Hup, Ht; congruence].
      apply HasPrefix_spec. by eexists.
    + exfalso. rewrite <- (join_split p), Hc in Hup.
      assert (Ht : HasPrefix (join "/" (replicate (S (S k)) ".." ++ ns)) "../" = true);
        [|congruence].
      apply HasPrefix_spec. cbn [replicate app join].
      destruct (replicate k ".." ++ ns); by eexists.
  - intros [->|[Hp Hbs]]; [split_and!; done|].
    assert (Hclean : foldl (clean_step false) [] (split_at "/" p) = reverse (components p)).
    { rewrite clean_plain by done. by rewrite app_nil_r. }
    pose proof (join_split p) as Hj. destruct (components p) as [|w l] eqn:E; [by destruct (split_nonempty p)|].
    apply Forall_cons in Hp as [(Hw1 & Hw2 & Hw3) Hl].
    assert (Hne : p <> "") by (intros ->; vm_compute in E; congruence).
    assert (Habs : HasPrefix p "/" = false).
    { destruct (HasPrefix p "/") eqn:Ha; [|done]. apply HasPrefix_spec in Ha as (rest & ->).
      unfold components in E. rewrite (split_app_slash "" rest eq_refl : split_at "/" ("/" +:+ rest) = _) in E. congruence. }
    assert (Hdot : p <> ".") by (intros ->; vm_compute in E; congruence).
    split_and!; try done.
    + unfold path_Clean. rewrite bool_decide_false by done. unfold path_IsAbs. rewrite Habs, Hclean.
      rewrite reverse_involutive, Hj. by rewrite bool_decide_false.
    + destruct (HasPrefix p "../") eqn:Ha; [|done]. apply HasPrefix_spec in Ha as (rest & ->).
      assert (Hcs : components ("../" +:+ rest) = ".." :: components rest).
      { rewrite !app_cons_str, app_nil_str. exact (split_app_slash ".." rest eq_refl). }
      congruence.
Qed.

(** * The depth-first search for a cycle is exact

    [graphHasCycle] of [CtPlanning]: the search ends within its fuel, whatever
    order the map of the tasks is iterated in, and it finds a cycle exactly
    when a task depends on itself through others. *)

Section search.
Variable deps : gmap string (list string).

Definition edge (x y : string) : Prop := y ∈ default [] (deps !! x).

(** The visited nodes are finished: nothing new is reachable, no cycle passes. *)
Definition finished_set (vd : gset string) : Prop :=
  (forall x y, x ∈ vd -> edge x y -> y ∈ vd) /\ (forall x, x ∈ vd -> ~ tc edge x x).

Lemma finished_reach vd x y : finished_set vd -> x ∈ vd -> rtc edge x y -> y ∈ vd.
Proof. intros [Hc _] Hx Hr. induction Hr as [x|x y z He _ IH]; [done|]. apply IH. by eapply Hc. Qed.

(** The outcome of visiting [l] from [st]. *)
Definition visit_result (l : list string) (st : search) (o : outcome) : Prop :=
  match o with
  | CycleFound => exists x, tc edge x x
  | NoCycle st' =>
      visiting st' = visiting st /\ visited st ⊆ visited st' /\
      (forall x, x ∈ l -> x ∈ visited st') /\ finished_set (visited st')
  | OutOfFuel => False
  end.

Lemma visit_all_result f l st :
  finished_set (visited st) ->
  (forall x st', x ∈ l -> visiting st' = visiting st -> finished_set (visited st') ->
    visit_result [x] st' (f x st')) ->
  visit_result l st (visit_all f l st).
Proof.
  revert st. induction l as [|x l IH]; intros st Hst Hf; cbn [visit_all].
  - cbn. split; [done|]. split; [done|]. split; [|done]. intros x Hx. by apply elem_of_nil in Hx.
  - pose proof (Hf x st ltac:(by left) eq_refl Hst) as Hx.
    destruct (f x st) as [|st1|]; [done| |done]. destruct Hx as (Hv & Hsub & Hin & Hfin).
    pose proof (IH st1 Hfin) as Hrest.
    assert (Hpre : forall y st', y ∈ l -> visiting st' = visiting st1 -> finished_set (visited st') ->
      visit_result [y] st' (f y st')).
    { intros y st' Hy Hv' Hfin'. apply Hf; [by right|congruence|done]. }
    specialize (Hrest Hpre). destruct (visit_all f l st1) as [|st2|]; [done| |done].
    destruct Hrest as (Hv2 & Hsub2 & Hin2 & Hfin2). cbn. split; [congruence|]. split; [set_solver|].
    split; [|done]. intros y [->|Hy]%elem_of_cons; [|auto]. apply Hsub2, Hin. by left.
Qed.

Variable nodes : gset string.
Hypothesis nodes_closed : forall x y, edge x y -> y ∈ nodes.

Lemma visit_spec fuel id st :
  id ∈ nodes -> (size (nodes ∖ visiting st) < fuel)%nat -> finished_set (visited st) ->
  (forall x, x ∈ visiting st -> tc edge x id) ->
  visit_result [id] st (visit deps fuel id st).
Proof.
  revert id st. induction fuel as [|fuel IH]; intros id st Hid Hfuel Hfin Hpath; [lia|].
  cbn [visit]. case_bool_decide as Hvg; [by exists id; apply Hpath|].
  case_bool_decide as Hvd.
  { cbn. split; [done|]. split; [done|]. split; [|done]. by intros x ->%list_elem_of_singleton. }
  set (st1 := mkSearch ({[id]} ∪ visiting st) (visited st)).
  assert (Hall : visit_result (default [] (deps !! id)) st1
    (visit_all (visit deps fuel) (default [] (deps !! id)) st1)).
  { apply visit_all_result; [done|]. intros y st' Hy Hv Hfin'. apply IH.
    - by apply (nodes_closed id).
    - rewrite Hv. cbn. eapply Nat.lt_le_trans; [|apply Nat.lt_succ_r; exact Hfuel].
      apply subset_size. set_solver.
    - done.
    - rewrite Hv. cbn. intros x [->%elem_of_singleton|Hx]%elem_of_union; [by apply tc_once|].
      eapply tc_r; [by apply Hpath|done]. }
  destruct (visit_all (visit deps fuel) (default [] (deps !! id)) st1) as [|st'|]; [done| |done].
  destruct Hall as (Hv & Hsub & Hin & Hclosed & Hacyclic). cbn in *. split; [|split; [|split]].
  - rewrite Hv. set_solver.
  - set_solver.
  - intros x ->%list_elem_of_singleton. set_solver.
  - assert (Hnew : forall y, edge id y -> y ∈ visited st') by (intros y; apply Hin).
    split.
    + intros x y [->%elem_of_singleton|Hx]%elem_of_union He; apply elem_of_union_r; [by apply Hnew|].
      by eapply Hclosed.
    + intros x [->%elem_of_singleton|Hx]%elem_of_union; [|by apply Hacyclic].
      intros Hc. assert (Hself : id ∈ visited st').
      { inversion Hc as [? ? He|? y ? He Hr]; subst; [by apply Hnew|].
        eapply finished_reach; [split; [exact Hclosed|exact Hacyclic]|by apply Hnew|].
        by apply tc_rtc. }
      by apply (Hacyclic _ Hself).
Qed.
End search.

(** ** The graph of a list of tasks *)

(** A task depends on another. *)
Definition depends (tasks : list PlannedTask) (x y : string) : Prop :=
  exists t, t ∈ tasks /\ PT_ID t = x /\ y ∈ Dependencies t.

Lemma task_dependencies_lookup tasks x :
  NoDup (map PT_ID tasks) ->
  forall ds, task_dependencies tasks !! x = Some ds <->
    exists t, t ∈ tasks /\ PT_ID t = x /\ Dependencies t = ds.
Proof.
  unfold task_dependencies. intros Hnd ds.
  assert (Hgen : forall m : gmap string (list string), (forall t, t ∈ tasks -> m !! PT_ID t = None) ->
    foldl (fun m task => <[PT_ID task := Dependencies task]> m) m tasks !! x = Some ds <->
    m !! x = Some ds \/ exists t, t ∈ tasks /\ PT_ID t = x /\ Dependencies t = ds).
  { induction tasks as [|t tasks IH]; intros m Hm; cbn [foldl].
    - split; [by left|]. intros [?|(t & Ht & _)]; [done|]. by apply elem_of_nil in Ht.
    - apply NoDup_cons in Hnd as [Hni Hnd]. rewrite IH; [|done|].
      + rewrite lookup_insert_Some. split.
        * intros [[[<- <-]|[_ Hl]]|(u & Hu & ? & ?)]; [right; exists t|by left|right; exists u];
            (split; [set_solver|done]).
        * intros [Hl|(u & [->|Hu]%elem_of_cons & Hx & Hd)].
          -- left. right. split; [|done]. intros <-. rewrite Hm in Hl; [done|by left].
          -- left. left. done.
          -- right. by exists u.
      + intros u Hu. rewrite lookup_insert_ne; [apply Hm; by right|].
        intros Heq. apply Hni. rewrite Heq. apply list_elem_of_fmap. by exists u. }
  rewrite (Hgen ∅); [|intros; apply lookup_empty]. rewrite lookup_empty. naive_solver.
Qed.

Lemma edge_depends tasks x y :
  NoDup (map PT_ID tasks) -> edge (task_dependencies tasks) x y <-> depends tasks x y.
Proof.
  intros Hnd. unfold edge, depends. destruct (task_dependencies tasks !! x) as [ds|] eqn:E.
  - apply task_dependencies_lookup in E as (t & Ht & Hx & <-); [|done]. cbn. split.
    + intros Hy. by exists t.
    + intros (u & Hu & Hx' & Hy).
      assert (E : task_dependencies tasks !! x = Some (Dependencies t))
        by (apply task_dependencies_lookup; eauto).
      assert (E' : task_dependencies tasks !! x = Some (Dependencies u))
        by (apply task_dependencies_lookup; eauto).
      rewrite E in E'. injection E' as ->. done.
  - cbn. split; [intros Hy; by apply elem_of_nil in Hy|]. intros (t & Ht & Hx & _).
    assert (E' : task_dependencies tasks !! x = Some (Dependencies t))
      by (apply task_dependencies_lookup; eauto).
    congruence.
Qed.

Lemma graph_nodes_spec deps x :
  x ∈ graph_nodes deps <-> is_Some (deps !! x) \/ exists y, edge deps y x.
Proof.
  unfold graph_nodes, edge. rewrite elem_of_list_to_set, list_elem_of_In, in_concat. split.
  - intros (l & Hl & Hx). apply in_map_iff in Hl as ([id ds] & <- & Hin).
    apply list_elem_of_In, elem_of_map_to_list in Hin. destruct Hx as [<-|Hx]; [left; by eexists|].
    right. exists id. rewrite Hin. by apply list_elem_of_In.
  - intros [[ds Hl]|(y & Hy)].
    + exists (x :: ds). split; [|by left]. apply in_map_iff. exists (x, ds). split; [done|].
      by apply list_elem_of_In, elem_of_map_to_list.
    + destruct (deps !! y) as [ds|] eqn:E; [|by apply elem_of_nil in Hy]. exists (y :: ds).
      split; [|right; by apply list_elem_of_In]. apply in_map_iff. exists (y, ds). split; [done|].
      by apply list_elem_of_In, elem_of_map_to_list.
Qed.

Section graph.
Context `{Hlaws : PlatformLaws}.

Lemma cycle_search_spec tasks :
  let deps := task_dependencies tasks in
  match cycle_search tasks with
  | CycleFound => exists x, tc (edge deps) x x
  | NoCycle _ => forall x, ~ tc (edge deps) x x
  | OutOfFuel => False
  end.
Proof.
  intros deps. unfold cycle_search. fold deps.
  set (ids := arbitrary_order (map fst (map_to_list deps))).
  assert (Hids : forall x, x ∈ ids <-> is_Some (deps !! x)).
  { intros x. unfold ids. rewrite (arbitrary_order_perm _ _), list_elem_of_fmap. split.
    - intros ([id ds] & -> & Hin). apply elem_of_map_to_list in Hin. by eexists.
    - intros [ds Hl]. exists (x, ds). split; [done|]. by apply elem_of_map_to_list. }
  assert (Hr : visit_result deps ids (mkSearch ∅ ∅)
    (visit_all (visit deps (S (size (graph_nodes deps)))) ids (mkSearch ∅ ∅))).
  { apply visit_all_result; [split; intros ? ?; set_solver|].
    intros x st Hx Hv Hfin. apply (visit_spec deps (graph_nodes deps)).
    - intros y z He. apply graph_nodes_spec. right. by exists y.
    - apply graph_nodes_spec. left. by apply Hids.
    - rewrite Hv. cbn. apply Nat.lt_succ_r, subseteq_size. set_solver.
    - done.
    - rewrite Hv. cbn. set_solver. }
  destruct (visit_all _ ids _) as [|st|]; [done| |done].
  destruct Hr as (_ & _ & Hin & Hclosed & Hacyclic). intros x Hc.
  assert (Hx : is_Some (deps !! x)).
  { assert (He : exists y, edge deps x y) by (inversion Hc; eauto). destruct He as [y Hy].
    unfold edge in Hy. destruct (deps !! x); [by eexists|by apply elem_of_nil in Hy]. }
  apply (Hacyclic x); [by apply Hin, Hids|done].
Qed.

Lemma tc_edge_depends tasks x y :
  NoDup (map PT_ID tasks) ->
  tc (edge (task_dependencies tasks)) x y <-> tc (depends tasks) x y.
Proof.
  intros Hnd. split; (intros Ht; induction Ht as [x y He|x y z He _ IH];
    [apply tc_once|eapply tc_l; [|exact IH]]; by apply edge_depends).
Qed.

(** C36: The depth-first search over the tasks of a proposal always ends, and reports a cycle exactly
    when some task depends on itself through the others, in whatever order the map of the tasks is
    iterated. *)
Theorem task_graph_search_exact tasks :
  NoDup (map PT_ID tasks) ->
  cycle_search tasks <> OutOfFuel /\
  (graphHasCycle tasks = true <-> exists x, tc (depends tasks) x x).
Proof.
  intros Hnd. pose proof (cycle_search_spec tasks) as Hs. cbv zeta in Hs. unfold graphHasCycle.
  destruct (cycle_search tasks) as [|st|]; [| |done]; (split; [done|]); split; try done.
  - intros _. destruct Hs as (x & Hx). exists x. by apply tc_edge_depends.
  - intros (x & Hx). apply tc_edge_depends in Hx; [|done]. by destruct (Hs x).
Qed.
End graph.

Definition looped_tasks : list PlannedTask :=
  [mkPlannedTask "TASK-001" "a" ["TASK-002"] [] [] [] [] [] [] [];
   mkPlannedTask "TASK-002" "b" ["TASK-003"] [] [] [] [] [] [] [];
   mkPlannedTask "TASK-003" "c" ["TASK-002"] [] [] [] [] [] [] []].

Lemma task_graph_search_exact_witness :
  NoDup (map PT_ID looped_tasks) /\ exists x, tc (depends looped_tasks) x x.
Proof.
  assert (Hnd : NoDup (map PT_ID looped_tasks))
    by (unfold looped_tasks; repeat constructor; set_solver).
  split; [exact Hnd|].
  destruct (task_graph_search_exact looped_tasks Hnd) as [_ [Hc _]].
  apply Hc. vm_compute. reflexivity.
Defined.
