(* ===== verification/CtPlanningProps.v ===== *)
(** * What the planning contracts accept

    The scopes and the proposals that [CtPlanning] accepts, characterised
    exactly by what they must satisfy. *)

From S2P Require Import Prelude GoStd GoJson GoText WfTypes CtMessages CtCommon.
From S2P Require Import CtPlanning CtGraph.

(** ** Scopes *)

(** A path of the repository: plain components, with the one exception the
    program makes for the parent directory. *)
Definition repository_path (p : string) : Prop :=
  p = ".." \/ (Forall plain_component (components p) /\ no_backslash p).

Definition covered_by (roots : list string) (p : string) : Prop :=
  exists root, root ∈ roots /\ below root p.

Definition scopes_valid (readable writable prohibited : list string) : Prop :=
  readable <> [] /\
  (forall p, p ∈ readable ++ writable ++ prohibited -> repository_path p) /\
  (forall p, p ∈ writable -> covered_by readable p) /\
  (forall p q, p ∈ writable -> q ∈ prohibited -> ~ below p q /\ ~ below q p).

Lemma valid_paths_spec readable writable prohibited :
  for_each (for_each (fun value =>
    unless (negb (validRepoPath value)) (ErrText "invalid repository-relative path")))
    [readable; writable; prohibited] = Ok tt <->
  forall p, p ∈ readable ++ writable ++ prohibited -> repository_path p.
Proof.
  rewrite for_each_Ok, !Forall_cons, !for_each_unless. split.
  - intros (H1 & H2 & H3 & _) p Hp. apply validRepoPath_spec, negb_false_iff.
    apply elem_of_app in Hp as [?|[?|?]%elem_of_app]; auto.
  - intros H.
    assert (Hin : forall p, p ∈ readable ++ writable ++ prohibited -> negb (validRepoPath p) = false)
      by (intros p Hp; apply negb_false_iff, validRepoPath_spec, H, Hp).
    split_and!; [..|constructor]; intros p Hp; apply Hin; rewrite !elem_of_app; auto.
Qed.

Lemma apart_spec writable prohibited :
  for_each (fun writablePath =>
    for_each (fun prohibitedPath =>
      unless (overlapping writablePath prohibitedPath)
        (ErrText "writable and prohibited paths overlap")) prohibited) writable = Ok tt <->
  forall p q, p ∈ writable -> q ∈ prohibited -> ~ below p q /\ ~ below q p.
Proof.
  rewrite for_each_Ok, Forall_forall. split.
  - intros H p q Hp Hq. pose proof (H p Hp) as Hf. rewrite for_each_unless in Hf.
    specialize (Hf q Hq). apply not_true_iff_false in Hf. rewrite overlapping_spec in Hf. tauto.
  - intros H p Hp. apply for_each_unless. intros q Hq. apply not_true_iff_false.
    rewrite overlapping_spec. destruct (H p q Hp Hq). tauto.
Qed.

(** The scopes of a request or a task are accepted exactly when something is readable, every
    path is a path of the repository, every writable path lies at or below a readable one, and no
    writable path lies at, above or below a prohibited one, all compared component by component. *)
Theorem path_scopes_exact readable writable prohibited :
  validatePathScopes readable writable prohibited = Ok tt <->
  scopes_valid readable writable prohibited.
Proof.
  unfold validatePathScopes, scopes_valid.
  rewrite !then_Ok, unless_Ok, length_zero, unless_Ok, negb_false_iff, pathsWithin_spec.
  rewrite valid_paths_spec, apart_spec. unfold covered_by. naive_solver.
Qed.

(** ** Criteria *)

Lemma validCriteria_spec values :
  validCriteria values = true <-> NoDup values /\ (forall v, v ∈ values -> criterionID v = true).
Proof.
  unfold validCriteria.
  assert (Hgen : forall seen, validCriteria_loop values seen = true <->
    NoDup values /\ (forall v, v ∈ values -> criterionID v = true /\ v ∉ seen)).
  { induction values as [|v values IH]; intros seen; cbn [validCriteria_loop].
    - split; [|done]. intros _. split; [constructor|]. intros v Hv. by apply elem_of_nil in Hv.
    - rewrite NoDup_cons. destruct (criterionID v) eqn:Hc; cbn; [|split; [done|]].
      + case_bool_decide as Hs; [split; [done|]|].
        * intros [_ H]. destruct (H v ltac:(by left)). done.
        * rewrite IH. set_solver.
      + intros [_ H]. destruct (H v ltac:(by left)). congruence. }
  rewrite Hgen. set_solver.
Qed.

(** How many times a criterion occurs. *)
Definition occurs (c : string) (l : list string) : Z :=
  Z.of_nat (length (List.filter (fun x => bool_decide (x = c)) l)).

Lemma count_criteria_lookup l m c :
  default 0 (foldl count_criterion m l !! c) = default 0 (m !! c) + occurs c l.
Proof.
  unfold occurs. revert m. induction l as [|x l IH]; intros m; cbn [foldl List.filter]; [cbn; lia|].
  rewrite IH. unfold count_criterion. case_bool_decide as Hx.
  - subst x. rewrite lookup_insert_eq. cbn. lia.
  - by rewrite lookup_insert_ne.
Qed.

Lemma occurs_app c l k : occurs c (l ++ k) = occurs c l + occurs c k.
Proof. unfold occurs. rewrite List.filter_app, length_app. lia. Qed.

(** ** Task identifiers *)

Lemma collectTaskIDs_spec values known :
  collectTaskIDs values = Ok known <->
  NoDup (map pt_task_id values) /\ (forall t, t ∈ values -> taskIDPattern (pt_task_id t) = true) /\
  known = list_to_set (map pt_task_id values).
Proof.
  unfold collectTaskIDs.
  assert (Hgen : forall seen, collectTaskIDs_loop values seen = Ok known <->
    NoDup (map pt_task_id values) /\
    (forall t, t ∈ values -> taskIDPattern (pt_task_id t) = true /\ pt_task_id t ∉ seen) /\
    known = list_to_set (map pt_task_id values) ∪ seen).
  { induction values as [|v values IH]; intros seen; cbn [collectTaskIDs_loop map].
    - split.
      + intros [= <-]. split; [constructor|]. split; [|set_solver]. intros t Ht. by apply elem_of_nil in Ht.
      + intros (_ & _ & ->). f_equal. set_solver.
    - rewrite NoDup_cons. destruct (taskIDPattern (pt_task_id v)) eqn:Hc; cbn [negb]; [|split; [done|]].
      + case_bool_decide as Hs; [split; [done|]|].
        * intros (_ & H & _). destruct (H v ltac:(by left)). done.
        * rewrite IH, list_to_set_cons. setoid_rewrite elem_of_cons.
          split; intros (H1 & H2 & H3).
          -- split; [split; [|done]|split; [|set_solver]].
             ++ rewrite list_elem_of_fmap. intros (t & Heq & Ht). destruct (H2 t Ht). set_solver.
             ++ intros t [->|Ht]; [done|]. destruct (H2 t Ht). set_solver.
          -- destruct H1 as [Hni Hnd]. split; [done|]. split; [|set_solver].
             intros t Ht. destruct (H2 t ltac:(by right)) as [Hp Hseen]. split; [done|].
             intros [Heq%elem_of_singleton|]%elem_of_union; [|done]. apply Hni.
             apply list_elem_of_fmap. by exists t.
      + intros (_ & H & _). destruct (H v ltac:(by left)). congruence. }
  rewrite Hgen. split; intros (H1 & H2 & H3); (split; [done|]); (split; [set_solver|set_solver]).
Qed.

(** ** Planned tasks *)

Record task_acceptable (request : TaskPlanningRequest) (known : gset string) (t : pb_PlannedTask)
    : Prop := {
  ta_objective : pt_objective t <> "";
  ta_criteria : pt_acceptance_criterion_ids t <> [];
  ta_checks : pt_required_check_ids t <> [];
  ta_stops : pt_stop_conditions t <> [];
  ta_scopes : scopes_valid (pt_readable_paths t) (pt_writable_paths t) (pt_prohibited_paths t);
  ta_readable : forall p, p ∈ pt_readable_paths t -> covered_by (PR_ReadablePaths request) p;
  ta_writable : forall p, p ∈ pt_writable_paths t -> covered_by (PR_WritablePaths request) p;
  ta_dependencies : forall d, d ∈ pt_dependencies t -> d <> pt_task_id t /\ d ∈ known;
  ta_assigned : forall c, c ∈ pt_acceptance_criterion_ids t -> c ∈ PR_AcceptanceCriterionIDs request;
  ta_resources : forall r, r ∈ pt_exclusive_resources t -> resourcePattern r = true;
  ta_check_ids : forall c, c ∈ pt_required_check_ids t -> checkIDPattern c = true;
}.

Definition planned (t : pb_PlannedTask) : PlannedTask :=
  mkPlannedTask (pt_task_id t) (pt_objective t) (pt_dependencies t) (pt_acceptance_criterion_ids t)
    (pt_readable_paths t) (pt_writable_paths t) (pt_prohibited_paths t) (pt_exclusive_resources t)
    (pt_required_check_ids t) (pt_stop_conditions t).

Lemma mapTaskDependencies_spec t known ds :
  mapTaskDependencies t known = Ok ds <->
  ds = pt_dependencies t /\ forall d, d ∈ pt_dependencies t -> d <> pt_task_id t /\ d ∈ known.
Proof.
  unfold mapTaskDependencies. rewrite map_each_same.
  - apply and_iff_compat_l. apply forall_proper. intros d. apply forall_proper. intros _.
    cbn beta. case_bool_decide; [naive_solver|]. case_bool_decide; cbn; naive_solver.
  - intros a b. do 2 (destruct (bool_decide _); cbn; try done). by intros [= ->].
Qed.

Lemma mapPlannedTask_spec t request known p :
  mapPlannedTask t request known = Ok p <-> task_acceptable request known t /\ p = planned t.
Proof.
  unfold mapPlannedTask. rewrite !then_Ok, !unless_Ok, res_bind_Ok, !orb_false_iff, !length_zero,
    string_nonempty, !negb_false_iff, !pathsWithin_spec, path_scopes_exact.
  split.
  - intros ((((Ho & Hc) & Hch) & Hst) & Hsc & (Hre & Hwr) & ds & [-> Hds]%mapTaskDependencies_spec & Hr).
    unfold validateTaskCriteria, validateTaskResourcesAndChecks in Hr.
    rewrite !then_Ok, !for_each_unless in Hr.
    destruct Hr as (Hcr & (Hres & Hck) & [= <-]). split; [|done].
    split; try done; intros x Hx.
    + by apply Hcr, negb_false_iff, bool_decide_eq_true in Hx.
    + by apply Hres, negb_false_iff in Hx.
    + by apply Hck, negb_false_iff in Hx.
  - intros [[] ->]. split; [done|]. split; [done|]. split; [done|]. exists (pt_dependencies t).
    split; [by apply mapTaskDependencies_spec|].
    unfold validateTaskCriteria, validateTaskResourcesAndChecks.
    rewrite !then_Ok, !for_each_unless. split; [|split; [split|done]]; intros x Hx; apply negb_false_iff;
      auto. apply bool_decide_eq_true. auto.
Qed.

Definition assigned_criteria (values : list pb_PlannedTask) : list string :=
  concat (map pt_acceptance_criterion_ids values).

Lemma mapPlannedTasks_spec values request known tasks assigned :
  mapPlannedTasks values request known = Ok (tasks, assigned) ->
  (forall t, t ∈ values -> task_acceptable request known t) /\ tasks = map planned values /\
  forall c, default 0 (assigned !! c) = occurs c (assigned_criteria values).
Proof.
  unfold mapPlannedTasks.
  assert (Hgen : forall m, mapPlannedTasks_loop values request known m = Ok (tasks, assigned) ->
    (forall t, t ∈ values -> task_acceptable request known t) /\ tasks = map planned values /\
    forall c, default 0 (assigned !! c) = default 0 (m !! c) + occurs c (assigned_criteria values)).
  { revert tasks. induction values as [|v values IH]; intros tasks m; cbn [mapPlannedTasks_loop].
    - intros [= <- <-]. split; [intros t Ht; by apply elem_of_nil in Ht|]. split; [done|].
      intros c. unfold occurs. cbn. lia.
    - intros (p & [Hv ->]%mapPlannedTask_spec & Hr)%res_bind_Ok.
      apply res_bind_Ok in Hr as ([tasks' m'] & Hr & [= <- <-]).
      destruct (IH _ _ Hr) as (Hall & -> & Hc). split; [|split; [done|]].
      + intros t [->|Ht]%elem_of_cons; auto.
      + intros c. rewrite Hc, count_criteria_lookup. cbn [PT_AcceptanceCriterionIDs planned].
        unfold assigned_criteria. cbn [map concat]. rewrite occurs_app. lia. }
  intros Hr. destruct (Hgen _ Hr) as (Hall & -> & Hc). split; [done|]. split; [done|].
  intros c. rewrite Hc, lookup_empty. cbn. lia.
Qed.

Lemma mapPlannedTasks_complete values request known :
  (forall t, t ∈ values -> task_acceptable request known t) ->
  exists assigned, mapPlannedTasks values request known = Ok (map planned values, assigned).
Proof.
  unfold mapPlannedTasks. generalize (∅ : gmap string Z).
  induction values as [|v values IH]; intros m Hall; cbn [mapPlannedTasks_loop map]; [by eexists|].
  assert (Hv : mapPlannedTask v request known = Ok (planned v))
    by (apply mapPlannedTask_spec; split; [apply Hall; by left|done]).
  rewrite Hv. cbn. edestruct IH as [assigned ->]; [|by eexists]. intros t Ht. apply Hall. by right.
Qed.

(** ** Proposals *)

Record graph_acceptable (request : TaskPlanningRequest) (ident : pb_ProposalIdentity)
    (value : pb_TaskGraphProposal) : Prop := {
  ga_identity : answers (PR_Envelope request) StagePlanning ident;
  ga_specification : tg_approved_specification_id value = PR_ApprovedSpecificationID request /\
    tg_approved_specification_digest value = PR_ApprovedSpecificationDigest request;
  ga_count : tg_tasks value <> [] /\ u32 (Z.of_nat (length (tg_tasks value))) <= TaskCountLimit request;
  ga_ids : NoDup (map pt_task_id (tg_tasks value)) /\
    forall t, t ∈ tg_tasks value -> taskIDPattern (pt_task_id t) = true;
  ga_tasks : forall t, t ∈ tg_tasks value ->
    task_acceptable request (list_to_set (map pt_task_id (tg_tasks value))) t;
  ga_coverage : forall c, c ∈ PR_AcceptanceCriterionIDs request ->
    occurs c (assigned_criteria (tg_tasks value)) = 1;
  ga_acyclic : forall x, ~ tc (depends (map planned (tg_tasks value))) x x;
}.

Section proposals.
Context `{Hlaws : PlatformLaws}.

Lemma planned_ids values : map PT_ID (map planned values) = map pt_task_id values.
Proof. rewrite map_map. done. Qed.

Lemma graph_acyclic tasks :
  NoDup (map PT_ID tasks) ->
  graphHasCycle tasks = false <-> forall x, ~ tc (depends tasks) x x.
Proof.
  intros Hnd. pose proof (cycle_search_spec tasks) as Hs. cbv zeta in Hs. unfold graphHasCycle.
  destruct (cycle_search tasks) as [|st|]; [| |done]; split; try done.
  - intros Hno. destruct Hs as (x & Hx). destruct (Hno x). by apply tc_edge_depends.
  - intros _ x Hx. apply (Hs x). by apply tc_edge_depends.
Qed.

Lemma validateCriterionCoverage_spec criteria assigned :
  validateCriterionCoverage criteria assigned = Ok tt <->
  forall c, c ∈ criteria -> default 0 (assigned !! c) = 1.
Proof.
  unfold validateCriterionCoverage. rewrite for_each_unless.
  apply forall_proper. intros c. apply forall_proper. intros _. by rewrite negb_false_iff, Z.eqb_eq.
Qed.

Lemma MapTaskGraphProposal_spec request value p :
  (MapTaskGraphProposal (Some value) request = Ok p) <->
  (exists ident, tg_identity value = Some ident /\ graph_acceptable request ident value) /\
  (p = mkTaskGraphProposal (map planned (tg_tasks value)) (tg_assumptions value)
         (tg_unresolved_scope_questions value)).
Proof.
  unfold MapTaskGraphProposal. destruct (tg_identity value) as [ident|];
    [|split; [done|]; intros [(i & Hi & _) _]; done].
  rewrite !then_Ok, validateProposalIdentity_spec, !unless_Ok, !orb_false_iff, length_zero, Z.ltb_ge, res_bind_Ok,
    !negb_false_iff, !bool_decide_eq_true. split.
  - intros (Hid & [Hs1 Hs2] & [Hne Hcount] & known & (Hnd & Hpat & ->)%collectTaskIDs_spec & Hr).
    apply res_bind_Ok in Hr as ([tasks assigned] & (Hall & -> & Hcov)%mapPlannedTasks_spec & Hr).
    apply then_Ok in Hr as [Hc Hr]. rewrite validateCriterionCoverage_spec in Hc.
    destruct (graphHasCycle _) eqn:Hcyc; [done|]. injection Hr as <-. split; [|done].
    exists ident. split; [done|]. split; try done.
    + intros c Hin. rewrite <- Hcov. by apply Hc.
    + apply graph_acyclic; [by rewrite planned_ids|done].
  - intros [(i & [= <-] & Hok) ->]. destruct Hok as [Hid Hs Hc [Hnd Hpat] Hall Hcov Hac].
    split; [done|]. split; [done|]. split; [done|].
    exists (list_to_set (map pt_task_id (tg_tasks value))).
    split; [by apply collectTaskIDs_spec|].
    destruct (mapPlannedTasks_complete _ _ _ Hall) as [assigned Hm]. rewrite Hm.
    apply mapPlannedTasks_spec in Hm as (_ & _ & Hocc). cbn [mbind res_bind].
    apply then_Ok. split.
    + apply validateCriterionCoverage_spec. intros c Hin. rewrite Hocc. by apply Hcov.
    + apply graph_acyclic in Hac; [|by rewrite planned_ids]. by rewrite Hac.
Qed.

(** A proposed task graph is accepted exactly when it repeats the identity of its request and
    the approved specification, has between one task and the approved number of tasks with
    distinct well-formed identifiers, each task is complete, stays within the scope of the request
    and depends only on other tasks of the graph, every acceptance criterion is assigned to
    exactly one place of the graph, and no task depends on itself through the others; the tasks it
    becomes are the tasks proposed. *)
Theorem task_graph_accepts_exactly request value p :
  (MapTaskGraphProposal (Some value) request = Ok p) <->
  (exists ident, tg_identity value = Some ident /\ graph_acceptable request ident value) /\
  (p = mkTaskGraphProposal (map planned (tg_tasks value)) (tg_assumptions value)
         (tg_unresolved_scope_questions value)).
Proof. apply MapTaskGraphProposal_spec. Qed.

End proposals.
