(* ===== verification/CtImplementation.v ===== *)
(** * Implementation contracts

    Models [go/internal/reasoning/contracts/implementation.go]: the requests
    for an implementation and the proposals that answer them.  Both are
    validated in the order of the rejection codes and then converted; the
    conversion checks again, without codes.  [now] is an [option]: [None] is
    the zero time, which switches the test of expiry off. *)

From S2P Require Import Prelude GoStd GoJson GoText WfTypes CtMessages CtCommon.
From S2P Require Import CtPlanning.

Definition emptySHA256 : string :=
  "e3b0c44298fc1c149afbf4c8996fb92427ae41e4649b934ca495991b7852b855".

(** [^[0-9a-f]{40}$] *)
Definition commitPattern : string -> bool := matches (times 40 hex).

(** ** Data *)

Record RepositoryContextFile := mkContext {
  Context_Path : string;
  Context_SHA256 : string;
  Context_Content : string;
}.

Record ImplementationRequest := mkImplementationRequestOf {
  IR_Envelope : Envelope;
  IR_ApprovedTaskID : string;
  IR_ApprovedTaskDigest : string;
  IR_ApprovedSpecificationID : string;
  IR_ApprovedSpecificationDigest : string;
  IR_BaseCommit : string;
  IR_ReadablePaths : list string;
  IR_WritablePaths : list string;
  IR_ProhibitedPaths : list string;
  IR_AcceptanceCriterionIDs : list string;
  AvailableCheckIDs : list string;
  RepositoryContext : list RepositoryContextFile;
}.

Inductive FileOperation := FileCreate | FileUpdate | FileDelete.
#[global] Instance FileOperation_eq_dec : EqDecision FileOperation.
Proof. solve_decision. Defined.

Record FileChange := mkFileChange {
  Change_Path : string;
  Operation : FileOperation;
  ExpectedOriginalSHA256 : string;
  ReplacementContent : option string;
  Rationale : string;
  Change_AcceptanceCriterionIDs : list string;
}.

Record ScopeChangeRequest := mkScopeChangeRequest {
  SC_Summary : string;
  RequestedReadablePaths : list string;
  RequestedWritablePaths : list string;
  RequestedAcceptanceCriterionIDs : list string;
  RequestedCheckIDs : list string;
}.

Record ImplementationProposal := mkImplementationProposal {
  IP_Summary : string;
  Changes : list FileChange;
  RequestedDeclaredCheckIDs : list string;
  IP_Assumptions : list string;
  IP_UnresolvedQuestions : list string;
  IP_ScopeChangeRequest : option ScopeChangeRequest;
}.

(** ** Parts of a request *)

Definition validateAvailableChecks (values : list string) : res unit :=
  for_each (fun check =>
    unless (negb (checkIDPattern check)) (ErrText "invalid available check ID")) values.

Definition artifactContainsDigest (artifacts : list Artifact) (digest : string) : bool :=
  existsb (fun artifact => Artifact_SHA256 artifact == digest) artifacts.

Definition validateImplementationRequestFields (value : pb_ImplementationRequest) : res unit :=
  unless (negb (taskIDPattern (ir_approved_task_id value)) ||
          negb (digestPattern (ir_approved_task_digest value)) ||
          (ir_approved_specification_id value == "") ||
          negb (digestPattern (ir_approved_specification_digest value)) ||
          negb (commitPattern (ir_base_commit value)) ||
          negb (validCriteria (ir_acceptance_criterion_ids value)) ||
          (length (ir_available_check_ids value) =? 0)%nat)
    (ErrText "invalid implementation request identity or limits").

(** The validators below look at the envelope of a request through its
    getters: a missing envelope shows zero values. *)
Definition no_envelope : pb_ReasoningRequestEnvelope :=
  mkRequestEnvelope "" "" "" None 0 0 None None None None [] "".

Definition envelope_of (e : option pb_ReasoningRequestEnvelope) : pb_ReasoningRequestEnvelope :=
  default no_envelope e.

(** [!now.IsZero() && !expires.After(now)] *)
Definition expired (now : option time) (expires : time) : bool :=
  match now with Some now => negb (After expires now) | None => false end.

Definition request_identity_missing (envelope : pb_ReasoningRequestEnvelope) : bool :=
  (re_request_id envelope == "") || (re_run_id envelope == "") ||
  (get_string (re_task_id envelope) == "") || (re_attempt envelope =? 0).

Definition validateImplementationRequestSchema (value : option pb_ImplementationRequest)
    : res pb_ImplementationRequest :=
  match value with
  | Some value =>
      match ir_envelope value with
      | Some envelope =>
          unless ((re_schema_version envelope != "1") || (re_created_at envelope == None) ||
                  (re_expires_at envelope == None) ||
                  negb (bool_decide (is_Some (re_authority envelope))) ||
                  negb (bool_decide (is_Some (re_budget envelope))))
            (ErrRejected REJECTION_CODE_SCHEMA_INVALID "request.envelope"
               "required v1 envelope fields are missing") ;;
          for_each (fun file =>
            unless (rf_content file == "")
              (ErrRejected REJECTION_CODE_SCHEMA_INVALID "request.repository_context"
                 "repository context entries require content")) (ir_repository_context value) ;;
          Ok value
      | None => validationFailure REJECTION_CODE_SCHEMA_INVALID "request"
                  "implementation request and envelope are required"
      end
  | None => validationFailure REJECTION_CODE_SCHEMA_INVALID "request"
              "implementation request and envelope are required"
  end.

Definition validateImplementationRequestAuthority (value : pb_ImplementationRequest) : res unit :=
  rejecting REJECTION_CODE_AUTHORITY_VIOLATION "request.envelope.authority"
    (validateAuthority (re_authority (envelope_of (ir_envelope value)))).

Definition validateImplementationRequestScope (value : pb_ImplementationRequest) : res unit :=
  rejecting REJECTION_CODE_SCOPE_VIOLATION "request.paths"
    (validatePathScopes (ir_readable_paths value) (ir_writable_paths value)
       (ir_prohibited_paths value)) ;;
  for_each (fun file =>
    unless (negb (validRepoPath (rf_path file)) ||
            negb (pathWithin (rf_path file) (ir_readable_paths value)))
      (ErrRejected REJECTION_CODE_SCOPE_VIOLATION "request.repository_context.path"
         "repository context is outside readable scope")) (ir_repository_context value).

Definition validateImplementationRequestCoverage (value : pb_ImplementationRequest) : res unit :=
  unless (negb (validCriteria (ir_acceptance_criterion_ids value)))
    (ErrRejected REJECTION_CODE_REQUIRED_COVERAGE_MISSING "request.acceptance_criterion_ids"
       "assigned acceptance criteria are required").

Definition validateImplementationRequestPolicy (value : pb_ImplementationRequest) : res unit :=
  let envelope := envelope_of (ir_envelope value) in
  unless (negb (re_stage envelope =? REASONING_STAGE_IMPLEMENTATION))
    (ErrRejected REJECTION_CODE_SCHEMA_INVALID "request.envelope.stage"
       "implementation stage is required") ;;
  rejecting REJECTION_CODE_SCHEMA_INVALID "request.envelope.budget"
    (validateEnvelopeBudget envelope) ;;
  unless (negb (commitPattern (ir_base_commit value)))
    (ErrRejected REJECTION_CODE_SCHEMA_INVALID "request.base_commit" "invalid base commit") ;;
  rejecting REJECTION_CODE_SCHEMA_INVALID "request.available_check_ids"
    (validateAvailableChecks (ir_available_check_ids value)).

Section requests.
Context `{Platform} `{Protobuf}.

Definition validateImplementationRequestIdentity (value : pb_ImplementationRequest)
    (now : option time) : res unit :=
  let envelope := envelope_of (ir_envelope value) in
  let mismatch := ErrRejected REJECTION_CODE_REQUEST_MISMATCH "request.envelope"
                    "request identity, attempt, or lifetime is invalid" in
  '(_, expires) ← map_err (fun _ => mismatch) (mapEnvelopeTimes envelope);
  unless (request_identity_missing envelope ||
          negb (taskIDPattern (ir_approved_task_id value)) ||
          (get_string (re_task_id envelope) != ir_approved_task_id value) ||
          (ir_approved_specification_id value == "")) mismatch ;;
  unless (expired now expires)
    (ErrRejected REJECTION_CODE_REQUEST_MISMATCH "request.envelope.expires_at"
       "request has expired").

Definition validateImplementationRequestBindings (value : pb_ImplementationRequest) : res unit :=
  let envelope := envelope_of (ir_envelope value) in
  unless (negb (digestPattern (re_agent_manifest_digest envelope)) ||
          negb (digestPattern (ir_approved_task_digest value)) ||
          negb (digestPattern (ir_approved_specification_digest value)))
    (ErrRejected REJECTION_CODE_REQUEST_MISMATCH "request"
       "artifact or manifest digest binding is invalid") ;;
  artifacts ← rejecting REJECTION_CODE_REQUEST_MISMATCH "request.envelope.input_artifacts"
                (mapArtifacts (re_input_artifacts envelope));
  for_each (fun file =>
    unless (negb (digestPattern (rf_sha256 file)))
      (ErrRejected REJECTION_CODE_REQUEST_MISMATCH "request.repository_context.sha256"
         "invalid repository context digest") ;;
    unless ((sha256_hex (rf_content file) != rf_sha256 file) ||
            negb (artifactContainsDigest artifacts (rf_sha256 file)))
      (ErrRejected REJECTION_CODE_REQUEST_MISMATCH "request.repository_context"
         "repository context is not bound to its artifact")) (ir_repository_context value).

Definition validateImplementationRequest (value : option pb_ImplementationRequest)
    (now : option time) : res pb_ImplementationRequest :=
  value ← validateImplementationRequestSchema value;
  validateImplementationRequestIdentity value now ;;
  validateImplementationRequestBindings value ;;
  validateImplementationRequestAuthority value ;;
  validateImplementationRequestScope value ;;
  validateImplementationRequestCoverage value ;;
  validateImplementationRequestPolicy value ;;
  Ok value.

Definition mapRepositoryContextFile (file : pb_RepositoryContextFile)
    (request : pb_ImplementationRequest) (artifacts : list Artifact) : res RepositoryContextFile :=
  unless (negb (validRepoPath (rf_path file)) ||
          negb (pathWithin (rf_path file) (ir_readable_paths request)) ||
          negb (digestPattern (rf_sha256 file))) (ErrText "invalid repository context") ;;
  unless (sha256_hex (rf_content file) != rf_sha256 file)
    (ErrText "repository context digest mismatch") ;;
  unless (negb (artifactContainsDigest artifacts (rf_sha256 file)))
    (ErrText "repository context is not bound to an input artifact") ;;
  Ok (mkContext (rf_path file) (rf_sha256 file) (rf_content file)).

Definition mapRepositoryContext (value : pb_ImplementationRequest) (artifacts : list Artifact)
    : res (list RepositoryContextFile) :=
  map_each (fun file => mapRepositoryContextFile file value artifacts)
    (ir_repository_context value).

Definition convertImplementationRequest (value : pb_ImplementationRequest)
    : res ImplementationRequest :=
  envelope ← MapEnvelope (ir_envelope value) StageImplementation;
  validateImplementationRequestFields value ;;
  validatePathScopes (ir_readable_paths value) (ir_writable_paths value)
    (ir_prohibited_paths value) ;;
  validateAvailableChecks (ir_available_check_ids value) ;;
  repositoryContext ← mapRepositoryContext value (InputArtifacts envelope);
  Ok (mkImplementationRequestOf envelope (ir_approved_task_id value)
        (ir_approved_task_digest value) (ir_approved_specification_id value)
        (ir_approved_specification_digest value) (ir_base_commit value)
        (ir_readable_paths value) (ir_writable_paths value) (ir_prohibited_paths value)
        (ir_acceptance_criterion_ids value) (ir_available_check_ids value) repositoryContext).

Definition MapImplementationRequestAt (value : option pb_ImplementationRequest)
    (now : option time) : res ImplementationRequest :=
  value ← validateImplementationRequest value now;
  convertImplementationRequest value.

Definition MapImplementationRequest (value : option pb_ImplementationRequest)
    : res ImplementationRequest := MapImplementationRequestAt value None.

End requests.

(** ** Parts of a proposal *)

Definition pathIsProhibited (filePath : string) (prohibitedPaths : list string) : bool :=
  existsb (fun prohibited => pathWithin filePath [prohibited]) prohibitedPaths.

Definition mapScopeChangeRequest (value : option pb_ScopeChangeRequest)
    : res (option ScopeChangeRequest) :=
  match value with
  | None => Ok None
  | Some value =>
      unless (sc_summary value == "") (ErrText "scope change summary is required") ;;
      for_each (for_each (fun requestedPath =>
        unless (negb (validRepoPath requestedPath)) (ErrText "invalid scope change path")))
        [sc_requested_readable_paths value; sc_requested_writable_paths value] ;;
      unless ((0 <? length (sc_requested_acceptance_criterion_ids value))%nat &&
              negb (validCriteria (sc_requested_acceptance_criterion_ids value)))
        (ErrText "invalid scope change acceptance criterion") ;;
      for_each (fun check =>
        unless (negb (checkIDPattern check)) (ErrText "invalid scope change check"))
        (sc_requested_check_ids value) ;;
      Ok (Some (mkScopeChangeRequest (sc_summary value) (sc_requested_readable_paths value)
                  (sc_requested_writable_paths value)
                  (sc_requested_acceptance_criterion_ids value) (sc_requested_check_ids value)))
  end.

Definition validateFileOperation (change : pb_FileChange) : res FileOperation :=
  if fc_operation change =? FILE_OPERATION_CREATE then
    if (fc_expected_original_sha256 change != emptySHA256) ||
       (fc_replacement_content change == None)
    then Err (ErrText "create requires empty-content digest and replacement content")
    else Ok FileCreate
  else if fc_operation change =? FILE_OPERATION_UPDATE then
    if negb (digestPattern (fc_expected_original_sha256 change)) ||
       (fc_replacement_content change == None)
    then Err (ErrText "update requires digest and replacement content")
    else Ok FileUpdate
  else if fc_operation change =? FILE_OPERATION_DELETE then
    if negb (digestPattern (fc_expected_original_sha256 change)) ||
       (fc_replacement_content change != None)
    then Err (ErrText "delete requires digest and no replacement content")
    else Ok FileDelete
  else Err (ErrText "unsupported file operation").

Definition validateRequestedChecks (values : list string) (request : ImplementationRequest)
    : res unit :=
  for_each (fun check =>
    unless (negb (bool_decide (check ∈ AvailableCheckIDs request)))
      (ErrText "undeclared check requested")) values.

(** [covered[criterion] = true] for each criterion. *)
Definition cover (covered : gset string) (criteria : list string) : gset string :=
  foldl (fun covered criterion => {[criterion]} ∪ covered) covered criteria.

Definition mapFileChange (change : pb_FileChange) (request : ImplementationRequest)
    (covered : gset string) : res (FileChange * gset string) :=
  unless (negb (validRepoPath (fc_path change)) ||
          negb (pathWithin (fc_path change) (IR_WritablePaths request)) ||
          (fc_rationale change == "") ||
          (length (fc_acceptance_criterion_ids change) =? 0)%nat)
    (ErrText "invalid or out-of-scope file change") ;;
  unless (pathIsProhibited (fc_path change) (IR_ProhibitedPaths request))
    (ErrText "file change targets prohibited path") ;;
  operation ← validateFileOperation change;
  for_each (fun criterion =>
    unless (negb (bool_decide (criterion ∈ IR_AcceptanceCriterionIDs request)))
      (ErrText "unknown acceptance criterion coverage")) (fc_acceptance_criterion_ids change) ;;
  Ok (mkFileChange (fc_path change) operation (fc_expected_original_sha256 change)
        (fc_replacement_content change) (fc_rationale change)
        (fc_acceptance_criterion_ids change),
      cover covered (fc_acceptance_criterion_ids change)).

Fixpoint mapFileChanges_loop (values : list pb_FileChange) (request : ImplementationRequest)
    (covered : gset string) : res (list FileChange * gset string) :=
  match values with
  | [] => Ok ([], covered)
  | change :: rest =>
      '(mapped, covered) ← mapFileChange change request covered;
      '(changes, covered) ← mapFileChanges_loop rest request covered;
      Ok (mapped :: changes, covered)
  end.

Definition mapFileChanges (values : list pb_FileChange) (request : ImplementationRequest)
    : res (list FileChange * gset string) := mapFileChanges_loop values request ∅.

Definition validateImplementationCoverage (criteria : list string) (covered : gset string)
    : res unit :=
  for_each (fun criterion =>
    unless (negb (bool_decide (criterion ∈ covered)))
      (ErrText "required acceptance coverage missing")) criteria.

(** ** Proposals *)

Definition validateImplementationProposalSchema (value : option pb_ImplementationProposal)
    : res (pb_ImplementationProposal * pb_ProposalIdentity) :=
  let missing := ErrRejected REJECTION_CODE_SCHEMA_INVALID "proposal"
                   "identity, summary, and at least one change are required" in
  match value with
  | Some value =>
      match ip_identity value with
      | Some ident =>
          unless ((ip_summary value == "") || (length (ip_changes value) =? 0)%nat) missing ;;
          rejecting REJECTION_CODE_SCHEMA_INVALID "proposal.scope_change_request"
            (mapScopeChangeRequest (ip_scope_change_request value)) ;;
          for_each (fun change =>
            unless ((fc_path change == "") || (fc_rationale change == "") ||
                    (length (fc_acceptance_criterion_ids change) =? 0)%nat)
              (ErrRejected REJECTION_CODE_SCHEMA_INVALID "proposal.changes"
                 "each change requires path, rationale, and coverage")) (ip_changes value) ;;
          Ok (value, ident)
      | None => Err missing
      end
  | None => Err missing
  end.

Definition validateImplementationProposalIdentity (value : pb_ImplementationProposal)
    (ident : pb_ProposalIdentity) (request : ImplementationRequest) : res unit :=
  let envelope := IR_Envelope request in
  unless ((pi_schema_version ident != Env_SchemaVersion envelope) ||
          (pi_request_id ident != Env_RequestID envelope) ||
          (pi_run_id ident != Env_RunID envelope) ||
          negb (pi_attempt ident =? Env_Attempt envelope) ||
          negb (same_task (pi_task_id ident) (Env_TaskID envelope)) ||
          (ip_approved_task_id value != IR_ApprovedTaskID request) ||
          (ip_approved_task_digest value != IR_ApprovedTaskDigest request) ||
          (ip_approved_specification_digest value != IR_ApprovedSpecificationDigest request))
    (ErrRejected REJECTION_CODE_REQUEST_MISMATCH "proposal.identity"
       "proposal request, task, or attempt does not match").

Definition validateImplementationProposalBindings (ident : pb_ProposalIdentity)
    (request : ImplementationRequest) : res unit :=
  let envelope := IR_Envelope request in
  unless ((pi_agent_manifest_digest ident != AgentManifestDigest envelope) ||
          negb (length (pi_input_artifact_digests ident) =? length (InputArtifacts envelope))%nat)
    (ErrRejected REJECTION_CODE_REQUEST_MISMATCH "proposal.identity"
       "proposal artifact or manifest binding does not match") ;;
  unless (negb (same_digests (pi_input_artifact_digests ident) (InputArtifacts envelope)))
    (ErrRejected REJECTION_CODE_REQUEST_MISMATCH "proposal.identity.input_artifact_digests"
       "proposal artifact binding does not match").

Definition validateImplementationProposalScope (value : pb_ImplementationProposal)
    (request : ImplementationRequest) : res unit :=
  rejecting REJECTION_CODE_SCOPE_VIOLATION "proposal.requested_declared_check_ids"
    (validateRequestedChecks (ip_requested_declared_check_ids value) request) ;;
  for_each (fun change =>
    unless (negb (validRepoPath (fc_path change)) ||
            negb (pathWithin (fc_path change) (IR_WritablePaths request)) ||
            pathIsProhibited (fc_path change) (IR_ProhibitedPaths request))
      (ErrRejected REJECTION_CODE_SCOPE_VIOLATION "proposal.changes.path"
         "file change is outside writable scope") ;;
    for_each (fun criterion =>
      unless (negb (bool_decide (criterion ∈ IR_AcceptanceCriterionIDs request)))
        (ErrRejected REJECTION_CODE_SCOPE_VIOLATION "proposal.changes.acceptance_criterion_ids"
           "change references an unassigned acceptance criterion"))
      (fc_acceptance_criterion_ids change)) (ip_changes value).

Definition validateImplementationProposalCoverage (value : pb_ImplementationProposal)
    (request : ImplementationRequest) : res unit :=
  let covered := foldl (fun covered change => cover covered (fc_acceptance_criterion_ids change))
                   ∅ (ip_changes value) in
  rejecting REJECTION_CODE_REQUIRED_COVERAGE_MISSING "proposal.changes.acceptance_criterion_ids"
    (validateImplementationCoverage (IR_AcceptanceCriterionIDs request) covered).

Definition validateImplementationProposalPolicy (value : pb_ImplementationProposal)
    (ident : pb_ProposalIdentity) : res unit :=
  unless (negb (pi_stage ident =? REASONING_STAGE_IMPLEMENTATION))
    (ErrRejected REJECTION_CODE_SCHEMA_INVALID "proposal.identity.stage"
       "implementation stage is required") ;;
  for_each (fun change =>
    rejecting REJECTION_CODE_SCHEMA_INVALID "proposal.changes.operation"
      (validateFileOperation change ;; Ok tt)) (ip_changes value).

Definition validateImplementationProposal (value : option pb_ImplementationProposal)
    (request : ImplementationRequest) : res (pb_ImplementationProposal * pb_ProposalIdentity) :=
  '(value, ident) ← validateImplementationProposalSchema value;
  validateImplementationProposalIdentity value ident request ;;
  validateImplementationProposalBindings ident request ;;
  validateImplementationProposalScope value request ;;
  validateImplementationProposalCoverage value request ;;
  validateImplementationProposalPolicy value ident ;;
  Ok (value, ident).

Definition convertImplementationProposal (value : pb_ImplementationProposal)
    (ident : pb_ProposalIdentity) (request : ImplementationRequest)
    : res ImplementationProposal :=
  validateProposalIdentity ident (IR_Envelope request) StageImplementation ;;
  unless ((ip_approved_task_id value != IR_ApprovedTaskID request) ||
          (ip_approved_task_digest value != IR_ApprovedTaskDigest request) ||
          (ip_approved_specification_digest value != IR_ApprovedSpecificationDigest request))
    (ErrText "implementation request identity mismatch") ;;
  unless ((ip_summary value == "") || (length (ip_changes value) =? 0)%nat)
    (ErrText "incomplete implementation proposal") ;;
  validateRequestedChecks (ip_requested_declared_check_ids value) request ;;
  '(changes, covered) ← mapFileChanges (ip_changes value) request;
  validateImplementationCoverage (IR_AcceptanceCriterionIDs request) covered ;;
  scopeChange ← mapScopeChangeRequest (ip_scope_change_request value);
  Ok (mkImplementationProposal (ip_summary value) changes
        (ip_requested_declared_check_ids value) (ip_assumptions value)
        (ip_unresolved_questions value) scopeChange).

Definition MapImplementationProposal (value : option pb_ImplementationProposal)
    (request : ImplementationRequest) : res ImplementationProposal :=
  '(value, ident) ← validateImplementationProposal value request;
  convertImplementationProposal value ident request.
