(* ===== verification/CtReview.v ===== *)
(** * Review contracts

    Models [go/internal/reasoning/contracts/review.go]: the request for a
    review, which binds the actual diff of a candidate, the report on its scope
    and the independent evidence, and the proposal that answers it. *)

From S2P Require Import Prelude GoStd GoJson GoText WfTypes CtMessages CtCommon.
From S2P Require Import CtPlanning CtImplementation.

(** [^EVIDENCE-[0-9]{3}$] *)
Definition evidenceIDPattern : string -> bool :=
  matches (Cat (literal "EVIDENCE-") (times 3 digit)).

(** ** Data *)

Record ActualDiffFile := mkActualDiff {
  Diff_Path : string;
  Diff_Operation : FileOperation;
  BeforeSHA256 : string;
  AfterSHA256 : string;
}.

Record ScopeReport := mkScopeReport {
  AuthorizedChangedPaths : list string;
  UnexpectedChangedPaths : list string;
}.

Record IndependentEvidence := mkEvidence {
  Evidence_ID : string;
  Evidence_CheckID : string;
  Evidence_CandidateCommit : string;
  ExitCode : Z;
  OutputSHA256 : string;
  ArtifactURI : string;
  StartedAt : time;
  CompletedAt : time;
}.

Record AcceptanceEvidence := mkAcceptanceEvidence {
  AcceptanceCriterionID : string;
  EvidenceIDs : list string;
}.

Record ReviewPolicy := mkReviewPolicy {
  BlockingSeverities : list string;
  ReportUnrequestedChanges : bool;
}.

Record ReviewRequest := mkReviewRequest {
  RV_Envelope : Envelope;
  RV_ApprovedSpecificationDigest : string;
  RV_ApprovedTaskDigest : string;
  RV_BaseCommit : string;
  RV_CandidateCommit : string;
  ImplementationProposalDigest : string;
  ActualDiff : list ActualDiffFile;
  RV_ScopeReport : ScopeReport;
  RV_IndependentEvidence : list IndependentEvidence;
  RV_AcceptanceCoverage : list AcceptanceEvidence;
  Policy : ReviewPolicy;
  ApprovedAcceptanceCriterionIDs : list string;
  AuthorizedWritablePaths : list string;
}.

Inductive ReviewRecommendation := ReviewReworkRequired | ReviewAdvisoryAccept.
#[global] Instance ReviewRecommendation_eq_dec : EqDecision ReviewRecommendation.
Proof. solve_decision. Defined.

Record ReviewFinding := mkReviewFinding {
  Finding_ID : string;
  Finding_Severity : string;
  Finding_Category : string;
  Finding_Summary : string;
  EvidenceReferences : list string;
}.

Record RequiredAction := mkRequiredAction {
  Action_ID : string;
  FindingID : string;
  Action_Description : string;
}.

Record ResidualRisk := mkResidualRisk {
  Risk_ID : string;
  Risk_Description : string;
  Risk_Severity : string;
}.

Record ReviewProposal := mkReviewProposal {
  Recommendation : ReviewRecommendation;
  Findings : list ReviewFinding;
  RequiredActions : list RequiredAction;
  UnrequestedChanges : list string;
  ResidualRisks : list ResidualRisk;
  RV_Assumptions : list string;
}.

(** ** Parts of a request *)

(** A message whose pointer may be nil, through its getters. *)
Definition candidate_of (c : option pb_ReviewCandidateIdentity) : pb_ReviewCandidateIdentity :=
  default (mkPbCandidate "" "" "" "" "") c.
Definition scope_of (s : option pb_ScopeReport) : pb_ScopeReport := default (mkPbScope [] []) s.
Definition policy_of (p : option pb_ReviewPolicy) : pb_ReviewPolicy :=
  default (mkPbPolicy [] false) p.

Definition validateReviewCandidate (candidate : pb_ReviewCandidateIdentity) : res unit :=
  unless (negb (digestPattern (ci_approved_specification_digest candidate)) ||
          negb (digestPattern (ci_approved_task_digest candidate)) ||
          negb (commitPattern (ci_base_commit candidate)) ||
          negb (commitPattern (ci_candidate_commit candidate)) ||
          negb (digestPattern (ci_implementation_proposal_digest candidate)) ||
          (ci_base_commit candidate == ci_candidate_commit candidate))
    (ErrText "invalid review candidate identity").

Definition mapReviewFileOperation (value : Z) : option FileOperation :=
  if value =? FILE_OPERATION_CREATE then Some FileCreate
  else if value =? FILE_OPERATION_UPDATE then Some FileUpdate
  else if value =? FILE_OPERATION_DELETE then Some FileDelete
  else None.

Fixpoint mapActualDiff_loop (values : list pb_ActualDiffFile) (actualPaths : gset string)
    : res (list ActualDiffFile * gset string) :=
  match values with
  | [] => Ok ([], actualPaths)
  | changed :: rest =>
      match mapReviewFileOperation (df_operation changed) with
      | Some operation =>
          unless (negb (validRepoPath (df_path changed)) ||
                  negb (digestPattern (df_before_sha256 changed)) ||
                  negb (digestPattern (df_after_sha256 changed))) (ErrText "invalid actual diff") ;;
          unless (bool_decide (df_path changed ∈ actualPaths))
            (ErrText "duplicate actual diff path") ;;
          '(actualDiff, actualPaths) ←
            mapActualDiff_loop rest ({[df_path changed]} ∪ actualPaths);
          Ok (mkActualDiff (df_path changed) operation (df_before_sha256 changed)
                (df_after_sha256 changed) :: actualDiff, actualPaths)
      | None => Err (ErrText "invalid actual diff")
      end
  end.

Definition mapActualDiff (value : pb_ReviewRequest) : res (list ActualDiffFile * gset string) :=
  mapActualDiff_loop (rr_actual_diff value) ∅.

(** One of the two loops over the reported paths. *)
Fixpoint report_paths (rejects : string -> bool) (paths : list string) (seen : gset string)
    : res (gset string) :=
  match paths with
  | [] => Ok seen
  | p :: rest =>
      unless (rejects p) (ErrText "scope report does not match actual diff") ;;
      unless (bool_decide (p ∈ seen)) (ErrText "scope report contains duplicate path") ;;
      report_paths rejects rest ({[p]} ∪ seen)
  end.

Definition validateScopeReport (value : pb_ScopeReport) (actualPaths : gset string)
    (authorizedWritablePaths : list string) : res (list string) :=
  let authorizedPaths := ss_authorized_changed_paths value in
  let unexpectedPaths := ss_unexpected_changed_paths value in
  unless (negb (length authorizedPaths + length unexpectedPaths =? size actualPaths)%nat)
    (ErrText "scope report does not match actual diff") ;;
  seenAuthorized ←
    report_paths (fun p => negb (bool_decide (p ∈ actualPaths)) ||
                           negb (pathWithin p authorizedWritablePaths)) authorizedPaths ∅;
  report_paths (fun p => negb (bool_decide (p ∈ actualPaths))) unexpectedPaths seenAuthorized ;;
  Ok authorizedPaths.

Fixpoint mapAcceptanceCoverage_loop (values : list pb_AcceptanceEvidence)
    (approvedCriteria : list string) (passingEvidence coveredCriteria : gset string)
    : res (list AcceptanceEvidence * gset string) :=
  match values with
  | [] => Ok ([], coveredCriteria)
  | coverage :: rest =>
      let criterion := ae_acceptance_criterion_id coverage in
      unless (negb (criterionID criterion) || negb (bool_decide (criterion ∈ approvedCriteria)) ||
              (length (ae_evidence_ids coverage) =? 0)%nat)
        (ErrText "invalid acceptance evidence coverage") ;;
      unless (bool_decide (criterion ∈ coveredCriteria))
        (ErrText "duplicate acceptance evidence coverage") ;;
      for_each (fun evidenceID =>
        unless (negb (bool_decide (evidenceID ∈ passingEvidence)))
          (ErrText "acceptance coverage requires passing evidence")) (ae_evidence_ids coverage) ;;
      '(coverageValues, coveredCriteria) ← mapAcceptanceCoverage_loop rest approvedCriteria
        passingEvidence ({[criterion]} ∪ coveredCriteria);
      Ok (mkAcceptanceEvidence criterion (ae_evidence_ids coverage) :: coverageValues,
          coveredCriteria)
  end.

Definition mapAcceptanceCoverage (values : list pb_AcceptanceEvidence)
    (approvedCriteria : list string) (passingEvidence : gset string)
    : res (list AcceptanceEvidence) :=
  '(coverageValues, coveredCriteria) ←
    mapAcceptanceCoverage_loop values approvedCriteria passingEvidence ∅;
  unless (negb (size coveredCriteria =? length approvedCriteria)%nat)
    (ErrText "required acceptance evidence coverage missing") ;;
  Ok coverageValues.

Definition validateReviewRequestAuthority (value : pb_ReviewRequest) : res unit :=
  rejecting REJECTION_CODE_AUTHORITY_VIOLATION "request.envelope.authority"
    (validateAuthority (re_authority (envelope_of (rr_envelope value)))).

Definition validateReviewRequestScope (value : pb_ReviewRequest) : res unit :=
  unless (length (rr_authorized_writable_paths value) =? 0)%nat
    (ErrRejected REJECTION_CODE_SCOPE_VIOLATION "request.authorized_writable_paths"
       "authorized writable paths are required") ;;
  for_each (fun writablePath =>
    unless (negb (validRepoPath writablePath))
      (ErrRejected REJECTION_CODE_SCOPE_VIOLATION "request.authorized_writable_paths"
         "invalid authorized writable path")) (rr_authorized_writable_paths value) ;;
  '(_, actualPaths) ← rejecting REJECTION_CODE_SCOPE_VIOLATION "request.actual_diff"
                        (mapActualDiff value);
  rejecting REJECTION_CODE_SCOPE_VIOLATION "request.scope_report"
    (validateScopeReport (scope_of (rr_scope_report value)) actualPaths
       (rr_authorized_writable_paths value)) ;;
  Ok tt.

Definition validateReviewRequestShape (value : option pb_ReviewRequest) : res pb_ReviewRequest :=
  let missing := ErrRejected REJECTION_CODE_SCHEMA_INVALID "request"
                   "required v1 review fields are missing" in
  match value with
  | None => Err missing
  | Some value =>
      let envelope := envelope_of (rr_envelope value) in
      unless (negb (bool_decide (is_Some (rr_envelope value))) ||
              negb (bool_decide (is_Some (rr_candidate value))) ||
              (re_created_at envelope == None) || (re_expires_at envelope == None) ||
              negb (bool_decide (is_Some (re_budget envelope))) ||
              negb (bool_decide (is_Some (rr_scope_report value))) ||
              negb (bool_decide (is_Some (rr_review_policy value))) ||
              (length (rr_actual_diff value) =? 0)%nat) missing ;;
      Ok value
  end.

Section requests.
Context `{Protobuf}.

Definition evidence_of (evidence : pb_IndependentEvidence) (started completed : Timestamp)
    : IndependentEvidence :=
  mkEvidence (ie_evidence_id evidence) (ie_check_id evidence) (ie_candidate_commit evidence)
    (ie_exit_code evidence) (ie_output_sha256 evidence) (ie_artifact_uri evidence)
    (AsTime started) (AsTime completed).

(** The known and the passing evidence are the two sets of the loop. *)
Fixpoint mapIndependentEvidence_loop (values : list pb_IndependentEvidence)
    (candidateCommit : string) (known passing : gset string)
    : res (list IndependentEvidence * gset string) :=
  match values with
  | [] => Ok ([], passing)
  | evidence :: rest =>
      match ie_started_at evidence, ie_completed_at evidence with
      | Some started, Some completed =>
          let id := ie_evidence_id evidence in
          unless (negb (evidenceIDPattern id) || negb (checkIDPattern (ie_check_id evidence)) ||
                  (ie_candidate_commit evidence != candidateCommit) ||
                  negb (digestPattern (ie_output_sha256 evidence)) ||
                  (ie_artifact_uri evidence !=
                   "artifact://sha256/" +:+ ie_output_sha256 evidence))
            (ErrText "invalid independent evidence") ;;
          unless (negb (is_Ok (CheckValid started)) || negb (is_Ok (CheckValid completed)) ||
                  negb (After (AsTime completed) (AsTime started)))
            (ErrText "invalid independent evidence timestamps") ;;
          unless (bool_decide (id ∈ known)) (ErrText "duplicate independent evidence") ;;
          '(evidenceValues, passing) ← mapIndependentEvidence_loop rest candidateCommit
            ({[id]} ∪ known) (if ie_exit_code evidence =? 0 then {[id]} ∪ passing else passing);
          Ok (evidence_of evidence started completed :: evidenceValues, passing)
      | _, _ => Err (ErrText "invalid independent evidence")
      end
  end.

Definition mapIndependentEvidence (values : list pb_IndependentEvidence)
    (candidateCommit : string) : res (list IndependentEvidence * gset string) :=
  mapIndependentEvidence_loop values candidateCommit ∅ ∅.

(** [severity.String()] and [category.String()] *)
Definition Severity_String (severity : Z) : string := EnumStringOf FindingSeverity_name severity.
Definition Category_String (category : Z) : string := EnumStringOf FindingCategory_name category.

Definition mapReviewPolicy (value : pb_ReviewPolicy) : res (list string) :=
  let severities := rp_blocking_severities value in
  blockingSeverities ← map_each (fun severity =>
    if severity =? FINDING_SEVERITY_UNSPECIFIED then Err (ErrText "invalid blocking severity")
    else Ok (Severity_String severity)) severities;
  unless ((length blockingSeverities =? 0)%nat ||
          negb (existsb (fun severity => severity =? FINDING_SEVERITY_CRITICAL) severities))
    (ErrText "review policy must block critical findings") ;;
  Ok blockingSeverities.

Definition validateReviewRequestBindings (value : pb_ReviewRequest) (now : option time)
    : res unit :=
  let envelope := envelope_of (rr_envelope value) in
  let mismatch := ErrRejected REJECTION_CODE_REQUEST_MISMATCH "request.envelope"
                    "request identity, attempt, or lifetime is invalid" in
  '(_, expires) ← map_err (fun _ => mismatch) (mapEnvelopeTimes envelope);
  unless (request_identity_missing envelope) mismatch ;;
  unless (expired now expires)
    (ErrRejected REJECTION_CODE_REQUEST_MISMATCH "request.envelope.expires_at"
       "request has expired") ;;
  unless (negb (is_Ok (validateReviewCandidate (candidate_of (rr_candidate value)))) ||
          negb (digestPattern (re_agent_manifest_digest envelope)))
    (ErrRejected REJECTION_CODE_REQUEST_MISMATCH "request.candidate"
       "candidate or manifest binding is invalid") ;;
  rejecting REJECTION_CODE_REQUEST_MISMATCH "request.envelope.input_artifacts"
    (mapArtifacts (re_input_artifacts envelope)) ;;
  Ok tt.

Definition validateReviewRequestCoverage (value : pb_ReviewRequest) : res unit :=
  let code := REJECTION_CODE_REQUIRED_COVERAGE_MISSING in
  unless ((length (rr_approved_acceptance_criterion_ids value) =? 0)%nat ||
          negb (validCriteria (rr_approved_acceptance_criterion_ids value)))
    (ErrRejected code "request.approved_acceptance_criterion_ids"
       "approved acceptance criteria are required") ;;
  unless (length (rr_independent_evidence value) =? 0)%nat
    (ErrRejected code "request.independent_evidence" "independent evidence is required") ;;
  '(_, passingEvidence) ← rejecting code "request.independent_evidence"
    (mapIndependentEvidence (rr_independent_evidence value)
       (ci_candidate_commit (candidate_of (rr_candidate value))));
  unless (length (rr_acceptance_coverage value) =? 0)%nat
    (ErrRejected code "request.acceptance_coverage" "acceptance coverage is required") ;;
  rejecting code "request.acceptance_coverage"
    (mapAcceptanceCoverage (rr_acceptance_coverage value)
       (rr_approved_acceptance_criterion_ids value) passingEvidence) ;;
  Ok tt.

Definition validateReviewRequestPolicy (value : pb_ReviewRequest) : res unit :=
  let envelope := envelope_of (rr_envelope value) in
  unless ((re_schema_version envelope != "1") ||
          negb (re_stage envelope =? REASONING_STAGE_REVIEW))
    (ErrRejected REJECTION_CODE_SCHEMA_INVALID "request.envelope.stage"
       "review stage and schema version 1 are required") ;;
  rejecting REJECTION_CODE_SCHEMA_INVALID "request.envelope.budget"
    (validateEnvelopeBudget envelope) ;;
  rejecting REJECTION_CODE_SCHEMA_INVALID "request.review_policy"
    (mapReviewPolicy (policy_of (rr_review_policy value))) ;;
  Ok tt.

(** ** Requests *)

Definition convertReviewRequest (value : pb_ReviewRequest) : res ReviewRequest :=
  match rr_candidate value with
  | None => Err (ErrText "review request and candidate are required")
  | Some candidate =>
      envelope ← MapEnvelope (rr_envelope value) StageReview;
      validateReviewCandidate candidate ;;
      '(actualDiff, actualPaths) ← mapActualDiff value;
      authorizedPaths ← validateScopeReport (scope_of (rr_scope_report value)) actualPaths
        (rr_authorized_writable_paths value);
      '(evidenceValues, passingEvidence) ←
        mapIndependentEvidence (rr_independent_evidence value) (ci_candidate_commit candidate);
      coverageValues ← mapAcceptanceCoverage (rr_acceptance_coverage value)
        (rr_approved_acceptance_criterion_ids value) passingEvidence;
      blockingSeverities ← mapReviewPolicy (policy_of (rr_review_policy value));
      Ok (mkReviewRequest envelope (ci_approved_specification_digest candidate)
            (ci_approved_task_digest candidate) (ci_base_commit candidate)
            (ci_candidate_commit candidate) (ci_implementation_proposal_digest candidate)
            actualDiff
            (mkScopeReport authorizedPaths
               (ss_unexpected_changed_paths (scope_of (rr_scope_report value))))
            evidenceValues coverageValues
            (mkReviewPolicy blockingSeverities
               (rp_report_unrequested_changes (policy_of (rr_review_policy value))))
            (rr_approved_acceptance_criterion_ids value) (rr_authorized_writable_paths value))
  end.

Definition MapReviewRequestAt (value : option pb_ReviewRequest) (now : option time)
    : res ReviewRequest :=
  value ← validateReviewRequestShape value;
  validateReviewRequestBindings value now ;;
  validateReviewRequestAuthority value ;;
  validateReviewRequestScope value ;;
  validateReviewRequestCoverage value ;;
  validateReviewRequestPolicy value ;;
  map_err (fun e => ErrWrap e "validated review request conversion") (convertReviewRequest value).

Definition MapReviewRequest (value : option pb_ReviewRequest) : res ReviewRequest :=
  MapReviewRequestAt value None.

(** ** Proposals *)

Definition mapReviewRecommendation (value : Z) : res ReviewRecommendation :=
  if value =? REVIEW_RECOMMENDATION_REWORK_REQUIRED then Ok ReviewReworkRequired
  else if value =? REVIEW_RECOMMENDATION_ADVISORY_ACCEPT then Ok ReviewAdvisoryAccept
  else Err (ErrText "invalid review recommendation").

Definition collectReviewEvidenceIDs (values : list IndependentEvidence) : gset string :=
  foldl (fun known evidence => {[Evidence_ID evidence]} ∪ known) ∅ values.

Fixpoint mapReviewFindings_loop (values : list pb_ReviewFinding) (knownEvidence : gset string)
    (policy : ReviewPolicy) (findingIDs : gset string) (hasBlockingFinding : bool)
    : res (list ReviewFinding * gset string * bool) :=
  match values with
  | [] => Ok ([], findingIDs, hasBlockingFinding)
  | finding :: rest =>
      unless ((rg_finding_id finding == "") ||
              (rg_severity finding =? FINDING_SEVERITY_UNSPECIFIED) ||
              (rg_category finding =? FINDING_CATEGORY_UNSPECIFIED) ||
              (rg_summary finding == "") || (length (rg_evidence_references finding) =? 0)%nat)
        (ErrRejected REJECTION_CODE_SCHEMA_INVALID "proposal.findings" "invalid review finding") ;;
      unless (bool_decide (rg_finding_id finding ∈ findingIDs))
        (ErrRejected REJECTION_CODE_SCHEMA_INVALID "proposal.findings"
           "duplicate review finding") ;;
      for_each (fun reference =>
        unless (negb (bool_decide (reference ∈ knownEvidence)))
          (ErrRejected REJECTION_CODE_REQUEST_MISMATCH "proposal.findings.evidence_references"
             "finding references evidence outside the bound review request"))
        (rg_evidence_references finding) ;;
      let severity := Severity_String (rg_severity finding) in
      let blocks := bool_decide (severity ∈ BlockingSeverities policy) in
      '(findings, findingIDs, hasBlockingFinding) ←
        mapReviewFindings_loop rest knownEvidence policy
          ({[rg_finding_id finding]} ∪ findingIDs) (blocks || hasBlockingFinding);
      Ok (mkReviewFinding (rg_finding_id finding) severity
            (Category_String (rg_category finding)) (rg_summary finding)
            (rg_evidence_references finding) :: findings, findingIDs, hasBlockingFinding)
  end.

Definition mapReviewFindings (values : list pb_ReviewFinding) (knownEvidence : gset string)
    (policy : ReviewPolicy) : res (list ReviewFinding * gset string * bool) :=
  mapReviewFindings_loop values knownEvidence policy ∅ false.

Definition mapRequiredActions (values : list pb_RequiredAction) (findingIDs : gset string)
    : res (list RequiredAction) :=
  map_each (fun action =>
    unless ((ra_action_id action == "") || (ra_finding_id action == "") ||
            (ra_description action == "")) (ErrText "invalid required action") ;;
    unless (negb (bool_decide (ra_finding_id action ∈ findingIDs)))
      (ErrText "required action references unknown finding") ;;
    Ok (mkRequiredAction (ra_action_id action) (ra_finding_id action) (ra_description action)))
    values.

Definition mapResidualRisks (values : list pb_ResidualRisk) : res (list ResidualRisk) :=
  map_each (fun risk =>
    unless ((rk_risk_id risk == "") || (rk_description risk == "") ||
            (rk_severity risk =? FINDING_SEVERITY_UNSPECIFIED)) (ErrText "invalid residual risk") ;;
    Ok (mkResidualRisk (rk_risk_id risk) (rk_description risk)
          (Severity_String (rk_severity risk)))) values.

Definition MapReviewProposal (value : option pb_ReviewProposal) (request : ReviewRequest)
    : res ReviewProposal :=
  let missing := ErrRejected REJECTION_CODE_SCHEMA_INVALID "proposal"
                   "review proposal identity is required" in
  match value with
  | None => Err missing
  | Some value =>
      match rv_identity value with
      | None => Err missing
      | Some ident =>
          rejecting REJECTION_CODE_REQUEST_MISMATCH "proposal.identity"
            (validateProposalIdentity ident (RV_Envelope request) StageReview) ;;
          recommendation ← rejecting REJECTION_CODE_SCHEMA_INVALID "proposal.recommendation"
            (mapReviewRecommendation (rv_recommendation value));
          '(findings, findingIDs, hasBlockingFinding) ←
            mapReviewFindings (rv_findings value)
              (collectReviewEvidenceIDs (RV_IndependentEvidence request)) (Policy request);
          unless (hasBlockingFinding && (recommendation != ReviewReworkRequired))
            (ErrRejected REJECTION_CODE_AUTHORITY_VIOLATION "proposal.recommendation"
               "blocking finding requires rework recommendation") ;;
          actions ← rejecting REJECTION_CODE_REQUIRED_COVERAGE_MISSING "proposal.required_actions"
            (mapRequiredActions (rv_required_actions value) findingIDs);
          risks ← rejecting REJECTION_CODE_SCHEMA_INVALID "proposal.residual_risks"
            (mapResidualRisks (rv_residual_risks value));
          Ok (mkReviewProposal recommendation findings actions (rv_unrequested_changes value)
                risks (rv_assumptions value))
      end
  end.

End requests.
