(* ===== verification/CtImplementationProps.v ===== *)
(** * What the implementation contracts accept

    A proposal is characterised by the changes it may make; what the
    validators accept the conversions accept too, with one exception. *)

From S2P Require Import Prelude GoStd GoJson GoText WfTypes CtMessages CtCommon.
From S2P Require Import CtPlanning CtGraph CtPlanningProps CtImplementation.

(** ** Changes *)

(** The digest and the content that each operation requires. *)
Inductive operation_fits (f : pb_FileChange) : FileOperation -> Prop :=
| fits_create content :
    fc_operation f = FILE_OPERATION_CREATE ->
    fc_expected_original_sha256 f = emptySHA256 ->
    fc_replacement_content f = Some content ->
    operation_fits f FileCreate
| fits_update content :
    fc_operation f = FILE_OPERATION_UPDATE ->
    digestPattern (fc_expected_original_sha256 f) = true ->
    fc_replacement_content f = Some content ->
    operation_fits f FileUpdate
| fits_delete :
    fc_operation f = FILE_OPERATION_DELETE ->
    digestPattern (fc_expected_original_sha256 f) = true ->
    fc_replacement_content f = None ->
    operation_fits f FileDelete.

Lemma validateFileOperation_spec f op : validateFileOperation f = Ok op <-> operation_fits f op.
Proof.
  unfold validateFileOperation. split.
  - destruct (Z.eqb_spec (fc_operation f) FILE_OPERATION_CREATE) as [H1|H1].
    { destruct (fc_replacement_content f) eqn:Hc; case_bool_decide as Hd; cbn; try done.
      intros [= <-]. by eapply fits_create. }
    destruct (Z.eqb_spec (fc_operation f) FILE_OPERATION_UPDATE) as [H2|H2].
    { destruct (fc_replacement_content f) eqn:Hc; destruct (digestPattern _) eqn:Hd; cbn; try done.
      intros [= <-]. by eapply fits_update. }
    destruct (Z.eqb_spec (fc_operation f) FILE_OPERATION_DELETE) as [H3|H3]; [|done].
    destruct (fc_replacement_content f) eqn:Hc; destruct (digestPattern _) eqn:Hd; cbn; try done.
    intros [= <-]. by apply fits_delete.
  - intros [c Ho Hd Hc|c Ho Hd Hc|Ho Hd Hc]; rewrite Ho, Hc; cbn; rewrite Hd; cbn.
    + by rewrite bool_decide_true.
    + done.
    + done.
Qed.

(** The change [c] that an accepted change [f] of a proposal becomes. *)
Record change_accepted (request : ImplementationRequest) (f : pb_FileChange) (c : FileChange)
    : Prop := {
  ca_path : repository_path (fc_path f);
  ca_writable : covered_by (IR_WritablePaths request) (fc_path f);
  ca_permitted : forall q, q ∈ IR_ProhibitedPaths request -> ~ below q (fc_path f);
  ca_rationale : fc_rationale f <> "";
  ca_covers : fc_acceptance_criterion_ids f <> [];
  ca_assigned : forall k, k ∈ fc_acceptance_criterion_ids f -> k ∈ IR_AcceptanceCriterionIDs request;
  ca_operation : operation_fits f (Operation c);
  ca_change : c = mkFileChange (fc_path f) (Operation c) (fc_expected_original_sha256 f)
    (fc_replacement_content f) (fc_rationale f) (fc_acceptance_criterion_ids f);
}.

Lemma pathIsProhibited_spec p prohibited :
  pathIsProhibited p prohibited = false <-> forall q, q ∈ prohibited -> ~ below q p.
Proof.
  unfold pathIsProhibited. rewrite <- not_true_iff_false, existsb_exists. split.
  - intros H q Hq Hb. apply H. exists q. split; [by apply list_elem_of_In|].
    apply pathWithin_spec. exists q. split; [by left|done].
  - intros H (q & Hq & (r & Hr & Hb)%pathWithin_spec). apply list_elem_of_singleton in Hr as ->.
    apply (H q); [by apply list_elem_of_In|done].
Qed.

Lemma elem_of_cover x s l : x ∈ cover s l <-> x ∈ s \/ x ∈ l.
Proof.
  unfold cover. revert s. induction l as [|y l IH]; intros s; cbn [foldl]; [set_solver|].
  rewrite IH. set_solver.
Qed.

Lemma all_in (l k : list string) e :
  for_each (fun x => unless (negb (bool_decide (x ∈ k))) e) l = Ok tt <-> forall x, x ∈ l -> x ∈ k.
Proof.
  rewrite for_each_unless. apply forall_proper. intros x. apply forall_proper. intros _.
  by rewrite negb_false_iff, bool_decide_eq_true.
Qed.

Lemma mapFileChange_spec f request s c s' :
  mapFileChange f request s = Ok (c, s') <->
  change_accepted request f c /\ s' = cover s (fc_acceptance_criterion_ids f).
Proof.
  unfold mapFileChange. rewrite !then_Ok, !unless_Ok, !orb_false_iff, length_zero, string_nonempty,
    pathIsProhibited_spec, !negb_false_iff, validRepoPath_spec, pathWithin_spec, res_bind_Ok.
  split.
  - intros ((((Hp & Hw) & Hr) & Hc) & Hno & op & Hop & Hk).
    rewrite then_Ok, all_in in Hk. destruct Hk as [Hk [= <- <-]]. split; [|done].
    split; cbn; try done. by apply validateFileOperation_spec.
  - intros [[] ->]. split; [done|]. split; [done|]. exists (Operation c).
    rewrite validateFileOperation_spec, then_Ok, all_in. split; [done|]. split; [done|]. by do 2 f_equal.
Qed.

Lemma mapFileChanges_spec fs request cs covered :
  mapFileChanges fs request = Ok (cs, covered) <->
  Forall2 (change_accepted request) fs cs /\
  covered = foldl (fun s f => cover s (fc_acceptance_criterion_ids f)) ∅ fs.
Proof.
  unfold mapFileChanges. generalize (∅ : gset string). revert cs covered.
  induction fs as [|f fs IH]; intros cs covered s; cbn [mapFileChanges_loop foldl].
  - split; [intros [= <- <-]; by split; [constructor|]|].
    by intros [->%Forall2_nil_inv_l ->].
  - rewrite res_bind_Ok. split.
    + intros ([c s'] & [Hc ->]%mapFileChange_spec & Hr).
      apply res_bind_Ok in Hr as ([cs' s''] & [Hcs ->]%IH & [= <- <-]). split; [by constructor|done].
    + intros [(c & cs' & Hc & Hcs & ->)%Forall2_cons_inv_l ->].
      exists (c, cover s (fc_acceptance_criterion_ids f)). split; [by apply mapFileChange_spec|].
      apply res_bind_Ok. eexists (cs', _). split; [by apply IH|done].
Qed.

Lemma covered_spec fs x :
  x ∈ foldl (fun s f => cover s (fc_acceptance_criterion_ids f)) (∅ : gset string) fs <->
  exists f, f ∈ fs /\ x ∈ fc_acceptance_criterion_ids f.
Proof.
  assert (Hgen : forall s : gset string,
    x ∈ foldl (fun s f => cover s (fc_acceptance_criterion_ids f)) s fs <->
    x ∈ s \/ exists f, f ∈ fs /\ x ∈ fc_acceptance_criterion_ids f).
  { induction fs as [|f fs IH]; intros s; cbn [foldl]; [set_solver|].
    rewrite IH, elem_of_cover. set_solver. }
  rewrite Hgen. set_solver.
Qed.

Lemma validateImplementationCoverage_spec criteria covered :
  validateImplementationCoverage criteria covered = Ok tt <->
  forall c, c ∈ criteria -> c ∈ covered.
Proof.
  unfold validateImplementationCoverage. rewrite for_each_unless.
  apply forall_proper. intros x. apply forall_proper. intros _.
  by rewrite negb_false_iff, bool_decide_eq_true.
Qed.

(** ** Requests for a wider scope *)

Record scope_change_valid (v : pb_ScopeChangeRequest) : Prop := {
  sv_summary : sc_summary v <> "";
  sv_paths : forall p, p ∈ sc_requested_readable_paths v ++ sc_requested_writable_paths v ->
    repository_path p;
  sv_criteria : validCriteria (sc_requested_acceptance_criterion_ids v) = true;
  sv_checks : forall c, c ∈ sc_requested_check_ids v -> checkIDPattern c = true;
}.

Definition scope_change (v : pb_ScopeChangeRequest) : ScopeChangeRequest :=
  mkScopeChangeRequest (sc_summary v) (sc_requested_readable_paths v)
    (sc_requested_writable_paths v) (sc_requested_acceptance_criterion_ids v)
    (sc_requested_check_ids v).

Lemma mapScopeChangeRequest_spec o r :
  mapScopeChangeRequest o = Ok r <->
  (forall v, o = Some v -> scope_change_valid v) /\ r = scope_change <$> o.
Proof.
  destruct o as [v|]; cbn [mapScopeChangeRequest fmap option_fmap option_map]; [|naive_solver].
  rewrite !then_Ok, unless_Ok, string_nonempty, for_each_Ok, !Forall_cons, !for_each_unless, unless_Ok.
  assert (Hcr : (0 <? length (sc_requested_acceptance_criterion_ids v))%nat &&
    negb (validCriteria (sc_requested_acceptance_criterion_ids v)) = false <->
    validCriteria (sc_requested_acceptance_criterion_ids v) = true).
  { rewrite andb_false_iff, negb_false_iff.
    destruct (sc_requested_acceptance_criterion_ids v); cbn; naive_solver. }
  rewrite Hcr. split.
  - intros (Hs & (H1 & H2 & _) & Hc & Hk & [= <-]). split; [|done]. intros ? [= <-].
    split; [done| |done|]; intros x Hx.
    + apply validRepoPath_spec, negb_false_iff. apply elem_of_app in Hx as [?|?]; auto.
    + by apply negb_false_iff, Hk.
  - intros [Hv ->]. destruct (Hv v eq_refl) as [Hs Hp Hc Hk]. split; [done|].
    split; [split; [|split; [|constructor]]|split; [done|split; [|done]]]; intros x Hx;
      apply negb_false_iff; auto; apply validRepoPath_spec, Hp, elem_of_app; auto.
Qed.

(** ** Proposals *)

(** What an accepted proposal satisfies, and the value it becomes. *)
Record implementation_acceptable (request : ImplementationRequest) (ident : pb_ProposalIdentity)
    (value : pb_ImplementationProposal) (p : ImplementationProposal) : Prop := {
  ia_identity : answers (IR_Envelope request) StageImplementation ident;
  ia_task : ip_approved_task_id value = IR_ApprovedTaskID request /\
    ip_approved_task_digest value = IR_ApprovedTaskDigest request /\
    ip_approved_specification_digest value = IR_ApprovedSpecificationDigest request;
  ia_summary : ip_summary value <> "";
  ia_some : ip_changes value <> [];
  ia_checks : forall c, c ∈ ip_requested_declared_check_ids value -> c ∈ AvailableCheckIDs request;
  ia_changes : Forall2 (change_accepted request) (ip_changes value) (Changes p);
  ia_coverage : forall c, c ∈ IR_AcceptanceCriterionIDs request ->
    exists f, f ∈ ip_changes value /\ c ∈ fc_acceptance_criterion_ids f;
  ia_scope : forall v, ip_scope_change_request value = Some v -> scope_change_valid v;
  ia_value : p = mkImplementationProposal (ip_summary value) (Changes p)
    (ip_requested_declared_check_ids value) (ip_assumptions value)
    (ip_unresolved_questions value) (scope_change <$> ip_scope_change_request value);
}.

Lemma convertImplementationProposal_spec value ident request p :
  convertImplementationProposal value ident request = Ok p <->
  implementation_acceptable request ident value p.
Proof.
  unfold convertImplementationProposal, validateRequestedChecks.
  rewrite !then_Ok, validateProposalIdentity_spec, !unless_Ok, !orb_false_iff, string_nonempty,
    length_zero, !negb_false_iff, !bool_decide_eq_true, all_in, res_bind_Ok.
  split.
  - intros (Hid & [[Ht1 Ht2] Ht3] & [Hs Hne] & Hck & [cs covered] & [Hcs ->]%mapFileChanges_spec & Hr).
    apply then_Ok in Hr as [Hcov Hr]. rewrite validateImplementationCoverage_spec in Hcov.
    apply res_bind_Ok in Hr as (sc & [Hsc ->]%mapScopeChangeRequest_spec & [= <-]).
    split; cbn; try done. intros c Hc. by apply covered_spec, Hcov.
  - intros [Hid (? & ? & ?) Hs Hne Hck Hcs Hcov Hsc ->]. cbn [Changes] in *.
    split; [done|]. split; [done|]. split; [done|]. split; [done|].
    eexists (_, _). split; [by apply mapFileChanges_spec|]. apply then_Ok. split.
    + apply validateImplementationCoverage_spec. intros c Hc. by apply covered_spec, Hcov.
    + apply res_bind_Ok. eexists. split; [by apply mapScopeChangeRequest_spec|done].
Qed.

(** ** The validators of a proposal *)

Lemma proposal_schema_spec value v i :
  validateImplementationProposalSchema value = Ok (v, i) <->
  value = Some v /\ ip_identity v = Some i /\ ip_summary v <> "" /\ ip_changes v <> [] /\
  (forall sc, ip_scope_change_request v = Some sc -> scope_change_valid sc) /\
  (forall f, f ∈ ip_changes v ->
     fc_path f <> "" /\ fc_rationale f <> "" /\ fc_acceptance_criterion_ids f <> []).
Proof.
  unfold validateImplementationProposalSchema.
  destruct value as [value|]; [|naive_solver]. destruct (ip_identity value) as [ident|] eqn:Hi;
    [|naive_solver].
  rewrite then_Ok, unless_Ok, orb_false_iff, string_nonempty, length_zero, res_bind_Ok.
  assert (Hf : for_each (fun change =>
      unless ((fc_path change == "") || (fc_rationale change == "") ||
              (length (fc_acceptance_criterion_ids change) =? 0)%nat)
        (ErrRejected REJECTION_CODE_SCHEMA_INVALID "proposal.changes"
           "each change requires path, rationale, and coverage")) (ip_changes value) = Ok tt <->
    (forall f, f ∈ ip_changes value ->
     fc_path f <> "" /\ fc_rationale f <> "" /\ fc_acceptance_criterion_ids f <> [])).
  { rewrite for_each_unless. apply forall_proper. intros f. apply forall_proper. intros _.
    rewrite !orb_false_iff, !string_nonempty, length_zero. tauto. }
  split.
  - intros (Hne & sc & [Hsc ->]%rejecting_Ok%mapScopeChangeRequest_spec & Hr).
    rewrite then_Ok, Hf in Hr. destruct Hr as [Hr [= <- <-]]. naive_solver.
  - intros ([= <-] & Hi' & H1 & H2 & H3 & H4). split; [done|]. eexists. split.
    + by apply rejecting_Ok, mapScopeChangeRequest_spec.
    + rewrite then_Ok, Hf. split; [done|congruence].
Qed.

Lemma proposal_scope_spec value request :
  validateImplementationProposalScope value request = Ok tt <->
  (forall c, c ∈ ip_requested_declared_check_ids value -> c ∈ AvailableCheckIDs request) /\
  (forall f, f ∈ ip_changes value ->
     repository_path (fc_path f) /\ covered_by (IR_WritablePaths request) (fc_path f) /\
     (forall q, q ∈ IR_ProhibitedPaths request -> ~ below q (fc_path f)) /\
     (forall k, k ∈ fc_acceptance_criterion_ids f -> k ∈ IR_AcceptanceCriterionIDs request)).
Proof.
  unfold validateImplementationProposalScope, validateRequestedChecks.
  rewrite then_Ok, rejecting_Ok, all_in. apply and_iff_compat_l.
  rewrite for_each_Ok, Forall_forall. apply forall_proper. intros f. apply forall_proper. intros _.
  rewrite then_Ok, unless_Ok, !orb_false_iff, pathIsProhibited_spec, !negb_false_iff,
    validRepoPath_spec, pathWithin_spec, all_in. unfold covered_by, repository_path. tauto.
Qed.

Lemma proposal_policy_spec value i :
  validateImplementationProposalPolicy value i = Ok tt <->
  pi_stage i = REASONING_STAGE_IMPLEMENTATION /\
  (forall f, f ∈ ip_changes value -> exists op, operation_fits f op).
Proof.
  unfold validateImplementationProposalPolicy.
  rewrite then_Ok, unless_Ok, negb_false_iff, Z.eqb_eq. apply and_iff_compat_l.
  rewrite for_each_Ok, Forall_forall. apply forall_proper. intros f. apply forall_proper. intros _.
  rewrite rejecting_Ok, res_bind_Ok. split.
  - intros (op & Hop & _). exists op. by apply validateFileOperation_spec.
  - intros (op & Hop). exists op. split; [by apply validateFileOperation_spec|done].
Qed.

Lemma proposal_identity_spec value i request :
  validateImplementationProposalIdentity value i request = Ok tt /\
  validateImplementationProposalBindings i request = Ok tt /\
  pi_stage i = REASONING_STAGE_IMPLEMENTATION <->
  answers (IR_Envelope request) StageImplementation i /\
  ip_approved_task_id value = IR_ApprovedTaskID request /\
  ip_approved_task_digest value = IR_ApprovedTaskDigest request /\
  ip_approved_specification_digest value = IR_ApprovedSpecificationDigest request.
Proof.
  unfold validateImplementationProposalIdentity, validateImplementationProposalBindings, same_task.
  rewrite !then_Ok, !unless_Ok, !orb_false_iff, !(negb_false_iff (bool_decide _)),
    !bool_decide_eq_true, (negb_false_iff (_ =? _)%Z), Z.eqb_eq.
  pose proof (artifact_digests_spec (pi_input_artifact_digests i) (InputArtifacts (IR_Envelope request))).
  split.
  - intros (Ha & Hb & Hc). split; [split|]; tauto.
  - intros [[] Ht]. cbn [stage_number] in *. tauto.
Qed.

(** Each change of the list is accepted when each can be. *)
Lemma changes_accepted_exist request fs :
  (forall f, f ∈ fs -> exists c, change_accepted request f c) <->
  exists cs, Forall2 (change_accepted request) fs cs.
Proof.
  split.
  - induction fs as [|f fs IH]; intros Hf; [by exists []|].
    destruct (Hf f) as [c Hc]; [by left|]. destruct IH as [cs Hcs].
    + intros g Hg. apply Hf. by right.
    + exists (c :: cs). by constructor.
  - intros [cs Hcs] f Hf. destruct (Forall2_in_l _ _ _ _ Hcs Hf) as (c & _ & Hc). by exists c.
Qed.

Lemma proposal_coverage_spec value request :
  validateImplementationProposalCoverage value request = Ok tt <->
  forall c, c ∈ IR_AcceptanceCriterionIDs request ->
    exists f, f ∈ ip_changes value /\ c ∈ fc_acceptance_criterion_ids f.
Proof.
  unfold validateImplementationProposalCoverage. cbv zeta.
  rewrite rejecting_Ok, validateImplementationCoverage_spec.
  apply forall_proper. intros x. apply forall_proper. intros _. apply covered_spec.
Qed.

Lemma repository_path_nonempty p : repository_path p -> p <> "".
Proof.
  intros [->|[Hp _]]; [done|]. intros ->. vm_compute in Hp. apply Forall_cons in Hp as [[? _] _]. done.
Qed.

(** The validators accept a proposal exactly when it is acceptable. *)
Lemma validateImplementationProposal_spec value request v i :
  validateImplementationProposal (Some value) request = Ok (v, i) <->
  v = value /\ ip_identity value = Some i /\ exists p, implementation_acceptable request i value p.
Proof.
  unfold validateImplementationProposal. rewrite res_bind_Ok. split.
  - intros ([v' i'] & Hsch & Hr). rewrite !then_Ok in Hr.
    destruct Hr as (Hid & Hbind & Hscope & Hcov & Hpol & [= <- <-]).
    apply proposal_schema_spec in Hsch as ([= <-] & Hi & Hs & Hne & Hsc & Hfs).
    apply proposal_policy_spec in Hpol as [Hst Hops].
    destruct (proj1 (proposal_identity_spec value i' request)) as (Han & Ht1 & Ht2 & Ht3); [done|].
    rewrite proposal_scope_spec in Hscope. destruct Hscope as [Hck Hch].
    rewrite proposal_coverage_spec in Hcov. split; [done|]. split; [done|].
    destruct (proj1 (changes_accepted_exist request (ip_changes value))) as [cs Hcs].
    { intros f Hf. destruct (Hops f Hf) as [op Hop]. destruct (Hch f Hf) as (? & ? & ? & ?).
      destruct (Hfs f Hf) as (? & ? & ?).
      exists (mkFileChange (fc_path f) op (fc_expected_original_sha256 f)
        (fc_replacement_content f) (fc_rationale f) (fc_acceptance_criterion_ids f)). by split. }
    eexists (mkImplementationProposal _ cs _ _ _ _). split; cbn; try done.
  - intros (-> & Hi & p & [Han Ht Hs Hne Hck Hcs Hcov Hsc _]). exists (value, i).
    assert (Hch : forall f, f ∈ ip_changes value -> exists c, change_accepted request f c)
      by (apply changes_accepted_exist; eauto).
    destruct (proj2 (proposal_identity_spec value i request)) as (Hid & Hbind & Hst); [done|].
    split; [apply proposal_schema_spec; split_and!; try done|rewrite !then_Ok; split_and!; try done].
    + intros f Hf. destruct (Hch f Hf) as [c []]. split; [by apply repository_path_nonempty|done].
    + apply proposal_scope_spec. split; [done|]. intros f Hf. by destruct (Hch f Hf) as [c []].
    + by apply proposal_coverage_spec.
    + apply proposal_policy_spec. split; [done|]. intros f Hf. destruct (Hch f Hf) as [c []].
      by exists (Operation c).
Qed.

