(* ===== verification/CtRejections.v ===== *)
(** * Rejections of the contracts and what reviews may say *)

From S2P Require Import Prelude GoStd GoJson GoText WfTypes CtMessages CtCommon CtPlanning.
From S2P Require Import CtGraph CtPlanningProps CtImplementation CtImplementationProps CtReview.

(** * Rejections carry a code

    A caller of the mapping functions turns an error with a rejection code into
    an answer to its client and any other error into a failure.  The validators
    only produce errors with a code; what passes them is converted, so the
    errors of the conversions are never seen, with one exception. *)

(** ** Errors with a code *)

(** Every error the computation can end with has a code. *)
Definition coded {A} (r : res A) : Prop :=
  forall e, r = Err e -> is_Some (ValidationCode e).

Lemma coded_Ok {A} (a : A) : coded (Ok a).
Proof. by intros e. Qed.

Lemma coded_Err {A} code field msg : coded (@Err A (ErrRejected code field msg)).
Proof. intros e [= <-]. by eexists. Qed.

Lemma coded_unless b code field msg : coded (unless b (ErrRejected code field msg)).
Proof. destruct b; [apply coded_Err|apply coded_Ok]. Qed.

Lemma coded_rejecting {A} code field (r : res A) : coded (rejecting code field r).
Proof. unfold rejecting. destruct r as [a|e]; [apply coded_Ok|apply coded_Err]. Qed.

Lemma coded_map_err {A} code field msg (r : res A) :
  coded (map_err (fun _ => ErrRejected code field msg) r).
Proof. destruct r as [a|e]; [apply coded_Ok|apply coded_Err]. Qed.

Lemma coded_bind {A B} (r : res A) (f : A -> res B) :
  coded r -> (forall a, r = Ok a -> coded (f a)) -> coded (r ≫= f).
Proof. intros Hr Hf. destruct r as [a|e]; [by apply Hf|]. intros e' [= <-]. by apply Hr. Qed.

Lemma coded_for_each {A} (f : A -> res unit) l : (forall a, coded (f a)) -> coded (for_each f l).
Proof.
  intros Hf. induction l as [|a l IH]; [apply coded_Ok|]. cbn. by apply coded_bind.
Qed.

Create HintDb coded.
#[local] Hint Resolve coded_Ok coded_Err coded_unless coded_rejecting coded_map_err : coded.

Ltac coded :=
  repeat first
    [ progress intros | progress cbv zeta | solve [eauto with coded]
    | apply coded_bind | apply coded_for_each
    | match goal with
      | |- coded (match ?x with _ => _ end) => destruct x
      | |- coded (let '(_, _) := ?x in _) => destruct x
      end ].

(** ** Envelopes *)

Definition envelope_complete (e : pb_ReasoningRequestEnvelope) (s : Stage) : Prop :=
  re_stage e = stage_number s /\ re_schema_version e = "1" /\ re_request_id e <> "" /\
  re_run_id e <> "" /\ validateAuthority (re_authority e) = Ok tt /\
  validateEnvelopeBudget e = Ok tt /\ digestPattern (re_agent_manifest_digest e) = true.

Section rejections.
Context `{Protobuf}.

Lemma MapEnvelope_complete e s times artifacts :
  envelope_complete e s -> mapEnvelopeTimes e = Ok times ->
  mapArtifacts (re_input_artifacts e) = Ok artifacts ->
  exists env, MapEnvelope (Some e) s = Ok env /\ InputArtifacts env = artifacts.
Proof.
  intros (Hst & Hv & Hq & Hr & Hau & Hb & Hm) Ht Ha. destruct times as [created expires].
  unfold MapEnvelope, validateEnvelopeHeader.
  rewrite (proj2 (stage_is_spec _ _) Hst), Hau, (bool_decide_true (re_schema_version e = "1")) by done.
  rewrite !bool_decide_false by done. cbn -[digestPattern].
  rewrite Ht. cbn -[digestPattern]. rewrite Hb. cbn -[digestPattern]. rewrite Hm. cbn. rewrite Ha.
  by eexists.
Qed.

Lemma identity_missing_spec e :
  request_identity_missing e = false <->
  re_request_id e <> "" /\ re_run_id e <> "" /\ get_string (re_task_id e) <> "" /\ re_attempt e <> 0.
Proof.
  unfold request_identity_missing. rewrite !orb_false_iff, !string_nonempty, Z.eqb_neq. tauto.
Qed.

(** ** Requests for an implementation *)

Context `{Platform}.

Lemma validators_coded value now : coded (validateImplementationRequest value now).
Proof.
  unfold validateImplementationRequest, validateImplementationRequestSchema, validationFailure,
    validateImplementationRequestIdentity, validateImplementationRequestBindings,
    validateImplementationRequestAuthority, validateImplementationRequestScope,
    validateImplementationRequestCoverage, validateImplementationRequestPolicy.
  coded.
Qed.

Lemma repository_context_binds value artifacts :
  (forall file, file ∈ ir_repository_context value ->
     validRepoPath (rf_path file) = true /\
     pathWithin (rf_path file) (ir_readable_paths value) = true /\
     digestPattern (rf_sha256 file) = true /\ sha256_hex (rf_content file) = rf_sha256 file /\
     artifactContainsDigest artifacts (rf_sha256 file) = true) ->
  exists files, mapRepositoryContext value artifacts = Ok files.
Proof.
  unfold mapRepositoryContext. generalize (ir_repository_context value) as files.
  induction files as [|file files IH]; intros Hf; [by eexists|]. cbn [map_each].
  destruct (Hf file) as (H1 & H2 & H3 & H4 & H5); [by left|].
  destruct IH as [mapped IH]; [intros g Hg; apply Hf; by right|].
  exists (mkContext (rf_path file) (rf_sha256 file) (rf_content file) :: mapped).
  apply res_bind_Ok. eexists. split; [|by rewrite IH].
  unfold mapRepositoryContextFile. by rewrite H1, H2, H3, H4, H5, bool_decide_true.
Qed.

Lemma request_schema_facts value v :
  validateImplementationRequestSchema value = Ok v ->
  value = Some v /\ exists e, ir_envelope v = Some e /\ re_schema_version e = "1".
Proof.
  unfold validateImplementationRequestSchema. destruct value as [value|]; [|done].
  destruct (ir_envelope value) as [e|] eqn:He; [|done].
  rewrite !then_Ok, unless_Ok, !orb_false_iff, !negb_false_iff, bool_decide_eq_true.
  intros ([[[[Hv _] _] _] _] & _ & [= <-]). eauto.
Qed.

Lemma request_identity_facts v e now :
  ir_envelope v = Some e -> validateImplementationRequestIdentity v now = Ok tt ->
  (exists times, mapEnvelopeTimes e = Ok times) /\ re_request_id e <> "" /\ re_run_id e <> "" /\
  taskIDPattern (ir_approved_task_id v) = true /\ ir_approved_specification_id v <> "".
Proof.
  unfold validateImplementationRequestIdentity. intros ->. cbn [envelope_of default].
  intros ([created expires] & Ht%map_err_Ok & Hr)%res_bind_Ok.
  rewrite then_Ok, unless_Ok, !orb_false_iff, identity_missing_spec, string_nonempty in Hr.
  destruct Hr as ([[[(? & ? & _) Hp%negb_false_iff] _] ?] & _). eauto 10.
Qed.

Lemma request_bindings_facts v e :
  ir_envelope v = Some e -> validateImplementationRequestBindings v = Ok tt ->
  digestPattern (re_agent_manifest_digest e) = true /\
  digestPattern (ir_approved_task_digest v) = true /\
  digestPattern (ir_approved_specification_digest v) = true /\
  exists artifacts, mapArtifacts (re_input_artifacts e) = Ok artifacts /\
    forall file, file ∈ ir_repository_context v ->
      digestPattern (rf_sha256 file) = true /\ sha256_hex (rf_content file) = rf_sha256 file /\
      artifactContainsDigest artifacts (rf_sha256 file) = true.
Proof.
  unfold validateImplementationRequestBindings. intros ->. cbn [envelope_of default].
  rewrite then_Ok, unless_Ok, !orb_false_iff, !negb_false_iff, res_bind_Ok.
  intros (((? & ?) & ?) & artifacts & Ha%rejecting_Ok & Hr). split_and!; try done.
  exists artifacts. split; [done|]. intros file Hf. rewrite for_each_Ok, Forall_forall in Hr.
  specialize (Hr file Hf).
  rewrite then_Ok, !unless_Ok, orb_false_iff, !negb_false_iff, bool_decide_eq_true in Hr. tauto.
Qed.

Lemma request_scope_facts v :
  validateImplementationRequestScope v = Ok tt ->
  validatePathScopes (ir_readable_paths v) (ir_writable_paths v) (ir_prohibited_paths v) = Ok tt /\
  forall file, file ∈ ir_repository_context v ->
    validRepoPath (rf_path file) = true /\ pathWithin (rf_path file) (ir_readable_paths v) = true.
Proof.
  unfold validateImplementationRequestScope. rewrite then_Ok, rejecting_Ok, for_each_unless.
  intros [Hp Hf]. split; [done|]. intros file Hin. specialize (Hf file Hin).
  by rewrite orb_false_iff, !negb_false_iff in Hf.
Qed.

Lemma request_policy_facts v e :
  ir_envelope v = Some e -> validateImplementationRequestPolicy v = Ok tt ->
  re_stage e = REASONING_STAGE_IMPLEMENTATION /\ validateEnvelopeBudget e = Ok tt /\
  commitPattern (ir_base_commit v) = true /\ validateAvailableChecks (ir_available_check_ids v) = Ok tt.
Proof.
  unfold validateImplementationRequestPolicy. intros ->. cbn [envelope_of default].
  by rewrite !then_Ok, !rejecting_Ok, !unless_Ok, !negb_false_iff, Z.eqb_eq.
Qed.

(** What passes the validators is converted, provided a check is available. *)
Lemma validated_request_converts value now v :
  validateImplementationRequest value now = Ok v ->
  value = Some v /\
  ((ir_available_check_ids v <> [] /\ exists r, convertImplementationRequest v = Ok r) \/
   (ir_available_check_ids v = [] /\ convertImplementationRequest v =
      Err (ErrText "invalid implementation request identity or limits"))).
Proof.
  unfold validateImplementationRequest. rewrite res_bind_Ok.
  intros (v' & Hschema & Hr). rewrite !then_Ok in Hr.
  destruct Hr as (Hid & Hbind & Hauth & Hscope & Hcov & Hpol & [= ->]).
  apply request_schema_facts in Hschema as [-> (e & He & Hv)]. split; [done|].
  destruct (request_identity_facts _ _ _ He Hid) as ([times Ht] & Hq & Hrun & Htid & Hspec).
  destruct (request_bindings_facts _ _ He Hbind) as (Hm & Htd & Hsd & artifacts & Ha & Hbound).
  destruct (request_scope_facts _ Hscope) as [Hpaths Hfiles].
  destruct (request_policy_facts _ _ He Hpol) as (Hst & Hb & Hc & Hck).
  unfold validateImplementationRequestAuthority in Hauth. rewrite He, rejecting_Ok in Hauth.
  unfold validateImplementationRequestCoverage in Hcov. rewrite unless_Ok, negb_false_iff in Hcov.
  destruct (MapEnvelope_complete e StageImplementation times artifacts) as (env & Henv & Hart);
    [by split_and!|done|done|].
  unfold convertImplementationRequest. rewrite He, Henv. cbn [mbind res_bind].
  unfold validateImplementationRequestFields. rewrite Htid, Htd, Hsd, Hc, Hcov, bool_decide_false by done.
  destruct (ir_available_check_ids v) as [|c cs] eqn:Hchecks; [by right|]. left. split; [done|].
  cbn [negb orb length Nat.eqb unless mbind res_bind]. rewrite Hpaths. cbn [mbind res_bind].
  rewrite Hck. cbn [mbind res_bind].
  destruct (repository_context_binds v (InputArtifacts env)) as [files ->]; [|by eexists].
  rewrite Hart. intros file Hin. destruct (Hfiles file Hin), (Hbound file Hin) as (? & ? & ?).
  by split_and!.
Qed.

(** Every rejection of a request for an implementation carries a rejection code, except of one
    that passes every validator and offers no check: the conversion rejects it without a code. *)
Theorem implementation_request_rejections value now e :
  MapImplementationRequestAt value now = Err e ->
  is_Some (ValidationCode e) \/
  (e = ErrText "invalid implementation request identity or limits" /\
   exists v, value = Some v /\ validateImplementationRequest value now = Ok v /\
     ir_available_check_ids v = []).
Proof.
  unfold MapImplementationRequestAt. intros Hr.
  destruct (validateImplementationRequest value now) as [v|e'] eqn:Hv.
  - cbn in Hr. destruct (validated_request_converts _ _ _ Hv) as (-> & [[_ [r Hok]]|[Hn He]]).
    + congruence.
    + right. rewrite He in Hr. injection Hr as <-. eauto.
  - injection Hr as <-. left. by apply (validators_coded value now).
Qed.

Lemma proposal_validators_coded value request :
  coded (validateImplementationProposal value request).
Proof.
  unfold validateImplementationProposal, validateImplementationProposalSchema,
    validateImplementationProposalIdentity, validateImplementationProposalBindings,
    validateImplementationProposalScope, validateImplementationProposalCoverage,
    validateImplementationProposalPolicy.
  coded.
Qed.

Lemma implementation_proposal_coded value request :
  coded (MapImplementationProposal value request).
Proof.
  unfold MapImplementationProposal. apply coded_bind; [apply proposal_validators_coded|].
  intros [v i] Hv. destruct value as [value|]; [|done].
  apply validateImplementationProposal_spec in Hv as (-> & Hi & p & Hp).
  apply convertImplementationProposal_spec in Hp. rewrite Hp. apply coded_Ok.
Qed.

(** ** Requests for a review *)

Lemma review_shape_facts value v :
  validateReviewRequestShape value = Ok v ->
  value = Some v /\ is_Some (rr_envelope v) /\ is_Some (rr_candidate v).
Proof.
  unfold validateReviewRequestShape. cbv zeta. destruct value as [value|]; [|done].
  rewrite then_Ok, unless_Ok, !orb_false_iff, !negb_false_iff, !bool_decide_eq_true.
  intros ((((((((He & Hc) & _) & _) & _) & _) & _) & _) & [= <-]). done.
Qed.

Lemma review_binding_facts v e c now :
  rr_envelope v = Some e -> rr_candidate v = Some c -> validateReviewRequestBindings v now = Ok tt ->
  (exists times, mapEnvelopeTimes e = Ok times) /\ re_request_id e <> "" /\ re_run_id e <> "" /\
  validateReviewCandidate c = Ok tt /\ digestPattern (re_agent_manifest_digest e) = true /\
  exists artifacts, mapArtifacts (re_input_artifacts e) = Ok artifacts.
Proof.
  unfold validateReviewRequestBindings. intros -> ->. cbn [envelope_of candidate_of default id].
  intros ([created expires] & Ht%map_err_Ok & Hr)%res_bind_Ok.
  rewrite !then_Ok, !unless_Ok, orb_false_iff, !negb_false_iff, identity_missing_spec, res_bind_Ok in Hr.
  destruct Hr as ((? & ? & _) & _ & [Hc Hm] & artifacts & Ha%rejecting_Ok & _).
  split_and!; eauto. revert Hc. by destruct (validateReviewCandidate c) as [[]|].
Qed.

Lemma review_scope_facts v :
  validateReviewRequestScope v = Ok tt ->
  exists diff paths authorized, mapActualDiff v = Ok (diff, paths) /\
    validateScopeReport (scope_of (rr_scope_report v)) paths (rr_authorized_writable_paths v) =
      Ok authorized.
Proof.
  unfold validateReviewRequestScope. rewrite !then_Ok, res_bind_Ok.
  intros (_ & _ & [diff paths] & Hd%rejecting_Ok & Hr).
  apply res_bind_Ok in Hr as (authorized & Ha%rejecting_Ok & _). eauto 10.
Qed.

Lemma review_coverage_facts v c :
  rr_candidate v = Some c -> validateReviewRequestCoverage v = Ok tt ->
  exists evidence passing coverage,
    mapIndependentEvidence (rr_independent_evidence v) (ci_candidate_commit c) =
      Ok (evidence, passing) /\
    mapAcceptanceCoverage (rr_acceptance_coverage v) (rr_approved_acceptance_criterion_ids v)
      passing = Ok coverage.
Proof.
  unfold validateReviewRequestCoverage. intros ->. cbv zeta. cbn [candidate_of default].
  rewrite !then_Ok, res_bind_Ok. intros (_ & _ & [evidence passing] & He%rejecting_Ok & Hr).
  rewrite then_Ok, res_bind_Ok in Hr. destruct Hr as (_ & coverage & Hc%rejecting_Ok & _). eauto 10.
Qed.

Lemma review_policy_facts v e :
  rr_envelope v = Some e -> validateReviewRequestPolicy v = Ok tt ->
  re_schema_version e = "1" /\ re_stage e = REASONING_STAGE_REVIEW /\
  validateEnvelopeBudget e = Ok tt /\
  exists severities, mapReviewPolicy (policy_of (rr_review_policy v)) = Ok severities.
Proof.
  unfold validateReviewRequestPolicy. intros ->. cbn [envelope_of default].
  rewrite !then_Ok, rejecting_Ok, unless_Ok, orb_false_iff, !negb_false_iff, bool_decide_eq_true,
    Z.eqb_eq, res_bind_Ok.
  intros ([? ?] & ? & severities & Hs%rejecting_Ok & _). eauto 10.
Qed.

(** What passes the six validators is converted. *)
Lemma validated_review_converts v now :
  is_Some (rr_envelope v) -> is_Some (rr_candidate v) ->
  validateReviewRequestBindings v now = Ok tt -> validateReviewRequestAuthority v = Ok tt ->
  validateReviewRequestScope v = Ok tt -> validateReviewRequestCoverage v = Ok tt ->
  validateReviewRequestPolicy v = Ok tt ->
  exists r, convertReviewRequest v = Ok r.
Proof.
  intros [e He] [c Hc] Hbind Hauth Hscope Hcov Hpol.
  destruct (review_binding_facts _ _ _ _ He Hc Hbind)
    as ([times Ht] & Hq & Hrun & Hcand & Hm & artifacts & Ha).
  destruct (review_scope_facts _ Hscope) as (diff & paths & authorized & Hd & Hrep).
  destruct (review_coverage_facts _ _ Hc Hcov) as (evidence & passing & coverage & Hev & Hac).
  destruct (review_policy_facts _ _ He Hpol) as (Hv & Hst & Hb & severities & Hsev).
  unfold validateReviewRequestAuthority in Hauth. rewrite He, rejecting_Ok in Hauth.
  destruct (MapEnvelope_complete e StageReview times artifacts) as (env & Henv & _);
    [by split_and!|done|done|].
  eexists. unfold convertReviewRequest. rewrite Hc, He, Henv. cbn [mbind res_bind].
  rewrite Hcand. cbn [mbind res_bind]. rewrite Hd. cbn [mbind res_bind]. rewrite Hrep.
  cbn [mbind res_bind]. rewrite Hev. cbn [mbind res_bind]. rewrite Hac. cbn [mbind res_bind].
  by rewrite Hsev.
Qed.

Lemma review_request_coded value now : coded (MapReviewRequestAt value now).
Proof.
  unfold MapReviewRequestAt.
  apply coded_bind; [unfold validateReviewRequestShape; coded|].
  intros v (-> & He & Hc)%review_shape_facts.
  apply coded_bind; [unfold validateReviewRequestBindings; coded|]. intros [] Hbind.
  apply coded_bind; [unfold validateReviewRequestAuthority; coded|]. intros [] Hauth.
  apply coded_bind; [unfold validateReviewRequestScope; coded|]. intros [] Hscope.
  apply coded_bind; [unfold validateReviewRequestCoverage; coded|]. intros [] Hcov.
  apply coded_bind; [unfold validateReviewRequestPolicy; coded|]. intros [] Hpol.
  destruct (validated_review_converts v now) as [r ->]; done.
Qed.

Lemma review_findings_coded values known policy ids blocking :
  coded (mapReviewFindings_loop values known policy ids blocking).
Proof.
  revert ids blocking. induction values as [|v values IH]; intros ids blocking;
    cbn [mapReviewFindings_loop]; [apply coded_Ok|].
  coded.
Qed.

Lemma review_proposal_coded value request : coded (MapReviewProposal value request).
Proof.
  unfold MapReviewProposal, mapReviewFindings. cbv zeta.
  destruct value as [v|]; [|apply coded_Err]. destruct (rv_identity v) as [i|]; [|apply coded_Err].
  apply coded_bind; [coded|intros [] _]. apply coded_bind; [coded|intros r _].
  apply coded_bind; [apply review_findings_coded|intros [[fs ids] b] _; coded].
Qed.

(** Whatever a client sends as the proposal of an implementation, as the request for a review
    or as its proposal, a rejection always carries a rejection code: no error of the conversions
    that follow the validators is ever seen. *)
Theorem rejections_carry_codes proposal request review now answer review_request :
  coded (MapImplementationProposal proposal request) /\
  coded (MapReviewRequestAt review now) /\
  coded (MapReviewProposal answer review_request).
Proof.
  split_and!; [apply implementation_proposal_coded|apply review_request_coded|
    apply review_proposal_coded].
Qed.

End rejections.

(** * What the review contracts accept

    An accepted request describes the candidate completely and on evidence; an
    accepted proposal never recommends a candidate with a blocking finding. *)

(** ** The report on the scope *)

Lemma report_paths_spec rejects paths seen seen' :
  report_paths rejects paths seen = Ok seen' <->
  (forall p, p ∈ paths -> rejects p = false /\ (p ∉ seen)) /\ NoDup paths /\
  seen' = list_to_set paths ∪ seen.
Proof.
  revert seen. induction paths as [|p paths IH]; intros seen; cbn [report_paths].
  - split; [intros [= <-]; split_and!; [|constructor|set_solver]|].
    + intros p Hp. by apply elem_of_nil in Hp.
    + intros (_ & _ & ->). f_equal. set_solver.
  - rewrite !then_Ok, !unless_Ok, bool_decide_eq_false, IH, NoDup_cons, list_to_set_cons.
    split.
    + intros (Hr & Hn & Hall & Hnd & ->). split_and!; [|set_solver|done|set_solver].
      intros q [->|Hq]%elem_of_cons; [done|]. destruct (Hall q Hq). set_solver.
    + intros (Hall & [Hp Hnd] & ->). destruct (Hall p) as [Hr Hn]; [by left|].
      split_and!; try done; [|set_solver]. intros q Hq.
      destruct (Hall q) as [? ?]; [by right|]. split; [done|]. set_solver.
Qed.

(** The report divides the paths that changed into the authorized ones and the others. *)
Definition report_divides (authorized unexpected : list string) (actual : gset string)
    (writable : list string) : Prop :=
  NoDup (authorized ++ unexpected) /\ list_to_set (authorized ++ unexpected) = actual /\
  forall p, p ∈ authorized -> covered_by writable p.

(** A report on the scope of a candidate is accepted exactly when its authorized and its
    unexpected paths together are the paths of the actual diff, each once, and every authorized
    path lies at or below a writable one. *)
Lemma scope_report_divides report actual writable authorized :
  (validateScopeReport report actual writable = Ok authorized) <->
  (authorized = ss_authorized_changed_paths report /\
   report_divides authorized (ss_unexpected_changed_paths report) actual writable).
Proof.
  unfold validateScopeReport, report_divides.
  rewrite then_Ok, unless_Ok, negb_false_iff, Nat.eqb_eq, res_bind_Ok.
  set (la := ss_authorized_changed_paths report). set (lu := ss_unexpected_changed_paths report).
  split.
  - intros (Hlen & seen & Ha & Hu). apply report_paths_spec in Ha as (Ha & Hnda & ->).
    apply res_bind_Ok in Hu as (seen' & Hu & [= <-]).
    apply report_paths_spec in Hu as (Hu & Hndu & ->).
    assert (Hnd : NoDup (la ++ lu)).
    { apply NoDup_app. split_and!; [done| |done]. intros p Hp Hq. destruct (Hu p Hq) as [_ Hn].
      apply Hn, elem_of_union. left. by apply elem_of_list_to_set. }
    split; [done|]. split; [done|]. split.
    + apply set_subseteq_size_eq.
      * intros p [Hp|Hp]%elem_of_list_to_set%elem_of_app.
        -- destruct (Ha p Hp) as [Hr _]. apply orb_false_iff in Hr as [Hr _].
           by apply negb_false_iff, bool_decide_eq_true in Hr.
        -- destruct (Hu p Hp) as [Hr _]. by apply negb_false_iff, bool_decide_eq_true in Hr.
      * rewrite size_list_to_set by done. rewrite length_app. lia.
    + intros p Hp. destruct (Ha p Hp) as [Hr _]. apply orb_false_iff in Hr as [_ Hr].
      by apply negb_false_iff, pathWithin_spec in Hr.
  - intros (-> & Hnd & <- & Hw). split; [rewrite size_list_to_set by done; by rewrite length_app|].
    apply NoDup_app in Hnd as (Hnda & Hdis & Hndu).
    assert (Hin : forall p, p ∈ la \/ p ∈ lu -> negb (bool_decide (p ∈@{gset string} list_to_set (la ++ lu))) = false).
    { intros p Hp. apply negb_false_iff, bool_decide_eq_true, elem_of_list_to_set, elem_of_app. done. }
    eexists. split.
    + apply report_paths_spec. split_and!; [|done|done]. intros p Hp. split; [|set_solver].
      rewrite Hin by auto. by apply negb_false_iff, pathWithin_spec, Hw.
    + apply res_bind_Ok. eexists. split; [|done]. apply report_paths_spec. split_and!; [|done|done].
      intros p Hp. split; [by apply Hin; right|]. set_solver.
Qed.

(** ** The parts of a request *)

Lemma mapActualDiff_facts values s diff s' :
  mapActualDiff_loop values s = Ok (diff, s') ->
  NoDup (map Diff_Path diff) /\ (forall p, p ∈ map Diff_Path diff -> (p ∉ s) /\ repository_path p) /\
  s' = list_to_set (map Diff_Path diff) ∪ s /\ map Diff_Path diff = map df_path values.
Proof.
  revert s diff s'. induction values as [|v values IH]; intros s diff s'; cbn [mapActualDiff_loop].
  - intros [= <- <-]. split_and!; [constructor| |set_solver|done].
    intros p Hp. by apply elem_of_nil in Hp.
  - destruct (mapReviewFileOperation _) as [op|]; [|done].
    rewrite !then_Ok, !unless_Ok, !orb_false_iff, !negb_false_iff, bool_decide_eq_false, res_bind_Ok.
    intros ([[Hv _] _] & Hn & [diff' s''] & Hr & [= <- <-]).
    destruct (IH _ _ _ Hr) as (Hnd & Hp & -> & Hm). cbn [map Diff_Path].
    apply validRepoPath_spec in Hv. split_and!.
    + constructor; [|done]. intros Hin. destruct (Hp _ Hin). set_solver.
    + intros p [->|Hin]%elem_of_cons; [done|]. destruct (Hp p Hin). set_solver.
    + set_solver.
    + by rewrite Hm.
Qed.

Lemma all_in_set (l : list string) (k : gset string) e :
  for_each (fun x => unless (negb (bool_decide (x ∈ k))) e) l = Ok tt <-> forall x, x ∈ l -> x ∈ k.
Proof.
  rewrite for_each_unless. apply forall_proper. intros x. apply forall_proper. intros _.
  by rewrite negb_false_iff, bool_decide_eq_true.
Qed.

Lemma coverage_loop_facts values approved passing s coverage s' :
  mapAcceptanceCoverage_loop values approved passing s = Ok (coverage, s') ->
  NoDup (map AcceptanceCriterionID coverage) /\
  (forall c, c ∈ map AcceptanceCriterionID coverage -> c ∈ approved /\ (c ∉ s)) /\
  s' = list_to_set (map AcceptanceCriterionID coverage) ∪ s /\
  (forall a, a ∈ coverage -> EvidenceIDs a <> [] /\ forall i, i ∈ EvidenceIDs a -> i ∈ passing).
Proof.
  revert s coverage s'. induction values as [|v values IH]; intros s coverage s';
    cbn [mapAcceptanceCoverage_loop].
  - intros [= <- <-]. split_and!; [constructor| |set_solver|]; intros a Ha; by apply elem_of_nil in Ha.
  - cbv zeta. rewrite !then_Ok, !unless_Ok, !orb_false_iff, length_zero, !negb_false_iff,
      bool_decide_eq_true, bool_decide_eq_false, all_in_set, res_bind_Ok.
    intros ([[_ Hin] Hne] & Hn & Hpass & [coverage' s''] & Hr & [= <- <-]).
    destruct (IH _ _ _ Hr) as (Hnd & Hc & -> & He). cbn [map AcceptanceCriterionID]. split_and!.
    + constructor; [|done]. intros Hi. destruct (Hc _ Hi). set_solver.
    + intros c [->|Hi]%elem_of_cons; [done|]. destruct (Hc c Hi). set_solver.
    + set_solver.
    + intros a [->|Ha]%elem_of_cons; [done|]. by apply He.
Qed.

(** Every approved criterion is covered once, on evidence that passes. *)
Lemma mapAcceptanceCoverage_facts values approved passing coverage :
  NoDup approved -> mapAcceptanceCoverage values approved passing = Ok coverage ->
  map AcceptanceCriterionID coverage ≡ₚ approved /\
  (forall a, a ∈ coverage -> EvidenceIDs a <> [] /\ forall i, i ∈ EvidenceIDs a -> i ∈ passing).
Proof.
  unfold mapAcceptanceCoverage. intros Happ ([coverage' s] & Hl & Hr)%res_bind_Ok.
  rewrite then_Ok, unless_Ok, negb_false_iff, Nat.eqb_eq in Hr. destruct Hr as [Hsize [= ->]].
  destruct (coverage_loop_facts _ _ _ _ _ _ Hl) as (Hnd & Hin & -> & He). split; [|done].
  rewrite union_empty_r_L, size_list_to_set in Hsize by done.
  apply submseteq_length_Permutation; [|lia].
  apply NoDup_submseteq; [done|]. intros c Hc. by destruct (Hin c Hc).
Qed.

Section evidence.
Context `{Protobuf}.

Lemma evidence_loop_facts values commit known passing evidence passing' :
  mapIndependentEvidence_loop values commit known passing = Ok (evidence, passing') ->
  NoDup (map Evidence_ID evidence) /\
  (forall e, e ∈ evidence -> (Evidence_ID e ∉ known) /\ Evidence_CandidateCommit e = commit /\
     After (CompletedAt e) (StartedAt e) = true) /\
  (forall i, i ∈ passing' -> i ∈ passing \/
     exists e, e ∈ evidence /\ Evidence_ID e = i /\ ExitCode e = 0).
Proof.
  revert known passing evidence passing'. induction values as [|v values IH];
    intros known passing evidence passing'; cbn [mapIndependentEvidence_loop].
  - intros [= <- <-]. split_and!; [constructor| |by left]. intros e He. by apply elem_of_nil in He.
  - destruct (ie_started_at v) as [started|]; [|done].
    destruct (ie_completed_at v) as [completed|]; [|done]. cbv zeta.
    rewrite !then_Ok, !unless_Ok, !orb_false_iff, !negb_false_iff, bool_decide_eq_false,
      !bool_decide_eq_true, res_bind_Ok.
    intros ([[[_ Hcommit] _] _] & [_ Hafter] & Hn & [evidence' p''] & Hr & [= <- <-]).
    destruct (IH _ _ _ _ Hr) as (Hnd & Hall & Hpass). split_and!.
    + cbn. constructor; [|done]. intros (e & Heq & He)%list_elem_of_fmap.
      destruct (Hall e He) as [Hk _]. set_solver.
    + intros e [->|He]%elem_of_cons; [done|]. destruct (Hall e He) as (Hk & ? & ?).
      split_and!; [set_solver|done|done].
    + intros i Hi. destruct (Hpass i Hi) as [Hp|(e & He & Hid & Hx)].
      * destruct (Z.eqb_spec (ie_exit_code v) 0) as [Hz|_]; [|by left].
        apply elem_of_union in Hp as [->%elem_of_singleton|Hp]; [|by left].
        right. exists (evidence_of v started completed). split; [by left|done].
      * right. exists e. split; [by right|done].
Qed.

Lemma mapReviewPolicy_facts `{!ProtobufLaws} policy severities :
  mapReviewPolicy policy = Ok severities -> "FINDING_SEVERITY_CRITICAL" ∈ severities.
Proof.
  unfold mapReviewPolicy. cbv zeta. intros (l & Hl & Hr)%res_bind_Ok.
  rewrite then_Ok, unless_Ok, orb_false_iff, negb_false_iff, existsb_exists in Hr.
  destruct Hr as [[_ (c & Hc & ->%Z.eqb_eq)] [= <-]]. apply map_each_Ok in Hl.
  apply list_elem_of_In in Hc. destruct (Forall2_in_l _ _ _ _ Hl Hc) as (s & Hs & Heq).
  cbn in Heq. injection Heq as <-. unfold Severity_String in Hs.
  by rewrite (EnumStringOf_named _ _ "FINDING_SEVERITY_CRITICAL") in Hs.
Qed.

(** ** Requests *)

(** What an accepted request says of the candidate. *)
Record review_sound (r : ReviewRequest) : Prop := {
  rs_candidate : RV_BaseCommit r <> RV_CandidateCommit r;
  rs_paths : NoDup (map Diff_Path (ActualDiff r)) /\
    forall p, p ∈ map Diff_Path (ActualDiff r) -> repository_path p;
  rs_divided : AuthorizedChangedPaths (RV_ScopeReport r) ++ UnexpectedChangedPaths (RV_ScopeReport r)
    ≡ₚ map Diff_Path (ActualDiff r);
  rs_authorized : forall p, p ∈ AuthorizedChangedPaths (RV_ScopeReport r) ->
    covered_by (AuthorizedWritablePaths r) p;
  rs_evidence : NoDup (map Evidence_ID (RV_IndependentEvidence r)) /\
    forall e, e ∈ RV_IndependentEvidence r ->
      Evidence_CandidateCommit e = RV_CandidateCommit r /\
      After (CompletedAt e) (StartedAt e) = true;
  rs_covered : map AcceptanceCriterionID (RV_AcceptanceCoverage r) ≡ₚ ApprovedAcceptanceCriterionIDs r;
  rs_passing : forall a, a ∈ RV_AcceptanceCoverage r -> EvidenceIDs a <> [] /\
    forall i, i ∈ EvidenceIDs a ->
      exists e, e ∈ RV_IndependentEvidence r /\ Evidence_ID e = i /\ ExitCode e = 0;
  rs_critical : "FINDING_SEVERITY_CRITICAL" ∈ BlockingSeverities (Policy r);
}.

Lemma converted_review_sound `{!ProtobufLaws} value r :
  NoDup (rr_approved_acceptance_criterion_ids value) ->
  convertReviewRequest value = Ok r -> review_sound r.
Proof.
  intros Hnd. unfold convertReviewRequest. destruct (rr_candidate value) as [c|]; [|done].
  intros (env & _ & Hr)%res_bind_Ok. apply then_Ok in Hr as [Hc Hr].
  apply res_bind_Ok in Hr as ([diff paths] & Hd & Hr).
  apply res_bind_Ok in Hr as (auth & Hrep & Hr).
  apply res_bind_Ok in Hr as ([evidence passing] & He & Hr).
  apply res_bind_Ok in Hr as (coverage & Hcov & Hr).
  apply res_bind_Ok in Hr as (severities & Hsev & [= <-]).
  unfold validateReviewCandidate in Hc. rewrite unless_Ok, !orb_false_iff, bool_decide_eq_false in Hc.
  destruct (mapActualDiff_facts _ _ _ _ Hd) as (Hdn & Hdp & -> & _). rewrite union_empty_r_L in Hrep.
  apply scope_report_divides in Hrep as (-> & Hrn & Hrs & Hrw).
  destruct (evidence_loop_facts _ _ _ _ _ _ He) as (Hen & Hea & Hep).
  destruct (mapAcceptanceCoverage_facts _ _ _ _ Hnd Hcov) as [Hperm Hpass].
  split; cbn.
  - apply Hc.
  - split; [done|]. intros p Hp. by apply Hdp.
  - apply NoDup_Permutation; [done..|]. intros p.
    by rewrite <- !(elem_of_list_to_set (C := gset string)), Hrs.
  - done.
  - split; [done|]. intros e Hin. destruct (Hea e Hin) as (_ & ? & ?). done.
  - done.
  - intros a Ha. destruct (Hpass a Ha) as [? Hi]. split; [done|]. intros i Hin.
    destruct (Hep i (Hi i Hin)) as [Hx|Hx]; [set_solver|done].
  - by apply (mapReviewPolicy_facts (policy_of (rr_review_policy value))).
Qed.

Lemma review_request_sound_gen `{!ProtobufLaws} value now r :
  MapReviewRequestAt value now = Ok r -> review_sound r.
Proof.
  unfold MapReviewRequestAt. intros (v & _ & Hr)%res_bind_Ok. rewrite !then_Ok in Hr.
  destruct Hr as (_ & _ & _ & Hcov & _ & Hr%map_err_Ok). apply converted_review_sound in Hr; [done|].
  unfold validateReviewRequestCoverage in Hcov. cbv zeta in Hcov.
  rewrite then_Ok, unless_Ok, orb_false_iff, negb_false_iff, validCriteria_spec in Hcov. apply Hcov.
Qed.

(** A request for a review that is accepted describes its candidate completely and on evidence:
    the authorized and the unexpected paths of its report are the paths of the actual diff, each
    once, the authorized ones within the writable paths; the evidence is of the candidate's commit;
    every approved criterion is covered exactly once, by passing evidence of the request; and
    critical findings block. *)
Theorem accepted_reviews_sound `{!ProtobufLaws} value now r :
  MapReviewRequestAt value now = Ok r -> review_sound r.
Proof. apply review_request_sound_gen. Qed.

(** ** Proposals *)

Definition blocks (policy : ReviewPolicy) (f : ReviewFinding) : Prop :=
  Finding_Severity f ∈ BlockingSeverities policy.

Lemma findings_facts values known policy ids b findings ids' b' :
  mapReviewFindings_loop values known policy ids b = Ok (findings, ids', b') ->
  NoDup (map Finding_ID findings) /\
  (forall f, f ∈ findings -> (Finding_ID f ∉ ids) /\ EvidenceReferences f <> [] /\
     forall i, i ∈ EvidenceReferences f -> i ∈ known) /\
  ids' = list_to_set (map Finding_ID findings) ∪ ids /\
  (b' = true <-> b = true \/ exists f, f ∈ findings /\ blocks policy f).
Proof.
  revert ids b findings ids' b'. induction values as [|v values IH]; intros ids b findings ids' b';
    cbn [mapReviewFindings_loop].
  - intros [= <- <- <-]. split_and!; [constructor| |set_solver|set_solver].
    intros f Hf. by apply elem_of_nil in Hf.
  - cbv zeta. rewrite !then_Ok, !unless_Ok, !orb_false_iff, length_zero, !bool_decide_eq_false,
      all_in_set, res_bind_Ok.
    intros ([_ Hne] & Hn & Href & [[findings' ids''] b''] & Hr & [= <- <- <-]).
    destruct (IH _ _ _ _ _ Hr) as (Hnd & Hall & -> & Hb). cbn [map Finding_ID]. split_and!.
    + constructor; [|done]. intros (f & Heq & Hf)%list_elem_of_fmap.
      destruct (Hall f Hf) as [Hk _]. set_solver.
    + intros f [->|Hf]%elem_of_cons; [split_and!; [exact Hn|exact Hne|exact Href]|].
      destruct (Hall f Hf) as (? & ? & ?). split_and!; [set_solver|done|done].
    + set_solver.
    + rewrite Hb, orb_true_iff, bool_decide_eq_true. setoid_rewrite elem_of_cons.
      unfold blocks. split.
      * intros [[Hs|?]|(f & Hf & Hs)]; [right|by left|right; by eauto].
        eexists. split; [by left|done].
      * intros [?|(f & [->|Hf] & Hs)]; eauto.
Qed.

(** What an accepted proposal says of the candidate. *)
Record verdict_sound (request : ReviewRequest) (p : ReviewProposal) : Prop := {
  vs_ids : NoDup (map Finding_ID (Findings p));
  vs_evidence : forall f, f ∈ Findings p -> EvidenceReferences f <> [] /\
    forall i, i ∈ EvidenceReferences f ->
      exists e, e ∈ RV_IndependentEvidence request /\ Evidence_ID e = i;
  vs_actions : forall a, a ∈ RequiredActions p ->
    exists f, f ∈ Findings p /\ Finding_ID f = FindingID a;
  vs_blocking : forall f, f ∈ Findings p -> blocks (Policy request) f ->
    Recommendation p = ReviewReworkRequired;
}.

Lemma collectReviewEvidenceIDs_spec es i :
  i ∈ collectReviewEvidenceIDs es <-> exists e, e ∈ es /\ Evidence_ID e = i.
Proof.
  unfold collectReviewEvidenceIDs.
  assert (Hgen : forall s : gset string,
    i ∈ foldl (fun known e => {[Evidence_ID e]} ∪ known) s es <->
    i ∈ s \/ exists e, e ∈ es /\ Evidence_ID e = i).
  { induction es as [|e es IH]; intros s; cbn [foldl]; [set_solver|]. rewrite IH. set_solver. }
  rewrite Hgen. set_solver.
Qed.

Lemma MapReviewProposal_sound value request p :
  MapReviewProposal value request = Ok p -> verdict_sound request p.
Proof.
  unfold MapReviewProposal. cbv zeta. destruct value as [v|]; [|done].
  destruct (rv_identity v) as [i|]; [|done].
  rewrite then_Ok. intros [_ (rec & _ & Hr)%res_bind_Ok].
  apply res_bind_Ok in Hr as ([[findings ids] b] & Hf & Hr).
  rewrite then_Ok, unless_Ok in Hr. destruct Hr as [Hb Hr].
  apply res_bind_Ok in Hr as (actions & Ha%rejecting_Ok & Hr).
  apply res_bind_Ok in Hr as (risks & _ & [= <-]).
  destruct (findings_facts _ _ _ _ _ _ _ _ Hf) as (Hnd & Hall & -> & Hbl). split; cbn.
  - done.
  - intros f Hin. destruct (Hall f Hin) as (_ & ? & Href). split; [done|]. intros j Hj.
    by apply collectReviewEvidenceIDs_spec, Href.
  - intros a Hin. unfold mapRequiredActions in Ha. apply map_each_Ok in Ha.
    destruct (Forall2_in_r _ _ _ _ Ha Hin) as (w & _ & Hw). cbn beta in Hw.
    rewrite !then_Ok, !unless_Ok, negb_false_iff, bool_decide_eq_true in Hw.
    destruct Hw as (_ & Hid & [= <-]). cbn.
    apply elem_of_union in Hid as [Hid%elem_of_list_to_set|Hid]; [|set_solver]. apply list_elem_of_fmap in Hid as (f & Heq & Hin'). by exists f.
  - intros f Hin Hblocks. assert (Ht : b = true) by (apply Hbl; right; eauto). subst b.
    by apply negb_false_iff, bool_decide_eq_true in Hb.
Qed.

(** No client can advise to accept a candidate it has found a critical fault in: whatever the
    accepted request for the review, an accepted proposal with a finding the policy of the request
    blocks, among them any critical one, recommends rework; its findings rest on the evidence of
    the request and its required actions on its findings. *)
Theorem critical_findings_block `{!ProtobufLaws} value now request answer p :
  MapReviewRequestAt value now = Ok request -> MapReviewProposal answer request = Ok p ->
  verdict_sound request p /\
  forall f, f ∈ Findings p -> Finding_Severity f = "FINDING_SEVERITY_CRITICAL" ->
    Recommendation p = ReviewReworkRequired.
Proof.
  intros Hreq Hp%MapReviewProposal_sound. split; [done|]. intros f Hf Hs.
  eapply vs_blocking; [done..|]. unfold blocks. rewrite Hs.
  by eapply rs_critical, review_request_sound_gen.
Qed.

End evidence.
