(* ===== verification/CtSamples.v ===== *)
(** * Values that the samples of the contracts and of the services share *)

From S2P Require Import Prelude GoStd GoJson GoText WfTypes CtMessages CtCommon.
From S2P Require Import CtPlanning CtGraph CtPlanningProps.
From S2P Require Import CtImplementation CtImplementationProps CtReview CtRejections.
From S2P Require Import WfTask WfPlan WfRun WfDb WfStore Samples WfReplay.
From S2P Require Import WfInvariants WfGuarantees.

(** * The contracts at concrete messages

    A planning proposal, a request for an implementation, a request for a
    review and a proposal for it, and the theorems of the contracts applied to
    them. *)

(** ** Messages *)

Definition digest_of (c : ascii) : string := String.string_of_list_ascii (replicate 64 c).
Definition commit_of (c : ascii) : string := String.string_of_list_ascii (replicate 40 c).
Definition digest_a : string := digest_of "a".
Definition digest_b : string := digest_of "b".

Definition sample_authority : pb_AuthorityConstraints :=
  mkAuthority AUTHORITY_MODE_PROPOSAL_ONLY false false false false false.

Definition sample_pb_envelope (stage : Z) : pb_ReasoningRequestEnvelope :=
  mkRequestEnvelope "1" "REQ-1" "RUN-1" (Some "TASK-001") stage 1 (Some (mkTimestamp 1700000000 0))
    (Some (mkTimestamp 1700000600 0)) (Some sample_authority) (Some (mkBudget 1000 1000 3))
    [mkArtifactDigest ("artifact://sha256/" +:+ digest_a) digest_a] digest_b.

Definition sample_envelope (stage : Stage) : Envelope :=
  mkEnvelopeOf "1" "REQ-1" "RUN-1" (Some "TASK-001") stage 1 (AsTime (mkTimestamp 1700000000 0))
    (AsTime (mkTimestamp 1700000600 0)) 1000 1000 3
    [mkArtifact ("artifact://sha256/" +:+ digest_a) digest_a] digest_b.

Definition sample_identity (stage : Z) : pb_ProposalIdentity :=
  mkIdentity "1" "REQ-1" "RUN-1" (Some "TASK-001") stage 1 digest_b [digest_a].

(** ** Planning *)

Definition sample_planning_request : TaskPlanningRequest :=
  mkTaskPlanningRequest (sample_envelope StagePlanning) "SPEC-001" digest_a [] ["src"; "docs"]
    ["src"] ["src/secret"] 3 2 ["AC-001"; "AC-002"].

Definition sample_graph : pb_TaskGraphProposal :=
  mkGraphProposal (Some (sample_identity REASONING_STAGE_PLANNING)) "SPEC-001" digest_a
    [mkPbTask "TASK-001" "a" [] ["AC-001"] ["src"; "docs"] ["src/a"] ["src/b"] ["db"]
       ["CHECK-1"] ["stop"];
     mkPbTask "TASK-002" "b" ["TASK-001"] ["AC-002"] ["src"] ["src/b"] [] [] ["unit-v1"] ["stop"]]
    [] [].

Lemma task_graph_accepts_exactly_witness :
  exists ident, tg_identity sample_graph = Some ident /\
    graph_acceptable sample_planning_request ident sample_graph.
Proof.
  destruct (proj1 (task_graph_accepts_exactly sample_planning_request sample_graph
    (mkTaskGraphProposal (map planned (tg_tasks sample_graph)) [] [])))
    as [Hok _]; [vm_compute; reflexivity|exact Hok].
Defined.

(** ** Implementation *)

(** Valid in every respect, but it offers no check. *)
Definition sample_unchecked_request : pb_ImplementationRequest :=
  mkImplementationRequest (Some (sample_pb_envelope REASONING_STAGE_IMPLEMENTATION)) "TASK-001"
    digest_a "SPEC-001" digest_b (commit_of "c") ["src"] ["src/a"] [] ["AC-001"] [] [].

Lemma implementation_request_rejections_witness :
  exists e, MapImplementationRequestAt (Some sample_unchecked_request) None = Err e /\
    ValidationCode e = None /\ ir_available_check_ids sample_unchecked_request = [].
Proof.
  eassert (He : MapImplementationRequestAt (Some sample_unchecked_request) None = Err _)
    by (vm_compute; reflexivity).
  eexists. split; [exact He|].
  destruct (implementation_request_rejections _ _ _ He) as [Hc|(_ & v & Hv & _ & Hn)].
  - vm_compute in Hc. destruct Hc as [c Hc]. discriminate Hc.
  - injection Hv as ->. split; [reflexivity|exact Hn].
Defined.

(** ** Review *)

Definition sample_review_request : pb_ReviewRequest :=
  mkPbReviewRequest (Some (sample_pb_envelope REASONING_STAGE_REVIEW))
    (Some (mkPbCandidate digest_a digest_b (commit_of "c") (commit_of "d") digest_a))
    [mkPbDiff "src/a" FILE_OPERATION_UPDATE digest_a digest_b;
     mkPbDiff "README.md" FILE_OPERATION_CREATE digest_a digest_b]
    (Some (mkPbScope ["src/a"] ["README.md"]))
    [mkPbEvidence "EVIDENCE-001" "CHECK-1" (commit_of "d") 0 digest_a
       ("artifact://sha256/" +:+ digest_a) (Some (mkTimestamp 1700000000 0))
       (Some (mkTimestamp 1700000001 0))]
    [mkPbCoverage "AC-001" ["EVIDENCE-001"]]
    (Some (mkPbPolicy [4; FINDING_SEVERITY_CRITICAL] true)) ["AC-001"] ["src"].

Lemma accepted_reviews_sound_witness :
  exists r, MapReviewRequestAt (Some sample_review_request) None = Ok r /\ review_sound r.
Proof.
  eassert (Hr : MapReviewRequestAt (Some sample_review_request) None = Ok _)
    by (vm_compute; reflexivity).
  eexists. split; [exact Hr|]. exact (accepted_reviews_sound _ _ _ Hr).
Defined.

Definition sample_review : pb_ReviewProposal :=
  mkPbReview (Some (sample_identity REASONING_STAGE_REVIEW)) REVIEW_RECOMMENDATION_REWORK_REQUIRED
    [mkPbFinding "F-1" FINDING_SEVERITY_CRITICAL 2 "injection" ["EVIDENCE-001"]]
    [mkPbAction "A-1" "F-1" "escape"] ["README.md"] [] [].

Lemma critical_findings_block_witness :
  exists request p, MapReviewRequestAt (Some sample_review_request) None = Ok request /\
    MapReviewProposal (Some sample_review) request = Ok p /\
    verdict_sound request p /\ Recommendation p = ReviewReworkRequired.
Proof.
  eassert (Hr : MapReviewRequestAt (Some sample_review_request) None = Ok _)
    by (vm_compute; reflexivity).
  match type of Hr with _ = Ok ?request =>
    eassert (Hp : MapReviewProposal (Some sample_review) request = Ok _) by (vm_compute; reflexivity)
  end.
  destruct (critical_findings_block _ _ _ _ _ Hr Hp) as [Hs Hc].
  eexists _, _. split; [exact Hr|]. split; [exact Hp|]. split; [exact Hs|].
  eapply Hc; [apply elem_of_cons; left; reflexivity|reflexivity].
Defined.

(** The same finding with advice to accept is rejected, with a code. *)
Example advice_rejected :
  match MapReviewRequestAt (Some sample_review_request) None with
  | Ok request =>
      MapReviewProposal
        (Some (mkPbReview (rv_identity sample_review) REVIEW_RECOMMENDATION_ADVISORY_ACCEPT
                 (rv_findings sample_review) [] [] [] [])) request
  | Err e => Err e
  end = Err (ErrRejected REJECTION_CODE_AUTHORITY_VIOLATION "proposal.recommendation"
               "blocking finding requires rework recommendation").
Proof. vm_compute. reflexivity. Qed.

(** * Values that the samples of the services share

    Artifacts that are named by the digest of their body, a run whose task is
    being reasoned about, and a request for an implementation with a proposal
    that answers it. *)

(** The artifact with this body. *)
Definition artifact_of (body : string) : ArtifactRef :=
  mkArtifactRef ("artifact://sha256/" +:+ sha256_hex body) (sha256_hex body).

Definition reasoning_history : list command :=
  let l := sample_lease 1 in
  [ inl (CreateRun (meta "r1" ActorHuman 0 1) "RUN-1");
    inl (ProposeSpecification (meta "r2" ActorWorkflowService 1 2) "RUN-1" (art "spec"));
    inl (ApproveSpecification (meta "r3" ActorHuman 2 3) "RUN-1" (art "spec"));
    inl (ProposeTaskGraph (meta "r4" ActorWorkflowService 3 4) "RUN-1" (art "graph"));
    inl (ApproveTaskGraph (meta "r5" ActorHuman 4 5) "RUN-1" (art "graph")
      [mkTaskDefinition "TASK-001" 2] []);
    inl (StartRun (meta "r6" ActorWorkflowService 5 6) "RUN-1");
    inr (LeaseTask (meta "c1" ActorWorkflowService 1 10) "RUN-1" "TASK-001" l);
    inr (StartReasoning (meta "c2" ActorReasoningService 2 20) "RUN-1" "TASK-001" l) ].

Definition executed_history : list command :=
  let l := sample_lease 1 in
  reasoning_history ++
  [ inr (AcceptTaskProposal (meta "c3" ActorExecutionService 3 30) "RUN-1" "TASK-001"
      (artifact_of "proposal") l);
    inr (RecordTaskExecution (meta "c4" ActorExecutionService 4 40) "RUN-1" "TASK-001"
      (artifact_of "proposal") (artifact_of "execution") hex40 l) ].

Definition sample_checked_request : pb_ImplementationRequest :=
  mkImplementationRequest (Some (sample_pb_envelope REASONING_STAGE_IMPLEMENTATION)) "TASK-001"
    digest_a "SPEC-001" digest_b (commit_of "c") ["src"] ["src/a"] [] ["AC-001"] ["make-check-v1"] [].

(** The digest of the empty content, which a file that is created replaces. *)
Definition empty_digest : string := "e3b0c44298fc1c149afbf4c8996fb92427ae41e4649b934ca495991b7852b855".

Definition sample_checked_proposal : pb_ImplementationProposal :=
  mkPbImplementation (Some (sample_identity REASONING_STAGE_IMPLEMENTATION)) "TASK-001" digest_a
    digest_b "adds a file"
    [mkPbChange "src/a" FILE_OPERATION_CREATE empty_digest (Some "hello") "needed" ["AC-001"]]
    ["make-check-v1"] [] [] None.

Example sample_proposal_accepted :
  match MapImplementationRequestAt (Some sample_checked_request) None with
  | Ok request => is_Ok (MapImplementationProposal (Some sample_checked_proposal) request)
  | Err _ => false
  end = true.
Proof. vm_compute. reflexivity. Qed.

(** ** A wire format for the samples

    Messages are told apart by some of their fields; the texts of the two
    sample messages are read back. *)

Definition implementation_request_text (p : pb_ImplementationRequest) : string :=
  "request of " +:+ ir_approved_task_id p.

Definition implementation_proposal_text (p : pb_ImplementationProposal) : string :=
  "proposal of " +:+ join "," (map fc_path (ip_changes p)).

Definition unknown_text : error := ErrText "proto: cannot parse invalid wire-format data".

Definition sample_wire_task (id : string) : pb_PlannedTask :=
  mkPbTask id "change the code" [] ["AC-001"] ["src"] ["src/a"] [] [] ["make-check-v1"] [].

#[export] Instance sample_wire : Wire := {|
  marshal_implementation_request p :=
    Ok (match p with Some v => implementation_request_text v | None => "" end);
  marshal_implementation_proposal p :=
    Ok (match p with Some v => implementation_proposal_text v | None => "" end);
  marshal_review_request p :=
    Ok (match p with
        | Some v => "review of " +:+ ci_candidate_commit (candidate_of (rr_candidate v))
        | None => ""
        end);
  marshal_review_proposal p :=
    Ok (match p with
        | Some v => "findings " +:+ join "," (map rg_finding_id (rv_findings v))
        | None => ""
        end);
  unmarshal_implementation_request s :=
    if s == implementation_request_text sample_checked_request then Ok sample_checked_request
    else Err unknown_text;
  unmarshal_implementation_proposal s :=
    if s == implementation_proposal_text sample_checked_proposal then Ok sample_checked_proposal
    else Err unknown_text;
  unmarshal_review_request _ := Err unknown_text;
  unmarshal_review_proposal _ := Err unknown_text;
  unmarshal_specification_proposal s :=
    if HasPrefix s "specification "
    then Ok (mkSpecificationProposal None (str_drop 14 s) "" [] [] [] [] [] [] [])
    else Err unknown_text;
  marshal_specification_proposal p :=
    Ok ("specification " +:+ match p with Some v => sp_title v | None => "" end);
  marshal_task_graph_proposal p :=
    Ok ("graph " +:+ join "," (match p with Some v => map pt_task_id (tg_tasks v) | None => [] end));
  marshal_planned_task p := Ok ("task " +:+ match p with Some v => pt_task_id v | None => "" end);
  marshal_rejection p := Ok ("rejection " +:+ match p with Some v => pj_summary v | None => "" end);
  unmarshal_task_graph_proposal s :=
    if HasPrefix s "graph "
    then Ok (mkGraphProposal None "" "" [sample_wire_task (str_drop 6 s)] [] [])
    else Err unknown_text;
  unmarshal_planned_task s :=
    if HasPrefix s "task " then Ok (sample_wire_task (str_drop 5 s)) else Err unknown_text;
|}.
