(* ===== verification/Interleave.v ===== *)
(** * Tables, statements and calls that interleave *)

From S2P Require Import Prelude GoStd GoJson WfTypes WfDb WfStore WfStoreLemmas GoText WfTask.
From S2P Require Import WfDigest WfReplay PgRetry WfRun WfInvariants.

(** * Statements, the tables of the ledgers and the values in their columns *)

(** * One statement, and what the caller learns of it

    A statement outside of any transaction commits by itself.  The caller may
    learn of an error although it took effect, when the answer is lost. *)

(** What one statement meets: it runs, it is refused, or it takes effect and
    the error [e] is returned all the same. *)
Inductive reply := Answered | Refused (e : error) | AnswerLost (e : error).

Definition statement {S A} (w : reply) (m : tx S A) : S -> res A * S :=
  fun s =>
    match w with
    | Answered => run_tx m s
    | Refused e => (Err e, s)
    | AnswerLost e => match m s with Ok (_, s') => (Err e, s') | Err e' => (Err e', s) end
    end.

(** A statement that only reads: its answer cannot be lost with an effect. *)
Definition query {S A} (w : reply) (f : S -> res A) (s : S) : res A :=
  match w with Answered => f s | Refused e | AnswerLost e => Err e end.

Lemma statement_cases {S A} w (m : tx S A) s r s' :
  statement w m s = (r, s') ->
  (s' = s /\ forall a, r <> Ok a) \/ (exists a, m s = Ok (a, s') /\ forall b, r = Ok b -> b = a).
Proof.
  unfold statement, run_tx. destruct w as [|e|e].
  - destruct (m s) as [[a s1]|e]; intros [= <- <-]; [right|left]; [|done]. exists a. naive_solver.
  - intros [= <- <-]. by left.
  - destruct (m s) as [[a s1]|e']; intros [= <- <-]; [right|by left]. exists a. naive_solver.
Qed.

Lemma query_Ok {S A} w (f : S -> res A) s a : query w f s = Ok a -> f s = Ok a.
Proof. by destruct w. Qed.

(** * Tables with one key

    A table is a map from the text of its key, a uuid in its canonical form or
    any text, to its rows.  The statements that the ledgers of the services
    share, what they do, and the invariants of such tables: every row is well
    formed, and a row only changes in the ways that its service allows. *)

Section table.
Context `{Platform} {R : Type}.

Abbreviation table := (gmap string R).

Section statements.
(** How a parameter becomes a value of the key's type. *)
Variable param : string -> res string.

(** [INSERT ... ON CONFLICT (key) DO NOTHING]: whether a row went in. *)
Definition insert_row (id : string) (row : R) : tx table bool :=
  k ← tx_lift (param id);
  s ← tx_get;
  if bool_decide (is_Some (s !! k)) then mret false
  else tx_put (<[k := row]> s) ;; mret true.

(** [SELECT ... WHERE key=$1] *)
Definition find_row (id : string) (s : table) : res (option R) :=
  k ← param id;
  Ok (s !! k).

(** [UPDATE ... WHERE key=$1 AND ...]: the row that was updated, which has to
    satisfy the checks of the table. *)
Definition update_row (id : string) (matches check : R -> bool) (f : R -> R)
    : tx table (option R) :=
  k ← tx_lift (param id);
  s ← tx_get;
  match s !! k with
  | Some r =>
      if matches r then
        if check (f r) then tx_put (<[k := f r]> s) ;; mret (Some (f r)) else tx_err check_violation
      else mret None
  | None => mret None
  end.

(** [DELETE ... WHERE key=$1 AND ...]: whether a row went away. *)
Definition delete_row (id : string) (matches : R -> bool) : tx table bool :=
  k ← tx_lift (param id);
  s ← tx_get;
  match s !! k with
  | Some r => if matches r then tx_put (delete k s) ;; mret true else mret false
  | None => mret false
  end.

(** ** What the statements do *)

Lemma insert_row_Ok id row s b s' :
  insert_row id row s = Ok (b, s') ->
  exists k, param id = Ok k /\
    ((b = true /\ s !! k = None /\ s' = <[k := row]> s) \/ (b = false /\ s' = s)).
Proof.
  unfold insert_row. intros Hr. tx_open Hr;
    match goal with Hk : param _ = Ok ?k |- _ => exists k; split; [done|] end; [by right|left].
  split_and!; [done| |done]. apply bool_decide_eq_false in Hc.
  destruct (_ !! _) eqn:E; [|done]. destruct Hc. by eexists.
Qed.

Lemma update_row_Ok id matches check f s o s' :
  update_row id matches check f s = Ok (o, s') ->
  (o = None /\ s' = s) \/
  exists k r, param id = Ok k /\ s !! k = Some r /\ matches r = true /\
    check (f r) = true /\ o = Some (f r) /\ s' = <[k := f r]> s.
Proof.
  unfold update_row. intros Hr. tx_open Hr.
  match type of Hr with (match ?c with _ => _ end) _ = _ => destruct c as [r|] eqn:Hrow end;
    tx_open Hr; try (by left). right. eexists _, _. by split_and!.
Qed.

Lemma delete_row_Ok id matches s b s' :
  delete_row id matches s = Ok (b, s') ->
  (b = false /\ s' = s) \/
  exists k r, param id = Ok k /\ s !! k = Some r /\ matches r = true /\ b = true /\ s' = delete k s.
Proof.
  unfold delete_row. intros Hr. tx_open Hr.
  match type of Hr with (match ?c with _ => _ end) _ = _ => destruct c as [r|] eqn:Hrow end;
    tx_open Hr; try (by left). right. eexists _, _. by split_and!.
Qed.

(** The row is there and matches. *)
Lemma update_row_hit {id : string} k matches check f s row :
  param id = Ok k -> s !! k = Some row -> matches row = true -> check (f row) = true ->
  update_row id matches check f s = Ok (Some (f row), <[k := f row]> s).
Proof.
  intros Hid Hrow Hm Hc. unfold update_row, mbind, tx_bind, tx_lift, tx_get. rewrite Hid.
  by rewrite Hrow, Hm, Hc.
Qed.

Lemma delete_row_hit {id : string} k matches s row :
  param id = Ok k -> s !! k = Some row -> matches row = true ->
  delete_row id matches s = Ok (true, delete k s).
Proof.
  intros Hid Hrow Hm. unfold delete_row, mbind, tx_bind, tx_lift, tx_get. rewrite Hid.
  by rewrite Hrow, Hm.
Qed.

(** The row is there, so nothing goes in. *)
Lemma insert_row_found {id : string} k row new s :
  param id = Ok k -> s !! k = Some row -> insert_row id new s = Ok (false, s).
Proof.
  intros Hid Hrow. unfold insert_row, mbind, tx_bind, tx_lift, tx_get. by rewrite Hid, Hrow.
Qed.

Lemma insert_row_absent {id : string} k new s :
  param id = Ok k -> s !! k = None -> insert_row id new s = Ok (true, <[k := new]> s).
Proof.
  intros Hid Hrow. unfold insert_row, mbind, tx_bind, tx_lift, tx_get. by rewrite Hid, Hrow.
Qed.

End statements.

(** ** Tables with a uuid as their key *)

Definition insert_absent (id : string) (row : R) : tx table bool := insert_row uuid_param id row.

Definition select_row (id : string) (s : table) : res (option R) := find_row uuid_param id s.

Definition update_where (id : string) (matches check : R -> bool) (f : R -> R)
    : tx table (option R) := update_row uuid_param id matches check f.

Lemma insert_absent_Ok id row s b s' :
  insert_absent id row s = Ok (b, s') ->
  exists k, uuid_column id = Some k /\
    ((b = true /\ s !! k = None /\ s' = <[k := row]> s) \/ (b = false /\ s' = s)).
Proof. intros (k & Hk%uuid_param_Ok & Hr)%insert_row_Ok. by exists k. Qed.

Lemma update_where_Ok id matches check f s o s' :
  update_where id matches check f s = Ok (o, s') ->
  (o = None /\ s' = s) \/
  exists k r, uuid_column id = Some k /\ s !! k = Some r /\ matches r = true /\
    check (f r) = true /\ o = Some (f r) /\ s' = <[k := f r]> s.
Proof. intros [Hr|(k & r & Hk%uuid_param_Ok & Hr)]%update_row_Ok; [by left|right]. by exists k, r. Qed.

Lemma uuid_param_hit id k : uuid_column id = Some k -> uuid_param id = Ok k.
Proof. unfold uuid_param. by intros ->. Qed.

Lemma update_where_hit {id : string} k matches check f s row :
  uuid_column id = Some k -> s !! k = Some row -> matches row = true -> check (f row) = true ->
  update_where id matches check f s = Ok (Some (f row), <[k := f row]> s).
Proof. intros Hid%uuid_param_hit. by apply update_row_hit. Qed.

Lemma select_row_hit id k s : uuid_column id = Some k -> select_row id s = Ok (s !! k).
Proof. intros Hid%uuid_param_hit. unfold select_row, find_row. by rewrite Hid. Qed.

Lemma insert_absent_found {id : string} k row new s :
  uuid_column id = Some k -> s !! k = Some row -> insert_absent id new s = Ok (false, s).
Proof. intros Hid%uuid_param_hit. by apply insert_row_found. Qed.

(** ** Invariants *)

Section invariant.
Variable row_ok : string -> R -> Prop.
(** What may happen to a row. *)
Variable row_evolves : R -> R -> Prop.
Context `{!PreOrder row_evolves}.

Definition table_ok (s : table) : Prop := forall k r, s !! k = Some r -> row_ok k r.

Definition table_evolves (s s' : table) : Prop :=
  forall k r, s !! k = Some r -> exists r', s' !! k = Some r' /\ row_evolves r r'.

#[global] Instance table_evolves_preorder : PreOrder table_evolves.
Proof.
  split; [intros s k r Hr; by exists r|].
  intros s1 s2 s3 H12 H23 k r Hr. destruct (H12 k r Hr) as (r2 & Hr2 & He).
  destruct (H23 k r2 Hr2) as (r3 & Hr3 & He'). exists r3. split; [done|]. by etrans.
Qed.

Lemma table_evolves_insert k r r' s :
  s !! k = Some r -> row_evolves r r' -> table_evolves s (<[k := r']> s).
Proof.
  intros Hr He k' x Hx. destruct (decide (k' = k)) as [->|Hne].
  - rewrite lookup_insert_eq. exists r'. split; [done|]. by simplify_eq.
  - rewrite lookup_insert_ne by done. by exists x.
Qed.

Lemma table_evolves_new k r s : s !! k = None -> table_evolves s (<[k := r]> s).
Proof.
  intros Hn k' x Hx. exists x. by rewrite lookup_insert_ne by congruence.
Qed.

Lemma table_ok_empty : table_ok ∅.
Proof. intros k r Hr. by rewrite lookup_empty in Hr. Qed.

Lemma table_ok_insert s k r : table_ok s -> row_ok k r -> table_ok (<[k := r]> s).
Proof.
  intros Hs Hr k' v Hv. destruct (decide (k' = k)) as [->|Hne].
  - rewrite lookup_insert_eq in Hv. by injection Hv as <-.
  - rewrite lookup_insert_ne in Hv by done. by apply Hs.
Qed.

(** What a step makes true of the table, and keeps true. *)
Definition table_step (s s' : table) : Prop := table_ok s' /\ table_evolves s s'.

Lemma table_step_same s : table_ok s -> table_step s s.
Proof. intros Hs. by split. Qed.

Lemma table_step_new s k r :
  table_ok s -> s !! k = None -> row_ok k r -> table_step s (<[k := r]> s).
Proof. intros Hs Hn Hr. split; [by apply table_ok_insert|by apply table_evolves_new]. Qed.

Lemma table_step_change s k r r' :
  table_ok s -> s !! k = Some r -> row_evolves r r' -> row_ok k r' -> table_step s (<[k := r']> s).
Proof. intros Hs Hr He Hok. split; [by apply table_ok_insert|by eapply table_evolves_insert]. Qed.

End invariant.

End table.

(** * Go values kept in jsonb columns

    What [json.Unmarshal] makes of the value of a column, and what is left of a
    value that was written there. *)

(** ** Decoders *)

(** An artifact reference that is a value: an absent one is the zero value. *)
Definition decode_artifact_value (v : option json) : res ArtifactRef :=
  a ← decode_artifact v; Ok (default (mkArtifactRef "" "") a).

Definition decode_int64 (v : option json) : res Z :=
  match v with
  | None | Some JNull => Ok 0
  | Some (JNum n) => if (- 2 ^ 63 <=? n) && (n <? 2 ^ 63) then Ok n else Err json_error
  | Some _ => Err json_error
  end.

Definition decode_uint32 (v : option json) : res Z :=
  match v with
  | None | Some JNull => Ok 0
  | Some (JNum n) => if (0 <=? n) && (n <? 2 ^ 32) then Ok n else Err json_error
  | Some _ => Err json_error
  end.

Definition decode_time (v : option json) : res time :=
  match v with
  | None | Some JNull => Ok zero_time
  | Some (JStr s) => match parse_rfc3339 s with Some t => Ok t | None => Err json_error end
  | Some _ => Err json_error
  end.

Definition decode_lease_value (v : option json) : res LeaseRef :=
  match v with
  | None | Some JNull => Ok (mkLease "" "" zero_time 0)
  | Some (JObj fields) =>
      id ← decode_string (json_field "id" fields);
      owner ← decode_string (json_field "owner_id" fields);
      expires ← decode_time (json_field "expires_at" fields);
      token ← decode_uint32 (json_field "fencing_token" fields);
      Ok (mkLease id owner expires token)
  | Some _ => Err json_error
  end.

(** ** What is read back *)

Definition clean_artifact (a : ArtifactRef) : ArtifactRef :=
  mkArtifactRef (sanitize (URI a)) (sanitize (Digest a)).

Lemma decode_slice_strings l :
  decode_strings (Some (json_trip (slice_json JStr l))) = Ok (map sanitize l).
Proof.
  destruct l as [|a l]; [done|]. unfold slice_json. rewrite json_trip_texts. apply decode_strings_trip.
Qed.

(** Finds the fields of an object by their literal names. *)
Ltac find_fields :=
  cbn [json_field];
  repeat match goal with |- context [bool_decide (?a = ?b)] =>
    first [change (bool_decide (a = b)) with true|change (bool_decide (a = b)) with false] end;
  cbv beta iota.

Lemma decode_artifact_clean a :
  decode_artifact_value (Some (json_trip (artifact_json a))) = Ok (clean_artifact a).
Proof. done. Qed.

(** * Calls of any number of processes, step by step

    A service keeps rows of type [S] in the database and uses the workflow
    store.  Its calls are small machines of type [C]: one step of a call is one
    statement, or the work between two statements, under circumstances of type
    [X].  The steps of all calls interleave with each other and with everything
    else that uses the workflow store; a call that makes no more steps has
    crashed.  [invariant_holds] is the induction the services share. *)

Record world (S C : Type) := mkWorld { shared : S; store : db; calls : list C }.
Arguments mkWorld {S C} _ _ _.
Arguments shared {S C} _.
Arguments store {S C} _.
Arguments calls {S C} _.

(** The workflow store of a step meets only committed states of others. *)
Definition fair_climate `{Platform} (climate : nat -> weather) : Prop :=
  forall n o e, climate n = OvertakenBy o e -> reachable o.

(** No condition on what the steps of a history meet. *)
Definition anything {E} (env : E) : Prop := True.

(** What anything else may do to the workflow store. *)
Inductive workflow_step `{Platform} : db -> db -> Prop :=
| step_execute climate ctx_done command res w w' :
    fair_climate climate -> execute climate ctx_done command w = (res, w') -> workflow_step w w'
| step_execute_tx inject concurrent command r w w' :
    ExecuteRunTx inject concurrent command w = Ok (r, w') -> workflow_step w w'.

Section interleave.
Context `{Platform} {S C X : Type}.
Variable step : X -> C -> S -> db -> C * S * db.
Variable enters : C -> Prop.
Variable fair : X -> Prop.

Inductive world_step : world S C -> world S C -> Prop :=
| world_enter s w cs c : enters c -> world_step (mkWorld s w cs) (mkWorld s w (cs ++ [c]))
| world_call x i c s w cs c' s' w' :
    cs !! i = Some c -> fair x -> step x c s w = (c', s', w') ->
    world_step (mkWorld s w cs) (mkWorld s' w' (<[i := c']> cs))
| world_workflow s w w' cs :
    workflow_step w w' -> world_step (mkWorld s w cs) (mkWorld s w' cs).

(** The rows were [s0] when the first call came. *)
Definition started (s0 : S) (sys : world S C) : Prop :=
  exists w, reachable w /\ rtc world_step (mkWorld s0 w []) sys.

Lemma started_steps s0 sys sys' : started s0 sys -> rtc world_step sys sys' -> started s0 sys'.
Proof. intros (w & Hw & Hr) Hs. exists w. split; [done|]. by etrans. Qed.

(** ** Calls as they come and go *)

Lemma lookup_snoc_cases {A} (l : list A) x i y :
  (l ++ [x]) !! i = Some y -> l !! i = Some y \/ (i = length l /\ y = x).
Proof.
  intros Hi. apply lookup_app_Some in Hi as [Hi|[Hge Hi]]; [by left|]. right.
  apply list_lookup_singleton_Some in Hi as [Hi ->]. split; [lia|done].
Qed.

Lemma lookup_insert_cases {A} (l : list A) i x j y :
  <[i := x]> l !! j = Some y -> (j = i /\ y = x) \/ (j <> i /\ l !! j = Some y).
Proof.
  intros Hj. destruct (decide (j = i)) as [->|Hne].
  - left. split; [done|]. assert (Hl : (i < length l)%nat).
    { apply lookup_lt_Some in Hj. by rewrite length_insert in Hj. }
    rewrite list_lookup_insert_eq in Hj by done. by injection Hj.
  - right. by rewrite list_lookup_insert_ne in Hj.
Qed.

(** ** Invariants *)

Section invariant.
Variable rows_ok : S -> Prop.
Variable call_ok : S -> C -> Prop.
(** What a step may do to the rows. *)
Variable evolves : S -> S -> Prop.
Context `{!PreOrder evolves}.

Hypothesis enters_ok : forall s c, enters c -> call_ok s c.
Hypothesis call_stays : forall s s' c, evolves s s' -> call_ok s c -> call_ok s' c.
Hypothesis step_ok : forall x c s w c' s' w',
  fair x -> rows_ok s -> call_ok s c -> step x c s w = (c', s', w') ->
  rows_ok s' /\ call_ok s' c' /\ evolves s s'.

Definition world_ok (sys : world S C) : Prop :=
  rows_ok (shared sys) /\
  forall i c, calls sys !! i = Some c -> call_ok (shared sys) c.

Lemma world_step_ok sys sys' :
  world_step sys sys' -> world_ok sys -> world_ok sys' /\ evolves (shared sys) (shared sys').
Proof.
  intros Hstep [Hrows Hcalls]. destruct Hstep as [s w cs c Hc|x i c s w cs c' s' w' Hi Hf Hs|]; cbn in *.
  - split; [|done]. split; cbn; [done|].
    intros i c' [Hi|[_ ->]]%lookup_snoc_cases; [by eapply Hcalls|by apply enters_ok].
  - destruct (step_ok _ _ _ _ _ _ _ Hf Hrows (Hcalls i c Hi) Hs) as (Hr & Hc & He).
    split; [|done]. split; cbn; [done|].
    intros j cj [[-> ->]|[_ Hj]]%lookup_insert_cases; [done|]. by eapply call_stays, Hcalls.
  - split; [|done]. by split.
Qed.

Lemma world_steps_ok sys sys' :
  rtc world_step sys sys' -> world_ok sys -> world_ok sys' /\ evolves (shared sys) (shared sys').
Proof.
  induction 1 as [sys|a b c Hab _ IH]; intros Ha; [done|].
  destruct (world_step_ok _ _ Hab Ha) as [Hb He]. destruct (IH Hb) as [Hc He']. split; [done|by etrans].
Qed.

Lemma invariant_holds s0 sys : rows_ok s0 -> started s0 sys -> world_ok sys.
Proof.
  intros H0 (w & _ & Hr). apply (world_steps_ok _ _ Hr). by split.
Qed.

End invariant.

(** ** Exclusive holders

    A call may hold a key; a key that is held is not taken again. *)

Section exclusive.
Context {K : Type}.
Variable holds : C -> option K.
Variable rows_ok : S -> Prop.
Variable call_ok : S -> C -> Prop.

(** What a step of [c] does for itself, and leaves to another call. *)
Record exclusive_step (c c' : C) (s s' : S) : Prop := {
  xs_rows : rows_ok s';
  xs_call : call_ok s' c';
  xs_taken : forall k, holds c' = Some k ->
    holds c = Some k \/ forall d, call_ok s d -> holds d <> Some k;
  xs_others : forall d, call_ok s d -> (forall k, holds c = Some k -> holds d <> Some k) -> call_ok s' d;
}.

Hypothesis enters_ok : forall s c, enters c -> call_ok s c /\ holds c = None.
Hypothesis step_ok : forall x c s w c' s' w',
  fair x -> rows_ok s -> call_ok s c -> step x c s w = (c', s', w') -> exclusive_step c c' s s'.

Record world_exclusive (sys : world S C) : Prop := {
  we_rows : rows_ok (shared sys);
  we_calls : forall i c, calls sys !! i = Some c -> call_ok (shared sys) c;
  we_holders : forall i j c d k, calls sys !! i = Some c -> calls sys !! j = Some d ->
    holds c = Some k -> holds d = Some k -> i = j;
}.

Lemma exclusive_enter s w cs c :
  enters c -> world_exclusive (mkWorld s w cs) -> world_exclusive (mkWorld s w (cs ++ [c])).
Proof.
  intros Hc [Hr Hok Hex]. destruct (enters_ok s c Hc) as [Hcok Hfree]. split; cbn in *; [done| |].
  - intros i d [Hi|[_ ->]]%lookup_snoc_cases; [by eapply Hok|done].
  - intros i j d e k [Hi|[_ ->]]%lookup_snoc_cases [Hj|[_ ->]]%lookup_snoc_cases Hd He; try congruence.
    by eapply Hex.
Qed.

Lemma exclusive_call x i c s w cs c' s' w' :
  cs !! i = Some c -> fair x -> step x c s w = (c', s', w') ->
  world_exclusive (mkWorld s w cs) -> world_exclusive (mkWorld s' w' (<[i := c']> cs)).
Proof.
  intros Hi Hf Hs [Hr Hok Hex]. cbn in *.
  destruct (step_ok _ _ _ _ _ _ _ Hf Hr (Hok _ _ Hi) Hs) as [Hr' Hc' Htaken Hothers].
  assert (Hfree : forall j d k, j <> i -> cs !! j = Some d -> holds c' = Some k -> holds d <> Some k).
  { intros j d k Hne Hj Hk Hd. destruct (Htaken k Hk) as [Hc|Hno]; [|by apply (Hno d); [eapply Hok|]].
    by apply Hne, (Hex j i d c k). }
  split; cbn; [done| |].
  - intros j d [[-> ->]|[Hne Hj]]%lookup_insert_cases; [done|]. apply Hothers; [by eapply Hok|].
    intros k Hc Hd. by apply Hne, (Hex j i d c k).
  - intros j l d e k [[-> ->]|[Hj' Hj]]%lookup_insert_cases [[-> ->]|[Hl' Hl]]%lookup_insert_cases Hd He;
      [done|by destruct (Hfree _ _ _ Hl' Hl Hd)|by destruct (Hfree _ _ _ Hj' Hj He)|by eapply Hex].
Qed.

Lemma exclusive_holds s0 sys : rows_ok s0 -> started s0 sys -> world_exclusive sys.
Proof.
  intros H0 (w & _ & Hr). assert (Hw : world_exclusive (mkWorld s0 w [])) by (by split).
  remember (mkWorld s0 w []) as sys0 eqn:Heq. clear Heq. induction Hr as [|a b d Hab _ IH]; [done|].
  apply IH. destruct Hab as [s w1 cs c Hc|x i c s w1 cs c' s' w' Hi Hf Hs|s w1 w2 cs _].
  - by apply exclusive_enter.
  - by eapply exclusive_call.
  - destruct Hw as [? ? ?]. by split.
Qed.

End exclusive.

(** ** Scripts: histories that are computed *)

Inductive action := Enter (c : C) | Step (i : nat) (x : X).

Definition act (a : action) (sys : world S C) : world S C :=
  match a with
  | Enter c => mkWorld (shared sys) (store sys) (calls sys ++ [c])
  | Step i x =>
      match calls sys !! i with
      | Some c =>
          let '(c', s', w') := step x c (shared sys) (store sys) in
          mkWorld s' w' (<[i := c']> (calls sys))
      | None => sys
      end
  end.

Definition drive (l : list action) (sys : world S C) : world S C :=
  foldl (fun sys a => act a sys) sys l.

Definition admissible (a : action) : Prop :=
  match a with Enter c => enters c | Step _ x => fair x end.

Lemma act_steps a sys : admissible a -> rtc world_step sys (act a sys).
Proof.
  intros Ha. destruct sys as [s w cs]. destruct a as [c|i x]; cbn.
  - by apply rtc_once, world_enter.
  - destruct (cs !! i) as [c|] eqn:Hi; [|apply rtc_refl].
    destruct (step _ _ _ _) as [[c' s'] w'] eqn:E. apply rtc_once. by eapply world_call.
Qed.

Lemma drive_steps l sys : Forall admissible l -> rtc world_step sys (drive l sys).
Proof.
  intros Hl. revert sys. induction Hl as [|a l Ha _ IH]; intros sys; [apply rtc_refl|].
  etrans; [by apply act_steps|apply IH].
Qed.

Lemma drive_started s0 w l :
  reachable w -> Forall admissible l -> started s0 (drive l (mkWorld s0 w [])).
Proof. intros Hw Hl. exists w. split; [done|by apply drive_steps]. Qed.

Lemma started_parts s0 sys :
  started s0 sys -> started s0 (mkWorld (shared sys) (store sys) (calls sys)).
Proof. by destruct sys. Qed.

End interleave.

(** With fewer calls and circumstances, fewer histories. *)
Lemma started_mono `{Platform} {S C X} (step : X -> C -> S -> db -> C * S * db)
    (enters enters' : C -> Prop) (fair fair' : X -> Prop) s0 sys :
  (forall c, enters c -> enters' c) -> (forall x, fair x -> fair' x) ->
  started step enters fair s0 sys -> started step enters' fair' s0 sys.
Proof.
  intros He Hf (w & Hw & Hr). exists w. split; [done|].
  eapply rtc_subrel; [|exact Hr]. intros a b [].
  - by apply world_enter, He.
  - eapply world_call; eauto.
  - by apply world_workflow.
Qed.

Arguments Enter {C X} _.
Arguments Step {C X} _ _.
