(* ===== verification/ExRequest.v ===== *)
(** * Execution requests, reports and the checks before anything is applied *)

From S2P Require Import Prelude GoStd GoJson WfTypes WfTask WfDigest CtImplementation GoText.
From S2P Require Import CtMessages CtCommon.

(** * What an execution reports

    The data of [go/internal/execution/types.go] that other components read. *)

Definition ExErrInvalidRequest : error := ErrNew "invalid execution request".
Definition ExErrArtifactIntegrity : error := ErrNew "execution artifact integrity check failed".
Definition ErrUnsafePath : error := ErrNew "unsafe execution path".
Definition ErrLimitExceeded : error := ErrNew "execution limit exceeded".
Definition ErrExecutionConflict : error := ErrNew "execution ID already has different content".

Record ExLimits := mkExLimits {
  MaxChangedFiles : Z;
  MaxFileBytes : Z;
  MaxTotalBytes : Z;
  Limits_Timeout : Z;
}.

Definition DefaultMaxChangedFiles : Z := 100.
Definition DefaultMaxFileBytes : Z := 2 ^ 20.
Definition DefaultMaxTotalBytes : Z := 10 * 2 ^ 20.
Definition DefaultTimeout : Z := 5 * Minute.

Definition DefaultLimits : ExLimits :=
  mkExLimits DefaultMaxChangedFiles DefaultMaxFileBytes DefaultMaxTotalBytes DefaultTimeout.

Record DiffEntry := mkDiffEntry {
  Diff_Operation : FileOperation;
  Diff_Path : string;
  Diff_Mode : string;
  BeforeSHA256 : string;
  AfterSHA256 : string;
}.

Record ExecutionReport := mkExecutionReport {
  Exec_SchemaVersion : string;
  Exec_ExecutionID : string;
  ExecutedAt : string;
  Exec_RunID : string;
  Exec_TaskID : string;
  Exec_Attempt : Z;
  Exec_Proposal : ArtifactRef;
  Exec_Lease : LeaseRef;
  Exec_BaseCommit : string;
  Exec_CandidateCommit : string;
  Exec_CandidateRef : string;
  Exec_Limits : ExLimits;
  ActualDiff : list DiffEntry;
}.

(** ** What the digest of a request is taken of *)

(** The parts that are hashed, each after its length in eight bytes. *)
Fixpoint big_endian (n : nat) (z : Z) : string :=
  match n with
  | O => ""
  | S n' => big_endian n' (z / 256) +:+ String (byte (Z.to_nat (z `mod` 256))) ""
  end.

Definition framed (parts : list string) : string :=
  join "" (map (fun part => big_endian 8 (str_len part) +:+ part) parts).

(** * Execution requests and the checks before anything is applied

    Models the parts of [go/internal/execution/service.go] and [ledger.go] that
    need neither git nor the ledger: the configuration, the limits, the paths
    of a proposal, the validation of a request, its digest, and the targets of
    the changes in a worktree.  The artifact store and the file system are
    arguments.  Paths quoted in error texts are left out. *)

(** ** Data *)

Record ExecutionRequest := mkExecutionRequest {
  ExecutionID : string;
  ExecutionTimestamp : time;
  Ex_Implementation : option pb_ImplementationRequest;
  Ex_Proposal : option pb_ImplementationProposal;
  ProposalArtifact : ArtifactRef;
  Ex_Lease : LeaseRef;
  Ex_ExpectedTaskRevision : Z;
}.

Record ExecutionConfig := mkExecutionConfig {
  RepositoryRoot : string;
  WorktreeRoot : string;
  WorkerImage : string;
  Ex_ActorID : string;
  AuthorName : string;
  AuthorEmail : string;
  Ex_Limits : ExLimits;
  Ex_MaxConcurrent : Z;
  Ex_MaxWorktrees : Z;
}.

#[global] Instance ExLimits_eq_dec : EqDecision ExLimits.
Proof. solve_decision. Defined.

(** What [os.Lstat] tells of a path. *)
Inductive lstat :=
| NotExist
| StatFailed (e : error)
| Stat (symlink dir regular : bool) (perm : Z).

(** ** Limits *)

Definition validateLimits (limits : ExLimits) : res unit :=
  if (MaxChangedFiles limits <? 1) || (MaxFileBytes limits <? 1) ||
     (MaxTotalBytes limits <? 1) || (Limits_Timeout limits <=? 0)
  then Err (ErrText "positive execution limits are required")
  else if (DefaultMaxChangedFiles <? MaxChangedFiles limits) ||
          (DefaultMaxFileBytes <? MaxFileBytes limits) ||
          (DefaultMaxTotalBytes <? MaxTotalBytes limits) ||
          (DefaultTimeout <? Limits_Timeout limits)
  then Err (ErrText "execution limits exceed service maximums")
  else Ok tt.

Definition normalizeServicePaths (config : ExecutionConfig) : res ExecutionConfig :=
  if (RepositoryRoot config == "") || (WorktreeRoot config == "") || (WorkerImage config == "")
  then Err (ErrText "repository, worktree root, and worker image are required")
  else
    let repository := path_Clean (RepositoryRoot config) in
    let worktrees := path_Clean (WorktreeRoot config) in
    if negb (path_IsAbs repository) || negb (path_IsAbs worktrees)
    then Err (ErrText "repository and worktree roots must be absolute")
    else Ok (mkExecutionConfig repository worktrees (WorkerImage config) (Ex_ActorID config)
               (AuthorName config) (AuthorEmail config) (Ex_Limits config)
               (Ex_MaxConcurrent config) (Ex_MaxWorktrees config)).

Definition normalizeServiceLimits (config : ExecutionConfig) : res ExecutionConfig :=
  let limits := if bool_decide (Ex_Limits config = mkExLimits 0 0 0 0)
                then DefaultLimits else Ex_Limits config in
  validateLimits limits ;;
  let concurrent := if Ex_MaxConcurrent config =? 0 then 4 else Ex_MaxConcurrent config in
  let worktrees := if Ex_MaxWorktrees config =? 0 then 8 else Ex_MaxWorktrees config in
  if (concurrent <? 1) || (worktrees <? 1)
  then Err (ErrText "positive execution and worktree concurrency limits are required")
  else Ok (mkExecutionConfig (RepositoryRoot config) (WorktreeRoot config) (WorkerImage config)
             (Ex_ActorID config) (AuthorName config) (AuthorEmail config) limits concurrent worktrees).

Definition validateServiceIdentity `{Platform} (config : ExecutionConfig) : res unit :=
  if negb (uuid_Parse_ok (Ex_ActorID config)) || blank (AuthorName config) ||
     blank (AuthorEmail config)
  then Err (ErrText "execution actor and author metadata are required")
  else Ok tt.

Definition normalizeServiceConfig `{Platform} (config : ExecutionConfig) : res ExecutionConfig :=
  config ← normalizeServicePaths config;
  config ← normalizeServiceLimits config;
  validateServiceIdentity config ;;
  Ok config.

(** ** Paths and contents of the changes *)

Definition normalizePath (value : string) : res string :=
  if (value == "") || path_IsAbs value || Contains value (String backslash "")
  then Err ErrUnsafePath
  else if has_control value then Err ErrUnsafePath
  else
    let cleaned := path_Clean value in
    if (cleaned == ".") || (cleaned == "..") || HasPrefix cleaned "../" then Err ErrUnsafePath
    else if existsb (fun component => component == ".git") (split_at "/" cleaned)
    then Err ErrUnsafePath
    else Ok cleaned.

(** [seen] and [total] over the changes so far. *)
Fixpoint preflight_loop (limits : ExLimits) (changes : list FileChange) (seen : gset string)
    (total : Z) : res unit :=
  match changes with
  | [] => Ok tt
  | change :: rest =>
      let path := Change_Path change in
      if bool_decide (normalizePath path <> Ok path) then Err (ErrWrap ErrUnsafePath "path")
      else if bool_decide (path ∈ seen) then Err (ErrWrap ErrUnsafePath "duplicate path")
      else
        let seen := {[path]} ∪ seen in
        match ReplacementContent change with
        | None => preflight_loop limits rest seen total
        | Some content =>
            let size := str_len content in
            if MaxFileBytes limits <? size then Err (ErrWrap ErrLimitExceeded "file")
            else if has_nul content then Err (ErrWrap ExErrInvalidRequest "binary content")
            else if MaxTotalBytes limits <? total + size
            then Err (ErrWrap ErrLimitExceeded "replacement content")
            else preflight_loop limits rest seen (total + size)
        end
  end.

Definition preflightChanges (changes : list FileChange) (limits : ExLimits) : res unit :=
  if MaxChangedFiles limits <? Z.of_nat (length changes)
  then Err (ErrWrap ErrLimitExceeded "changed files")
  else preflight_loop limits changes ∅ 0.

(** ** Targets in the worktree *)

Definition validateExistingTarget (symlink dir regular : bool) (perm : Z) (leaf : bool)
    (change : FileChange) : res unit :=
  if symlink then Err (ErrWrap ErrUnsafePath "symlink target")
  else if negb leaf then
    if negb dir then Err (ErrWrap ErrUnsafePath "non-directory ancestor") else Ok tt
  else if negb regular || (negb (perm =? 420) && negb (perm =? 493))   (* 0o644, 0o755 *)
  then Err (ErrWrap ErrUnsafePath "unsupported target")
  else if bool_decide (Operation change = FileCreate)
  then Err (ErrWrap ErrUnsafePath "create target already exists")
  else Ok tt.

Section files.
Context `{Platform}.
Variable Lstat : string -> lstat.
Variable ReadFile : string -> res string.

Fixpoint validateTarget_loop (current : string) (parts : list string) (change : FileChange)
    : res unit :=
  match parts with
  | [] => Ok tt
  | part :: rest =>
      let current := filepath_Join [current; part] in
      let leaf := bool_decide (rest = []) in
      match Lstat current with
      | NotExist =>
          if bool_decide (Operation change = FileCreate) && leaf then Ok tt
          else Err (ErrWrap ErrUnsafePath "missing target")
      | StatFailed e => Err (ErrWrap e "inspect target")
      | Stat symlink dir regular perm =>
          validateExistingTarget symlink dir regular perm leaf change ;;
          validateTarget_loop current rest change
      end
  end.

Definition validateTarget (worktree : string) (change : FileChange) : res unit :=
  validateTarget_loop worktree (split_at "/" (Change_Path change)) change.

Definition validateTargets (worktree : string) (changes : list FileChange) : res unit :=
  for_each (validateTarget worktree) changes.

Definition validateTargetDigests (worktree : string) (changes : list FileChange) : res unit :=
  for_each (fun change =>
    if bool_decide (Operation change = FileCreate) then Ok tt
    else
      body ← map_err (fun e => ErrWrap e "read target")
        (ReadFile (filepath_Join [worktree; Change_Path change]));
      if sha256_hex body != ExpectedOriginalSHA256 change
      then Err (ErrWrap ExErrArtifactIntegrity "original digest")
      else Ok tt) changes.

End files.

(** ** Requests *)

Section requests.
Context `{Platform} `{Protobuf} `{Wire}.
Variable Get : ArtifactRef -> res string.

Definition validateExecutionIdentity (request : ExecutionRequest) : res unit :=
  if negb (uuid_Parse_ok (ExecutionID request)) || bool_decide (Ex_Implementation request = None) ||
     bool_decide (Ex_Proposal request = None) || (Ex_ExpectedTaskRevision request =? 0) ||
     IsZero (ExecutionTimestamp request)
  then Err ExErrInvalidRequest
  else map_err (fun _ => ErrWrap ExErrInvalidRequest "lease") (LeaseRef_Validate (Ex_Lease request)).

Definition verifyProposalArtifact (request : ExecutionRequest) : res unit :=
  map_err (fun _ => ErrWrap ExErrInvalidRequest "proposal reference")
    (ArtifactRef_Validate (ProposalArtifact request)) ;;
  body ← map_err (fun e => ErrWrap e "load proposal artifact") (Get (ProposalArtifact request));
  if sha256_hex body != Digest (ProposalArtifact request) then Err ExErrArtifactIntegrity
  else
    encoded ← map_err (fun _ => ErrWrap ExErrInvalidRequest "serialize proposal")
      (marshal_implementation_proposal (Ex_Proposal request));
    if body != encoded then Err ExErrArtifactIntegrity else Ok tt.

(** The getters of an optional request. *)
Definition request_task_id (request : ExecutionRequest) : string :=
  match Ex_Implementation request with
  | Some value => default "" (re_task_id (envelope_of (ir_envelope value)))
  | None => ""
  end.

Definition ex_validateRequest (config : ExecutionConfig) (now : time) (request : ExecutionRequest)
    : res (ImplementationRequest * ImplementationProposal) :=
  validateExecutionIdentity request ;;
  mappedRequest ← map_err (fun _ => ErrWrap ExErrInvalidRequest "implementation request")
    (MapImplementationRequestAt (Ex_Implementation request) (known_time (UTC now)));
  if (IR_ApprovedTaskID mappedRequest != request_task_id request) ||
     negb (Env_Attempt (IR_Envelope mappedRequest) =? FencingToken (Ex_Lease request))
  then Err (ErrWrap ExErrInvalidRequest "task lease binding")
  else
    verifyProposalArtifact request ;;
    mappedProposal ← map_err (fun _ => ErrWrap ExErrInvalidRequest "implementation proposal")
      (MapImplementationProposal (Ex_Proposal request) mappedRequest);
    preflightChanges (Changes mappedProposal) (Ex_Limits config) ;;
    Ok (mappedRequest, mappedProposal).

(** ** The digest of a request *)

Definition ex_bindings_json (request : ExecutionRequest) : json :=
  let lease := Ex_Lease request in
  JObj [("ExecutionID", JStr (ExecutionID request));
    ("ExecutionTimestamp", JStr (rfc3339_nano (UTC (ExecutionTimestamp request))));
    ("ProposalURI", JStr (URI (ProposalArtifact request)));
    ("ProposalDigest", JStr (Digest (ProposalArtifact request)));
    ("LeaseID", JStr (Lease_ID lease)); ("LeaseOwnerID", JStr (OwnerID lease));
    ("LeaseExpiry", JStr (rfc3339_nano (UTC (ExpiresAt lease))));
    ("FencingToken", JNum (FencingToken lease));
    ("ExpectedTaskRevision", JNum (Ex_ExpectedTaskRevision request))].

Definition executionRequestDigest (request : ExecutionRequest) : res string :=
  implementation ← map_err (fun e => ErrWrap e "serialize execution request")
    (marshal_implementation_request (Ex_Implementation request));
  proposal ← map_err (fun e => ErrWrap e "serialize execution proposal")
    (marshal_implementation_proposal (Ex_Proposal request));
  Ok (sha256_hex (framed [implementation; proposal; json_text (ex_bindings_json request)])).

End requests.
