(* ===== verification/ExCandidate.v ===== *)
(** * The candidate commit and its verification

    Models [go/internal/execution/candidate.go]: the changes are put into a git
    index over the base tree, the index is committed, and what was committed is
    read back and compared with the proposal, path by path.  Git and the files
    of the worktree are arguments: reads of commits ([gitOutput]) and commands
    on the index ([gitIndexOutput]), whose answer may depend on the commands
    before. *)

From S2P Require Import Prelude GoStd GoJson GoText WfTypes WfTask WfDb WfDigest CtCommon.
From S2P Require Import CtImplementation ExRequest.

Definition emptySHA256 : string := "e3b0c44298fc1c149afbf4c8996fb92427ae41e4649b934ca495991b7852b855".

(** [^[A-Za-z0-9][A-Za-z0-9._-]*$] *)
Definition refComponentPattern : string -> bool :=
  let alnum c := is_letter c || is_digit c in
  matches (Cat (Class alnum)
    (Many (Class (fun c => alnum c || bool_decide (c ∈ ["."%char; "_"%char; "-"%char]))))).

Record treeEntry := mkTreeEntry { mode : string; objectID : string; Entry_body : string }.

Definition no_entry : treeEntry := mkTreeEntry "" "" "".

(** A command on the index: its arguments, its input and what it adds to the environment. *)
Record index_command := mkIndexCommand {
  arguments : list string;
  input : string;
  extraEnvironment : list string;
}.

Abbreviation index := (list index_command).

Record candidate_tools := mkCandidateTools {
  Git : list string -> res string;
  GitIndex : index -> index_command -> res string;
  ReadApplied : string -> res string;
  MkdirTemp : res unit;
}.

Definition nul : string := String (byte 0) "".

Section candidate.
Context `{Platform}.
Variable tools : candidate_tools.

Definition gitIndexOutputEnv (input : string) (environment : list string) (arguments : list string)
    : tx index string :=
  fun index =>
    let command := mkIndexCommand arguments input environment in
    match GitIndex tools index command with
    | Ok output => Ok (output, index ++ [command])
    | Err e => Err e
    end.

Definition gitIndexOutput (input : string) (arguments : list string) : tx index string :=
  gitIndexOutputEnv input [] arguments.

Definition tx_wrap {S A} (text : string) (m : tx S A) : tx S A :=
  fun s => map_err (fun e => ErrWrap e text) (m s).

(** ** Reading commits *)

Definition readTreeEntry (commit filePath : string) : res treeEntry :=
  output ← Git tools ["ls-tree"; "-z"; commit; "--"; filePath];
  let record := TrimSuffix output nul in
  match cut_at (byte 9) record with
  | None => Err (ErrWrap ErrUnsafePath "unsupported tree entry")
  | Some (header, actualPath) =>
      match Fields header with
      | [fmode; kind; object] =>
          if (actualPath == filePath) && (kind == "blob") && ((fmode == "100644") || (fmode == "100755"))
          then
            body ← Git tools ["cat-file"; "blob"; object];
            Ok (mkTreeEntry fmode object body)
          else Err (ErrWrap ErrUnsafePath "unsupported tree entry")
      | _ => Err (ErrWrap ErrUnsafePath "unsupported tree entry")
      end
  end.

(** ** Building *)

Definition prepareCandidateIndex (baseCommit : string) : tx index unit :=
  tx_lift (map_err (fun e => ErrWrap e "create candidate index directory") (MkdirTemp tools)) ;;
  tx_wrap "read candidate base tree" (gitIndexOutput "" ["read-tree"; baseCommit]) ;;
  mret tt.

Definition candidateMode (baseCommit : string) (change : FileChange) : res string :=
  if bool_decide (Operation change = FileCreate) then Ok "100644"
  else base ← readTreeEntry baseCommit (Change_Path change); Ok (mode base).

Definition applyCandidateChange (worktree baseCommit : string) (change : FileChange) : tx index unit :=
  if bool_decide (Operation change = FileDelete) then
    tx_wrap "remove candidate path"
      (gitIndexOutput "" ["update-index"; "--force-remove"; "--"; Change_Path change]) ;;
    mret tt
  else
    body ← tx_lift (map_err (fun e => ErrWrap e "read applied path")
      (ReadApplied tools (filepath_Join [worktree; Change_Path change])));
    if bool_decide (Some (sha256_hex body) <> option_map sha256_hex (ReplacementContent change))
    then tx_err (ErrWrap ExErrArtifactIntegrity "applied content")
    else
      objectID ← tx_wrap "hash candidate path" (gitIndexOutput body ["hash-object"; "-w"; "--stdin"]);
      fmode ← tx_lift (candidateMode baseCommit change);
      tx_wrap "index candidate path" (gitIndexOutput "" ["update-index"; "--add"; "--cacheinfo";
        fmode +:+ "," +:+ TrimSpace objectID +:+ "," +:+ Change_Path change]) ;;
      mret tt.

Definition applyCandidateChanges (worktree : string) (request : ImplementationRequest)
    (changes : list FileChange) : tx index unit :=
  tx_each (applyCandidateChange worktree (IR_BaseCommit request)) changes.

Definition writeCandidateCommit (config : ExecutionConfig) (request : ExecutionRequest)
    (mappedRequest : ImplementationRequest) : tx index string :=
  tree ← tx_wrap "write candidate tree" (gitIndexOutput "" ["write-tree"]);
  let message := "harness: apply task " +:+ IR_ApprovedTaskID mappedRequest +:+ " attempt " +:+
    decimal (Env_Attempt (IR_Envelope mappedRequest)) +:+ String (byte 10) "" in
  let date := rfc3339_nano (UTC (ExecutionTimestamp request)) in
  commit ← tx_wrap "create candidate commit" (gitIndexOutputEnv message
    ["GIT_AUTHOR_NAME=" +:+ AuthorName config; "GIT_AUTHOR_EMAIL=" +:+ AuthorEmail config;
     "GIT_COMMITTER_NAME=" +:+ AuthorName config; "GIT_COMMITTER_EMAIL=" +:+ AuthorEmail config;
     "GIT_AUTHOR_DATE=" +:+ date; "GIT_COMMITTER_DATE=" +:+ date]
    ["commit-tree"; TrimSpace tree; "-p"; IR_BaseCommit mappedRequest]);
  mret (TrimSpace commit).

(** ** Verifying what was committed *)

(** The fields of [git diff-tree -z]: a status and a path alternate. *)
Fixpoint path_statuses (fields : list string) (actual : gmap string string) : gmap string string :=
  match fields with
  | status :: path :: rest =>
      path_statuses rest (if status == "" then actual else <[path := status]> actual)
  | _ => actual
  end.

Definition candidatePathStatuses (baseCommit candidate : string) : res (gmap string string) :=
  names ← map_err (fun e => ErrWrap e "list candidate diff") (Git tools ["diff-tree"; "-r";
    "--no-commit-id"; "--name-status"; "-z"; "--no-renames"; baseCommit; candidate]);
  Ok (path_statuses (split_at (byte 0) names) ∅).

Definition wantStatus (operation : FileOperation) : string :=
  match operation with FileCreate => "A" | FileUpdate => "M" | FileDelete => "D" end.

Definition verifiedBeforeEntry (baseCommit : string) (change : FileChange) : res treeEntry :=
  if bool_decide (Operation change = FileCreate) then Ok no_entry
  else
    match readTreeEntry baseCommit (Change_Path change) with
    | Ok before =>
        if sha256_hex (Entry_body before) != ExpectedOriginalSHA256 change
        then Err (ErrWrap ExErrArtifactIntegrity "before digest") else Ok before
    | Err _ => Err (ErrWrap ExErrArtifactIntegrity "before digest")
    end.

Definition verifiedAfterEntry (candidate : string) (change : FileChange) (beforeMode : string)
    : res treeEntry :=
  if bool_decide (Operation change = FileDelete) then Ok no_entry
  else
    match readTreeEntry candidate (Change_Path change) with
    | Ok after =>
        if bool_decide (Some (sha256_hex (Entry_body after)) <>
             option_map sha256_hex (ReplacementContent change))
        then Err (ErrWrap ExErrArtifactIntegrity "after digest")
        else if mode after != (match Operation change with FileCreate => "100644" | _ => beforeMode end)
        then Err (ErrWrap ExErrArtifactIntegrity "candidate mode")
        else Ok after
    | Err _ => Err (ErrWrap ExErrArtifactIntegrity "after digest")
    end.

Definition digestOrEmpty (body : string) (empty : bool) : string :=
  if empty then emptySHA256 else sha256_hex body.

Definition verifyCandidateChange (baseCommit candidate : string) (actualPaths : gmap string string)
    (change : FileChange) : res DiffEntry :=
  if bool_decide (actualPaths !! Change_Path change <> Some (wantStatus (Operation change)))
  then Err (ErrWrap ExErrArtifactIntegrity "candidate operation")
  else
    before ← verifiedBeforeEntry baseCommit change;
    after ← verifiedAfterEntry candidate change (mode before);
    Ok (mkDiffEntry (Operation change) (Change_Path change)
          (if bool_decide (Operation change = FileDelete) then mode before else mode after)
          (digestOrEmpty (Entry_body before) (bool_decide (Operation change = FileCreate)))
          (digestOrEmpty (Entry_body after) (bool_decide (Operation change = FileDelete)))).

Definition path_le (left right : DiffEntry) : Prop := String.le (Diff_Path left) (Diff_Path right).
#[global] Instance path_le_dec : RelDecision path_le.
Proof. intros left right. unfold path_le. apply _. Defined.

Definition verifyCandidateDiff (baseCommit candidate : string) (changes : list FileChange)
    : res (list DiffEntry) :=
  actualPaths ← candidatePathStatuses baseCommit candidate;
  if negb (size actualPaths =? length changes)%nat
  then Err (ErrWrap ExErrArtifactIntegrity "candidate changed unauthorized paths")
  else
    result ← map_each (verifyCandidateChange baseCommit candidate actualPaths) changes;
    Ok (merge_sort path_le result).

(** ** The reference that keeps the candidate *)

Definition candidateRef (request : ImplementationRequest) (fence : Z) : res string :=
  let runID := Env_RunID (IR_Envelope request) in
  let taskID := IR_ApprovedTaskID request in
  if negb (refComponentPattern runID) || negb (refComponentPattern taskID)
  then Err (ErrWrap ExErrInvalidRequest "candidate ref identity")
  else Ok ("refs/harness/candidates/" +:+ runID +:+ "/" +:+ taskID +:+ "/" +:+
           decimal (Env_Attempt (IR_Envelope request)) +:+ "-" +:+ decimal fence).

(** Whether the reference was made here. *)
Definition retainCandidateRef (ref candidate : string) : tx index bool :=
  match Git tools ["rev-parse"; "--verify"; "--end-of-options"; ref] with
  | Ok existing =>
      if TrimSpace existing != candidate
      then tx_err (ErrWrap ExErrArtifactIntegrity "candidate ref conflict") else mret false
  | Err _ =>
      tx_wrap "retain candidate ref" (gitIndexOutput "" ["update-ref"; ref; candidate;
        "0000000000000000000000000000000000000000"]) ;;
      mret true
  end.

Record candidate_built := mkCandidate {
  Built_candidate : string;
  Built_ref : string;
  Built_diff : list DiffEntry;
  createdRef : bool;
}.

Definition build_steps (config : ExecutionConfig) (worktree : string) (request : ExecutionRequest)
    (mappedRequest : ImplementationRequest) (proposal : ImplementationProposal)
    : tx index candidate_built :=
  prepareCandidateIndex (IR_BaseCommit mappedRequest) ;;
  applyCandidateChanges worktree mappedRequest (Changes proposal) ;;
  candidate ← writeCandidateCommit config request mappedRequest;
  actual ← tx_lift (verifyCandidateDiff (IR_BaseCommit mappedRequest) candidate (Changes proposal));
  ref ← tx_lift (candidateRef mappedRequest (FencingToken (Ex_Lease request)));
  created ← retainCandidateRef ref candidate;
  mret (mkCandidate candidate ref actual created).

Definition buildCandidate (config : ExecutionConfig) (worktree : string) (request : ExecutionRequest)
    (mappedRequest : ImplementationRequest) (proposal : ImplementationProposal)
    : res candidate_built :=
  match build_steps config worktree request mappedRequest proposal [] with
  | Ok (built, _) => Ok built
  | Err e => Err e
  end.

(** ** The report *)

Definition operation_text (operation : FileOperation) : string :=
  match operation with FileCreate => "create" | FileUpdate => "update" | FileDelete => "delete" end.

Definition limits_json (l : ExLimits) : json :=
  JObj [("max_changed_files", JNum (MaxChangedFiles l)); ("max_file_bytes", JNum (MaxFileBytes l));
    ("max_total_bytes", JNum (MaxTotalBytes l)); ("timeout_nanoseconds", JNum (Limits_Timeout l))].

Definition diff_json (d : DiffEntry) : json :=
  JObj ([("operation", JStr (operation_text (Diff_Operation d))); ("path", JStr (Diff_Path d))] ++
    (if Diff_Mode d == "" then [] else [("mode", JStr (Diff_Mode d))]) ++
    [("before_sha256", JStr (BeforeSHA256 d)); ("after_sha256", JStr (AfterSHA256 d))]).

Definition execution_report_json (r : ExecutionReport) : res json :=
  lease ← lease_json (Exec_Lease r);
  Ok (JObj [("schema_version", JStr (Exec_SchemaVersion r)); ("execution_id", JStr (Exec_ExecutionID r));
    ("executed_at", JStr (ExecutedAt r)); ("run_id", JStr (Exec_RunID r));
    ("task_id", JStr (Exec_TaskID r)); ("attempt", JNum (Exec_Attempt r));
    ("proposal", artifact_json (Exec_Proposal r)); ("lease", lease);
    ("base_commit", JStr (Exec_BaseCommit r)); ("candidate_commit", JStr (Exec_CandidateCommit r));
    ("candidate_ref", JStr (Exec_CandidateRef r)); ("limits", limits_json (Exec_Limits r));
    ("actual_diff", JArr (map diff_json (ActualDiff r)))]).

Definition ex_marshalReport (report : ExecutionReport) : res string :=
  map_err (fun e => ErrWrap e "marshal execution report")
    (v ← execution_report_json report; Ok (json_text v)).

End candidate.
