(* ===== verification/ExService.v ===== *)
(** * The ledger and the service of executions *)

From S2P Require Import Prelude GoStd GoJson WfTypes WfTask WfDigest WfDb WfStore Interleave.
From S2P Require Import CtImplementation ExRequest ExCandidate PgRetry WfRun WfReplay.
From S2P Require Import WfInvariants CtMessages CtCommon.

(** * The ledger of executions

    Models [go/internal/execution/repository.go] and the table of
    [migrations/0009_execution_ledger.sql]: a row is reserved for an owner until
    a deadline and then completed with a result.  A reservation past its
    deadline goes to the next owner that asks; a failed execution gives its
    reservation back by moving the deadline to the present.  The trigger of the
    table refuses only changes that no statement below makes. *)

(** ** The table *)

Inductive execution_state := ExReserved | ExCompleted (result : json).

Record execution_row := mkExecutionRow {
  xr_request_digest : string;
  xr_owner : string;
  xr_reserved_until : Z;
  xr_timestamp : Z;
  xr_final : option Z;
  xr_state : execution_state;
}.

Abbreviation executions := (gmap string execution_row).

Definition set_xr_owner (owner : string) (until : Z) (r : execution_row) : execution_row :=
  mkExecutionRow (xr_request_digest r) owner until (xr_timestamp r) (xr_final r) (xr_state r).
Definition set_xr_until (until : Z) (r : execution_row) : execution_row :=
  set_xr_owner (xr_owner r) until r.
Definition set_xr_final (final : option Z) (r : execution_row) : execution_row :=
  mkExecutionRow (xr_request_digest r) (xr_owner r) (xr_reserved_until r) (xr_timestamp r) final
    (xr_state r).
Definition set_xr_state (st : execution_state) (r : execution_row) : execution_row :=
  mkExecutionRow (xr_request_digest r) (xr_owner r) (xr_reserved_until r) (xr_timestamp r)
    (xr_final r) st.

(** The constraints of the table. *)
Definition execution_row_check (r : execution_row) : bool :=
  match_hex 64 (xr_request_digest r) &&
  match xr_state r with
  | ExReserved => true
  | ExCompleted _ => bool_decide (is_Some (xr_final r))
  end.

(** ** Results as JSON *)

Record ExecutionResult := mkExecutionResult {
  XResult_ExecutionID : string;
  XResult_BaseCommit : string;
  XResult_CandidateCommit : string;
  XResult_CandidateRef : string;
  XResult_ReportArtifact : ArtifactRef;
  XResult_Lease : LeaseRef;
  XResult_Limits : ExLimits;
  XResult_ActualDiff : list DiffEntry;
  XResult_Replay : bool;
}.

Definition execution_result_json (r : ExecutionResult) : res json :=
  lease ← lease_json (XResult_Lease r);
  Ok (JObj [("ExecutionID", JStr (XResult_ExecutionID r)); ("BaseCommit", JStr (XResult_BaseCommit r));
    ("CandidateCommit", JStr (XResult_CandidateCommit r));
    ("CandidateRef", JStr (XResult_CandidateRef r));
    ("ReportArtifact", artifact_json (XResult_ReportArtifact r)); ("Lease", lease);
    ("Limits", limits_json (XResult_Limits r));
    ("ActualDiff", JArr (map diff_json (XResult_ActualDiff r))); ("Replay", JBool (XResult_Replay r))]).

(** An operation is a string in Go: only the three that are written occur. *)
Definition decode_operation (v : option json) : res FileOperation :=
  s ← decode_string v;
  if s == "create" then Ok FileCreate
  else if s == "update" then Ok FileUpdate
  else if s == "delete" then Ok FileDelete
  else Err json_error.

Definition decode_diff (v : json) : res DiffEntry :=
  match v with
  | JObj fields =>
      operation ← decode_operation (json_field "operation" fields);
      path ← decode_string (json_field "path" fields);
      fmode ← decode_string (json_field "mode" fields);
      before ← decode_string (json_field "before_sha256" fields);
      after ← decode_string (json_field "after_sha256" fields);
      Ok (mkDiffEntry operation path fmode before after)
  | _ => Err json_error
  end.

Definition decode_diffs (v : option json) : res (list DiffEntry) :=
  match v with
  | None | Some JNull => Ok []
  | Some (JArr l) => map_each decode_diff l
  | Some _ => Err json_error
  end.

Definition decode_limits (v : option json) : res ExLimits :=
  match v with
  | None | Some JNull => Ok (mkExLimits 0 0 0 0)
  | Some (JObj fields) =>
      files ← decode_int64 (json_field "max_changed_files" fields);
      bytes ← decode_int64 (json_field "max_file_bytes" fields);
      total ← decode_int64 (json_field "max_total_bytes" fields);
      timeout ← decode_int64 (json_field "timeout_nanoseconds" fields);
      Ok (mkExLimits files bytes total timeout)
  | Some _ => Err json_error
  end.

Definition decode_execution_result (v : json) : res ExecutionResult :=
  match v with
  | JObj fields =>
      id ← decode_string (json_field "ExecutionID" fields);
      base ← decode_string (json_field "BaseCommit" fields);
      candidate ← decode_string (json_field "CandidateCommit" fields);
      ref ← decode_string (json_field "CandidateRef" fields);
      artifact ← decode_artifact_value (json_field "ReportArtifact" fields);
      lease ← decode_lease_value (json_field "Lease" fields);
      limits ← decode_limits (json_field "Limits" fields);
      diff ← decode_diffs (json_field "ActualDiff" fields);
      replay ← decode_bool (json_field "Replay" fields);
      Ok (mkExecutionResult id base candidate ref artifact lease limits diff replay)
  | JNull => Ok (mkExecutionResult "" "" "" "" (mkArtifactRef "" "") (mkLease "" "" zero_time 0)
                   (mkExLimits 0 0 0 0) [] false)
  | _ => Err json_error
  end.

(** ** Statements *)

Record ExecutionStart := mkExecutionStart {
  Start_ExecutionID : string;
  Ex_RequestDigest : string;
  Ex_Start_Timestamp : time;
  Ex_ReservationTTL : Z;
}.

Record ex_handle := mkExHandle {
  xh_id : string;
  xh_digest : string;
  xh_owner : string;
  xh_replay : option ExecutionResult;
}.

Definition ExHandle_Replay (h : ex_handle) : option ExecutionResult := xh_replay h.

Definition ex_ownedHandle (start : ExecutionStart) (owner : string) : ex_handle :=
  mkExHandle (Start_ExecutionID start) (Ex_RequestDigest start) owner None.

Section statements.
Context `{Platform}.
(** [make_interval(secs => d.Seconds())] in microseconds. *)
Variable interval_us : Z -> Z.

Definition insert_execution (start : ExecutionStart) (owner : string) (clock : Z)
    : tx executions bool :=
  digest ← tx_lift (text_column (Ex_RequestDigest start));
  owner ← tx_lift (uuid_param owner);
  let row := mkExecutionRow digest owner (clock + interval_us (Ex_ReservationTTL start))
    (time_column (Ex_Start_Timestamp start)) None ExReserved in
  if negb (execution_row_check row) then tx_err check_violation
  else insert_absent (Start_ExecutionID start) row.

Definition is_ex_reserved (r : execution_row) : bool :=
  match xr_state r with ExReserved => true | ExCompleted _ => false end.

(** What [Begin] makes of a row that it finds: [None] for one that is reserved. *)
Definition existing_execution (r : execution_row) (start : ExecutionStart) : res (option ex_handle) :=
  if xr_request_digest r != Ex_RequestDigest start then Err ErrExecutionConflict
  else
    match xr_state r with
    | ExCompleted result =>
        result ← map_err (fun e => ErrWrap e "decode completed execution")
          (decode_execution_result result);
        Ok (Some (mkExHandle "" "" "" (Some result)))
    | ExReserved => Ok None
    end.

Definition recover_execution (start : ExecutionStart) (owner : string) (clock : Z)
    : tx executions bool :=
  owner ← tx_lift (uuid_param owner);
  digest ← tx_lift (text_column (Ex_RequestDigest start));
  updated ← update_where (Start_ExecutionID start)
    (fun r => (xr_request_digest r == digest) && is_ex_reserved r && (xr_reserved_until r <=? clock))
    execution_row_check
    (set_xr_owner owner (clock + interval_us (Ex_ReservationTTL start)));
  mret (bool_decide (is_Some updated)).

(** [UPDATE ... WHERE execution_id=$1 AND request_digest=$2 AND owner_id=$3 AND state='reserved']. *)
Definition update_reserved_execution (h : ex_handle) (f : execution_row -> execution_row)
    : tx executions (option execution_row) :=
  owner ← tx_lift (uuid_param (xh_owner h));
  update_where (xh_id h)
    (fun r => (xr_request_digest r == xh_digest h) && (xr_owner r == owner) && is_ex_reserved r)
    execution_row_check f.

Definition AbandonExecution (w : reply) (h : ex_handle) (clock : Z) (s : executions)
    : res unit * executions :=
  match statement w (update_reserved_execution h (set_xr_until clock)) s with
  | (Err e, s') => (Err (ErrWrap e "abandon execution reservation"), s')
  | (Ok None, s') => (Err ErrExecutionConflict, s')
  | (Ok (Some _), s') => (Ok tt, s')
  end.

(** [UPDATE ... SET final_transition_at=COALESCE(final_transition_at,$4) ... RETURNING]. *)
Definition ExFinalTransitionTime (w : reply) (h : ex_handle) (value : time) (s : executions)
    : res time * executions :=
  match statement w (update_reserved_execution h (fun r =>
          set_xr_final (Some (default (time_column (UTC value)) (xr_final r))) r)) s with
  | (Err e, s') => (Err (ErrWrap e "record final transition time"), s')
  | (Ok None, s') => (Err ErrExecutionConflict, s')
  | (Ok (Some r), s') => (Ok (scan_time (default 0 (xr_final r))), s')
  end.

Definition complete_execution (h : ex_handle) (body : json) : tx executions (option execution_row) :=
  body ← tx_lift (jsonb_column body);
  update_reserved_execution h (set_xr_state (ExCompleted body)).

Definition CompleteExecution (w : reply) (h : ex_handle) (result : ExecutionResult) (s : executions)
    : res unit * executions :=
  match execution_result_json result with
  | Err e => (Err (ErrWrap e "encode execution result"), s)
  | Ok body =>
      match statement w (complete_execution h body) s with
      | (Err e, s') => (Err (ErrWrap e "complete execution ledger"), s')
      | (Ok None, s') => (Err ErrExecutionConflict, s')
      | (Ok (Some _), s') => (Ok tt, s')
      end
  end.

End statements.

(** * The execution service over its ledger and the workflow store

    Models [Service.runExecution] of [go/internal/execution/service.go] with
    [Begin] of [repository.go].  A call has passed the validation when it comes
    in.  A step is one statement of the ledger, one command of the workflow
    store, or the work between them: the worktree and its targets; the
    application of the changes, the candidate and the report.  A call that
    fails after [Begin] gave it a handle gives its reservation back before it
    returns.  The references and worktrees that it removes on the way out are
    git's and not part of the state. *)

(** ** A call *)

(** What the work on a worktree gave. *)
Record ex_built := mkExBuilt {
  eb_candidate : candidate_built;
  eb_report : ArtifactRef;
}.

Inductive ex_phase :=
| ExInserting
| ExReading (owner : string)
| ExRecovering (owner : string)
| ExBegun (h : ex_handle)
| ExAccepting (h : ex_handle) (worktree : string)
| ExBuilding (h : ex_handle) (worktree : string) (revision : Z)
| ExTiming (h : ex_handle) (revision : Z) (built : ex_built)
| ExRecording (h : ex_handle) (revision : Z) (built : ex_built) (timestamp : time)
| ExFinishing (h : ex_handle) (result : ExecutionResult)
| ExAbandoning (h : ex_handle) (e : error)
| ExReturned (r : res ExecutionResult).

Record ex_call := mkExCall {
  xc_request : ExecutionRequest;
  xc_mapped : ImplementationRequest;
  xc_proposal : ImplementationProposal;
  xc_digest : string;
  xc_phase : ex_phase;
}.

Definition ex_at (p : ex_phase) (c : ex_call) : ex_call :=
  mkExCall (xc_request c) (xc_mapped c) (xc_proposal c) (xc_digest c) p.

(** What a step meets: the stores and tools, and the clocks. *)
Record ex_surroundings := mkExSurroundings {
  Ex_Get : ArtifactRef -> res string;
  Ex_Put : string -> res ArtifactRef;
  createWorktree : string -> string -> res string;
  Ex_Lstat : string -> lstat;
  Ex_ReadFile : string -> res string;
  Apply : string -> list FileChange -> ExLimits -> res unit;
  Candidate_tools : candidate_tools;
}.

Record ex_circumstances := mkExCircumstances {
  xx_around : ex_surroundings;
  xx_reply : reply;
  xx_clock : Z;                       (** the clock of the database, in microseconds *)
  xx_now : time;                      (** the clock of the process *)
  xx_owner : string;                  (** the next [uuid.NewString] *)
  xx_cancelled : option error;        (** [ctx.Done] where the call waits *)
  xx_climate : nat -> weather;
  xx_ctx_done : nat -> option error;
}.

(** The surroundings that a step meets are among the [possible] ones. *)
Definition ex_fair_in `{Platform} (possible : ex_surroundings -> Prop) (x : ex_circumstances) : Prop :=
  fair_climate (xx_climate x) /\ possible (xx_around x).

Definition ex_fair `{Platform} : ex_circumstances -> Prop := ex_fair_in anything.

Section service.
Context `{Platform} `{Protobuf} `{Wire}.
Variable interval_us : Z -> Z.
Variable config : ExecutionConfig.

(** The entry of [Execute], up to the ledger. *)
Definition Execute_entry (get : ArtifactRef -> res string) (now : time) (request : ExecutionRequest)
    : res ex_call :=
  '(mappedRequest, mappedProposal) ← ex_validateRequest get config now request;
  requestDigest ← executionRequestDigest request;
  Ok (mkExCall request mappedRequest mappedProposal requestDigest ExInserting).

Definition ex_start (c : ex_call) : ExecutionStart :=
  mkExecutionStart (ExecutionID (xc_request c)) (xc_digest c) (ExecutionTimestamp (xc_request c))
    (Limits_Timeout (Ex_Limits config) + Minute).

(** ** Commands *)

Definition ex_id (executionID label : string) : string :=
  uuid_NewSHA1 "6ba7b811-9dad-11d1-80b4-00c04fd430c8"
    ("harness:execution:" +:+ executionID +:+ ":" +:+ label).

Definition ex_commandEnvelope (executionID purpose : string) (revision : Z) (timestamp : time)
    : CommandEnvelope :=
  mkEnvelope (ex_id executionID purpose) (mkActor (Ex_ActorID config) ActorExecutionService)
    revision timestamp (ex_id executionID "correlation") (ex_id executionID (purpose +:+ ":cause")).

Definition accept_command (c : ex_call) : TaskCommand :=
  let request := xc_request c in
  AcceptTaskProposal
    (ex_commandEnvelope (ExecutionID request) "accept" (Ex_ExpectedTaskRevision request)
       (UTC (ExecutionTimestamp request)))
    (Env_RunID (IR_Envelope (xc_mapped c))) (IR_ApprovedTaskID (xc_mapped c))
    (ProposalArtifact request) (Ex_Lease request).

Definition record_command (c : ex_call) (revision : Z) (built : ex_built) (timestamp : time)
    : TaskCommand :=
  let request := xc_request c in
  RecordTaskExecution (ex_commandEnvelope (ExecutionID request) "record" revision timestamp)
    (Env_RunID (IR_Envelope (xc_mapped c))) (IR_ApprovedTaskID (xc_mapped c))
    (ProposalArtifact request) (eb_report built) (Built_candidate (eb_candidate built))
    (Ex_Lease request).

(** ** The work of a call *)

(** The worktree, with targets that the changes may replace. *)
Definition prepare_worktree (around : ex_surroundings) (c : ex_call) : res string :=
  worktree ← createWorktree around (ExecutionID (xc_request c)) (IR_BaseCommit (xc_mapped c));
  validateTargets (Ex_Lstat around) worktree (Changes (xc_proposal c)) ;;
  validateTargetDigests (Ex_ReadFile around) worktree (Changes (xc_proposal c)) ;;
  Ok worktree.

Definition execution_report (c : ex_call) (candidate : candidate_built) : ExecutionReport :=
  let request := xc_request c in
  mkExecutionReport "1" (ExecutionID request) (rfc3339_nano (UTC (ExecutionTimestamp request)))
    (Env_RunID (IR_Envelope (xc_mapped c))) (IR_ApprovedTaskID (xc_mapped c))
    (Env_Attempt (IR_Envelope (xc_mapped c))) (ProposalArtifact request) (Ex_Lease request)
    (IR_BaseCommit (xc_mapped c)) (Built_candidate candidate) (Built_ref candidate)
    (Ex_Limits config) (Built_diff candidate).

Definition build_and_report (around : ex_surroundings) (c : ex_call) (worktree : string)
    : res ex_built :=
  map_err (fun e => ErrWrap e "apply implementation proposal")
    (Apply around worktree (Changes (xc_proposal c)) (Ex_Limits config)) ;;
  candidate ← buildCandidate (Candidate_tools around) config worktree (xc_request c) (xc_mapped c)
    (xc_proposal c);
  body ← ex_marshalReport (execution_report c candidate);
  reportArtifact ← map_err (fun e => ErrWrap e "store execution report") (Ex_Put around body);
  Ok (mkExBuilt candidate reportArtifact).

Definition execution_result (c : ex_call) (built : ex_built) (recorded : CommandResult)
    : ExecutionResult :=
  let candidate := eb_candidate built in
  mkExecutionResult (ExecutionID (xc_request c)) (IR_BaseCommit (xc_mapped c))
    (Built_candidate candidate) (Built_ref candidate) (eb_report built) (Ex_Lease (xc_request c))
    (Ex_Limits config) (Built_diff candidate) (Replay recorded).

Definition ex_replayed (r : ExecutionResult) : ExecutionResult :=
  mkExecutionResult (XResult_ExecutionID r) (XResult_BaseCommit r) (XResult_CandidateCommit r)
    (XResult_CandidateRef r) (XResult_ReportArtifact r) (XResult_Lease r) (XResult_Limits r)
    (XResult_ActualDiff r) true.

(** ** Steps *)

(** The three statements of [Begin], each with the phase it leads to. *)
Definition ex_insert (x : ex_circumstances) (c : ex_call) (s : executions) : ex_phase * executions :=
  if Ex_ReservationTTL (ex_start c) <=? 0
  then (ExReturned (Err (ErrText "positive reservation TTL is required")), s)
  else
    match statement (xx_reply x)
            (insert_execution interval_us (ex_start c) (xx_owner x) (xx_clock x)) s with
    | (Err e, s') => (ExReturned (Err (ErrWrap e "reserve execution")), s')
    | (Ok true, s') => (ExBegun (ex_ownedHandle (ex_start c) (xx_owner x)), s')
    | (Ok false, s') => (ExReading (xx_owner x), s')
    end.

Definition ex_read (x : ex_circumstances) (c : ex_call) (owner : string) (s : executions) : ex_phase :=
  match query (xx_reply x) (select_row (ExecutionID (xc_request c))) s with
  | Err e => ExReturned (Err (ErrWrap e "read execution reservation"))
  | Ok None => ExInserting
  | Ok (Some row) =>
      match existing_execution row (ex_start c) with
      | Err e => ExReturned (Err e)
      | Ok (Some h) => ExBegun h
      | Ok None => ExRecovering owner
      end
  end.

Definition ex_recover (x : ex_circumstances) (c : ex_call) (owner : string) (s : executions)
    : ex_phase * executions :=
  match statement (xx_reply x) (recover_execution interval_us (ex_start c) owner (xx_clock x)) s with
  | (Err e, s') => (ExReturned (Err (ErrWrap e "recover execution reservation")), s')
  | (Ok true, s') => (ExBegun (ex_ownedHandle (ex_start c) owner), s')
  | (Ok false, s') =>
      match xx_cancelled x with
      | Some e => (ExReturned (Err e), s')
      | None => (ExInserting, s')
      end
  end.

(** A replay, or the capacity and the worktree. *)
Definition ex_begun (x : ex_circumstances) (c : ex_call) (h : ex_handle) : ex_phase :=
  match ExHandle_Replay h with
  | Some replay => ExReturned (Ok (ex_replayed replay))
  | None =>
      match xx_cancelled x with
      | Some e => ExAbandoning h e
      | None =>
          match prepare_worktree (xx_around x) c with
          | Ok worktree => ExAccepting h worktree
          | Err e => ExAbandoning h e
          end
      end
  end.

Definition ex_step (x : ex_circumstances) (c : ex_call) (s : executions) (w : db)
    : ex_call * executions * db :=
  match xc_phase c with
  | ExInserting => let '(q, s') := ex_insert x c s in (ex_at q c, s', w)
  | ExReading owner => (ex_at (ex_read x c owner s) c, s, w)
  | ExRecovering owner => let '(q, s') := ex_recover x c owner s in (ex_at q c, s', w)
  | ExBegun h => (ex_at (ex_begun x c h) c, s, w)
  | ExAccepting h worktree =>
      match ExecuteTask (xx_climate x) (xx_ctx_done x) (accept_command c) w with
      | (Ok accepted, w') => (ex_at (ExBuilding h worktree (Result_Revision accepted)) c, s, w')
      | (Err e, w') => (ex_at (ExAbandoning h (ErrWrap e "accept task proposal")) c, s, w')
      end
  | ExBuilding h worktree revision =>
      match build_and_report (xx_around x) c worktree with
      | Ok built => (ex_at (ExTiming h revision built) c, s, w)
      | Err e => (ex_at (ExAbandoning h e) c, s, w)
      end
  | ExTiming h revision built =>
      match ExFinalTransitionTime (xx_reply x) h (UTC (xx_now x)) s with
      | (Ok recordedAt, s') => (ex_at (ExRecording h revision built recordedAt) c, s', w)
      | (Err e, s') =>
          (ex_at (ExAbandoning h (ErrWrap e "reserve final transition timestamp")) c, s', w)
      end
  | ExRecording h revision built timestamp =>
      match ExecuteTask (xx_climate x) (xx_ctx_done x)
              (record_command c revision built timestamp) w with
      | (Ok recorded, w') => (ex_at (ExFinishing h (execution_result c built recorded)) c, s, w')
      | (Err e, w') => (ex_at (ExAbandoning h (ErrWrap e "record task execution")) c, s, w')
      end
  | ExFinishing h result =>
      match CompleteExecution (xx_reply x) h result s with
      | (Ok _, s') => (ex_at (ExReturned (Ok result)) c, s', w)
      | (Err e, s') => (ex_at (ExAbandoning h (ErrWrap e "finalize execution ledger")) c, s', w)
      end
  | ExAbandoning h e =>
      let '(_, s') := AbandonExecution (xx_reply x) h (xx_clock x) s in
      (ex_at (ExReturned (Err e)) c, s', w)
  | ExReturned r => (c, s, w)
  end.

(** The calls that come in: those that passed the validation. *)
Definition ex_enters_in (possible : ex_surroundings -> Prop) (c : ex_call) : Prop :=
  exists around now request, possible around /\ Execute_entry (Ex_Get around) now request = Ok c.

Definition ex_enters : ex_call -> Prop := ex_enters_in anything.

(** A system that started with an empty ledger of executions, and whose calls met none but
    [possible] surroundings, at their entry and at their steps: what holds for every such
    predicate holds for the one that accepts exactly what this history met. *)
Definition executing_in (possible : ex_surroundings -> Prop) (sys : world executions ex_call) : Prop :=
  started ex_step (ex_enters_in possible) (ex_fair_in possible) ∅ sys.

Definition executing : world executions ex_call -> Prop := executing_in anything.

End service.
