(* ===== verification/ExInvariants.v ===== *)
(** * How the ledger of executions evolves and what it keeps true *)

From S2P Require Import Prelude GoStd GoJson GoText WfTypes WfTask WfDigest WfDb.
From S2P Require Import WfStore WfStoreLemmas WfReplay Interleave CtCommon CtImplementation ExRequest.
From S2P Require Import ExCandidate ExService PgRetry WfRun WfInvariants.
From S2P Require Import CtMessages.

(** * What the statements of the execution ledger do

    Results as they are read back, and the change that each statement makes to
    its row. *)

(** ** Results read back *)

Definition clean_diff (d : DiffEntry) : DiffEntry :=
  mkDiffEntry (Diff_Operation d) (sanitize (Diff_Path d)) (sanitize (Diff_Mode d))
    (sanitize (BeforeSHA256 d)) (sanitize (AfterSHA256 d)).

(** What an execution made: its base, its candidate, where that is kept, the report and the diff. *)
Definition ex_parts (r : ExecutionResult)
    : string * string * string * ArtifactRef * list DiffEntry :=
  (XResult_BaseCommit r, XResult_CandidateCommit r, XResult_CandidateRef r,
   XResult_ReportArtifact r, XResult_ActualDiff r).

Definition clean_parts (p : string * string * string * ArtifactRef * list DiffEntry)
    : string * string * string * ArtifactRef * list DiffEntry :=
  let '(base, candidate, ref, report, diff) := p in
  (sanitize base, sanitize candidate, sanitize ref, clean_artifact report, map clean_diff diff).

(** ... as the database keeps it. *)
Definition ex_outcome (r : ExecutionResult) : string * string * string * ArtifactRef * list DiffEntry :=
  clean_parts (ex_parts r).

(** The same, read from the column. *)
Definition json_parts (v : json) : res (string * string * string * ArtifactRef * list DiffEntry) :=
  match v with
  | JObj fields =>
      base ← decode_string (json_field "BaseCommit" fields);
      candidate ← decode_string (json_field "CandidateCommit" fields);
      ref ← decode_string (json_field "CandidateRef" fields);
      report ← decode_artifact_value (json_field "ReportArtifact" fields);
      diff ← decode_diffs (json_field "ActualDiff" fields);
      Ok (base, candidate, ref, report, diff)
  | _ => Err json_error
  end.

Lemma clean_diff_idem d : clean_diff (clean_diff d) = clean_diff d.
Proof.
  unfold clean_diff. cbn [Diff_Operation Diff_Path Diff_Mode BeforeSHA256 AfterSHA256].
  by rewrite !sanitize_idem.
Qed.

Lemma clean_parts_idem p : clean_parts (clean_parts p) = clean_parts p.
Proof.
  destruct p as [[[[b c] r] a] l]. unfold clean_parts, clean_artifact. cbn [URI Digest].
  rewrite !sanitize_idem, map_map. by rewrite (map_ext _ _ clean_diff_idem).
Qed.

Lemma decode_diff_clean d : decode_diff (json_trip (diff_json d)) = Ok (clean_diff d).
Proof.
  destruct d as [op p m b a]. unfold diff_json. cbn [Diff_Operation Diff_Path Diff_Mode BeforeSHA256 AfterSHA256].
  case_bool_decide as Hm; cbn [app json_trip map decode_diff]; find_fields; [subst m|]; by destruct op.
Qed.

Lemma decode_diffs_clean l :
  decode_diffs (Some (json_trip (JArr (map diff_json l)))) = Ok (map clean_diff l).
Proof.
  cbn [json_trip decode_diffs]. apply map_each_Ok. induction l as [|d l IH]; constructor; [|done].
  apply decode_diff_clean.
Qed.

Lemma json_parts_trip r body :
  execution_result_json r = Ok body -> json_parts (json_trip body) = Ok (ex_outcome r).
Proof.
  unfold execution_result_json. intros (lease & _ & [= <-])%res_bind_Ok.
  cbn [json_trip map json_parts]. find_fields.
  change (decode_artifact_value (Some (JObj _))) with
    (decode_artifact_value (Some (json_trip (artifact_json (XResult_ReportArtifact r))))).
  rewrite decode_artifact_clean.
  change (decode_diffs (Some (JArr _))) with
    (decode_diffs (Some (json_trip (JArr (map diff_json (XResult_ActualDiff r)))))).
  by rewrite decode_diffs_clean.
Qed.

Lemma decoded_parts v r :
  v <> JNull -> decode_execution_result v = Ok r -> json_parts v = Ok (ex_parts r).
Proof.
  destruct v as [| | | | |fields]; try done. intros _. cbn [decode_execution_result json_parts].
  intros (id & _ & (base & -> & (cand & -> & (ref & -> & (art & -> & Hr)%res_bind_Ok)%res_bind_Ok)%res_bind_Ok)%res_bind_Ok)%res_bind_Ok.
  apply res_bind_Ok in Hr as (lease & _ & (limits & _ & (diff & -> & (replay & _ & [= <-])%res_bind_Ok)%res_bind_Ok)%res_bind_Ok).
  done.
Qed.

(** ** The change to the row *)

Section ledger.
Context `{Platform}.
Variable interval_us : Z -> Z.

Lemma insert_execution_Ok start owner clock s b s' :
  insert_execution interval_us start owner clock s = Ok (b, s') ->
  exists k, uuid_column (Start_ExecutionID start) = Some k /\
    ((b = true /\ s !! k = None /\ exists r, s' = <[k := r]> s /\
        xr_request_digest r = Ex_RequestDigest start /\ xr_state r = ExReserved) \/
     (b = false /\ s' = s)).
Proof.
  unfold insert_execution. intros Hr.
  apply tx_bind_Ok in Hr as (digest & s1 & [->%text_column_Ok ->]%tx_lift_Ok & Hr).
  apply tx_bind_Ok in Hr as (o & s1 & [_ ->]%tx_lift_Ok & Hr).
  cbv zeta in Hr. destruct (negb _); [done|].
  apply insert_absent_Ok in Hr as (k & Hk & [(-> & Hn & ->)|[-> ->]]); exists k; (split; [done|]);
    [left|by right]. split_and!; [done..|]. by eexists.
Qed.

Lemma recover_execution_Ok start owner clock s b s' :
  recover_execution interval_us start owner clock s = Ok (b, s') ->
  (b = false /\ s' = s) \/
  exists k r until o, b = true /\ uuid_column (Start_ExecutionID start) = Some k /\ s !! k = Some r /\
    xr_request_digest r = Ex_RequestDigest start /\ xr_state r = ExReserved /\
    xr_reserved_until r <= clock /\ s' = <[k := set_xr_owner o until r]> s.
Proof.
  unfold recover_execution. intros Hr.
  apply tx_bind_Ok in Hr as (o & s1 & [_ ->]%tx_lift_Ok & Hr).
  apply tx_bind_Ok in Hr as (dg & s1 & [->%text_column_Ok ->]%tx_lift_Ok & Hr).
  apply tx_bind_Ok in Hr as (u & s1 & Hu & Hr). injection Hr as <- <-.
  apply update_where_Ok in Hu as [[-> ->]|(k & r & Hk & Hrow & Hm & _ & -> & ->)]; [by left|right].
  rewrite !andb_true_iff, bool_decide_eq_true, Z.leb_le in Hm. destruct Hm as [[Hd Hst] Hdue].
  unfold is_ex_reserved in Hst. destruct (xr_state r) eqn:E; [|done]. by eexists k, r, _, _.
Qed.

(** An update of the reserved row of a handle. *)
Lemma update_reserved_execution_Ok h f s o s' :
  update_reserved_execution h f s = Ok (o, s') ->
  (o = None /\ s' = s) \/
  exists k r, uuid_column (xh_id h) = Some k /\ s !! k = Some r /\
    xr_request_digest r = xh_digest h /\ xr_state r = ExReserved /\
    execution_row_check (f r) = true /\ o = Some (f r) /\ s' = <[k := f r]> s.
Proof.
  unfold update_reserved_execution. intros (owner & s1 & [_ ->]%tx_lift_Ok & Hr)%tx_bind_Ok.
  apply update_where_Ok in Hr as [?|(k & r & Hk & Hrow & Hm & Hc & -> & ->)]; [by left|right].
  rewrite !andb_true_iff, !bool_decide_eq_true in Hm. destruct Hm as [[Hd _] Hst].
  unfold is_ex_reserved in Hst. destruct (xr_state r) eqn:E; [|done]. by exists k, r.
Qed.

End ledger.

(** * The invariant of running executions

    The result of a completed row was built by a call whose request has the
    digest of the row; it never changes, nor does the time of the transition;
    and what a call returns is the outcome of its row. *)

Section invariant.
Context `{Platform} `{Protobuf} `{Wire}.
Variable interval_us : Z -> Z.
Variable config : ExecutionConfig.

(** The surroundings that the calls of the history may meet. *)
Variable possible : ex_surroundings -> Prop.

Local Abbreviation ex_step := (ex_step interval_us config).

(** ** Rows *)

(** The call passed the validation. *)
Definition ex_validated (c : ex_call) : Prop :=
  exists around now, possible around /\
    Execute_entry config (Ex_Get around) now (xc_request c) = Ok (ex_at ExInserting c).

Definition built_by (c : ex_call) (built : ex_built) : Prop :=
  exists around worktree, possible around /\ build_and_report config around c worktree = Ok built.

(** A result for this identifier and this digest. *)
Definition produced (k digest : string) (r : ExecutionResult) : Prop :=
  exists c built recorded, ex_validated c /\ uuid_column (ExecutionID (xc_request c)) = Some k /\
    xc_digest c = digest /\ built_by c built /\ r = execution_result config c built recorded.

Definition ex_row_ok (k : string) (r : execution_row) : Prop :=
  forall v, xr_state r = ExCompleted v -> exists result body,
    produced k (xr_request_digest r) result /\ execution_result_json result = Ok body /\
    v = json_trip body.

Definition ex_rows_ok : executions -> Prop := table_ok ex_row_ok.

(** What a step may do to a row. *)
Definition ex_row_evolves (r r' : execution_row) : Prop :=
  xr_request_digest r' = xr_request_digest r /\
  (forall v, xr_state r = ExCompleted v -> xr_state r' = ExCompleted v) /\
  (forall t, xr_final r = Some t -> xr_final r' = Some t).

#[global] Instance ex_row_evolves_preorder : PreOrder ex_row_evolves.
Proof.
  split; [by intros r|]. intros r1 r2 r3 (D1 & E1 & F1) (D2 & E2 & F2).
  split; [by rewrite D2|]. split; auto.
Qed.

Definition ex_evolves : executions -> executions -> Prop := table_evolves ex_row_evolves.

#[global] Instance ex_evolves_preorder : PreOrder ex_evolves.
Proof. apply (table_evolves_preorder ex_row_evolves). Qed.

(** ** Calls *)

Definition ex_row_of (s : executions) (c : ex_call) (r : execution_row) : Prop :=
  exists k, uuid_column (ExecutionID (xc_request c)) = Some k /\ s !! k = Some r /\
    xr_request_digest r = xc_digest c.

(** The row of the call is completed with this outcome. *)
Definition delivered (s : executions) (c : ex_call) (v : ExecutionResult) : Prop :=
  exists r j, ex_row_of s c r /\ xr_state r = ExCompleted j /\ json_parts j = Ok (ex_outcome v).

Definition ex_timed (s : executions) (c : ex_call) (t : time) : Prop :=
  exists r f, ex_row_of s c r /\ xr_final r = Some f /\ t = scan_time f.

Definition ex_own (c : ex_call) (h : ex_handle) : Prop :=
  xh_id h = ExecutionID (xc_request c) /\ xh_digest h = xc_digest c.

Definition ex_phase_ok (s : executions) (c : ex_call) (p : ex_phase) : Prop :=
  match p with
  | ExInserting | ExReading _ | ExRecovering _ => True
  | ExBegun h => match xh_replay h with Some v => delivered s c v | None => ex_own c h end
  | ExAccepting h _ | ExBuilding h _ _ | ExAbandoning h _ => ex_own c h
  | ExTiming h _ built => ex_own c h /\ built_by c built
  | ExRecording h _ built t => ex_own c h /\ built_by c built /\ ex_timed s c t
  | ExFinishing h v => ex_own c h /\
      exists built recorded, built_by c built /\ v = execution_result config c built recorded
  | ExReturned r => forall v, r = Ok v -> delivered s c v
  end.

Definition ex_call_ok (s : executions) (c : ex_call) : Prop :=
  ex_validated c /\ ex_phase_ok s c (xc_phase c).

Lemma ex_row_of_stays s s' c r :
  ex_evolves s s' -> ex_row_of s c r -> exists r', ex_row_of s' c r' /\ ex_row_evolves r r'.
Proof.
  intros He (k & Hk & Hr & Hd). destruct (He k r Hr) as (r' & Hr' & Hev). exists r'.
  split; [|done]. exists k. split_and!; [done..|]. by destruct Hev as (-> & _).
Qed.

Lemma delivered_stays s s' c v : ex_evolves s s' -> delivered s c v -> delivered s' c v.
Proof.
  intros He (r & j & Hr & Hst & Hj). destruct (ex_row_of_stays _ _ _ _ He Hr) as (r' & Hr' & _ & Hst' & _).
  exists r', j. split_and!; auto.
Qed.

Lemma ex_timed_stays s s' c t : ex_evolves s s' -> ex_timed s c t -> ex_timed s' c t.
Proof.
  intros He (r & f & Hr & Hf & ->). destruct (ex_row_of_stays _ _ _ _ He Hr) as (r' & Hr' & _ & _ & Hf').
  exists r', f. split_and!; auto.
Qed.

Lemma ex_phase_ok_stays s s' c p : ex_evolves s s' -> ex_phase_ok s c p -> ex_phase_ok s' c p.
Proof.
  intros He. destruct p; cbn [ex_phase_ok]; try done.
  - destruct (xh_replay h); [by apply delivered_stays|done].
  - intros (? & ? & Ht). split_and!; [done..|by eapply ex_timed_stays].
  - intros Hr v Hv. by eapply delivered_stays, Hr.
Qed.

Lemma ex_call_ok_stays s s' c : ex_evolves s s' -> ex_call_ok s c -> ex_call_ok s' c.
Proof. intros He [Hv Hp]. split; [done|by eapply ex_phase_ok_stays]. Qed.

(** ** Steps *)

Definition ex_step_keeps (s s' : executions) (c' : ex_call) : Prop :=
  ex_rows_ok s' /\ ex_call_ok s' c' /\ ex_evolves s s'.

(** The rows make a step of the table, and the phase is right afterwards. *)
Lemma ex_table_step s s' c p :
  table_step ex_row_ok ex_row_evolves s s' -> ex_validated c -> ex_phase_ok s' c p ->
  ex_step_keeps s s' (ex_at p c).
Proof. intros [Hs He] Hv Hp. split; [done|]. split; [|done]. split; [done|by destruct p]. Qed.

Lemma ex_quiet_step s c p :
  ex_rows_ok s -> ex_validated c -> ex_phase_ok s c p -> ex_step_keeps s s (ex_at p c).
Proof. intros Hs. apply ex_table_step. by apply (table_step_same ex_row_ok ex_row_evolves). Qed.

Lemma ex_reserved_row_ok k r : xr_state r = ExReserved -> ex_row_ok k r.
Proof. intros Hr v Hv. congruence. Qed.

(** An update of a reserved row through a handle of the call. *)
Lemma ex_update_table_step c s h f w (o : res (option execution_row)) s' :
  ex_rows_ok s -> ex_own c h ->
  statement w (update_reserved_execution h f) s = (o, s') ->
  (forall k r, uuid_column (ExecutionID (xc_request c)) = Some k -> xr_request_digest r = xc_digest c ->
     xr_state r = ExReserved -> ex_row_evolves r (f r) /\ ex_row_ok k (f r)) ->
  table_step ex_row_ok ex_row_evolves s s' /\
  (forall r', o = Ok (Some r') -> exists r, r' = f r /\ xr_state r = ExReserved /\
     exists k, uuid_column (ExecutionID (xc_request c)) = Some k /\ s' !! k = Some r' /\
       xr_request_digest r = xc_digest c).
Proof.
  intros Hs [Hid Hdig] Hst Hf.
  apply statement_cases in Hst as [[-> Hno]|(a & Ha & Hoa)];
    [split; [by apply (table_step_same ex_row_ok ex_row_evolves)|intros r' ->; by destruct (Hno _ eq_refl)]|].
  apply update_reserved_execution_Ok in Ha as [[-> ->]|(k & r & Hk & Hr & Hd & Hres & Hc & -> & ->)];
    [split; [by apply (table_step_same ex_row_ok ex_row_evolves)|intros r' ->; by specialize (Hoa _ eq_refl)]|].
  rewrite Hid in Hk. rewrite Hdig in Hd. destruct (Hf k r) as [He Hok]; [done..|].
  split; [by apply (table_step_change _ _ s k r)|]. intros r' ->.
  specialize (Hoa _ eq_refl). injection Hoa as ->. exists r. split_and!; [done..|].
  exists k. by rewrite lookup_insert_eq.
Qed.

Lemma ex_insert_ok x c s :
  ex_rows_ok s -> ex_validated c ->
  let '(p, s') := ex_insert interval_us config x c s in ex_step_keeps s s' (ex_at p c).
Proof.
  intros Hs Hv. unfold ex_insert. destruct (_ <=? 0); [by apply ex_quiet_step|].
  destruct (statement _ _ _) as [o s1] eqn:E.
  assert (Ht : table_step ex_row_ok ex_row_evolves s s1).
  { apply statement_cases in E as [[-> _]|(a & Ha & _)]; [by apply (table_step_same ex_row_ok ex_row_evolves)|].
    apply insert_execution_Ok in Ha as (k & _ & [(_ & Hn & r & -> & _ & Hr)|[_ ->]]);
      [|by apply (table_step_same ex_row_ok ex_row_evolves)]. apply (table_step_new ex_row_ok ex_row_evolves); [done..|by apply ex_reserved_row_ok]. }
  destruct o as [[]|e]; by apply ex_table_step.
Qed.

Lemma existing_execution_ok s c k r h :
  ex_rows_ok s -> uuid_column (ExecutionID (xc_request c)) = Some k -> s !! k = Some r ->
  existing_execution r (ex_start config c) = Ok (Some h) -> ex_phase_ok s c (ExBegun h).
Proof.
  intros Hs Hk Hr. unfold existing_execution.
  destruct (negb _) eqn:Hd; [done|]. apply negb_false_iff, bool_decide_eq_true in Hd.
  destruct (xr_state r) as [|j] eqn:Hst; [done|].
  intros (v & Hv & [= <-])%res_bind_Ok. cbn [ex_phase_ok xh_replay].
  destruct (decode_execution_result j) as [v0|] eqn:Hdec; [|done]. injection Hv as ->.
  exists r, j. split; [by exists k|]. split; [done|].
  destruct (Hs k r Hr j Hst) as (result & body & _ & Hb & ->). apply json_parts_trip in Hb.
  assert (Hp : json_parts (json_trip body) = Ok (ex_parts v)).
  { apply decoded_parts; [|done]. intros Heq. by rewrite Heq in Hb. }
  assert (Heq : ex_parts v = ex_outcome result) by congruence.
  rewrite Hp. f_equal. unfold ex_outcome at 1. rewrite Heq.
  unfold ex_outcome. by rewrite clean_parts_idem.
Qed.

Lemma ex_read_ok x c owner s :
  ex_rows_ok s -> ex_validated c -> ex_step_keeps s s (ex_at (ex_read config x c owner s) c).
Proof.
  intros Hs Hv. apply ex_quiet_step; [done..|]. unfold ex_read.
  destruct (query _ _ _) as [[r|]|e] eqn:E; [|done..].
  apply query_Ok in E. apply res_bind_Ok in E as (k & Hk%uuid_param_Ok & [= Hr]).
  destruct (existing_execution _ _) as [[h|]|e] eqn:Eh; [|done..].
  by eapply existing_execution_ok.
Qed.

Lemma ex_recover_ok x c owner s :
  ex_rows_ok s -> ex_validated c ->
  let '(p, s') := ex_recover interval_us config x c owner s in ex_step_keeps s s' (ex_at p c).
Proof.
  intros Hs Hv. unfold ex_recover. destruct (statement _ _ _) as [o s1] eqn:E.
  assert (Ht : table_step ex_row_ok ex_row_evolves s s1).
  { apply statement_cases in E as [[-> _]|(a & Ha & _)]; [by apply (table_step_same ex_row_ok ex_row_evolves)|].
    apply recover_execution_Ok in Ha as [[_ ->]|(k & r & u & ow & _ & _ & Hr & _ & Hst & _ & ->)];
      [by apply (table_step_same ex_row_ok ex_row_evolves)|]. apply (table_step_change _ _ s k r); [done..| |].
    - split; [done|]. split; [congruence|done].
    - by apply ex_reserved_row_ok. }
  destruct o as [[]|e]; [by apply ex_table_step| |by apply ex_table_step].
  destruct (xx_cancelled x); by apply ex_table_step.
Qed.

Lemma ex_timing_ok c s h w value o s' :
  ex_rows_ok s -> ex_own c h -> ExFinalTransitionTime w h value s = (o, s') ->
  table_step ex_row_ok ex_row_evolves s s' /\ (forall t, o = Ok t -> ex_timed s' c t).
Proof.
  intros Hs Hh. unfold ExFinalTransitionTime. destruct (statement _ _ _) as [r s1] eqn:E. intros Hr.
  assert (s' = s1) as -> by (destruct r as [[]|]; by simplify_eq).
  eapply (ex_update_table_step c) in E as [Ht Hrow]; [|done..|].
  - split; [done|]. intros t ->. destruct r as [[r0|]|]; [|done..]. injection Hr as <-.
    destruct (Hrow r0 eq_refl) as (r1 & -> & _ & k & Hk & Hs' & Hd).
    eexists _, _. split; [by exists k|]. by split.
  - intros k r0 _ _ Hst. split; [|by apply ex_reserved_row_ok]. split; [done|]. split; [done|].
    intros t Ht. cbn. by rewrite Ht.
Qed.

Lemma ex_finishing_ok c s h w v o s' :
  ex_rows_ok s -> ex_validated c -> ex_own c h ->
  (exists built recorded, built_by c built /\ v = execution_result config c built recorded) ->
  CompleteExecution w h v s = (o, s') ->
  table_step ex_row_ok ex_row_evolves s s' /\ (o = Ok tt -> delivered s' c v).
Proof.
  intros Hs Hv Hh (built & recorded & Hb & Hvr). unfold CompleteExecution.
  destruct (execution_result_json v) as [body|e] eqn:Hj;
    [|intros [= <- <-]; split; [by apply (table_step_same ex_row_ok ex_row_evolves)|done]].
  destruct (statement _ _ _) as [r s1] eqn:E. intros Hr.
  assert (s' = s1) as -> by (destruct r as [[]|]; by simplify_eq).
  assert (E' : (s1 = s /\ forall a, r <> Ok a) \/
    exists w', statement w' (update_reserved_execution h (set_xr_state (ExCompleted (json_trip body)))) s =
      (r, s1)).
  { unfold complete_execution in E. apply statement_cases in E as [?|(a & Ha & Hoa)]; [by left|right].
    apply tx_bind_Ok in Ha as (b & s2 & [->%jsonb_column_Ok ->]%tx_lift_Ok & Ha).
    destruct r as [x|e]; [specialize (Hoa x eq_refl) as <-; exists Answered|exists (AnswerLost e)];
      unfold statement, run_tx; by rewrite Ha. }
  destruct E' as [[-> Hno]|[w' E']].
  { split; [by apply (table_step_same ex_row_ok ex_row_evolves)|]. intros ->. by destruct r as [[]|]; try destruct (Hno _ eq_refl). }
  eapply (ex_update_table_step c) in E' as [Ht Hrow]; [|done..|].
  - split; [done|]. intros ->. destruct r as [[r0|]|]; [|done..].
    destruct (Hrow r0 eq_refl) as (r1 & -> & _ & k & Hk & Hs' & Hd).
    eexists _, _. split; [by exists k|]. split; [done|by apply json_parts_trip].
  - intros k r0 Hk Hd Hst. split; [split; [done|]; split; [congruence|done]|].
    intros j [= <-]. exists v, body. split; [|done]. exists c, built, recorded. by split_and!.
Qed.

Lemma ex_abandoning_ok c s h w clock o s' :
  ex_rows_ok s -> ex_own c h -> AbandonExecution w h clock s = (o, s') ->
  table_step ex_row_ok ex_row_evolves s s'.
Proof.
  intros Hs Hh. unfold AbandonExecution. destruct (statement _ _ _) as [r s1] eqn:E. intros Hr.
  assert (s' = s1) as -> by (destruct r as [[]|]; by simplify_eq).
  eapply (ex_update_table_step c) in E as [Ht _]; [done..|].
  intros k r0 _ _ Hst. split; [|by apply ex_reserved_row_ok]. split; [done|]. by split.
Qed.

Lemma ex_step_ok x c s w c' s' w' :
  possible (xx_around x) -> ex_rows_ok s -> ex_call_ok s c -> ex_step x c s w = (c', s', w') ->
  ex_step_keeps s s' c'.
Proof.
  intros Hx Hs [Hv Hp]. unfold ExService.ex_step.
  destruct (xc_phase c) as [|owner|owner|h|h wt|h wt rev|h rev b|h rev b t|h v|h e|r] eqn:Hph;
    cbn [ex_phase_ok] in Hp.
  - pose proof (ex_insert_ok x c s Hs Hv) as Hok. destruct (ex_insert _ _ _ _ _). by intros [= <- <- <-].
  - intros [= <- <- <-]. by apply ex_read_ok.
  - pose proof (ex_recover_ok x c owner s Hs Hv) as Hok. destruct (ex_recover _ _ _ _ _ _).
    by intros [= <- <- <-].
  - intros [= <- <- <-]. apply ex_quiet_step; [done..|]. unfold ex_begun, ExHandle_Replay.
    destruct (xh_replay h) as [v|]; [by intros v' [= <-]|]. destruct (xx_cancelled x); [done|].
    by destruct (prepare_worktree _ _).
  - destruct (ExecuteTask _ _ _ _) as [[r|e] w1]; intros [= <- <- <-]; by apply ex_quiet_step.
  - destruct (build_and_report _ _ _ _) as [b|e] eqn:Hb; intros [= <- <- <-];
      (apply ex_quiet_step; [done..|]); [|done]. split; [done|]. by eexists _, _.
  - destruct Hp as [Hh Hb]. destruct (ExFinalTransitionTime _ _ _ _) as [o s1] eqn:E.
    apply (ex_timing_ok c) in E as [Ht Hok]; [|done..].
    destruct o as [t|e]; intros [= <- <- <-]; (apply ex_table_step; [done..|]); [|done].
    split_and!; auto.
  - destruct Hp as (Hh & Hb & _). destruct (ExecuteTask _ _ _ _) as [[r|e] w1]; intros [= <- <- <-];
      (apply ex_quiet_step; [done..|]); [|done]. split; [done|]. by exists b, r.
  - destruct Hp as [Hh Hb]. destruct (CompleteExecution _ _ _ _) as [o s1] eqn:E.
    apply (ex_finishing_ok c) in E as [Ht Hok]; [|done..].
    destruct o as [[]|e]; intros [= <- <- <-]; (apply ex_table_step; [done..|]); [|done].
    intros v' [= <-]. by apply Hok.
  - destruct (AbandonExecution _ _ _ _) as [o s1] eqn:E. apply (ex_abandoning_ok c) in E; [|done..].
    intros [= <- <- <-]. by apply ex_table_step.
  - intros [= <- <- <-]. split; [done|]. split; [|done]. split; [done|by rewrite Hph].
Qed.

End invariant.
