(* ===== verification/ExProps.v ===== *)
(** * What an execution guarantees *)

From S2P Require Import Prelude GoStd GoJson GoText WfTypes WfTask CtCommon CtImplementation.
From S2P Require Import ExRequest ExCandidate PgRetry WfRun WfDb WfStore WfStoreLemmas WfReplay.
From S2P Require Import WfInvariants Interleave CtMessages ExService ExInvariants WfPlan Samples.
From S2P Require Import WfGuarantees WfRefine CtSamples.

(** * What the execution service guarantees *)

(** * What passes the checks of an execution *)

(** * Which changes pass the checks before execution, and what a verified candidate contains *)

(** ** Paths and contents *)

(** A path that stays where it is when it is cleaned, below the root of the repository and outside
    of git's own files. *)
Record safe_path (path : string) : Prop := {
  sp_relative : path <> "" /\ path_IsAbs path = false /\ Contains path (String backslash "") = false;
  sp_text : has_control path = false;
  sp_clean : path_Clean path = path;
  sp_inside : path <> "." /\ path <> ".." /\ HasPrefix path "../" = false;
  sp_git : ".git" ∉ split_at "/" path;
}.

Lemma normalizePath_safe path : normalizePath path = Ok path <-> safe_path path.
Proof.
  unfold normalizePath. split.
  - destruct (_ || _) eqn:E1; [done|]. rewrite !orb_false_iff in E1. destruct E1 as [[E1 ?] ?].
    apply bool_decide_eq_false in E1. destruct (has_control path) eqn:E2; [done|]. cbv zeta.
    destruct (_ || _) eqn:E3; [done|]. rewrite !orb_false_iff, !bool_decide_eq_false in E3.
    destruct (existsb _ _) eqn:E4; [done|]. intros [= Hc]. rewrite Hc in E3, E4.
    split; [done..| |].
    + by destruct E3 as [[? ?] ?].
    + intros Hin. apply list_elem_of_In in Hin. rewrite <- not_true_iff_false, existsb_exists in E4.
      apply E4. exists ".git". by rewrite bool_decide_true.
  - intros [(Hne & Habs & Hb) Ht Hc (Hd & Hdd & Hp) Hg]. rewrite bool_decide_false, Habs, Hb, Ht by done.
    cbn [orb]. cbv zeta. rewrite Hc, !bool_decide_false, Hp by done. cbn [orb].
    destruct (existsb _ _) eqn:E; [|done]. apply existsb_exists in E as (x & Hin & Hx).
    apply bool_decide_eq_true in Hx as ->. by apply list_elem_of_In in Hin.
Qed.

Definition content_size (change : FileChange) : Z :=
  match ReplacementContent change with Some content => str_len content | None => 0 end.

Definition total_size (changes : list FileChange) : Z :=
  foldr (fun change total => content_size change + total) 0 changes.

Definition content_ok (limits : ExLimits) (change : FileChange) : Prop :=
  forall content, ReplacementContent change = Some content ->
    str_len content <= MaxFileBytes limits /\ has_nul content = false.

Lemma content_size_nonneg change : 0 <= content_size change.
Proof. unfold content_size, str_len. destruct (ReplacementContent change); lia. Qed.

Lemma total_size_nonneg changes : 0 <= total_size changes.
Proof.
  induction changes as [|c l IH]; [done|]. cbn. pose proof (content_size_nonneg c). unfold total_size in IH. lia.
Qed.

(** One change, against the paths before it. *)
Definition change_ok (limits : ExLimits) (seen : gset string) (change : FileChange) : Prop :=
  (Change_Path change ∉ seen) /\ safe_path (Change_Path change) /\ content_ok limits change.

Lemma changes_ok_cons limits seen path l :
  Forall (change_ok limits ({[path]} ∪ seen)) l <->
  (path ∉ map Change_Path l) /\ Forall (change_ok limits seen) l.
Proof.
  unfold change_ok. rewrite !Forall_forall, list_elem_of_fmap. split.
  - intros Hall. split.
    + intros (c & -> & Hin). destruct (Hall c Hin) as [Hno _]. set_solver.
    + intros c Hin. destruct (Hall c Hin) as [Hno ?]. split; [set_solver|done].
  - intros [Hno Hall] c Hin. destruct (Hall c Hin) as [Hs ?]. split; [|done].
    intros [Heq%elem_of_singleton|?]%elem_of_union; [|done]. apply Hno. by exists c.
Qed.

Lemma preflight_loop_exact limits changes seen total :
  total <= MaxTotalBytes limits ->
  preflight_loop limits changes seen total = Ok tt <->
  NoDup (map Change_Path changes) /\ Forall (change_ok limits seen) changes /\
  total + total_size changes <= MaxTotalBytes limits.
Proof.
  revert seen total. induction changes as [|c l IH]; intros seen total Htot; cbn [preflight_loop].
  { split; [|done]. intros _. split_and!; [constructor|constructor|cbn; lia]. }
  pose proof (total_size_nonneg l) as Hpos. cbn [map]. rewrite NoDup_cons, Forall_cons.
  change (total_size (c :: l)) with (content_size c + total_size l).
  case_bool_decide as Hn.
  { split; [done|]. intros (_ & [(_ & Hs & _) _] & _). by apply normalizePath_safe in Hs. }
  case_bool_decide as Hin; [split; [done|]; by intros (_ & [(? & _) _] & _)|].
  assert (Hsafe : safe_path (Change_Path c)) by (apply normalizePath_safe; by destruct (decide (normalizePath (Change_Path c) = Ok (Change_Path c)))).
  unfold content_size, change_ok at 1, content_ok. destruct (ReplacementContent c) as [content|] eqn:Hc.
  - destruct (Z.ltb_spec (MaxFileBytes limits) (str_len content)).
    { split; [done|]. intros (_ & [(_ & _ & Hok) _] & _). destruct (Hok content); [done|lia]. }
    destruct (has_nul content) eqn:Hnul.
    { split; [done|]. intros (_ & [(_ & _ & Hok) _] & _). destruct (Hok content); congruence. }
    destruct (Z.ltb_spec (MaxTotalBytes limits) (total + str_len content)); [split; [done|lia]|].
    rewrite IH, changes_ok_cons by lia. split.
    + intros (Hnd & [Hno Hall] & Hsum). split_and!; try done; [|lia]. by intros ? [= <-].
    + intros ([Hno Hnd] & [_ Hall] & Hsum). split_and!; try done. lia.
  - rewrite IH, changes_ok_cons by lia. split.
    + intros (Hnd & [Hno Hall] & Hsum). split_and!; try done; lia.
    + intros ([Hno Hnd] & [_ Hall] & Hsum). by split_and!.
Qed.

Lemma preflight_distinct limits changes :
  0 <= MaxTotalBytes limits -> preflightChanges changes limits = Ok tt -> NoDup (map Change_Path changes).
Proof.
  unfold preflightChanges. destruct (_ <? _); [done|]. intros ?. by rewrite preflight_loop_exact by done; intros [? _].
Qed.

(** C37: The changes of a proposal pass the preflight exactly when there are not too many of them,
    their paths are distinct, clean, relative and free of control characters, inside the repository
    and outside of [.git], and their contents are text within the limit for one file and, together,
    within the limit for all; the sum of the sizes does not overflow. *)
Theorem preflight_exact limits changes :
  0 <= MaxTotalBytes limits ->
  preflightChanges changes limits = Ok tt <->
  Z.of_nat (length changes) <= MaxChangedFiles limits /\ NoDup (map Change_Path changes) /\
  (forall c, c ∈ changes -> safe_path (Change_Path c) /\ content_ok limits c) /\
  total_size changes <= MaxTotalBytes limits.
Proof.
  intros Hm. unfold preflightChanges. destruct (Z.ltb_spec (MaxChangedFiles limits) (Z.of_nat (length changes))).
  { split; [done|lia]. }
  rewrite preflight_loop_exact, Forall_forall by done. unfold change_ok. split.
  - intros (? & Hall & ?). split_and!; try done. intros c Hc. by apply Hall.
  - intros (_ & ? & Hall & ?). split_and!; try done. intros c Hc. split; [set_solver|by apply Hall].
Qed.

(** * What a verified candidate contains

    A candidate that passes [verifyCandidateDiff] differs from its base in
    exactly the paths of the proposal, each in the way that was proposed. *)

Section candidate.
Context `{Platform}.
Variable tools : candidate_tools.

(** The change is in the candidate: what was replaced or deleted is what the proposal expected, and
    what is there now has the digest of the proposed content and the mode it should have. *)
Definition committed (base candidate : string) (change : FileChange) : Prop :=
  (Operation change <> FileCreate -> exists before,
     readTreeEntry tools base (Change_Path change) = Ok before /\
     sha256_hex (Entry_body before) = ExpectedOriginalSHA256 change /\
     (Operation change = FileUpdate -> exists after,
        readTreeEntry tools candidate (Change_Path change) = Ok after /\ mode after = mode before)) /\
  (Operation change <> FileDelete -> exists after content,
     readTreeEntry tools candidate (Change_Path change) = Ok after /\
     ReplacementContent change = Some content /\
     sha256_hex (Entry_body after) = sha256_hex content /\
     (Operation change = FileCreate -> mode after = "100644")).

Lemma verifyCandidateChange_Ok base candidate actual change d :
  verifyCandidateChange tools base candidate actual change = Ok d ->
  actual !! Change_Path change = Some (wantStatus (Operation change)) /\
  committed base candidate change /\
  Diff_Path d = Change_Path change /\ Diff_Operation d = Operation change.
Proof.
  unfold verifyCandidateChange. case_bool_decide as Hst; [done|].
  intros (before & Hb & (after & Ha & [= <-])%res_bind_Ok)%res_bind_Ok.
  assert (Hstatus : actual !! Change_Path change = Some (wantStatus (Operation change)))
    by (by destruct (decide (actual !! Change_Path change = Some (wantStatus (Operation change))))).
  split; [done|]. split; [|done].
  unfold verifiedBeforeEntry in Hb. unfold verifiedAfterEntry in Ha.
  assert (Hbefore : Operation change <> FileCreate ->
    readTreeEntry tools base (Change_Path change) = Ok before /\
    sha256_hex (Entry_body before) = ExpectedOriginalSHA256 change).
  { intros Hne. rewrite bool_decide_false in Hb by done. destruct (readTreeEntry _ base _) as [b|]; [|done].
    destruct (negb _) eqn:E; [done|]. injection Hb as ->.
    by apply negb_false_iff, bool_decide_eq_true in E. }
  assert (Hafter : Operation change <> FileDelete ->
    readTreeEntry tools candidate (Change_Path change) = Ok after /\
    Some (sha256_hex (Entry_body after)) = option_map sha256_hex (ReplacementContent change) /\
    mode after = match Operation change with FileCreate => "100644" | _ => mode before end).
  { intros Hne. rewrite bool_decide_false in Ha by done.
    destruct (readTreeEntry _ candidate _) as [a|]; [|done]. case_bool_decide as Hd; [done|].
    destruct (negb _) eqn:E; [done|]. injection Ha as ->. apply negb_false_iff, bool_decide_eq_true in E.
    split_and!; [done| |done]. by destruct (decide (Some (sha256_hex (Entry_body after)) =
      option_map sha256_hex (ReplacementContent change))). }
  split.
  - intros Hne. destruct (Hbefore Hne). exists before. split_and!; [done..|]. intros Hu.
    destruct Hafter as (? & _ & Hm); [by rewrite Hu|]. rewrite Hu in Hm. by exists after.
  - intros Hne. destruct (Hafter Hne) as (? & Hd & Hm).
    destruct (ReplacementContent change) as [content|]; [|done]. injection Hd as Hd.
    exists after, content. split_and!; [done..|]. intros Hc. by rewrite Hc in Hm.
Qed.

(** The paths of the diff, with their status, are those of the changes. *)
Definition diff_is (actual : gmap string string) (changes : list FileChange) : Prop :=
  forall path status, actual !! path = Some status <->
    exists change, change ∈ changes /\ Change_Path change = path /\ wantStatus (Operation change) = status.

Lemma exact_map (actual : gmap string string) changes :
  NoDup (map Change_Path changes) -> size actual = length changes ->
  (forall c, c ∈ changes -> actual !! Change_Path c = Some (wantStatus (Operation c))) ->
  diff_is actual changes.
Proof.
  intros Hnd Hsize Hall path status. split.
  - intros Hl.
    assert (Hdom : dom actual = list_to_set (map Change_Path changes)).
    { symmetry. apply set_subseteq_size_eq.
      - intros p Hp. apply elem_of_list_to_set, list_elem_of_fmap in Hp as (c & -> & Hc).
        apply elem_of_dom. rewrite (Hall c Hc). by eexists.
      - rewrite size_dom, size_list_to_set, length_map by done. lia. }
    assert (Hp : path ∈ dom actual) by (apply elem_of_dom; by eexists).
    rewrite Hdom, elem_of_list_to_set, list_elem_of_fmap in Hp. destruct Hp as (c & -> & Hc).
    exists c. split_and!; [done..|]. rewrite (Hall c Hc) in Hl. congruence.
  - intros (c & Hc & <- & <-). by apply Hall.
Qed.

(** The commit differs from the base in the proposed changes and in nothing else. *)
Definition exact_commit (base candidate : string) (changes : list FileChange) : Prop :=
  (exists actual, candidatePathStatuses tools base candidate = Ok actual /\ diff_is actual changes) /\
  forall change, change ∈ changes -> committed base candidate change.

Lemma verifyCandidateDiff_Ok base candidate changes diff :
  NoDup (map Change_Path changes) ->
  verifyCandidateDiff tools base candidate changes = Ok diff ->
  exact_commit base candidate changes /\ map Diff_Path diff ≡ₚ map Change_Path changes.
Proof.
  intros Hnd. unfold verifyCandidateDiff.
  intros (actual & Hact & Hr)%res_bind_Ok. destruct (negb _) eqn:Hsize; [done|].
  apply negb_false_iff, Nat.eqb_eq in Hsize. apply res_bind_Ok in Hr as (l & Hl & [= <-]).
  apply map_each_Ok in Hl.
  assert (Hall : forall c, c ∈ changes -> actual !! Change_Path c = Some (wantStatus (Operation c)) /\
    committed base candidate c).
  { intros c Hc. destruct (Forall2_in_l _ _ _ _ Hl Hc) as (d & _ & Hd).
    apply verifyCandidateChange_Ok in Hd as (? & ? & _). done. }
  split; [split|].
  - exists actual. split; [done|]. apply exact_map; [done..|]. intros c Hc. by apply Hall.
  - intros c Hc. by apply Hall.
  - rewrite merge_sort_Permutation. enough (Heq : map Diff_Path l = map Change_Path changes) by (by rewrite Heq).
    clear -Hl. induction Hl as [|c d cs ds Hd _ IH]; [done|]. cbn. f_equal; [|done].
    by apply verifyCandidateChange_Ok in Hd as (_ & _ & -> & _).
Qed.

Lemma buildCandidate_Ok config worktree request mapped proposal built :
  NoDup (map Change_Path (Changes proposal)) ->
  buildCandidate tools config worktree request mapped proposal = Ok built ->
  exact_commit (IR_BaseCommit mapped) (Built_candidate built) (Changes proposal) /\
  map Diff_Path (Built_diff built) ≡ₚ map Change_Path (Changes proposal) /\
  candidateRef mapped (FencingToken (Ex_Lease request)) = Ok (Built_ref built).
Proof.
  intros Hnd. unfold buildCandidate. destruct (build_steps _ _ _ _ _ _ _) as [[b h]|] eqn:E; [|done].
  intros [= ->]. unfold build_steps in E.
  apply tx_bind_Ok in E as (? & s1 & _ & E). apply tx_bind_Ok in E as (? & s2 & _ & E).
  apply tx_bind_Ok in E as (candidate & s3 & _ & E).
  apply tx_bind_Ok in E as (actual & s4 & [Hact ->]%tx_lift_Ok & E).
  apply tx_bind_Ok in E as (ref & s5 & [Href ->]%tx_lift_Ok & E).
  apply tx_bind_Ok in E as (created & s6 & _ & E). injection E as <- <-.
  apply verifyCandidateDiff_Ok in Hact as [? ?]; [|done]. by split_and!.
Qed.

End candidate.

(** * What the execution service guarantees

    One outcome per execution, whatever runs it and however often; the workflow
    hears of a candidate only when that candidate contains exactly the changes
    of the accepted proposal; and an execution that failed hands its
    reservation to the next call at once. *)

Section guarantees.
Context `{Platform} `{Protobuf} `{Wire}.
Variable interval_us : Z -> Z.
Variable config : ExecutionConfig.

Local Abbreviation ex_step := (ex_step interval_us config).
Local Abbreviation executing := (executing interval_us config).
Local Abbreviation executing_in := (executing_in interval_us config).
Local Abbreviation ex_call_ok := (ex_call_ok config).
Local Abbreviation ex_world_steps := (rtc (world_step ex_step (ex_enters config) ex_fair)).
Local Abbreviation ex_world_steps_in possible :=
  (rtc (world_step ex_step (ex_enters_in config possible) (ex_fair_in possible))).

(** ** The invariant in running systems *)

Lemma ex_enters_ok possible s c : ex_enters_in config possible c -> ex_call_ok possible s c.
Proof.
  intros (around & now & request & Ha & He). pose proof He as Hc. unfold Execute_entry in Hc.
  apply res_bind_Ok in Hc as ([mapped proposal] & _ & Hc).
  apply res_bind_Ok in Hc as (digest & _ & [= <-]). split; [|done]. by exists around, now.
Qed.

Lemma executing_ok possible sys :
  executing_in possible sys -> world_ok (ex_rows_ok config possible) (ex_call_ok possible) sys.
Proof.
  apply (invariant_holds ex_step (ex_enters_in config possible) (ex_fair_in possible) _ _ ex_evolves);
    [apply ex_enters_ok|apply ex_call_ok_stays| |apply table_ok_empty].
  intros x c s w c' s' w' [_ Hx]. by apply ex_step_ok.
Qed.

Lemma executing_evolves possible sys sys' :
  executing_in possible sys -> ex_world_steps_in possible sys sys' ->
  ex_evolves (shared sys) (shared sys').
Proof.
  intros Hs Hr. eapply (world_steps_ok ex_step (ex_enters_in config possible) (ex_fair_in possible)
    (ex_rows_ok config possible) (ex_call_ok possible) ex_evolves);
    [apply ex_enters_ok|apply ex_call_ok_stays| |done|by apply executing_ok].
  intros x c s w c' s' w' [_ Hx]. by apply ex_step_ok.
Qed.

Lemma ex_call_phase_ok possible sys i c :
  executing_in possible sys -> calls sys !! i = Some c ->
  ex_phase_ok config possible (shared sys) c (xc_phase c).
Proof. intros Hs Hi. apply (proj2 (executing_ok _ _ Hs) i c Hi). Qed.

(** ** One outcome *)

Definition same_execution (c c' : ex_call) : Prop :=
  exists k, uuid_column (ExecutionID (xc_request c)) = Some k /\
    uuid_column (ExecutionID (xc_request c')) = Some k.

(** C10: Two calls that return a result for one execution, at any time and in any processes, with
    crashes, lost answers and reservations that changed hands in between, were asked for the same
    thing and return the same base, candidate, reference, report and diff. *)
Theorem execution_decided_once sys sys' i j c c' r r' :
  executing sys -> ex_world_steps sys sys' ->
  calls sys !! i = Some c -> xc_phase c = ExReturned (Ok r) ->
  calls sys' !! j = Some c' -> xc_phase c' = ExReturned (Ok r') -> same_execution c c' ->
  xc_digest c' = xc_digest c /\ ex_outcome r' = ex_outcome r.
Proof.
  intros Hs Hr Hi Hp Hj Hp' (k0 & Hk0 & Hk0').
  pose proof (ex_call_phase_ok anything _ _ _ Hs Hi) as Hok.
  pose proof (ex_call_phase_ok anything _ _ _ (started_steps _ _ _ _ _ _ Hs Hr) Hj) as Hok'.
  rewrite Hp in Hok. rewrite Hp' in Hok'. cbn in Hok, Hok'. specialize (Hok r eq_refl).
  apply (delivered_stays _ _ _ _ (executing_evolves anything _ _ Hs Hr)) in Hok.
  destruct Hok as (row & v & (k & Hk & Hrow & Hd) & Hst & Hv).
  destruct (Hok' r' eq_refl) as (row' & v' & (k' & Hk' & Hrow' & Hd') & Hst' & Hv').
  assert (k' = k) as -> by congruence. assert (row' = row) as -> by congruence. split; congruence.
Qed.

(** ** Faithful candidates *)

Lemma Execute_entry_Ok get now request c :
  Execute_entry config get now request = Ok c ->
  xc_request c = request /\ executionRequestDigest request = Ok (xc_digest c) /\
  (exists t, MapImplementationRequestAt (Ex_Implementation request) t = Ok (xc_mapped c)) /\
  MapImplementationProposal (Ex_Proposal request) (xc_mapped c) = Ok (xc_proposal c) /\
  verifyProposalArtifact get request = Ok tt /\
  preflightChanges (Changes (xc_proposal c)) (Ex_Limits config) = Ok tt.
Proof.
  unfold Execute_entry. intros ([mapped proposal] & Hv & (digest & Hd & [= <-])%res_bind_Ok)%res_bind_Ok.
  cbn. unfold ex_validateRequest in Hv. apply res_bind_Ok in Hv as ([] & _ & (m & Hm & Hv)%res_bind_Ok).
  destruct (MapImplementationRequestAt _ _) as [m0|] eqn:Em; [|done]. injection Hm as ->.
  destruct (_ || _); [done|]. apply res_bind_Ok in Hv as ([] & Hart & (p & Hpm & Hv)%res_bind_Ok).
  destruct (MapImplementationProposal _ _) as [p0|] eqn:Ep; [|done]. injection Hpm as ->.
  apply res_bind_Ok in Hv as ([] & Hpre & [= <- <-]). split_and!; try done. by eexists.
Qed.

(** What holds of the surroundings that the calls met. *)
Variable possible : ex_surroundings -> Prop.

(** What the call built is, as git answered in surroundings that the history met, exactly what its
    proposal says over the base of its request. *)
Definition faithful (c : ex_call) (built : ex_built) : Prop :=
  exists around, possible around /\
    exact_commit (Candidate_tools around) (IR_BaseCommit (xc_mapped c))
      (Built_candidate (eb_candidate built)) (Changes (xc_proposal c)) /\
    map Diff_Path (Built_diff (eb_candidate built)) ≡ₚ map Change_Path (Changes (xc_proposal c)).

(** The proposal of the call is the wire form of the artifact that its request names, as the
    artifact store answered in surroundings that the history met. *)
Definition proposal_stored (c : ex_call) : Prop :=
  MapImplementationProposal (Ex_Proposal (xc_request c)) (xc_mapped c) = Ok (xc_proposal c) /\
  exists around, possible around /\ verifyProposalArtifact (Ex_Get around) (xc_request c) = Ok tt.

Lemma built_faithful c built :
  0 <= MaxTotalBytes (Ex_Limits config) ->
  ex_validated config possible c -> built_by config possible c built -> faithful c built.
Proof.
  intros Hmax (get & now & _ & He) (around & worktree & Ha & Hb).
  apply Execute_entry_Ok in He as (_ & _ & _ & _ & _ & Hpre). cbn in Hpre.
  apply preflight_distinct in Hpre as Hnd; [|done].
  unfold build_and_report in Hb. apply res_bind_Ok in Hb as ([] & _ & (candidate & Hc & Hb)%res_bind_Ok).
  apply res_bind_Ok in Hb as (body & _ & (report & _ & [= <-])%res_bind_Ok). cbn.
  apply buildCandidate_Ok in Hc as (Hx & Hp & _); [|done]. by exists around.
Qed.

Lemma validated_stored c : ex_validated config possible c -> proposal_stored c.
Proof.
  intros (around & now & Ha & He). apply Execute_entry_Ok in He as (_ & _ & _ & Hm & Hart & _).
  split; [done|]. by exists around.
Qed.

(** C11: The service touches the workflow only to accept the proposal of a request that passed the
    validation, stored as the artifact it names, or to record a candidate that differs from the
    base commit in exactly the changes of that proposal: the same paths, each created, updated or
    deleted as proposed, over the contents and to the contents that the proposal gives.  The same
    holds of every result in the ledger.  It is git and the artifact store that say so, with the
    answers that they gave to calls of this very history: [possible] is any predicate that held of
    the surroundings of every entry and every step. *)
Theorem recorded_candidate_exact s w cs :
  0 <= MaxTotalBytes (Ex_Limits config) -> executing_in possible (mkWorld s w cs) ->
  (forall k row v, s !! k = Some row -> xr_state row = ExCompleted v ->
     exists c built recorded body, uuid_column (ExecutionID (xc_request c)) = Some k /\
       xc_digest c = xr_request_digest row /\ proposal_stored c /\ faithful c built /\
       execution_result_json (execution_result config c built recorded) = Ok body /\
       v = json_trip body) /\
  forall x i c c' s' w', cs !! i = Some c -> ex_step x c s w = (c', s', w') -> w' <> w ->
    proposal_stored c /\
    ((exists h worktree, xc_phase c = ExAccepting h worktree /\
        w' = snd (ExecuteTask (xx_climate x) (xx_ctx_done x) (accept_command config c) w)) \/
     (exists h revision built t, xc_phase c = ExRecording h revision built t /\ faithful c built /\
        w' = snd (ExecuteTask (xx_climate x) (xx_ctx_done x)
                    (record_command config c revision built t) w))).
Proof.
  intros Hmax Hs. pose proof (executing_ok _ _ Hs) as [Hrows Hcalls]. cbn in Hrows, Hcalls. split.
  { intros k row v Hrow Hst. destruct (Hrows k row Hrow v Hst) as
      (result & body & (c & built & recorded & Hv & Hk & Hd & Hb & ->) & Hj & ->).
    exists c, built, recorded, body.
    split_and!; [done..|by apply validated_stored|by apply built_faithful|done|done]. }
  intros x i c c' s' w' Hi Hstep Hne. destruct (Hcalls i c Hi) as [Hv Hp].
  split; [by apply validated_stored|]. unfold ExService.ex_step in Hstep.
  destruct (xc_phase c) as [|owner|owner|h|h wt|h wt rev|h rev b|h rev b t|h v|h e|r] eqn:Hph;
    try (exfalso; apply Hne; clear -Hstep; repeat case_match; by injection Hstep).
  - left. exists h, wt. split; [done|]. by repeat case_match; simplify_eq.
  - right. destruct Hp as (_ & Hb & _). exists h, rev, b, t.
    split_and!; [done|by apply built_faithful|by repeat case_match; simplify_eq].
Qed.

(** ** Failed executions *)

Lemma ex_digest_hex `{!PlatformLaws} c : ex_validated config anything c -> match_hex 64 (xc_digest c) = true.
Proof.
  intros (around & now & _ & He). apply Execute_entry_Ok in He as (_ & Hd & _). cbn in Hd.
  unfold executionRequestDigest in Hd. apply res_bind_Ok in Hd as (b & _ & (p & _ & [= <-])%res_bind_Ok).
  apply sha256_hex_shape.
Qed.

Fixpoint ex_run (n : nat) (x : ex_circumstances) (c : ex_call) (s : executions) (w : db)
    : ex_call * executions * db :=
  match n with
  | O => (c, s, w)
  | S n' => let '(c', s', w') := ex_step x c s w in ex_run n' x c' s' w'
  end.

Lemma ex_run_step c' s' w' n x c s w :
  ex_step x c s w = (c', s', w') -> ex_run (S n) x c s w = ex_run n x c' s' w'.
Proof. intros Hs. cbn. by rewrite Hs. Qed.

(** A reserved row past its deadline goes to the next call in three steps. *)
Lemma expired_execution_taken `{!PlatformLaws} x c s w k owner row :
  ex_validated config anything c -> xc_phase c = ExInserting -> 0 < Limits_Timeout (Ex_Limits config) ->
  uuid_column (ExecutionID (xc_request c)) = Some k -> s !! k = Some row ->
  xr_request_digest row = xc_digest c -> xr_state row = ExReserved ->
  xr_reserved_until row <= xx_clock x -> xx_reply x = Answered ->
  uuid_column (xx_owner x) = Some owner ->
  ex_run 3 x c s w = (ex_at (ExBegun (ex_ownedHandle (ex_start config c) (xx_owner x))) c,
    <[k := set_xr_owner owner (xx_clock x + interval_us (Ex_ReservationTTL (ex_start config c))) row]> s,
    w).
Proof.
  intros Hv Hph Httl Hk Hrow Hd Hst Hdue Hans Ho. pose proof (ex_digest_hex c Hv) as Hhex.
  assert (Hcheck : forall f, xr_request_digest (f row) = xr_request_digest row ->
    xr_state (f row) = ExReserved -> execution_row_check (f row) = true).
  { intros f Hf Hf'. unfold execution_row_check. by rewrite Hf, Hf', Hd, Hhex. }
  rewrite (ex_run_step (ex_at (ExReading (xx_owner x)) c) s w).
  2: { unfold ExService.ex_step. rewrite Hph. unfold ex_insert.
       replace (Ex_ReservationTTL (ex_start config c) <=? 0) with false
         by (symmetry; apply Z.leb_gt; cbn [ex_start Ex_ReservationTTL]; unfold Minute, Second, Millisecond; lia).
       rewrite Hans. unfold statement, run_tx, insert_execution, mbind, tx_bind, tx_lift, uuid_param.
       cbn [ex_start Ex_RequestDigest Start_ExecutionID]. rewrite (text_column_hex _ _ Hhex), Ho.
       cbv beta iota zeta. unfold execution_row_check at 1. cbn [xr_request_digest xr_state].
       rewrite Hhex. cbn [negb andb]. by rewrite (insert_absent_found k row). }
  rewrite (ex_run_step (ex_at (ExRecovering (xx_owner x)) c) s w).
  2: { unfold ExService.ex_step. cbn [xc_phase ex_at]. unfold ex_read, query.
       cbn [xc_request ex_at]. rewrite Hans, (select_row_hit _ k), Hrow by done.
       unfold existing_execution. cbn [ex_start Ex_RequestDigest xc_digest ex_at].
       by rewrite Hd, bool_decide_true, Hst. }
  cbn [ex_run]. unfold ExService.ex_step. cbn [xc_phase ex_at]. unfold ex_recover. rewrite Hans.
  unfold statement, run_tx, recover_execution, mbind, tx_bind, tx_lift, uuid_param.
  cbn [ex_start Start_ExecutionID Ex_RequestDigest Ex_ReservationTTL xc_request xc_digest ex_at].
  rewrite Ho, (text_column_hex _ _ Hhex). cbv beta iota.
  rewrite (update_where_hit k _ _ _ _ row); [done|done..| |by apply Hcheck].
  rewrite Hd, bool_decide_true by done. unfold is_ex_reserved. rewrite Hst. by apply Z.leb_le.
Qed.

(** A call that fails gives its reservation back before it returns the error, and any later
    call for the execution gets it in three steps instead of waiting for the deadline. *)
Theorem failed_execution_hands_over `{!PlatformLaws} x x' c c' h e s w w' k owner owner' row :
  0 < Limits_Timeout (Ex_Limits config) ->
  ex_validated config anything c -> ex_own c h -> xc_phase c = ExAbandoning h e ->
  uuid_column (ExecutionID (xc_request c)) = Some k -> s !! k = Some row ->
  xr_request_digest row = xc_digest c -> xr_state row = ExReserved -> xr_owner row = owner ->
  uuid_column (xh_owner h) = Some owner -> xx_reply x = Answered ->
  ex_validated config anything c' -> xc_phase c' = ExInserting -> xc_digest c' = xc_digest c ->
  uuid_column (ExecutionID (xc_request c')) = Some k -> xx_clock x <= xx_clock x' ->
  xx_reply x' = Answered -> uuid_column (xx_owner x') = Some owner' ->
  exists s' s'', ex_step x c s w = (ex_at (ExReturned (Err e)) c, s', w) /\
    ex_run 3 x' c' s' w' =
      (ex_at (ExBegun (ex_ownedHandle (ex_start config c') (xx_owner x'))) c', s'', w').
Proof.
  intros Httl Hv [Hid Hdig] Hph Hk Hrow Hd Hst Ho Howner Hans Hv' Hph' Hd' Hk' Hle Hans' Ho'.
  pose proof (ex_digest_hex c Hv) as Hhex.
  eexists (<[k := set_xr_until (xx_clock x) row]> s), _. split.
  - unfold ExService.ex_step. rewrite Hph, Hans. unfold AbandonExecution, statement, run_tx,
      update_reserved_execution, mbind, tx_bind, tx_lift, uuid_param. rewrite Howner, Hid. cbv beta iota.
    rewrite (update_where_hit k _ _ _ _ row); [done|done..| |].
    + unfold is_ex_reserved. by rewrite Hdig, Hd, Ho, Hst, !bool_decide_true.
    + unfold execution_row_check. cbn. by rewrite Hd, Hhex, Hst.
  - eapply (expired_execution_taken x' c' _ _ k owner' (set_xr_until (xx_clock x) row)); try done;
      [apply lookup_insert_eq|cbn; congruence].
Qed.

End guarantees.

(** * Concrete executions

    A task whose proposal is executed, calls that repeat the execution, one
    that fails; and the theorems of the execution service applied to them. *)

(** ** A proposal to execute *)

Definition reasoning_db : db := execute_all reasoning_history empty_db.

(** The wire format of the proposal. *)
Definition proposal_body : string :=
  result "" (marshal_implementation_proposal (Some sample_checked_proposal)).

Definition sample_execution_request : ExecutionRequest :=
  mkExecutionRequest "execution-1" (at_time 30) (Some sample_checked_request)
    (Some sample_checked_proposal) (artifact_of proposal_body) (sample_lease 1) 3.

Definition ex_config : ExecutionConfig :=
  mkExecutionConfig "/repository" "/worktrees" "worker:1" "executor-1" "Harness" "harness@example.com"
    DefaultLimits 4 8.

Example config_normal : normalizeServiceConfig ex_config = Ok ex_config.
Proof. vm_compute. reflexivity. Qed.

(** ** A git with one file *)

Definition tab : string := String (byte 9) "".

Definition sample_git (arguments : list string) : res string :=
  match arguments with
  | "ls-tree" :: _ => Ok ("100644 blob oid" +:+ tab +:+ "src/a" +:+ nul)
  | "cat-file" :: _ => Ok "hello"
  | "diff-tree" :: _ => Ok ("A" +:+ nul +:+ "src/a" +:+ nul)
  | _ => Err (ErrNew "unknown revision")
  end.

Definition sample_git_index (_ : list index_command) (command : index_command) : res string :=
  match arguments command with
  | "hash-object" :: _ => Ok ("oid" +:+ String (byte 10) "")
  | "write-tree" :: _ => Ok ("tree" +:+ String (byte 10) "")
  | "commit-tree" :: _ => Ok (hex40 +:+ String (byte 10) "")
  | _ => Ok ""
  end.

Definition sample_candidate_tools : candidate_tools :=
  mkCandidateTools sample_git sample_git_index (fun _ => Ok "hello") (Ok tt).

(** [src] is a directory; [src/a] is not there. *)
Definition sample_files (path : string) : lstat :=
  if path == "/worktrees/execution-1/src" then Stat false true false 493 else NotExist.

Definition ex_get (ref : ArtifactRef) : res string :=
  if sha256_hex proposal_body == Digest ref then Ok proposal_body else Err (ErrNew "not found").

(** The changes are applied, or fail to be. *)
Definition ex_tools (apply : res unit) : ex_surroundings :=
  mkExSurroundings ex_get (fun body => Ok (artifact_of body))
    (fun id _ => Ok ("/worktrees/" +:+ id)) sample_files (fun _ => Err (ErrNew "not found"))
    (fun _ _ _ => apply) sample_candidate_tools.

Definition seconds (d : Z) : Z := d / 1000.

Definition ex_meeting (apply : res unit) (r : reply) (clock : Z) (owner : string) : ex_circumstances :=
  mkExCircumstances (ex_tools apply) r clock (at_time 60) owner None (fun _ => Clear) (fun _ => None).

Definition no_call : ex_call :=
  mkExCall sample_execution_request
    (mkImplementationRequestOf (sample_envelope StageImplementation) "" "" "" "" "" [] [] [] [] [] [])
    (mkImplementationProposal "" [] [] [] [] None) "" ExInserting.

Definition ex_entering : ex_call :=
  result no_call (Execute_entry ex_config ex_get (at_time 0) sample_execution_request).

Lemma ex_entering_Ok :
  Execute_entry ex_config ex_get (at_time 0) sample_execution_request = Ok ex_entering.
Proof. vm_compute. reflexivity. Qed.

(** The calls meet the sample surroundings and no others. *)
Local Abbreviation sampled := (eq (ex_tools (Ok tt))).

Lemma ex_entering_enters : ex_enters_in ex_config sampled ex_entering.
Proof. exists (ex_tools (Ok tt)), (at_time 0), sample_execution_request. split; [done|exact ex_entering_Ok]. Qed.

(** A call comes in, or the call [i] makes a step. *)
Definition play (m : option (nat * reply)) : action :=
  match m with
  | None => Enter ex_entering
  | Some (i, r) => Step i (ex_meeting (Ok tt) r 0 (if (i =? 0)%nat then "owner-0" else "owner-1"))
  end.

Lemma ex_plays_admissible l :
  Forall (admissible (ex_enters_in ex_config sampled) (ex_fair_in sampled)) (map play l).
Proof.
  apply Forall_map, Forall_true. intros [[i r]|]; [split; [intros n o e Hx; discriminate Hx|done]|].
  exact ex_entering_enters.
Qed.

Lemma ex_enters_anything c : ex_enters_in ex_config sampled c -> ex_enters ex_config c.
Proof. intros (around & now & request & _ & Hc). by exists around, now, request. Qed.

Local Abbreviation step := (ex_step seconds ex_config).

Definition run_script (l : list (option (nat * reply))) (sys : world executions ex_call)
    : world executions ex_call := drive step (map play l) sys.

Definition fresh : world executions ex_call := mkWorld ∅ reasoning_db [].

Lemma ex_script_steps l sys :
  rtc (world_step step (ex_enters ex_config) ex_fair) sys (run_script l sys).
Proof.
  apply drive_steps. eapply Forall_impl; [apply ex_plays_admissible|].
  intros [c|i x]; [apply ex_enters_anything|by intros [Hx _]].
Qed.

Lemma script_executing_in l : executing_in seconds ex_config sampled (run_script l fresh).
Proof. apply drive_started; [apply execute_all_reachable, reachable_empty|apply ex_plays_admissible]. Qed.

Lemma script_executing l : executing seconds ex_config (run_script l fresh).
Proof. eapply started_mono, script_executing_in; [apply ex_enters_anything|by intros x [Hx _]]. Qed.

Definition steps_of (i n : nat) : list (option (nat * reply)) := replicate n (Some (i, Answered)).

Definition ex_call_at (i : nat) (sys : world executions ex_call) : ex_call := nth i (calls sys) no_call.

Definition execution_returned (c : ex_call) : ExecutionResult :=
  match xc_phase c with
  | ExReturned (Ok r) => r
  | _ => mkExecutionResult "" "" "" "" (mkArtifactRef "" "") (sample_lease 1) DefaultLimits [] false
  end.

(** ** Histories *)

(** The first call executes; the second one finds its result. *)
Definition first_done : world executions ex_call := run_script (None :: steps_of 0 7) fresh.
Definition both_done : world executions ex_call := run_script (None :: steps_of 1 3) first_done.

Example both_candidates :
  map (fun i => (XResult_CandidateCommit (execution_returned (ex_call_at i both_done)),
                 map Diff_Path (XResult_ActualDiff (execution_returned (ex_call_at i both_done))),
                 XResult_Replay (execution_returned (ex_call_at i both_done)))) [0%nat; 1%nat] =
  [(hex40, ["src/a"], false); (hex40, ["src/a"], true)].
Proof. vm_compute. reflexivity. Qed.

Example executed_task : task_states (store both_done) = [("TASK-001", TaskStateVerifying)].
Proof. vm_compute. reflexivity. Qed.

Lemma execution_decided_once_witness :
  let first := ex_call_at 0 first_done in let second := ex_call_at 1 both_done in
  xc_digest second = xc_digest first /\
  ex_outcome (execution_returned second) = ex_outcome (execution_returned first).
Proof.
  intros first second.
  apply (execution_decided_once seconds ex_config first_done both_done 0 1).
  - exact (script_executing (None :: steps_of 0 7)).
  - exact (ex_script_steps (None :: steps_of 1 3) first_done).
  - vm_compute. reflexivity.
  - vm_compute. reflexivity.
  - vm_compute. reflexivity.
  - vm_compute. reflexivity.
  - exists "execution-1". vm_compute. split; reflexivity.
Defined.

Lemma preflight_exact_witness :
  let changes := Changes (xc_proposal ex_entering) in
  Z.of_nat (length changes) <= MaxChangedFiles DefaultLimits /\ NoDup (map Change_Path changes) /\
  (forall c, c ∈ changes -> safe_path (Change_Path c) /\ content_ok DefaultLimits c) /\
  total_size changes <= MaxTotalBytes DefaultLimits.
Proof.
  intros changes. apply (preflight_exact DefaultLimits changes).
  - vm_compute. discriminate.
  - vm_compute. reflexivity.
Defined.

(** The first call records its candidate. *)
Definition first_ready : world executions ex_call := run_script (None :: steps_of 0 5) fresh.

Definition stepped : ex_call * executions * db :=
  step (ex_meeting (Ok tt) Answered 0 "owner-0") (ex_call_at 0 first_ready) (shared first_ready)
    (store first_ready).

Lemma ex_stepped_parts :
  step (ex_meeting (Ok tt) Answered 0 "owner-0") (ex_call_at 0 first_ready) (shared first_ready)
    (store first_ready) = (fst (fst stepped), snd (fst stepped), snd stepped).
Proof. unfold stepped. by destruct (step _ _ _ _) as [[]]. Qed.

Lemma ex_stepped_task : task_states (snd stepped) = [("TASK-001", TaskStateVerifying)].
Proof. vm_compute. reflexivity. Qed.

Lemma ex_unstepped_task : task_states (store first_ready) = [("TASK-001", TaskStateExecuting)].
Proof. vm_compute. reflexivity. Qed.

Lemma ex_first_ready_call : calls first_ready !! 0%nat = Some (ex_call_at 0 first_ready).
Proof. vm_compute. reflexivity. Qed.

Definition stored_result : json :=
  match option_map xr_state (shared first_done !! "execution-1") with
  | Some (ExCompleted v) => v
  | _ => JNull
  end.

Definition stored_row : execution_row :=
  default (mkExecutionRow "" "" 0 0 None ExReserved) (shared first_done !! "execution-1").

Lemma recorded_candidate_exact_witness :
  let c := ex_call_at 0 first_ready in
  (exists c built recorded body, uuid_column (ExecutionID (xc_request c)) = Some "execution-1" /\
     xc_digest c = xr_request_digest stored_row /\ proposal_stored sampled c /\
     faithful sampled c built /\
     execution_result_json (execution_result ex_config c built recorded) = Ok body /\
     stored_result = json_trip body) /\
  proposal_stored sampled c /\
  ((exists h worktree, xc_phase c = ExAccepting h worktree /\
      snd stepped = snd (ExecuteTask (fun _ => Clear) (fun _ => None) (accept_command ex_config c)
                           (store first_ready))) \/
   (exists h revision built t, xc_phase c = ExRecording h revision built t /\
      faithful sampled c built /\
      snd stepped = snd (ExecuteTask (fun _ => Clear) (fun _ => None)
                           (record_command ex_config c revision built t) (store first_ready)))).
Proof.
  intros c. split.
  - apply (proj1 (recorded_candidate_exact seconds ex_config sampled (shared first_done)
      (store first_done) (calls first_done) ltac:(vm_compute; discriminate)
      (started_parts _ _ _ _ first_done (script_executing_in (None :: steps_of 0 7))))
      "execution-1" stored_row stored_result); vm_compute; reflexivity.
  - apply (proj2 (recorded_candidate_exact seconds ex_config sampled (shared first_ready)
      (store first_ready) (calls first_ready) ltac:(vm_compute; discriminate)
      (started_parts _ _ _ _ first_ready (script_executing_in (None :: steps_of 0 5))))
      (ex_meeting (Ok tt) Answered 0 "owner-0") 0%nat (ex_call_at 0 first_ready) (fst (fst stepped))
      (snd (fst stepped)) (snd stepped)).
    + exact ex_first_ready_call.
    + exact ex_stepped_parts.
    + intros Heq. pose proof ex_stepped_task as Ha. rewrite Heq, ex_unstepped_task in Ha. discriminate Ha.
Defined.

(** ** A call whose changes cannot be applied *)

Definition failing : list action :=
  Enter ex_entering :: replicate 4 (Step 0 (ex_meeting (Err (ErrNew "exit status 1")) Answered 0 "owner-0")).

Definition failed : world executions ex_call := drive step failing fresh.

Definition no_row : execution_row := mkExecutionRow "" "" 0 0 None ExReserved.
Definition failed_row : execution_row := default no_row (shared failed !! "execution-1").

Definition failed_handle : ex_handle :=
  match xc_phase (ex_call_at 0 failed) with ExAbandoning h _ => h | _ => mkExHandle "" "" "" None end.

Definition apply_error : error := ErrWrap (ErrNew "exit status 1") "apply implementation proposal".

Lemma failed_phase : xc_phase (ex_call_at 0 failed) = ExAbandoning failed_handle apply_error.
Proof. vm_compute. reflexivity. Qed.
Lemma failed_row_stored : shared failed !! "execution-1" = Some failed_row.
Proof. vm_compute. reflexivity. Qed.
Lemma failed_row_digest : xr_request_digest failed_row = xc_digest (ex_call_at 0 failed).
Proof. vm_compute. reflexivity. Qed.
Lemma failed_row_parts : xr_state failed_row = ExReserved /\ xr_owner failed_row = "owner-0".
Proof. vm_compute. done. Qed.

Lemma ex_entering_validated : ex_validated ex_config anything ex_entering.
Proof. exists (ex_tools (Ok tt)), (at_time 0). split; [done|]. vm_compute. reflexivity. Qed.

Lemma failed_validated : ex_validated ex_config anything (ex_call_at 0 failed).
Proof. exists (ex_tools (Ok tt)), (at_time 0). split; [done|]. vm_compute. reflexivity. Qed.

Lemma failed_execution_hands_over_witness :
  exists s' s'',
    step (ex_meeting (Ok tt) Answered 5 "owner-0") (ex_call_at 0 failed) (shared failed) (store failed) =
      (ex_at (ExReturned (Err apply_error)) (ex_call_at 0 failed), s', store failed) /\
    ex_run seconds ex_config 3 (ex_meeting (Ok tt) Answered 6 "owner-1") ex_entering s' (store failed) =
      (ex_at (ExBegun (ex_ownedHandle (ex_start ex_config ex_entering) "owner-1")) ex_entering, s'',
       store failed).
Proof.
  apply (failed_execution_hands_over seconds ex_config (ex_meeting (Ok tt) Answered 5 "owner-0")
    (ex_meeting (Ok tt) Answered 6 "owner-1") (ex_call_at 0 failed) ex_entering failed_handle apply_error
    (shared failed) (store failed) (store failed) "execution-1" "owner-0" "owner-1" failed_row).
  - vm_compute. reflexivity.
  - exact failed_validated.
  - vm_compute. done.
  - exact failed_phase.
  - vm_compute. reflexivity.
  - exact failed_row_stored.
  - exact failed_row_digest.
  - exact (proj1 failed_row_parts).
  - exact (proj2 failed_row_parts).
  - vm_compute. reflexivity.
  - reflexivity.
  - exact ex_entering_validated.
  - vm_compute. reflexivity.
  - vm_compute. reflexivity.
  - vm_compute. reflexivity.
  - vm_compute. discriminate.
  - reflexivity.
  - vm_compute. reflexivity.
Defined.
