(* ===== verification/VfEvidence.v ===== *)
(** * The catalog of checks and the evidence of a verification *)

From S2P Require Import Prelude GoStd GoText WfTypes CtCommon CtPlanning CtImplementation GoJson.
From S2P Require Import WfTask WfDigest CtMessages ExRequest.

(** * The catalog of trusted checks and the coverage of the criteria

    Models [go/internal/verification/catalog.go] and the data of [types.go]:
    which definitions make a catalog, how the acceptance requirements of a
    request are resolved against it, and when the results of the checks cover
    the criteria.  Durations are nanoseconds.  The identifiers that the error
    texts quote are left out. *)

Definition VfErrInvalidRequest : error := ErrNew "invalid verification request".
Definition VfErrArtifactIntegrity : error := ErrNew "verification artifact integrity check failed".
Definition ErrVerificationConflict : error := ErrNew "verification ID already has different content".

Definition DefaultCheckTimeout : Z := 10 * Minute.
Definition DefaultMaxChecks : nat := 16.
Definition DefaultMaxOutputBytes : Z := 2 ^ 20.
Definition DefaultMemoryBytes : Z := 2 ^ 31.
Definition MaximumMemoryBytes : Z := 2 ^ 31.

(** ** Data *)

Record AcceptanceRequirement := mkRequirement { CriterionID : string; CheckIDs : list string }.

Record ResourceLimits := mkResourceLimits {
  CPUs : Z;
  MemoryBytes : Z;
  PIDs : Z;
  OutputBytes : Z;
}.

Record CheckDefinition := mkCheckDefinition {
  Check_ID : string;
  CommandReference : string;
  Argv : list string;
  Check_Timeout : Z;
  Check_Limits : ResourceLimits;
}.

Record ResolvedPlan := mkPlan {
  Plan_Checks : list CheckDefinition;
  Plan_Requirements : list AcceptanceRequirement;
}.

Record CheckResult := mkCheckResult {
  Result_CheckID : string;
  Result_CommandReference : string;
  Result_Argv : list string;
  Result_ImageID : string;
  Result_CandidateCommit : string;
  StartedAt : string;
  FinishedAt : string;
  ExitCode : Z;
  TimedOut : bool;
  Output : ArtifactRef;
  OutputDigest : string;
  WallTimeNanos : Z;
  UserTimeNanos : Z;
  SystemTimeNanos : Z;
  PeakRSSBytes : Z;
  Check_Passed : bool;
}.

Record CriterionCoverage := mkCoverage {
  Coverage_CriterionID : string;
  Coverage_CheckIDs : list string;
  Covered : bool;
  Coverage_Passed : bool;
}.

(** ** Definitions that make a catalog *)

(** [^[a-z][a-z0-9-]{0,62}$] *)
Definition catalogCheckIDPattern : string -> bool :=
  matches (Cat (Class is_lower)
    (up_to 62 (Class (fun c => is_lower c || is_digit c || (c == "-"%char))))).

Definition durationIsBounded (value : Z) : bool := (0 <? value) && (value <=? DefaultCheckTimeout).

Definition resourceLimitsAreBounded (limits : ResourceLimits) : bool :=
  (CPUs limits =? 1) &&
  (0 <? MemoryBytes limits) && (MemoryBytes limits <=? MaximumMemoryBytes) &&
  (0 <? PIDs limits) && (PIDs limits <=? 256) &&
  (0 <? OutputBytes limits) && (OutputBytes limits <=? DefaultMaxOutputBytes).

Definition validCheckDefinition (definition : CheckDefinition) : bool :=
  catalogCheckIDPattern (Check_ID definition) &&
  catalogCheckIDPattern (CommandReference definition) &&
  (0 <? length (Argv definition))%nat &&
  durationIsBounded (Check_Timeout definition) &&
  resourceLimitsAreBounded (Check_Limits definition).

Record Catalog := mkCatalog {
  definitions : list CheckDefinition;
  byID : gmap string CheckDefinition;
}.

Fixpoint NewCatalog_loop (l : list CheckDefinition) (catalog : Catalog) : res Catalog :=
  match l with
  | [] => Ok catalog
  | definition :: rest =>
      if negb (validCheckDefinition definition)
      then Err (ErrWrap VfErrInvalidRequest "invalid check")
      else if bool_decide (is_Some (byID catalog !! Check_ID definition))
      then Err (ErrWrap VfErrInvalidRequest "duplicate check")
      else
        NewCatalog_loop rest (mkCatalog (definitions catalog ++ [definition])
          (<[Check_ID definition := definition]> (byID catalog)))
  end.

Definition NewCatalog (l : list CheckDefinition) : res Catalog :=
  if (length l =? 0)%nat || (DefaultMaxChecks <? length l)%nat
  then Err (ErrWrap VfErrInvalidRequest "catalog size")
  else NewCatalog_loop l (mkCatalog [] ∅).

Definition make_check : CheckDefinition :=
  mkCheckDefinition "make-check-v1" "make-check-v1" ["make"; "check"] DefaultCheckTimeout
    (mkResourceLimits 1 DefaultMemoryBytes 256 DefaultMaxOutputBytes).

(** The panic on an error does not happen: [DefaultCatalog_valid]. *)
Definition DefaultCatalog : Catalog :=
  match NewCatalog [make_check] with Ok catalog => catalog | Err _ => mkCatalog [] ∅ end.

(** ** Resolving the requirements of a request *)

(** The checks of one requirement: [seen] within it, [selected] over all. *)
Fixpoint resolve_checks (c : Catalog) (available : gset string) (ids : list string)
    (seen selected : gset string) : res (gset string) :=
  match ids with
  | [] => Ok selected
  | id :: rest =>
      if bool_decide (id ∈ seen) then Err (ErrWrap VfErrInvalidRequest "duplicate mapped check")
      else if bool_decide (id ∉ available) then Err (ErrWrap VfErrInvalidRequest "unavailable check")
      else if bool_decide (byID c !! id = None) then Err (ErrWrap VfErrInvalidRequest "untrusted check")
      else resolve_checks c available rest ({[id]} ∪ seen) ({[id]} ∪ selected)
  end.

Fixpoint resolve_requirements (c : Catalog) (available criteria : gset string)
    (requirements : list AcceptanceRequirement) (seen selected : gset string)
    : res (gset string) :=
  match requirements with
  | [] => Ok selected
  | requirement :: rest =>
      if bool_decide (CriterionID requirement ∉ criteria)
      then Err (ErrWrap VfErrInvalidRequest "unknown criterion")
      else if bool_decide (CriterionID requirement ∈ seen)
      then Err (ErrWrap VfErrInvalidRequest "duplicate criterion")
      else
        selected ← resolve_checks c available (CheckIDs requirement) ∅ selected;
        resolve_requirements c available criteria rest ({[CriterionID requirement]} ∪ seen) selected
  end.

(** The resolved requirements are copies of those of the request, in their order. *)
Definition Resolve (c : Catalog) (request : ImplementationRequest)
    (requirements : list AcceptanceRequirement) : res ResolvedPlan :=
  if negb (length requirements =? length (IR_AcceptanceCriterionIDs request))%nat
  then Err (ErrWrap VfErrInvalidRequest "criterion set mismatch")
  else
    let available : gset string := list_to_set (AvailableCheckIDs request) in
    let criteria : gset string := list_to_set (IR_AcceptanceCriterionIDs request) in
    selected ← resolve_requirements c available criteria requirements ∅ ∅;
    let checks := filter (fun definition => Check_ID definition ∈ selected) (definitions c) in
    if (DefaultMaxChecks <? length checks)%nat
    then Err (ErrWrap VfErrInvalidRequest "too many checks")
    else Ok (mkPlan checks requirements).

(** ** Coverage *)

(** The result of a check that ran twice is that of the last run. *)
Definition passed_checks (results : list CheckResult) : gmap string bool :=
  foldl (fun m result => <[Result_CheckID result := Check_Passed result]> m) ∅ results.

Definition cover_requirement (passed : gmap string bool) (requirement : AcceptanceRequirement)
    : CriterionCoverage :=
  let covered := (0 <? length (CheckIDs requirement))%nat in
  mkCoverage (CriterionID requirement) (CheckIDs requirement) covered
    (covered && forallb (fun id => default false (passed !! id)) (CheckIDs requirement)).

Definition CalculateCoverage (requirements : list AcceptanceRequirement) (results : list CheckResult)
    : list CriterionCoverage * bool :=
  let coverage := map (cover_requirement (passed_checks results)) requirements in
  (coverage, forallb (fun item => Covered item && Coverage_Passed item) coverage).

(** * Verification requests and the evidence collected for them

    Models the parts of [go/internal/verification/service.go] and [ledger.go]
    that need no ledger: the configuration, the validation of a request against
    its execution report, the digest of a request, and the run of the checks in
    a workspace up to the stored report.  The stores and tools are arguments
    of a call; the wire format of protobuf is a parameter. *)

(** ** Data *)

Record VerificationRequest := mkVerificationRequest {
  VerificationID : string;
  VerificationTimestamp : time;
  Vf_Implementation : option pb_ImplementationRequest;
  ExecutionArtifact : ArtifactRef;
  Vf_CandidateCommit : string;
  Vf_ExpectedTaskRevision : Z;
  Requirements : list AcceptanceRequirement;
}.

Record VerificationReport := mkVerificationReport {
  VR_SchemaVersion : string;
  VR_VerificationID : string;
  VerifiedAt : string;
  VR_RunID : string;
  VR_TaskID : string;
  VR_Attempt : Z;
  VR_Execution : ArtifactRef;
  VR_BaseCommit : string;
  VR_CandidateCommit : string;
  VR_ImageID : string;
  VR_Checks : list CheckResult;
  VR_Coverage : list CriterionCoverage;
  VR_Passed : bool;
}.

Record VerificationEvidence := mkEvidence {
  Evidence_ReportArtifact : ArtifactRef;
  Evidence_CandidateCommit : string;
  Evidence_Coverage : list CriterionCoverage;
  Evidence_Passed : bool;
}.

Record ExecutionMeasurement := mkMeasurement {
  M_StartedAt : time;
  M_FinishedAt : time;
  M_ExitCode : Z;
  M_TimedOut : bool;
  M_Output : string;
  WallTime : Z;
  UserTime : Z;
  SystemTime : Z;
  M_PeakRSSBytes : Z;
  OutputTruncated : bool;
}.

Record VerificationConfig := mkVerificationConfig {
  Vf_ActorID : string;
  Vf_Catalog : Catalog;
  Vf_MaxConcurrent : Z;
  Vf_MaxWorkspaces : Z;
  Vf_ReservationTTL : Z;
}.

(** What a call finds outside: the artifacts, the strict decoder of execution
    reports (the report and what follows it), the workspaces and the executor
    of checks.  [Prepare] gives the workspace and how its removal ends. *)
Record vf_surroundings := mkVfSurroundings {
  Vf_Get : ArtifactRef -> res string;
  Vf_Put : string -> res ArtifactRef;
  Vf_Decode : string -> option (ExecutionReport * string);
  Vf_at_EOF : string -> bool;
  Prepare : string -> string -> res (string * res unit);
  ImageID : res string;
  Run_check : string -> string -> CheckDefinition -> res ExecutionMeasurement;
}.

Section verification.
Context `{Platform} `{Protobuf} `{Wire}.

(** ** Configuration *)

Definition normalizeConfig (config : VerificationConfig) : res VerificationConfig :=
  if negb (uuid_Parse_ok (Vf_ActorID config))
  then Err (ErrText "verification actor ID is required")
  else
    let catalog := if (length (definitions (Vf_Catalog config)) =? 0)%nat
                   then DefaultCatalog else Vf_Catalog config in
    let concurrent := if Vf_MaxConcurrent config =? 0 then 2 else Vf_MaxConcurrent config in
    let workspaces := if Vf_MaxWorkspaces config =? 0 then 4 else Vf_MaxWorkspaces config in
    let ttl := if Vf_ReservationTTL config =? 0
               then DefaultCheckTimeout * Z.of_nat DefaultMaxChecks + Minute
               else Vf_ReservationTTL config in
    if (concurrent <? 1) || (2 <? concurrent) || (workspaces <? 1) || (4 <? workspaces) ||
       (ttl <=? 0)
    then Err (ErrText "invalid verification service limits")
    else Ok (mkVerificationConfig (Vf_ActorID config) catalog concurrent workspaces ttl).

(** ** Validation *)

Definition requestHeaderValid (request : VerificationRequest) : bool :=
  uuid_Parse_ok (VerificationID request) && negb (IsZero (VerificationTimestamp request)) &&
  bool_decide (Vf_Implementation request <> None) && (0 <? Vf_ExpectedTaskRevision request) &&
  match_hex 40 (Vf_CandidateCommit request).

Definition executionReportMatches (report : ExecutionReport) (request : ImplementationRequest)
    (candidateCommit : string) : bool :=
  (Exec_SchemaVersion report == "1") &&
  (Exec_RunID report == Env_RunID (IR_Envelope request)) &&
  (Exec_TaskID report == IR_ApprovedTaskID request) &&
  (Exec_Attempt report =? Env_Attempt (IR_Envelope request)) &&
  (Exec_BaseCommit report == IR_BaseCommit request) &&
  (Exec_CandidateCommit report == candidateCommit).

Definition loadExecutionReport (env : vf_surroundings) (artifact : ArtifactRef)
    : res ExecutionReport :=
  body ← map_err (fun e => ErrWrap e "load execution artifact") (Vf_Get env artifact);
  if sha256_hex body != Digest artifact then Err VfErrArtifactIntegrity
  else
    match Vf_Decode env body with
    | None => Err (ErrWrap VfErrArtifactIntegrity "decode execution report")
    | Some (report, rest) =>
        if negb (Vf_at_EOF env rest)
        then Err (ErrWrap VfErrArtifactIntegrity "execution report trailer") else Ok report
    end.

Definition vf_validateRequest (config : VerificationConfig) (env : vf_surroundings) (now : time)
    (request : VerificationRequest)
    : res (ImplementationRequest * ExecutionReport * ResolvedPlan) :=
  if negb (requestHeaderValid request) then Err VfErrInvalidRequest
  else
    map_err (fun _ => ErrWrap VfErrInvalidRequest "execution artifact")
      (ArtifactRef_Validate (ExecutionArtifact request)) ;;
    mapped ← map_err (fun _ => ErrWrap VfErrInvalidRequest "implementation request")
      (MapImplementationRequestAt (Vf_Implementation request) (known_time (UTC now)));
    plan ← Resolve (Vf_Catalog config) mapped (Requirements request);
    report ← loadExecutionReport env (ExecutionArtifact request);
    if negb (executionReportMatches report mapped (Vf_CandidateCommit request))
    then Err (ErrWrap VfErrInvalidRequest "execution report binding")
    else Ok (mapped, report, plan).

(** ** The digest of a request *)

Definition requirement_json (r : AcceptanceRequirement) : json :=
  JObj [("criterion_id", JStr (CriterionID r)); ("check_ids", slice_json JStr (CheckIDs r))].

Definition bindings_json (request : VerificationRequest) : json :=
  JObj [("VerificationID", JStr (VerificationID request));
    ("VerificationTimestamp", JStr (rfc3339_nano (UTC (VerificationTimestamp request))));
    ("ExecutionURI", JStr (URI (ExecutionArtifact request)));
    ("ExecutionDigest", JStr (Digest (ExecutionArtifact request)));
    ("CandidateCommit", JStr (Vf_CandidateCommit request));
    ("ExpectedTaskRevision", JNum (Vf_ExpectedTaskRevision request));
    ("Requirements", slice_json requirement_json (Requirements request))].

Definition verificationRequestDigest (request : VerificationRequest) : res string :=
  implementation ← map_err (fun e => ErrWrap e "serialize verification implementation")
    (marshal_implementation_request (Vf_Implementation request));
  Ok (sha256_hex (framed [implementation; json_text (bindings_json request)])).

(** ** The evidence *)

Definition vf_storeContent (env : vf_surroundings) (body : string) : res ArtifactRef :=
  artifact ← Vf_Put env body;
  if negb (is_Ok (ArtifactRef_Validate artifact)) || (Digest artifact != sha256_hex body)
  then Err VfErrArtifactIntegrity else Ok artifact.

Definition check_result (check : CheckDefinition) (imageID candidate : string)
    (measurement : ExecutionMeasurement) (output : ArtifactRef) : CheckResult :=
  mkCheckResult (Check_ID check) (CommandReference check) (Argv check) imageID candidate
    (rfc3339_nano (UTC (M_StartedAt measurement))) (rfc3339_nano (UTC (M_FinishedAt measurement)))
    (M_ExitCode measurement) (M_TimedOut measurement) output (Digest output)
    (WallTime measurement) (UserTime measurement) (SystemTime measurement)
    (M_PeakRSSBytes measurement)
    ((M_ExitCode measurement =? 0) && negb (M_TimedOut measurement) &&
     negb (OutputTruncated measurement)).

Definition run_and_store (env : vf_surroundings) (workspace imageID candidate : string)
    (check : CheckDefinition) : res CheckResult :=
  measurement ← map_err (fun e => ErrWrap e "run check") (Run_check env workspace imageID check);
  output ← map_err (fun e => ErrWrap e "store check output")
    (vf_storeContent env (M_Output measurement));
  Ok (check_result check imageID candidate measurement output).

Definition check_result_json (r : CheckResult) : json :=
  JObj [("check_id", JStr (Result_CheckID r));
    ("command_reference", JStr (Result_CommandReference r));
    ("argv", slice_json JStr (Result_Argv r)); ("image_id", JStr (Result_ImageID r));
    ("candidate_commit", JStr (Result_CandidateCommit r)); ("started_at", JStr (StartedAt r));
    ("finished_at", JStr (FinishedAt r)); ("exit_code", JNum (ExitCode r));
    ("timed_out", JBool (TimedOut r)); ("output", artifact_json (Output r));
    ("output_digest", JStr (OutputDigest r)); ("wall_time_nanoseconds", JNum (WallTimeNanos r));
    ("user_time_nanoseconds", JNum (UserTimeNanos r));
    ("system_time_nanoseconds", JNum (SystemTimeNanos r));
    ("peak_rss_bytes", JNum (PeakRSSBytes r)); ("passed", JBool (Check_Passed r))].

Definition coverage_json (c : CriterionCoverage) : json :=
  JObj [("criterion_id", JStr (Coverage_CriterionID c));
    ("check_ids", slice_json JStr (Coverage_CheckIDs c)); ("covered", JBool (Covered c));
    ("passed", JBool (Coverage_Passed c))].

(** The lists of a report are made, so they are never null. *)
Definition report_json (r : VerificationReport) : json :=
  JObj [("schema_version", JStr (VR_SchemaVersion r));
    ("verification_id", JStr (VR_VerificationID r)); ("verified_at", JStr (VerifiedAt r));
    ("run_id", JStr (VR_RunID r)); ("task_id", JStr (VR_TaskID r));
    ("attempt", JNum (VR_Attempt r)); ("execution", artifact_json (VR_Execution r));
    ("base_commit", JStr (VR_BaseCommit r)); ("candidate_commit", JStr (VR_CandidateCommit r));
    ("image_id", JStr (VR_ImageID r)); ("checks", JArr (map check_result_json (VR_Checks r)));
    ("coverage", JArr (map coverage_json (VR_Coverage r))); ("passed", JBool (VR_Passed r))].

Definition marshalReport (report : VerificationReport) : string :=
  json_text_plain (report_json report).

(** The work in the workspace. *)
Definition check_candidate (env : vf_surroundings) (request : VerificationRequest)
    (mapped : ImplementationRequest) (executionReport : ExecutionReport) (plan : ResolvedPlan)
    (workspace : string) : res VerificationEvidence :=
  let candidate := Vf_CandidateCommit request in
  imageID ← map_err (fun e => ErrWrap e "resolve verification image") (ImageID env);
  results ← map_each (run_and_store env workspace imageID candidate) (Plan_Checks plan);
  let '(coverage, passed) := CalculateCoverage (Plan_Requirements plan) results in
  let report := mkVerificationReport "1" (VerificationID request)
    (rfc3339_nano (UTC (VerificationTimestamp request))) (Env_RunID (IR_Envelope mapped))
    (IR_ApprovedTaskID mapped) (Env_Attempt (IR_Envelope mapped)) (ExecutionArtifact request)
    (Exec_BaseCommit executionReport) candidate imageID results coverage passed in
  reportArtifact ← map_err (fun e => ErrWrap e "store verification report")
    (vf_storeContent env (marshalReport report));
  Ok (mkEvidence reportArtifact candidate coverage passed).

(** The workspace is removed in any case; a failure to remove it takes the
    place of the evidence, not of an earlier error. *)
Definition collectEvidence (env : vf_surroundings) (request : VerificationRequest)
    (mapped : ImplementationRequest) (executionReport : ExecutionReport) (plan : ResolvedPlan)
    : res VerificationEvidence :=
  prepared ← Prepare env (VerificationID request) (Vf_CandidateCommit request);
  evidence ← check_candidate env request mapped executionReport plan (fst prepared);
  snd prepared ;;
  Ok evidence.

End verification.
