(* ===== verification/VfCatalogProps.v ===== *)
(** * Which plans are resolved, and what a passed verification covers *)

From S2P Require Import Prelude GoStd GoText WfTypes CtCommon CtPlanning CtImplementation VfEvidence.

(** ** Catalogs *)

(** A catalog that was built: its definitions are valid, at most sixteen, and
    found by their identifiers. *)
Record catalog_ok (c : Catalog) : Prop := {
  co_valid : forall d, d ∈ definitions c -> validCheckDefinition d = true;
  co_size : (0 < length (definitions c) <= DefaultMaxChecks)%nat;
  co_distinct : NoDup (map Check_ID (definitions c));
  co_index : forall id, is_Some (byID c !! id) <-> id ∈ map Check_ID (definitions c);
}.

Lemma NewCatalog_loop_spec l c c' :
  NewCatalog_loop l c = Ok c' ->
  NoDup (map Check_ID (definitions c)) ->
  (forall id, is_Some (byID c !! id) <-> id ∈ map Check_ID (definitions c)) ->
  definitions c' = definitions c ++ l /\ Forall (fun d => validCheckDefinition d = true) l /\
  NoDup (map Check_ID (definitions c')) /\
  (forall id, is_Some (byID c' !! id) <-> id ∈ map Check_ID (definitions c')).
Proof.
  revert c. induction l as [|d l IH]; intros c; cbn [NewCatalog_loop]; intros Hr Hnd Hix.
  - injection Hr as <-. by rewrite app_nil_r.
  - destruct (negb _) eqn:Hv; [done|]. apply negb_false_iff in Hv.
    case_bool_decide as Hin; [done|]. apply IH in Hr as (Hd & Hall & Hnd' & Hix'); cbn in *.
    + rewrite Hd, <- app_assoc. split_and!; [done|by constructor|..]; by rewrite Hd, <- app_assoc in *.
    + rewrite map_app. apply NoDup_app. split_and!; [done| |apply NoDup_singleton].
      intros x Hx ->%list_elem_of_singleton. by apply Hin, Hix.
    + intros id. rewrite map_app, elem_of_app, <- Hix. cbn. rewrite list_elem_of_singleton.
      destruct (decide (id = Check_ID d)) as [->|Hne].
      * rewrite lookup_insert_eq. split; [by right|by eexists].
      * rewrite lookup_insert_ne by done. naive_solver.
Qed.

Lemma NewCatalog_spec l c : NewCatalog l = Ok c -> definitions c = l /\ catalog_ok c.
Proof.
  unfold NewCatalog. destruct (_ || _) eqn:E; [done|]. apply orb_false_iff in E as [E1 E2].
  apply Nat.eqb_neq in E1. apply Nat.ltb_ge in E2. intros Hr.
  apply NewCatalog_loop_spec in Hr as (Hd & Hall & Hnd & Hix); cbn in *; [|constructor|].
  - split; [done|]. split; [|rewrite Hd; lia|done..].
    intros d Hin. rewrite Hd in Hin. rewrite Forall_forall in Hall. by apply Hall.
  - intros id. rewrite lookup_empty, elem_of_nil. split; [by intros [? ?]|done].
Qed.

Example DefaultCatalog_valid : NewCatalog [make_check] = Ok DefaultCatalog.
Proof. vm_compute. reflexivity. Qed.

(** ** Resolution *)

Section resolve.
Context (c : Catalog).

Lemma resolve_checks_spec available ids seen selected out :
  resolve_checks c available ids seen selected = Ok out <->
  NoDup ids /\ (forall id, id ∈ ids -> (id ∉ seen) /\ id ∈ available /\ is_Some (byID c !! id)) /\
  out = list_to_set ids ∪ selected.
Proof.
  revert seen selected. induction ids as [|id ids IH]; intros seen selected; cbn [resolve_checks].
  - split.
    + intros [= <-]. split_and!; [constructor|by intros id ?%elem_of_nil|set_solver].
    + intros (_ & _ & ->). f_equal. set_solver.
  - repeat case_bool_decide.
    1-3: split; [done|]; intros (_ & Hall & _); destruct (Hall id) as (? & ? & [? ?]);
      [by left|congruence].
    rewrite IH, NoDup_cons. split.
    + intros (Hnd & Hall & ->). split_and!; [|done| |set_solver].
      * intros Hin. destruct (Hall id Hin) as [Hno _]. set_solver.
      * intros x [->|Hx]%elem_of_cons; [|destruct (Hall x Hx) as (? & ? & ?); set_solver].
        split_and!; [done|by destruct (decide (id ∈ available))|].
        destruct (byID c !! id); [by eexists|done].
    + intros ([Hno Hnd] & Hall & ->). split_and!; [done| |set_solver].
      intros x Hx. destruct (Hall x (list_elem_of_further _ _ _ Hx)) as (? & ? & ?).
      split_and!; [|done..]. intros [->%elem_of_singleton|?]%elem_of_union; done.
Qed.

(** One requirement: the checks are distinct, offered by the request and in the catalog. *)
Definition requirement_ok (available : list string) (r : AcceptanceRequirement) : Prop :=
  NoDup (CheckIDs r) /\
  forall id, id ∈ CheckIDs r -> id ∈ available /\ is_Some (byID c !! id).

Definition mapped_checks (requirements : list AcceptanceRequirement) : gset string :=
  list_to_set (concat (map CheckIDs requirements)).

Lemma resolve_requirements_spec available criteria requirements seen selected out :
  resolve_requirements c (list_to_set available) criteria requirements seen selected = Ok out <->
  NoDup (map CriterionID requirements) /\
  (forall r, r ∈ requirements -> CriterionID r ∈ criteria /\ (CriterionID r ∉ seen) /\
     requirement_ok available r) /\
  out = mapped_checks requirements ∪ selected.
Proof.
  revert seen selected. induction requirements as [|r rs IH]; intros seen selected;
    cbn [resolve_requirements].
  - split.
    + intros [= <-]. split_and!; [constructor|by intros id ?%elem_of_nil|set_solver].
    + intros (_ & _ & ->). f_equal. unfold mapped_checks. cbn. set_solver.
  - repeat case_bool_decide.
    1-2: split; [done|]; intros (_ & Hall & _); destruct (Hall r) as (? & ? & ?); [by left|done].
    rewrite res_bind_Ok. setoid_rewrite resolve_checks_spec. setoid_rewrite IH.
    cbn [map]. rewrite NoDup_cons. split.
    + intros (sel & (Hnd & Hids & ->) & Hnd' & Hall & ->). split_and!; [|done| |].
      * intros (r' & Hr' & Hin)%list_elem_of_fmap. destruct (Hall r' Hin) as (_ & Hno & _). set_solver.
      * intros r' [->|Hin]%elem_of_cons.
        { split; [by destruct (decide (CriterionID r ∈ criteria))|]. split; [done|]. split; [done|].
          intros id Hid. destruct (Hids id Hid) as (_ & Ha & Hc). by rewrite elem_of_list_to_set in Ha. }
        destruct (Hall r' Hin) as (? & ? & ?). split_and!; [done|set_solver|done].
      * unfold mapped_checks. cbn. rewrite list_to_set_app_L. set_solver.
    + intros ([Hno Hnd] & Hall & ->). eexists. split; [|split; [done|]; split].
      * destruct (Hall r) as (_ & _ & Hnd' & Hids); [by left|]. split_and!; [done| |done].
        intros id Hid. destruct (Hids id Hid). rewrite elem_of_list_to_set. set_solver.
      * intros r' Hin. destruct (Hall r') as (? & ? & ?); [by right|]. split_and!; [done| |done].
        intros [Heq%elem_of_singleton|?]%elem_of_union; [|done]. apply Hno. rewrite <- Heq.
        by apply list_elem_of_fmap_2.
      * unfold mapped_checks. cbn. rewrite list_to_set_app_L. set_solver.
Qed.

End resolve.

Lemma elem_of_mapped requirements id :
  id ∈ mapped_checks requirements <-> exists r, r ∈ requirements /\ id ∈ CheckIDs r.
Proof.
  unfold mapped_checks. rewrite elem_of_list_to_set, list_elem_of_In, in_concat.
  setoid_rewrite <- list_elem_of_In. split.
  - intros (ids & (r & -> & Hr)%list_elem_of_fmap & Hid). by exists r.
  - intros (r & Hr & Hid). exists (CheckIDs r). split; [by apply list_elem_of_fmap_2|done].
Qed.

(** With a catalog that [NewCatalog] built, the requirements of a request are resolved exactly
    when they name the approved criteria, each once, and every check they map is mapped once per
    criterion, offered by the request and trusted by the catalog; the plan then runs the mapped
    checks, each once and in the order of the catalog, and there are never too many of them. *)
Lemma resolve_exact l c request requirements plan :
  NewCatalog l = Ok c ->
  Resolve c request requirements = Ok plan <->
  map CriterionID requirements ≡ₚ IR_AcceptanceCriterionIDs request /\
  NoDup (map CriterionID requirements) /\
  (forall r, r ∈ requirements -> NoDup (CheckIDs r) /\
     forall id, id ∈ CheckIDs r -> id ∈ AvailableCheckIDs request /\ id ∈ map Check_ID l) /\
  plan = mkPlan (filter (fun d => Check_ID d ∈ mapped_checks requirements) l) requirements.
Proof.
  intros [Hdef Hok]%NewCatalog_spec. unfold Resolve. cbv zeta.
  destruct (negb _) eqn:Hlen.
  { apply negb_true_iff, Nat.eqb_neq in Hlen. split; [done|]. intros (Hp & _).
    apply Permutation_length in Hp. by rewrite length_map in Hp. }
  apply negb_false_iff, Nat.eqb_eq in Hlen.
  assert (Hsize : forall sel : gset string,
    (DefaultMaxChecks <? length (filter (fun d => Check_ID d ∈ sel) (definitions c)))%nat = false).
  { intros sel. apply Nat.ltb_ge. destruct (co_size c Hok) as [_ Hs].
    etrans; [apply length_filter|done]. }
  rewrite res_bind_Ok. setoid_rewrite resolve_requirements_spec. split.
  - intros (sel & (Hnd & Hall & ->) & Hr). rewrite Hsize, Hdef in Hr. injection Hr as <-.
    split_and!; [|done| |].
    + apply submseteq_length_Permutation; [|by rewrite length_map, Hlen].
      apply NoDup_submseteq; [done|]. intros id (r & -> & Hin)%list_elem_of_fmap.
      destruct (Hall r Hin) as (Hc & _). by rewrite elem_of_list_to_set in Hc.
    + intros r Hin. destruct (Hall r Hin) as (_ & _ & Hnd' & Hids). split; [done|].
      intros id Hid. destruct (Hids id Hid) as [? Hix]. split; [done|].
      apply (co_index c Hok) in Hix. by rewrite Hdef in Hix.
    + do 2 f_equal. by rewrite (right_id_L ∅ (∪)).
  - intros (Hp & Hnd & Hall & ->). eexists. split; [split; [done|]; split; [|done]|].
    + intros r Hin. destruct (Hall r Hin) as [Hnd' Hids]. split_and!; [|set_solver|split; [done|]].
      * rewrite elem_of_list_to_set, <- Hp. by apply list_elem_of_fmap_2.
      * intros id Hid. destruct (Hids id Hid) as [? Hix]. split; [done|].
        apply (co_index c Hok). by rewrite Hdef.
    + rewrite Hsize, Hdef. by rewrite (right_id_L ∅ (∪)).
Qed.

(** ** Coverage *)

Lemma passed_checks_lookup results id :
  NoDup (map Result_CheckID results) ->
  default false (passed_checks results !! id) = true <->
  exists r, r ∈ results /\ Result_CheckID r = id /\ Check_Passed r = true.
Proof.
  unfold passed_checks. intros Hnd.
  assert (Hgen : forall l (m : gmap string bool), NoDup (map Result_CheckID l) ->
    foldl (fun m r => <[Result_CheckID r := Check_Passed r]> m) m l !! id =
    match find (fun r => Result_CheckID r == id) l with Some r => Some (Check_Passed r) | None => m !! id end).
  { clear results Hnd. induction l as [|r l IH]; intros m Hnd; [done|].
    cbn [map] in Hnd. apply NoDup_cons in Hnd as [Hno Hnd]. cbn [foldl find]. rewrite IH by done.
    case_bool_decide as Heq.
    - destruct (find _ l) as [r'|] eqn:Hf; [|by rewrite <- Heq, lookup_insert_eq].
      apply find_some in Hf as [Hin Hf]. apply bool_decide_eq_true in Hf. destruct Hno.
      rewrite Heq, <- Hf. apply list_elem_of_fmap_2. by apply list_elem_of_In.
    - destruct (find _ l); [done|]. by rewrite lookup_insert_ne. }
  rewrite Hgen, lookup_empty by done. destruct (find _ results) as [r|] eqn:Hf.
  - apply find_some in Hf as [Hin Hf]. apply list_elem_of_In in Hin.
    apply bool_decide_eq_true in Hf. cbn. split; [by exists r|]. intros (r' & Hr' & Hid & Hp).
    enough (r' = r) by congruence. clear -Hnd Hin Hr' Hid Hf. subst id.
    apply list_elem_of_lookup in Hin as [i Hi]. apply list_elem_of_lookup in Hr' as [j Hj].
    assert (i = j); [|subst; congruence]. rewrite NoDup_alt in Hnd.
    apply (Hnd i j (Result_CheckID r')); rewrite list_lookup_fmap; [by rewrite Hi; cbn; f_equal|by rewrite Hj].
  - cbn. split; [done|]. intros (r & Hin & Hid & _). apply list_elem_of_In in Hin.
    pose proof (find_none _ _ Hf r Hin) as Hno. by rewrite bool_decide_eq_false in Hno.
Qed.

Lemma filtered_ids_distinct (P : CheckDefinition -> Prop) `{!forall d, Decision (P d)} l :
  NoDup (map Check_ID l) -> NoDup (map Check_ID (filter P l)).
Proof.
  induction l as [|d l IH]; [done|]. cbn [map]. intros [Hno Hnd]%NoDup_cons. rewrite filter_cons.
  case_decide; [|by apply IH]. cbn [map]. apply NoDup_cons. split; [|by apply IH].
  intros (d' & Heq & [_ Hin]%list_elem_of_filter)%list_elem_of_fmap. apply Hno. rewrite Heq.
  by apply list_elem_of_fmap_2.
Qed.

(** Over results of distinct checks, the verdict is positive exactly when every criterion has at
    least one check and all its checks have a result that passed; the coverage lists the criteria of
    the requirements in their order, with their checks. *)
Lemma coverage_exact requirements results :
  NoDup (map Result_CheckID results) ->
  map (fun c => mkRequirement (Coverage_CriterionID c) (Coverage_CheckIDs c))
    (fst (CalculateCoverage requirements results)) = requirements /\
  (snd (CalculateCoverage requirements results) = true <->
   forall r, r ∈ requirements -> CheckIDs r <> [] /\
     forall id, id ∈ CheckIDs r -> exists result, result ∈ results /\ Result_CheckID result = id /\
       Check_Passed result = true).
Proof.
  intros Hnd. unfold CalculateCoverage. cbn [fst snd]. split.
  { rewrite map_map. rewrite <- (map_id requirements) at 2. apply map_ext. by intros []. }
  rewrite forallb_forall. setoid_rewrite in_map_iff.
  assert (Hcov : forall r, Covered (cover_requirement (passed_checks results) r) &&
      Coverage_Passed (cover_requirement (passed_checks results) r) = true <->
    CheckIDs r <> [] /\ forall id, id ∈ CheckIDs r -> exists result, result ∈ results /\
      Result_CheckID result = id /\ Check_Passed result = true).
  { intros r. unfold cover_requirement. cbn [Covered Coverage_Passed].
    rewrite !andb_true_iff, forallb_forall, Nat.ltb_lt.
    setoid_rewrite <- list_elem_of_In. setoid_rewrite passed_checks_lookup; [|done].
    destruct (CheckIDs r); cbn; split; [intros [? _]; lia|by intros []| |]; intros Hx;
      naive_solver lia. }
  setoid_rewrite <- Hcov. split.
  - intros Hall r Hr. apply Hall. exists r. split; [done|by apply list_elem_of_In].
  - intros Hall x (r & <- & Hr). apply Hall. by apply list_elem_of_In.
Qed.
