(* ===== verification/VfService.v ===== *)
(** * The ledger and the service of verifications *)

From S2P Require Import Prelude GoStd GoJson WfTypes WfDigest WfDb WfStore Interleave.
From S2P Require Import CtImplementation ExRequest VfEvidence PgRetry WfTask WfRun.
From S2P Require Import WfReplay WfInvariants CtMessages CtCommon.

(** * The ledger of verifications

    Models [go/internal/verification/repository.go] and the table of
    [migrations/0010_verification_ledger.sql]: a row is reserved for an owner
    until a deadline, then holds evidence, then is completed.  A reservation
    past its deadline goes to the next owner that asks.  The trigger of the
    table refuses only changes that no statement below makes.  The primary key
    and the owner are uuid columns. *)

(** ** The table *)

Inductive verification_state :=
| VfReserved
| EvidenceReady (evidence : json)
| VfCompleted (evidence result : json).

Record verification_row := mkVerificationRow {
  vr_request_digest : string;
  vr_owner : string;
  vr_reserved_until : Z;
  vr_timestamp : Z;
  vr_final : option Z;
  vr_state : verification_state;
}.

Abbreviation verifications := (gmap string verification_row).

Definition set_vr_state (st : verification_state) (r : verification_row) : verification_row :=
  mkVerificationRow (vr_request_digest r) (vr_owner r) (vr_reserved_until r) (vr_timestamp r)
    (vr_final r) st.

Definition set_vr_final (final : option Z) (r : verification_row) : verification_row :=
  mkVerificationRow (vr_request_digest r) (vr_owner r) (vr_reserved_until r) (vr_timestamp r)
    final (vr_state r).

Definition set_vr_owner (owner : string) (until : Z) (r : verification_row) : verification_row :=
  mkVerificationRow (vr_request_digest r) owner until (vr_timestamp r) (vr_final r) (vr_state r).

(** ** Results and evidence as JSON *)

Record VerificationResult := mkVerificationResult {
  VResult_VerificationID : string;
  VResult_CandidateCommit : string;
  VResult_ReportArtifact : ArtifactRef;
  VResult_Coverage : list CriterionCoverage;
  VResult_Passed : bool;
  VResult_Replay : bool;
}.

Definition evidence_json (e : VerificationEvidence) : json :=
  JObj [("ReportArtifact", artifact_json (Evidence_ReportArtifact e));
    ("CandidateCommit", JStr (Evidence_CandidateCommit e));
    ("Coverage", slice_json coverage_json (Evidence_Coverage e));
    ("Passed", JBool (Evidence_Passed e))].

Definition result_json (r : VerificationResult) : json :=
  JObj [("VerificationID", JStr (VResult_VerificationID r));
    ("CandidateCommit", JStr (VResult_CandidateCommit r));
    ("ReportArtifact", artifact_json (VResult_ReportArtifact r));
    ("Coverage", slice_json coverage_json (VResult_Coverage r));
    ("Passed", JBool (VResult_Passed r)); ("Replay", JBool (VResult_Replay r))].

Definition decode_coverage (v : json) : res CriterionCoverage :=
  match v with
  | JObj fields =>
      criterion ← decode_string (json_field "criterion_id" fields);
      checks ← decode_strings (json_field "check_ids" fields);
      covered ← decode_bool (json_field "covered" fields);
      passed ← decode_bool (json_field "passed" fields);
      Ok (mkCoverage criterion checks covered passed)
  | JNull => Ok (mkCoverage "" [] false false)
  | _ => Err json_error
  end.

Definition decode_coverages (v : option json) : res (list CriterionCoverage) :=
  match v with
  | None | Some JNull => Ok []
  | Some (JArr l) => map_each decode_coverage l
  | Some _ => Err json_error
  end.

Definition decode_evidence (v : json) : res VerificationEvidence :=
  match v with
  | JObj fields =>
      artifact ← decode_artifact_value (json_field "ReportArtifact" fields);
      candidate ← decode_string (json_field "CandidateCommit" fields);
      coverage ← decode_coverages (json_field "Coverage" fields);
      passed ← decode_bool (json_field "Passed" fields);
      Ok (mkEvidence artifact candidate coverage passed)
  | JNull => Ok (mkEvidence (mkArtifactRef "" "") "" [] false)
  | _ => Err json_error
  end.

Definition decode_verification_result (v : json) : res VerificationResult :=
  match v with
  | JObj fields =>
      id ← decode_string (json_field "VerificationID" fields);
      candidate ← decode_string (json_field "CandidateCommit" fields);
      artifact ← decode_artifact_value (json_field "ReportArtifact" fields);
      coverage ← decode_coverages (json_field "Coverage" fields);
      passed ← decode_bool (json_field "Passed" fields);
      replay ← decode_bool (json_field "Replay" fields);
      Ok (mkVerificationResult id candidate artifact coverage passed replay)
  | JNull => Ok (mkVerificationResult "" "" (mkArtifactRef "" "") [] false false)
  | _ => Err json_error
  end.

(** ** Statements *)

Record VerificationStart := mkVerificationStart {
  Start_VerificationID : string;
  Vf_RequestDigest : string;
  Start_Timestamp : time;
  Start_ReservationTTL : Z;
}.

Record vf_handle := mkVfHandle {
  vh_id : string;
  vh_digest : string;
  vh_owner : string;
  vh_replay : option VerificationResult;
  vh_evidence : option VerificationEvidence;
}.

Definition VfHandle_Replay (h : vf_handle) : option VerificationResult := vh_replay h.
Definition VfHandle_Evidence (h : vf_handle) : option VerificationEvidence := vh_evidence h.

Definition ownedHandle (id digest owner : string) : vf_handle := mkVfHandle id digest owner None None.

Section statements.
Context `{Platform}.
(** [make_interval(secs => d.Seconds())] in microseconds. *)
Variable interval_us : Z -> Z.

(** [INSERT ... ON CONFLICT (verification_id) DO NOTHING]: whether a row went in. *)
Definition insert_verification (start : VerificationStart) (owner : string) (clock : Z)
    : tx verifications bool :=
  digest ← tx_lift (text_column (Vf_RequestDigest start));
  owner ← tx_lift (uuid_param owner);
  if negb (match_hex 64 digest) then tx_err check_violation
  else
    insert_absent (Start_VerificationID start)
      (mkVerificationRow digest owner (clock + interval_us (Start_ReservationTTL start))
         (time_column (Start_Timestamp start)) None VfReserved).

Definition readReservation (verificationID : string) (s : verifications)
    : res (option verification_row) :=
  select_row verificationID s.

(** The handle of a row that needs no owner; [None] for one that is reserved. *)
Definition handleExistingReservation (record : verification_row) (start : VerificationStart)
    : res (option vf_handle) :=
  if vr_request_digest record != Vf_RequestDigest start then Err ErrVerificationConflict
  else
    match vr_state record with
    | VfCompleted _ result =>
        result ← map_err (fun e => ErrWrap e "decode completed verification")
          (decode_verification_result result);
        Ok (Some (mkVfHandle "" "" "" (Some result) None))
    | EvidenceReady evidence =>
        evidence ← map_err (fun e => ErrWrap e "decode verification evidence")
          (decode_evidence evidence);
        Ok (Some (mkVfHandle (Start_VerificationID start) (vr_request_digest record)
                    (vr_owner record) None (Some evidence)))
    | VfReserved => Ok None
    end.

Definition is_reserved (r : verification_row) : bool :=
  match vr_state r with VfReserved => true | _ => false end.

Definition has_evidence (r : verification_row) : bool :=
  match vr_state r with EvidenceReady _ => true | _ => false end.

Definition recoverReservation (start : VerificationStart) (owner : string) (clock : Z)
    : tx verifications bool :=
  owner ← tx_lift (uuid_param owner);
  digest ← tx_lift (text_column (Vf_RequestDigest start));
  updated ← update_where (Start_VerificationID start)
    (fun r => (vr_request_digest r == digest) && is_reserved r && (vr_reserved_until r <=? clock))
    (fun _ => true)
    (set_vr_owner owner (clock + interval_us (Start_ReservationTTL start)));
  mret (bool_decide (is_Some updated)).

(** The row of a handle: its digest and its owner. *)
Definition owned_by (h : vf_handle) (owner : string) (r : verification_row) : bool :=
  (vr_request_digest r == vh_digest h) && (vr_owner r == owner).

Definition update_owned (h : vf_handle) (matches : verification_row -> bool)
    (f : verification_row -> verification_row) : tx verifications (option verification_row) :=
  owner ← tx_lift (uuid_param (vh_owner h));
  update_where (vh_id h) (fun r => owned_by h owner r && matches r) (fun _ => true) f.

Definition save_evidence (h : vf_handle) (evidence : VerificationEvidence)
    : tx verifications (option verification_row) :=
  body ← tx_lift (jsonb_column (evidence_json evidence));
  update_owned h is_reserved (set_vr_state (EvidenceReady body)).

Definition SaveEvidence (w : reply) (h : vf_handle) (evidence : VerificationEvidence)
    (s : verifications) : res vf_handle * verifications :=
  match statement w (save_evidence h evidence) s with
  | (Err e, s') => (Err (ErrWrap e "checkpoint verification evidence"), s')
  | (Ok None, s') => (Err ErrVerificationConflict, s')
  | (Ok (Some _), s') =>
      (Ok (mkVfHandle (vh_id h) (vh_digest h) (vh_owner h) (vh_replay h) (Some evidence)), s')
  end.

(** [UPDATE ... SET final_transition_at=COALESCE(final_transition_at,$4) ... RETURNING]. *)
Definition FinalTransitionTime (w : reply) (h : vf_handle) (value : time) (s : verifications)
    : res time * verifications :=
  match statement w (update_owned h has_evidence (fun r =>
          set_vr_final (Some (default (time_column (UTC value)) (vr_final r))) r)) s with
  | (Err e, s') => (Err (ErrWrap e "record verification transition time"), s')
  | (Ok None, s') => (Err ErrVerificationConflict, s')
  | (Ok (Some r), s') => (Ok (scan_time (default 0 (vr_final r))), s')
  end.

Definition completed_row (result : json) (r : verification_row) : verification_row :=
  match vr_state r with
  | EvidenceReady evidence => set_vr_state (VfCompleted evidence result) r
  | _ => r
  end.

Definition complete_verification (h : vf_handle) (result : VerificationResult)
    : tx verifications (option verification_row) :=
  body ← tx_lift (jsonb_column (result_json result));
  update_owned h (fun r => has_evidence r && bool_decide (is_Some (vr_final r)))
    (completed_row body).

Definition CompleteVerification (w : reply) (h : vf_handle) (result : VerificationResult)
    (s : verifications) : res unit * verifications :=
  match statement w (complete_verification h result) s with
  | (Err e, s') => (Err (ErrWrap e "complete verification ledger"), s')
  | (Ok None, s') => (Err ErrVerificationConflict, s')
  | (Ok (Some _), s') => (Ok tt, s')
  end.

End statements.

(** * The verification service over its ledger and the workflow store

    Models [Service.Verify] of [go/internal/verification/service.go] with
    [Begin] of [repository.go].  A call has passed the validation when it comes
    in; its phase says where it stands.  A step is one statement of the ledger,
    the collection of the evidence, or the execution of the command by the
    workflow store.  A call that loses its row to another owner looks for the
    result of that owner ([completedReplay]): the second run of [Begin]. *)

(** ** A call *)

(** What [Begin] is run for; a replay that is not found gives the error. *)
Inductive purpose := ToVerify | ToReplay (cause : error).

Inductive vf_phase :=
| VfInserting (p : purpose)
| VfReading (p : purpose) (owner : string)
| VfRecovering (p : purpose) (owner : string)
| VfBegun (h : vf_handle)
| VfSaving (h : vf_handle) (evidence : VerificationEvidence)
| VfTiming (h : vf_handle) (evidence : VerificationEvidence)
| VfRecording (h : vf_handle) (evidence : VerificationEvidence) (timestamp : time)
| VfFinishing (h : vf_handle) (result : VerificationResult)
| VfReturned (r : res VerificationResult).

Record vf_call := mkVfCall {
  vc_request : VerificationRequest;
  vc_mapped : ImplementationRequest;
  vc_report : ExecutionReport;
  vc_plan : ResolvedPlan;
  vc_digest : string;
  vc_phase : vf_phase;
}.

Definition vf_at (p : vf_phase) (c : vf_call) : vf_call :=
  mkVfCall (vc_request c) (vc_mapped c) (vc_report c) (vc_plan c) (vc_digest c) p.

(** What a step meets. *)
Record vf_circumstances := mkVfCircumstances {
  vx_around : vf_surroundings;
  vx_reply : reply;
  vx_clock : Z;                       (** the clock of the database, in microseconds *)
  vx_now : time;                      (** the clock of the process *)
  vx_owner : string;                  (** the next [uuid.NewString] *)
  vx_cancelled : option error;        (** [ctx.Done] where the call waits *)
  vx_climate : nat -> weather;
  vx_ctx_done : nat -> option error;
}.

(** The surroundings that a step meets are among the [possible] ones. *)
Definition vf_fair_in `{Platform} (possible : vf_surroundings -> Prop) (x : vf_circumstances) : Prop :=
  fair_climate (vx_climate x) /\ possible (vx_around x).

Definition vf_fair `{Platform} : vf_circumstances -> Prop := vf_fair_in anything.

Definition vf_replayed (r : VerificationResult) : VerificationResult :=
  mkVerificationResult (VResult_VerificationID r) (VResult_CandidateCommit r)
    (VResult_ReportArtifact r) (VResult_Coverage r) (VResult_Passed r) true.

Section service.
Context `{Platform} `{Protobuf} `{Wire}.
Variable interval_us : Z -> Z.
Variable config : VerificationConfig.

(** The entry of [Verify], up to the ledger. *)
Definition Verify_entry (env : vf_surroundings) (now : time) (request : VerificationRequest)
    : res vf_call :=
  checked ← vf_validateRequest config env now request;
  let '(mapped, report, plan) := checked in
  digest ← verificationRequestDigest request;
  Ok (mkVfCall request mapped report plan digest (VfInserting ToVerify)).

Definition vf_start (c : vf_call) : VerificationStart :=
  mkVerificationStart (VerificationID (vc_request c)) (vc_digest c)
    (VerificationTimestamp (vc_request c)) (Vf_ReservationTTL config).

(** [Begin] gives a handle. *)
Definition vf_given (p : purpose) (h : vf_handle) : vf_phase :=
  match p with
  | ToVerify => VfBegun h
  | ToReplay cause =>
      match VfHandle_Replay h with
      | Some replay => VfReturned (Ok (vf_replayed replay))
      | None => VfReturned (Err cause)
      end
  end.

(** [Begin] fails. *)
Definition vf_refused (p : purpose) (e : error) : vf_phase :=
  match p with ToVerify => VfReturned (Err e) | ToReplay cause => VfReturned (Err cause) end.

(** The ledger refuses the handle: another owner may have completed the row. *)
Definition vf_overtaken (e cause : error) : vf_phase :=
  if errors_Is e ErrVerificationConflict then VfInserting (ToReplay cause)
  else VfReturned (Err cause).

Definition vf_begun (x : vf_circumstances) (c : vf_call) (h : vf_handle) : vf_phase :=
  match VfHandle_Replay h with
  | Some replay => VfReturned (Ok (vf_replayed replay))
  | None =>
      match VfHandle_Evidence h with
      | Some evidence => VfTiming h evidence
      | None =>
          match vx_cancelled x with
          | Some e => VfReturned (Err e)
          | None =>
              match collectEvidence (vx_around x) (vc_request c) (vc_mapped c) (vc_report c)
                      (vc_plan c) with
              | Ok evidence => VfSaving h evidence
              | Err e => VfReturned (Err e)
              end
          end
      end
  end.

Definition vf_id (verificationID label : string) : string :=
  uuid_NewSHA1 "6ba7b811-9dad-11d1-80b4-00c04fd430c8"
    ("harness:verification:" +:+ verificationID +:+ ":" +:+ label).

Definition vf_commandEnvelope (verificationID : string) (revision : Z) (timestamp : time)
    : CommandEnvelope :=
  mkEnvelope (vf_id verificationID "record") (mkActor (Vf_ActorID config) ActorVerificationService)
    revision timestamp (vf_id verificationID "correlation") (vf_id verificationID "record:cause").

Definition verification_command (c : vf_call) (evidence : VerificationEvidence) (timestamp : time)
    : TaskCommand :=
  RecordTaskVerification
    (vf_commandEnvelope (VerificationID (vc_request c)) (Vf_ExpectedTaskRevision (vc_request c))
       timestamp)
    (Env_RunID (IR_Envelope (vc_mapped c))) (IR_ApprovedTaskID (vc_mapped c))
    (Vf_CandidateCommit (vc_request c)) (Evidence_ReportArtifact evidence) (Evidence_Passed evidence).

Definition verification_result (c : vf_call) (evidence : VerificationEvidence)
    (recorded : CommandResult) : VerificationResult :=
  mkVerificationResult (VerificationID (vc_request c)) (Vf_CandidateCommit (vc_request c))
    (Evidence_ReportArtifact evidence) (Evidence_Coverage evidence) (Evidence_Passed evidence)
    (Replay recorded).

(** The three statements of [beginAttempt], each with the phase it leads to. *)
Definition vf_insert (x : vf_circumstances) (c : vf_call) (p : purpose) (s : verifications)
    : vf_phase * verifications :=
  if Vf_ReservationTTL config <=? 0
  then (vf_refused p (ErrText "positive reservation TTL is required"), s)
  else
    match statement (vx_reply x)
            (insert_verification interval_us (vf_start c) (vx_owner x) (vx_clock x)) s with
    | (Err e, s') => (vf_refused p (ErrWrap e "reserve verification"), s')
    | (Ok true, s') =>
        (vf_given p (ownedHandle (VerificationID (vc_request c)) (vc_digest c) (vx_owner x)), s')
    | (Ok false, s') => (VfReading p (vx_owner x), s')
    end.

Definition vf_read (x : vf_circumstances) (c : vf_call) (p : purpose) (owner : string)
    (s : verifications) : vf_phase :=
  match query (vx_reply x) (readReservation (VerificationID (vc_request c))) s with
  | Err e => vf_refused p (ErrWrap e "read verification reservation")
  | Ok None => VfInserting p
  | Ok (Some record) =>
      match handleExistingReservation record (vf_start c) with
      | Err e => vf_refused p e
      | Ok (Some h) => vf_given p h
      | Ok None => VfRecovering p owner
      end
  end.

(** A call that waits for the owner looks again. *)
Definition vf_recover (x : vf_circumstances) (c : vf_call) (p : purpose) (owner : string)
    (s : verifications) : vf_phase * verifications :=
  match statement (vx_reply x) (recoverReservation interval_us (vf_start c) owner (vx_clock x)) s with
  | (Err e, s') => (vf_refused p (ErrWrap e "recover verification reservation"), s')
  | (Ok true, s') =>
      (vf_given p (ownedHandle (VerificationID (vc_request c)) (vc_digest c) owner), s')
  | (Ok false, s') =>
      match vx_cancelled x with
      | Some e => (vf_refused p e, s')
      | None => (VfInserting p, s')
      end
  end.

Definition vf_step (x : vf_circumstances) (c : vf_call) (s : verifications) (w : db)
    : vf_call * verifications * db :=
  match vc_phase c with
  | VfInserting p => let '(q, s') := vf_insert x c p s in (vf_at q c, s', w)
  | VfReading p owner => (vf_at (vf_read x c p owner s) c, s, w)
  | VfRecovering p owner => let '(q, s') := vf_recover x c p owner s in (vf_at q c, s', w)
  | VfBegun h => (vf_at (vf_begun x c h) c, s, w)
  | VfSaving h evidence =>
      match SaveEvidence (vx_reply x) h evidence s with
      | (Ok h', s') => (vf_at (VfTiming h' evidence) c, s', w)
      | (Err e, s') =>
          (vf_at (VfReturned (Err (ErrWrap e "checkpoint verification evidence"))) c, s', w)
      end
  | VfTiming h evidence =>
      match FinalTransitionTime (vx_reply x) h (UTC (vx_now x)) s with
      | (Ok timestamp, s') => (vf_at (VfRecording h evidence timestamp) c, s', w)
      | (Err e, s') =>
          (vf_at (vf_overtaken e (ErrWrap e "reserve verification transition timestamp")) c, s', w)
      end
  | VfRecording h evidence timestamp =>
      match ExecuteTask (vx_climate x) (vx_ctx_done x) (verification_command c evidence timestamp) w with
      | (Ok recorded, w') =>
          (vf_at (VfFinishing h (verification_result c evidence recorded)) c, s, w')
      | (Err e, w') => (vf_at (VfReturned (Err (ErrWrap e "record task verification"))) c, s, w')
      end
  | VfFinishing h result =>
      match CompleteVerification (vx_reply x) h result s with
      | (Ok _, s') => (vf_at (VfReturned (Ok result)) c, s', w)
      | (Err e, s') => (vf_at (vf_overtaken e (ErrWrap e "finalize verification ledger")) c, s', w)
      end
  | VfReturned r => (c, s, w)
  end.

(** The calls that come in: those that passed the validation. *)
Definition vf_enters_in (possible : vf_surroundings -> Prop) (c : vf_call) : Prop :=
  exists env now request, possible env /\ Verify_entry env now request = Ok c.

Definition vf_enters : vf_call -> Prop := vf_enters_in anything.

(** A system that started with an empty ledger of verifications, and whose calls met none but
    [possible] surroundings, at their entry and at their steps: what holds for every such
    predicate holds for the one that accepts exactly what this history met. *)
Definition verifying_in (possible : vf_surroundings -> Prop) (sys : world verifications vf_call) : Prop :=
  started vf_step (vf_enters_in possible) (vf_fair_in possible) ∅ sys.

Definition verifying : world verifications vf_call -> Prop := verifying_in anything.

End service.
