(* ===== verification/VfInvariants.v ===== *)
(** * How the ledger of verifications evolves and what it keeps true *)

From S2P Require Import Prelude GoStd GoJson GoText WfTypes WfDigest WfDb WfStore.
From S2P Require Import WfStoreLemmas WfReplay Interleave CtImplementation ExRequest VfEvidence.
From S2P Require Import VfService PgRetry WfTask WfRun WfInvariants.
From S2P Require Import CtMessages CtCommon.

(** * What the statements of the verification ledger do

    Evidence and results as they are read back, and the change that each
    statement makes to its row. *)

(** ** Read back *)

Definition clean_coverage (c : CriterionCoverage) : CriterionCoverage :=
  mkCoverage (sanitize (Coverage_CriterionID c)) (map sanitize (Coverage_CheckIDs c)) (Covered c)
    (Coverage_Passed c).

Definition clean_evidence (e : VerificationEvidence) : VerificationEvidence :=
  mkEvidence (clean_artifact (Evidence_ReportArtifact e)) (sanitize (Evidence_CandidateCommit e))
    (map clean_coverage (Evidence_Coverage e)) (Evidence_Passed e).

Definition clean_result (r : VerificationResult) : VerificationResult :=
  mkVerificationResult (sanitize (VResult_VerificationID r)) (sanitize (VResult_CandidateCommit r))
    (clean_artifact (VResult_ReportArtifact r)) (map clean_coverage (VResult_Coverage r))
    (VResult_Passed r) (VResult_Replay r).

Lemma decode_coverage_clean c : decode_coverage (json_trip (coverage_json c)) = Ok (clean_coverage c).
Proof.
  unfold coverage_json. cbn [json_trip map decode_coverage]. find_fields.
  by rewrite decode_slice_strings.
Qed.

Lemma decode_coverages_clean l :
  decode_coverages (Some (json_trip (slice_json coverage_json l))) = Ok (map clean_coverage l).
Proof.
  destruct l as [|c l]; [done|]. unfold slice_json. cbn [json_trip].
  change (map_each decode_coverage (map json_trip (map coverage_json (c :: l))) =
    Ok (map clean_coverage (c :: l))).
  apply map_each_Ok. generalize (c :: l). induction l0 as [|d k IH]; constructor; [|done].
  apply decode_coverage_clean.
Qed.

Lemma decode_evidence_clean e : decode_evidence (json_trip (evidence_json e)) = Ok (clean_evidence e).
Proof.
  unfold evidence_json. cbn [json_trip map]. unfold decode_evidence. find_fields.
  rewrite decode_artifact_clean, decode_coverages_clean. done.
Qed.

Lemma decode_result_clean r :
  decode_verification_result (json_trip (result_json r)) = Ok (clean_result r).
Proof.
  unfold result_json. cbn [json_trip map]. unfold decode_verification_result. find_fields.
  rewrite decode_artifact_clean, decode_coverages_clean. done.
Qed.

(** ** What a verification found *)

(** The report, the coverage and the verdict, as the database keeps them. *)
Definition outcome (e : VerificationEvidence) : ArtifactRef * list CriterionCoverage * bool :=
  (clean_artifact (Evidence_ReportArtifact e), map clean_coverage (Evidence_Coverage e),
   Evidence_Passed e).

Definition evidence_of (r : VerificationResult) : VerificationEvidence :=
  mkEvidence (VResult_ReportArtifact r) (VResult_CandidateCommit r) (VResult_Coverage r)
    (VResult_Passed r).

Lemma outcome_clean e : outcome (clean_evidence e) = outcome e.
Proof.
  assert (Hs : forall l, map sanitize (map sanitize l) = map sanitize l).
  { intros l. rewrite map_map. apply map_ext. apply sanitize_idem. }
  assert (Hc : forall l, map clean_coverage (map clean_coverage l) = map clean_coverage l).
  { intros l. rewrite map_map. apply map_ext. intros c. unfold clean_coverage.
    cbn [Coverage_CriterionID Coverage_CheckIDs Covered Coverage_Passed].
    by rewrite sanitize_idem, Hs. }
  unfold outcome, clean_evidence.
  cbn [Evidence_ReportArtifact Evidence_Coverage Evidence_Passed]. rewrite Hc.
  unfold clean_artifact. cbn [URI Digest].
  by rewrite !sanitize_idem.
Qed.

Lemma evidence_of_clean r : evidence_of (clean_result r) = clean_evidence (evidence_of r).
Proof. done. Qed.

(** ** The change to the row *)

Definition row_evidence (r : verification_row) : option json :=
  match vr_state r with
  | VfReserved => None
  | EvidenceReady evidence | VfCompleted evidence _ => Some evidence
  end.

Section ledger.
Context `{Platform}.
Variable interval_us : Z -> Z.

Lemma insert_verification_Ok start owner clock s b s' :
  insert_verification interval_us start owner clock s = Ok (b, s') ->
  exists k, uuid_column (Start_VerificationID start) = Some k /\
    ((b = true /\ s !! k = None /\ exists r, s' = <[k := r]> s /\
        vr_request_digest r = Vf_RequestDigest start /\ vr_state r = VfReserved /\
        vr_final r = None) \/
     (b = false /\ s' = s)).
Proof.
  unfold insert_verification. intros Hr.
  apply tx_bind_Ok in Hr as (digest & s1 & [->%text_column_Ok ->]%tx_lift_Ok & Hr).
  apply tx_bind_Ok in Hr as (o & s1 & [_ ->]%tx_lift_Ok & Hr).
  destruct (negb _); [done|].
  apply insert_absent_Ok in Hr as (k & Hk & [(-> & Hn & ->)|[-> ->]]); exists k; (split; [done|]);
    [left|by right]. split_and!; [done..|]. by eexists.
Qed.

(** An update of the row of a handle. *)
Lemma update_owned_Ok h matches f s o s' :
  update_owned h matches f s = Ok (o, s') ->
  (o = None /\ s' = s) \/
  exists k r, uuid_column (vh_id h) = Some k /\ s !! k = Some r /\
    vr_request_digest r = vh_digest h /\ matches r = true /\ o = Some (f r) /\ s' = <[k := f r]> s.
Proof.
  unfold update_owned. intros (owner & s1 & [_ ->]%tx_lift_Ok & Hr)%tx_bind_Ok.
  apply update_where_Ok in Hr as [?|(k & r & Hk & Hrow & Hm & _ & -> & ->)]; [by left|right].
  apply andb_true_iff in Hm as [Ho Hm]. unfold owned_by in Ho.
  apply andb_true_iff in Ho as [Hd%bool_decide_eq_true _]. by exists k, r.
Qed.

End ledger.

(** * The invariant of running verifications

    The evidence of a row was collected by a call whose request has the digest
    of the row; it never changes, nor does the time of its transition; and what
    a call records or returns is the outcome of its row. *)

Section invariant.
Context `{Platform} `{Protobuf} `{Wire}.
Variable interval_us : Z -> Z.
Variable config : VerificationConfig.

(** The surroundings that the calls of the history may meet. *)
Variable possible : vf_surroundings -> Prop.

Local Abbreviation vf_step := (vf_step interval_us config).

(** ** Rows *)

(** The evidence that was collected for this identifier and this digest, in
    possible surroundings. *)
Definition collected (k digest : string) (e : VerificationEvidence) : Prop :=
  exists c env now env', possible env /\ possible env' /\
    Verify_entry config env now (vc_request c) = Ok (vf_at (VfInserting ToVerify) c) /\
    uuid_column (VerificationID (vc_request c)) = Some k /\ vc_digest c = digest /\
    collectEvidence env' (vc_request c) (vc_mapped c) (vc_report c) (vc_plan c) = Ok e.

(** The evidence [ev] of a row is what is kept of [e]. *)
Definition keeps (ev : json) (e : VerificationEvidence) : Prop :=
  exists e0, decode_evidence ev = Ok e0 /\ outcome e0 = outcome e.

Definition row_ok (k : string) (r : verification_row) : Prop :=
  (forall ev, row_evidence r = Some ev ->
    exists e, collected k (vr_request_digest r) e /\ keeps ev e) /\
  (forall ev result, vr_state r = VfCompleted ev result ->
    exists v, decode_verification_result result = Ok v /\ keeps ev (evidence_of v)).

Definition rows_ok : verifications -> Prop := table_ok row_ok.

(** What a step may do to the rows. *)
Definition row_evolves (r r' : verification_row) : Prop :=
  vr_request_digest r' = vr_request_digest r /\
  (forall ev, row_evidence r = Some ev -> row_evidence r' = Some ev) /\
  (forall t, vr_final r = Some t -> vr_final r' = Some t).

Definition evolves : verifications -> verifications -> Prop := table_evolves row_evolves.

#[global] Instance row_evolves_preorder : PreOrder row_evolves.
Proof.
  split; [by intros r|]. intros r1 r2 r3 (D1 & E1 & F1) (D2 & E2 & F2).
  split; [by rewrite D2|]. split; auto.
Qed.

#[global] Instance evolves_preorder : PreOrder evolves.
Proof. apply (table_evolves_preorder row_evolves). Qed.

(** ** Calls *)

Definition row_of (s : verifications) (c : vf_call) (r : verification_row) : Prop :=
  exists k, uuid_column (VerificationID (vc_request c)) = Some k /\ s !! k = Some r /\
    vr_request_digest r = vc_digest c.

(** The row of the call holds evidence with this outcome. *)
Definition recorded (s : verifications) (c : vf_call) (e : VerificationEvidence) : Prop :=
  exists r ev, row_of s c r /\ row_evidence r = Some ev /\ keeps ev e.

(** The row of the call has this transition time. *)
Definition timed (s : verifications) (c : vf_call) (t : time) : Prop :=
  exists r f, row_of s c r /\ vr_final r = Some f /\ t = scan_time f.

Definition own_handle (c : vf_call) (h : vf_handle) : Prop :=
  vh_id h = VerificationID (vc_request c) /\ vh_digest h = vc_digest c.

Definition handle_ok (s : verifications) (c : vf_call) (h : vf_handle) : Prop :=
  match vh_replay h with
  | Some r => recorded s c (evidence_of r)
  | None => own_handle c h /\ forall e, vh_evidence h = Some e -> recorded s c e
  end.

(** The call passed the validation. *)
Definition validated (c : vf_call) : Prop :=
  exists env now, possible env /\
    Verify_entry config env now (vc_request c) = Ok (vf_at (VfInserting ToVerify) c).

Definition phase_ok (s : verifications) (c : vf_call) (p : vf_phase) : Prop :=
  match p with
  | VfInserting _ | VfReading _ _ | VfRecovering _ _ => True
  | VfBegun h => handle_ok s c h
  | VfSaving h e => own_handle c h /\
      exists env, possible env /\ collectEvidence env (vc_request c) (vc_mapped c) (vc_report c) (vc_plan c) = Ok e
  | VfTiming h e => own_handle c h /\ recorded s c e
  | VfRecording h e t => own_handle c h /\ recorded s c e /\ timed s c t
  | VfFinishing h r => own_handle c h /\ recorded s c (evidence_of r)
  | VfReturned r => forall v, r = Ok v -> recorded s c (evidence_of v)
  end.

Definition call_ok (s : verifications) (c : vf_call) : Prop :=
  validated c /\ phase_ok s c (vc_phase c).

Lemma row_of_stays s s' c r :
  evolves s s' -> row_of s c r -> exists r', row_of s' c r' /\ row_evolves r r'.
Proof.
  intros He (k & Hk & Hr & Hd). destruct (He k r Hr) as (r' & Hr' & Hev). exists r'.
  split; [|done]. exists k. split_and!; [done..|]. destruct Hev as (-> & _). done.
Qed.

Lemma recorded_stays s s' c e : evolves s s' -> recorded s c e -> recorded s' c e.
Proof.
  intros He (r & ev & Hr & Hev & Hk). destruct (row_of_stays _ _ _ _ He Hr) as (r' & Hr' & _ & He' & _).
  exists r', ev. split_and!; auto.
Qed.

Lemma timed_stays s s' c t : evolves s s' -> timed s c t -> timed s' c t.
Proof.
  intros He (r & f & Hr & Hf & ->). destruct (row_of_stays _ _ _ _ He Hr) as (r' & Hr' & _ & _ & Hf').
  exists r', f. split_and!; auto.
Qed.

Lemma handle_ok_stays s s' c h : evolves s s' -> handle_ok s c h -> handle_ok s' c h.
Proof.
  intros He. unfold handle_ok. destruct (vh_replay h); [by apply recorded_stays|].
  intros [Ho Hr]. split; [done|]. intros e Hev. by eapply recorded_stays, Hr.
Qed.

Lemma phase_ok_stays s s' c p : evolves s s' -> phase_ok s c p -> phase_ok s' c p.
Proof.
  intros He. destruct p; cbn [phase_ok]; try done.
  - by apply handle_ok_stays.
  - intros [? Hr]. split; [done|]. by eapply recorded_stays.
  - intros (? & Hr & Ht). split_and!; [done|by eapply recorded_stays|by eapply timed_stays].
  - intros [? Hr]. split; [done|]. by eapply recorded_stays.
  - intros Hr v Hv. by eapply recorded_stays, Hr.
Qed.

Lemma call_ok_stays s s' c : evolves s s' -> call_ok s c -> call_ok s' c.
Proof. intros He [Hv Hp]. split; [done|by eapply phase_ok_stays]. Qed.

Lemma validated_at p c : validated (vf_at p c) <-> validated c.
Proof. done. Qed.

Lemma phase_ok_at s p q c : phase_ok s (vf_at p c) q <-> phase_ok s c q.
Proof. by destruct q. Qed.

(** ** Steps *)

(** What a step establishes: the rows and the call are as they should be. *)
Definition step_keeps (s s' : verifications) (c' : vf_call) : Prop :=
  rows_ok s' /\ call_ok s' c' /\ evolves s s'.

Lemma quiet_step s c p :
  rows_ok s -> validated c -> phase_ok s c p -> step_keeps s s (vf_at p c).
Proof. intros Hs Hv Hp. split; [done|]. split; [|done]. split; [done|]. by apply phase_ok_at. Qed.

(** One row changes, and the phase is right afterwards. *)
Lemma row_step s k r r' c p :
  rows_ok s -> validated c -> s !! k = Some r -> row_evolves r r' -> row_ok k r' ->
  phase_ok (<[k := r']> s) c p -> step_keeps s (<[k := r']> s) (vf_at p c).
Proof.
  intros Hs Hv Hr He Hok Hp. split; [by apply table_ok_insert|].
  split; [|by apply (table_evolves_insert row_evolves k r)]. split; [done|]. by apply phase_ok_at.
Qed.

Lemma keeps_decoded ev e : decode_evidence ev = Ok e -> keeps ev e.
Proof. intros He. by exists e. Qed.

Lemma keeps_stored e : keeps (json_trip (evidence_json e)) e.
Proof. exists (clean_evidence e). split; [apply decode_evidence_clean|apply outcome_clean]. Qed.

Lemma given_ok s c p h : handle_ok s c h -> phase_ok s c (vf_given p h).
Proof.
  intros Hh. destruct p as [|cause]; [done|]. cbn [vf_given]. unfold VfHandle_Replay.
  unfold handle_ok in Hh. destruct (vh_replay h); cbn [phase_ok]; [|done]. by intros ? [= <-].
Qed.

Lemma refused_ok s c p e : phase_ok s c (vf_refused p e).
Proof. by destruct p. Qed.

Lemma overtaken_ok s c e cause : phase_ok s c (vf_overtaken e cause).
Proof. unfold vf_overtaken. by destruct (errors_Is _ _). Qed.

Lemma owned_handle_ok s c owner :
  handle_ok s c (ownedHandle (VerificationID (vc_request c)) (vc_digest c) owner).
Proof. by split. Qed.

Lemma reserved_row_ok k r : row_evidence r = None -> row_ok k r.
Proof.
  intros Hn. split; [congruence|]. intros ev result Hst. unfold row_evidence in Hn.
  by rewrite Hst in Hn.
Qed.

(** Adding a reservation, or finding that there is a row. *)
Lemma inserting_step x c s p q q' b s' w :
  rows_ok s -> validated c ->
  statement w (insert_verification interval_us (vf_start config c) (vx_owner x) (vx_clock x)) s =
    (b, s') ->
  phase_ok s' c (match b with Ok true => p | Ok false => q | Err e => q' e end) ->
  step_keeps s s' (vf_at (match b with Ok true => p | Ok false => q | Err e => q' e end) c).
Proof.
  intros Hs Hv Hst Hp.
  apply statement_cases in Hst as [[-> _]|(a & Ha & _)]; [by apply quiet_step|].
  apply insert_verification_Ok in Ha as (k & _ & [(_ & Hn & r & -> & _ & Hr & Hf)|[_ ->]]);
    [|by apply quiet_step].
  split; [apply table_ok_insert, reserved_row_ok; [done|]; unfold row_evidence; by rewrite Hr|].
  split; [|by apply (table_evolves_new row_evolves)]. split; [done|by apply phase_ok_at].
Qed.

Lemma existing_handle_ok s c k r h :
  rows_ok s -> uuid_column (VerificationID (vc_request c)) = Some k -> s !! k = Some r ->
  handleExistingReservation r (vf_start config c) = Ok (Some h) -> handle_ok s c h.
Proof.
  intros Hs Hk Hr. unfold handleExistingReservation.
  destruct (negb _) eqn:Hd; [done|]. apply negb_false_iff, bool_decide_eq_true in Hd.
  assert (Hrow : row_of s c r) by (by exists k).
  destruct (vr_state r) as [|ev|ev result] eqn:Hst; [done| |].
  - intros (e & He & [= <-])%res_bind_Ok. split; [done|]. intros e' [= <-].
    destruct (decode_evidence ev) as [e0|] eqn:Hdec; [|done]. injection He as ->.
    exists r, ev. split_and!; [done|unfold row_evidence; by rewrite Hst|by apply keeps_decoded].
  - intros (v & Hv & [= <-])%res_bind_Ok. unfold handle_ok. cbn [vh_replay].
    destruct (decode_verification_result result) as [v0|] eqn:Hdec; [|done]. injection Hv as ->.
    destruct (proj2 (Hs k r Hr) ev result Hst) as (v' & Hv' & Hkeep).
    rewrite Hdec in Hv'. injection Hv' as <-.
    exists r, ev. split_and!; [done|unfold row_evidence; by rewrite Hst|done].
Qed.

Lemma recovering_step x c s p q q' b s' w owner :
  rows_ok s -> validated c ->
  statement w (recoverReservation interval_us (vf_start config c) owner (vx_clock x)) s = (b, s') ->
  phase_ok s' c (match b with Ok true => p | Ok false => q | Err e => q' e end) ->
  step_keeps s s' (vf_at (match b with Ok true => p | Ok false => q | Err e => q' e end) c).
Proof.
  intros Hs Hv Hst Hp.
  apply statement_cases in Hst as [[-> _]|(a & Ha & _)]; [by apply quiet_step|].
  unfold recoverReservation in Ha.
  apply tx_bind_Ok in Ha as (o & s1 & [_ ->]%tx_lift_Ok & Ha).
  apply tx_bind_Ok in Ha as (dg & s1 & [_ ->]%tx_lift_Ok & Ha).
  apply tx_bind_Ok in Ha as (u & s1 & Hu & Ha). injection Ha as _ ->.
  apply update_where_Ok in Hu as [[_ ->]|(k & r & _ & Hr & Hm & _ & _ & ->)]; [by apply quiet_step|].
  assert (Hres : vr_state r = VfReserved).
  { unfold is_reserved in Hm. by destruct (vr_state r); rewrite ?andb_false_r in Hm. }
  assert (Hn : row_evidence r = None) by (unfold row_evidence; by rewrite Hres).
  apply (row_step s k r); try done.
  by apply reserved_row_ok.
Qed.

(** An update of the call's row through its handle. *)
Lemma owned_update_step c s h matches f (o : res (option verification_row)) s' w p :
  rows_ok s -> validated c -> own_handle c h ->
  statement w (update_owned h matches f) s = (o, s') ->
  (forall k r, row_of s c r -> uuid_column (VerificationID (vc_request c)) = Some k ->
     s !! k = Some r -> matches r = true -> row_evolves r (f r) /\ row_ok k (f r)) ->
  phase_ok s' c p -> step_keeps s s' (vf_at p c).
Proof.
  intros Hs Hv [Hid Hdig] Hst Hf Hp.
  apply statement_cases in Hst as [[-> _]|(a & Ha & _)]; [by apply quiet_step|].
  apply update_owned_Ok in Ha as [[_ ->]|(k & r & Hk & Hr & Hd & Hm & _ & ->)]; [by apply quiet_step|].
  rewrite Hid in Hk. rewrite Hdig in Hd.
  destruct (Hf k r) as [He Hok]; try done; [by exists k|]. by eapply row_step.
Qed.

Lemma row_of_unique s c r r' : row_of s c r -> row_of s c r' -> r' = r.
Proof. intros (k & Hk & Hr & _) (k' & Hk' & Hr' & _). congruence. Qed.

Lemma saving_step c s h e env w r s' :
  rows_ok s -> validated c -> own_handle c h -> possible env ->
  collectEvidence env (vc_request c) (vc_mapped c) (vc_report c) (vc_plan c) = Ok e ->
  SaveEvidence w h e s = (r, s') ->
  (forall h', r = Ok h' -> own_handle c h' /\ recorded s' c e) /\
  (forall p, phase_ok s' c p -> step_keeps s s' (vf_at p c)).
Proof.
  intros Hs Hv Hh Henv He. unfold SaveEvidence. destruct (statement _ _ _) as [o s1] eqn:Hst.
  assert (Hsave : s1 = s \/ exists o', statement Answered (update_owned h is_reserved
      (set_vr_state (EvidenceReady (json_trip (evidence_json e))))) s = (o', s1)).
  { unfold save_evidence in Hst.
    apply statement_cases in Hst as [[-> _]|(a & Ha & _)]; [by left|right].
    apply tx_bind_Ok in Ha as (body & s2 & [Hb ->]%tx_lift_Ok & Ha).
    apply jsonb_column_Ok in Hb as ->. exists (Ok a). unfold statement, run_tx. by rewrite Ha. }
  intros Hr. assert (s' = s1) as -> by (destruct o as [[]|]; by simplify_eq).
  assert (Hrows : forall k r0, row_of s c r0 -> uuid_column (VerificationID (vc_request c)) = Some k ->
    s !! k = Some r0 -> is_reserved r0 = true ->
    row_evolves r0 (set_vr_state (EvidenceReady (json_trip (evidence_json e))) r0) /\
    row_ok k (set_vr_state (EvidenceReady (json_trip (evidence_json e))) r0)).
  { intros k r0 (k' & Hk' & _ & Hd) Hk _ Hm. unfold is_reserved in Hm.
    assert (Hst0 : vr_state r0 = VfReserved) by (by destruct (vr_state r0)). split.
    - split; [done|]. split; [|done]. intros ev. unfold row_evidence at 1. by rewrite Hst0.
    - split; [|done]. intros ev [= <-]. exists e. split; [|apply keeps_stored].
      destruct Hv as (env0 & now & Henv0 & Hentry). exists c, env0, now, env. by split_and!. }
  split.
  - intros h' ->. destruct o as [[r0|]|x]; [|done..]. injection Hr as <-.
    split; [by destruct Hh|]. apply statement_cases in Hst as [[_ Hno]|(a & Ha & Hoa)]; [by destruct (Hno _ eq_refl)|].
    rewrite <- (Hoa _ eq_refl) in Ha. unfold save_evidence in Ha.
    apply tx_bind_Ok in Ha as (body & s2 & [Hb ->]%tx_lift_Ok & Ha). apply jsonb_column_Ok in Hb as ->.
    apply update_owned_Ok in Ha as [[? _]|(k & r1 & Hk & Hr1 & Hd & _ & [= ->] & ->)]; [done|].
    destruct Hh as [Hid Hdig]. rewrite Hid in Hk. rewrite Hdig in Hd.
    eexists _, (json_trip (evidence_json e)).
    split; [exists k; rewrite lookup_insert_eq; by split_and!|]. split; [done|apply keeps_stored].
  - intros p Hp. destruct Hsave as [->|[o' Hst']]; [by apply quiet_step|by eapply owned_update_step].
Qed.

Lemma timing_step c s h w value r s' :
  rows_ok s -> validated c -> own_handle c h ->
  FinalTransitionTime w h value s = (r, s') ->
  (forall t, r = Ok t -> timed s' c t) /\
  (forall p, phase_ok s' c p -> step_keeps s s' (vf_at p c)).
Proof.
  intros Hs Hv Hh. unfold FinalTransitionTime. destruct (statement _ _ _) as [o s1] eqn:Hst. intros Hr.
  assert (s' = s1) as -> by (destruct o as [[]|]; by simplify_eq). split.
  - intros t ->. destruct o as [[r0|]|x]; [|done..]. injection Hr as <-.
    apply statement_cases in Hst as [[_ Hno]|(a & Ha & Hoa)]; [by destruct (Hno _ eq_refl)|].
    rewrite <- (Hoa _ eq_refl) in Ha.
    apply update_owned_Ok in Ha as [[? _]|(k & r1 & Hk & Hr1 & Hd & _ & [= ->] & ->)]; [done|].
    destruct Hh as [Hid Hdig]. rewrite Hid in Hk. rewrite Hdig in Hd.
    eexists _, _. split; [exists k; rewrite lookup_insert_eq; by split_and!|]. by split.
  - intros p Hp. eapply owned_update_step; [done..|exact Hst| |done]. cbn beta.
    intros k r0 Hrow _ Hk _. split.
    + split; [done|]. split; [done|]. intros f Hf. cbn. by rewrite Hf.
    + destruct (Hs k r0 Hk). by split.
Qed.

Lemma finishing_step c s h result w r s' :
  rows_ok s -> validated c -> own_handle c h -> recorded s c (evidence_of result) ->
  CompleteVerification w h result s = (r, s') ->
  forall p, phase_ok s' c p -> step_keeps s s' (vf_at p c).
Proof.
  intros Hs Hv Hh (r0 & ev & Hrow & Hev & Hkeep). unfold CompleteVerification.
  destruct (statement _ _ _) as [o s1] eqn:Hst. intros Hr p Hp.
  assert (s' = s1) as -> by (destruct o as [[]|]; by simplify_eq). clear Hr.
  apply statement_cases in Hst as [[-> _]|(a & Ha & _)]; [by apply quiet_step|].
  unfold complete_verification in Ha.
  apply tx_bind_Ok in Ha as (body & s2 & [Hb ->]%tx_lift_Ok & Ha). apply jsonb_column_Ok in Hb as ->.
  assert (Hst : statement Answered (update_owned h
    (fun r => has_evidence r && bool_decide (is_Some (vr_final r)))
    (completed_row (json_trip (result_json result)))) s = (Ok a, s1))
    by (unfold statement, run_tx; by rewrite Ha).
  eapply owned_update_step; [done..|exact Hst| |done].
  intros k r1 Hrow1 Hk Hr1 Hm. rewrite (row_of_unique _ _ _ _ Hrow Hrow1) in *. clear r1 Hrow1.
  apply andb_true_iff in Hm as [Hm _]. unfold has_evidence in Hm. unfold row_evidence in Hev.
  destruct (vr_state r0) as [|ev0|] eqn:Hst0; [done| |done]. injection Hev as ->.
  destruct (Hs k r0 Hr1) as [Hc _]. unfold row_evidence in Hc. rewrite Hst0 in Hc.
  unfold completed_row. rewrite Hst0. split.
  - split; [done|]. split; [|done]. intros ev0. unfold row_evidence. by rewrite Hst0.
  - split; [done|]. intros ev0 result0 [= <- <-]. exists (clean_result result).
    split; [apply decode_result_clean|]. destruct Hkeep as (e0 & Hdec & Hout). exists e0.
    split; [done|]. by rewrite evidence_of_clean, outcome_clean.
Qed.

Lemma vf_step_ok x c s w c' s' w' :
  possible (vx_around x) -> rows_ok s -> call_ok s c -> vf_step x c s w = (c', s', w') ->
  step_keeps s s' c'.
Proof.
  intros Henv Hs [Hv Hp]. unfold vf_step, VfService.vf_step.
  destruct (vc_phase c) as [p|p owner|p owner|h|h e|h e|h e t|h r|r] eqn:Hph; cbn [phase_ok] in Hp.
  - unfold vf_insert. destruct (_ <=? 0); [intros [= <- <- <-]; apply quiet_step; [done..|apply refused_ok]|].
    destruct (statement _ _ _) as [o s1] eqn:E. intros Heq.
    assert (Hst := inserting_step x c s
      (vf_given p (ownedHandle (VerificationID (vc_request c)) (vc_digest c) (vx_owner x)))
      (VfReading p (vx_owner x)) (fun e => vf_refused p (ErrWrap e "reserve verification")) o s1 _ Hs Hv E).
    destruct o as [[]|e]; injection Heq as <- <- <-; apply Hst;
      [by apply given_ok, owned_handle_ok|done|by apply refused_ok].
  - unfold vf_read. destruct (query _ _ _) as [[r|]|e] eqn:E.
    + apply query_Ok in E. apply res_bind_Ok in E as (k & Hk%uuid_param_Ok & [= Hr]).
      destruct (handleExistingReservation _ _) as [[h|]|e] eqn:Eh; intros [= <- <- <-]; apply quiet_step; try done.
      * apply given_ok. by eapply existing_handle_ok.
      * apply refused_ok.
    + intros [= <- <- <-]. by apply quiet_step.
    + intros [= <- <- <-]. apply quiet_step; [done..|apply refused_ok].
  - unfold vf_recover. destruct (statement _ _ _) as [o s1] eqn:E. intros Heq.
    assert (Hst := recovering_step x c s
      (vf_given p (ownedHandle (VerificationID (vc_request c)) (vc_digest c) owner))
      (match vx_cancelled x with Some e => vf_refused p e | None => VfInserting p end)
      (fun e => vf_refused p (ErrWrap e "recover verification reservation")) o s1 _ _ Hs Hv E).
    destruct o as [[]|e].
    + injection Heq as <- <- <-. apply Hst, given_ok, owned_handle_ok.
    + destruct (vx_cancelled x); injection Heq as <- <- <-; apply Hst; [apply refused_ok|done].
    + injection Heq as <- <- <-. apply Hst, refused_ok.
  - intros [= <- <- <-]. apply quiet_step; [done..|]. unfold vf_begun, VfHandle_Replay, VfHandle_Evidence.
    unfold handle_ok in Hp. destruct (vh_replay h) as [r|]; [by intros v [= <-]|].
    destruct Hp as [Ho Hr]. destruct (vh_evidence h) as [e|]; [split; auto|].
    destruct (vx_cancelled x); [done|]. destruct (collectEvidence _ _ _ _ _) eqn:Hce; [|done].
    split; [done|]. by eexists.
  - destruct Hp as (Hh & env & Henv' & He). destruct (SaveEvidence _ _ _ _) as [r s1] eqn:E.
    destruct (saving_step _ _ _ _ _ _ _ _ Hs Hv Hh Henv' He E) as [Hok Hstep].
    destruct r as [h'|e']; intros [= <- <- <-]; apply Hstep; [by apply Hok|done].
  - destruct Hp as [Hh Hr]. destruct (FinalTransitionTime _ _ _ _) as [o s1] eqn:E.
    destruct (timing_step _ _ _ _ _ _ _ Hs Hv Hh E) as [Hok Hstep].
    destruct o as [t|e']; intros [= <- <- <-]; apply Hstep; [|apply overtaken_ok].
    split; [done|]. split; [|by apply Hok].
    eapply recorded_stays; [|done]. apply (Hstep (VfInserting ToVerify) I).
  - destruct (ExecuteTask _ _ _ _) as [[recorded0|e'] w1]; intros [= <- <- <-];
      (apply quiet_step; [done..|]); [|done].
    destruct Hp as (Hh & Hr & _). by split.
  - destruct Hp as [Hh Hr]. destruct (CompleteVerification _ _ _ _) as [o s1] eqn:E.
    pose proof (finishing_step _ _ _ _ _ _ _ Hs Hv Hh Hr E) as Hstep.
    destruct o as [[]|e']; intros [= <- <- <-]; apply Hstep; [|apply overtaken_ok].
    intros v [= <-]. eapply recorded_stays; [|done]. apply (Hstep (VfInserting ToVerify) I).
  - intros [= <- <- <-]. split; [done|]. split; [|done]. split; [done|by rewrite Hph].
Qed.

End invariant.
