(* ===== verification/VfProps.v ===== *)
(** * What a verification guarantees *)

From S2P Require Import Prelude GoStd GoJson GoText PgRetry WfTypes WfTask WfRun WfDb WfStore.
From S2P Require Import WfStoreLemmas WfReplay WfInvariants Interleave CtMessages CtCommon.
From S2P Require Import CtImplementation CtRejections ExRequest VfEvidence VfCatalogProps.
From S2P Require Import VfService VfInvariants WfPlan Samples WfGuarantees WfRefine CtSamples.

(** * What the verification service guarantees

    One outcome per verification, whatever runs it and however often; one
    command for the workflow, sent only once its evidence is durable; a verdict
    that every criterion was checked by trusted checks that ran to a clean end;
    and a reservation whose owner died goes to the next call after its deadline. *)

Section guarantees.
Context `{Platform} `{Protobuf} `{Wire}.
Variable interval_us : Z -> Z.
Variable config : VerificationConfig.

Local Abbreviation vf_step := (vf_step interval_us config).
Local Abbreviation verifying := (verifying interval_us config).
Local Abbreviation verifying_in := (verifying_in interval_us config).
Local Abbreviation world_step_in possible :=
  (world_step vf_step (vf_enters_in config possible) (vf_fair_in possible)).
Local Abbreviation collected := (collected config).
Local Abbreviation call_ok := (call_ok config).

(** ** The invariant in running systems *)

Lemma enters_ok possible s c : vf_enters_in config possible c -> call_ok possible s c.
Proof.
  intros (env & now & request & Henv & He). pose proof He as Hc. unfold Verify_entry in Hc.
  apply res_bind_Ok in Hc as ([[mapped report] plan] & _ & Hc).
  apply res_bind_Ok in Hc as (digest & _ & [= <-]). split; [|done]. by exists env, now.
Qed.

Lemma verifying_ok possible sys :
  verifying_in possible sys -> world_ok (rows_ok config possible) (call_ok possible) sys.
Proof.
  apply (invariant_holds vf_step (vf_enters_in config possible) (vf_fair_in possible) _ _ evolves);
    [apply enters_ok| | |done].
  - apply call_ok_stays.
  - intros x c s w c' s' w' [_ Hx]. by apply vf_step_ok.
Qed.

Lemma verifying_evolves possible sys sys' :
  verifying_in possible sys -> rtc (world_step_in possible) sys sys' ->
  evolves (shared sys) (shared sys').
Proof.
  intros Hs Hr. eapply (world_steps_ok vf_step (vf_enters_in config possible) (vf_fair_in possible)
    (rows_ok config possible) (call_ok possible) evolves);
    [apply enters_ok|apply call_ok_stays| |done|by apply verifying_ok].
  intros x c s w c' s' w' [_ Hx]. by apply vf_step_ok.
Qed.

Lemma call_phase_ok possible sys i c :
  verifying_in possible sys -> calls sys !! i = Some c ->
  phase_ok possible (shared sys) c (vc_phase c).
Proof. intros Hs Hi. apply (proj2 (verifying_ok _ _ Hs) i c Hi). Qed.

(** ** One outcome *)

Definition same_verification (c c' : vf_call) : Prop :=
  exists k, uuid_column (VerificationID (vc_request c)) = Some k /\
    uuid_column (VerificationID (vc_request c')) = Some k.

Lemma row_of_same s c c' r r' :
  row_of s c r -> row_of s c' r' -> same_verification c c' -> r' = r /\ vc_digest c' = vc_digest c.
Proof.
  intros (k & Hk & Hr & Hd) (k' & Hk' & Hr' & Hd') (k0 & Hk0 & Hk0').
  assert (k' = k) as -> by congruence. assert (r' = r) as -> by congruence. split; congruence.
Qed.

Lemma recorded_same s c c' e e' :
  recorded s c e -> recorded s c' e' -> same_verification c c' ->
  vc_digest c' = vc_digest c /\ outcome e' = outcome e.
Proof.
  intros (r & ev & Hr & Hev & e0 & Hd & Ho) (r' & ev' & Hr' & Hev' & e0' & Hd' & Ho') Hsame.
  destruct (row_of_same _ _ _ _ _ Hr Hr' Hsame) as [-> ?]. split; congruence.
Qed.

Lemma timed_same s c c' t t' :
  timed s c t -> timed s c' t' -> same_verification c c' -> t' = t.
Proof.
  intros (r & f & Hr & Hf & ->) (r' & f' & Hr' & Hf' & ->) Hsame.
  destruct (row_of_same _ _ _ _ _ Hr Hr' Hsame) as [-> ?]. congruence.
Qed.

(** C8: Two calls that return a result for one verification, at any time and in any processes, with
    crashes, lost answers, repeated requests and reservations that changed hands in between, were
    asked for the same thing and return the same report, coverage and verdict. *)
Theorem verification_decided_once sys sys' i j c c' r r' :
  verifying sys -> rtc (world_step vf_step (vf_enters config) vf_fair) sys sys' ->
  calls sys !! i = Some c -> vc_phase c = VfReturned (Ok r) ->
  calls sys' !! j = Some c' -> vc_phase c' = VfReturned (Ok r') -> same_verification c c' ->
  vc_digest c' = vc_digest c /\ outcome (evidence_of r') = outcome (evidence_of r).
Proof.
  intros Hs Hr Hi Hp Hj Hp' Hsame. pose proof (call_phase_ok anything _ _ _ Hs Hi) as Hok.
  pose proof (call_phase_ok anything _ _ _ (started_steps _ _ _ _ _ _ Hs Hr) Hj) as Hok'.
  rewrite Hp in Hok. rewrite Hp' in Hok'.
  eapply recorded_same; [|by apply Hok'|done].
  eapply recorded_stays; [by apply (verifying_evolves anything)|by apply Hok].
Qed.

(** ** One command *)

(** What a request is mapped to does not depend on the clock. *)
Lemma mapped_same p now now' m m' :
  MapImplementationRequestAt p now = Ok m -> MapImplementationRequestAt p now' = Ok m' -> m = m'.
Proof.
  unfold MapImplementationRequestAt.
  intros (v & Hv & Hm)%res_bind_Ok (v' & Hv' & Hm')%res_bind_Ok.
  apply validated_request_converts in Hv as [-> _]. apply validated_request_converts in Hv' as [[= ->] _].
  congruence.
Qed.

Lemma validated_mapped possible c :
  validated config possible c -> exists now, MapImplementationRequestAt (Vf_Implementation (vc_request c)) now =
    Ok (vc_mapped c).
Proof.
  intros (env & now & _ & Hc). unfold Verify_entry in Hc.
  apply res_bind_Ok in Hc as ([[mapped report] plan] & Hv & Hc).
  apply res_bind_Ok in Hc as (digest & _ & [= <- _ _ _]).
  unfold vf_validateRequest in Hv. destruct (negb _); [done|].
  apply res_bind_Ok in Hv as ([] & _ & (m & Hm & Hv)%res_bind_Ok).
  destruct (MapImplementationRequestAt _ _) as [m0|] eqn:E; [|done]. injection Hm as ->.
  apply res_bind_Ok in Hv as (p & _ & (r & _ & Hv)%res_bind_Ok). destruct (negb _); [done|].
  injection Hv as <- _ _. by eexists.
Qed.

(** Every call for one verification that reaches the workflow sends the same command, in
    particular under the same command identifier and with the same timestamp, however often the
    request is repeated and whichever call collected the evidence; so the workflow records the
    verification once. *)
Theorem verification_command_stable sys sys' i j c c' h h' e e' t t' :
  verifying sys -> rtc (world_step vf_step (vf_enters config) vf_fair) sys sys' ->
  calls sys !! i = Some c -> vc_phase c = VfRecording h e t ->
  calls sys' !! j = Some c' -> vc_phase c' = VfRecording h' e' t' -> vc_request c' = vc_request c ->
  clean_artifact (Evidence_ReportArtifact e) = Evidence_ReportArtifact e ->
  clean_artifact (Evidence_ReportArtifact e') = Evidence_ReportArtifact e' ->
  verification_command config c' e' t' = verification_command config c e t.
Proof.
  intros Hs Hr Hi Hp Hj Hp' Hreq Hcl Hcl'.
  pose proof (started_steps _ _ _ _ _ _ Hs Hr) as Hs'.
  pose proof (call_phase_ok anything _ _ _ Hs Hi) as Hok. pose proof (call_phase_ok anything _ _ _ Hs' Hj) as Hok'.
  pose proof (verifying_evolves anything _ _ Hs Hr) as He.
  rewrite Hp in Hok. rewrite Hp' in Hok'. destruct Hok as (_ & Hrec & Ht), Hok' as (_ & Hrec' & Ht').
  assert (Hsame : same_verification c c').
  { destruct Hrec as (r & ev & (k & Hk & _) & _). exists k. by rewrite Hreq. }
  apply (recorded_stays _ _ _ _ He) in Hrec. apply (timed_stays _ _ _ _ He) in Ht.
  destruct (recorded_same _ _ _ _ _ Hrec Hrec' Hsame) as [_ Hout].
  assert (Ha := f_equal (fun o => fst (fst o)) Hout). assert (Hpassed := f_equal snd Hout).
  unfold outcome in Ha, Hpassed. cbn [fst snd] in Ha, Hpassed. rewrite Hcl, Hcl' in Ha. rewrite (timed_same _ _ _ _ _ Ht Ht' Hsame).
  destruct (proj2 (verifying_ok anything _ Hs) i c Hi) as [Hv _].
  destruct (proj2 (verifying_ok anything _ Hs') j c' Hj) as [Hv' _].
  apply validated_mapped in Hv as [n Hm]. apply validated_mapped in Hv' as [n' Hm'].
  rewrite Hreq in Hm'. unfold verification_command.
  by rewrite Hreq, Ha, Hpassed, (mapped_same _ _ _ _ _ Hm' Hm).
Qed.

(** ** Sound verdicts *)

(** What holds of the surroundings that the calls met. *)
Variable possible : vf_surroundings -> Prop.

(** The check ran to an end by itself, in time, with exit code 0 and with all of its output kept. *)
Definition ran_clean (env : vf_surroundings) (workspace image : string) (check : CheckDefinition)
    : Prop :=
  exists m, Run_check env workspace image check = Ok m /\ M_ExitCode m = 0 /\
    M_TimedOut m = false /\ OutputTruncated m = false.

(** A request with this digest was verified in these surroundings, and its execution report was
    read in possible ones: the report is about its candidate, and each
    criterion it was approved for has checks, all offered by the request, trusted, and run clean on
    one workspace of the candidate. *)
Record verified (trusted : list CheckDefinition) (k digest : string) (request : VerificationRequest)
    (mapped : ImplementationRequest) (report : ExecutionReport) (env : vf_surroundings) : Prop := {
  vd_id : uuid_column (VerificationID request) = Some k;
  vd_digest : verificationRequestDigest request = Ok digest;
  vd_mapped : exists now, MapImplementationRequestAt (Vf_Implementation request) now = Ok mapped;
  vd_report : exists env0, possible env0 /\ loadExecutionReport env0 (ExecutionArtifact request) = Ok report;
  vd_binding : executionReportMatches report mapped (Vf_CandidateCommit request) = true;
  vd_checks : exists workspace image,
    Prepare env (VerificationID request) (Vf_CandidateCommit request) = Ok (workspace, Ok tt) /\
    ImageID env = Ok image /\
    forall criterion, criterion ∈ IR_AcceptanceCriterionIDs mapped ->
      exists r, r ∈ Requirements request /\ CriterionID r = criterion /\ CheckIDs r <> [] /\
        forall id, id ∈ CheckIDs r -> id ∈ AvailableCheckIDs mapped /\
          exists check, check ∈ trusted /\ Check_ID check = id /\ ran_clean env workspace image check;
}.

Lemma run_and_store_Ok env workspace image candidate check r :
  run_and_store env workspace image candidate check = Ok r ->
  Result_CheckID r = Check_ID check /\ (Check_Passed r = true -> ran_clean env workspace image check).
Proof.
  unfold run_and_store. intros (m & Hm & (o & Ho & [= <-])%res_bind_Ok)%res_bind_Ok.
  destruct (Run_check _ _ _ _) as [m0|] eqn:Hrun; [|done]. injection Hm as ->.
  split; [done|]. cbn. rewrite !andb_true_iff, !negb_true_iff, Z.eqb_eq. intros [[? ?] ?].
  by exists m.
Qed.

Lemma run_all_Ok env workspace image candidate checks results :
  map_each (run_and_store env workspace image candidate) checks = Ok results ->
  map Result_CheckID results = map Check_ID checks /\
  forall r, r ∈ results -> exists check, check ∈ checks /\ Result_CheckID r = Check_ID check /\
    (Check_Passed r = true -> ran_clean env workspace image check).
Proof.
  intros Hr%map_each_Ok. induction Hr as [|check r checks results Hc _ [IH1 IH2]].
  - split; [done|]. by intros r ?%elem_of_nil.
  - apply run_and_store_Ok in Hc as [Hid Hp]. cbn [map]. split; [by rewrite Hid, IH1|].
    intros r' [->|Hin]%elem_of_cons; [exists check; split; [by left|done]|].
    destruct (IH2 r' Hin) as (d & Hd & ?). exists d. split; [by right|done].
Qed.

(** The parts of the validation that a call keeps. *)
Lemma Verify_entry_Ok env now request c :
  Verify_entry config env now request = Ok c ->
  vc_request c = request /\ verificationRequestDigest request = Ok (vc_digest c) /\
  Resolve (Vf_Catalog config) (vc_mapped c) (Requirements request) = Ok (vc_plan c) /\
  loadExecutionReport env (ExecutionArtifact request) = Ok (vc_report c) /\
  executionReportMatches (vc_report c) (vc_mapped c) (Vf_CandidateCommit request) = true.
Proof.
  unfold Verify_entry. intros ([[mapped report] plan] & Hv & Hc)%res_bind_Ok.
  apply res_bind_Ok in Hc as (digest & Hdig & [= <-]). cbn.
  unfold vf_validateRequest in Hv. destruct (negb _); [done|].
  apply res_bind_Ok in Hv as ([] & _ & (m & _ & Hv)%res_bind_Ok).
  apply res_bind_Ok in Hv as (p & Hplan & (r & Hrep & Hv)%res_bind_Ok).
  destruct (negb _) eqn:Hm; [done|]. injection Hv as <- <- <-. by apply negb_false_iff in Hm.
Qed.

(** The checks of a request with this digest ran clean in surroundings that the history met. *)
Definition soundly_verified (trusted : list CheckDefinition) (k digest : string) : Prop :=
  exists request mapped report env, possible env /\
    verified trusted k digest request mapped report env.

Lemma collected_passed trusted k digest e :
  NewCatalog trusted = Ok (Vf_Catalog config) -> collected possible k digest e ->
  Evidence_Passed e = true -> soundly_verified trusted k digest.
Proof.
  intros Hcat (c & env & now & env' & Henv & Henv' & Hentry & Hk & Hdig & Hce) Hpassed.
  exists (vc_request c), (vc_mapped c), (vc_report c), env'. split; [done|].
  assert (Hv : validated config possible c) by (by exists env, now).
  apply Verify_entry_Ok in Hentry as (_ & Hd & Hplan & Hrep & Hbind). cbn in Hd, Hplan, Hrep, Hbind.
  split; [done|by rewrite <- Hdig|by eapply validated_mapped|by exists env|done|].
  unfold collectEvidence in Hce. apply res_bind_Ok in Hce as ([workspace removal] & Hprep & Hce).
  apply res_bind_Ok in Hce as (e0 & He & Hce). cbn [fst snd] in He, Hce.
  apply res_bind_Ok in Hce as ([] & -> & [= ->]).
  unfold check_candidate in He. apply res_bind_Ok in He as (image & Himg & He).
  destruct (ImageID env') as [i0|] eqn:Hi; [|done]. injection Himg as ->.
  apply res_bind_Ok in He as (results & Hres & He).
  destruct (CalculateCoverage _ _) as [coverage passed] eqn:Hcov.
  apply res_bind_Ok in He as (a & _ & [= <-]). cbn in Hpassed. subst passed.
  apply run_all_Ok in Hres as [Hids Hres].
  apply (resolve_exact trusted) in Hplan as (Hperm & _ & Hreqs & Hplan); [|done].
  rewrite Hplan in Hids, Hcov, Hres. cbn [Plan_Checks Plan_Requirements] in Hids, Hcov, Hres.
  assert (Hnd : NoDup (map Result_CheckID results)).
  { rewrite Hids. apply NewCatalog_spec in Hcat as [Heq Hok]. rewrite <- Heq.
    by apply filtered_ids_distinct, co_distinct. }
  destruct (coverage_exact (Requirements (vc_request c)) results Hnd) as [_ Hall].
  rewrite Hcov in Hall. cbn [snd] in Hall. destruct Hall as [Hall _]. specialize (Hall eq_refl).
  exists workspace, image. split_and!; [done..|]. intros criterion Hin. rewrite <- Hperm in Hin.
  apply list_elem_of_fmap in Hin as (r & -> & Hr). exists r.
  destruct (Hall r Hr) as [Hne Hok]. split_and!; [done..|]. intros id Hid.
  destruct (Hreqs r Hr) as [_ Havail]. split; [by apply Havail|].
  destruct (Hok id Hid) as (result & Hresult & Hrid & Hp).
  destruct (Hres result Hresult) as (check & Hcheck & Hcid & Hclean).
  apply list_elem_of_filter in Hcheck as [_ Hcheck]. exists check. split_and!; [done|congruence|auto].
Qed.

Lemma row_passed trusted k row ev e :
  NewCatalog trusted = Ok (Vf_Catalog config) -> row_ok config possible k row ->
  row_evidence row = Some ev -> keeps ev e -> Evidence_Passed e = true ->
  soundly_verified trusted k (vr_request_digest row).
Proof.
  intros Hcat [Hc _] Hev (e0 & Hdec & Hout) Hpassed.
  destruct (Hc ev Hev) as (e1 & Hcol & e2 & Hdec' & Hout'). eapply collected_passed; [done..|].
  assert (e2 = e0) as -> by congruence. rewrite Hout in Hout'.
  assert (Hb := f_equal snd Hout'). cbn in Hb. congruence.
Qed.

(** C9: Whenever a row of the ledger holds evidence with a positive verdict, every criterion of a
    request with the digest of the row was checked by trusted checks, each of which ran to a clean
    end on the candidate that the request's execution report is about: in the workspace, with the
    exit codes and by the artifacts that calls of this very history met, since [possible] is any
    predicate that held of the surroundings of every entry and every step.  And the service touches
    the workflow only to record evidence that is durable in its ledger, with the verdict and the
    report of exactly the row of its call. *)
Theorem passed_verification_sound trusted s w cs :
  NewCatalog trusted = Ok (Vf_Catalog config) -> verifying_in possible (mkWorld s w cs) ->
  (forall k row ev e, s !! k = Some row -> row_evidence row = Some ev -> decode_evidence ev = Ok e ->
     Evidence_Passed e = true -> soundly_verified trusted k (vr_request_digest row)) /\
  forall x i c c' s' w', cs !! i = Some c -> vf_step x c s w = (c', s', w') -> w' <> w ->
    exists h e t k row ev, vc_phase c = VfRecording h e t /\
      w' = snd (ExecuteTask (vx_climate x) (vx_ctx_done x) (verification_command config c e t) w) /\
      uuid_column (VerificationID (vc_request c)) = Some k /\ s !! k = Some row /\
      vr_request_digest row = vc_digest c /\ row_evidence row = Some ev /\ keeps ev e /\
      (Evidence_Passed e = true -> soundly_verified trusted k (vc_digest c)).
Proof.
  intros Hcat Hs. pose proof (proj1 (verifying_ok _ _ Hs)) as Hrows. cbn in Hrows. split.
  { intros k row ev e Hrow Hev Hdec. eapply row_passed; [done|by apply Hrows|done|by exists e]. }
  intros x i c c' s' w' Hi Hstep Hne. pose proof (call_phase_ok _ _ _ _ Hs Hi) as Hp. cbn in Hp.
  unfold VfService.vf_step in Hstep.
  destruct (vc_phase c) as [p|p owner|p owner|h|h e|h e|h e t|h r|r] eqn:Hph;
    try (exfalso; apply Hne; clear -Hstep; repeat case_match; by injection Hstep).
  destruct Hp as (_ & (row & ev & (k & Hk & Hrow & Hdig) & Hev & Hkeep) & _).
  exists h, e, t, k, row, ev. split_and!; [done|by repeat case_match; simplify_eq|done..|].
  rewrite <- Hdig. eapply row_passed; [done|by apply Hrows|done..].
Qed.

(** ** Reservations that lost their owner *)

Fixpoint vf_run (n : nat) (x : vf_circumstances) (c : vf_call) (s : verifications) (w : db)
    : vf_call * verifications * db :=
  match n with
  | O => (c, s, w)
  | S n' => let '(c', s', w') := vf_step x c s w in vf_run n' x c' s' w'
  end.

Lemma vf_run_step c' s' w' n x c s w :
  vf_step x c s w = (c', s', w') -> vf_run (S n) x c s w = vf_run n x c' s' w'.
Proof. intros Hs. cbn. by rewrite Hs. Qed.

(** ** A call that finds a reservation past its deadline *)

Section recovery.
Context `{!PlatformLaws}.
Variables (x : vf_circumstances) (c : vf_call) (k owner : string).
Hypothesis Hans : vx_reply x = Answered.
Hypothesis Hlive : vx_cancelled x = None.
Hypothesis Hk : uuid_column (VerificationID (vc_request c)) = Some k.
Hypothesis Howner : uuid_column (vx_owner x) = Some owner.
Hypothesis Hv : validated config anything c.
Hypothesis Httl : 0 < Vf_ReservationTTL config.

Lemma digest_hex : match_hex 64 (vc_digest c) = true.
Proof.
  destruct Hv as (env & now & _ & He). apply Verify_entry_Ok in He as (_ & Hd & _). cbn in Hd.
  unfold verificationRequestDigest in Hd. apply res_bind_Ok in Hd as (b & _ & [= <-]).
  apply sha256_hex_shape.
Qed.

Lemma step_finds_row s w row p :
  s !! k = Some row ->
  vf_step x (vf_at (VfInserting p) c) s w = (vf_at (VfReading p (vx_owner x)) c, s, w).
Proof.
  intros Hrow. unfold VfService.vf_step. cbn [vc_phase vf_at]. unfold vf_insert.
  rewrite (proj2 (Z.leb_gt _ _) Httl), Hans.
  unfold statement, run_tx, insert_verification, mbind, tx_bind, tx_lift, uuid_param.
  cbn [vf_start Start_VerificationID Vf_RequestDigest vc_request vc_digest vf_at].
  rewrite (text_column_hex _ _ digest_hex), Howner. cbv beta iota. rewrite digest_hex. cbn [negb].
  by rewrite (insert_absent_found k row).
Qed.

Lemma step_reads_reserved s w row p o :
  s !! k = Some row -> vr_request_digest row = vc_digest c -> vr_state row = VfReserved ->
  vf_step x (vf_at (VfReading p o) c) s w = (vf_at (VfRecovering p o) c, s, w).
Proof.
  intros Hrow Hd Hst. unfold VfService.vf_step. cbn [vc_phase vf_at]. unfold vf_read. rewrite Hans.
  unfold query, readReservation. cbn [vc_request vf_at]. rewrite (select_row_hit _ k) by done. cbn [mbind res_bind].
  rewrite Hrow. unfold handleExistingReservation. cbn [vf_start Vf_RequestDigest vc_digest vf_at].
  by rewrite Hd, bool_decide_true, Hst.
Qed.

Definition recovered (row : verification_row) : verification_row :=
  set_vr_owner owner (vx_clock x + interval_us (Vf_ReservationTTL config)) row.

Lemma step_recovers s w row p :
  s !! k = Some row -> vr_request_digest row = vc_digest c -> vr_state row = VfReserved ->
  vr_reserved_until row <= vx_clock x ->
  vf_step x (vf_at (VfRecovering p (vx_owner x)) c) s w =
    (vf_at (vf_given p (ownedHandle (VerificationID (vc_request c)) (vc_digest c) (vx_owner x))) c,
     <[k := recovered row]> s, w).
Proof.
  intros Hrow Hd Hst Hdue. unfold VfService.vf_step. cbn [vc_phase vf_at]. unfold vf_recover. rewrite Hans.
  unfold statement, run_tx, recoverReservation, mbind, tx_bind, tx_lift, uuid_param.
  cbn [vf_start Start_VerificationID Vf_RequestDigest Start_ReservationTTL vc_request vc_digest vf_at].
  rewrite Howner, (text_column_hex _ _ digest_hex). cbv beta iota.
  rewrite (update_where_hit k _ _ _ _ row); [done|done..| |done].
  rewrite Hd, bool_decide_true by done. unfold is_reserved. rewrite Hst. by apply Z.leb_le.
Qed.

(** The row is the call's, under the owner of its handle. *)
Definition mine (row : verification_row) : Prop :=
  vr_request_digest row = vc_digest c /\ vr_owner row = owner.

Lemma update_owned_hit replay evidence matches f s row :
  s !! k = Some row -> mine row -> matches row = true ->
  update_owned (mkVfHandle (VerificationID (vc_request c)) (vc_digest c) (vx_owner x) replay evidence)
    matches f s = Ok (Some (f row), <[k := f row]> s).
Proof.
  intros Hrow [Hd Ho] Hm. unfold update_owned, mbind, tx_bind, tx_lift, uuid_param.
  cbn [vh_owner vh_id]. rewrite Howner. cbv beta iota. apply update_where_hit; [done..| |done].
  unfold owned_by. cbn [vh_digest]. by rewrite Hd, Ho, !bool_decide_true, Hm.
Qed.

Let h : vf_handle := ownedHandle (VerificationID (vc_request c)) (vc_digest c) (vx_owner x).

Lemma step_collects s w e :
  collectEvidence (vx_around x) (vc_request c) (vc_mapped c) (vc_report c) (vc_plan c) = Ok e ->
  vf_step x (vf_at (VfBegun h) c) s w = (vf_at (VfSaving h e) c, s, w).
Proof.
  intros He. unfold VfService.vf_step. cbn [vc_phase vf_at]. unfold vf_begun.
  cbn [VfHandle_Replay VfHandle_Evidence h ownedHandle vh_replay vh_evidence]. rewrite Hlive.
  cbn [vc_request vc_mapped vc_report vc_plan vf_at]. by rewrite He.
Qed.

Let h' (e : VerificationEvidence) : vf_handle :=
  mkVfHandle (VerificationID (vc_request c)) (vc_digest c) (vx_owner x) None (Some e).

Lemma step_saves s w row e body :
  s !! k = Some row -> mine row -> vr_state row = VfReserved ->
  jsonb_column (evidence_json e) = Ok body ->
  vf_step x (vf_at (VfSaving h e) c) s w =
    (vf_at (VfTiming (h' e) e) c, <[k := set_vr_state (EvidenceReady body) row]> s, w).
Proof.
  intros Hrow Hm Hst Hb. unfold VfService.vf_step. cbn [vc_phase vf_at]. rewrite Hans.
  unfold SaveEvidence, statement, run_tx, save_evidence, mbind, tx_bind, tx_lift. rewrite Hb.
  cbv beta iota. unfold h at 1, ownedHandle.
  rewrite (update_owned_hit None None _ _ _ row) by (done || unfold is_reserved; by rewrite Hst). done.
Qed.

Definition transition_time (row : verification_row) : Z :=
  default (time_column (UTC (UTC (vx_now x)))) (vr_final row).

Lemma step_times s w row e body :
  s !! k = Some row -> mine row -> vr_state row = EvidenceReady body ->
  vf_step x (vf_at (VfTiming (h' e) e) c) s w =
    (vf_at (VfRecording (h' e) e (scan_time (transition_time row))) c,
     <[k := set_vr_final (Some (transition_time row)) row]> s, w).
Proof.
  intros Hrow Hm Hst. unfold VfService.vf_step. cbn [vc_phase vf_at]. rewrite Hans.
  unfold FinalTransitionTime, statement, run_tx, h'.
  rewrite (update_owned_hit _ _ _ _ _ row) by (done || unfold has_evidence; by rewrite Hst). done.
Qed.

Lemma step_records s w w' e t r :
  ExecuteTask (vx_climate x) (vx_ctx_done x) (verification_command config c e t) w = (Ok r, w') ->
  vf_step x (vf_at (VfRecording (h' e) e t) c) s w =
    (vf_at (VfFinishing (h' e) (verification_result c e r)) c, s, w').
Proof.
  intros He. unfold VfService.vf_step. cbn [vc_phase vf_at].
  unfold verification_command in He |- *. cbn [vf_at vc_request vc_mapped]. by rewrite He.
Qed.

Lemma step_finishes s w row e body t result stored :
  s !! k = Some row -> mine row -> vr_state row = EvidenceReady body -> vr_final row = Some t ->
  jsonb_column (result_json result) = Ok stored ->
  vf_step x (vf_at (VfFinishing (h' e) result) c) s w =
    (vf_at (VfReturned (Ok result)) c, <[k := set_vr_state (VfCompleted body stored) row]> s, w).
Proof.
  intros Hrow Hm Hst Hf Hb. unfold VfService.vf_step. cbn [vc_phase vf_at]. rewrite Hans.
  unfold CompleteVerification, statement, run_tx, complete_verification, mbind, tx_bind, tx_lift, h'.
  rewrite Hb. cbv beta iota.
  rewrite (update_owned_hit _ _ _ _ _ row)
    by (done || unfold has_evidence; rewrite Hst, Hf; by rewrite bool_decide_true by eauto).
  unfold completed_row. by rewrite Hst.
Qed.

End recovery.

(** A verification whose owner died is taken over by the next call for it once the reservation
    is past its deadline: when the statements are answered, the evidence can be collected and the
    workflow accepts it, the call returns the result after eight steps and the row is completed
    with it, whoever holds the old reservation. *)
Theorem expired_reservation_recovered `{!PlatformLaws} x env now request c s w w' k owner row
    evidence body r stored :
  0 < Vf_ReservationTTL config ->
  Verify_entry config env now request = Ok c -> uuid_column (VerificationID request) = Some k ->
  s !! k = Some row -> vr_request_digest row = vc_digest c -> vr_state row = VfReserved ->
  vr_reserved_until row <= vx_clock x ->
  vx_reply x = Answered -> vx_cancelled x = None -> uuid_column (vx_owner x) = Some owner ->
  collectEvidence (vx_around x) (vc_request c) (vc_mapped c) (vc_report c) (vc_plan c) = Ok evidence ->
  jsonb_column (evidence_json evidence) = Ok body ->
  ExecuteTask (vx_climate x) (vx_ctx_done x)
    (verification_command config c evidence (scan_time (transition_time x row))) w = (Ok r, w') ->
  jsonb_column (result_json (verification_result c evidence r)) = Ok stored ->
  exists s' row', vf_run 8 x c s w =
      (vf_at (VfReturned (Ok (verification_result c evidence r))) c, s', w') /\
    s' !! k = Some row' /\ vr_state row' = VfCompleted body stored /\ vr_owner row' = owner.
Proof.
  intros Httl Hentry Hk Hrow Hd Hst Hdue Hans Hlive Ho He Hb Hexec Hres.
  pose proof (Verify_entry_Ok _ _ _ _ Hentry) as (Hreq & _).
  assert (Hv : validated config anything c).
  { destruct (enters_ok anything s c) as [Hv _]; [by exists env, now, request|done]. }
  assert (Hc : c = vf_at (VfInserting ToVerify) c).
  { unfold Verify_entry in Hentry. apply res_bind_Ok in Hentry as ([[m rep] plan] & _ & Hentry).
    by apply res_bind_Ok in Hentry as (dig & _ & [= <-]). }
  assert (Hrun : vf_run 8 x c s w = vf_run 8 x (vf_at (VfInserting ToVerify) c) s w) by (by rewrite <- Hc).
  rewrite <- Hreq in Hk. rewrite Hrun. clear Hrun Hc.
  rewrite (vf_run_step _ _ _ _ _ _ _ _ (step_finds_row x c k owner Hans Hk Ho Hv Httl s w row ToVerify Hrow)).
  rewrite (vf_run_step _ _ _ _ _ _ _ _ (step_reads_reserved x c k Hans Hk s w row ToVerify _ Hrow Hd Hst)).
  rewrite (vf_run_step _ _ _ _ _ _ _ _
    (step_recovers x c k owner Hans Hk Ho Hv s w row ToVerify Hrow Hd Hst Hdue)).
  set (row1 := recovered x owner row). cbn [vf_given].
  assert (Hm : mine c owner row1) by done. assert (Hst1 : vr_state row1 = VfReserved) by done.
  rewrite (vf_run_step _ _ _ _ _ _ _ _ (step_collects x c Hlive _ w evidence He)).
  rewrite (vf_run_step _ _ _ _ _ _ _ _ (step_saves x c k owner Hans Hk Ho _ w row1 evidence body
    (lookup_insert_eq _ _ _) Hm Hst1 Hb)).
  rewrite (vf_run_step _ _ _ _ _ _ _ _ (step_times x c k owner Hans Hk Ho _ w
    (set_vr_state (EvidenceReady body) row1) evidence body (lookup_insert_eq _ _ _) Hm eq_refl)).
  change (transition_time x (set_vr_state _ row1)) with (transition_time x row).
  rewrite (vf_run_step _ _ _ _ _ _ _ _ (step_records x c _ w w' evidence _ r Hexec)).
  rewrite (vf_run_step _ _ _ _ _ _ _ _ (step_finishes x c k owner Hans Hk Ho _ w'
    (set_vr_final (Some (transition_time x row)) (set_vr_state (EvidenceReady body) row1)) evidence
    body _ _ stored (lookup_insert_eq _ _ _) Hm eq_refl eq_refl Hres)).
  cbn [vf_run]. eexists _, _. split; [done|]. by rewrite lookup_insert_eq.
Qed.

End guarantees.

(** * Concrete verifications

    A task that waits for its verification, calls that verify it, one whose
    answers are lost and one that takes over the row of another; and the
    theorems of the verification service applied to them. *)

(** ** A task to verify *)

Definition verify_db : db := execute_all executed_history empty_db.

Definition sample_execution : ExecutionReport :=
  mkExecutionReport "1" "execution-1" "2024-01-01T00:00:00Z" "RUN-1" "TASK-001" 1
    (artifact_of "proposal") (sample_lease 1) (commit_of "c") hex40 "refs/harness/1" DefaultLimits [].

Definition sample_verification : VerificationRequest :=
  mkVerificationRequest "verification-1" (at_time 50) (Some sample_checked_request)
    (artifact_of "execution") hex40 5 [mkRequirement "AC-001" ["make-check-v1"]].

Definition sample_config : VerificationConfig :=
  mkVerificationConfig "verifier-1" DefaultCatalog 2 4 Minute.

(** ** What the calls meet *)

Definition clean_measurement : ExecutionMeasurement :=
  mkMeasurement (at_time 51) (at_time 52) 0 false "ok" 1000 500 500 4096 false.

Definition sample_tools : vf_surroundings :=
  mkVfSurroundings
    (fun ref => if sha256_hex "execution" == Digest ref then Ok "execution"
                else Err (ErrNew "not found"))
    (fun body => Ok (artifact_of body))
    (fun body => if body == "execution" then Some (sample_execution, "") else None)
    (fun rest => rest == "")
    (fun _ _ => Ok ("/workspace", Ok tt)) (Ok "image-1")
    (fun _ _ _ => Ok clean_measurement).

Definition seconds (d : Z) : Z := d / 1000.

(** A step at a time of the database, by a process with this owner. *)
Definition meeting (r : reply) (clock : Z) (owner : string) : vf_circumstances :=
  mkVfCircumstances sample_tools r clock (at_time 60) owner None (fun _ => Clear) (fun _ => None).

Definition no_verification : vf_call :=
  mkVfCall sample_verification
    (mkImplementationRequestOf (sample_envelope StageImplementation) "" "" "" "" "" [] [] [] [] [] [])
    sample_execution (mkPlan [] []) "" (VfInserting ToVerify).

Definition entering : vf_call :=
  match Verify_entry sample_config sample_tools (at_time 0) sample_verification with
  | Ok c => c
  | Err _ => no_verification
  end.

Lemma entering_Ok :
  Verify_entry sample_config sample_tools (at_time 0) sample_verification = Ok entering.
Proof. vm_compute. reflexivity. Qed.

(** The calls meet the sample surroundings and no others. *)
Lemma entering_enters : vf_enters_in sample_config (eq sample_tools) entering.
Proof. exists sample_tools, (at_time 0), sample_verification. split; [done|exact entering_Ok]. Qed.

(** A call comes in, or the call [i] makes a step. *)
Definition play (m : option (nat * reply)) : action :=
  match m with
  | None => Enter entering
  | Some (i, r) => Step i (meeting r 0 (if (i =? 0)%nat then "owner-0" else "owner-1"))
  end.

Lemma vf_plays_admissible l :
  Forall (admissible (vf_enters_in sample_config (eq sample_tools)) (vf_fair_in (eq sample_tools)))
    (map play l).
Proof.
  apply Forall_map, Forall_true. intros [[i r]|]; [split; [intros n o e Hx; discriminate Hx|done]|].
  exact entering_enters.
Qed.

Lemma enters_anything c :
  vf_enters_in sample_config (eq sample_tools) c -> vf_enters sample_config c.
Proof. intros (env & now & request & _ & Hc). by exists env, now, request. Qed.

Local Abbreviation step := (vf_step seconds sample_config).
Local Abbreviation world_steps := (rtc (world_step step (vf_enters sample_config) vf_fair)).

Definition run_script (l : list (option (nat * reply))) (sys : world verifications vf_call)
    : world verifications vf_call := drive step (map play l) sys.

Definition fresh : world verifications vf_call := mkWorld ∅ verify_db [].

Lemma vf_script_steps l sys : world_steps sys (run_script l sys).
Proof.
  apply drive_steps. eapply Forall_impl; [apply vf_plays_admissible|].
  intros [c|i x]; [apply enters_anything|by intros [Hx _]].
Qed.

Lemma script_verifying_in l :
  verifying_in seconds sample_config (eq sample_tools) (run_script l fresh).
Proof. apply drive_started; [apply execute_all_reachable, reachable_empty|apply vf_plays_admissible]. Qed.

Lemma script_verifying l : verifying seconds sample_config (run_script l fresh).
Proof. eapply started_mono, script_verifying_in; [apply enters_anything|by intros x [Hx _]]. Qed.

Definition steps_of (i n : nat) : list (option (nat * reply)) := replicate n (Some (i, Answered)).

Definition vf_call_at (i : nat) (sys : world verifications vf_call) : vf_call :=
  nth i (calls sys) no_verification.

Definition verification_returned (c : vf_call) : VerificationResult :=
  match vc_phase c with
  | VfReturned (Ok r) => r
  | _ => mkVerificationResult "" "" (mkArtifactRef "" "") [] false false
  end.

(** ** Histories *)

(** The first call verifies; the second one finds its result. *)
Definition first_done : world verifications vf_call := run_script (None :: steps_of 0 6) fresh.
Definition both_done : world verifications vf_call := run_script (None :: steps_of 1 3) first_done.

Example both_results :
  map (fun i => (VResult_Passed (verification_returned (vf_call_at i both_done)),
                 VResult_Replay (verification_returned (vf_call_at i both_done)))) [0%nat; 1%nat] =
  [(true, false); (true, true)].
Proof. vm_compute. reflexivity. Qed.

Example verified_task : task_states (store both_done) = [("TASK-001", TaskStateReviewing)].
Proof. vm_compute. reflexivity. Qed.

Lemma verification_decided_once_witness :
  let first := vf_call_at 0 first_done in let second := vf_call_at 1 both_done in
  vc_digest second = vc_digest first /\
  outcome (evidence_of (verification_returned second)) =
    outcome (evidence_of (verification_returned first)).
Proof.
  intros first second.
  apply (verification_decided_once seconds sample_config first_done both_done 0 1).
  - exact (script_verifying (None :: steps_of 0 6)).
  - exact (vf_script_steps (None :: steps_of 1 3) first_done).
  - vm_compute. reflexivity.
  - vm_compute. reflexivity.
  - vm_compute. reflexivity.
  - vm_compute. reflexivity.
  - exists "verification-1". vm_compute. split; reflexivity.
Defined.

(** Both calls have the evidence and the time of the transition. *)
Definition first_ready : world verifications vf_call := run_script (None :: steps_of 0 4) fresh.
Definition both_ready : world verifications vf_call := run_script (None :: steps_of 1 4) first_ready.

Definition no_handle : vf_handle := mkVfHandle "" "" "" None None.
Definition no_evidence : VerificationEvidence := mkEvidence (mkArtifactRef "" "") "" [] false.

Definition recording (c : vf_call) : vf_handle * VerificationEvidence * time :=
  match vc_phase c with VfRecording h e t => (h, e, t) | _ => (no_handle, no_evidence, at_time 0) end.

Definition recorded_evidence (c : vf_call) : VerificationEvidence := snd (fst (recording c)).

Lemma verification_command_stable_witness :
  let first := vf_call_at 0 first_ready in let second := vf_call_at 1 both_ready in
  verification_command sample_config second (recorded_evidence second) (snd (recording second)) =
  verification_command sample_config first (recorded_evidence first) (snd (recording first)).
Proof.
  intros first second.
  apply (verification_command_stable seconds sample_config first_ready both_ready 0 1 first second
    (fst (fst (recording first))) (fst (fst (recording second)))).
  - exact (script_verifying (None :: steps_of 0 4)).
  - exact (vf_script_steps (None :: steps_of 1 4) first_ready).
  - vm_compute. reflexivity.
  - vm_compute. reflexivity.
  - vm_compute. reflexivity.
  - vm_compute. reflexivity.
  - vm_compute. reflexivity.
  - vm_compute. reflexivity.
  - vm_compute. reflexivity.
Defined.

(** The first call records its evidence. *)
Definition stepped : vf_call * verifications * db :=
  step (meeting Answered 0 "owner-0") (vf_call_at 0 first_ready) (shared first_ready)
    (store first_ready).

Lemma stepped_parts :
  step (meeting Answered 0 "owner-0") (vf_call_at 0 first_ready) (shared first_ready)
    (store first_ready) = (fst (fst stepped), snd (fst stepped), snd stepped).
Proof. unfold stepped. by destruct (step _ _ _ _) as [[]]. Qed.

Lemma stepped_task : task_states (snd stepped) = [("TASK-001", TaskStateReviewing)].
Proof. vm_compute. reflexivity. Qed.

Lemma unstepped_task : task_states (store first_ready) = [("TASK-001", TaskStateVerifying)].
Proof. vm_compute. reflexivity. Qed.

Lemma first_ready_call : calls first_ready !! 0%nat = Some (vf_call_at 0 first_ready).
Proof. vm_compute. reflexivity. Qed.

Definition first_row : verification_row :=
  default (mkVerificationRow "" "" 0 0 None VfReserved) (shared first_ready !! "verification-1").

Definition first_evidence : VerificationEvidence :=
  result no_evidence (decode_evidence (default JNull (row_evidence first_row))).

Lemma passed_verification_sound_witness :
  soundly_verified (eq sample_tools) [make_check] "verification-1" (vr_request_digest first_row) /\
  exists h e t k row ev, vc_phase (vf_call_at 0 first_ready) = VfRecording h e t /\
    snd stepped = snd (ExecuteTask (fun _ => Clear) (fun _ => None)
      (verification_command sample_config (vf_call_at 0 first_ready) e t) (store first_ready)) /\
    uuid_column (VerificationID (vc_request (vf_call_at 0 first_ready))) = Some k /\
    shared first_ready !! k = Some row /\
    vr_request_digest row = vc_digest (vf_call_at 0 first_ready) /\ row_evidence row = Some ev /\
    keeps ev e /\
    (Evidence_Passed e = true -> soundly_verified (eq sample_tools) [make_check] k
       (vc_digest (vf_call_at 0 first_ready))).
Proof.
  destruct (passed_verification_sound seconds sample_config (eq sample_tools) [make_check]
    (shared first_ready) (store first_ready) (calls first_ready) DefaultCatalog_valid
    (started_parts _ _ _ _ first_ready (script_verifying_in (None :: steps_of 0 4)))) as [Hrows Hsteps].
  split.
  - apply (Hrows "verification-1" first_row (default JNull (row_evidence first_row)) first_evidence);
      vm_compute; reflexivity.
  - apply (Hsteps (meeting Answered 0 "owner-0") 0%nat (vf_call_at 0 first_ready) (fst (fst stepped))
      (snd (fst stepped)) (snd stepped)).
    + exact first_ready_call.
    + exact stepped_parts.
    + intros Heq. pose proof stepped_task as Ha. rewrite Heq, unstepped_task in Ha. discriminate Ha.
Defined.

(** ** A reservation whose answer is lost *)

Definition lost : world verifications vf_call :=
  run_script [None; Some (0%nat, AnswerLost (ErrNew "connection reset"))] fresh.

Definition no_row : verification_row := mkVerificationRow "" "" 0 0 None VfReserved.
Definition lost_row : verification_row := default no_row (shared lost !! "verification-1").

Definition later : vf_circumstances := meeting Answered 60000000 "owner-1".

Definition collected_evidence : VerificationEvidence :=
  result no_evidence (collectEvidence sample_tools (vc_request entering) (vc_mapped entering)
    (vc_report entering) (vc_plan entering)).

Definition taken_over : res CommandResult * db :=
  ExecuteTask (fun _ => Clear) (fun _ => None)
    (verification_command sample_config entering collected_evidence
       (scan_time (transition_time later lost_row))) (store lost).

Lemma taken_over_Ok : taken_over = (Ok (result no_result (fst taken_over)), snd taken_over).
Proof.
  assert (Ho : is_Ok (fst taken_over) = true) by (vm_compute; reflexivity).
  destruct taken_over as [[r|e] w]; [done|discriminate Ho].
Qed.

Definition stored_evidence : json := result JNull (jsonb_column (evidence_json collected_evidence)).
Definition stored_result : json :=
  result JNull (jsonb_column (result_json
    (verification_result entering collected_evidence (result no_result (fst taken_over))))).

Lemma lost_row_stored : shared lost !! "verification-1" = Some lost_row.
Proof. vm_compute. reflexivity. Qed.
Lemma lost_row_digest : vr_request_digest lost_row = vc_digest entering.
Proof. vm_compute. reflexivity. Qed.
Lemma lost_row_state : vr_state lost_row = VfReserved.
Proof. vm_compute. reflexivity. Qed.
Lemma lost_row_due : vr_reserved_until lost_row <= vx_clock later.
Proof. vm_compute. discriminate. Qed.
Lemma evidence_collected :
  collectEvidence (vx_around later) (vc_request entering) (vc_mapped entering) (vc_report entering)
    (vc_plan entering) = Ok collected_evidence.
Proof. vm_compute. reflexivity. Qed.
Lemma evidence_stored : jsonb_column (evidence_json collected_evidence) = Ok stored_evidence.
Proof. vm_compute. reflexivity. Qed.
Lemma result_stored :
  jsonb_column (result_json (verification_result entering collected_evidence
    (result no_result (fst taken_over)))) = Ok stored_result.
Proof. vm_compute. reflexivity. Qed.

Lemma expired_reservation_recovered_witness :
  exists s' row', vf_run seconds sample_config 8 later entering (shared lost) (store lost) =
      (vf_at (VfReturned (Ok (verification_result entering collected_evidence
         (result no_result (fst taken_over))))) entering, s', snd taken_over) /\
    s' !! "verification-1" = Some row' /\ vr_state row' = VfCompleted stored_evidence stored_result /\
    vr_owner row' = "owner-1".
Proof.
  exact (expired_reservation_recovered seconds sample_config later sample_tools (at_time 0)
    sample_verification entering (shared lost) (store lost) (snd taken_over) "verification-1" "owner-1"
    lost_row collected_evidence stored_evidence (result no_result (fst taken_over)) stored_result
    eq_refl entering_Ok eq_refl lost_row_stored lost_row_digest lost_row_state lost_row_due eq_refl eq_refl
    eq_refl evidence_collected evidence_stored taken_over_Ok result_stored).
Defined.
