(* ===== verification/BetaPolicy.v ===== *)
(** * The repository policy of the production beta

    Models [go/internal/beta/policy.go]: the policy, its validation, its
    canonical text and digest, and the check that the approved base is still
    where the remote has it, over the answers of git. *)

From S2P Require Import Prelude GoStd GoJson GoText WfTypes CtCommon.

Definition PolicyVersion : string := "1.0".

(** ** Data *)

Module Repository.
Record t := mk {
  Owner : string;
  Name : string;
  Root : string;
  Remote : string;
  RemoteURL : string;
  BaseBranch : string;
  BaseCommit : string;
}.
End Repository.

Record PolicyPaths := mkPolicyPaths {
  Readable : list string;
  Writable : list string;
  Prohibited : list string;
}.

Record PolicyLimits := mkPolicyLimits {
  MaximumTasks : Z;
  MaximumChangedFiles : Z;
  MaximumFileBytes : Z;
  MaximumTotalBytes : Z;
  ExecutionConcurrency : Z;
  VerificationConcurrency : Z;
}.

Record Images := mkImages {
  Image_Execution : string;
  Image_Verification : string;
}.

Record Policy := mkPolicy {
  Version : string;
  Policy_Repository : Repository.t;
  Policy_Paths : PolicyPaths;
  TrustedChecks : list string;
  Policy_Limits : PolicyLimits;
  Policy_Images : Images;
}.

(** ** Validation *)

(** [^sha256:[0-9a-f]{64}$] *)
Definition imagePattern (s : string) : bool := HasPrefix s "sha256:" && match_hex 64 (str_drop 7 s).

Definition CleanAbsolute (value : string) : bool :=
  path_IsAbs value && (path_Clean value == value).

Definition validateRepository (value : Repository.t) : res unit :=
  if (Repository.Owner value == "") || (Repository.Name value == "") || (Repository.Remote value == "") ||
     (Repository.RemoteURL value == "") || (Repository.BaseBranch value == "") ||
     negb (CleanAbsolute (Repository.Root value)) || negb (match_hex 40 (Repository.BaseCommit value))
  then Err (ErrText "invalid repository policy") else Ok tt.

Definition validateImages (value : Images) : res unit :=
  if negb (imagePattern (Image_Execution value)) || negb (imagePattern (Image_Verification value))
  then Err (ErrText "worker images must be immutable sha256 identities") else Ok tt.

Definition validateLimits (value : PolicyLimits) : res unit :=
  if (MaximumTasks value != 1) || (MaximumChangedFiles value <? 1) || (MaximumFileBytes value <? 1) ||
     (MaximumTotalBytes value <? MaximumFileBytes value) || (ExecutionConcurrency value <? 1) ||
     (VerificationConcurrency value <? 1) || (100 <? MaximumChangedFiles value) ||
     (2 ^ 20 <? MaximumFileBytes value) || (10 * 2 ^ 20 <? MaximumTotalBytes value) ||
     (4 <? ExecutionConcurrency value) || (2 <? VerificationConcurrency value)
  then Err (ErrText "invalid beta limits") else Ok tt.

(** [slices.IsSorted] *)
Fixpoint slices_IsSorted (values : list string) : bool :=
  match values with
  | a :: (b :: _) as rest => bool_decide (String.le a b) && slices_IsSorted rest
  | _ => true
  end.

Fixpoint validateTrustedChecks_loop (seen : gset string) (values : list string) : res unit :=
  match values with
  | [] => Ok tt
  | check :: rest =>
      if (check == "") || (TrimSpace check != check) || bool_decide (check ∈ seen)
      then Err (ErrText "trusted checks must be unique and non-empty")
      else validateTrustedChecks_loop ({[check]} ∪ seen) rest
  end.

Definition validateTrustedChecks (values : list string) : res unit :=
  if (length values =? 0)%nat then Err (ErrText "trusted checks are required")
  else
    validateTrustedChecks_loop ∅ values ;;
    if negb (slices_IsSorted values) then Err (ErrText "trusted checks must be sorted") else Ok tt.

Definition safePath (value : string) : bool :=
  (value != "") && (value != ".") && (value != "..") && negb (HasPrefix value "/") &&
  (path_Clean value == value) && negb (HasPrefix value "../") && negb (has_nul value).

Definition WithinAny (value : string) (roots : list string) : bool :=
  existsb (fun root => (value == root) || HasPrefix value (root +:+ "/")) roots.

Fixpoint validatePathGroup (previous : string) (group : list string) : res unit :=
  match group with
  | [] => Ok tt
  | item :: rest =>
      if negb (safePath item) || (item == previous)
      then Err (ErrText "invalid or duplicate policy path")
      else validatePathGroup item rest
  end.

Definition validatePathPolicy (value : PolicyPaths) : res unit :=
  for_each (fun group =>
    (if (length group =? 0)%nat || negb (slices_IsSorted group)
     then Err (ErrText "policy paths must be non-empty and sorted") else Ok tt) ;;
    validatePathGroup "" group) [Readable value; Writable value; Prohibited value] ;;
  for_each (fun writable =>
    if negb (WithinAny writable (Readable value)) || WithinAny writable (Prohibited value)
    then Err (ErrText "writable paths must be readable and not prohibited") else Ok tt) (Writable value) ;;
  for_each (fun prohibited =>
    if WithinAny prohibited (Writable value)
    then Err (ErrText "prohibited and writable paths overlap") else Ok tt) (Prohibited value).

Definition Policy_Validate (p : Policy) : res unit :=
  if Version p != PolicyVersion then Err (ErrText "unsupported beta policy version")
  else
    validateRepository (Policy_Repository p) ;;
    validateImages (Policy_Images p) ;;
    validateLimits (Policy_Limits p) ;;
    validatePathPolicy (Policy_Paths p) ;;
    validateTrustedChecks (TrustedChecks p).

(** ** The canonical text *)

Definition texts_json (l : list string) : json := JArr (map JStr l).

Definition policy_json (p : Policy) : json :=
  let r := Policy_Repository p in
  let l := Policy_Limits p in
  JObj [("version", JStr (Version p));
    ("repository", JObj [("owner", JStr (Repository.Owner r)); ("name", JStr (Repository.Name r));
       ("root", JStr (Repository.Root r)); ("remote", JStr (Repository.Remote r));
       ("remote_url", JStr (Repository.RemoteURL r)); ("base_branch", JStr (Repository.BaseBranch r));
       ("base_commit", JStr (Repository.BaseCommit r))]);
    ("paths", JObj [("readable", texts_json (Readable (Policy_Paths p)));
       ("writable", texts_json (Writable (Policy_Paths p)));
       ("prohibited", texts_json (Prohibited (Policy_Paths p)))]);
    ("trusted_checks", texts_json (TrustedChecks p));
    ("limits", JObj [("maximum_tasks", JNum (MaximumTasks l));
       ("maximum_changed_files", JNum (MaximumChangedFiles l));
       ("maximum_file_bytes", JNum (MaximumFileBytes l));
       ("maximum_total_bytes", JNum (MaximumTotalBytes l));
       ("execution_concurrency", JNum (ExecutionConcurrency l));
       ("verification_concurrency", JNum (VerificationConcurrency l))]);
    ("images", JObj [("execution", JStr (Image_Execution (Policy_Images p)));
       ("verification", JStr (Image_Verification (Policy_Images p)))])].

Section policy.
Context `{Platform}.

(** The text and its digest. *)
Definition Canonical (p : Policy) : res (string * string) :=
  Policy_Validate p ;;
  let body := json_text (policy_json p) in
  Ok (body, sha256_hex body).

(** A strict decoder gives the value and what follows it. *)
Definition DecodePolicy (decode : string -> res (Policy * string)) (at_EOF : string -> bool)
    (body : string) : res Policy :=
  '(value, rest) ← decode body;
  if negb (at_EOF rest) then Err (ErrText "policy has trailing content")
  else Policy_Validate value ;; Ok value.

(** ** The remote *)

(** [git] trims what the command printed. *)
Definition beta_git (run : list string -> res string) (arguments : list string) : res string :=
  output ← map_err (fun e => ErrWrap e "git") (run arguments); Ok (TrimSpace output).

Definition is_answer (r : res string) (expected : string) : bool :=
  match r with Ok answer => answer == expected | Err _ => false end.

(** [run] is git in the root of the repository. *)
Definition verifyRemoteBaseUsingCredential (run : list string -> res string) (p : Policy) : res unit :=
  let git := beta_git run in
  let r := Policy_Repository p in
  Policy_Validate p ;;
  if negb (is_answer (git ["remote"; "get-url"; Repository.Remote r]) (Repository.RemoteURL r))
  then Err (ErrText "repository remote mismatch")
  else
    head ← map_err (fun e => ErrWrap e "read remote base")
      (git ["ls-remote"; "--heads"; Repository.Remote r; "refs/heads/" +:+ Repository.BaseBranch r]);
    if negb (match Fields head with
             | [commit; _] => commit == Repository.BaseCommit r
             | _ => false
             end)
    then Err (ErrText "approved remote base moved")
    else if negb (is_answer (git ["rev-parse"; "--verify"; Repository.BaseCommit r +:+ "^{commit}"])
                    (Repository.BaseCommit r))
    then Err (ErrText "approved base is not a local commit")
    else if negb (is_answer (git ["rev-parse"; "--verify"; "refs/heads/" +:+ Repository.BaseBranch r])
                    (Repository.BaseCommit r))
    then Err (ErrText "local base branch does not equal approved commit")
    else Ok tt.

Definition VerifyRemoteBase := verifyRemoteBaseUsingCredential.

End policy.

(** ** What a valid policy promises *)

Lemma WithinAny_spec value roots :
  WithinAny value roots = true <->
  exists root, root ∈ roots /\ (value = root \/ HasPrefix value (root +:+ "/") = true).
Proof.
  unfold WithinAny. rewrite existsb_exists. setoid_rewrite <- list_elem_of_In.
  by setoid_rewrite orb_true_iff; setoid_rewrite bool_decide_eq_true.
Qed.

Lemma refused_unless (b : bool) e (r : res unit) :
  (if b then Err e else r) = Ok tt <-> b = false /\ r = Ok tt.
Proof. destruct b; naive_solver. Qed.

Lemma validatePathGroup_Ok previous group :
  validatePathGroup previous group = Ok tt ->
  (forall item, item ∈ group -> safePath item = true) /\
  forall l x y r, previous :: group = l ++ x :: y :: r -> x <> y.
Proof.
  revert previous. induction group as [|item rest IH]; intros previous; cbn [validatePathGroup].
  - intros _. split; [intros ? []%not_elem_of_nil|]. intros [|? [|]] x y r [=].
  - rewrite refused_unless, orb_false_iff, negb_false_iff, bool_decide_eq_false.
    intros [[Hs Hne] Hr]. destruct (IH _ Hr) as [Hall Hadj]. split.
    + intros i [->|Hi]%elem_of_cons; [done|by apply Hall].
    + intros [|a l] x y r Heq; injection Heq; intros; subst; [done|by eapply Hadj].
Qed.

Lemma slices_IsSorted_Sorted l : slices_IsSorted l = true -> Sorted String.le l.
Proof.
  induction l as [|a [|b l] IH]; [constructor|by constructor|].
  cbn [slices_IsSorted]. rewrite andb_true_iff, bool_decide_eq_true. intros [Hab Hs].
  constructor; [by apply IH|by constructor].
Qed.

(** Sorted, and no two neighbours equal: no two elements equal. *)
Lemma sorted_distinct l :
  Sorted String.le l -> (forall k x y r, l = k ++ x :: y :: r -> x <> y) -> NoDup l.
Proof.
  intros Hs%Sorted_StronglySorted; [|apply _]. induction Hs as [|a l Hs IH Ha]; intros Hadj; [constructor|].
  constructor; [|apply IH; intros k x y r ->; by apply (Hadj (a :: k) x y r)].
  intros Hin. destruct l as [|b l]; [by apply elem_of_nil in Hin|].
  apply (Hadj [] a b l eq_refl). apply (anti_symm String.le); [by inversion Ha|].
  apply elem_of_cons in Hin as [->|Hin]; [done|].
  by eapply Forall_forall in Hin; [|by inversion Hs].
Qed.

(** What the validation of a policy promises about its paths: every path is
    inside the repository, no group names a path twice, what may be written may
    be read, and nothing that may be written is above, below or at a prohibited
    path. *)
Theorem policy_scopes_sound p :
  Policy_Validate p = Ok tt ->
  (forall group, group ∈ [Readable (Policy_Paths p); Writable (Policy_Paths p); Prohibited (Policy_Paths p)] ->
     group <> [] /\ NoDup group /\ forall path, path ∈ group -> safePath path = true) /\
  (forall path, path ∈ Writable (Policy_Paths p) ->
     WithinAny path (Readable (Policy_Paths p)) = true /\
     forall prohibited, prohibited ∈ Prohibited (Policy_Paths p) ->
       WithinAny path [prohibited] = false /\ WithinAny prohibited [path] = false).
Proof.
  unfold Policy_Validate. rewrite refused_unless, !then_Ok. intros (_ & _ & _ & _ & Hp & _).
  unfold validatePathPolicy in Hp. rewrite !then_Ok, !for_each_Ok, !Forall_forall in Hp.
  destruct Hp as (Hgroups & Hwritable & Hprohibited). split.
  - intros group Hg. specialize (Hgroups group Hg). cbn beta in Hgroups.
    rewrite then_Ok, refused_unless, orb_false_iff, negb_false_iff in Hgroups.
    destruct Hgroups as [[[Hne Hs] _] Hd]. apply validatePathGroup_Ok in Hd as [Hall Hadj].
    split_and!; [by intros ->| |done]. apply sorted_distinct; [by apply slices_IsSorted_Sorted|].
    intros k x y r ->. by apply (Hadj ("" :: k) x y r).
  - intros path Hw. specialize (Hwritable path Hw). cbn beta in Hwritable.
    rewrite refused_unless, orb_false_iff, negb_false_iff in Hwritable.
    destruct Hwritable as [[Hr Hno] _]. split; [done|]. intros q Hq.
    specialize (Hprohibited q Hq). cbn beta in Hprohibited. rewrite refused_unless in Hprohibited.
    destruct Hprohibited as [Hq' _]. split; apply not_true_iff_false.
    + intros (root & ->%list_elem_of_singleton & H)%WithinAny_spec.
      apply (proj2 (not_true_iff_false _) Hno), WithinAny_spec. eauto.
    + intros (root & ->%list_elem_of_singleton & H)%WithinAny_spec.
      apply (proj2 (not_true_iff_false _) Hq'), WithinAny_spec. eauto.
Qed.
