(* ===== verification/RtBuilder.v ===== *)
(** * Snapshots, contexts and requests for the reasoning services

    Models [go/internal/runtime/builder.go]: the snapshot of a repository and
    its validation, the files that a model is shown, the requests that are built
    for the implementation and for the review, and the specification and the
    graph that are stored for approval.  The answers of git and the artifact
    store are arguments.  A null entry of a decoded snapshot is an entry of the
    zero value: validation refuses both. *)

From S2P Require Import Prelude GoStd GoJson GoText WfTypes CtMessages CtCommon CtPlanning CtImplementation.
From S2P Require Import ExRequest VfEvidence BetaPolicy.

Definition ErrScopeLimit : error := ErrNew "repository context exceeds approved limit".
Definition ErrScope : error := ErrNew "repository path is outside approved scope".

(** ** Data *)

Record RepositorySnapshot := mkSnapshot {
  Snapshot_BaseCommit : string;
  Entries : list pb_RepositoryEntry;
}.

Record ContextLimits := mkContextLimits {
  MaxFiles : Z;
  MaxBytes : Z;
}.

Record ReasoningLimits := mkReasoningLimits {
  MaximumInputTokens : Z;
  MaximumOutputTokens : Z;
  MaximumProviderRequests : Z;
}.

Record ImplementationInput := mkImplementationInput {
  II_RequestID : string;
  II_RunID : string;
  II_TaskID : string;
  II_ManifestDigest : string;
  II_Attempt : Z;
  II_CreatedAt : time;
  II_ExpiresAt : time;
  II_BaseCommit : string;
  II_ApprovedSpecificationID : string;
  II_ApprovedSpecification : ArtifactRef;
  II_ApprovedTask : ArtifactRef;
  II_Task : option pb_PlannedTask;
  II_Snapshot : RepositorySnapshot;
  II_ContextLimits : ContextLimits;
  II_Budget : ReasoningLimits;
}.

Record ReviewInput := mkReviewInput {
  RI_RequestID : string;
  RI_RunID : string;
  RI_TaskID : string;
  RI_ManifestDigest : string;
  RI_Attempt : Z;
  RI_CreatedAt : time;
  RI_ExpiresAt : time;
  RI_ApprovedSpecification : ArtifactRef;
  RI_ApprovedTask : ArtifactRef;
  RI_ImplementationProposal : ArtifactRef;
  RI_ExecutionArtifact : ArtifactRef;
  RI_VerificationArtifact : ArtifactRef;
  RI_Execution : ExecutionReport;
  RI_Verification : VerificationReport;
  RI_AuthorizedWritablePaths : list string;
  RI_ApprovedAcceptanceCriterionIDs : list string;
  RI_Budget : ReasoningLimits;
}.

(** ** Paths *)

Definition safeRepoPath (value : string) : bool :=
  (value != "") && (value == path_Clean value) && negb (path_IsAbs value) && (value != ".") &&
  (value != ".git") && negb (HasPrefix value "../") && negb (HasPrefix value ".git/") &&
  negb (Contains value (String backslash "")) && string_forallb (fun c => negb (is_ctl c)) value.

Definition withinAny (value : string) (roots : list string) : bool :=
  existsb (fun root =>
    let root := TrimSuffix (path_Clean root) "/" in
    safeRepoPath root && ((value == root) || HasPrefix value (root +:+ "/"))) roots.

(** ** Snapshots *)

Fixpoint entries_ok (previous : string) (entries : list pb_RepositoryEntry) : bool :=
  match entries with
  | [] => true
  | entry :: rest =>
      (ry_kind entry == "blob") && safeRepoPath (ry_path entry) &&
      negb (bool_decide (String.le (ry_path entry) previous)) && match_hex 64 (ry_sha256 entry) &&
      entries_ok (ry_path entry) rest
  end.

Definition RepositorySnapshot_Validate (s : RepositorySnapshot) (baseCommit : string) : res unit :=
  if (Snapshot_BaseCommit s != baseCommit) || (length (Entries s) =? 0)%nat ||
     negb (match_hex 40 (Snapshot_BaseCommit s)) || negb (entries_ok "" (Entries s))
  then Err ErrScope else Ok tt.

(** [decode] reads one value strictly and says what follows it. *)
Definition DecodeRepositorySnapshot (decode : string -> res (RepositorySnapshot * string))
    (at_EOF : string -> bool) (body baseCommit : string) : res RepositorySnapshot :=
  '(snapshot, rest) ← map_err (fun _ => ErrWrap ErrScope "decode repository map") (decode body);
  if negb (at_EOF rest) then Err (ErrWrap ErrScope "repository map trailing content")
  else RepositorySnapshot_Validate snapshot baseCommit ;; Ok snapshot.

Definition path_before (a b : pb_RepositoryEntry) : Prop := String.le (ry_path a) (ry_path b).
#[global] Instance path_before_dec : RelDecision path_before.
Proof. intros a b. unfold path_before. apply _. Defined.

Section builder.
Context `{Platform} `{Protobuf} `{Wire}.

(** One record of [git ls-tree -rz]. *)
Definition snapshot_entry (git : list string -> res string) (record : string)
    : res pb_RepositoryEntry :=
  match cut_at (byte 9) record with
  | Some (header, name) =>
      match Fields header with
      | [_; kind; object] =>
          if (kind != "blob") || negb (safeRepoPath name) then Err ErrScope
          else
            body ← git ["cat-file"; "blob"; object];
            Ok (mkRepositoryEntry name "blob" (sha256_hex body))
      | _ => Err ErrScope
      end
  | None => Err ErrScope
  end.

Definition SnapshotRepository (git : list string -> res string) (root base : string)
    : res RepositorySnapshot :=
  if negb (CleanAbsolute root) then Err ErrScope
  else
    commitBody ← map_err (fun e => ErrWrap e "resolve base commit")
      (git ["rev-parse"; "--verify"; base +:+ "^{commit}"]);
    let commit := TrimSpace commitBody in
    if negb (String.length commit =? 40)%nat then Err ErrScope
    else
      tree ← git ["ls-tree"; "-rz"; "--full-tree"; commit];
      entries ← map_each (snapshot_entry git) (filter (fun r => r <> "") (split_at (byte 0) tree));
      let snapshot := mkSnapshot commit (merge_sort path_before (arbitrary_order entries)) in
      RepositorySnapshot_Validate snapshot commit ;; Ok snapshot.

(** ** The files that are shown *)

(** [strconv.ParseInt(s, 10, 64)] *)
Definition digits_value (s : string) : option Z :=
  if (s == "") || negb (string_forallb is_digit s) then None
  else Some (foldl (fun acc c => acc * 10 + (byte_of c - 48)) 0 (String.list_ascii_of_string s)).

Definition ParseInt (s : string) : option Z :=
  let signed :=
    match s with
    | String "-" rest => Z.opp <$> digits_value rest
    | String "+" rest => digits_value rest
    | _ => digits_value s
    end in
  match signed with
  | Some n => if (- 2 ^ 63 <=? n) && (n <=? max_i64) then Some n else None
  | None => None
  end.

(** The answers that are left on the stream, for the entries that are left. *)
Fixpoint read_batch (stream : string) (entries : list pb_RepositoryEntry) (remaining : Z)
    : res (list pb_RepositoryContextFile) :=
  match entries with
  | [] => Ok []
  | entry :: rest =>
      match cut_at (byte 10) stream with
      | None => Err (ErrText "read Git batch header")
      | Some (header, stream) =>
          match Fields header with
          | [_; kind; text] =>
              if kind != "blob" then Err ErrScope
              else
                match ParseInt text with
                | None => Err ErrScopeLimit
                | Some size =>
                    if (size <? 0) || (remaining <? size) then Err ErrScopeLimit
                    else if str_len stream <? size then Err (ErrText (if stream == "" then "EOF" else "unexpected EOF"))
                    else
                      let body := str_take (Z.to_nat size) stream in
                      match str_drop (Z.to_nat size) stream with
                      | String c stream =>
                          if c != byte 10 then Err ErrScope
                          else if sha256_hex body != ry_sha256 entry then Err ErrScope
                          else
                            files ← read_batch stream rest (remaining - size);
                            Ok (mkContextFile (ry_path entry) (ry_sha256 entry) body :: files)
                      | EmptyString => Err ErrScope
                      end
                end
          | _ => Err ErrScope
          end
      end
  end.

(** [git cat-file --batch -z]: it does not start, or this is what it printed and
    how writing to it and waiting for it ended. *)
Abbreviation batch_process := (list string -> res (string * res unit)).

Definition readContextBatch (batch : batch_process) (commit : string)
    (entries : list pb_RepositoryEntry) (maximum : Z) : res (list pb_RepositoryContextFile) :=
  if negb (forallb (fun entry => safeRepoPath (ry_path entry)) entries) then Err ErrScope
  else
    '(stdout, ended) ← batch (map (fun entry => commit +:+ ":" +:+ ry_path entry) entries);
    files ← read_batch stdout entries maximum;
    ended ;; Ok files.

Fixpoint select_entries (readable : list string) (room : Z) (entries : list pb_RepositoryEntry)
    : res (list pb_RepositoryEntry) :=
  match entries with
  | [] => Ok []
  | entry :: rest =>
      if negb (withinAny (ry_path entry) readable) then select_entries readable room rest
      else if room =? 0 then Err ErrScopeLimit
      else selected ← select_entries readable (room - 1) rest; Ok (entry :: selected)
  end.

(** The prohibited paths are not looked at. *)
Definition BuildImplementationContext (batch : batch_process) (commit : string)
    (snapshot : RepositorySnapshot) (readable : list string) (limits : ContextLimits)
    : res (list pb_RepositoryContextFile) :=
  if (commit != Snapshot_BaseCommit snapshot) || (MaxFiles limits <=? 0) || (MaxBytes limits <=? 0)
  then Err ErrScope
  else
    selected ← select_entries readable (MaxFiles limits) (Entries snapshot);
    if (length selected =? 0)%nat then Err ErrScope
    else readContextBatch batch commit selected (MaxBytes limits).

(** ** Requests *)

Definition artifactDigest (ref : ArtifactRef) : pb_ArtifactDigest := mkArtifactDigest (URI ref) (Digest ref).

Definition requestEnvelope (requestID runID taskID : string) (attempt stage : Z)
    (createdAt expiresAt : time) (manifestDigest : string) (budget : ReasoningLimits)
    (artifacts : list pb_ArtifactDigest) : pb_ReasoningRequestEnvelope :=
  mkRequestEnvelope "1" requestID runID (Some taskID) stage attempt (Some (Timestamp_New (UTC createdAt)))
    (Some (Timestamp_New (UTC expiresAt)))
    (Some (mkAuthority AUTHORITY_MODE_PROPOSAL_ONLY false false false false false))
    (Some (mkBudget (MaximumInputTokens budget) (MaximumOutputTokens budget) (MaximumProviderRequests budget)))
    artifacts manifestDigest.

(** The files are stored, and the store has to agree about their digests. *)
Definition store_context (put : string -> res ArtifactRef) (files : list pb_RepositoryContextFile)
    : res (list pb_ArtifactDigest) :=
  map_each (fun file =>
    ref ← put (rf_content file);
    if Digest ref != rf_sha256 file then Err ErrScope else Ok (artifactDigest ref)) files.

Definition BuildImplementationRequest (batch : batch_process) (put : string -> res ArtifactRef)
    (input : ImplementationInput) : res pb_ImplementationRequest :=
  match II_Task input with
  | None => Err ErrScope
  | Some task =>
      if (pt_task_id task != II_TaskID input) ||
         (II_BaseCommit input != Snapshot_BaseCommit (II_Snapshot input))
      then Err ErrScope
      else
        contextFiles ← BuildImplementationContext batch (II_BaseCommit input) (II_Snapshot input)
          (pt_readable_paths task) (II_ContextLimits input);
        stored ← store_context put contextFiles;
        Ok (mkImplementationRequest
          (Some (requestEnvelope (II_RequestID input) (II_RunID input) (II_TaskID input)
             (II_Attempt input) REASONING_STAGE_IMPLEMENTATION (II_CreatedAt input) (II_ExpiresAt input)
             (II_ManifestDigest input) (II_Budget input)
             ([artifactDigest (II_ApprovedSpecification input); artifactDigest (II_ApprovedTask input)] ++
              stored)))
          (II_TaskID input) (Digest (II_ApprovedTask input)) (II_ApprovedSpecificationID input)
          (Digest (II_ApprovedSpecification input)) (II_BaseCommit input) (pt_readable_paths task)
          (pt_writable_paths task) (pt_prohibited_paths task) (pt_acceptance_criterion_ids task)
          (pt_required_check_ids task) contextFiles)
  end.

(** Every operation of a report is one of the three. *)
Definition reviewFileOperation (value : FileOperation) : Z :=
  match value with
  | FileCreate => FILE_OPERATION_CREATE
  | FileUpdate => FILE_OPERATION_UPDATE
  | FileDelete => FILE_OPERATION_DELETE
  end.

(** [fmt.Sprintf("EVIDENCE-%03d", n)] *)
Definition evidence_id (n : nat) : string :=
  let digits := decimal (Z.of_nat n) in
  "EVIDENCE-" +:+ String.string_of_list_ascii (replicate (3 - String.length digits) "0"%char) +:+ digits.

Definition i32 (z : Z) : Z := (z + 2 ^ 31) `mod` 2 ^ 32 - 2 ^ 31.

Definition parse_time (s : string) : res time :=
  match parse_rfc3339 s with Some t => Ok t | None => Err (ErrText "parsing time") end.

Definition independent_evidence (n : nat) (check : CheckResult) : res pb_IndependentEvidence :=
  started ← parse_time (StartedAt check);
  completed ← parse_time (FinishedAt check);
  Ok (mkPbEvidence (evidence_id n) (Result_CheckID check) (Result_CandidateCommit check)
        (i32 (ExitCode check)) (OutputDigest check) (URI (Output check))
        (Some (Timestamp_New started)) (Some (Timestamp_New completed))).

(** The evidence, with the identifier that each check got last. *)
Fixpoint collect_evidence (n : nat) (ids : gmap string string) (checks : list CheckResult)
    : res (list pb_IndependentEvidence * gmap string string) :=
  match checks with
  | [] => Ok ([], ids)
  | check :: rest =>
      evidence ← independent_evidence n check;
      '(others, ids) ← collect_evidence (S n) (<[Result_CheckID check := evidence_id n]> ids) rest;
      Ok (evidence :: others, ids)
  end.

Definition acceptance_evidence (ids : gmap string string) (criterion : CriterionCoverage)
    : res pb_AcceptanceEvidence :=
  known ← map_each (fun check => match ids !! check with Some id => Ok id | None => Err ErrScope end)
    (Coverage_CheckIDs criterion);
  Ok (mkPbCoverage (Coverage_CriterionID criterion) known).

(** The pointer to the input is never nil. *)
Definition BuildReviewRequest (input : ReviewInput) : res pb_ReviewRequest :=
  let execution := RI_Execution input in
  let verification := RI_Verification input in
  if negb (VR_Passed verification) || (Exec_CandidateCommit execution != VR_CandidateCommit verification) ||
     (Exec_CandidateCommit execution == "")
  then Err ErrScope
  else
    let allowed entry := withinAny (Diff_Path entry) (RI_AuthorizedWritablePaths input) in
    '(evidence, ids) ← collect_evidence 1 ∅ (VR_Checks verification);
    coverage ← map_each (acceptance_evidence ids) (VR_Coverage verification);
    Ok (mkPbReviewRequest
      (Some (requestEnvelope (RI_RequestID input) (RI_RunID input) (RI_TaskID input) (RI_Attempt input)
         REASONING_STAGE_REVIEW (RI_CreatedAt input) (RI_ExpiresAt input) (RI_ManifestDigest input)
         (RI_Budget input)
         (map artifactDigest [RI_ApprovedSpecification input; RI_ApprovedTask input;
            RI_ImplementationProposal input; RI_ExecutionArtifact input; RI_VerificationArtifact input])))
      (Some (mkPbCandidate (Digest (RI_ApprovedSpecification input)) (Digest (RI_ApprovedTask input))
         (Exec_BaseCommit execution) (Exec_CandidateCommit execution)
         (Digest (RI_ImplementationProposal input))))
      (map (fun entry => mkPbDiff (Diff_Path entry) (reviewFileOperation (Diff_Operation entry))
                           (BeforeSHA256 entry) (AfterSHA256 entry)) (ActualDiff execution))
      (Some (mkPbScope
         (map Diff_Path (filter (fun entry => allowed entry = true) (ActualDiff execution)))
         (map Diff_Path (filter (fun entry => allowed entry = false) (ActualDiff execution)))))
      evidence coverage
      (Some (mkPbPolicy [FINDING_SEVERITY_HIGH; FINDING_SEVERITY_CRITICAL] true))
      (RI_ApprovedAcceptanceCriterionIDs input) (RI_AuthorizedWritablePaths input)).

(** ** What is stored for approval *)

Definition BuildApprovedSpecification (put : string -> res ArtifactRef)
    (request : option pb_SpecificationRequest) (proposal : option pb_SpecificationProposal)
    : res ArtifactRef :=
  mapped ← MapSpecificationRequest request;
  MapSpecificationProposal proposal mapped ≫= fun _ =>
  body ← marshal_specification_proposal proposal;
  put body.

Definition first_slice : error := ErrWrap ErrScope "first slice requires one dependency-free task".

Definition validateRequiredChecks (values : list string) (trusted : gset string) : res unit :=
  for_each (fun check => if bool_decide (check ∈ trusted) then Ok tt
                         else Err (ErrWrap ErrScope "untrusted check")) values.

(** The tasks of the proposal, as its getter shows them. *)
Definition proposed_tasks (proposal : option pb_TaskGraphProposal) : list pb_PlannedTask :=
  match proposal with Some p => tg_tasks p | None => [] end.

(** The single task without dependencies, as it was mapped and as proposed. *)
Definition single_task (graph : TaskGraphProposal) (proposal : option pb_TaskGraphProposal)
    : res (PlannedTask * pb_PlannedTask) :=
  match Tasks graph, proposed_tasks proposal with
  | [planned], [task] =>
      if (length (Dependencies planned) =? 0)%nat then Ok (planned, task) else Err first_slice
  | _, _ => Err first_slice
  end.

Definition BuildApprovedTask (put : string -> res ArtifactRef) (request : option pb_TaskPlanningRequest)
    (proposal : option pb_TaskGraphProposal) (trustedChecks : gset string)
    : res (ArtifactRef * pb_PlannedTask) :=
  mapped ← MapTaskPlanningRequest request;
  graph ← MapTaskGraphProposal proposal mapped;
  '(planned, task) ← single_task graph proposal;
  validateRequiredChecks (RequiredCheckIDs planned) trustedChecks ;;
  body ← marshal_planned_task (Some task);
  ref ← put body;
  Ok (ref, task).

(** The getters of the request. *)
Definition validatePlanningPolicy (request : option pb_TaskPlanningRequest) (policy : Policy) : res unit :=
  let get {A} (zero : A) (f : pb_TaskPlanningRequest -> A) := match request with Some r => f r | None => zero end in
  if negb (is_Ok (Policy_Validate policy)) ||
     bool_decide (get [] pr_readable_paths <> Readable (Policy_Paths policy)) ||
     bool_decide (get [] pr_writable_paths <> Writable (Policy_Paths policy)) ||
     bool_decide (get [] pr_prohibited_paths <> Prohibited (Policy_Paths policy)) ||
     (get 0 pr_task_count_limit != u32 (MaximumTasks (Policy_Limits policy))) ||
     (get 0 pr_parallelism_limit != u32 (ExecutionConcurrency (Policy_Limits policy)))
  then Err ErrScope else Ok tt.

Definition validatePlannedPaths (planned : PlannedTask) (paths : PolicyPaths) : res unit :=
  if forallb (fun value => WithinAny value (Readable paths)) (PT_ReadablePaths planned) &&
     forallb (fun value => WithinAny value (Writable paths)) (PT_WritablePaths planned) &&
     forallb (fun value => WithinAny value (PT_ProhibitedPaths planned)) (Prohibited paths)
  then Ok tt else Err ErrScope.

Definition validatePlannedTask (graph : TaskGraphProposal) (proposal : option pb_TaskGraphProposal)
    (trustedChecks : gset string) (policy : Policy) : res unit :=
  '(planned, _) ← single_task graph proposal;
  validateRequiredChecks (RequiredCheckIDs planned) trustedChecks ;;
  validatePlannedPaths planned (Policy_Paths policy).

(** The graph is stored, and its first task. *)
Definition storeApprovedTaskGraph (put : string -> res ArtifactRef) (proposal : option pb_TaskGraphProposal)
    : res (ArtifactRef * ArtifactRef) :=
  graphBody ← marshal_task_graph_proposal proposal;
  graphRef ← put graphBody;
  taskBody ← marshal_planned_task (head (proposed_tasks proposal));
  taskRef ← put taskBody;
  Ok (graphRef, taskRef).

Definition BuildApprovedTaskGraph (put : string -> res ArtifactRef)
    (request : option pb_TaskPlanningRequest) (proposal : option pb_TaskGraphProposal)
    (trustedChecks : gset string) (policy : Policy)
    : res (ArtifactRef * ArtifactRef * option pb_PlannedTask) :=
  map_err (fun _ => ErrWrap ErrScope "task policy mismatch") (validatePlanningPolicy request policy) ;;
  mapped ← MapTaskPlanningRequest request;
  graph ← MapTaskGraphProposal proposal mapped;
  validatePlannedTask graph proposal trustedChecks policy ;;
  '(graphRef, taskRef) ← storeApprovedTaskGraph put proposal;
  Ok (graphRef, taskRef, head (proposed_tasks proposal)).

End builder.
