(* ===== verification/RtBuilderProps.v ===== *)
(** * What is built for the models and for the approvers *)

From S2P Require Import Prelude GoStd GoJson GoText WfTypes CtMessages CtCommon CtPlanning CtGraph CtPlanningProps.
From S2P Require Import CtImplementation CtSamples ExRequest VfEvidence BetaPolicy RtBuilder.

(** ** Paths and scopes *)

Lemma WithinAny_below value roots :
  WithinAny value roots = true <-> exists root, root ∈ roots /\ below root value.
Proof. rewrite WithinAny_spec. by setoid_rewrite below_spec. Qed.

Lemma below_trans a b c : below a b -> below b c -> below a c.
Proof. unfold below. by intros ->. Qed.

(** Two paths with a common path below them are comparable. *)
Lemma below_comparable a b c : below a c -> below b c -> below a b \/ below b a.
Proof. apply prefix_weak_total. Qed.

(** ** The graph that is stored for approval *)

Section graphs.
Context `{Platform} `{!PlatformLaws} `{Protobuf} `{Wire}.

Lemma single_task_Ok graph proposal planned task :
  single_task graph proposal = Ok (planned, task) ->
  Tasks graph = [planned] /\ proposed_tasks proposal = [task] /\ Dependencies planned = [].
Proof.
  unfold single_task. destruct (Tasks graph) as [|a [|]]; try done.
  destruct (proposed_tasks proposal) as [|b [|]]; try done.
  destruct (Dependencies a) eqn:E; [|done]. by intros [= <- <-].
Qed.

Lemma validateRequiredChecks_Ok values trusted :
  validateRequiredChecks values trusted = Ok tt <-> forall check, check ∈ values -> check ∈ trusted.
Proof.
  unfold validateRequiredChecks. rewrite for_each_Ok, Forall_forall.
  apply forall_proper. intros check. case_bool_decide; naive_solver.
Qed.

Lemma validatePlannedPaths_Ok planned paths :
  validatePlannedPaths planned paths = Ok tt ->
  (forall p, p ∈ PT_ReadablePaths planned -> WithinAny p (Readable paths) = true) /\
  (forall p, p ∈ PT_WritablePaths planned -> WithinAny p (Writable paths) = true) /\
  (forall p, p ∈ Prohibited paths -> WithinAny p (PT_ProhibitedPaths planned) = true).
Proof.
  unfold validatePlannedPaths. destruct (_ && _) eqn:E; [|done]. intros _.
  rewrite !andb_true_iff, !forallb_forall in E. setoid_rewrite <- list_elem_of_In in E. tauto.
Qed.

(** C26: A task graph that is stored for approval is one task without dependencies, whose checks are
    trusted and whose scope keeps the policy of the repository: whatever lies within its readable
    paths may be read, whatever lies within its writable paths may be written, and nothing within
    its writable paths lies within a path that the policy prohibits; and what is approved is the
    task that was proposed. *)
Theorem approved_graph_within_policy put request proposal trusted policy graphRef taskRef task :
  BuildApprovedTaskGraph put request proposal trusted policy = Ok (graphRef, taskRef, task) ->
  exists p t, proposal = Some p /\ tg_tasks p = [t] /\ task = Some t /\
    Policy_Validate policy = Ok tt /\
    (exists graphBody taskBody, marshal_task_graph_proposal proposal = Ok graphBody /\
       put graphBody = Ok graphRef /\ marshal_planned_task task = Ok taskBody /\ put taskBody = Ok taskRef) /\
    pt_dependencies t = [] /\ (forall check, check ∈ pt_required_check_ids t -> check ∈ trusted) /\
    (forall f, WithinAny f (pt_readable_paths t) = true ->
       WithinAny f (Readable (Policy_Paths policy)) = true) /\
    forall f, WithinAny f (pt_writable_paths t) = true ->
      WithinAny f (Writable (Policy_Paths policy)) = true /\
      WithinAny f (Prohibited (Policy_Paths policy)) = false.
Proof.
  unfold BuildApprovedTaskGraph. rewrite then_Ok. intros [Hpol%map_err_Ok Hr].
  apply res_bind_Ok in Hr as (mapped & _ & (graph & Hgraph & Hr)%res_bind_Ok).
  rewrite then_Ok in Hr. destruct Hr as [Hp Hr]. apply res_bind_Ok in Hr as ([g k] & Hst & [= <- <- <-]).
  unfold validatePlannedTask in Hp. apply res_bind_Ok in Hp as ([planned t] & Hone & Hp).
  rewrite then_Ok, validateRequiredChecks_Ok in Hp. destruct Hp as [Hchecks Hpaths].
  apply single_task_Ok in Hone as (Htasks & Hprop & Hdeps).
  destruct proposal as [p|]; [|done]. cbn [proposed_tasks] in *.
  destruct (proj1 (MapTaskGraphProposal_spec _ _ _) Hgraph) as [(ident & _ & Hok) ->]. cbn [Tasks] in Htasks.
  rewrite Hprop in *. injection Htasks as <-. apply validatePlannedPaths_Ok in Hpaths as (Hread & Hwrite & Hno).
  assert (Hvalid : Policy_Validate policy = Ok tt).
  { unfold validatePlanningPolicy in Hpol. destruct (Policy_Validate policy) as [[]|]; [done|done]. }
  exists p, t. unfold storeApprovedTaskGraph in Hst.
  apply res_bind_Ok in Hst as (gb & Hgb & (gr & Hgr & Hst)%res_bind_Ok).
  apply res_bind_Ok in Hst as (tb & Htb & (tr & Htr & [= <- <-])%res_bind_Ok). cbn [proposed_tasks] in Htb.
  rewrite Hprop in Htb. split_and!; try done; [by exists gb, tb|..].
  - intros f (root & Hroot & Hf)%WithinAny_below. specialize (Hread root Hroot).
    apply WithinAny_below in Hread as (r & Hr & Hb). apply WithinAny_below. exists r.
    split; [done|by eapply below_trans].
  - intros f (w & Hw & Hf)%WithinAny_below. split.
    + specialize (Hwrite w Hw). apply WithinAny_below in Hwrite as (r & Hr & Hb).
      apply WithinAny_below. exists r. split; [done|by eapply below_trans].
    + apply not_true_iff_false. intros (q & Hq & Hfq)%WithinAny_below.
      specialize (Hno q Hq). apply WithinAny_below in Hno as (r & Hr & Hqr).
      destruct (ta_scopes _ _ _ (ga_tasks _ _ _ Hok t ltac:(rewrite Hprop; by left))) as (_ & _ & _ & Hapart).
      destruct (Hapart w r Hw Hr) as [Hwr Hrw].
      destruct (below_comparable w r f Hf (below_trans _ _ _ Hqr Hfq)); tauto.
Qed.

End graphs.

(** ** The files that a model is shown *)

Definition newline_byte : ascii := byte 10.
Definition lacks (c : ascii) (s : string) : Prop := string_forallb (fun d => negb (d == c)) s = true.

Lemma cut_at_spec c s a b : cut_at c s = Some (a, b) <-> s = a +:+ String c b /\ lacks c a.
Proof.
  unfold lacks. revert a b. induction s as [|d s IH]; intros a b; cbn [cut_at].
  - split; [done|]. intros [E _]. by destruct a.
  - destruct (bool_decide_reflect (d = c)) as [->|Hne].
    + split; [intros [= <- <-]; by split|]. intros [E Hl]. destruct a as [|e a].
      { by injection E as ->. }
      injection E as <- _. cbn [string_forallb] in Hl. by rewrite bool_decide_true in Hl.
    + destruct (cut_at c s) as [[x y]|] eqn:Ec; split.
      * intros [= <- <-]. destruct (proj1 (IH x y) eq_refl) as [-> Hl]. split; [done|].
        cbn [string_forallb]. by rewrite bool_decide_false.
      * intros [E Hl]. destruct a as [|e a]; [by injection E as <- <-|]. injection E as <- E.
        cbn [string_forallb] in Hl. rewrite bool_decide_false in Hl by done.
        assert (Hx : Some (x, y) = Some (a, b)) by (apply IH; by split). by injection Hx as -> ->.
      * done.
      * intros [E Hl]. destruct a as [|e a]; [by injection E as <- _|]. injection E as <- E.
        cbn [string_forallb] in Hl. rewrite bool_decide_false in Hl by done.
        assert (Hx : None = Some (a, b)) by (apply IH; by split). done.
Qed.

Lemma str_take_drop n s : str_take n s +:+ str_drop n s = s.
Proof. revert s. induction n as [|n IH]; intros s; [done|]. destruct s as [|c s]; [done|]. cbn. by rewrite app_cons_str, IH. Qed.

Lemma str_take_length n s : (n <= String.length s)%nat -> String.length (str_take n s) = n.
Proof. revert s. induction n as [|n IH]; intros [|c s]; cbn; intros Hn; [done..|lia|]. rewrite IH; lia. Qed.

Definition total_bytes (contents : list string) : Z := foldr (fun c n => str_len c + n) 0 contents.

Section contexts.
Context `{Platform} `{Protobuf} `{Wire}.

(** What git prints for the entries: for each one a line that ends in the size
    of a blob, the blob, which is the one of the snapshot, and an end of line. *)
Inductive framed : string -> list pb_RepositoryEntry -> list string -> Prop :=
| framed_end s : framed s [] []
| framed_blob header object text content s entry entries contents :
    lacks newline_byte header -> Fields header = [object; "blob"; text] ->
    ParseInt text = Some (str_len content) -> sha256_hex content = ry_sha256 entry ->
    framed s entries contents ->
    framed (header +:+ String newline_byte (content +:+ String newline_byte s)) (entry :: entries)
      (content :: contents).

Definition context_file (entry : pb_RepositoryEntry) (content : string) : pb_RepositoryContextFile :=
  mkContextFile (ry_path entry) (ry_sha256 entry) content.

Lemma str_take_len s t : str_take (Z.to_nat (str_len s)) (s +:+ t) = s.
Proof. unfold str_len. rewrite Nat2Z.id. apply str_take_app. Qed.

Lemma str_drop_len s t : str_drop (Z.to_nat (str_len s)) (s +:+ t) = t.
Proof. unfold str_len. rewrite Nat2Z.id. apply str_drop_app. Qed.

Lemma str_len_app s t : str_len (s +:+ t) = str_len s + str_len t.
Proof. unfold str_len. rewrite string_length_app. lia. Qed.

Lemma total_bytes_nonneg contents : 0 <= total_bytes contents.
Proof. unfold total_bytes. induction contents as [|c l IH]; [done|]. cbn [foldr]. unfold str_len at 1. lia. Qed.

Lemma framed_length s entries contents : framed s entries contents -> length entries = length contents.
Proof. induction 1; cbn; congruence. Qed.

Lemma framed_read s entries contents remaining :
  framed s entries contents -> total_bytes contents <= remaining ->
  read_batch s entries remaining = Ok (zip_with context_file entries contents).
Proof.
  intros Hf. revert remaining.
  induction Hf as [|header object text content s entry entries contents Hl Hfields Hsize Hsha Hf IH];
    intros remaining Hn; [done|].
  cbn [total_bytes foldr] in Hn. change (foldr _ 0 contents) with (total_bytes contents) in Hn.
  pose proof (total_bytes_nonneg contents). assert (0 <= str_len content) by (unfold str_len; lia).
  cbn [read_batch]. rewrite (proj2 (cut_at_spec _ _ header _) (conj eq_refl Hl)), Hfields.
  rewrite bool_decide_true by done. cbn [negb]. rewrite Hsize.
  rewrite (proj2 (Z.ltb_ge _ 0)), (proj2 (Z.ltb_ge remaining _)) by lia. cbn [orb].
  rewrite str_len_app, (proj2 (Z.ltb_ge _ (str_len content))) by (unfold str_len; lia).
  rewrite str_take_len, str_drop_len, bool_decide_true, Hsha, bool_decide_true by done. cbn [negb].
  by rewrite IH by lia.
Qed.

Lemma read_framed s entries remaining files :
  0 <= remaining -> read_batch s entries remaining = Ok files ->
  exists contents, framed s entries contents /\ total_bytes contents <= remaining /\
    files = zip_with context_file entries contents.
Proof.
  revert s remaining files. induction entries as [|entry entries IH]; intros s remaining files Hn;
    cbn [read_batch].
  { intros [= <-]. exists []. split_and!; [constructor|done..]. }
  destruct (cut_at _ _) as [[header rest]|] eqn:Hcut; [|done].
  apply cut_at_spec in Hcut as [-> Hl].
  destruct (Fields header) as [|object [|kind [|text [|]]]] eqn:Hfields; try done.
  destruct (bool_decide_reflect (kind = "blob")) as [->|]; [|done]. cbn [negb].
  destruct (ParseInt text) as [size|] eqn:Hsize; [|done].
  destruct (size <? 0) eqn:Hs0; [done|]. destruct (remaining <? size) eqn:Hsr; [done|]. cbn [orb].
  destruct (str_len rest <? size) eqn:Hlen; [done|]. apply Z.ltb_ge in Hs0, Hsr, Hlen.
  pose proof (str_take_drop (Z.to_nat size) rest) as Hsplit.
  pose proof (str_take_length (Z.to_nat size) rest) as Htl.
  destruct (str_drop (Z.to_nat size) rest) as [|c rest'] eqn:Hdrop; [done|].
  destruct (bool_decide_reflect (c = byte 10)) as [->|]; [|done]. cbn [negb].
  destruct (bool_decide_reflect (sha256_hex (str_take (Z.to_nat size) rest) = ry_sha256 entry)) as [Hsha|];
    [|done]. cbn [negb].
  assert (Hsz : str_len (str_take (Z.to_nat size) rest) = size).
  { unfold str_len in *. rewrite Htl; lia. }
  intros (more & Hmore & [= <-])%res_bind_Ok.
  apply IH in Hmore as (contents & Hf & Htot & ->); [|lia].
  exists (str_take (Z.to_nat size) rest :: contents). split_and!; [|cbn; unfold total_bytes in Htot; lia|done].
  rewrite <- Hsplit at 1. apply (framed_blob _ object text); try done. by rewrite Hsz.
Qed.

Lemma select_entries_spec readable room entries selected :
  0 <= room ->
  select_entries readable room entries = Ok selected <->
  selected = filter (fun entry => withinAny (ry_path entry) readable = true) entries /\
  Z.of_nat (length selected) <= room.
Proof.
  revert room selected. induction entries as [|entry entries IH]; intros room selected Hn;
    cbn [select_entries]; [cbn; split; [intros [= <-]; cbn; split; [done|lia]|by intros [-> _]]|].
  rewrite filter_cons. destruct (withinAny (ry_path entry) readable) eqn:E; cbn [negb].
  - rewrite decide_True by done. destruct (room =? 0) eqn:Hr.
    + split; [done|]. intros [-> Hl]. cbn in Hl. lia.
    + rewrite res_bind_Ok. split.
      * intros (more & (-> & Hl)%IH & [= <-]); [|lia]. split; [done|]. cbn. lia.
      * intros [-> Hl]. eexists. split; [apply IH; [lia|]; split; [done|]|done]. cbn in Hl. lia.
  - rewrite decide_False by done. by apply IH.
Qed.

(** C27: The context of an implementation request is exact: it is built exactly when both limits
    are positive, the commit is the one of the snapshot and the entries of the snapshot within the
    readable paths are at least one, at most as many as the limit and safe, and git ends without
    error after printing each of their blobs, unchanged since the snapshot, of at most the limit of
    bytes together; and it is then these files, in the order
    of the snapshot, and nothing else. *)
Theorem implementation_context_exact batch commit snapshot readable limits files :
  let selected := filter (fun entry => withinAny (ry_path entry) readable = true) (Entries snapshot) in
  BuildImplementationContext batch commit snapshot readable limits = Ok files <->
  commit = Snapshot_BaseCommit snapshot /\ 0 < MaxFiles limits /\ 0 < MaxBytes limits /\
  selected <> [] /\ Z.of_nat (length selected) <= MaxFiles limits /\
  (forall entry, entry ∈ selected -> safeRepoPath (ry_path entry) = true) /\
  exists stdout contents,
    batch (map (fun entry => commit +:+ ":" +:+ ry_path entry) selected) = Ok (stdout, Ok tt) /\
    framed stdout selected contents /\ total_bytes contents <= MaxBytes limits /\
    files = zip_with context_file selected contents.
Proof.
  cbv zeta. unfold BuildImplementationContext. destruct (bool_decide_reflect (commit = Snapshot_BaseCommit snapshot)) as [Hc|Hc].
  2: { split; [done|]. by intros [? _]. }
  destruct (Z.leb_spec (MaxFiles limits) 0); [split; [done|]; intros (_ & ? & _); lia|].
  destruct (Z.leb_spec (MaxBytes limits) 0); [split; [done|]; intros (_ & _ & ? & _); lia|].
  cbn [negb orb]. rewrite res_bind_Ok. setoid_rewrite select_entries_spec; [|lia..].
  set (selected := filter _ _). unfold readContextBatch. split.
  - intros (? & [-> Hl] & Hr). destruct (Nat.eqb_spec (length selected) 0) as [|Hne]; [done|].
    destruct (forallb _ _) eqn:Hsafe; [|done]. cbn [negb] in Hr. rewrite forallb_forall in Hsafe.
    apply res_bind_Ok in Hr as ([stdout ended] & Hb & (fs & Hread & Hr)%res_bind_Ok).
    rewrite then_Ok in Hr. destruct Hr as [-> [= <-]].
    apply read_framed in Hread as (contents & Hf & Ht & ->); [|lia].
    split_and!; try done; [by intros E; rewrite E in Hne|by intros e He%list_elem_of_In; apply Hsafe|].
    by exists stdout, contents.
  - intros (_ & _ & _ & Hne & Hl & Hsafe & stdout & contents & Hb & Hf & Ht & ->).
    exists selected. split; [done|]. destruct (Nat.eqb_spec (length selected) 0) as [E|_].
    { by destruct selected. }
    rewrite (proj2 (forallb_forall _ _)); [|intros e He; by apply Hsafe, list_elem_of_In]. cbn [negb].
    rewrite Hb. cbn [mbind res_bind]. by rewrite (framed_read _ _ contents).
Qed.

End contexts.

(** ** Samples *)

Definition sample_policy : Policy :=
  mkPolicy PolicyVersion
    (Repository.mk "Standard-Syntax" "basic" "/srv/basic" "origin" "git@host:basic.git" "main" (commit_of "c"))
    (mkPolicyPaths ["docs"; "src"] ["src"] ["vendor"]) ["make-check-v1"]
    (mkPolicyLimits 1 20 65536 1048576 1 1)
    (mkImages ("sha256:" +:+ digest_a) ("sha256:" +:+ digest_b)).

Definition sample_policy_request : pb_TaskPlanningRequest :=
  mkPlanningRequest (Some (sample_pb_envelope REASONING_STAGE_PLANNING)) "SPEC-001" digest_a
    [mkRepositoryEntry "src/a/run.go" "blob" digest_a] ["docs"; "src"] ["src"] ["vendor"] 1 1 ["AC-001"].

Definition sample_single_task : pb_PlannedTask :=
  mkPbTask "TASK-001" "change the code" [] ["AC-001"] ["docs"; "src"] ["src/a"] ["vendor"] []
    ["make-check-v1"] ["stop"].

Definition sample_single_graph : pb_TaskGraphProposal :=
  mkGraphProposal (Some (sample_identity REASONING_STAGE_PLANNING)) "SPEC-001" digest_a
    [sample_single_task] [] [].

Definition sample_put (body : string) : res ArtifactRef := Ok (artifact_of body).

(** The files that may be written are those below "src/a" alone. *)
Lemma approved_graph_within_policy_witness :
  exists graphRef taskRef task,
    BuildApprovedTaskGraph sample_put (Some sample_policy_request) (Some sample_single_graph)
      {["make-check-v1"]} sample_policy = Ok (graphRef, taskRef, task) /\
    Policy_Validate sample_policy = Ok tt /\
    WithinAny "src/a/run.go" (Prohibited (Policy_Paths sample_policy)) = false.
Proof.
  eassert (H : BuildApprovedTaskGraph sample_put (Some sample_policy_request) (Some sample_single_graph)
    {["make-check-v1"]} sample_policy = Ok (_, _, _)) by (vm_compute; reflexivity).
  destruct (approved_graph_within_policy _ _ _ _ _ _ _ _ H)
    as (p & t & [= <-] & [= <-] & Ht & Hv & _ & _ & _ & _ & Hw).
  eexists _, _, _. split; [exact H|]. split; [exact Hv|]. apply (Hw "src/a/run.go"). reflexivity.
Defined.

Definition sample_snapshot_entries : list pb_RepositoryEntry :=
  [mkRepositoryEntry "docs/a.md" "blob" (sha256_hex "one");
   mkRepositoryEntry "src/b.go" "blob" (sha256_hex "three")].

(** A file that the snapshot does not have in this version is refused. *)
Example changed_blob_refused :
  let text := "0 blob 3" +:+ String newline_byte ("two" +:+ String newline_byte "") in
  BuildImplementationContext (fun _ => Ok (text, Ok tt)) (commit_of "c")
    (mkSnapshot (commit_of "c") sample_snapshot_entries) ["docs"] (mkContextLimits 4 100)
  = Err ErrScope.
Proof. vm_compute. reflexivity. Qed.
