(* ===== verification/RtBindings.v ===== *)
(** * The bindings of runs and tasks

    Models [go/internal/runtime/bindings.go]: what a run was taken in with (its
    request, the map of its repository, its policy and the images of its
    workers), the checkpoints of what is approved later, and the approved task,
    on the tables of [go/internal/workflow/migrations/0018] to [0020], beside
    the runtime ledger and the workflow.  The triggers of the tables forbid what
    no statement does: to delete a row, or to change a column once it is set. *)

From S2P Require Import Prelude GoStd GoJson WfTypes WfDb WfStore RtLedger CtCommon BetaPolicy.

(** ** Data *)

Record RunBinding := mkRunBinding {
  RB_RunID : string;
  RB_Intake : ArtifactRef;
  RB_BaseCommit : string;
  RB_RepositoryMap : option ArtifactRef;
  RB_Policy : option ArtifactRef;
  RB_ExecutionImageDigest : string;
  RB_VerificationImageDigest : string;
  RB_ApprovedSpecification : option ArtifactRef;
  RB_ApprovedTaskGraph : option ArtifactRef;
  RB_CompositeApproval : option ArtifactRef;
  RB_CreatedAt : time;
}.

Record TaskBinding := mkTaskBinding {
  TB_RunID : string;
  TB_TaskID : string;
  TB_ApprovedTask : ArtifactRef;
}.

#[global] Instance TaskBinding_eq_dec : EqDecision TaskBinding.
Proof. solve_decision. Defined.

(** The columns of artifacts that are set by a checkpoint. *)
Inductive binding_column :=
| RepositoryMapColumns | SpecificationColumns | TaskGraphColumns | ApprovalColumns.

#[global] Instance binding_column_eq_dec : EqDecision binding_column.
Proof. solve_decision. Defined.

(** A row of [runtime_run_bindings]; a checked pair of columns, both NULL or
    both set, is one value. *)
Record run_binding_row := mkRunBindingRow {
  bw_intake : ArtifactRef;
  bw_base_commit : string;
  bw_policy : option ArtifactRef;
  bw_execution_image : option string;
  bw_verification_image : option string;
  bw_created : Z;
  bw_artifact : binding_column -> option ArtifactRef;
}.

(** A row of [runtime_task_bindings]. *)
Record task_binding_row := mkTaskBindingRow {
  tw_run : string;
  tw_task : ArtifactRef;
}.

Record bound_db := mkBoundDb {
  bd_runtime : rt_db;
  bd_runs : gmap string run_binding_row;
  bd_tasks : gmap string task_binding_row;
}.

Definition bd_workflow (s : bound_db) : db := rt_workflow (bd_runtime s).

Definition empty_bound (runtime : rt_db) : bound_db := mkBoundDb runtime ∅ ∅.

(** A statement on the ledger, and one on the workflow. *)
Definition on_runtime {A} (m : tx rt_db A) : tx bound_db A := fun s =>
  match m (bd_runtime s) with
  | Ok (a, r) => Ok (a, mkBoundDb r (bd_runs s) (bd_tasks s))
  | Err e => Err e
  end.

Definition on_workflow {A} (m : tx db A) : tx bound_db A := on_runtime (fun s =>
  match m (rt_workflow s) with
  | Ok (a, w) => Ok (a, mkRtDb w (rt_jobs s) (rt_requests s))
  | Err e => Err e
  end).

Section bindings.
Context `{Platform}.

(** ** The intake *)

Definition validImageDigest (value : string) : bool :=
  (String.length value =? 71)%nat && (str_take 7 value == "sha256:") &&
  string_forallb (fun c => is_digit c || ((97 <=? byte_of c) && (byte_of c <=? 102))) (str_drop 7 value).

Definition validateIntakeBinding (binding : RunBinding) : res unit :=
  ArtifactRef_Validate (RB_Intake binding) ;;
  match RB_RepositoryMap binding, RB_Policy binding with
  | Some repositoryMap, Some policy =>
      if negb (validImageDigest (RB_ExecutionImageDigest binding)) ||
         negb (validImageDigest (RB_VerificationImageDigest binding))
      then Err ErrConflict
      else ArtifactRef_Validate repositoryMap ;; ArtifactRef_Validate policy
  | _, _ => Err ErrConflict
  end.

(** The checks of the table on a new row. *)
Definition check_binding (row : run_binding_row) : bool :=
  digestPattern (Digest (bw_intake row)) && match_hex 40 (bw_base_commit row) &&
  null_or (fun ref => digestPattern (Digest ref)) (bw_artifact row RepositoryMapColumns) &&
  null_or (fun ref => digestPattern (Digest ref)) (bw_policy row) &&
  null_or imagePattern (bw_execution_image row) && null_or imagePattern (bw_verification_image row).

Definition intake_row (binding : RunBinding) : res run_binding_row :=
  intake ← artifact_columns (RB_Intake binding);
  base ← text_column (RB_BaseCommit binding);
  repositoryMap ← nullable artifact_columns (RB_RepositoryMap binding);
  policy ← nullable artifact_columns (RB_Policy binding);
  execution ← text_column (RB_ExecutionImageDigest binding);
  verification ← text_column (RB_VerificationImageDigest binding);
  Ok (mkRunBindingRow intake base policy (Some execution) (Some verification)
        (time_column (UTC (RB_CreatedAt binding)))
        (fun column => match column with RepositoryMapColumns => repositoryMap | _ => None end)).

(** [INSERT ... ON CONFLICT DO NOTHING]: whether a row was inserted. *)
Definition insert_binding (binding : RunBinding) : tx bound_db bool :=
  run ← tx_lift (uuid_param (RB_RunID binding));
  row ← tx_lift (intake_row binding);
  s ← tx_get;
  if negb (check_binding row) then tx_err check_violation
  else if bool_decide (is_Some (bd_runs s !! run)) then mret false
  else if negb (bool_decide (is_Some (runs (bd_workflow s) !! run))) then tx_err foreign_key_violation
  else
    tx_put (mkBoundDb (bd_runtime s) (<[run := row]> (bd_runs s)) (bd_tasks s)) ;;
    mret true.

(** The columns that [readIntakeBinding] selects. *)
Definition intake_of_row (run : string) (row : run_binding_row) : RunBinding :=
  mkRunBinding run (bw_intake row) (bw_base_commit row) (bw_artifact row RepositoryMapColumns)
    (bw_policy row) (default "" (bw_execution_image row)) (default "" (bw_verification_image row))
    None None None (scan_time (bw_created row)).

Definition readIntakeBinding (runID : string) : tx bound_db RunBinding :=
  run ← tx_lift (uuid_param runID);
  s ← tx_get;
  match bd_runs s !! run with
  | None => tx_err RtErrNotFound
  | Some row => mret (intake_of_row run row)
  end.

(** Pointers are compared by what they point to. *)
Definition sameIntakeBinding (existing binding : RunBinding) : bool :=
  bool_decide (RB_Intake existing = RB_Intake binding) &&
  (RB_BaseCommit existing == RB_BaseCommit binding) &&
  negb (is_null (RB_RepositoryMap existing)) &&
  bool_decide (RB_RepositoryMap existing = RB_RepositoryMap binding) &&
  negb (is_null (RB_Policy existing)) && bool_decide (RB_Policy existing = RB_Policy binding) &&
  (RB_ExecutionImageDigest existing == RB_ExecutionImageDigest binding) &&
  (RB_VerificationImageDigest existing == RB_VerificationImageDigest binding) &&
  (instant (RB_CreatedAt existing) =? instant (UTC (RB_CreatedAt binding))).

Definition CreateRunBindingTx (binding : RunBinding) : tx bound_db unit :=
  tx_lift (validateIntakeBinding binding) ;;
  inserted ← insert_binding binding;
  if inserted : bool then mret tt
  else
    existing ← readIntakeBinding (RB_RunID binding);
    if negb (sameIntakeBinding existing binding) then tx_err ErrConflict else mret tt.

Definition CreateRun_binding (binding : RunBinding) : tx bound_db unit := CreateRunBindingTx binding.

Definition BindingRepository_GetRun (runID : string) (s : bound_db) : res RunBinding :=
  run ← uuid_param runID;
  match bd_runs s !! run with
  | None => Err RtErrNotFound
  | Some row =>
      Ok (mkRunBinding run (bw_intake row) (bw_base_commit row) (bw_artifact row RepositoryMapColumns)
            (bw_policy row) (default "" (bw_execution_image row))
            (default "" (bw_verification_image row)) (bw_artifact row SpecificationColumns)
            (bw_artifact row TaskGraphColumns) (bw_artifact row ApprovalColumns)
            (scan_time (bw_created row)))
  end.

(** ** The checkpoints *)

(** The pairs of columns that may be set. *)
Definition allowed (uriColumn digestColumn : string) : option binding_column :=
  let columns := uriColumn +:+ ":" +:+ digestColumn in
  if columns == "repository_map_uri:repository_map_digest" then Some RepositoryMapColumns
  else if columns == "approved_specification_uri:approved_specification_digest"
  then Some SpecificationColumns
  else if columns == "approved_task_graph_uri:approved_task_graph_digest" then Some TaskGraphColumns
  else if columns == "composite_approval_uri:composite_approval_digest" then Some ApprovalColumns
  else None.

Definition set_artifact (column : binding_column) (ref : ArtifactRef) (row : run_binding_row)
    : run_binding_row :=
  mkRunBindingRow (bw_intake row) (bw_base_commit row) (bw_policy row) (bw_execution_image row)
    (bw_verification_image row) (bw_created row)
    (fun other => if bool_decide (other = column) then Some ref else bw_artifact row other).

(** [UPDATE ... WHERE run_id=$1 AND column IS NULL]: whether a row was updated. *)
Definition update_binding (runID : string) (column : binding_column) (ref : ArtifactRef)
    : tx bound_db bool :=
  run ← tx_lift (uuid_param runID);
  ref ← tx_lift (artifact_columns ref);
  s ← tx_get;
  match bd_runs s !! run with
  | Some row =>
      if is_null (bw_artifact row column) then
        if negb (check_binding (set_artifact column ref row)) then tx_err check_violation
        else
          tx_put (mkBoundDb (bd_runtime s) (<[run := set_artifact column ref row]> (bd_runs s))
            (bd_tasks s)) ;;
          mret true
      else mret false
  | None => mret false
  end.

Definition checkpointRunTx (runID uriColumn digestColumn : string) (ref : ArtifactRef)
    : tx bound_db unit :=
  match allowed uriColumn digestColumn with
  | None => tx_err ErrConflict
  | Some column =>
      updated ← update_binding runID column ref;
      if updated : bool then mret tt
      else
        run ← tx_lift (uuid_param runID);
        s ← tx_get;
        match bd_runs s !! run with
        | None => tx_err RtErrNotFound
        | Some row =>
            match bw_artifact row column with
            | None => tx_err (ErrText "cannot scan NULL into *string")
            | Some found =>
                if (URI found != URI ref) || (Digest found != Digest ref) then tx_err ErrConflict
                else mret tt
            end
        end
  end.

Definition checkpointRun (runID uriColumn digestColumn : string) (ref : ArtifactRef)
    : tx bound_db unit :=
  tx_lift (ArtifactRef_Validate ref) ;; checkpointRunTx runID uriColumn digestColumn ref.

Definition CheckpointRepository (runID : string) : ArtifactRef -> tx bound_db unit :=
  checkpointRun runID "repository_map_uri" "repository_map_digest".

Definition CheckpointSpecification (runID : string) : ArtifactRef -> tx bound_db unit :=
  checkpointRun runID "approved_specification_uri" "approved_specification_digest".

Definition CheckpointApproval (runID : string) : ArtifactRef -> tx bound_db unit :=
  checkpointRun runID "composite_approval_uri" "composite_approval_digest".

(** [INSERT ... ON CONFLICT DO NOTHING] into the bindings of tasks. *)
Definition insert_task_binding (runID : string) (task : TaskBinding) : tx bound_db bool :=
  id ← tx_lift (uuid_param (TB_TaskID task));
  run ← tx_lift (uuid_param runID);
  ref ← tx_lift (artifact_columns (TB_ApprovedTask task));
  s ← tx_get;
  if negb (digestPattern (Digest ref)) then tx_err check_violation
  else if bool_decide (is_Some (bd_tasks s !! id)) then mret false
  else if negb (bool_decide (is_Some (runs (bd_workflow s) !! run))) ||
          negb (task_in_run (bd_workflow s) run id)
  then tx_err foreign_key_violation
  else
    tx_put (mkBoundDb (bd_runtime s) (bd_runs s) (<[id := mkTaskBindingRow run ref]> (bd_tasks s))) ;;
    mret true.

(** The binding of a task has to be the one that is there. *)
Definition existing_task_binding (task : TaskBinding) : tx bound_db unit :=
  id ← tx_lift (uuid_param (TB_TaskID task));
  s ← tx_get;
  match bd_tasks s !! id with
  | None => tx_err no_rows
  | Some row =>
      if bool_decide (mkTaskBinding (tw_run row) id (tw_task row) <> task)
      then tx_err ErrConflict else mret tt
  end.

(** [transaction] is false for a nil transaction. *)
Definition CheckpointTaskGraphTx (transaction : bool) (runID : string) (graph : ArtifactRef)
    (task : TaskBinding) : tx bound_db unit :=
  if negb transaction then tx_err ErrConflict
  else
    tx_lift (ArtifactRef_Validate graph) ;;
    tx_lift (ArtifactRef_Validate (TB_ApprovedTask task)) ;;
    if TB_RunID task != runID then tx_err ErrConflict
    else
      checkpointRunTx runID "approved_task_graph_uri" "approved_task_graph_digest" graph ;;
      inserted ← insert_task_binding runID task;
      if inserted : bool then mret tt else existing_task_binding task.

Definition CheckpointTaskGraph (runID : string) (graph : ArtifactRef) (task : TaskBinding)
    : tx bound_db unit := CheckpointTaskGraphTx true runID graph task.

Definition BindingRepository_GetTask (runID taskID : string) (s : bound_db) : res TaskBinding :=
  run ← uuid_param runID;
  id ← uuid_param taskID;
  match bd_tasks s !! id with
  | Some row =>
      if tw_run row == run then Ok (mkTaskBinding run id (tw_task row)) else Err RtErrNotFound
  | None => Err RtErrNotFound
  end.

End bindings.
