(* ===== verification/RtBindingProps.v ===== *)
(** * The bindings of runs and tasks never change *)

From S2P Require Import Prelude GoStd GoJson WfTypes WfDb WfStore WfStoreLemmas RtLedger RtHistory.
From S2P Require Import CtCommon BetaPolicy RtBindings Samples RtStages.

(** ** What no statement undoes *)

Record binding_kept (r r' : run_binding_row) : Prop := {
  bk_intake : bw_intake r' = bw_intake r;
  bk_base : bw_base_commit r' = bw_base_commit r;
  bk_policy : bw_policy r' = bw_policy r;
  bk_execution : bw_execution_image r' = bw_execution_image r;
  bk_verification : bw_verification_image r' = bw_verification_image r;
  bk_created : bw_created r' = bw_created r;
  bk_artifacts : forall column ref, bw_artifact r column = Some ref -> bw_artifact r' column = Some ref;
}.

#[global] Instance binding_kept_preorder : PreOrder binding_kept.
Proof.
  split; [done|]. intros r1 r2 r3 [] []. split; [congruence..|]. eauto.
Qed.

Definition bindings_kept (s s' : bound_db) : Prop :=
  (forall k r, bd_runs s !! k = Some r -> exists r', bd_runs s' !! k = Some r' /\ binding_kept r r') /\
  (forall k t, bd_tasks s !! k = Some t -> bd_tasks s' !! k = Some t).

#[global] Instance bindings_kept_preorder : PreOrder bindings_kept.
Proof.
  split.
  - intros s. split; [|done]. intros k r Hk. by exists r.
  - intros s1 s2 s3 [H12 T12] [H23 T23]. split; [|eauto]. intros k r Hk.
    destruct (H12 k r Hk) as (r2 & Hk2 & K2). destruct (H23 k r2 Hk2) as (r3 & Hk3 & K3).
    exists r3. split; [done|by etrans].
Qed.

Lemma set_artifact_kept column ref r :
  bw_artifact r column = None -> binding_kept r (set_artifact column ref r).
Proof.
  intros Hn. split; try done. intros c x Hx. cbn. case_bool_decide; [congruence|done].
Qed.

Lemma runs_insert_kept s k r r' t :
  (forall r0, bd_runs s !! k = Some r0 -> r0 = r) -> binding_kept r r' ->
  bindings_kept s (mkBoundDb t (<[k := r']> (bd_runs s)) (bd_tasks s)).
Proof.
  intros Hr Hk. split; [|done]. intros k0 r0 H0. cbn. destruct (decide (k0 = k)) as [->|Hne].
  - rewrite lookup_insert_eq, (Hr _ H0). eauto.
  - rewrite lookup_insert_ne by done. by exists r0.
Qed.

(** ** The statements *)

Section statements.
Context `{Platform}.

Lemma artifact_columns_Ok a b : artifact_columns a = Ok b -> b = a.
Proof.
  unfold artifact_columns. intros (u & ->%text_column_Ok & Hr)%res_bind_Ok.
  apply res_bind_Ok in Hr as (d & ->%text_column_Ok & [= <-]). by destruct a.
Qed.

Lemma nullable_artifact_Ok a b : nullable artifact_columns a = Ok b -> b = a.
Proof.
  destruct a as [a|]; cbn; [|by intros [= <-]].
  by intros (x & ->%artifact_columns_Ok & [= <-])%res_bind_Ok.
Qed.

(** The row is the one of this intake. *)
Record row_of_intake (row : run_binding_row) (b : RunBinding) : Prop := {
  ri_intake : bw_intake row = RB_Intake b;
  ri_base : bw_base_commit row = RB_BaseCommit b;
  ri_map : bw_artifact row RepositoryMapColumns = RB_RepositoryMap b;
  ri_policy : bw_policy row = RB_Policy b;
  ri_execution : default "" (bw_execution_image row) = RB_ExecutionImageDigest b;
  ri_verification : default "" (bw_verification_image row) = RB_VerificationImageDigest b;
  ri_created : bw_created row = time_column (UTC (RB_CreatedAt b));
}.

Lemma intake_row_Ok b row : intake_row b = Ok row -> row_of_intake row b.
Proof.
  unfold intake_row. intros (i & ->%artifact_columns_Ok & Hr)%res_bind_Ok.
  apply res_bind_Ok in Hr as (x & ->%text_column_Ok & Hr).
  apply res_bind_Ok in Hr as (m & ->%nullable_artifact_Ok & Hr).
  apply res_bind_Ok in Hr as (p & ->%nullable_artifact_Ok & Hr).
  apply res_bind_Ok in Hr as (e & ->%text_column_Ok & Hr).
  by apply res_bind_Ok in Hr as (v & ->%text_column_Ok & [= <-]).
Qed.

Lemma scan_time_column us : time_column (UTC (scan_time us)) = us.
Proof.
  unfold time_column, scan_time, UTC, UnixMicro. cbn. rewrite Z.add_simpl_l. by apply Z.div_mul.
Qed.

Lemma sameIntakeBinding_Ok run row b :
  sameIntakeBinding (intake_of_row run row) b = true -> row_of_intake row b.
Proof.
  unfold sameIntakeBinding. rewrite !andb_true_iff, !bool_decide_eq_true.
  intros ((((((((H1 & H2) & _) & H3) & _) & H4) & H5) & H6) & H7%Z.eqb_eq). cbn in *. split; try done.
  rewrite <- (scan_time_column (bw_created row)). unfold time_column, UnixMicro. cbn [instant UTC scan_time].
  by rewrite H7.
Qed.

Lemma CreateRunBindingTx_Ok b s u s' :
  CreateRunBindingTx b s = Ok (u, s') ->
  exists k row, uuid_column (RB_RunID b) = Some k /\ bd_runs s' !! k = Some row /\
    row_of_intake row b /\ RB_RepositoryMap b <> None /\
    (s' = s \/ bd_runs s !! k = None /\
       s' = mkBoundDb (bd_runtime s) (<[k := row]> (bd_runs s)) (bd_tasks s)).
Proof.
  unfold CreateRunBindingTx. intros Hr. tx_run Hr;
    (match goal with H : validateIntakeBinding b = _ |- _ =>
       assert (RB_RepositoryMap b <> None) by
         (unfold validateIntakeBinding in H; apply res_bind_Ok in H as (_ & _ & H);
          by destruct (RB_RepositoryMap b)) end).
  - unfold insert_binding in Hx0. tx_run Hx0. injection Hx0 as <-. injection Hr as _ <-.
    match goal with H : uuid_param _ = Ok ?k, H' : intake_row _ = Ok ?row |- _ =>
      exists k, row; apply uuid_param_Ok in H; apply intake_row_Ok in H' end.
    split_and!; [done|apply lookup_insert_eq|done|done|]. right. split; [|done].
    match goal with H : bool_decide (is_Some _) = false |- _ =>
      by apply bool_decide_eq_false, eq_None_not_Some in H end.
  - unfold insert_binding in Hx0. tx_run Hx0. injection Hx0 as <-.
    unfold readIntakeBinding in Hx1. tx_run Hx1.
    injection Hx1 as <- <-. injection Hr as _ <-. apply negb_false_iff, sameIntakeBinding_Ok in Hc0.
    exists x1, r. split_and!; [by apply uuid_param_Ok|done|done|done|by left].
Qed.

Lemma update_binding_Ok run column ref s b s' :
  update_binding run column ref s = Ok (b, s') ->
  artifact_columns ref = Ok ref /\
  ((b = false /\ s' = s) \/
  exists k row, b = true /\ uuid_column run = Some k /\ bd_runs s !! k = Some row /\
    bw_artifact row column = None /\
    s' = mkBoundDb (bd_runtime s) (<[k := set_artifact column ref row]> (bd_runs s)) (bd_tasks s)).
Proof.
  unfold update_binding. intros Hr. tx_run Hr; injection Hr as <- <-;
    (split; [match goal with Ha : artifact_columns _ = Ok _ |- _ =>
       by rewrite <- (artifact_columns_Ok _ _ Ha) at 2 end|]); [right|by left..].
  match goal with Ha : artifact_columns _ = Ok _, Hu : uuid_param _ = Ok ?k, Hl : _ !! _ = Some ?r |- _ =>
    apply artifact_columns_Ok in Ha; subst; apply uuid_param_Ok in Hu; exists k, r end.
  split_and!; try done. by destruct (bw_artifact _ column).
Qed.

Lemma checkpointRunTx_Ok run uriColumn digestColumn ref s u s' :
  checkpointRunTx run uriColumn digestColumn ref s = Ok (u, s') ->
  exists k column row, allowed uriColumn digestColumn = Some column /\ uuid_column run = Some k /\
    bd_runs s' !! k = Some row /\ bw_artifact row column = Some ref /\
    artifact_columns ref = Ok ref /\
    bd_runtime s' = bd_runtime s /\ bd_tasks s' = bd_tasks s /\ bindings_kept s s'.
Proof.
  unfold checkpointRunTx. destruct (allowed _ _) as [column|] eqn:Hcol; [|done]. intros Hr.
  apply tx_bind_Ok in Hr as (b & s1 & Hu & Hr).
  apply update_binding_Ok in Hu as [Hart [[-> ->]|(k & row & -> & Hk & Hl & Hn & ->)]]; tx_run Hr;
    injection Hr as _ <-.
  - match goal with Hu : uuid_param _ = Ok ?k, Hl : _ !! _ = Some ?r, Ha : bw_artifact ?r _ = Some ?a |- _ =>
      apply uuid_param_Ok in Hu; exists k, column, r; assert (a = ref) as <- end; [|by split_and!].
    match goal with H : _ || _ = false |- _ =>
      apply orb_false_iff in H as [Hu%negb_false_iff%bool_decide_eq_true
        Hd%negb_false_iff%bool_decide_eq_true] end.
    destruct ref; match goal with |- ?x = _ => destruct x end; cbn in *; congruence.
  - exists k, column, (set_artifact column ref row). cbn. rewrite lookup_insert_eq, bool_decide_true by done.
    split_and!; try done. apply (runs_insert_kept _ _ row); [congruence|by apply set_artifact_kept].
Qed.

Lemma insert_task_binding_Ok run task s b s' :
  insert_task_binding run task s = Ok (b, s') ->
  (b = false /\ s' = s) \/
  exists k id, b = true /\ uuid_column run = Some k /\ uuid_column (TB_TaskID task) = Some id /\
    bd_tasks s !! id = None /\
    s' = mkBoundDb (bd_runtime s) (bd_runs s)
           (<[id := mkTaskBindingRow k (TB_ApprovedTask task)]> (bd_tasks s)).
Proof.
  unfold insert_task_binding. intros Hr. tx_run Hr; injection Hr as <- <-; [by left|right].
  repeat match goal with
  | Ha : artifact_columns _ = Ok _ |- _ => apply artifact_columns_Ok in Ha; subst
  | Hu : uuid_param _ = Ok _ |- _ => apply uuid_param_Ok in Hu
  | Hd : bool_decide (is_Some _) = false |- _ => apply bool_decide_eq_false, eq_None_not_Some in Hd
  end. eauto 10.
Qed.

(** The runs of bound tasks are stored in canonical text. *)
Definition canonical_rows (s : bound_db) : Prop :=
  map_Forall (fun _ t => uuid_column (tw_run t) = Some (tw_run t)) (bd_tasks s).

Lemma CheckpointTaskGraphTx_Ok `{!PlatformLaws} transaction run graph task s u s' :
  CheckpointTaskGraphTx transaction run graph task s = Ok (u, s') -> canonical_rows s ->
  exists k id row, uuid_column run = Some k /\ uuid_column (TB_TaskID task) = Some id /\
    bd_runs s' !! k = Some row /\ bw_artifact row TaskGraphColumns = Some graph /\
    bd_tasks s' !! id = Some (mkTaskBindingRow k (TB_ApprovedTask task)) /\
    bd_runtime s' = bd_runtime s /\ bindings_kept s s' /\ canonical_rows s'.
Proof.
  unfold CheckpointTaskGraphTx. intros Hr Hcan. tx_run Hr.
  all: match goal with H : checkpointRunTx _ _ _ _ _ = _ |- _ =>
    apply checkpointRunTx_Ok in H as (k & column & row & Hcol & Hk & Hrow & Hg & _ & Hrt & Ht & Hkept) end.
  all: vm_compute in Hcol; injection Hcol as <-.
  all: match goal with H : insert_task_binding _ _ _ = _ |- _ =>
    apply insert_task_binding_Ok in H as [[Hb Hs]|(k' & id & Hb & Hk' & Hid & Hnone & Hs)] end; try done; subst.
  - injection Hr as _ <-. assert (k' = k) as -> by congruence. exists k, id, row. cbn in *.
    rewrite lookup_insert_eq. split_and!; try done.
    + etrans; [exact Hkept|]. split; cbn; [intros ? r ?; by exists r|]. intros i t Hi.
      destruct (decide (i = id)) as [->|Hne]; [congruence|by rewrite lookup_insert_ne].
    + unfold canonical_rows in *. cbn. apply map_Forall_insert_2; [|by rewrite Ht].
      cbn. by eapply uuid_column_canonical.
  - unfold existing_task_binding in Hr. tx_run Hr. injection Hr as _ <-.
    match goal with Hu : uuid_param _ = Ok ?i, Hl : bd_tasks _ !! _ = Some ?t,
      H : bool_decide _ = false |- _ =>
      apply uuid_param_Ok in Hu; apply bool_decide_eq_false, dec_stable in H;
      exists k, i, row; assert (tw_run t = k) as Hrun end.
    { match goal with Hl : bd_tasks _ !! _ = Some ?t |- _ => rewrite Ht in Hl; pose proof (Hcan _ _ Hl) as Hc' end.
      cbn in Hc'. subst task. cbn in *.
      match goal with H : negb (bool_decide (tw_run _ = _)) = false |- _ =>
        apply negb_false_iff, bool_decide_eq_true in H; subst end. congruence. }
    match goal with Hl : bd_tasks _ !! _ = Some ?t |- _ => destruct t end. cbn in *. subst.
    split_and!; try done. unfold canonical_rows. by rewrite Ht.
Qed.

End statements.

(** ** Histories *)

Inductive binding_call :=
| CallCreateBinding (binding : RunBinding)
| CallCheckpointRepository (run : string) (ref : ArtifactRef)
| CallCheckpointSpecification (run : string) (ref : ArtifactRef)
| CallCheckpointApproval (run : string) (ref : ArtifactRef)
| CallCheckpointTaskGraph (run : string) (graph : ArtifactRef) (task : TaskBinding)
| CallElsewhere (f : rt_db -> rt_db).   (* what else happens to the ledger and the workflow *)

Section histories.
Context `{PlatformLaws}.

Definition binding_perform (c : binding_call) (s : bound_db) : res unit * bound_db :=
  match c with
  | CallCreateBinding binding => run_tx (CreateRun_binding binding) s
  | CallCheckpointRepository run ref => run_tx (CheckpointRepository run ref) s
  | CallCheckpointSpecification run ref => run_tx (CheckpointSpecification run ref) s
  | CallCheckpointApproval run ref => run_tx (CheckpointApproval run ref) s
  | CallCheckpointTaskGraph run graph task => run_tx (CheckpointTaskGraph run graph task) s
  | CallElsewhere f => (Ok tt, mkBoundDb (f (bd_runtime s)) (bd_runs s) (bd_tasks s))
  end.

Fixpoint bound_after (calls : list binding_call) (s : bound_db) : bound_db :=
  match calls with
  | [] => s
  | c :: rest => bound_after rest (snd (binding_perform c s))
  end.

(** The column that a call checkpoints, and what it puts there. *)
Definition checkpoints (c : binding_call) : option (string * binding_column * ArtifactRef) :=
  match c with
  | CallCheckpointRepository run ref => Some (run, RepositoryMapColumns, ref)
  | CallCheckpointSpecification run ref => Some (run, SpecificationColumns, ref)
  | CallCheckpointApproval run ref => Some (run, ApprovalColumns, ref)
  | CallCheckpointTaskGraph run graph _ => Some (run, TaskGraphColumns, graph)
  | _ => None
  end.

Definition bound_artifact (b : RunBinding) (column : binding_column) : option ArtifactRef :=
  match column with
  | RepositoryMapColumns => RB_RepositoryMap b
  | SpecificationColumns => RB_ApprovedSpecification b
  | TaskGraphColumns => RB_ApprovedTaskGraph b
  | ApprovalColumns => RB_CompositeApproval b
  end.

Lemma run_tx_cases {A} (m : tx bound_db A) s r s' :
  run_tx m s = (r, s') -> (exists a, r = Ok a /\ m s = Ok (a, s')) \/ (exists e, r = Err e /\ s' = s).
Proof. unfold run_tx. destruct (m s) as [[a s1]|e]; intros [= <- <-]; eauto. Qed.

Lemma checkpointRun_Ok run u d ref s x s' :
  checkpointRun run u d ref s = Ok (x, s') -> checkpointRunTx run u d ref s = Ok (x, s').
Proof. unfold checkpointRun. intros Hr. by tx_run Hr. Qed.

Ltac open_call H :=
  cbn [binding_perform] in H;
  unfold CreateRun_binding, CheckpointRepository, CheckpointSpecification, CheckpointApproval,
    CheckpointTaskGraph in H.

Lemma checkpointed c run column ref s s' :
  checkpoints c = Some (run, column, ref) -> binding_perform c s = (Ok tt, s') -> canonical_rows s ->
  exists k row, uuid_column run = Some k /\ bd_runs s' !! k = Some row /\ bw_artifact row column = Some ref.
Proof.
  intros Hc Hp Hcan. destruct c; try discriminate Hc; injection Hc as <- <- <-; open_call Hp;
    apply run_tx_cases in Hp as [([] & _ & Hp)|(? & ? & _)]; try done.
  4: { apply CheckpointTaskGraphTx_Ok in Hp as (k & _ & row & ? & _ & ? & ? & _); eauto. }
  all: apply checkpointRun_Ok, checkpointRunTx_Ok in Hp as (k & col & row & Hcol & ? & ? & ? & _);
    vm_compute in Hcol; injection Hcol as <-; eauto.
Qed.

Lemma binding_perform_kept c s r s' :
  binding_perform c s = (r, s') -> canonical_rows s -> bindings_kept s s' /\ canonical_rows s'.
Proof.
  intros Hp Hcan. destruct c; open_call Hp; [..|injection Hp as <- <-; split; [|done]];
    [apply run_tx_cases in Hp as [(x & -> & Hp)|(? & -> & ->)]; [|done]..|].
  - apply CreateRunBindingTx_Ok in Hp as (k & row & _ & _ & _ & _ & [->|[Hn ->]]); [done|].
    split; [|done]. split; [|done]. intros i r Hi. exists r. split; [|done]. cbn.
    by rewrite lookup_insert_ne by congruence.
  - apply checkpointRun_Ok, checkpointRunTx_Ok in Hp as (? & ? & ? & _ & _ & _ & _ & _ & _ & Ht & Hk).
    split; [done|]. unfold canonical_rows. by rewrite Ht.
  - apply checkpointRun_Ok, checkpointRunTx_Ok in Hp as (? & ? & ? & _ & _ & _ & _ & _ & _ & Ht & Hk).
    split; [done|]. unfold canonical_rows. by rewrite Ht.
  - apply checkpointRun_Ok, checkpointRunTx_Ok in Hp as (? & ? & ? & _ & _ & _ & _ & _ & _ & Ht & Hk).
    split; [done|]. unfold canonical_rows. by rewrite Ht.
  - by apply CheckpointTaskGraphTx_Ok in Hp as (? & ? & ? & _ & _ & _ & _ & _ & _ & ? & ?).
  - split; [|done]. intros k r Hk. by exists r.
Qed.

Lemma bound_after_app a b s : bound_after (a ++ b) s = bound_after b (bound_after a s).
Proof. revert s. induction a as [|c a IH]; intros s; [done|]. exact (IH _). Qed.

Lemma bound_after_kept calls s :
  canonical_rows s -> bindings_kept s (bound_after calls s) /\ canonical_rows (bound_after calls s).
Proof.
  revert s. induction calls as [|c rest IH]; intros s Hcan; [done|]. cbn.
  destruct (binding_perform c s) as [r s1] eqn:Hp. cbn.
  destruct (binding_perform_kept _ _ _ _ Hp Hcan) as [Hk Hc1]. destruct (IH s1 Hc1).
  split; [by etrans|done].
Qed.

(** A checkpoint that is repeated, or that comes too late. *)
Lemma checkpoint_again run u d column ref ref' k row s :
  allowed u d = Some column -> uuid_column run = Some k -> bd_runs s !! k = Some row ->
  bw_artifact row column = Some ref ->
  checkpointRunTx run u d ref' s = Ok (tt, s) <-> ref' = ref /\ artifact_columns ref = Ok ref.
Proof.
  intros Hcol Hk Hrow Ha. unfold checkpointRunTx. rewrite Hcol. unfold update_binding.
  unfold mbind, tx_bind, tx_lift, tx_get. rewrite (proj2 (uuid_param_Ok _ _) Hk).
  destruct (artifact_columns ref') as [c|e] eqn:Hc.
  - apply artifact_columns_Ok in Hc as Heq. subst c. rewrite Hrow, Ha. cbn. rewrite Hrow, Ha.
    split.
    + destruct (_ || _) eqn:E; [done|]. intros _.
      apply orb_false_iff in E as [Hu%negb_false_iff%bool_decide_eq_true
        Hd%negb_false_iff%bool_decide_eq_true].
      assert (ref' = ref) as -> by (destruct ref, ref'; cbn in *; congruence). done.
    + intros [-> _]. by rewrite !bool_decide_true.
  - split; [done|]. intros [-> Ho]. congruence.
Qed.

(** What is in a row is what [GetRun] returns. *)
Lemma GetRun_row run k row s :
  uuid_column run = Some k -> bd_runs s !! k = Some row ->
  exists b, BindingRepository_GetRun run s = Ok b /\
    (forall column, bound_artifact b column = bw_artifact row column) /\
    RB_Intake b = bw_intake row /\ RB_BaseCommit b = bw_base_commit row /\ RB_Policy b = bw_policy row /\
    RB_ExecutionImageDigest b = default "" (bw_execution_image row) /\
    RB_VerificationImageDigest b = default "" (bw_verification_image row) /\
    RB_CreatedAt b = scan_time (bw_created row).
Proof.
  intros Hk Hrow. unfold BindingRepository_GetRun, uuid_param. rewrite Hk. cbn. rewrite Hrow.
  eexists. split; [done|]. by split; [intros []|].
Qed.

(** The database from the [i]th call on. *)
Lemma bound_between calls s i j c :
  calls !! i = Some c -> (i < j)%nat -> canonical_rows s ->
  let before := bound_after (take i calls) s in
  canonical_rows before /\
  bindings_kept (snd (binding_perform c before)) (bound_after (take j calls) s) /\
  canonical_rows (bound_after (take j calls) s).
Proof.
  intros Hc Hij Hcan. cbn zeta. destruct (bound_after_kept (take i calls) s Hcan) as [_ Hi].
  split; [done|]. assert (Hsplit : take j calls = take i calls ++ c :: drop (S i) (take j calls)).
  { rewrite <- (take_drop_middle (take j calls) i c) at 1 by (by rewrite lookup_take_lt).
    by rewrite take_take, Nat.min_l by lia. }
  rewrite Hsplit, bound_after_app. cbn. apply bound_after_kept.
  destruct (binding_perform c _) as [r s1] eqn:Hp. by apply (binding_perform_kept _ _ _ _ Hp).
Qed.

Lemma recheckpointed c c' run column ref ref' k row s :
  checkpoints c' = Some (run, column, ref') -> uuid_column run = Some k ->
  bd_runs s !! k = Some row -> bw_artifact row column = Some ref -> canonical_rows s ->
  fst (binding_perform c' s) = Ok tt -> checkpoints c = Some (run, column, ref) -> ref' = ref.
Proof.
  intros Hc' Hk Hrow Ha Hcan Hok _. destruct (binding_perform c' s) as [r s'] eqn:Hp. cbn in Hok. subst r.
  destruct (binding_perform_kept _ _ _ _ Hp Hcan) as [[Hkept _] _].
  destruct (checkpointed _ _ _ _ _ _ Hc' Hp Hcan) as (k' & row' & Hk' & Hrow' & Ha').
  assert (k' = k) as -> by congruence. destruct (Hkept _ _ Hrow) as (row2 & Hrow2 & K).
  pose proof (bk_artifacts _ _ K _ _ Ha). congruence.
Qed.

(** C25: The bindings of a run and of its tasks never change.  Once a checkpoint was acknowledged,
    every later reading of the run returns its artifact, and every acknowledged checkpoint of the
    same kind was for the same artifact; the intake of a run and the approved task are what was
    acknowledged first; whatever else happens in between. *)
Theorem bindings_are_final calls s i j c :
  canonical_rows s -> calls !! i = Some c -> (i < j)%nat ->
  fst (binding_perform c (bound_after (take i calls) s)) = Ok tt ->
  let later := bound_after (take j calls) s in
  (forall run column ref, checkpoints c = Some (run, column, ref) ->
     (exists b, BindingRepository_GetRun run later = Ok b /\ bound_artifact b column = Some ref) /\
     forall c' ref', checkpoints c' = Some (run, column, ref') ->
       fst (binding_perform c' later) = Ok tt -> ref' = ref) /\
  (forall binding, c = CallCreateBinding binding ->
     exists b, BindingRepository_GetRun (RB_RunID binding) later = Ok b /\
       RB_Intake b = RB_Intake binding /\ RB_BaseCommit b = RB_BaseCommit binding /\
       RB_RepositoryMap b = RB_RepositoryMap binding /\ RB_Policy b = RB_Policy binding /\
       RB_ExecutionImageDigest b = RB_ExecutionImageDigest binding /\
       RB_VerificationImageDigest b = RB_VerificationImageDigest binding) /\
  (forall run graph task, c = CallCheckpointTaskGraph run graph task ->
     exists b, BindingRepository_GetTask run (TB_TaskID task) later = Ok b /\
       TB_ApprovedTask b = TB_ApprovedTask task).
Proof.
  intros Hcan Hc Hij Hok. cbn zeta. destruct (bound_between _ _ _ _ _ Hc Hij Hcan) as (Hi & [Hr Ht] & Hj).
  destruct (binding_perform c _) as [r s1] eqn:Hp. cbn in Hok, Hr, Ht. subst r. split_and!.
  - intros run column ref Hcp. destruct (checkpointed _ _ _ _ _ _ Hcp Hp Hi) as (k & row & Hk & Hrow & Ha).
    destruct (Hr _ _ Hrow) as (row' & Hrow' & K). pose proof (bk_artifacts _ _ K _ _ Ha) as Ha'.
    destruct (GetRun_row _ _ _ _ Hk Hrow') as (b & Hb & Hcols & _). split.
    + exists b. by rewrite Hcols.
    + intros c' ref' Hc' Hok. by eapply recheckpointed.
  - intros binding ->. open_call Hp. apply run_tx_cases in Hp as [(x & _ & Hp)|(? & ? & _)]; [|done].
    apply CreateRunBindingTx_Ok in Hp as (k & row & Hk & Hrow & Hi' & Hmap & _).
    destruct (Hr _ _ Hrow) as (row' & Hrow' & K).
    destruct (GetRun_row _ _ _ _ Hk Hrow') as (b & Hb & Hcols & H1 & H2 & H3 & H4 & H5 & _).
    exists b. destruct Hi', K. split_and!; try congruence.
    destruct (RB_RepositoryMap binding) as [m|] eqn:Em; [|done].
    specialize (Hcols RepositoryMapColumns). cbn in Hcols. rewrite Hcols. auto.
  - intros run graph task ->. open_call Hp. apply run_tx_cases in Hp as [(x & _ & Hp)|(? & ? & _)]; [|done].
    apply CheckpointTaskGraphTx_Ok in Hp as (k & id & row & Hk & Hid & _ & _ & Htask & _); [|done].
    apply Ht in Htask. unfold BindingRepository_GetTask, uuid_param. rewrite Hk, Hid. cbn.
    rewrite Htask. cbn. rewrite bool_decide_true by done. eauto.
Qed.

End histories.

(** ** Samples *)

Definition sample_image : string := "sha256:" +:+ hex64.

Definition sample_binding (created : time) : RunBinding :=
  mkRunBinding "run-1" (art "intake") hex40 (Some (art "map")) (Some (art "policy")) sample_image
    sample_image None None None created.

Definition sample_binding_calls : list binding_call :=
  [CallCreateBinding (sample_binding (at_time 1)); CallCheckpointSpecification "run-1" (art "spec");
   CallCheckpointTaskGraph "run-1" (art "graph") (mkTaskBinding "run-1" "task-1" (art "task"));
   CallCheckpointSpecification "run-1" (art "other"); CallCheckpointApproval "run-1" (art "approval")].

Lemma bindings_are_final_witness :
  fst (binding_perform (CallCheckpointSpecification "run-1" (art "other"))
    (bound_after (take 3 sample_binding_calls) (empty_bound sample_rt))) = Err ErrConflict /\
  exists b, BindingRepository_GetRun "run-1" (bound_after (take 5 sample_binding_calls)
    (empty_bound sample_rt)) = Ok b /\ bound_artifact b SpecificationColumns = Some (art "spec").
Proof.
  split; [vm_compute; reflexivity|].
  destruct (bindings_are_final sample_binding_calls (empty_bound sample_rt) 1 5
    (CallCheckpointSpecification "run-1" (art "spec"))) as [Hs _].
  - intros k t Hk. discriminate Hk.
  - reflexivity.
  - lia.
  - vm_compute. reflexivity.
  - exact (proj1 (Hs "run-1" SpecificationColumns (art "spec") eq_refl)).
Defined.

(** The column keeps microseconds: the same binding again, created between two
    of them, is taken for another one. *)
Example repeated_binding_conflicts :
  let binding := sample_binding (mkTime (instant (at_time 1) + 1) 0) in
  let once := binding_perform (CallCreateBinding binding) (empty_bound sample_rt) in
  fst once = Ok tt /\ fst (binding_perform (CallCreateBinding binding) (snd once)) = Err ErrConflict.
Proof. vm_compute. split; reflexivity. Qed.
