(* ===== verification/CaIntake.v ===== *)
(** * Taking in a run, and approving its task graph

    Models [go/internal/controlapi/intake.go] and [task_graph.go]: the two
    transactions of the control API that change the workflow, the bindings and
    the runtime ledger together.  A statement takes effect at once; what
    others commit before it is part of the circumstances of the call.  The
    process renews its reservation in a goroutine: its updates are among what
    others commit, and its failure is a circumstance. *)

From S2P Require Import Prelude GoStd GoJson GoText WfTypes WfPlan WfRun WfDb WfStore PgRetry RtLedger RtReconciler.
From S2P Require Import Interleave CtMessages CtCommon BetaPolicy RtBuilder RtBindings.

(** ** Data *)

(** The command is always one that creates a run. *)
Record RunIntakeRequest := mkRunIntakeRequest {
  Intake_Idempotency : IdempotencyRequest;
  Intake_Meta : CommandEnvelope;
  Intake_RunID : string;
  Intake_Content : string;
  Intake_BaseCommit : string;
}.

Definition Intake_Command (r : RunIntakeRequest) : RunCommand := CreateRun (Intake_Meta r) (Intake_RunID r).

Inductive IntakeFaultPoint :=
| FaultAfterReservation | FaultAfterIntakeCAS | FaultAfterRepositoryCAS | FaultAfterPolicyCAS
| FaultAfterWorkflow | FaultAfterBinding | FaultAfterResponse | FaultIntakeBeforeCommit
| FaultIntakeAfterCommit.

Record RunIntakeCoordinator := mkCoordinator {
  Co_repositoryRoot : string;
  Co_policy : Policy;
}.

Record stagedRunIntake := mkStaged {
  Staged_intake : ArtifactRef;
  Staged_repositoryMap : ArtifactRef;
  Staged_policy : ArtifactRef;
}.

(** The flags tell which of the dependencies are there. *)
Definition NewRunIntakeCoordinator (pool store artifacts : bool) (repositoryRoot : string)
    (configuredPolicy : list Policy) : res RunIntakeCoordinator :=
  if negb (pool && store && artifacts) then Err (ErrText "run intake dependencies are required")
  else if negb (CleanAbsolute repositoryRoot)
  then Err (ErrText "repository root must be clean and absolute")
  else
    match configuredPolicy with
    | [policy] =>
        if Repository.Root (Policy_Repository policy) != repositoryRoot
        then Err (ErrText "one matching beta policy is required")
        else Policy_Validate policy ;; Ok (mkCoordinator repositoryRoot policy)
    | _ => Err (ErrText "one matching beta policy is required")
    end.

(** ** What a transaction meets *)

(** Beginning the transaction, one of its statements or its end may fail; a
    commit may take effect although its answer is an error. *)
Inductive transaction_weather :=
| TxClear | TxBeginFails (e : error) | TxStatementFails (e : error) | TxCommitFails (e : error)
| TxCommitLost (e : error).

Record attempt_circumstances := mkAttempt {
  at_weather : transaction_weather;
  at_before : bound_db -> bound_db;       (* what others commit before it *)
  at_concurrent : gset string;            (* the commands of transactions it does not see *)
  at_workflow : FaultPoint -> option error;
  at_rollback : option error;
  at_clock : Z;
}.

Definition fault_at {S P} (inject : P -> option error) (point : P) : tx S unit :=
  match inject point with Some e => tx_err e | None => mret tt end.

(** One attempt at [body]: its answer, whether a commit was attempted, and the
    database. *)
Definition attempt_transaction {A} (body : attempt_circumstances -> tx bound_db A) (label : string)
    (x : attempt_circumstances) (s : bound_db) : res A * bool * bound_db :=
  let s := at_before x s in
  let rolled_back e := match at_rollback x with Some r => ErrJoin e r | None => e end in
  match at_weather x with
  | TxBeginFails e => (Err e, false, s)
  | TxStatementFails e => (Err (rolled_back e), false, s)
  | w =>
      match body x s with
      | Err e => (Err (rolled_back e), false, s)
      | Ok (a, s') =>
          match w with
          | TxCommitFails e => (Err (ErrWrap e label), true, s)
          | TxCommitLost e => (Err (ErrWrap e label), true, s')
          | _ => (Ok a, true, s')
          end
      end
  end.

Section intake.
Context `{Platform}.
Variable print_rune : string -> bool.

(** ** The intake of a run *)

Definition validateRunIntakeRequest (request : RunIntakeRequest) : res unit :=
  let meta := Intake_Meta request in
  let idempotency := Intake_Idempotency request in
  if (Method idempotency != "POST") || (Target idempotency != "/v1/runs") ||
     (CommandID meta != Key idempotency) ||
     (Actor_ID (Envelope_Actor meta) != PrincipalID idempotency) ||
     bool_decide (Actor_Kind (Envelope_Actor meta) <> ActorHuman) ||
     negb (ExpectedRevision meta =? 0)
  then Err ErrConflict else CommandEnvelope_Validate meta.

Definition entry_json (entry : pb_RepositoryEntry) : json :=
  let field name value := if value == "" then [] else [(name, JStr value)] in
  JObj (field "path" (ry_path entry) ++ field "kind" (ry_kind entry) ++ field "sha256" (ry_sha256 entry)).

Definition snapshot_json (snapshot : RepositorySnapshot) : json :=
  JObj [("base_commit", JStr (Snapshot_BaseCommit snapshot));
    ("entries", JArr (map entry_json (Entries snapshot)))].

(** [remote] and [git] answer the commands that check the remote and read the
    repository; [put] stores an artifact. *)
Definition stageArtifacts (c : RunIntakeCoordinator) (inject : IntakeFaultPoint -> option error)
    (remote git : list string -> res string) (put : string -> res ArtifactRef)
    (request : RunIntakeRequest) : res stagedRunIntake :=
  let fault point := match inject point with Some e => Err e | None => Ok tt end in
  if Intake_BaseCommit request != Repository.BaseCommit (Policy_Repository (Co_policy c))
  then Err ErrConflict
  else
    VerifyRemoteBase remote (Co_policy c) ;;
    intake ← put (Intake_Content request);
    fault FaultAfterIntakeCAS ;;
    snapshot ← SnapshotRepository git (Co_repositoryRoot c) (Intake_BaseCommit request);
    if Snapshot_BaseCommit snapshot != Intake_BaseCommit request then Err ErrConflict
    else
      repositoryMap ← put (json_text (snapshot_json snapshot));
      fault FaultAfterRepositoryCAS ;;
      '(policyBody, _) ← Canonical (Co_policy c);
      policy ← put policyBody;
      fault FaultAfterPolicyCAS ;;
      Ok (mkStaged intake repositoryMap policy).

(** [clock] is the clock of the database. *)
Definition lockIntakeReservation (request : IdempotencyRequest) (fence clock : Z) : tx rt_db unit :=
  key ← tx_lift (uuid_param (Key request));
  s ← tx_get;
  match rt_requests s !! key with
  | None => tx_err RtErrNotFound
  | Some r =>
      if (ir_method r != Method request) || (ir_target r != Target request) ||
         (ir_principal r != PrincipalID request) || (ir_digest r != RequestDigest request)
      then tx_err ErrConflict
      else if negb (is_null (ir_outcome r)) then tx_err ErrTerminal
      else if negb (ir_fence r =? fence) || negb (clock <? ir_until r) then tx_err ErrStaleFence
      else mret tt
  end.

Definition completeIntakeReservation (key : string) (fence status : Z) (response : json)
    : tx rt_db json :=
  response ← tx_lift (jsonb_column response);
  updated ← update_reservation key fence (fun r =>
    mkReservation (ir_method r) (ir_target r) (ir_principal r) (ir_digest r)
      (Some (status, response)) (ir_until r) (ir_fence r));
  if updated : bool then mret response else tx_err ErrStaleFence.

Definition intake_binding (c : RunIntakeCoordinator) (request : RunIntakeRequest)
    (staged : stagedRunIntake) : RunBinding :=
  mkRunBinding (Intake_RunID request) (Staged_intake staged) (Intake_BaseCommit request)
    (Some (Staged_repositoryMap staged)) (Some (Staged_policy staged))
    (Image_Execution (Policy_Images (Co_policy c))) (Image_Verification (Policy_Images (Co_policy c)))
    None None None (WfTypes.Timestamp (Intake_Meta request)).

Definition StatusCreated : Z := 201.

(** The transaction of [commitIntakeOnce]. *)
Definition intake_transaction (c : RunIntakeCoordinator) (inject : IntakeFaultPoint -> option error)
    (request : RunIntakeRequest) (fence : Z) (staged : stagedRunIntake) (x : attempt_circumstances)
    : tx bound_db json :=
  on_runtime (lockIntakeReservation (Intake_Idempotency request) fence (at_clock x)) ;;
  result ← on_workflow (ExecuteRunTx (Some (at_workflow x)) (at_concurrent x) (Intake_Command request));
  fault_at inject FaultAfterWorkflow ;;
  CreateRunBindingTx (intake_binding c request staged) ;;
  fault_at inject FaultAfterBinding ;;
  response ← on_runtime (completeIntakeReservation (Key (Intake_Idempotency request)) fence
    StatusCreated (WfStore.result_json result));
  fault_at inject FaultAfterResponse ;;
  fault_at inject FaultIntakeBeforeCommit ;;
  mret response.

Definition commitIntakeOnce (c : RunIntakeCoordinator) (inject : IntakeFaultPoint -> option error)
    (request : RunIntakeRequest) (fence : Z) (staged : stagedRunIntake) (x : attempt_circumstances)
    (s : bound_db) : res json * bool * bound_db :=
  attempt_transaction (intake_transaction c inject request fence staged) "commit run intake" x s.

(** What one call of [Accept] meets. *)
Record intake_circumstances := mkIntakeCircumstances {
  ic_now : time;
  ic_begin : reply;
  ic_inject : nat -> IntakeFaultPoint -> option error;
  ic_remote : list string -> res string;
  ic_git : list string -> res string;
  ic_put : string -> res ArtifactRef;
  ic_attempt : nat -> attempt_circumstances;
  ic_ctx_done : nat -> option error;
  ic_before_abandon : bound_db -> bound_db;
  ic_abandon : reply;
  ic_abandon_clock : Z;
  ic_renewed : option error;
}.

(** The database, and whether a commit was attempted before. *)
Definition commitIntake (c : RunIntakeCoordinator) (x : intake_circumstances)
    (request : RunIntakeRequest) (fence : Z) (staged : stagedRunIntake) (s : bound_db)
    : res json * (bound_db * bool) :=
  RetryTransaction (fun n '(s, attempted) =>
    match commitIntakeOnce c (ic_inject x n) request fence staged (ic_attempt x n) s with
    | (r, now_attempted, s') => (r, (s', attempted || now_attempted))
    end) (ic_ctx_done x) (s, false).

Definition abandonReservation (x : intake_circumstances) (key : string) (fence : Z) (cause : error)
    (s : bound_db) : error * bound_db :=
  match statement (ic_abandon x) (on_runtime (AbandonIdempotency key fence (ic_abandon_clock x)))
          (ic_before_abandon x s) with
  | (Ok _, s') => (cause, s')
  | (Err e, s') => (if errors_Is e ErrTerminal then cause else ErrJoin cause e, s')
  end.

(** The failure of the goroutine that renews takes the place of a cancellation. *)
Definition renewal_error (x : intake_circumstances) (err : error) : error :=
  match ic_renewed x with
  | Some renewErr => if errors_Is err context_Canceled then renewErr else err
  | None => err
  end.

Definition with_ttl (r : IdempotencyRequest) : IdempotencyRequest :=
  if ReservationTTL r <=? 0
  then mkIdemRequest (Key r) (Method r) (Target r) (PrincipalID r) (RequestDigest r) (30 * Second)
  else r.

(** From the reservation on. *)
Definition accept_reserved (c : RunIntakeCoordinator) (x : intake_circumstances)
    (request : RunIntakeRequest) (fence : Z) (s : bound_db) : res IdempotencyResult * bound_db :=
  let abandon cause s :=
    let '(e, s') := abandonReservation x (Key (Intake_Idempotency request)) fence cause s in
    (Err (renewal_error x e), s') in
  match ic_inject x 0 FaultAfterReservation with
  | Some e => abandon e s
  | None =>
      match stageArtifacts c (ic_inject x 0) (ic_remote x) (ic_git x) (ic_put x) request with
      | Err e => abandon e s
      | Ok staged =>
          match commitIntake c x request fence staged s with
          | (Err e, (s', commitAttempted)) =>
              if commitAttempted : bool then (Err (renewal_error x e), s') else abandon e s'
          | (Ok response, (s', _)) =>
              match ic_inject x 0 FaultIntakeAfterCommit with
              | Some e => (Err e, s')
              | None => (Ok (mkIdemResult StatusCreated (Some response) false fence), s')
              end
          end
      end
  end.

Definition Accept (c : RunIntakeCoordinator) (x : intake_circumstances) (request : RunIntakeRequest)
    (s : bound_db) : res IdempotencyResult * bound_db :=
  match validateRunIntakeRequest request with
  | Err e => (Err e, s)
  | Ok _ =>
      let request := mkRunIntakeRequest (with_ttl (Intake_Idempotency request)) (Intake_Meta request)
        (Intake_RunID request) (Intake_Content request) (Intake_BaseCommit request) in
      match statement (ic_begin x)
              (on_runtime (BeginIdempotency (Intake_Idempotency request) (ic_now x))) s with
      | (Err e, s') => (Err e, s')
      | (Ok reservation, s') =>
          if Idem_Replay reservation then (Ok reservation, s')
          else accept_reserved c x request (Idem_FencingToken reservation) s'
      end
  end.

(** ** The approval of a task graph *)

(** The command is always one that approves a task graph. *)
Record TaskGraphApprovalRequest := mkTaskGraphApproval {
  TGA_Meta : CommandEnvelope;
  TGA_RunID : string;
  TGA_TaskGraph : ArtifactRef;
  TGA_Tasks : list TaskDefinition;
  TGA_Dependencies : list TaskDependency;
  TGA_Graph : ArtifactRef;
  TGA_Task : TaskBinding;
  TGA_StartJob : Job;
}.

Definition TGA_Command (r : TaskGraphApprovalRequest) : RunCommand :=
  ApproveTaskGraph (TGA_Meta r) (TGA_RunID r) (TGA_TaskGraph r) (TGA_Tasks r) (TGA_Dependencies r).

Inductive TaskGraphApprovalFaultPoint :=
| FaultTaskGraphAfterWorkflow | FaultTaskGraphAfterBinding | FaultTaskGraphAfterEnqueue.

Definition validateTaskGraphApproval (request : TaskGraphApprovalRequest) : res unit :=
  match TGA_Tasks request, TGA_Dependencies request with
  | [definition], [] =>
      let job := TGA_StartJob request in
      if negb (ArtifactRef_Equal (TGA_TaskGraph request) (TGA_Graph request)) ||
         (TB_RunID (TGA_Task request) != TGA_RunID request) ||
         (TB_TaskID (TGA_Task request) != Definition_ID definition) ||
         negb (bool_decide (Job_TaskID job = Some (Definition_ID definition))) ||
         (Job_RunID job != TGA_RunID request) || negb (Job_Attempt job =? 1) ||
         (Job_Stage job != StageStart) ||
         bool_decide (UTC (AvailableAt job) <> UTC (WfTypes.Timestamp (TGA_Meta request))) ||
         (Job_ID job != StableID print_rune [TGA_RunID request; Definition_ID definition; "1";
            StageStart; "job"])
      then Err ErrInvalid else Ok tt
  | _, _ => Err ErrInvalid
  end.

(** The transaction of [approveOnce]. *)
Definition approval_transaction (inject : TaskGraphApprovalFaultPoint -> option error)
    (request : TaskGraphApprovalRequest) (x : attempt_circumstances) : tx bound_db CommandResult :=
  result ← on_workflow (ExecuteRunTx (Some (at_workflow x)) (at_concurrent x) (TGA_Command request));
  fault_at inject FaultTaskGraphAfterWorkflow ;;
  CheckpointTaskGraphTx true (TGA_RunID request) (TGA_Graph request) (TGA_Task request) ;;
  fault_at inject FaultTaskGraphAfterBinding ;;
  on_runtime (EnqueueTx (TGA_StartJob request)) ;;
  fault_at inject FaultTaskGraphAfterEnqueue ;;
  mret result.

Definition approveOnce (inject : TaskGraphApprovalFaultPoint -> option error)
    (request : TaskGraphApprovalRequest) (x : attempt_circumstances) (s : bound_db)
    : res CommandResult * bound_db :=
  match attempt_transaction (approval_transaction inject request) "commit task graph approval" x s with
  | (r, _, s') => (r, s')
  end.

Definition Coordinator_ApproveTaskGraph (inject : nat -> TaskGraphApprovalFaultPoint -> option error)
    (circumstances : nat -> attempt_circumstances) (ctx_done : nat -> option error)
    (request : TaskGraphApprovalRequest) (s : bound_db) : res CommandResult * bound_db :=
  match validateTaskGraphApproval request with
  | Err e => (Err e, s)
  | Ok _ =>
      RetryTransaction (fun n => approveOnce (inject n) request (circumstances n)) ctx_done s
  end.

End intake.
