(* ===== verification/CaIntakeProps.v ===== *)
(** * Runs that are taken in, and task graphs that are approved *)

From S2P Require Import Prelude GoStd GoJson WfTypes WfPlan WfRun WfDigest WfDb WfStore.
From S2P Require Import WfStoreLemmas WfStoreTx WfReplay PgRetry RtLedger RtHistory RtFencing.
From S2P Require Import RtReconciler Interleave CtCommon BetaPolicy RtBuilder RtBindings.
From S2P Require Import RtBindingProps CaIntake CtSamples RtBuilderProps Samples WfGuarantees.

(** * A run is taken in once, with its binding and its answer, or not at all *)

(** ** One attempt at a transaction *)

(** Either the body took effect, acknowledged or not, or nothing did. *)
Lemma attempt_cases {A} (body : attempt_circumstances -> tx bound_db A) label x s r att s' :
  attempt_transaction body label x s = (r, att, s') ->
  (s' = at_before x s /\ exists e, r = Err e) \/
  (att = true /\ exists a, body x (at_before x s) = Ok (a, s') /\ forall b, r = Ok b -> b = a).
Proof.
  unfold attempt_transaction. intros Hr.
  destruct (at_weather x); try (injection Hr as <- <- <-; left; eauto; fail);
    destruct (body x (at_before x s)) as [[a s1]|e'] eqn:E; injection Hr as <- <- <-;
    try (left; by eauto); right; split; try done; exists a; split; try done; by intros ? [= <-].
Qed.

Lemma fault_at_Ok {S P} (inject : P -> option error) point (s : S) u s' :
  fault_at inject point s = Ok (u, s') -> s' = s.
Proof. unfold fault_at. destruct (inject point); [done|]. by intros [= _ <-]. Qed.

Lemma on_runtime_Ok {A} (m : tx rt_db A) s a s' :
  on_runtime m s = Ok (a, s') ->
  exists r, m (bd_runtime s) = Ok (a, r) /\ s' = mkBoundDb r (bd_runs s) (bd_tasks s).
Proof. unfold on_runtime. destruct (m _) as [[x r]|]; [|done]. intros [= <- <-]. eauto. Qed.

Lemma on_workflow_Ok {A} (m : tx db A) s a s' :
  on_workflow m s = Ok (a, s') ->
  exists w, m (bd_workflow s) = Ok (a, w) /\
    s' = mkBoundDb (mkRtDb w (rt_jobs (bd_runtime s)) (rt_requests (bd_runtime s))) (bd_runs s) (bd_tasks s).
Proof.
  unfold on_workflow. intros (r & Hm & ->)%on_runtime_Ok.
  destruct (m (rt_workflow (bd_runtime s))) as [[x w]|] eqn:E; [|done]. injection Hm as <- <-. eauto.
Qed.

Section workflow.
Context `{PlatformLaws}.

(** What a command in a transaction leaves behind. *)
Lemma ExecuteRunTx_answered inject conc c s result s' :
  ExecuteRunTx (Some inject) conc c s = Ok (result, s') ->
  exists meta digest r0, RunCommand_Envelope c = Some meta /\ commandDigest c = Ok digest /\
    WfReplay.answered (CommandID meta) digest s' r0 /\ set_Replay true result = set_Replay true r0 /\
    (Replay result = true -> s' = s) /\
    (Replay result = false -> inhabited (run_commit c meta s s' result)).
Proof.
  unfold ExecuteRunTx. intros Hr. tx_open Hr. unfold no_replay in Hr.
  destruct (executeRunTransaction _ _ _ _ _) as [y|e] eqn:Ht; [|by case_match]. injection Hr as ->.
  pose proof (executeRunTransaction_Ok _ _ _ _ _ _ _ Ht) as (meta & He & Hcases).
  match goal with Hv : validateRunCommand c = Ok ?u, Hd : commandDigest c = Ok ?d |- _ =>
    destruct u; destruct (transaction_step (inl c) inject conc d s result s' meta Hv He Ht)
      as [[-> (r0 & Ha & ->)]|[Ha Hf]]; exists meta, d end.
  - exists r0. by split_and!.
  - exists result. split_and!; try done; [congruence|]. intros _.
    destruct Hcases as [[-> (k & row & r0 & _ & _ & _ & ->)]|[_ Hc]]; [done|exact Hc].
Qed.

End workflow.

(** ** What a transaction of the intake does *)

Section intake.
Context `{PlatformLaws}.

Definition completed_with (status : Z) (v : json) (r : idempotencyReservation) : idempotencyReservation :=
  mkReservation (ir_method r) (ir_target r) (ir_principal r) (ir_digest r) (Some (status, v))
    (ir_until r) (ir_fence r).

(** The run is taken in between [s] and [s'] under the token [fence]: its
    command is answered, it is bound to what was staged, and the reservation
    holds the answer, for the same request. *)
Record taken_in (c : RunIntakeCoordinator) (request : RunIntakeRequest) (fence : Z)
    (staged : stagedRunIntake) (response : json) (s s' : bound_db) : Prop := {
  ti_reserved : exists k r, uuid_column (Key (Intake_Idempotency request)) = Some k /\
    rt_requests (bd_runtime s) !! k = Some r /\ asks r (Intake_Idempotency request) /\
    ir_principal r = PrincipalID (Intake_Idempotency request) /\
    ir_outcome r = None /\ ir_fence r = fence /\
    rt_requests (bd_runtime s') = <[k := completed_with StatusCreated response r]>
      (rt_requests (bd_runtime s));
  ti_command : exists digest r0 result, commandDigest (Intake_Command request) = Ok digest /\
    WfReplay.answered (CommandID (Intake_Meta request)) digest (bd_workflow s') r0 /\
    set_Replay true result = set_Replay true r0 /\ response = json_trip (WfStore.result_json result) /\
    (Replay result = false -> inhabited (run_commit (Intake_Command request) (Intake_Meta request)
       (bd_workflow s) (bd_workflow s') result));
  ti_binding : exists run row, uuid_column (Intake_RunID request) = Some run /\
    bd_runs s' !! run = Some row /\ row_of_intake row (intake_binding c request staged) /\
    (bd_runs s' = bd_runs s \/ bd_runs s !! run = None /\ bd_runs s' = <[run := row]> (bd_runs s));
  ti_others : rt_jobs (bd_runtime s') = rt_jobs (bd_runtime s) /\ bd_tasks s' = bd_tasks s;
}.

Lemma lockIntakeReservation_Ok request fence clock s u s' :
  lockIntakeReservation request fence clock s = Ok (u, s') ->
  s' = s /\ exists k r, uuid_column (Key request) = Some k /\ rt_requests s !! k = Some r /\
    asks r request /\ ir_principal r = PrincipalID request /\ ir_outcome r = None /\ ir_fence r = fence.
Proof.
  unfold lockIntakeReservation. intros Hr. tx_run Hr. injection Hr as _ <-. split; [done|].
  match goal with Hu : uuid_param _ = Ok ?k, Hl : _ !! _ = Some ?r |- _ =>
    apply uuid_param_Ok in Hu; exists k, r end.
  repeat match goal with
  | H : _ || _ = false |- _ => apply orb_false_iff in H; destruct H
  | H : negb _ = false |- _ => apply negb_false_iff in H
  | H : bool_decide _ = true |- _ => apply bool_decide_eq_true in H
  | H : (_ =? _) = true |- _ => apply Z.eqb_eq in H
  end.
  unfold asks. split_and!; try done. by destruct (ir_outcome _).
Qed.

Lemma completeIntakeReservation_Ok key fence status response s v s' :
  completeIntakeReservation key fence status response s = Ok (v, s') ->
  v = json_trip response /\ exists k r, uuid_column key = Some k /\ rt_requests s !! k = Some r /\
    s' = set_rt_requests (<[k := completed_with status v r]> (rt_requests s)) s.
Proof.
  unfold completeIntakeReservation. intros Hr. tx_run Hr. injection Hr as <- <-.
  match goal with Hj : jsonb_column _ = Ok _ |- _ => apply jsonb_column_Ok in Hj as -> end.
  split; [done|]. match goal with Hu : update_reservation _ _ _ _ = Ok _ |- _ =>
    apply update_reservation_Ok in Hu as [[? _]|(k & r & _ & Hk & Hl & _ & _ & ->)]; [done|] end.
  by exists k, r.
Qed.

Lemma intake_transaction_Ok c inject request fence staged x s response s' :
  intake_transaction c inject request fence staged x s = Ok (response, s') ->
  taken_in c request fence staged response s s'.
Proof.
  unfold intake_transaction. intros (u & s1 & (r1 & Hlock & ->)%on_runtime_Ok & Hr)%tx_bind_Ok.
  apply lockIntakeReservation_Ok in Hlock as (-> & k & r & Hk & Hl & Hasks & Hp & Ho & Hf).
  apply tx_bind_Ok in Hr as (result & s1 & (w & Hx & ->)%on_workflow_Ok & Hr).
  change (bd_workflow _) with (bd_workflow s) in Hx.
  apply tx_bind_Ok in Hr as (? & s1 & ->%fault_at_Ok & Hr).
  apply tx_bind_Ok in Hr as (? & s2 & Hb & Hr).
  apply tx_bind_Ok in Hr as (? & s3 & ->%fault_at_Ok & Hr).
  apply tx_bind_Ok in Hr as (v & s3 & (r3 & Hdone & ->)%on_runtime_Ok & Hr).
  apply tx_bind_Ok in Hr as (? & s4 & ->%fault_at_Ok & Hr).
  apply tx_bind_Ok in Hr as (? & s4 & ->%fault_at_Ok & [= <- <-]).
  apply CreateRunBindingTx_Ok in Hb as (run & row & Hrun & Hrow & Hint & _ & Hs2).
  apply completeIntakeReservation_Ok in Hdone as (-> & k' & r' & Hk' & Hl' & ->).
  apply ExecuteRunTx_answered in Hx as (meta & digest & r0 & [= <-] & Hd & Ha & He & _ & Hfresh).
  assert (k' = k) as -> by congruence.
  assert (Hrt : bd_runtime s2 = mkRtDb w (rt_jobs (bd_runtime s)) (rt_requests (bd_runtime s)) /\
    bd_tasks s2 = bd_tasks s /\ (bd_runs s2 = bd_runs s \/ bd_runs s !! run = None /\
      bd_runs s2 = <[run := row]> (bd_runs s))).
  { destruct Hs2 as [->|[? ->]]; auto. }
  clear Hs2. destruct s2 as [rt2 runs2 tasks2], Hrt as (Hr2 & Ht2 & Hruns).
  cbn [bd_runtime bd_tasks bd_runs] in Hr2, Ht2, Hruns. subst rt2 tasks2.
  assert (r' = r) as -> by (change (rt_requests (bd_runtime s) !! k = Some r') in Hl'; congruence).
  split.
  - exists k, r. by split_and!.
  - exists digest, r0, result. by split_and!.
  - exists run, row. by split_and!.
  - done.
Qed.

End intake.

(** ** What is answered stays answered *)

Definition answers_kept (s s' : bound_db) : Prop :=
  forall k r, rt_requests (bd_runtime s) !! k = Some r -> ir_outcome r <> None ->
    rt_requests (bd_runtime s') !! k = Some r.

#[global] Instance answers_kept_preorder : PreOrder answers_kept.
Proof.
  split; [by intros s k r|]. intros s1 s2 s3 H12 H23 k r Hk Ho. auto.
Qed.

Definition with_runtime (r : rt_db) (s : bound_db) : bound_db := mkBoundDb r (bd_runs s) (bd_tasks s).

Lemma answers_insert k r' s :
  (forall r, rt_requests (bd_runtime s) !! k = Some r -> ir_outcome r = None) ->
  answers_kept s (with_runtime (set_rt_requests (<[k := r']> (rt_requests (bd_runtime s))) (bd_runtime s)) s).
Proof.
  intros Hn i r Hi Ho. cbn. destruct (decide (i = k)) as [->|Hne]; [|by rewrite lookup_insert_ne].
  destruct Ho. by apply Hn.
Qed.

Section accepting.
Context `{PlatformLaws}.
(** What other processes may commit: anything that leaves recorded answers alone. *)
Variable others : relation bound_db.
Hypothesis others_keep : forall s s', others s s' -> answers_kept s s'.

(** What happens to a request while its run is not taken in: others commit,
    it is reserved, and the deadline of its reservation moves. *)
Inductive waits (request : IdempotencyRequest) : relation bound_db :=
| waits_others s s' : others s s' -> waits request s s'
| waits_reserved k answer r s :
    uuid_column (Key request) = Some k -> begins request k answer (bd_runtime s) r ->
    waits request s (with_runtime r s)
| waits_deadline fence r s :
    deadline_moved (Key request) fence (bd_runtime s) r -> waits request s (with_runtime r s).

Lemma waits_keep request s s' : rtc (waits request) s s' -> answers_kept s s'.
Proof.
  induction 1 as [s|s1 s2 s3 Hs _ IH]; [done|]. etrans; [|exact IH]. clear IH s3.
  destruct Hs as [s s' Ho|k answer r s Hk Hb|fence r s (k & row & v & _ & Hl & _ & Ho & ->)].
  - by apply others_keep.
  - destruct Hb as [(Hn & _ & row & _ & _ & _ & ->)|(row & Hl & _ & [(? & ? & _ & -> & _)|
      (Ho & _ & _ & row' & _ & _ & _ & ->)])].
    + apply answers_insert. congruence.
    + by destruct s.
    + apply answers_insert. congruence.
  - apply answers_insert. congruence.
Qed.

(** The other processes only do what they may. *)
Definition fair (x : intake_circumstances) : Prop :=
  (forall n s, others s (at_before (ic_attempt x n) s)) /\ forall s, others s (ic_before_abandon x s).

(** A run is taken in once. *)
Lemma taken_in_once c c' request fence fence' staged staged' v v' s0 s1 s2 s3 :
  taken_in c request fence staged v s0 s1 -> answers_kept s1 s2 ->
  ~ taken_in c' request fence' staged' v' s2 s3.
Proof.
  intros [(k & r & Hk & Hl & _ & _ & Ho & _ & Hr) _ _ _] Hkept [(k' & r' & Hk' & Hl' & _ & _ & Ho' & _ & _) _ _ _].
  assert (k' = k) as -> by congruence.
  assert (rt_requests (bd_runtime s2) !! k = Some (completed_with StatusCreated v r)) as Hl2.
  { apply Hkept; [|done]. by rewrite Hr, lookup_insert_eq. }
  by assert (r' = completed_with StatusCreated v r) as -> by congruence.
Qed.

Section attempts.
Variables (c : RunIntakeCoordinator) (request : RunIntakeRequest) (fence : Z) (staged : stagedRunIntake).
Local Abbreviation waiting := (rtc (waits (Intake_Idempotency request))).
Local Abbreviation taken := (taken_in c request fence staged).

(** Before, or after, the run is taken in. *)
Definition intake_progress (s : bound_db) (cur : bound_db) (attempted : bool) : Prop :=
  waiting s cur \/
  attempted = true /\ exists v s0 s1, waiting s s0 /\ taken v s0 s1 /\ waiting s1 cur.

Lemma commit_attempt x inject s cur attempted r now_attempted s' :
  intake_progress s cur attempted -> others cur (at_before x cur) ->
  commitIntakeOnce c inject request fence staged x cur = (r, now_attempted, s') ->
  (exists v s0, r = Ok v /\ waiting s s0 /\ taken v s0 s') \/
  (exists e, r = Err e) /\ intake_progress s s' (attempted || now_attempted).
Proof.
  intros Hp Hothers Hr. apply attempt_cases in Hr as [[-> He]|(-> & v & Hbody & Hv)].
  - right. split; [done|]. assert (Hstep : waiting cur (at_before x cur)) by (by apply rtc_once, waits_others).
    destruct Hp as [Hp|(-> & v & s0 & s1 & Hw0 & Hw1 & Hw2)]; [left; by etrans|right].
    split; [done|]. exists v, s0, s1. split_and!; [done..|by etrans].
  - apply intake_transaction_Ok in Hbody. assert (Hstep : waiting cur (at_before x cur))
      by (by apply rtc_once, waits_others).
    destruct Hp as [Hp|(-> & v0 & s0 & s1 & Hw0 & Hw1 & Hw2)].
    + assert (waiting s (at_before x cur)) by (by etrans). destruct r as [w|e].
      * left. exists v, (at_before x cur). by rewrite (Hv w eq_refl).
      * right. split; [by exists e|]. right. rewrite orb_true_r. split; [done|].
        by exists v, (at_before x cur), s'.
    + exfalso. eapply taken_in_once; [exact Hw1| |exact Hbody]. eapply waits_keep. by etrans.
Qed.

Lemma commit_loop x s left n cur attempted r s' attempted' :
  (forall n s, others s (at_before (ic_attempt x n) s)) -> intake_progress s cur attempted ->
  retry_loop (fun n '(s, attempted) =>
    match commitIntakeOnce c (ic_inject x n) request fence staged (ic_attempt x n) s with
    | (r, now_attempted, s') => (r, (s', attempted || now_attempted))
    end) (ic_ctx_done x) left n (cur, attempted) = (r, (s', attempted')) ->
  (exists v s0, r = Ok v /\ waiting s s0 /\ taken v s0 s') \/
  (exists e, r = Err e) /\ intake_progress s s' attempted'.
Proof.
  intros Hfair. revert n cur attempted.
  induction left as [|left IH]; intros n cur att0 Hp; cbn [retry_loop].
  { intros [= <- <- <-]. right. eauto. }
  destruct (commitIntakeOnce _ _ _ _ _ _ _) as [[r1 now1] s1] eqn:Hone.
  destruct (commit_attempt _ _ _ _ _ _ _ _ Hp (Hfair n cur) Hone) as [(v & s0 & -> & Hw & Ht)|[[e ->] Hp1]].
  - intros [= <- <- <-]. left. eauto.
  - destruct (negb (IsTransient e)); [intros [= <- <- <-]; right; eauto|].
    destruct (left =? 0)%nat; [intros [= <- <- <-]; right; eauto|].
    destruct (ic_ctx_done x n); [intros [= <- <- <-]; right; eauto|by apply IH].
Qed.

Lemma commitIntake_cases x s r s' attempted :
  (forall n s, others s (at_before (ic_attempt x n) s)) ->
  commitIntake c x request fence staged s = (r, (s', attempted)) ->
  (exists v s0, r = Ok v /\ waiting s s0 /\ taken v s0 s') \/
  (exists e, r = Err e) /\ intake_progress s s' attempted.
Proof. intros Hfair. apply commit_loop; [done|by left]. Qed.

End attempts.
(** *** The reservation *)

(** The parameters of the request fit their columns. *)
Definition storable_request (r : IdempotencyRequest) : Prop :=
  uuid_Parse_ok (Key r) = true /\ (exists k, uuid_column (Key r) = Some k) /\
  text_column (Method r) = Ok (Method r) /\ text_column (Target r) = Ok (Target r) /\
  is_Some (uuid_column (PrincipalID r)) /\ text_column (RequestDigest r) = Ok (RequestDigest r) /\
  digestPattern (RequestDigest r) = true.

(** The answer to the request is on record. *)
Definition on_record (request : IdempotencyRequest) (answer : IdempotencyResult) (s : rt_db) : Prop :=
  exists k r status v, uuid_column (Key request) = Some k /\
    rt_requests s !! k = Some r /\ reservation_matches r request = true /\
    ir_outcome r = Some (status, v) /\ answer = mkIdemResult status (Some v) true (ir_fence r).

Lemma begin_storable request now s a s' :
  BeginIdempotency request now s = Ok (a, s') -> storable_request request.
Proof.
  unfold BeginIdempotency. destruct (uuid_Parse_ok (Key request)) eqn:Hp; [|done]. cbn [negb].
  intros (b & s1 & Hi & _)%tx_bind_Ok. unfold insertIdempotencyReservation in Hi. tx_run Hi;
  repeat match goal with
  | Hx : uuid_param _ = Ok _ |- _ => apply uuid_param_Ok in Hx
  | Hx : text_column _ = Ok _ |- _ => pose proof (text_column_Ok _ _ Hx); subst; revert Hx
  end; intros; unfold storable_request; split_and!; try done; try (by eexists);
  by apply negb_false_iff.
Qed.

Lemma begin_replays request now s a s' :
  BeginIdempotency request now s = Ok (a, s') -> Idem_Replay a = true ->
  s' = s /\ on_record request a s.
Proof.
  unfold BeginIdempotency. destruct (negb _); [done|]. cbv zeta.
  intros ([] & s1 & (k & Hk & Hi)%insertIdempotencyReservation_Ok & Hr)%tx_bind_Ok Hrep.
  - by injection Hr as <- <-.
  - destruct Hi as [(_ & [r Hl] & ->)|[[=] _]]. apply tx_bind_Ok in Hr as (r1 & s1 & Hload & Hr).
    unfold loadIdempotencyReservation in Hload. tx_run Hload. apply uuid_param_Ok in Hx.
    injection Hload as <- <-. destruct (reservation_matches _ request) eqn:Hm; cbn in Hr; [|done].
    destruct (ir_outcome _) as [[status v]|] eqn:Ho.
    + injection Hr as <- <-. split; [done|]. eexists _, _, status, v. split_and!; try done.
    + destruct (After _ _); [done|]. by apply tx_bind_Ok in Hr as (u & s1 & _ & [= <- <-]).
Qed.

Lemma begin_answers request now s a :
  storable_request request -> on_record request a (bd_runtime s) ->
  on_runtime (BeginIdempotency request now) s = Ok (a, s).
Proof.
  intros (Hp & [k Hk] & Hm & Ht & [pr Hpr] & Hd & Hdp) (k' & r & status & v & Hk' & Hl & Hmatch & Ho & ->).
  assert (k' = k) as -> by congruence.
  unfold on_runtime, BeginIdempotency. rewrite Hp. cbn [negb]. cbv zeta.
  unfold insertIdempotencyReservation, loadIdempotencyReservation, mbind, tx_bind, tx_lift, tx_get, uuid_param.
  rewrite Hk, Hm, Ht, Hpr, Hd, Hdp, bool_decide_true by eauto. cbn. rewrite Hl. cbn.
  rewrite Hmatch. cbn. rewrite Ho. by destruct s.
Qed.

Lemma with_ttl_begins request k a s r : begins (with_ttl request) k a s r -> begins request k a s r.
Proof. unfold with_ttl. by destruct (_ <=? 0). Qed.

Lemma with_ttl_same request :
  Key (with_ttl request) = Key request /\ Method (with_ttl request) = Method request /\
  Target (with_ttl request) = Target request /\ PrincipalID (with_ttl request) = PrincipalID request /\
  RequestDigest (with_ttl request) = RequestDigest request.
Proof. unfold with_ttl. by destruct (_ <=? 0). Qed.

Lemma with_ttl_waits request s s' : rtc (waits (with_ttl request)) s s' -> rtc (waits request) s s'.
Proof.
  apply rtc_subrel. intros x y [x' y' Ho|k a r x' Hk Hb|f r x' Hd].
  - by apply waits_others.
  - destruct (with_ttl_same request) as [E _]. rewrite E in Hk.
    eapply waits_reserved; [exact Hk|by apply with_ttl_begins].
  - destruct (with_ttl_same request) as [E _]. rewrite E in Hd. by eapply waits_deadline.
Qed.

Lemma with_ttl_record request a s : on_record (with_ttl request) a s <-> on_record request a s.
Proof. unfold with_ttl. by destruct (_ <=? 0). Qed.

Lemma with_ttl_storable request : storable_request (with_ttl request) <-> storable_request request.
Proof. unfold with_ttl. by destruct (_ <=? 0). Qed.

Definition defaulted (request : RunIntakeRequest) : RunIntakeRequest :=
  mkRunIntakeRequest (with_ttl (Intake_Idempotency request)) (Intake_Meta request)
    (Intake_RunID request) (Intake_Content request) (Intake_BaseCommit request).

Lemma defaulted_taken c request fence staged v s s' :
  taken_in c (defaulted request) fence staged v s s' -> taken_in c request fence staged v s s'.
Proof.
  unfold defaulted, with_ttl. destruct (_ <=? 0); intros [H1 H2 H3 H4]; split; try done.
Qed.

(** *** The whole call *)

Lemma abandon_waits x request fence cause s e s' :
  fair x -> abandonReservation x (Key request) fence cause s = (e, s') -> rtc (waits request) s s'.
Proof.
  intros [_ Hfair] Ha. etrans; [apply rtc_once, waits_others, Hfair|]. unfold abandonReservation in Ha.
  destruct (statement _ _ _) as [r s1] eqn:Hst.
  apply statement_cases in Hst as [[-> _]|(u & Hm & _)].
  - by destruct r; injection Ha as _ <-.
  - apply on_runtime_Ok in Hm as (rt & Hm & ->). apply AbandonIdempotency_Ok in Hm.
    apply rtc_once. destruct r; injection Ha as _ <-; by eapply waits_deadline.
Qed.

(** The run of the request is taken in, once, between [s] and [s'], with what
    the call staged. *)
Definition takes_effect (c : RunIntakeCoordinator) (x : intake_circumstances)
    (request : RunIntakeRequest) (fence : Z) (v : json) (s s' : bound_db) : Prop :=
  exists staged s0 s1,
    stageArtifacts c (ic_inject x 0) (ic_remote x) (ic_git x) (ic_put x) request = Ok staged /\
    rtc (waits (Intake_Idempotency request)) s s0 /\ taken_in c request fence staged v s0 s1 /\
    rtc (waits (Intake_Idempotency request)) s1 s'.

Lemma reserved_cases c x request fence s r s' :
  fair x -> accept_reserved c x request fence s = (r, s') ->
  (exists v, r = Ok (mkIdemResult StatusCreated (Some v) false fence) /\
     takes_effect c x request fence v s s') \/
  (exists e, r = Err e) /\
  (rtc (waits (Intake_Idempotency request)) s s' \/ exists v, takes_effect c x request fence v s s').
Proof.
  intros Hfair. unfold accept_reserved.
  assert (Habandon : forall cause cur s2,
    (let '(e, s') := abandonReservation x (Key (Intake_Idempotency request)) fence cause cur in
     (Err (renewal_error x e), s')) = (r, s2) ->
    (exists e, r = Err e) /\ rtc (waits (Intake_Idempotency request)) cur s2).
  { intros cause cur s2. destruct (abandonReservation _ _ _ _ _) as [e s3] eqn:Ha. intros [= <- <-].
    split; [by eexists|]. by eapply abandon_waits. }
  destruct (ic_inject x 0 FaultAfterReservation).
  { intros [He Hw]%Habandon. right. split; [done|by left]. }
  destruct (stageArtifacts _ _ _ _ _ _) as [staged|] eqn:Hstaged.
  2: { intros [He Hw]%Habandon. right. split; [done|by left]. }
  destruct (commitIntake _ _ _ _ _ _) as [rc [sc att]] eqn:Hcommit.
  apply commitIntake_cases in Hcommit as [(v & s0 & -> & Hw & Ht)|[[e ->] Hp]]; [| |by apply Hfair].
  - assert (Heff : takes_effect c x request fence v s sc) by (by exists staged, s0, sc).
    destruct (ic_inject x 0 FaultIntakeAfterCommit); intros [= <- <-]; [right|left]; eauto.
  - assert (Hprogress : forall cur, rtc (waits (Intake_Idempotency request)) sc cur ->
      rtc (waits (Intake_Idempotency request)) s cur \/ exists v, takes_effect c x request fence v s cur).
    { intros cur Hc. destruct Hp as [Hp|(_ & v & s0 & s1 & Hw0 & Hw1 & Hw2)]; [left; by etrans|right].
      exists v, staged, s0, s1. split_and!; [done..|by etrans]. }
    destruct att.
    + intros [= <- <-]. right. split; [by eexists|]. by apply Hprogress.
    + intros [He Hw]%Habandon. right. split; [done|]. by apply Hprogress.
Qed.

Lemma defaulted_effect c x request fence v s s' :
  takes_effect c x (defaulted request) fence v s s' -> takes_effect c x request fence v s s'.
Proof.
  intros (staged & s0 & s1 & Hst & Hw0 & Ht & Hw1). exists staged, s0, s1. split; [exact Hst|].
  split_and!; [by apply with_ttl_waits|by apply defaulted_taken|by apply with_ttl_waits].
Qed.

Lemma Accept_cases c x request s r s' :
  fair x -> Accept c x request s = (r, s') ->
  (exists a, r = Ok a /\ Idem_Replay a = true /\ s' = s /\ on_record (Intake_Idempotency request) a (bd_runtime s) /\
     storable_request (Intake_Idempotency request)) \/
  (exists fence v, takes_effect c x request fence v s s' /\ storable_request (Intake_Idempotency request) /\
     (r = Ok (mkIdemResult StatusCreated (Some v) false fence) \/ exists e, r = Err e)) \/
  (exists e, r = Err e) /\ rtc (waits (Intake_Idempotency request)) s s'.
Proof.
  intros Hfair. unfold Accept. destruct (validateRunIntakeRequest request) as [[]|e].
  2: { intros [= <- <-]. right; right. split; [by eexists|done]. }
  fold (defaulted request). cbv zeta. destruct (statement _ _ _) as [rb sb] eqn:Hst.
  apply statement_cases in Hst as [[-> Hno]|(a & Hm & Hb)].
  { destruct rb as [b|e]; [by destruct (Hno b)|]. intros [= <- <-]. right; right. split; [by eexists|done]. }
  apply on_runtime_Ok in Hm as (rt & Hm & ->). pose proof (proj1 (with_ttl_storable _) (begin_storable _ _ _ _ _ Hm)) as Hstore.
  assert (Hw : rtc (waits (Intake_Idempotency request)) s (with_runtime rt s)).
  { apply BeginIdempotency_Ok in Hm as (k & Hk & Hbegins). apply with_ttl_waits, rtc_once.
    by eapply waits_reserved. }
  fold (with_runtime rt s). destruct rb as [b|e].
  2: { intros [= <- <-]. right; right. split; [by eexists|done]. }
  rewrite (Hb b eq_refl). destruct (Idem_Replay a) eqn:Hrep.
  - intros [= <- <-]. apply begin_replays in Hm as [-> Hrec]; [|done]. left. exists a.
    destruct s. refine (conj eq_refl (conj Hrep (conj eq_refl (conj _ Hstore)))).
    by apply (proj1 (with_ttl_record _ _ _)).
  - intros Hr. apply reserved_cases in Hr as [(v & -> & Heff)|[[e ->] [Hq|(v & Heff)]]]; [..|done].
    + right; left. apply defaulted_effect in Heff as (staged & s0 & s1 & ? & ? & ? & ?).
      exists (Idem_FencingToken a), v. split; [|split; [done|by left]]. exists staged, s0, s1.
      split; [done|]. split; [by etrans|done].
    + right; right. split; [by eexists|]. etrans; [exact Hw|by apply with_ttl_waits].
    + right; left. apply defaulted_effect in Heff as (staged & s0 & s1 & ? & ? & ? & ?).
      exists (Idem_FencingToken a), v. split; [|split; [done|by right; eexists]]. exists staged, s0, s1.
      split; [done|]. split; [by etrans|done].
Qed.

(** C22: A run is taken in completely or not at all, whatever fails, is retried or is interleaved:
    a call that is acknowledged as new committed, in one step, the command that creates the run, the
    binding of the run to exactly what was staged for this request, and the answer in the
    reservation; a call that is acknowledged as a repetition changed nothing; and a call that failed
    either did nothing but reserve the request or committed all of that once. *)
Theorem intake_all_or_nothing c x request s r s' :
  fair x -> Accept c x request s = (r, s') ->
  (exists a, r = Ok a /\ Idem_Replay a = true /\ s' = s /\ on_record (Intake_Idempotency request) a (bd_runtime s)) \/
  (exists fence v, r = Ok (mkIdemResult StatusCreated (Some v) false fence) /\
     takes_effect c x request fence v s s') \/
  exists e, r = Err e /\ (rtc (waits (Intake_Idempotency request)) s s' \/
    exists fence v, takes_effect c x request fence v s s').
Proof.
  intros Hfair Hr. destruct (Accept_cases _ _ _ _ _ _ Hfair Hr) as
    [(a & ? & ? & ? & ? & _)|[(fence & v & ? & _ & [?|[e ?]])|[[e ?] ?]]]; eauto 10.
Qed.

Lemma effect_on_record c x request fence v s s' :
  takes_effect c x request fence v s s' ->
  on_record (Intake_Idempotency request) (mkIdemResult StatusCreated (Some v) true fence) (bd_runtime s').
Proof.
  intros (staged & s0 & s1 & _ & _ & [(k & row & Hk & Hl & (Hm & Ht & Hd) & Hp & Ho & Hf & Hrows) _ _ _] &
    Hw%waits_keep).
  exists k, (completed_with StatusCreated v row), StatusCreated, v. split; [done|].
  split; [apply Hw; [by rewrite Hrows, lookup_insert_eq|done]|]. split; [|by cbn; rewrite Hf].
  unfold reservation_matches. cbn. by rewrite Hm, Ht, Hd, Hp, !bool_decide_true.
Qed.

Lemma record_kept request a s s' :
  on_record request a (bd_runtime s) -> answers_kept s s' -> on_record request a (bd_runtime s').
Proof.
  intros (k & r & status & v & Hk & Hl & Hm & Ho & ->) Hkept. exists k, r, status, v.
  split_and!; try done. apply Hkept; [done|]. by rewrite Ho.
Qed.

(** C23: The answer to an intake is given for good: unless the call did nothing but reserve the
    request, every later repetition of the request, on any database that kept the recorded answers,
    and whose first statement the database answers, is acknowledged with the one answer on record,
    and changes nothing; and when the call itself was acknowledged, with that answer. *)
Theorem intake_answered_for_good c x request s r s' :
  fair x -> Accept c x request s = (r, s') ->
  (exists e, r = Err e) /\ rtc (waits (Intake_Idempotency request)) s s' \/
  exists status v fence,
    (forall a, r = Ok a -> StatusCode a = status /\ Response a = Some v) /\
    forall c' x' s2, answers_kept s' s2 -> ic_begin x' = Answered ->
      Accept c' x' request s2 = (Ok (mkIdemResult status (Some v) true fence), s2).
Proof.
  intros Hfair Hr.
  assert (Hvalid : (exists e, validateRunIntakeRequest request = Err e /\ r = Err e /\ s' = s) \/
    validateRunIntakeRequest request = Ok tt).
  { unfold Accept in Hr. destruct (validateRunIntakeRequest request) as [[]|e]; [by right|].
    injection Hr as <- <-. left. eauto. }
  destruct Hvalid as [(e & _ & -> & ->)|Hvalid]; [left; split; [by eexists|done]|].
  assert (Hreplay : forall status v fence,
    on_record (Intake_Idempotency request) (mkIdemResult status (Some v) true fence) (bd_runtime s') ->
    storable_request (Intake_Idempotency request) ->
    forall c' x' s2, answers_kept s' s2 -> ic_begin x' = Answered ->
      Accept c' x' request s2 = (Ok (mkIdemResult status (Some v) true fence), s2)).
  { intros status v fence Hrec Hstore c' x' s2 Hkept Hb. unfold Accept. rewrite Hvalid.
    fold (defaulted request). cbv zeta. unfold statement, run_tx. rewrite Hb.
    rewrite (begin_answers _ _ _ (mkIdemResult status (Some v) true fence)); [done| |].
    - by apply (proj2 (with_ttl_storable _)).
    - apply (proj2 (with_ttl_record _ _ _)). by eapply record_kept. }
  destruct (Accept_cases _ _ _ _ _ _ Hfair Hr) as
    [(a & -> & _ & -> & Hrec & Hstore)|[(fence & v & Heff & Hstore & Hre)|[He Hw]]]; [right|right|by left].
  - pose proof Hrec as (k & row & status & v & _ & _ & _ & _ & Ha). exists status, v, (ir_fence row).
    rewrite Ha in Hrec. split; [|by apply Hreplay]. by intros ? [= <-]; rewrite Ha.
  - exists StatusCreated, v, fence. split; [|apply Hreplay; [by eapply effect_on_record|done]].
    intros a Ha. destruct Hre as [Hre|[e He]]; [|congruence]. rewrite Hre in Ha. by injection Ha as <-.
Qed.

End accepting.

(** ** The approval of a task graph *)

Section approval.
Context `{PlatformLaws}.
Variable print_rune : string -> bool.

(** The job that was asked for is there, and ready when it is new. *)
Lemma EnqueueTx_present job s u s' :
  EnqueueTx job s = Ok (u, s') -> uuid_column (Job_ID job) = Some (Job_ID job) ->
  exists run task r, uuid_column (Job_RunID job) = Some run /\
    nullable uuid_param (Job_TaskID job) = Ok task /\ rt_jobs s' !! Job_ID job = Some r /\
    same_identity run task (Job_Attempt job) (Job_Stage job) r = true /\
    (s' = s \/ rt_jobs s !! Job_ID job = None /\ jr_state r = JobReady /\
       s' = set_rt_jobs (<[Job_ID job := r]> (rt_jobs s)) s).
Proof.
  intros Hr Hid. unfold EnqueueTx in Hr. tx_run Hr;
  repeat match goal with
  | Hx : uuid_param _ = Ok _ |- _ => apply uuid_param_Ok in Hx
  | Hx : text_column _ = Ok _ |- _ => apply text_column_Ok in Hx; subst
  | Hx : int_param _ = Ok _ |- _ => unfold int_param in Hx; destruct (_ <=? max_i32) in Hx; [injection Hx as <-|done]
  end.
  - injection Hr as _ <-. match goal with Hx : uuid_column (Job_ID job) = Some ?k |- _ =>
      assert (k = Job_ID job) as -> by congruence end.
    eexists _, _, _. split; [done|]. split; [done|]. cbn. rewrite lookup_insert_eq. split; [done|].
    split; [unfold same_identity; cbn; by rewrite !bool_decide_true, Z.eqb_refl|]. right.
    match goal with Hc : negb (job_conflict _ _ _ _ _ _) = true |- _ =>
      apply negb_true_iff, orb_false_iff in Hc as [Hc%bool_decide_eq_false%eq_None_not_Some _] end.
    done.
  - injection Hr as _ <-.
    match goal with Hc : negb (bool_decide _) = false |- _ =>
      apply negb_false_iff, bool_decide_eq_true in Hc; subst end.
    match goal with Hm : arbitrary_order ?l = _ |- _ =>
      pose proof (arbitrary_head l) as Hh; rewrite Hm in Hh; apply jobs_where_In in Hh as [Hl Hs] end.
    eauto 10.
Qed.

(** The graph is approved between [s] and [s']: the command is answered, graph
    and task are bound, and the job that starts the task is there. *)
Record graph_approved (request : TaskGraphApprovalRequest) (result : CommandResult)
    (s s' : bound_db) : Prop := {
  ga_command : exists digest r0, commandDigest (TGA_Command request) = Ok digest /\
    WfReplay.answered (CommandID (TGA_Meta request)) digest (bd_workflow s') r0 /\
    set_Replay true result = set_Replay true r0 /\
    (Replay result = true -> bd_workflow s' = bd_workflow s) /\
    (Replay result = false -> inhabited (run_commit (TGA_Command request) (TGA_Meta request)
       (bd_workflow s) (bd_workflow s') result));
  ga_binding : exists run task row, uuid_column (TGA_RunID request) = Some run /\
    uuid_column (TB_TaskID (TGA_Task request)) = Some task /\
    bd_runs s' !! run = Some row /\ bw_artifact row TaskGraphColumns = Some (TGA_Graph request) /\
    bd_tasks s' !! task = Some (mkTaskBindingRow run (TB_ApprovedTask (TGA_Task request)));
  ga_job : exists run task r, uuid_column (TGA_RunID request) = Some run /\
    uuid_column (TB_TaskID (TGA_Task request)) = Some task /\
    rt_jobs (bd_runtime s') !! Job_ID (TGA_StartJob request) = Some r /\
    same_identity run (Some task) 1 StageStart r = true /\
    (rt_jobs (bd_runtime s') = rt_jobs (bd_runtime s) \/
     jr_state r = JobReady /\
     rt_jobs (bd_runtime s') = <[Job_ID (TGA_StartJob request) := r]> (rt_jobs (bd_runtime s)));
  ga_kept : bindings_kept s s' /\ rt_requests (bd_runtime s') = rt_requests (bd_runtime s);
}.

(** What the validation of a request establishes. *)
Lemma validateTaskGraphApproval_Ok request :
  validateTaskGraphApproval print_rune request = Ok tt ->
  exists definition, TGA_Tasks request = [definition] /\ TGA_Dependencies request = [] /\
    TB_RunID (TGA_Task request) = TGA_RunID request /\
    TB_TaskID (TGA_Task request) = Definition_ID definition /\
    Job_TaskID (TGA_StartJob request) = Some (Definition_ID definition) /\
    Job_RunID (TGA_StartJob request) = TGA_RunID request /\ Job_Attempt (TGA_StartJob request) = 1 /\
    Job_Stage (TGA_StartJob request) = StageStart /\
    uuid_column (Job_ID (TGA_StartJob request)) = Some (Job_ID (TGA_StartJob request)).
Proof.
  unfold validateTaskGraphApproval. destruct (TGA_Tasks request) as [|d [|]]; try done.
  destruct (TGA_Dependencies request); [|done]. destruct (_ || _) eqn:E; [done|]. intros _. exists d.
  repeat match goal with
  | H : _ || _ = false |- _ => apply orb_false_iff in H; destruct H
  | H : negb _ = false |- _ => apply negb_false_iff in H
  | H : bool_decide _ = true |- _ => apply bool_decide_eq_true in H
  | H : (_ =? _) = true |- _ => apply Z.eqb_eq in H
  end.
  split_and!; try done.
  match goal with H : Job_ID _ = StableID _ _ |- _ => rewrite H end. apply uuid_NewSHA1_text.
Qed.

Lemma approval_transaction_Ok inject request x s result s' :
  validateTaskGraphApproval print_rune request = Ok tt -> canonical_rows s ->
  approval_transaction inject request x s = Ok (result, s') ->
  graph_approved request result s s' /\ canonical_rows s'.
Proof.
  intros (d & Htasks & Hdeps & Hrun & Htask & Hjt & Hjr & Hja & Hjs & Hjid)%validateTaskGraphApproval_Ok Hcan.
  unfold approval_transaction. intros (r1 & s1 & (w & Hx & ->)%on_workflow_Ok & Hr)%tx_bind_Ok.
  apply tx_bind_Ok in Hr as (? & s1 & ->%fault_at_Ok & Hr).
  apply tx_bind_Ok in Hr as (? & s2 & Hb & Hr).
  apply tx_bind_Ok in Hr as (? & s3 & ->%fault_at_Ok & Hr).
  apply tx_bind_Ok in Hr as (? & s3 & (rt & Hq & ->)%on_runtime_Ok & Hr).
  apply tx_bind_Ok in Hr as (? & s4 & ->%fault_at_Ok & [= <- <-]).
  apply ExecuteRunTx_answered in Hx as (meta & digest & r0 & [= <-] & Hd & Ha & He & Hold & Hfresh).
  apply CheckpointTaskGraphTx_Ok in Hb as (run & task & row & Hk & Hid & Hrow & Hg & Ht & Hrt & Hkept & Hcan');
    [|done].
  destruct s2 as [rt2 runs2 tasks2]. cbn [bd_runtime bd_runs bd_tasks] in *. subst rt2.
  apply EnqueueTx_present in Hq as (run' & task' & r & Hk' & Hid' & Hl & Hsame & Hcase); [|done].
  assert (run' = run) as -> by congruence. rewrite Hjt in Hid'. cbn in Hid'.
  apply res_bind_Ok in Hid' as (t & Hid'%uuid_param_Ok & [= <-]).
  assert (t = task) as -> by congruence. rewrite Hja, Hjs in Hsame.
  assert (Hrt : rt_workflow rt = w /\ rt_requests rt = rt_requests (bd_runtime s) /\
    (rt_jobs rt = rt_jobs (bd_runtime s) \/ jr_state r = JobReady /\
     rt_jobs rt = <[Job_ID (TGA_StartJob request) := r]> (rt_jobs (bd_runtime s)))).
  { destruct Hcase as [->|(_ & Hst & ->)]; auto. }
  destruct Hrt as (Hw & Hreq & Hjobs). split; [|exact Hcan']. split.
  - exists digest, r0. unfold bd_workflow. cbn [bd_runtime]. by rewrite Hw.
  - exists run, task, row. by split_and!.
  - exists run, task, r. by split_and!.
  - split; [|done]. destruct Hkept as [K1 K2]. by split.
Qed.

Section approving.
Variable others : relation bound_db.
Hypothesis others_canonical : forall s s', others s s' -> canonical_rows s -> canonical_rows s'.

(** Others commit, or the graph of the request is approved as a whole. *)
Inductive approval_step (request : TaskGraphApprovalRequest) : relation bound_db :=
| step_others s s' : others s s' -> approval_step request s s'
| step_approved result s s' : graph_approved request result s s' -> approval_step request s s'.

(** C24: A task graph is approved completely or not at all, whatever fails or is retried: what a
    call commits is, in one step, the command that approves the graph, the bindings of the graph
    and of its task, and the job that starts the task, ready when it is new; an acknowledged
    approval ends with such a step, and its result is the one of that command. *)
Theorem task_graph_approved_whole inject circumstances ctx_done request s r s' :
  canonical_rows s -> (forall n s, others s (at_before (circumstances n) s)) ->
  Coordinator_ApproveTaskGraph print_rune inject circumstances ctx_done request s = (r, s') ->
  (exists result s0, r = Ok result /\ rtc (approval_step request) s s0 /\
     graph_approved request result s0 s') \/
  exists e, r = Err e /\ rtc (approval_step request) s s'.
Proof.
  intros Hcan Hfair. unfold Coordinator_ApproveTaskGraph.
  destruct (validateTaskGraphApproval print_rune request) as [[]|e] eqn:Hvalid.
  2: { intros [= <- <-]. right. by exists e. }
  unfold RetryTransaction. generalize MaxTransactionAttempts as attempts. generalize 0%nat as n.
  intros n attempts. revert n s Hcan. induction attempts as [|k IH]; intros n s Hcan; cbn [retry_loop].
  { intros [= <- <-]. right. eauto using rtc_refl. }
  unfold approveOnce at 1. destruct (attempt_transaction _ _ _ _) as [[r1 att] s1] eqn:Hone.
  assert (Hbefore : approval_step request s (at_before (circumstances n) s)) by (by apply step_others).
  pose proof (others_canonical _ _ (Hfair n s) Hcan) as Hcan1.
  assert (Hcases : (exists result, r1 = Ok result /\ graph_approved request result
      (at_before (circumstances n) s) s1) \/
    (exists e, r1 = Err e) /\ rtc (approval_step request) s s1 /\ canonical_rows s1).
  { apply attempt_cases in Hone as [[-> [e ->]]|(_ & a & Hbody & Ha)].
    - right. split; [by eexists|]. split; [by apply rtc_once|done].
    - destruct (approval_transaction_Ok _ _ _ _ _ _ Hvalid Hcan1 Hbody) as [Happ Hcan2].
      destruct r1 as [b|e]; [left; rewrite (Ha b eq_refl); eauto|right]. split; [by eexists|].
      split; [|done]. eapply rtc_l; [exact Hbefore|]. apply rtc_once. by eapply step_approved. }
  destruct Hcases as [(result & -> & Happ)|([e ->] & Hsteps & Hcan2)].
  - intros [= <- <-]. left. exists result, (at_before (circumstances n) s).
    split_and!; [done|by apply rtc_once|done].
  - destruct (negb (IsTransient e)); [intros [= <- <-]; right; eauto|].
    destruct (k =? 0)%nat; [intros [= <- <-]; right; eauto|].
    destruct (ctx_done n); [intros [= <- <-]; right; eauto|].
    intros [(result & s0 & -> & Hw & Happ)|(e' & -> & Hw)]%(IH _ _ Hcan2).
    + left. exists result, s0. split_and!; [done|by etrans|done].
    + right. exists e'. split; [done|by etrans].
Qed.

End approving.
End approval.

(** * Runs that are taken in, and a task graph that is approved *)

(** ** The repository *)

Definition tab_byte : ascii := byte 9.
Definition nul : ascii := byte 0.

(** The remote has the approved base, and so has the local branch. *)
Definition sample_remote (arguments : list string) : res string :=
  match arguments with
  | "remote" :: _ => Ok "git@host:basic.git"
  | "ls-remote" :: _ => Ok (commit_of "c" +:+ String tab_byte "refs/heads/main")
  | _ => Ok (commit_of "c")
  end.

(** One file. *)
Definition sample_git (arguments : list string) : res string :=
  match arguments with
  | "ls-tree" :: _ => Ok ("100644 blob 1" +:+ String tab_byte ("src/a.go" +:+ String nul ""))
  | "cat-file" :: _ => Ok "package a"
  | _ => Ok (commit_of "c" +:+ String newline_byte "")
  end.

Definition sample_coordinator : RunIntakeCoordinator := mkCoordinator "/srv/basic" sample_policy.

(** ** The intake *)

Definition sample_intake : RunIntakeRequest :=
  mkRunIntakeRequest (mkIdemRequest "r1" "POST" "/v1/runs" "actor-1" digest_a 0)
    (meta "r1" ActorHuman 0 1) "run-1" "change the code" (commit_of "c").

Definition sample_attempt (w : transaction_weather) : attempt_circumstances :=
  mkAttempt w (fun s => s) ∅ (fun _ => None) None (UnixMicro (at_time 5)).

Definition sample_circumstances (w : transaction_weather) : intake_circumstances :=
  mkIntakeCircumstances (at_time 4) Answered (fun _ _ => None) sample_remote sample_git sample_put
    (fun _ => sample_attempt w) (fun _ => None) (fun s => s) Answered (UnixMicro (at_time 6)) None.

Definition empty_world : bound_db := empty_bound (empty_rt empty_db).

Lemma equal_keeps (s s' : bound_db) : s = s' -> answers_kept s s'.
Proof. by intros ->. Qed.

(** Nobody else is at work. *)
Lemma sample_fair w : fair eq (sample_circumstances w).
Proof. by split. Qed.

Definition accepted_world : bound_db :=
  snd (Accept sample_coordinator (sample_circumstances TxClear) sample_intake empty_world).

Lemma intake_all_or_nothing_witness :
  exists fence v, takes_effect eq sample_coordinator (sample_circumstances TxClear) sample_intake fence v
    empty_world accepted_world.
Proof.
  eassert (Hr : Accept sample_coordinator (sample_circumstances TxClear) sample_intake empty_world =
    (Ok (mkIdemResult 201 (Some _) false 1), accepted_world)) by (vm_compute; reflexivity).
  destruct (intake_all_or_nothing eq equal_keeps _ _ _ _ _ _ (sample_fair TxClear) Hr)
    as [(a & Ha & Hrep & _)|[(fence & v & _ & He)|(e & He & _)]].
  - injection Ha as <-. discriminate Hrep.
  - exists fence, v. exact He.
  - discriminate He.
Defined.

Lemma intake_answered_for_good_witness :
  exists status v fence,
    Accept sample_coordinator (sample_circumstances (TxBeginFails (ErrText "down"))) sample_intake
      accepted_world = (Ok (mkIdemResult status (Some v) true fence), accepted_world).
Proof.
  eassert (Hr : Accept sample_coordinator (sample_circumstances TxClear) sample_intake empty_world =
    (Ok (mkIdemResult 201 (Some _) false 1), accepted_world)) by (vm_compute; reflexivity).
  destruct (intake_answered_for_good eq equal_keeps _ _ _ _ _ _ (sample_fair TxClear) Hr)
    as [[[e He] _]|(status & v & fence & _ & Hagain)]; [discriminate He|].
  exists status, v, fence.
  exact (Hagain sample_coordinator (sample_circumstances (TxBeginFails (ErrText "down"))) accepted_world
    (reflexivity _) eq_refl).
Defined.

(** The answer to the commit was lost: the call failed, and its repetition is
    answered with what was committed. *)
Example lost_commit_is_replayed :
  let lost := Accept sample_coordinator (sample_circumstances (TxCommitLost (ErrText "reset")))
    sample_intake empty_world in
  let again := Accept sample_coordinator (sample_circumstances TxClear) sample_intake (snd lost) in
  fst lost = Err (ErrWrap (ErrText "reset") "commit run intake") /\
  Idem_Replay <$> fst again = Ok true /\ StatusCode <$> fst again = Ok 201.
Proof. vm_compute. by repeat split. Qed.

(** ** The approval *)

Definition print_nothing (r : string) : bool := false.

Definition planned_commands : list command :=
  [ inl (ProposeSpecification (meta "r2" ActorWorkflowService 1 2) "run-1" (art "spec"));
    inl (ApproveSpecification (meta "r3" ActorHuman 2 3) "run-1" (art "spec"));
    inl (ProposeTaskGraph (meta "r4" ActorWorkflowService 3 4) "run-1" (art "graph")) ].

(** The run that was taken in, once its graph is proposed. *)
Definition planned_world : bound_db :=
  mkBoundDb (mkRtDb (execute_all planned_commands (bd_workflow accepted_world))
    (rt_jobs (bd_runtime accepted_world)) (rt_requests (bd_runtime accepted_world)))
    (bd_runs accepted_world) (bd_tasks accepted_world).

Definition sample_start_job : Job :=
  mkJob (StableID print_nothing ["run-1"; "task-1"; "1"; StageStart; "job"]) "run-1" (Some "task-1") 1
    StageStart None (at_time 5) None None 0 0 0 None None.

Definition sample_graph_approval : TaskGraphApprovalRequest :=
  mkTaskGraphApproval (meta "r5" ActorHuman 4 5) "run-1" (art "graph") [mkTaskDefinition "task-1" 2] []
    (art "graph") (mkTaskBinding "run-1" "task-1" (art "task")) sample_start_job.

(** The answer to the first commit is lost with a conflict, so there is a second attempt. *)
Definition twice (n : nat) : attempt_circumstances :=
  sample_attempt (if (n =? 0)%nat then TxCommitLost (ErrPg "40001") else TxClear).

Lemma equal_canonical (s s' : bound_db) : s = s' -> canonical_rows s -> canonical_rows s'.
Proof. by intros ->. Qed.

Definition approval_outcome : res CommandResult * bound_db :=
  Coordinator_ApproveTaskGraph print_nothing (fun _ _ => None) twice (fun _ => None)
    sample_graph_approval planned_world.

Lemma approval_acknowledged : is_Ok (fst approval_outcome) = true.
Proof. vm_compute. reflexivity. Qed.

Lemma planned_world_unbound : bd_tasks planned_world = ∅.
Proof. vm_compute. reflexivity. Qed.

Lemma task_graph_approved_whole_witness :
  exists result s0, graph_approved sample_graph_approval result s0 (snd approval_outcome).
Proof.
  assert (Hcan : canonical_rows planned_world).
  { unfold canonical_rows. rewrite planned_world_unbound. apply map_Forall_empty. }
  pose proof approval_acknowledged as Hok. destruct approval_outcome as [r s'] eqn:Hr. cbn [fst snd] in *.
  destruct (task_graph_approved_whole print_nothing eq equal_canonical _ twice _ _ _ _ _ Hcan
    (fun _ _ => eq_refl) Hr) as [(result & s0 & _ & _ & Ha)|(e & -> & _)]; [|discriminate Hok].
  exists result, s0. exact Ha.
Defined.

(** The job of the task is ready, and a worker gets it. *)
Example approved_task_starts :
  match Claim "worker-1" (at_time 6) Minute ∅ (bd_runtime (snd approval_outcome)) with
  | Ok (Some job, _) => Job_TaskID job = Some "task-1" /\ Job_Stage job = StageStart
  | _ => False
  end.
Proof. vm_compute. by split. Qed.
