(* ===== verification/Manifest.v ===== *)
(** * Agent manifests

    Models the data and the closed policy of [go/internal/manifest/reader.go]:
    which manifests an agent may have.  The text of a manifest and its
    canonical form are not modelled: [Validate] is what [Read] asks of the
    decoded value. *)

From Stdlib Require Import QArith.
From S2P Require Import Prelude GoStd GoJson GoText.

#[local] Open Scope Z_scope.

(** A float64; the finite ones are rationals. *)
Inductive float64 := NaN | Inf (negative : bool) | Finite (q : Q).

(** ** Data *)

Record Agent := mkAgent { Agent_Name : string; Agent_Version : string }.

Record Prompt := mkPrompt { Prompt_ArtifactURI : string; Prompt_SHA256 : string }.

Record Model := mkModel {
  CapabilityClass : string;
  Temperature : float64;
  MaximumOutputTokens : Z;
}.

Record Context := mkContext {
  IncludeSpecification : bool;
  IncludeTask : bool;
  RepositorySelection : string;
  MaximumContextTokens : Z;
}.

Record Tools := mkTools {
  AllowedRequests : list string;
  ArbitraryShell : bool;
  ArbitraryNetwork : bool;
  DirectFileWrite : bool;
}.

Record Output := mkOutput { Output_Schema : string }.

Record Metadata := mkMetadata { Metadata_Description : string; Labels : list string }.

Record Manifest := mkManifest {
  Manifest_SchemaVersion : string;
  Manifest_Agent : Agent;
  Manifest_Stage : string;
  Manifest_Prompt : Prompt;
  Manifest_Model : Model;
  Manifest_Context : Context;
  Manifest_Tools : Tools;
  Manifest_Output : Output;
  Manifest_Metadata : Metadata;
}.

(** ** Patterns and closed sets *)

(** [^[0-9a-f]{64}$] *)
Definition lowerDigest : string -> bool := match_hex 64.

(** [^[a-z][a-z0-9-]{0,62}$] *)
Definition agentName : string -> bool :=
  matches (Cat (Class is_lower)
    (up_to 62 (Class (fun c => is_lower c || is_digit c || (c == "-"%char))))).

(** [^[0-9]+\.[0-9]+\.[0-9]+$] *)
Definition version : string -> bool :=
  let number := Cat digit (Many digit) in
  matches (Cat number (Cat (literal ".") (Cat number (Cat (literal ".") number)))).

(** [^[a-z0-9][a-z0-9-]{0,62}$] *)
Definition label : string -> bool :=
  matches (Cat (Class (fun c => is_lower c || is_digit c))
    (up_to 62 (Class (fun c => is_lower c || is_digit c || (c == "-"%char))))).

Definition validStages : list string := ["implementation"; "planning"; "review"; "specification"].
Definition validCapabilities : list string :=
  ["general_reasoning"; "independent_review"; "strong_coding"].
Definition validTools : list string :=
  ["read_repository_file"; "report_blocker"; "request_declared_check"; "search_repository"].
Definition validOutputs : list string :=
  ["implementation_proposal.v1"; "review_proposal.v1"; "specification_proposal.v1";
   "task_graph_proposal.v1"].

Definition stageOutputs (stage : string) : string :=
  if stage == "specification" then "specification_proposal.v1"
  else if stage == "planning" then "task_graph_proposal.v1"
  else if stage == "implementation" then "implementation_proposal.v1"
  else if stage == "review" then "review_proposal.v1"
  else "".

(** ** Validation *)

Definition contains (values : list string) (value : string) : bool := bool_decide (value ∈ values).

(** [slices.IsSorted]: no element is less than the one before it. *)
Fixpoint IsSorted (values : list string) : bool :=
  match values with
  | a :: ((b :: _) as rest) => bool_decide (String.le a b) && IsSorted rest
  | _ => true
  end.

(** The loop over a slice that asks [ok] of every value and that no value
    repeats the one before it. *)
Fixpoint all_unequal (ok : string -> bool) (previous : option string) (values : list string) : bool :=
  match values with
  | [] => true
  | value :: rest =>
      if negb (ok value) || bool_decide (previous = Some value) then false
      else all_unequal ok (Some value) rest
  end.

Definition sortedUniqueSubset (values allowed : list string) : bool :=
  IsSorted values && all_unequal (contains allowed) None values.

Definition sortedUniqueLabels (values : list string) : bool :=
  IsSorted values && all_unequal (fun value => label value && (TrimSpace value == value)) None values.

Definition validateAgent (agent : Agent) : res unit :=
  if negb (agentName (Agent_Name agent)) || negb (version (Agent_Version agent))
  then Err (ErrText "invalid agent name or version") else Ok tt.

Definition validatePrompt (prompt : Prompt) : res unit :=
  if negb (lowerDigest (Prompt_SHA256 prompt)) ||
     (Prompt_ArtifactURI prompt != "artifact://sha256/" +:+ Prompt_SHA256 prompt)
  then Err (ErrText "invalid prompt artifact URI or digest") else Ok tt.

(** [math.IsNaN(t) || math.IsInf(t, 0) || t < 0 || t > 2] *)
Definition bad_temperature (t : float64) : bool :=
  match t with
  | NaN | Inf _ => true
  | Finite q => negb (Qle_bool 0 q) || negb (Qle_bool q 2)
  end.

Definition validateModel (model : Model) : res unit :=
  if negb (contains validCapabilities (CapabilityClass model)) || bad_temperature (Temperature model) ||
     (MaximumOutputTokens model <? 1) || (200000 <? MaximumOutputTokens model)
  then Err (ErrText "invalid model policy") else Ok tt.

Definition validateContext (context : Context) : res unit :=
  if (RepositorySelection context != "kernel_selected") || (MaximumContextTokens context <? 1) ||
     (1000000 <? MaximumContextTokens context)
  then Err (ErrText "invalid context policy") else Ok tt.

Definition validateTools (tools : Tools) : res unit :=
  if ArbitraryShell tools || ArbitraryNetwork tools || DirectFileWrite tools
  then Err (ErrText "unsafe tool permission")
  else if negb (sortedUniqueSubset (AllowedRequests tools) validTools)
  then Err (ErrText "invalid tool requests")
  else Ok tt.

Definition Manifest_Validate (m : Manifest) : res unit :=
  if Manifest_SchemaVersion m != "1" then Err (ErrText "schema_version must be 1")
  else
    validateAgent (Manifest_Agent m) ;;
    (if negb (contains validStages (Manifest_Stage m)) then Err (ErrText "unsupported stage")
     else Ok tt) ;;
    validatePrompt (Manifest_Prompt m) ;;
    validateModel (Manifest_Model m) ;;
    validateContext (Manifest_Context m) ;;
    validateTools (Manifest_Tools m) ;;
    if negb (contains validOutputs (Output_Schema (Manifest_Output m)))
    then Err (ErrText "unsupported output schema")
    else if Output_Schema (Manifest_Output m) != stageOutputs (Manifest_Stage m)
    then Err (ErrText "output schema does not match stage")
    else if (500 <? str_len (Metadata_Description (Manifest_Metadata m))) ||
            negb (sortedUniqueLabels (Labels (Manifest_Metadata m)))
    then Err (ErrText "invalid metadata")
    else Ok tt.
