(* ===== verification/GwLedger.v ===== *)
(** * Reasoning invocations and their ledger

    Models the data of [go/internal/reasoning/gateway] ([invocation.go],
    [artifact.go], the types of [service.go] and [review_service.go]) and
    [repository.go] with the table of its migrations: the row of an invocation
    is in progress, then completed with an outcome that is accepted or rejected;
    an invocation that comes to nothing deletes its row.  The trigger of the
    table refuses only changes that no statement below makes. *)

From S2P Require Import Prelude GoStd GoJson WfTypes WfTask WfDigest WfDb WfStore Interleave.
From S2P Require Import CtMessages CtCommon.

(** ** Data *)

Definition GwErrArtifactIntegrity : error := ErrNew "artifact integrity check failed".
Definition ErrInvocationConflict : error := ErrNew "reasoning request ID conflict".
Definition ErrInvocationState : error := ErrNew "invalid reasoning invocation state".

Record Usage := mkUsage { InputTokens : Z; OutputTokens : Z; ProviderRequests : Z }.

Record ArtifactReference := mkReference { Reference_URI : string; SHA256 : string }.

#[global] Instance Usage_eq_dec : EqDecision Usage.
Proof. solve_decision. Defined.
#[global] Instance ArtifactReference_eq_dec : EqDecision ArtifactReference.
Proof. solve_decision. Defined.

Definition no_reference : ArtifactReference := mkReference "" "".

Inductive FinalStatus := StatusAccepted | StatusRejected.
#[global] Instance FinalStatus_eq_dec : EqDecision FinalStatus.
Proof. solve_decision. Defined.

Definition FinalStatus_string (status : FinalStatus) : string :=
  match status with StatusAccepted => "accepted" | StatusRejected => "rejected" end.

Record InvocationStart := mkInvocationStart {
  Start_RequestID : string;
  Start_RequestArtifact : ArtifactReference;
  Start_RunID : string;
  Start_TaskID : option string;
  Start_Stage : string;
  Start_Attempt : Z;
  Start_ManifestDigest : string;
  StartedAt : time;
}.

Record InvocationCompletion := mkCompletion {
  ProposalArtifact : ArtifactReference;
  ProviderResponseArtifact : ArtifactReference;
  ProviderRequestID : string;
  Provider : string;
  ModelName : string;
  CompletedAt : time;
  InvocationUsage : Usage;
  Status : FinalStatus;
  Rejection : option pb_ProposalRejection;
}.

Record InvocationRecord := mkRecord {
  Record_Start : InvocationStart;
  Record_Completion : InvocationCompletion;
}.

(** ** The table *)

Record rejection_row := mkRejectionRow {
  jr_code : Z;
  jr_summary : string;
  jr_details : json;
  jr_retryable : bool;
  jr_timestamp : option Z;
}.

Record completed_columns := mkCompletedColumns {
  cc_proposal : option (string * string);
  cc_provider : string;
  cc_model : string;
  cc_completed_at : Z;
  cc_usage : Usage;
  cc_status : FinalStatus;
  cc_rejection : option rejection_row;
  cc_response : option (string * string);
  cc_provider_request_id : option string;
}.

Inductive invocation_state := InProgress | InvocationCompleted (c : completed_columns).

Record invocation_row := mkInvocationRow {
  vr_uri : string;
  vr_digest : string;
  vr_run : string;
  vr_task : option string;
  vr_stage : string;
  vr_attempt : Z;
  vr_manifest : string;
  vr_started : Z;
  vr_state : invocation_state;
}.

Abbreviation invocations := (gmap string invocation_row).

Definition set_vr_state (st : invocation_state) (r : invocation_row) : invocation_row :=
  mkInvocationRow (vr_uri r) (vr_digest r) (vr_run r) (vr_task r) (vr_stage r) (vr_attempt r)
    (vr_manifest r) (vr_started r) st.

Definition in_progress (r : invocation_row) : bool :=
  match vr_state r with InProgress => true | InvocationCompleted _ => false end.

(** The constraints on the columns of a completed row. *)
Definition completed_check (c : completed_columns) : bool :=
  let digest_ok p := null_or (fun pair => match_hex 64 (snd pair)) p in
  digest_ok (cc_proposal c) && digest_ok (cc_response c) &&
  match cc_status c, cc_rejection c with
  | StatusAccepted, None => bool_decide (is_Some (cc_proposal c))
  | StatusRejected, Some r =>
      (1 <=? jr_code r) && (jr_code r <=? 5) && bool_decide (is_Some (jr_timestamp r))
  | _, _ => false
  end.

Definition invocation_check (r : invocation_row) : bool :=
  match_hex 64 (vr_digest r) && ((vr_stage r == "implementation") || (vr_stage r == "review")) &&
  (0 <? vr_attempt r) && match_hex 64 (vr_manifest r) &&
  match vr_state r with InProgress => true | InvocationCompleted c => completed_check c end.

(** ** Begin *)

Record gw_handle := mkGwHandle {
  gh_start : InvocationStart;
  gh_replay : option InvocationRecord;
  gh_active : bool;
}.

Definition Invocation_Replay (h : gw_handle) : option InvocationRecord := gh_replay h.

Definition invocation_row_of (start : InvocationStart) : res invocation_row :=
  uri ← text_column (Reference_URI (Start_RequestArtifact start));
  digest ← text_column (SHA256 (Start_RequestArtifact start));
  run ← text_column (Start_RunID start);
  task ← nullable text_column (Start_TaskID start);
  stage ← text_column (Start_Stage start);
  attempt ← int_param (Start_Attempt start);
  manifest ← text_column (Start_ManifestDigest start);
  Ok (mkInvocationRow uri digest run task stage attempt manifest (time_column (StartedAt start))
        InProgress).

Definition insert_invocation (start : InvocationStart) : tx invocations bool :=
  row ← tx_lift (invocation_row_of start);
  if negb (invocation_check row) then tx_err check_violation
  else insert_row text_column (Start_RequestID start) row.

(** ** Complete *)

Definition detail_json (d : pb_RejectionDetail) : json :=
  let field name value := if value == "" then [] else [(name, JStr value)] in
  JObj (field "field" (rd_field d) ++ field "message" (rd_message d)).

Section ledger.
Context `{Protobuf}.

Definition rejectionColumns (value : option pb_ProposalRejection) : res (option rejection_row) :=
  match value with
  | None => Ok None
  | Some value =>
      details ← jsonb_column (slice_json detail_json (pj_details value));
      summary ← text_column (pj_summary value);
      Ok (Some (mkRejectionRow (pj_code value) summary details (pj_retryable value)
                  (time_column ∘ AsTime <$> pj_timestamp value)))
  end.

(** Both columns of a reference, or neither. *)
Definition reference_columns (r : ArtifactReference) : res (option (string * string)) :=
  if (Reference_URI r == "") && (SHA256 r == "") then Ok None
  else if (Reference_URI r == "") || (SHA256 r == "") then Err ErrInvocationState
  else Ok (Some (Reference_URI r, SHA256 r)).

Definition text_pair (p : option (string * string)) : res (option (string * string)) :=
  nullable (fun '(uri, digest) =>
    uri ← text_column uri; digest ← text_column digest; Ok (uri, digest)) p.

Definition nullableString (value : string) : option string :=
  if value == "" then None else Some value.

(** The parameters of the update. *)
Definition completed_columns_of (c : InvocationCompletion) (proposal response : option (string * string))
    : res completed_columns :=
  proposal ← text_pair proposal;
  provider ← text_column (Provider c);
  model ← text_column (ModelName c);
  input ← bigint_param (InputTokens (InvocationUsage c));
  output ← bigint_param (OutputTokens (InvocationUsage c));
  requests ← int_param (ProviderRequests (InvocationUsage c));
  rejection ← rejectionColumns (Rejection c);
  response ← text_pair response;
  requestID ← nullable text_column (nullableString (ProviderRequestID c));
  Ok (mkCompletedColumns proposal provider model (time_column (CompletedAt c))
        (mkUsage input output requests) (Status c) rejection response requestID).

(** [UPDATE ... WHERE request_id=$1 AND request_digest=$2 AND state='in_progress'] *)
Definition complete_invocation (start : InvocationStart) (c : InvocationCompletion)
    (proposal response : option (string * string)) : tx invocations (option invocation_row) :=
  columns ← tx_lift (completed_columns_of c proposal response);
  digest ← tx_lift (text_column (SHA256 (Start_RequestArtifact start)));
  update_row text_column (Start_RequestID start)
    (fun r => (vr_digest r == digest) && in_progress r) invocation_check
    (set_vr_state (InvocationCompleted columns)).

(** How the transaction of a completion goes: it commits; one of its three
    steps fails without an effect; or it commits and the answer is lost. *)
Inductive commit_reply :=
| Commits
| BeginFails (e : error)
| UpdateFails (e : error)
| CommitFails (e : error)
| CommitUnknown (e : error).

(** Whether the handle stays active comes with the answer. *)
Definition Invocation_Complete (w : commit_reply) (h : gw_handle) (c : InvocationCompletion)
    (s : invocations) : res InvocationRecord * gw_handle * invocations :=
  if negb (gh_active h) || bool_decide (is_Some (gh_replay h)) then (Err ErrInvocationState, h, s)
  else
    match reference_columns (ProposalArtifact c), reference_columns (ProviderResponseArtifact c) with
    | Ok proposal, Ok response =>
        match w with
        | BeginFails e => (Err (ErrWrap e "begin reasoning completion"), h, s)
        | UpdateFails e => (Err (ErrWrap e "finalize reasoning invocation"), h, s)
        | _ =>
            match complete_invocation (gh_start h) c proposal response s with
            | Err e => (Err (ErrWrap e "finalize reasoning invocation"), h, s)
            | Ok (None, _) => (Err ErrInvocationState, h, s)
            | Ok (Some _, s') =>
                match w with
                | CommitFails e => (Err (ErrWrap e "commit reasoning invocation"), h, s)
                | CommitUnknown e => (Err (ErrWrap e "commit reasoning invocation"), h, s')
                | _ => (Ok (mkRecord (gh_start h) c), mkGwHandle (gh_start h) (gh_replay h) false, s')
                end
            end
        end
    | Err e, _ | _, Err e => (Err e, h, s)
    end.

(** ** Rollback *)

(** [DELETE ... WHERE request_id=$1 AND request_digest=$2 AND state='in_progress'] *)
Definition delete_invocation (start : InvocationStart) : tx invocations bool :=
  digest ← tx_lift (text_column (SHA256 (Start_RequestArtifact start)));
  delete_row text_column (Start_RequestID start) (fun r => (vr_digest r == digest) && in_progress r).

(** The error is dropped by the callers. *)
Definition Invocation_Rollback (w : reply) (h : gw_handle) (s : invocations) : invocations :=
  if negb (gh_active h) then s else snd (statement w (delete_invocation (gh_start h)) s).

(** ** Reading a record *)

Definition decode_detail (v : json) : res pb_RejectionDetail :=
  match v with
  | JObj fields =>
      field ← decode_string (json_field "field" fields);
      message ← decode_string (json_field "message" fields);
      Ok (mkRejectionDetail field message)
  | JNull => Ok (mkRejectionDetail "" "")
  | _ => Err json_error
  end.

Definition decode_details (v : json) : res (list pb_RejectionDetail) :=
  match v with
  | JNull => Ok []
  | JArr l => map_each decode_detail l
  | _ => Err json_error
  end.

Definition read_rejection (id : string) (r : invocation_row) (rejection : rejection_row)
    : res pb_ProposalRejection :=
  details ← map_err (fun e => ErrWrap e "decode reasoning rejection details")
    (decode_details (jr_details rejection));
  Ok (mkProposalRejection (jr_code rejection) (jr_summary rejection) details (jr_retryable rejection)
        id (vr_run r) (vr_task r) (vr_attempt r) (Timestamp_New ∘ scan_time <$> jr_timestamp rejection)).

Definition reference_of (p : option (string * string)) : ArtifactReference :=
  match p with Some (uri, digest) => mkReference uri digest | None => no_reference end.

(** The record of a row; the columns of a row in progress are null, which the
    targets of the scan do not take. *)
Definition record_of_row (id : string) (r : invocation_row) : res InvocationRecord :=
  match vr_state r with
  | InProgress => Err (ErrWrap (ErrText "cannot scan NULL into *string") "read reasoning invocation")
  | InvocationCompleted c =>
      rejection ← match cc_rejection c with
                  | Some rejection => value ← read_rejection id r rejection; Ok (Some value)
                  | None => Ok None
                  end;
      Ok (mkRecord
            (mkInvocationStart id (mkReference (vr_uri r) (vr_digest r)) (vr_run r) (vr_task r)
               (vr_stage r) (vr_attempt r) (vr_manifest r) (scan_time (vr_started r)))
            (mkCompletion (reference_of (cc_proposal c)) (reference_of (cc_response c))
               (default "" (cc_provider_request_id c)) (cc_provider c) (cc_model c)
               (scan_time (cc_completed_at c)) (cc_usage c) (cc_status c) rejection))
  end.

(** What [Begin] makes of the row it finds: whether it is in progress. *)
Definition reserved_invocation (start : InvocationStart) (r : invocation_row) : res bool :=
  if vr_digest r != SHA256 (Start_RequestArtifact start) then Err ErrInvocationConflict
  else Ok (in_progress r).

Definition readInvocation (w : reply) (requestID : string) (s : invocations)
    : res (option InvocationRecord) :=
  row ← map_err (fun e => ErrWrap e "read reasoning invocation")
    (query w (find_row text_column requestID) s);
  match row with
  | None => Ok None
  | Some r => record ← record_of_row requestID r; Ok (Some record)
  end.

End ledger.
