(* ===== verification/GwService.v ===== *)
(** * The reasoning gateway

    Models [go/internal/reasoning/gateway/service.go] and [review_service.go]:
    a request is stored and its identifier reserved, the provider is asked
    through an adapter, and what it proposes is recorded as accepted or
    rejected by the contract of its stage; a request that was recorded before
    gets the record again.  The two services share the ledger and differ in
    their contracts, their texts and the order of some checks.  The artifact
    store, the manifests and the adapters are arguments of a call; a step is
    one statement of the ledger, or the work between two of them. *)

From S2P Require Import Prelude GoStd GoJson WfTypes WfDb WfStore Interleave.
From S2P Require Import CtMessages CtCommon CtImplementation CtReview Manifest GwLedger.

(** ** Data *)

Record ByteLimits := mkByteLimits {
  Limit_Request : Z;
  Limit_Proposal : Z;
  Limit_ProviderResponse : Z;
}.

Definition defaultMaximumBytes : Z := 2 ^ 20.

Definition DefaultByteLimits : ByteLimits :=
  mkByteLimits defaultMaximumBytes defaultMaximumBytes defaultMaximumBytes.

Record MalformedOutput := mkMalformed {
  Malformed_Message : string;
  Kind : string;
  JSONOffset : Z;
  UnknownFields : list string;
  ContentBlockTypes : list string;
}.

(** [AdapterResult] and [ReviewAdapterResult], which differ in the proposal. *)
Record AdapterResult (P : Type) := mkAdapterResult {
  Result_Proposal : option P;
  ProviderResponse : string;
  Result_ProviderRequestID : string;
  Malformed : option MalformedOutput;
  Result_Provider : string;
  Result_Model : string;
  Result_Usage : Usage;
}.
Arguments mkAdapterResult {P} _ _ _ _ _ _ _.
Arguments Result_Proposal {P} _.
Arguments ProviderResponse {P} _.
Arguments Result_ProviderRequestID {P} _.
Arguments Malformed {P} _.
Arguments Result_Provider {P} _.
Arguments Result_Model {P} _.
Arguments Result_Usage {P} _.

Record InvocationMetadata := mkMetadata {
  Meta_ProviderRequestID : string;
  Meta_Provider : string;
  Meta_Model : string;
  Meta_StartedAt : time;
  Meta_CompletedAt : time;
  Meta_Usage : Usage;
}.

(** [Outcome] and [ReviewOutcome]. *)
Record Outcome (P : Type) := mkOutcome {
  Outcome_Request : ArtifactReference;
  Outcome_ProposalArtifact : ArtifactReference;
  Outcome_Response : ArtifactReference;
  Outcome_Proposal : option P;
  Outcome_Rejection : option pb_ProposalRejection;
  Invocation : InvocationMetadata;
  Outcome_Replay : bool;
}.
Arguments mkOutcome {P} _ _ _ _ _ _ _.
Arguments Outcome_Request {P} _.
Arguments Outcome_ProposalArtifact {P} _.
Arguments Outcome_Response {P} _.
Arguments Outcome_Proposal {P} _.
Arguments Outcome_Rejection {P} _.
Arguments Invocation {P} _.
Arguments Outcome_Replay {P} _.

Record ResolvedManifest := mkResolved { Resolved_Digest : string; Resolved_Manifest : Manifest }.

(** A rejection with what the adapter tells of a malformed output. *)
Record ValidationFailure := mkFailure {
  Failure_Code : Z;
  Failure_Field : string;
  Failure_Message : string;
  Failure_Malformed : option MalformedOutput;
}.

(** [errors.As] for a [*ValidationFailure]. *)
Fixpoint failure_of (e : error) : option ValidationFailure :=
  match e with
  | ErrRejected code field message => Some (mkFailure code field message None)
  | ErrWrap inner _ => failure_of inner
  | ErrJoin first second =>
      match failure_of first with Some f => Some f | None => failure_of second end
  | _ => None
  end.

Definition Failure_Error (f : ValidationFailure) : string :=
  error_text (ErrRejected (Failure_Code f) (Failure_Field f) (Failure_Message f)).

(** ** Artifacts *)

Section artifacts.
Context `{Platform}.

Definition verifyArtifact (reference : ArtifactReference) (body : string) : res unit :=
  let digest := sha256_hex body in
  if (SHA256 reference != digest) || (Reference_URI reference != "artifact://sha256/" +:+ digest)
  then Err GwErrArtifactIntegrity else Ok tt.

Definition putArtifact (put : string -> res ArtifactReference) (body : string)
    : res ArtifactReference :=
  reference ← put body;
  verifyArtifact reference body ;;
  Ok reference.

Definition verifyReplayProviderResponse (get : ArtifactReference -> res string)
    (record : InvocationRecord) : res unit :=
  let response := ProviderResponseArtifact (Record_Completion record) in
  if Reference_URI response == "" then Ok tt
  else
    body ← map_err (fun e => ErrWrap e "load replay provider response artifact") (get response);
    verifyArtifact response body.

End artifacts.

(** ** Rejections *)

Definition validationFailureDetails (failure : ValidationFailure) : list pb_RejectionDetail :=
  let diagnostic name value :=
    if value == "" then []
    else [mkRejectionDetail (Failure_Field failure +:+ "." +:+ name) value] in
  mkRejectionDetail (Failure_Field failure) (Failure_Message failure) ::
  match Failure_Malformed failure with
  | None => []
  | Some m =>
      diagnostic "kind" (Kind m) ++
      (if 0 <? JSONOffset m then diagnostic "json_offset" (decimal (JSONOffset m)) else []) ++
      diagnostic "unknown_fields" (join "," (UnknownFields m)) ++
      diagnostic "content_block_types" (join "," (ContentBlockTypes m))
  end.

Section rejections.
Context `{Protobuf}.

(** The part that [proposalRejection] and [reviewRejection] share: the text,
    the failure that [errors.As] finds, and the envelope of the request. *)
Definition rejection_of (envelope : option pb_ReasoningRequestEnvelope) (code : Z) (summary : string)
    (failure : option ValidationFailure) (now : time) : pb_ProposalRejection :=
  match envelope with
  | None => mkProposalRejection code summary [] false "" "" None 0 (Some (Timestamp_New now))
  | Some envelope =>
      mkProposalRejection code summary
        (match failure with Some f => validationFailureDetails f | None => [] end) false
        (re_request_id envelope) (re_run_id envelope) (re_task_id envelope) (re_attempt envelope)
        (Some (Timestamp_New now))
  end.

Definition rejection_of_error (envelope : option pb_ReasoningRequestEnvelope) (e : error) (now : time)
    : pb_ProposalRejection :=
  rejection_of envelope (default REJECTION_CODE_UNSPECIFIED (ValidationCode e)) (error_text e)
    (failure_of e) now.

Definition rejection_of_failure (envelope : option pb_ReasoningRequestEnvelope)
    (f : ValidationFailure) (now : time) : pb_ProposalRejection :=
  rejection_of envelope (Failure_Code f) (Failure_Error f) (Some f) now.

Definition proposalRejection (request : option pb_ImplementationRequest) : error -> time -> pb_ProposalRejection :=
  rejection_of_error (r ← request; ir_envelope r).

Definition reviewRejection (request : option pb_ReviewRequest) : error -> time -> pb_ProposalRejection :=
  rejection_of_error (r ← request; rr_envelope r).

End rejections.

(** The failure of a malformed output. *)
Definition malformed_failure (text : string) (m : MalformedOutput) : ValidationFailure :=
  mkFailure REJECTION_CODE_SCHEMA_INVALID "provider_response"
    (if Malformed_Message m == "" then text else Malformed_Message m) (Some m).

(** ** Outcomes *)

Definition outcomeFromRecord {P} (record : InvocationRecord) (proposal : option P) (replay : bool)
    : Outcome P :=
  let c := Record_Completion record in
  mkOutcome (Start_RequestArtifact (Record_Start record)) (ProposalArtifact c)
    (ProviderResponseArtifact c)
    (match Status c with StatusAccepted => proposal | StatusRejected => None end) (Rejection c)
    (mkMetadata (ProviderRequestID c) (Provider c) (ModelName c) (StartedAt (Record_Start record))
       (CompletedAt c) (InvocationUsage c)) replay.

(** What is to be recorded, the proposal that goes with it, and what an error
    of the recording is called. *)
Record decision (P : Type) := mkDecision {
  decided : InvocationCompletion;
  decided_proposal : option P;
  decided_as : string;
}.
Arguments mkDecision {P} _ _ _.
Arguments decided {P} _.
Arguments decided_proposal {P} _.
Arguments decided_as {P} _.

(** Rejected before the provider was asked. *)
Definition refused_early {P} (label : string) (rejection : pb_ProposalRejection) (started : time)
    : decision P :=
  mkDecision (mkCompletion no_reference no_reference "" "gateway" "pre-adapter" started
    (mkUsage 0 0 0) StatusRejected (Some rejection)) None label.

(** The completion of an answer of the provider. *)
Definition completion_of {P} (result : AdapterResult P) (response proposal : ArtifactReference)
    (completed : time) (status : FinalStatus) (rejection : option pb_ProposalRejection)
    : InvocationCompletion :=
  mkCompletion proposal response (Result_ProviderRequestID result) (Result_Provider result)
    (Result_Model result) completed (Result_Usage result) status rejection.

(** What a call finds outside. *)
Record gw_surroundings := mkGwSurroundings {
  Gw_Put : string -> res ArtifactReference;
  Gw_Get : ArtifactReference -> res string;
  ResolveManifest : string -> res ResolvedManifest;
  Adapter_ProposeImplementation :
    Manifest -> pb_ImplementationRequest -> res (AdapterResult pb_ImplementationProposal);
  Adapter_ProposeReview : Manifest -> pb_ReviewRequest -> res (AdapterResult pb_ReviewProposal);
}.

Definition implementationStage : string := "implementation".
Definition implementationOutput : string := "implementation_proposal.v1".
Definition reviewStage : string := "review".
Definition reviewOutput : string := "review_proposal.v1".

Section gateway.
Context `{Platform} `{Protobuf} `{Wire}.
Variable limits : ByteLimits.

(** ** Requests for an implementation *)

(** An outcome that is not recorded. *)
Definition unrecorded {P} (rejection : pb_ProposalRejection) : Outcome P :=
  mkOutcome no_reference no_reference no_reference None (Some rejection)
    (mkMetadata "" "" "" zero_time zero_time (mkUsage 0 0 0)) false.

(** What is answered when the contract refuses a request: a rejection when the
    error has a code. *)
Definition coded {A M} (mapped : res M) (reject : error -> A) (label : string) : res A :=
  match mapped with
  | Err e =>
      match ValidationCode e with
      | Some _ => Ok (reject e)
      | None => Err (ErrWrap e label)
      end
  | Ok _ => Err (ErrText (label +:+ ": %!w(<nil>)"))
  end.

(** Whether a request has what its row is keyed by. *)
Definition recordable (envelope : option pb_ReasoningRequestEnvelope) : bool :=
  match envelope with
  | Some e => (re_request_id e != "") && negb (re_attempt e =? 0)
  | None => false
  end.

Definition preflightRequest (request : option pb_ImplementationRequest) (started : time)
    : res (option (Outcome pb_ImplementationProposal)) :=
  if recordable (r ← request; ir_envelope r) then Ok None
  else
    outcome ← coded (MapImplementationRequestAt request (known_time started))
      (fun e => unrecorded (proposalRejection request e started)) "validate implementation request";
    Ok (Some outcome).

Definition oversized (field text : string) : error :=
  ErrRejected REJECTION_CODE_SCHEMA_INVALID field text.

(** What is reserved for the envelope of a request. *)
Definition start_of (stage : string) (envelope : option pb_ReasoningRequestEnvelope)
    (artifact : ArtifactReference) (started : time) : InvocationStart :=
  let e := envelope_of envelope in
  mkInvocationStart (re_request_id e) artifact (re_run_id e) (re_task_id e) stage (re_attempt e)
    (re_agent_manifest_digest e) started.

(** [ProposeImplementation] up to [Begin]: an outcome, or what is reserved. *)
Definition ProposeImplementation_entry (put : string -> res ArtifactReference)
    (cancelled : option error) (now : time) (request : option pb_ImplementationRequest)
    : res (Outcome pb_ImplementationProposal + InvocationStart) :=
  match cancelled with
  | Some e => Err e
  | None =>
      let started := UTC now in
      requestBytes ← map_err (fun e => ErrWrap e "serialize implementation request")
        (marshal_implementation_request request);
      if Limit_Request limits <? str_len requestBytes
      then Ok (inl (unrecorded (proposalRejection request
             (oversized "request" "serialized request exceeds byte limit") started)))
      else
        early ← preflightRequest request started;
        match early with
        | Some outcome => Ok (inl outcome)
        | None =>
            requestArtifact ← map_err (fun e => ErrWrap e "store implementation request")
              (putArtifact put requestBytes);
            Ok (inr (start_of implementationStage (r ← request; ir_envelope r) requestArtifact started))
        end
  end.

Definition validateRecordedRequest (request : pb_ImplementationRequest) (started : time)
    : res (ImplementationRequest + decision pb_ImplementationProposal) :=
  match MapImplementationRequestAt (Some request) (known_time started) with
  | Ok mapped => Ok (inl mapped)
  | Err e =>
      rejection ← coded (M := unit) (Err e) (fun e => proposalRejection (Some request) e started)
        "validate implementation request";
      Ok (inr (refused_early "record implementation rejection" rejection started))
  end.

Definition invokeImplementation (around : gw_surroundings) (request : pb_ImplementationRequest)
    (mapped : ImplementationRequest) : res (AdapterResult pb_ImplementationProposal) :=
  let digest := AgentManifestDigest (IR_Envelope mapped) in
  resolved ← map_err (fun e => ErrWrap e "resolve implementation manifest")
    (ResolveManifest around digest);
  if (Resolved_Digest resolved != digest) ||
     (Manifest_Stage (Resolved_Manifest resolved) != implementationStage) ||
     (Output_Schema (Manifest_Output (Resolved_Manifest resolved)) != implementationOutput)
  then Err (ErrText "resolved manifest does not match implementation request")
  else
    map_err (fun e => ErrWrap e "propose implementation")
      (Adapter_ProposeImplementation around (Resolved_Manifest resolved) request).

(** Whether the provider was asked at least once and not too often. *)
Definition within_budget {P} (result : AdapterResult P) (envelope : Envelope) : bool :=
  let requests := ProviderRequests (Result_Usage result) in
  negb ((requests <? 1) || (MaximumRequests envelope <? requests)).

Definition validateProviderBudget (result : AdapterResult pb_ImplementationProposal)
    (request : ImplementationRequest) : res unit :=
  if negb (within_budget result (IR_Envelope request))
  then Err (ErrText "implementation adapter violated provider request budget") else Ok tt.

Definition finalizeProposal (put : string -> res ArtifactReference) (completed : time)
    (request : pb_ImplementationRequest) (mapped : ImplementationRequest)
    (result : AdapterResult pb_ImplementationProposal) : res (decision pb_ImplementationProposal) :=
  if Limit_ProviderResponse limits <? str_len (ProviderResponse result)
  then Err (ErrText "provider response exceeds byte limit")
  else
    response ← map_err (fun e => ErrWrap e "store provider response")
      (putArtifact put (ProviderResponse result));
    let rejected proposal label rejection :=
      Ok (mkDecision (completion_of result response proposal completed StatusRejected (Some rejection))
            None label) in
    match Malformed result with
    | Some m =>
        rejected no_reference "record malformed implementation output"
          (rejection_of_failure (ir_envelope request)
             (malformed_failure "provider output does not match the closed implementation schema" m)
             completed)
    | None =>
        proposalBytes ← map_err (fun e => ErrWrap e "serialize implementation proposal")
          (marshal_implementation_proposal (Result_Proposal result));
        if Limit_Proposal limits <? str_len proposalBytes
        then rejected no_reference "record oversized implementation proposal"
               (proposalRejection (Some request)
                  (oversized "proposal" "serialized proposal exceeds byte limit") completed)
        else
          artifact ← map_err (fun e => ErrWrap e "store implementation proposal")
            (putArtifact put proposalBytes);
          match MapImplementationProposal (Result_Proposal result) mapped with
          | Err e =>
              rejection ← coded (M := unit) (Err e)
                (fun e => proposalRejection (Some request) e completed)
                "validate implementation proposal";
              rejected artifact "record implementation rejection" rejection
          | Ok _ =>
              Ok (mkDecision (completion_of result response artifact completed StatusAccepted None)
                    (Result_Proposal result) "record implementation proposal")
          end
    end.

(** The work between the reservation and the record; [cancelled] is the state
    of the context when the adapter has answered. *)
Definition decide_implementation (around : gw_surroundings) (cancelled : option error)
    (started completed : time) (request : pb_ImplementationRequest)
    : res (decision pb_ImplementationProposal) :=
  validated ← validateRecordedRequest request started;
  match validated with
  | inr refused => Ok refused
  | inl mapped =>
      result ← invokeImplementation around request mapped;
      match cancelled with
      | Some e => Err e
      | None =>
          validateProviderBudget result mapped ;;
          finalizeProposal (Gw_Put around) (UTC completed) request mapped result
      end
  end.

Definition replayOutcome (get : ArtifactReference -> res string) (record : InvocationRecord)
    : res (Outcome pb_ImplementationProposal) :=
  let start := Record_Start record in
  let completion := Record_Completion record in
  verifyReplayProviderResponse get record ;;
  requestBytes ← map_err (fun e => ErrWrap e "load replay request artifact")
    (get (Start_RequestArtifact start));
  verifyArtifact (Start_RequestArtifact start) requestBytes ;;
  request ← map_err (fun e => ErrWrap e "decode replay request artifact")
    (unmarshal_implementation_request requestBytes);
  proposal ←
    (if Reference_URI (ProposalArtifact completion) == "" then Ok None
     else
       proposalBytes ← map_err (fun e => ErrWrap e "load replay proposal artifact")
         (get (ProposalArtifact completion));
       verifyArtifact (ProposalArtifact completion) proposalBytes ;;
       proposal ← map_err (fun e => ErrWrap e "decode replay proposal artifact")
         (unmarshal_implementation_proposal proposalBytes);
       Ok (Some proposal));
  (match Status completion with
   | StatusAccepted =>
       mapped ← map_err (fun e => ErrWrap e "validate replay request")
         (MapImplementationRequest (Some request));
       map_err (fun e => ErrWrap e "validate replay proposal")
         (MapImplementationProposal proposal mapped) ;;
       Ok tt
   | StatusRejected => Ok tt
   end) ;;
  Ok (outcomeFromRecord record proposal true).

(** ** Requests for a review *)

Definition prepareReviewRequest (request : option pb_ReviewRequest) (started : time)
    : res (Outcome pb_ReviewProposal + string) :=
  requestBytes ← map_err (fun e => ErrWrap e "serialize review request")
    (marshal_review_request request);
  if Limit_Request limits <? str_len requestBytes
  then Ok (inl (unrecorded (reviewRejection request
         (oversized "request" "serialized request exceeds byte limit") started)))
  else if recordable (r ← request; rr_envelope r) then Ok (inr requestBytes)
  else
    outcome ← coded (MapReviewRequestAt request (known_time started))
      (fun e => unrecorded (reviewRejection request e started)) "validate review request";
    Ok (inl outcome).

(** [ProposeReview] up to [Begin]. *)
Definition ProposeReview_entry (put : string -> res ArtifactReference) (cancelled : option error)
    (now : time) (request : option pb_ReviewRequest)
    : res (Outcome pb_ReviewProposal + InvocationStart) :=
  match cancelled with
  | Some e => Err e
  | None =>
      let started := UTC now in
      prepared ← prepareReviewRequest request started;
      match prepared with
      | inl outcome => Ok (inl outcome)
      | inr requestBytes =>
          requestArtifact ← map_err (fun e => ErrWrap e "store review request")
            (putArtifact put requestBytes);
          Ok (inr (start_of reviewStage (r ← request; rr_envelope r) requestArtifact started))
      end
  end.

Definition validateRecordedReviewRequest (request : pb_ReviewRequest) (started : time)
    : res (ReviewRequest + decision pb_ReviewProposal) :=
  match MapReviewRequestAt (Some request) (known_time started) with
  | Ok mapped => Ok (inl mapped)
  | Err e =>
      rejection ← coded (M := unit) (Err e) (fun e => reviewRejection (Some request) e started)
        "validate review request";
      Ok (inr (refused_early "record review rejection" rejection started))
  end.

Definition invokeReviewAdapter (around : gw_surroundings) (request : pb_ReviewRequest)
    (mapped : ReviewRequest) : res (AdapterResult pb_ReviewProposal) :=
  let digest := AgentManifestDigest (RV_Envelope mapped) in
  resolved ← map_err (fun e => ErrWrap e "resolve review manifest") (ResolveManifest around digest);
  if (Resolved_Digest resolved != digest) ||
     (Manifest_Stage (Resolved_Manifest resolved) != reviewStage) ||
     (Output_Schema (Manifest_Output (Resolved_Manifest resolved)) != reviewOutput)
  then Err (ErrText "resolved manifest does not match review request")
  else
    result ← map_err (fun e => ErrWrap e "propose review")
      (Adapter_ProposeReview around (Resolved_Manifest resolved) request);
    if negb (within_budget result (RV_Envelope mapped))
    then Err (ErrText "review adapter violated provider request budget") else Ok result.

(** The validation of a proposal: the error if it is oversized or refused, and
    the artifact, which only a proposal within the limit has. *)
Definition validateReviewProposal (put : string -> res ArtifactReference) (proposalBytes : string)
    (proposal : option pb_ReviewProposal) (mapped : ReviewRequest)
    : res (option error * ArtifactReference) :=
  if Limit_Proposal limits <? str_len proposalBytes
  then Ok (Some (oversized "proposal" "serialized proposal exceeds byte limit"), no_reference)
  else
    artifact ← map_err (fun e => ErrWrap e "store review proposal") (putArtifact put proposalBytes);
    match MapReviewProposal proposal mapped with
    | Ok _ => Ok (None, artifact)
    | Err e => Ok (Some e, artifact)
    end.

Definition finalizeReview (put : string -> res ArtifactReference) (completed : time)
    (request : pb_ReviewRequest) (mapped : ReviewRequest) (result : AdapterResult pb_ReviewProposal)
    : res (decision pb_ReviewProposal) :=
  if Limit_ProviderResponse limits <? str_len (ProviderResponse result)
  then Err (ErrText "review provider response exceeds byte limit")
  else
    response ← map_err (fun e => ErrWrap e "store review provider response")
      (putArtifact put (ProviderResponse result));
    let rejected proposal label rejection :=
      Ok (mkDecision (completion_of result response proposal completed StatusRejected (Some rejection))
            None label) in
    match Malformed result with
    | Some m =>
        rejected no_reference "record malformed review output"
          (rejection_of_failure (rr_envelope request)
             (malformed_failure "provider output does not match the closed review schema" m) completed)
    | None =>
        proposalBytes ← map_err (fun e => ErrWrap e "serialize review proposal")
          (marshal_review_proposal (Result_Proposal result));
        '(validationErr, artifact) ←
          validateReviewProposal put proposalBytes (Result_Proposal result) mapped;
        match validationErr with
        | Some e =>
            rejection ← coded (M := unit) (Err e) (fun e => reviewRejection (Some request) e completed)
              "validate review proposal";
            rejected artifact "record review rejection" rejection
        | None =>
            Ok (mkDecision (completion_of result response artifact completed StatusAccepted None)
                  (Result_Proposal result) "record review proposal")
        end
    end.

Definition decide_review (around : gw_surroundings) (started completed : time)
    (request : pb_ReviewRequest) : res (decision pb_ReviewProposal) :=
  validated ← validateRecordedReviewRequest request started;
  match validated with
  | inr refused => Ok refused
  | inl mapped =>
      result ← invokeReviewAdapter around request mapped;
      finalizeReview (Gw_Put around) (UTC completed) request mapped result
  end.

Definition replayReview (get : ArtifactReference -> res string) (record : InvocationRecord)
    : res (Outcome pb_ReviewProposal) :=
  let start := Record_Start record in
  let completion := Record_Completion record in
  verifyReplayProviderResponse get record ;;
  requestBytes ← map_err (fun e => ErrWrap e "load replay review request")
    (get (Start_RequestArtifact start));
  verifyArtifact (Start_RequestArtifact start) requestBytes ;;
  request ← map_err (fun e => ErrWrap e "decode replay review request")
    (unmarshal_review_request requestBytes);
  proposal ←
    (if Reference_URI (ProposalArtifact completion) == "" then Ok None
     else
       proposalBytes ← map_err (fun e => ErrWrap e "load replay review proposal")
         (get (ProposalArtifact completion));
       verifyArtifact (ProposalArtifact completion) proposalBytes ;;
       proposal ← map_err (fun e => ErrWrap e "decode replay review proposal")
         (unmarshal_review_proposal proposalBytes);
       Ok (Some proposal));
  (match Status completion with
   | StatusAccepted =>
       mapped ← map_err (fun e => ErrWrap e "validate replay review request")
         (MapReviewRequest (Some request));
       map_err (fun e => ErrWrap e "validate replay review proposal")
         (MapReviewProposal proposal mapped) ;;
       Ok tt
   | StatusRejected => Ok tt
   end) ;;
  Ok (outcomeFromRecord record proposal true).

(** ** Calls *)

Inductive gw_request :=
| ImplementationCall (request : pb_ImplementationRequest)
| ReviewCall (request : pb_ReviewRequest).

Inductive gw_outcome :=
| ImplementationOutcome (o : Outcome pb_ImplementationProposal)
| ReviewOutcome (o : Outcome pb_ReviewProposal).

Inductive gw_decision :=
| ImplementationDecision (d : decision pb_ImplementationProposal)
| ReviewDecision (d : decision pb_ReviewProposal).

Definition completion (d : gw_decision) : InvocationCompletion :=
  match d with ImplementationDecision d => decided d | ReviewDecision d => decided d end.

Definition decision_label (d : gw_decision) : string :=
  match d with ImplementationDecision d => decided_as d | ReviewDecision d => decided_as d end.

(** The outcome of the record that a decision became. *)
Definition fresh_outcome (record : InvocationRecord) (d : gw_decision) : gw_outcome :=
  match d with
  | ImplementationDecision d =>
      ImplementationOutcome (outcomeFromRecord record (decided_proposal d) false)
  | ReviewDecision d => ReviewOutcome (outcomeFromRecord record (decided_proposal d) false)
  end.

Inductive gw_phase :=
| GwInserting
| GwReading
| GwLoading
| GwReplaying (record : InvocationRecord)
| GwInvoking (h : gw_handle)
| GwCompleting (h : gw_handle) (d : gw_decision)
| GwRollingBack (h : gw_handle) (r : res gw_outcome)
| GwReturned (r : res gw_outcome).

Record gw_call := mkGwCall {
  gc_request : gw_request;
  gc_start : InvocationStart;
  gc_phase : gw_phase;
}.

Definition gw_at (p : gw_phase) (c : gw_call) : gw_call := mkGwCall (gc_request c) (gc_start c) p.

Record gw_circumstances := mkGwCircumstances {
  gx_around : gw_surroundings;
  gx_reply : reply;
  gx_commit : commit_reply;
  gx_now : time;                     (** the clock of the process *)
  gx_cancelled : option error;       (** [ctx.Err()] where the call looks at it *)
}.

Definition begin_label (request : gw_request) : string :=
  match request with
  | ImplementationCall _ => "begin reasoning invocation"
  | ReviewCall _ => "begin review invocation"
  end.

Definition gw_decide (x : gw_circumstances) (c : gw_call) : res gw_decision :=
  match gc_request c with
  | ImplementationCall request =>
      d ← decide_implementation (gx_around x) (gx_cancelled x) (StartedAt (gc_start c)) (gx_now x) request;
      Ok (ImplementationDecision d)
  | ReviewCall request =>
      d ← decide_review (gx_around x) (StartedAt (gc_start c)) (gx_now x) request;
      Ok (ReviewDecision d)
  end.

Definition replay (get : ArtifactReference -> res string) (request : gw_request)
    (record : InvocationRecord) : res gw_outcome :=
  match request with
  | ImplementationCall _ => o ← replayOutcome get record; Ok (ImplementationOutcome o)
  | ReviewCall _ => o ← replayReview get record; Ok (ReviewOutcome o)
  end.

(** [Begin], statement by statement. *)
Definition gw_insert (x : gw_circumstances) (c : gw_call) (s : invocations)
    : gw_phase * invocations :=
  match statement (gx_reply x) (insert_invocation (gc_start c)) s with
  | (Err e, s') =>
      (GwReturned (Err (ErrWrap (ErrWrap e "reserve reasoning invocation") (begin_label (gc_request c)))), s')
  | (Ok true, s') => (GwInvoking (mkGwHandle (gc_start c) None true), s')
  | (Ok false, s') => (GwReading, s')
  end.

Definition gw_read (x : gw_circumstances) (c : gw_call) (s : invocations) : gw_phase :=
  let failed e := GwReturned (Err (ErrWrap e (begin_label (gc_request c)))) in
  match query (gx_reply x) (find_row text_column (Start_RequestID (gc_start c))) s with
  | Err e => failed (ErrWrap e "read reasoning reservation")
  | Ok None => GwInserting
  | Ok (Some row) =>
      match reserved_invocation (gc_start c) row with
      | Err e => failed e
      | Ok false => GwLoading
      | Ok true =>
          match gx_cancelled x with
          | Some e => failed e
          | None => GwInserting
          end
      end
  end.

Definition gw_load (x : gw_circumstances) (c : gw_call) (s : invocations) : gw_phase :=
  match readInvocation (gx_reply x) (Start_RequestID (gc_start c)) s with
  | Err e => GwReturned (Err (ErrWrap e (begin_label (gc_request c))))
  | Ok None => GwInserting
  | Ok (Some record) => GwReplaying record
  end.

Definition gw_step (x : gw_circumstances) (c : gw_call) (s : invocations) (w : db)
    : gw_call * invocations * db :=
  match gc_phase c with
  | GwInserting => let '(p, s') := gw_insert x c s in (gw_at p c, s', w)
  | GwReading => (gw_at (gw_read x c s) c, s, w)
  | GwLoading => (gw_at (gw_load x c s) c, s, w)
  | GwReplaying record =>
      (gw_at (GwReturned (replay (Gw_Get (gx_around x)) (gc_request c) record)) c, s, w)
  | GwInvoking h =>
      match gw_decide x c with
      | Ok d => (gw_at (GwCompleting h d) c, s, w)
      | Err e => (gw_at (GwRollingBack h (Err e)) c, s, w)
      end
  | GwCompleting h d =>
      let '(r, h', s') := Invocation_Complete (gx_commit x) h (completion d) s in
      let answer :=
        match r with
        | Ok record => Ok (fresh_outcome record d)
        | Err e => Err (ErrWrap e (decision_label d))
        end in
      (gw_at (GwRollingBack h' answer) c, s', w)
  | GwRollingBack h r =>
      (gw_at (GwReturned r) c, Invocation_Rollback (gx_reply x) h s, w)
  | GwReturned r => (c, s, w)
  end.

(** The calls that come to [Begin]. *)
Definition gw_enters (c : gw_call) : Prop :=
  gc_phase c = GwInserting /\
  exists put cancelled now,
    match gc_request c with
    | ImplementationCall request =>
        ProposeImplementation_entry put cancelled now (Some request) = Ok (inr (gc_start c))
    | ReviewCall request =>
        ProposeReview_entry put cancelled now (Some request) = Ok (inr (gc_start c))
    end.

(** A system that started with an empty ledger of invocations. *)
Definition invoking (sys : world invocations gw_call) : Prop :=
  started gw_step gw_enters (fun _ => True) ∅ sys.

End gateway.
