(* ===== verification/GwInvariants.v ===== *)
(** * The invariant of the running invocations

    A request identifier is held by one call at most, and its row is in
    progress until that call has an outcome for it; what a call returns is what
    its row says, and what its row says was decided by the contract. *)

From S2P Require Import Prelude GoStd GoJson WfTypes WfDb WfStore WfStoreLemmas Interleave.
From S2P Require Import CtMessages CtCommon CtImplementation CtReview Manifest GwLedger GwService.

(** ** What the statements do *)

Section statements.
Context `{Protobuf}.

Lemma insert_invocation_Ok start s b s' :
  insert_invocation start s = Ok (b, s') ->
  (b = false /\ s' = s) \/
  exists row, b = true /\ s !! Start_RequestID start = None /\ s' = <[Start_RequestID start := row]> s /\
    vr_state row = InProgress /\
    mkReference (vr_uri row) (vr_digest row) = Start_RequestArtifact start.
Proof.
  unfold insert_invocation. intros (row & Hrow & Hr)%tx_lift_bind_Ok.
  destruct (negb _); [done|]. apply insert_row_Ok in Hr as (k & ->%text_column_Ok & Hr).
  destruct Hr as [(-> & Hn & ->)|(-> & ->)]; [right|by left]. exists row.
  unfold invocation_row_of in Hrow. apply res_bind_Ok in Hrow as (uri & ->%text_column_Ok & Hrow).
  apply res_bind_Ok in Hrow as (digest & ->%text_column_Ok & Hrow).
  repeat (apply res_bind_Ok in Hrow as (? & _ & Hrow)). injection Hrow as <-. split_and!; try done.
  cbn. by destruct (Start_RequestArtifact start).
Qed.

Lemma in_progress_state r : in_progress r = true -> vr_state r = InProgress.
Proof. unfold in_progress. by destruct (vr_state r). Qed.

Lemma complete_invocation_Ok start c p q s o s' :
  complete_invocation start c p q s = Ok (o, s') ->
  (o = None /\ s' = s) \/
  exists r columns, s !! Start_RequestID start = Some r /\
    vr_digest r = SHA256 (Start_RequestArtifact start) /\ vr_state r = InProgress /\
    completed_columns_of c p q = Ok columns /\ completed_check columns = true /\
    o = Some (set_vr_state (InvocationCompleted columns) r) /\
    s' = <[Start_RequestID start := set_vr_state (InvocationCompleted columns) r]> s.
Proof.
  unfold complete_invocation. intros (columns & Hc & Hr)%tx_lift_bind_Ok.
  apply tx_lift_bind_Ok in Hr as (digest & ->%text_column_Ok & Hr).
  apply update_row_Ok in Hr as [Hr|(k & r & ->%text_column_Ok & Hrow & Hm & Hcheck & Ho & Hs)]; [by left|].
  right. apply andb_true_iff in Hm as [Hd%bool_decide_eq_true Hp%in_progress_state].
  unfold invocation_check in Hcheck. apply andb_true_iff in Hcheck as [_ Hcheck]. by exists r, columns.
Qed.

Lemma delete_invocation_Ok start s b s' :
  delete_invocation start s = Ok (b, s') ->
  s' = s \/ exists r, s !! Start_RequestID start = Some r /\ vr_state r = InProgress /\
    s' = delete (Start_RequestID start) s.
Proof.
  unfold delete_invocation. intros (digest & _ & Hr)%tx_lift_bind_Ok.
  apply delete_row_Ok in Hr as [[_ ->]|(k & r & ->%text_column_Ok & Hrow & Hm & _ & ->)]; [by left|right].
  apply andb_true_iff in Hm as [_ Hp%in_progress_state]. by exists r.
Qed.

Lemma rollback_cases w h s :
  Invocation_Rollback w h s = s \/
  (gh_active h = true /\ exists r, s !! Start_RequestID (gh_start h) = Some r /\ vr_state r = InProgress /\
    Invocation_Rollback w h s = delete (Start_RequestID (gh_start h)) s).
Proof.
  unfold Invocation_Rollback. destruct (gh_active h); [cbn|by left].
  destruct (statement w (delete_invocation (gh_start h)) s) as [r s'] eqn:E. cbn.
  apply statement_cases in E as [[-> _]|(b & Hd & _)]; [by left|].
  apply delete_invocation_Ok in Hd as [->|(v & Hv)]; [by left|right]. split; [done|]. by exists v.
Qed.

Lemma reference_columns_Ok r p : reference_columns r = Ok p -> reference_of p = r /\
  (forall uri digest, p = Some (uri, digest) -> uri <> "").
Proof.
  destruct r as [uri digest]. unfold reference_columns. cbn. destruct (_ && _) eqn:E1.
  - apply andb_true_iff in E1 as [->%bool_decide_eq_true ->%bool_decide_eq_true]. by intros [= <-].
  - destruct (_ || _) eqn:E2; [done|]. apply orb_false_iff in E2 as [Hu%bool_decide_eq_false _].
    intros [= <-]. split; [done|]. by intros ? ? [= <- _].
Qed.

Lemma text_pair_Ok p q : text_pair p = Ok q -> q = p.
Proof.
  unfold text_pair, nullable. destruct p as [[uri digest]|]; [|by intros [= <-]].
  intros (v & Hv & [= <-])%res_bind_Ok. apply res_bind_Ok in Hv as (u & ->%text_column_Ok & Hv).
  by apply res_bind_Ok in Hv as (d & ->%text_column_Ok & [= <-]).
Qed.

End statements.

(** ** What is decided, and what an outcome says *)

Section decisions.
Context `{Platform} `{Protobuf} `{Wire}.
Variable limits : ByteLimits.

(** The contract of its stage accepts the proposal for the request. *)
Definition implementation_contract (request : pb_ImplementationRequest) (p : pb_ImplementationProposal)
    : Prop :=
  exists at_time mapped value, MapImplementationRequestAt (Some request) at_time = Ok mapped /\
    MapImplementationProposal (Some p) mapped = Ok value.

Definition review_contract (request : pb_ReviewRequest) (p : pb_ReviewProposal) : Prop :=
  exists at_time mapped value, MapReviewRequestAt (Some request) at_time = Ok mapped /\
    MapReviewProposal (Some p) mapped = Ok value.

(** An accepted decision has a proposal that the contract accepts, stored as
    its artifact; a rejected one has a rejection instead. *)
Definition decision_sound {P} (contract : P -> Prop) (marshal : option P -> res string)
    (d : decision P) : Prop :=
  match Status (decided d) with
  | StatusAccepted => Rejection (decided d) = None /\ exists p bytes, decided_proposal d = Some p /\
      contract p /\ marshal (Some p) = Ok bytes /\ sha256_hex bytes = SHA256 (ProposalArtifact (decided d))
  | StatusRejected => decided_proposal d = None /\ is_Some (Rejection (decided d))
  end.

Lemma putArtifact_Ok put body reference :
  putArtifact put body = Ok reference -> sha256_hex body = SHA256 reference.
Proof.
  unfold putArtifact. intros (r & _ & Hr)%res_bind_Ok. apply res_bind_Ok in Hr as ([] & Hv & [= <-]).
  unfold verifyArtifact in Hv. destruct (_ || _) eqn:E; [done|].
  by apply orb_false_iff in E as [->%negb_false_iff%bool_decide_eq_true _].
Qed.

Lemma verifyArtifact_Ok reference body : verifyArtifact reference body = Ok tt ->
  sha256_hex body = SHA256 reference.
Proof.
  unfold verifyArtifact. destruct (_ || _) eqn:E; [done|]. intros _.
  by apply orb_false_iff in E as [->%negb_false_iff%bool_decide_eq_true _].
Qed.

Lemma finalizeProposal_sound put completed request mapped result d t :
  MapImplementationRequestAt (Some request) t = Ok mapped ->
  finalizeProposal limits put completed request mapped result = Ok d ->
  decision_sound (implementation_contract request) marshal_implementation_proposal d.
Proof.
  intros Hm. unfold finalizeProposal. destruct (_ <? _); [done|].
  intros (response & _ & Hd)%res_bind_Ok. cbv beta zeta in Hd.
  destruct (Malformed result) as [m|]; [injection Hd as <-; split; [done|by eexists]|].
  apply res_bind_Ok in Hd as (bytes & Hb%map_err_Ok & Hd). destruct (_ <? _).
  { injection Hd as <-. split; [done|by eexists]. }
  apply res_bind_Ok in Hd as (artifact & Ha%map_err_Ok%putArtifact_Ok & Hd).
  destruct (MapImplementationProposal _ mapped) as [value|e] eqn:Hv.
  - injection Hd as <-. destruct (Result_Proposal result) as [p|] eqn:Hp; [|discriminate Hv].
    split; [done|]. exists p, bytes. split_and!; [done| |done..]. by exists t, mapped, value.
  - apply res_bind_Ok in Hd as (rejection & _ & [= <-]). split; [done|by eexists].
Qed.

Lemma decide_implementation_sound around cancelled started completed request d :
  decide_implementation limits around cancelled started completed request = Ok d ->
  decision_sound (implementation_contract request) marshal_implementation_proposal d.
Proof.
  unfold decide_implementation, validateRecordedRequest. intros (validated & Hv & Hd)%res_bind_Ok.
  destruct (MapImplementationRequestAt _ _) as [mapped|e] eqn:Hm.
  - injection Hv as <-. apply res_bind_Ok in Hd as (result & _ & Hd). destruct cancelled; [done|].
    apply res_bind_Ok in Hd as ([] & _ & Hd). by eapply finalizeProposal_sound.
  - apply res_bind_Ok in Hv as (rejection & _ & [= <-]). injection Hd as <-. split; [done|by eexists].
Qed.

Lemma finalizeReview_sound put completed request mapped result d t :
  MapReviewRequestAt (Some request) t = Ok mapped ->
  finalizeReview limits put completed request mapped result = Ok d ->
  decision_sound (review_contract request) marshal_review_proposal d.
Proof.
  intros Hm. unfold finalizeReview. destruct (_ <? _); [done|].
  intros (response & _ & Hd)%res_bind_Ok. cbv beta zeta in Hd.
  destruct (Malformed result) as [m|]; [injection Hd as <-; split; [done|by eexists]|].
  apply res_bind_Ok in Hd as (bytes & Hb%map_err_Ok & Hd).
  apply res_bind_Ok in Hd as ([invalid artifact] & Hv & Hd). destruct invalid as [e|].
  { apply res_bind_Ok in Hd as (rejection & _ & [= <-]). split; [done|by eexists]. }
  injection Hd as <-. unfold validateReviewProposal in Hv. destruct (_ <? _); [done|].
  apply res_bind_Ok in Hv as (reference & Ha%map_err_Ok%putArtifact_Ok & Hv).
  destruct (MapReviewProposal _ mapped) as [value|e] eqn:Hr; [|done]. injection Hv as <-.
  destruct (Result_Proposal result) as [p|] eqn:Hp; [|discriminate Hr].
  split; [done|]. exists p, bytes. split_and!; [done| |done..]. by exists t, mapped, value.
Qed.

Lemma decide_review_sound around started completed request d :
  decide_review limits around started completed request = Ok d ->
  decision_sound (review_contract request) marshal_review_proposal d.
Proof.
  unfold decide_review, validateRecordedReviewRequest. intros (validated & Hv & Hd)%res_bind_Ok.
  destruct (MapReviewRequestAt _ _) as [mapped|e] eqn:Hm.
  - injection Hv as <-. apply res_bind_Ok in Hd as (result & _ & Hd). by eapply finalizeReview_sound.
  - apply res_bind_Ok in Hv as (rejection & _ & [= <-]). injection Hd as <-. split; [done|by eexists].
Qed.

(** ** What a row says *)

(** What an outcome and a row have in common, times and details apart. *)
Record summary := mkSummary {
  sm_request : ArtifactReference;
  sm_proposal : ArtifactReference;
  sm_response : ArtifactReference;
  sm_provider : string * string * string;
  sm_usage : Usage;
  sm_rejection : option (Z * string * bool);
  sm_accepted : bool;
}.

Definition outcome_summary {P} (o : Outcome P) : summary :=
  mkSummary (Outcome_Request o) (Outcome_ProposalArtifact o) (Outcome_Response o)
    (Meta_Provider (Invocation o), Meta_Model (Invocation o), Meta_ProviderRequestID (Invocation o))
    (Meta_Usage (Invocation o))
    ((fun r => (pj_code r, pj_summary r, pj_retryable r)) <$> Outcome_Rejection o)
    (bool_decide (is_Some (Outcome_Proposal o))).

Definition gw_summary (o : gw_outcome) : summary :=
  match o with ImplementationOutcome o => outcome_summary o | ReviewOutcome o => outcome_summary o end.

Definition row_summary (r : invocation_row) (c : completed_columns) : summary :=
  mkSummary (mkReference (vr_uri r) (vr_digest r)) (reference_of (cc_proposal c))
    (reference_of (cc_response c)) (cc_provider c, cc_model c, default "" (cc_provider_request_id c))
    (cc_usage c) ((fun r => (jr_code r, jr_summary r, jr_retryable r)) <$> cc_rejection c)
    (bool_decide (cc_status c = StatusAccepted)).

Lemma rejectionColumns_Ok value row : rejectionColumns value = Ok row ->
  (fun r => (jr_code r, jr_summary r, jr_retryable r)) <$> row =
  (fun r => (pj_code r, pj_summary r, pj_retryable r)) <$> value.
Proof.
  destruct value as [value|]; [|by intros [= <-]]. intros (details & _ & Hr)%res_bind_Ok.
  by apply res_bind_Ok in Hr as (text & ->%text_column_Ok & [= <-]).
Qed.

Lemma nullable_string_Ok v row :
  nullable text_column (nullableString v) = Ok row -> default "" row = v.
Proof.
  unfold nullableString. case_bool_decide as E; [by intros [= <-]|].
  by intros (k & ->%text_column_Ok & [= <-])%res_bind_Ok.
Qed.

(** A fresh record says what its row says. *)
Lemma recorded_summary {P} (d : decision P) start row p q columns contract marshal :
  decision_sound contract marshal d ->
  reference_columns (ProposalArtifact (decided d)) = Ok p ->
  reference_columns (ProviderResponseArtifact (decided d)) = Ok q ->
  completed_columns_of (decided d) p q = Ok columns ->
  mkReference (vr_uri row) (vr_digest row) = Start_RequestArtifact start ->
  outcome_summary (outcomeFromRecord (mkRecord start (decided d)) (decided_proposal d) false) =
    row_summary row columns.
Proof.
  intros Hs Hp%reference_columns_Ok Hq%reference_columns_Ok Hc Hrow.
  unfold completed_columns_of in Hc. go_run Hc. cbn in *.
  repeat match goal with
  | H : text_pair _ = Ok _ |- _ => apply text_pair_Ok in H as ->
  | H : text_column _ = Ok _ |- _ => apply text_column_Ok in H as ->
  | H : rejectionColumns _ = Ok _ |- _ => apply rejectionColumns_Ok in H
  | H : nullable text_column (nullableString _) = Ok _ |- _ => apply nullable_string_Ok in H
  | H : bigint_param _ = Ok _ |- _ => unfold bigint_param in H; case_match; [injection H as <-|done]
  | H : int_param _ = Ok _ |- _ => unfold int_param in H; case_match; [injection H as <-|done]
  end.
  unfold outcome_summary, row_summary, decision_sound in *. cbn.
  f_equal; try congruence.
  - by destruct (InvocationUsage _).
  - destruct (Status _).
    + destruct Hs as (_ & pr & bytes & Hpr & _). apply bool_decide_ext. rewrite Hpr. naive_solver.
    + apply bool_decide_ext. split; [by intros []|done].
Qed.

(** What a proposal that is handed out is known to be: accepted by the contract
    for the request of the call or for the one that is stored under its digest,
    and the content of the artifact of the outcome. *)
Definition proposal_sound {Q P} (contract : Q -> P -> Prop) (marshal : option P -> res string)
    (unmarshal : string -> res P) (decode : string -> res Q) (request : Q) (digest : string)
    (o : Outcome P) : Prop :=
  forall p, Outcome_Proposal o = Some p ->
    (exists q, contract q p /\
       (q = request \/ exists bytes, decode bytes = Ok q /\ sha256_hex bytes = digest)) /\
    (exists bytes, (marshal (Some p) = Ok bytes \/ unmarshal bytes = Ok p) /\
       sha256_hex bytes = SHA256 (Outcome_ProposalArtifact o)).

Definition outcome_sound (c : gw_call) (o : gw_outcome) : Prop :=
  let digest := SHA256 (Start_RequestArtifact (gc_start c)) in
  match gc_request c, o with
  | ImplementationCall request, ImplementationOutcome o =>
      proposal_sound implementation_contract marshal_implementation_proposal
        unmarshal_implementation_proposal unmarshal_implementation_request request digest o
  | ReviewCall request, ReviewOutcome o =>
      proposal_sound review_contract marshal_review_proposal
        unmarshal_review_proposal unmarshal_review_request request digest o
  | _, _ => False
  end.

Lemma fresh_sound x c d record :
  gw_decide limits x c = Ok d -> Record_Completion record = completion d ->
  outcome_sound c (fresh_outcome record d).
Proof.
  unfold gw_decide, outcome_sound, fresh_outcome. intros Hd Hr.
  destruct (gc_request c) as [request|request]; apply res_bind_Ok in Hd as (v & Hv & [= <-]);
    cbn in Hr; intros p Hp; cbn in Hp; rewrite Hr in Hp; cbn; rewrite Hr;
    [apply decide_implementation_sound in Hv|apply decide_review_sound in Hv];
    unfold decision_sound in Hv; destruct (Status (decided v)); try done;
    destruct Hv as (_ & p' & bytes & Hp' & Hc & Hm & Hb); assert (p' = p) as -> by congruence;
    (split; [exists request; split; [done|by left]|exists bytes; split; [by left|done]]).
Qed.

(** The loads that a replay makes. *)
Lemma loaded_Ok {A} (get : ArtifactReference -> res string) reference (decode : string -> res A) label text a :
  (body ← map_err (fun e => ErrWrap e label) (get reference);
   verifyArtifact reference body ;;
   value ← map_err (fun e => ErrWrap e text) (decode body);
   Ok (Some value)) = Ok (Some a) ->
  exists bytes, decode bytes = Ok a /\ sha256_hex bytes = SHA256 reference.
Proof.
  intros (body & _ & Hr)%res_bind_Ok. apply res_bind_Ok in Hr as ([] & Hv%verifyArtifact_Ok & Hr).
  apply res_bind_Ok in Hr as (v & Hd%map_err_Ok & [= ->]). by exists body.
Qed.

(** What a replay hands out. *)
Definition replay_sound {Q P} (contract : Q -> P -> Prop) (unmarshal : string -> res P)
    (decode : string -> res Q) (record : InvocationRecord) (o : Outcome P) : Prop :=
  exists proposal, o = outcomeFromRecord record proposal true /\
    (Status (Record_Completion record) = StatusAccepted -> exists p q bytes, proposal = Some p /\
       contract q p /\ decode bytes = Ok q /\
       sha256_hex bytes = SHA256 (Start_RequestArtifact (Record_Start record))) /\
    (forall p, proposal = Some p -> exists bytes, unmarshal bytes = Ok p /\
       sha256_hex bytes = SHA256 (ProposalArtifact (Record_Completion record))).

Lemma replayOutcome_sound get record o :
  replayOutcome get record = Ok o ->
  replay_sound implementation_contract unmarshal_implementation_proposal
    unmarshal_implementation_request record o.
Proof.
  unfold replayOutcome. intros ([] & _ & Hr)%res_bind_Ok.
  apply res_bind_Ok in Hr as (body & _ & Hr). apply res_bind_Ok in Hr as ([] & Hb%verifyArtifact_Ok & Hr).
  apply res_bind_Ok in Hr as (request & Hq%map_err_Ok & Hr).
  apply res_bind_Ok in Hr as (proposal & Hp & Hr). apply res_bind_Ok in Hr as ([] & Hv & [= <-]).
  exists proposal. split_and!; [done| |].
  - intros Hst. rewrite Hst in Hv. apply res_bind_Ok in Hv as (mapped & Hm%map_err_Ok & Hv).
    apply res_bind_Ok in Hv as (value & Hv%map_err_Ok & _).
    destruct proposal as [p|]; [|discriminate Hv]. exists p, request, body. split_and!; [done| |done..].
    by exists None, mapped, value.
  - intros p ->. destruct (_ == ""); [done|]. by eapply loaded_Ok.
Qed.

Lemma replayReview_sound get record o :
  replayReview get record = Ok o ->
  replay_sound review_contract unmarshal_review_proposal unmarshal_review_request record o.
Proof.
  unfold replayReview. intros ([] & _ & Hr)%res_bind_Ok.
  apply res_bind_Ok in Hr as (body & _ & Hr). apply res_bind_Ok in Hr as ([] & Hb%verifyArtifact_Ok & Hr).
  apply res_bind_Ok in Hr as (request & Hq%map_err_Ok & Hr).
  apply res_bind_Ok in Hr as (proposal & Hp & Hr). apply res_bind_Ok in Hr as ([] & Hv & [= <-]).
  exists proposal. split_and!; [done| |].
  - intros Hst. rewrite Hst in Hv. apply res_bind_Ok in Hv as (mapped & Hm%map_err_Ok & Hv).
    apply res_bind_Ok in Hv as (value & Hv%map_err_Ok & _).
    destruct proposal as [p|]; [|discriminate Hv]. exists p, request, body. split_and!; [done| |done..].
    by exists None, mapped, value.
  - intros p ->. destruct (_ == ""); [done|]. by eapply loaded_Ok.
Qed.

Lemma replay_proposal_sound {Q P} (contract : Q -> P -> Prop) marshal unmarshal decode request record o :
  replay_sound contract unmarshal decode record o ->
  proposal_sound contract marshal unmarshal decode request
    (SHA256 (Start_RequestArtifact (Record_Start record))) o.
Proof.
  intros (proposal & -> & Hacc & Hart) p Hp. cbn in *. destruct (Status _) eqn:Hst; [|done].
  destruct (Hacc eq_refl) as (p' & q & bytes & -> & Hc & Hq & Hb). injection Hp as ->. split.
  - exists q. split; [done|]. right. by exists bytes.
  - destruct (Hart p eq_refl) as (body & Hd & Hs). exists body. split; [by right|done].
Qed.

(** The record of a row says what the row says. *)
Lemma replayed_summary {Q P} (contract : Q -> P -> Prop) unmarshal decode id row columns record o :
  replay_sound contract unmarshal decode record o ->
  vr_state row = InvocationCompleted columns -> record_of_row id row = Ok record ->
  outcome_summary o = row_summary row columns.
Proof.
  intros (proposal & -> & Hacc & _) Hst. unfold record_of_row. rewrite Hst.
  intros (rejection & Hrej & [= <-])%res_bind_Ok. cbn in *. unfold outcome_summary, row_summary. cbn.
  f_equal.
  - destruct (cc_rejection columns) as [r|]; [|by injection Hrej as <-].
    apply res_bind_Ok in Hrej as (v & Hv & [= <-]). by apply res_bind_Ok in Hv as (details & _ & [= <-]).
  - apply bool_decide_ext. destruct (cc_status columns); [|split; [by intros []|done]].
    destruct (Hacc eq_refl) as (p & _ & _ & -> & _). split; [done|by eexists].
Qed.

End decisions.

(** ** The invariant *)

Section invariant.
Context `{Platform} `{Protobuf} `{Wire}.
Variable limits : ByteLimits.

Definition key (c : gw_call) : string := Start_RequestID (gc_start c).

(** The call has the row of its request. *)
Definition holds (c : gw_call) : option string :=
  match gc_phase c with
  | GwInvoking h | GwCompleting h _ | GwRollingBack h _ =>
      if gh_active h then Some (key c) else None
  | _ => None
  end.

Definition active_handle (c : gw_call) : gw_handle := mkGwHandle (gc_start c) None true.

Definition completed (r : invocation_row) (columns : completed_columns) : Prop :=
  vr_state r = InvocationCompleted columns /\ completed_check columns = true.

Definition row_ok (r : invocation_row) : Prop :=
  forall columns, vr_state r = InvocationCompleted columns -> completed_check columns = true.

Definition rows_ok (s : invocations) : Prop := forall id r, s !! id = Some r -> row_ok r.

(** The row of the call, and what it says. *)
Definition row_done (s : invocations) (c : gw_call) (r : invocation_row) (columns : completed_columns)
    : Prop :=
  s !! key c = Some r /\ vr_digest r = SHA256 (Start_RequestArtifact (gc_start c)) /\ completed r columns.

Definition outcome_ok (s : invocations) (c : gw_call) (o : gw_outcome) : Prop :=
  outcome_sound c o /\
  exists r columns, row_done s c r columns /\ gw_summary o = row_summary r columns.

Definition row_held (s : invocations) (c : gw_call) : Prop :=
  exists r, s !! key c = Some r /\ vr_state r = InProgress /\
    mkReference (vr_uri r) (vr_digest r) = Start_RequestArtifact (gc_start c).

Definition call_ok (s : invocations) (c : gw_call) : Prop :=
  match gc_phase c with
  | GwInserting | GwReading => True
  | GwLoading => exists r columns, row_done s c r columns
  | GwReplaying record =>
      exists r columns, row_done s c r columns /\ record_of_row (key c) r = Ok record
  | GwInvoking h => h = active_handle c /\ row_held s c
  | GwCompleting h d => h = active_handle c /\ row_held s c /\ exists x, gw_decide limits x c = Ok d
  | GwRollingBack h r =>
      (h = active_handle c /\ is_Some (s !! key c) /\ forall o, r <> Ok o) \/
      (gh_active h = false /\ forall o, r = Ok o -> outcome_ok s c o)
  | GwReturned r => forall o, r = Ok o -> outcome_ok s c o
  end.

(** ** What a step leaves to the others *)

Record touches (c : gw_call) (s s' : invocations) : Prop := {
  tc_others : forall k, k <> key c -> s' !! k = s !! k;
  tc_final : forall r columns, s !! key c = Some r -> completed r columns -> s' !! key c = Some r;
  tc_own : s' !! key c = s !! key c \/ holds c = Some (key c) \/ s !! key c = None;
}.

Lemma touches_nothing c s : touches c s s.
Proof. split; intros; [done..|by left]. Qed.

Lemma row_done_kept s s' c d r columns :
  touches c s s' -> row_done s d r columns -> row_done s' d r columns.
Proof.
  intros [Ho Hf _] (Hr & Hd & Hc). split; [|done].
  destruct (decide (key d = key c)) as [Heq|Hne]; [|by rewrite Ho].
  rewrite Heq in *. by eapply Hf.
Qed.

Lemma outcome_ok_kept s s' c d o : touches c s s' -> outcome_ok s d o -> outcome_ok s' d o.
Proof.
  intros Ht (Hs & r & columns & Hr & Hsum). split; [done|]. exists r, columns.
  split; [by eapply row_done_kept|done].
Qed.

Lemma holds_row s d k : call_ok s d -> holds d = Some k -> k = key d /\ is_Some (s !! key d).
Proof.
  unfold call_ok, holds. destruct (gc_phase d) as [| | | |h|h dec|h r|r]; try done.
  - intros [-> (r & Hr & _)] [= <-]. split; [done|by eexists].
  - intros (-> & (r & Hr & _) & _) [= <-]. split; [done|by eexists].
  - intros [(-> & Hr & _)|[-> _]]; [by intros [= <-]|done].
Qed.

(** The row of a holder is left alone by a call that does not hold it. *)
Lemma held_kept s s' c d k :
  touches c s s' -> call_ok s d -> holds d = Some k -> (forall k, holds c = Some k -> holds d <> Some k) ->
  s' !! key d = s !! key d.
Proof.
  intros [Ho _ Hown] Hd Hk Hdis. destruct (holds_row _ _ _ Hd Hk) as [-> [r Hr]].
  destruct (decide (key d = key c)) as [Heq|Hne]; [|by apply Ho]. rewrite Heq in *.
  destruct Hown as [?|[Hc|?]]; [done| |congruence]. by destruct (Hdis _ Hc).
Qed.

Lemma call_ok_kept s s' c d :
  touches c s s' -> call_ok s d -> (forall k, holds c = Some k -> holds d <> Some k) -> call_ok s' d.
Proof.
  intros Ht Hd Hdis. pose proof (held_kept s s' c d (key d) Ht Hd) as Hheld.
  unfold call_ok, holds in *. destruct (gc_phase d) as [| | |record|h|h dec|h r|r]; try done.
  - destruct Hd as (r & columns & Hr). exists r, columns. by eapply row_done_kept.
  - destruct Hd as (r & columns & Hr & Hrec). exists r, columns. split; [by eapply row_done_kept|done].
  - destruct Hd as [-> (r & Hr & Hst)]. split; [done|]. exists r. by rewrite Hheld.
  - destruct Hd as (-> & (r & Hr & Hst) & Hdec). split_and!; [done| |done]. exists r. by rewrite Hheld.
  - destruct Hd as [(-> & Hr & Hno)|[Hact Ho]]; [left; by rewrite Hheld|right].
    split; [done|]. intros o Hor. by eapply outcome_ok_kept, Ho.
  - intros o Hor. by eapply outcome_ok_kept, Hd.
Qed.

(** ** One step *)

Record stepped (c c' : gw_call) (s s' : invocations) : Prop := {
  st_touches : touches c s s';
  st_rows : rows_ok s';
  st_call : call_ok s' c';
  st_taken : forall k, holds c' = Some k -> holds c = Some k \/ s !! k = None;
}.

Lemma stepped_exclusive c c' s s' : stepped c c' s s' -> exclusive_step holds rows_ok call_ok c c' s s'.
Proof.
  intros [Ht Hr Hc Hk]. split; [done..| |].
  - intros k [Hh|Hn]%Hk; [by left|right]. intros d Hd Hheld.
    destruct (holds_row _ _ _ Hd Hheld) as [Heq [r Hrow]]. rewrite <- Heq in Hrow. congruence.
  - intros d Hd Hdis. by eapply call_ok_kept.
Qed.

(** A step that leaves the table alone and takes nothing. *)
Lemma gw_quiet_step s c p :
  rows_ok s -> call_ok s (gw_at p c) -> (forall k, holds (gw_at p c) = Some k -> holds c = Some k) ->
  stepped c (gw_at p c) s s.
Proof. intros Hr Hc Hk. split; [apply touches_nothing|done..|]. intros k Hh. left. by apply Hk. Qed.

Lemma rows_ok_insert s k r : rows_ok s -> row_ok r -> rows_ok (<[k := r]> s).
Proof.
  intros Hs Hr k' v Hv. destruct (decide (k' = k)) as [->|Hne].
  - rewrite lookup_insert_eq in Hv. by injection Hv as <-.
  - rewrite lookup_insert_ne in Hv by done. by eapply Hs.
Qed.

Lemma touches_insert s c r :
  (holds c = Some (key c) \/ s !! key c = None) ->
  (forall v columns, s !! key c = Some v -> completed v columns -> False) ->
  touches c s (<[key c := r]> s).
Proof.
  intros Hh Hn. split.
  - intros k Hk. by rewrite lookup_insert_ne.
  - intros v columns Hv Hc. by destruct (Hn v columns).
  - by right.
Qed.

Lemma insert_step x c s w c' s' w' :
  gc_phase c = GwInserting -> rows_ok s -> gw_step limits x c s w = (c', s', w') -> stepped c c' s s'.
Proof.
  intros Hph Hr Hs. unfold gw_step in Hs. rewrite Hph in Hs. unfold gw_insert in Hs.
  destruct (statement (gx_reply x) (insert_invocation (gc_start c)) s) as [r t] eqn:E.
  assert (Hcase : (t = s /\ r <> Ok true) \/ exists row, s !! key c = None /\ t = <[key c := row]> s /\
    vr_state row = InProgress /\
    mkReference (vr_uri row) (vr_digest row) = Start_RequestArtifact (gc_start c)).
  { apply statement_cases in E as [[-> Hno]|(b & Hb & Heq)]; [left; split; [done|apply Hno]|].
    apply insert_invocation_Ok in Hb as [[-> ->]|(row & -> & Hrow)]; [left|right; by exists row].
    split; [done|]. intros Hr'. by specialize (Heq _ Hr'). }
  assert (Hown : forall row p, s !! key c = None -> t = <[key c := row]> s -> vr_state row = InProgress ->
    call_ok t (gw_at p c) -> (forall k, holds (gw_at p c) = Some k -> k = key c) ->
    stepped c (gw_at p c) s t).
  { intros row p Hn -> Hst Hok Hh. split; [|apply rows_ok_insert; [done|]|done|].
    - apply touches_insert; [by right|]. intros v columns Hv. congruence.
    - intros columns Hc. congruence.
    - intros k ->%Hh. by right. }
  destruct r as [[]|e].
  - injection Hs as <- <- <-. destruct Hcase as [[_ Hf]|(row & Hn & Ht & Hst & Href)]; [done|].
    eapply Hown; [done..| |by intros k [= <-]]. split; [done|]. exists row.
    rewrite Ht. cbn. by rewrite lookup_insert_eq.
  - injection Hs as <- <- <-. destruct Hcase as [[-> _]|(row & Hn & Ht & Hst & Href)].
    + by apply gw_quiet_step.
    + by eapply Hown.
  - injection Hs as <- <- <-. destruct Hcase as [[-> _]|(row & Hn & Ht & Hst & Href)].
    + by apply gw_quiet_step.
    + by eapply Hown.
Qed.

Lemma read_step x c s :
  rows_ok s -> gc_phase c = GwReading -> call_ok s (gw_at (gw_read x c s) c).
Proof.
  intros Hr Hph. unfold gw_read. destruct (query _ _ s) as [[row|]|e] eqn:E; [|done..].
  apply query_Ok in E. unfold find_row in E. apply res_bind_Ok in E as (k & ->%text_column_Ok & [= Hrow]).
  unfold reserved_invocation. case_bool_decide as Hd; [|done]. cbn [negb].
  destruct (in_progress row) eqn:Hp; [by destruct (gx_cancelled x)|].
  unfold in_progress in Hp. destruct (vr_state row) as [|columns] eqn:Hst; [done|].
  exists row, columns. split_and!; [done|done|]. split; [done|]. by eapply Hr.
Qed.

Lemma load_step x c s :
  gc_phase c = GwLoading -> call_ok s c -> call_ok s (gw_at (gw_load x c s) c).
Proof.
  unfold call_ok at 1. intros -> (r & columns & Hr). unfold gw_load, readInvocation.
  destruct (map_err _ _ ≫= _) as [[record|]|e] eqn:E; [|done..].
  apply res_bind_Ok in E as (row & Hq%map_err_Ok%query_Ok & E). unfold find_row in Hq.
  apply res_bind_Ok in Hq as (k & ->%text_column_Ok & [= Hrow]).
  destruct row as [row|]; [|done]. apply res_bind_Ok in E as (v & Hv & [= ->]).
  exists r, columns. split; [done|]. destruct Hr as [Hr _]. unfold key in Hr.
  assert (row = r) as -> by congruence. exact Hv.
Qed.

Lemma replay_step get c s record :
  gc_phase c = GwReplaying record -> call_ok s c ->
  call_ok s (gw_at (GwReturned (replay get (gc_request c) record)) c).
Proof.
  unfold call_ok at 1. intros -> (r & columns & (Hr & Hd & Hc) & Hrec) o Ho.
  assert (Hdig : SHA256 (Start_RequestArtifact (Record_Start record)) =
    SHA256 (Start_RequestArtifact (gc_start c))).
  { destruct Hc as [Hst _]. unfold record_of_row in Hrec. rewrite Hst in Hrec.
    by apply res_bind_Ok in Hrec as (rejection & _ & [= <-]). }
  unfold replay in Ho. unfold outcome_ok, outcome_sound. cbn.
  destruct (gc_request c) as [request|request]; apply res_bind_Ok in Ho as (v & Hv & [= <-]);
    [apply replayOutcome_sound in Hv|apply replayReview_sound in Hv]; rewrite <- Hdig;
    (split; [by apply replay_proposal_sound|]); exists r, columns;
    (split; [done|by eapply replayed_summary, Hrec; [|apply Hc]]).
Qed.

Lemma complete_step x c s h d r h' s' :
  gc_phase c = GwCompleting h d -> rows_ok s -> call_ok s c ->
  Invocation_Complete (gx_commit x) h (completion d) s = (r, h', s') ->
  let answer := match r with
                | Ok record => Ok (fresh_outcome record d)
                | Err e => Err (ErrWrap e (decision_label d))
                end in
  stepped c (gw_at (GwRollingBack h' answer) c) s s'.
Proof.
  intros Hph Hr Hok Hs. unfold call_ok in Hok. rewrite Hph in Hok.
  destruct Hok as (-> & (row & Hrow & Hst & Href) & y & Hdec).
  assert (Hholds : holds c = Some (key c)) by (unfold holds; by rewrite Hph).
  assert (Hfail : forall e, stepped c (gw_at (GwRollingBack (active_handle c)
    (Err (ErrWrap e (decision_label d)))) c) s s).
  { intros e. apply gw_quiet_step; [done| |by intros k [= <-]]. left. split_and!; [done|by eexists|done]. }
  unfold Invocation_Complete in Hs. cbn in Hs.
  destruct (reference_columns (ProposalArtifact _)) as [p|e] eqn:Hp; [|injection Hs as <- <- <-; apply Hfail].
  destruct (reference_columns (ProviderResponseArtifact _)) as [q|e] eqn:Hq; [|injection Hs as <- <- <-; apply Hfail].
  destruct (complete_invocation _ _ _ _ s) as [[o t]|e] eqn:Hc.
  2: { destruct (gx_commit x); injection Hs as <- <- <-; apply Hfail. }
  apply complete_invocation_Ok in Hc as [[-> ->]|(v & columns & Hv & Hd & _ & Hcol & Hcheck & -> & ->)].
  { destruct (gx_commit x); injection Hs as <- <- <-; apply Hfail. }
  change (Start_RequestID (gc_start c)) with (key c) in *.
  assert (v = row) as -> by congruence. set (row' := set_vr_state (InvocationCompleted columns) row) in *.
  assert (Ht : touches c s (<[key c := row']> s)).
  { apply touches_insert; [by left|]. intros w columns' Hw [Hc _]. congruence. }
  assert (Hrows : rows_ok (<[key c := row']> s)).
  { apply rows_ok_insert; [done|]. by intros columns' [= <-]. }
  assert (Hunknown : forall e, stepped c (gw_at (GwRollingBack (active_handle c)
    (Err (ErrWrap e (decision_label d)))) c) s (<[key c := row']> s)).
  { intros e. split; [done..| |intros k [= <-]; by left]. left.
    split_and!; [done| |done]. cbn. rewrite lookup_insert_eq. by eexists. }
  destruct (gx_commit x); injection Hs as <- <- <-; try apply Hfail; try apply Hunknown.
  split; [done..| |done]. right. split; [done|]. intros o [= <-]. split; [by eapply fresh_sound|].
  exists row', columns. split; [split_and!; [by cbn; rewrite lookup_insert_eq|done|done]|].
  unfold gw_decide in Hdec. destruct (gc_request c); apply res_bind_Ok in Hdec as (dv & Hdv & [= <-]); cbn in *.
  - eapply recorded_summary; [by eapply decide_implementation_sound|done..].
  - eapply recorded_summary; [by eapply decide_review_sound|done..].
Qed.

Lemma rollback_step x c s h r :
  gc_phase c = GwRollingBack h r -> rows_ok s -> call_ok s c ->
  stepped c (gw_at (GwReturned r) c) s (Invocation_Rollback (gx_reply x) h s).
Proof.
  intros Hph Hr Hok. unfold call_ok in Hok. rewrite Hph in Hok.
  destruct (rollback_cases (gx_reply x) h s) as [->|(Hact & v & Hv & Hst & ->)].
  { apply gw_quiet_step; [done| |done]. destruct Hok as [(_ & _ & Hno)|[_ Ho]]; [|exact Ho].
    intros o Hor. by destruct (Hno o). }
  destruct Hok as [(-> & _ & Hno)|[Hf _]]; [|congruence]. cbn in *. fold (key c) in *.
  split; [| | |done].
  - split.
    + intros k Hk. by rewrite lookup_delete_ne.
    + intros u columns Hu [Hc _]. congruence.
    + right. left. unfold holds. by rewrite Hph.
  - intros k u Hu. apply lookup_delete_Some in Hu as [_ Hu]. by eapply Hr.
  - intros o Hor. by destruct (Hno o).
Qed.

Lemma gw_step_ok x c s w c' s' w' :
  rows_ok s -> call_ok s c -> gw_step limits x c s w = (c', s', w') -> stepped c c' s s'.
Proof.
  intros Hr Hok Hs. destruct (gc_phase c) as [| | |record|h|h d|h r|r] eqn:Hph.
  - by eapply insert_step.
  - unfold gw_step in Hs. rewrite Hph in Hs. injection Hs as <- <- <-.
    apply gw_quiet_step; [done|by apply read_step|]. unfold gw_read, holds. cbn. by repeat case_match.
  - unfold gw_step in Hs. rewrite Hph in Hs. injection Hs as <- <- <-.
    apply gw_quiet_step; [done|by apply load_step|]. unfold gw_load, holds. cbn. by repeat case_match.
  - unfold gw_step in Hs. rewrite Hph in Hs. injection Hs as <- <- <-.
    apply gw_quiet_step; [done|by apply replay_step|done].
  - unfold gw_step in Hs. rewrite Hph in Hs. pose proof Hok as Hok'. unfold call_ok in Hok.
    rewrite Hph in Hok. destruct Hok as [-> Hrow].
    assert (Hh : holds c = Some (key c)) by (unfold holds; by rewrite Hph).
    destruct (gw_decide limits x c) as [d|e] eqn:Hd; injection Hs as <- <- <-.
    + apply gw_quiet_step; [done| |by intros k [= <-]]. split_and!; [done..|by exists x].
    + apply gw_quiet_step; [done| |by intros k [= <-]]. left. destruct Hrow as (r & Hrow & _).
      split_and!; [done|by eexists|done].
  - unfold gw_step in Hs. rewrite Hph in Hs.
    destruct (Invocation_Complete _ h _ s) as [[r h'] t] eqn:E. injection Hs as <- <- <-.
    by eapply complete_step.
  - unfold gw_step in Hs. rewrite Hph in Hs. injection Hs as <- <- <-. by apply (rollback_step x).
  - unfold gw_step in Hs. rewrite Hph in Hs. injection Hs as <- <- <-. split; [apply touches_nothing|done..|].
    intros k Hk. by left.
Qed.

Lemma invoking_ok sys : invoking limits sys -> world_exclusive holds rows_ok call_ok sys.
Proof.
  apply (exclusive_holds _ _ _ holds rows_ok call_ok).
  - intros s c [Hph _]. unfold call_ok, holds. by rewrite Hph.
  - intros x c s w c' s' w' _ Hr Hok Hs. by eapply stepped_exclusive, gw_step_ok.
  - intros id r Hr. by rewrite lookup_empty in Hr.
Qed.

End invariant.
