(* ===== verification/GwProps.v ===== *)
(** * What the reasoning gateway guarantees, with concrete invocations *)

From S2P Require Import Prelude GoStd GoJson WfTypes WfDb WfStore WfStoreLemmas Interleave.
From S2P Require Import CtMessages CtCommon CtImplementation CtReview Manifest.
From S2P Require Import GwLedger GwService GwInvariants GoText Samples WfReplay WfInvariants.
From S2P Require Import WfGuarantees CtSamples.

(** * What the reasoning gateway guarantees *)

Section guarantees.
Context `{Platform} `{Protobuf} `{Wire}.
Variable limits : ByteLimits.

Abbreviation invoking := (invoking limits).

(** The call asks the provider, or has its answer and records it. *)
Definition asking (c : gw_call) : Prop :=
  match gc_phase c with GwInvoking _ | GwCompleting _ _ => True | _ => False end.

(** C12: However the calls interleave, at most one of them asks the provider about a request at a
    time; and while one does, no outcome is recorded for the request, so that a request whose
    outcome is recorded is never asked about again. *)
Theorem provider_asked_by_one sys i j c d :
  invoking sys -> calls sys !! i = Some c -> calls sys !! j = Some d -> asking c ->
  (exists row, shared sys !! key c = Some row /\ vr_state row = InProgress /\
     vr_digest row = SHA256 (Start_RequestArtifact (gc_start c))) /\
  (asking d -> key c = key d -> i = j).
Proof.
  intros [_ Hok Hex]%invoking_ok Hi Hj Hc.
  assert (Hheld : forall k e, calls sys !! k = Some e -> asking e ->
    row_held (shared sys) e /\ holds e = Some (key e)).
  { intros k e Hk He. pose proof (Hok k e Hk) as Hcall. unfold asking, call_ok, holds in *.
    destruct (gc_phase e); try done; [by destruct Hcall as [-> ?]|by destruct Hcall as (-> & ? & _)]. }
  split.
  - destruct (Hheld i c Hi Hc) as [(row & Hrow & Hst & Href) _]. exists row. split_and!; [done..|].
    by rewrite <- Href.
  - intros Hd Heq. apply (Hex i j c d (key c)); [done..|by apply (Hheld i)|].
    rewrite Heq. by apply (Hheld j).
Qed.

(** A request is decided once: any two calls that return an outcome for the same identifier
    asked the same request, and their outcomes have the same artifacts, provider, usage and
    rejection, and both have a proposal or neither has. *)
Theorem invocation_decided_once sys i j c d o o' :
  invoking sys -> calls sys !! i = Some c -> calls sys !! j = Some d ->
  gc_phase c = GwReturned (Ok o) -> gc_phase d = GwReturned (Ok o') -> key c = key d ->
  SHA256 (Start_RequestArtifact (gc_start c)) = SHA256 (Start_RequestArtifact (gc_start d)) /\
  gw_summary o = gw_summary o'.
Proof.
  intros [_ Hok _]%invoking_ok Hi Hj Hc Hd Heq.
  pose proof (Hok i c Hi) as H2. pose proof (Hok j d Hj) as H3. unfold call_ok in H2, H3.
  rewrite Hc in H2. rewrite Hd in H3. destruct (H2 o eq_refl) as (_ & r & columns & (Hr & Hdig & Hst) & ->).
  destruct (H3 o' eq_refl) as (_ & r' & columns' & (Hr' & Hdig' & Hst') & ->).
  rewrite Heq in Hr. assert (r' = r) as -> by congruence. split; [congruence|].
  destruct Hst as [Hst _], Hst' as [Hst' _]. congruence.
Qed.

(** What an outcome hands out: the proposal and the rejection. *)
Definition has_proposal (o : gw_outcome) : bool := sm_accepted (gw_summary o).
Definition has_rejection (o : gw_outcome) : bool := bool_decide (is_Some (sm_rejection (gw_summary o))).

(** C13: Every outcome of a call that reserved its request has a proposal or a rejection and never
    both; a rejection carries one of the five codes; and a proposal that is handed out, fresh or
    replayed, is the content of its artifact and one that the contract accepts for the request that
    is stored under the digest.  (A request that is refused before the reservation gets its
    rejection without a row and makes no call here.) *)
Theorem outcomes_sound sys i c o :
  invoking sys -> calls sys !! i = Some c -> gc_phase c = GwReturned (Ok o) ->
  has_rejection o = negb (has_proposal o) /\
  (forall code text retryable, sm_rejection (gw_summary o) = Some (code, text, retryable) ->
     1 <= code <= 5) /\
  outcome_sound c o.
Proof.
  intros [_ Hok _]%invoking_ok Hi Hc. pose proof (Hok i c Hi) as Hcall. unfold call_ok in Hcall.
  rewrite Hc in Hcall. destruct (Hcall o eq_refl) as (Hs & r & columns & (_ & _ & _ & Hcheck) & Hsum).
  unfold has_rejection, has_proposal. rewrite Hsum. unfold row_summary. cbn.
  unfold completed_check in Hcheck. apply andb_true_iff in Hcheck as [_ Hcheck].
  destruct (cc_status columns), (cc_rejection columns) as [rejection|]; try done.
  split_and!; [done| |done]. intros code text retryable [= <- _ _].
  apply andb_true_iff in Hcheck as [[? ?]%andb_true_iff _]. lia.
Qed.

(** ** Giving up *)

(** A call whose work fails gives its request back: its next step removes the row, and the
    next call for the identifier, of either service, is the one that asks the provider. *)
Theorem failed_invocation_frees_request sys i c h e x x' c' w w' row :
  invoking sys -> calls sys !! i = Some c -> gc_phase c = GwRollingBack h (Err e) -> gh_active h = true ->
  shared sys !! key c = Some row -> vr_state row = InProgress ->
  vr_digest row = SHA256 (Start_RequestArtifact (gc_start c)) ->
  gx_reply x = Answered -> text_column (key c) = Ok (key c) ->
  text_column (SHA256 (Start_RequestArtifact (gc_start c))) = Ok (SHA256 (Start_RequestArtifact (gc_start c))) ->
  gc_phase c' = GwInserting -> key c' = key c -> gx_reply x' = Answered ->
  (exists row', invocation_row_of (gc_start c') = Ok row' /\ invocation_check row' = true) ->
  exists s', gw_step limits x c (shared sys) w = (gw_at (GwReturned (Err e)) c, s', w) /\
    s' !! key c = None /\
    exists s'', gw_step limits x' c' s' w' =
      (gw_at (GwInvoking (active_handle c')) c', s'', w').
Proof.
  intros Hsys Hi Hc Hact Hrow Hst Hdig Hans Hkey Htext Hc' Hkey' Hans' (row' & Hrow' & Hcheck).
  pose proof (we_calls _ _ _ _ (invoking_ok _ _ Hsys) i c Hi) as Hcall. unfold call_ok in Hcall.
  rewrite Hc in Hcall. destruct Hcall as [(-> & _ & _)|[Hf _]]; [|congruence].
  exists (delete (key c) (shared sys)). split_and!.
  - unfold gw_step. rewrite Hc. unfold Invocation_Rollback. cbn. rewrite Hans.
    unfold statement, run_tx, delete_invocation, mbind, tx_bind. rewrite Htext. cbn.
    fold (key c). rewrite (delete_row_hit text_column (key c) _ _ row); [done..|].
    unfold in_progress. by rewrite Hdig, Hst, bool_decide_true.
  - apply lookup_delete_eq.
  - eexists. unfold gw_step. rewrite Hc'. unfold gw_insert. rewrite Hans'.
    unfold statement, run_tx, insert_invocation, mbind, tx_bind. rewrite Hrow'. cbn. rewrite Hcheck. cbn.
    fold (key c'). rewrite Hkey', (insert_row_absent text_column (key c)); [done..|]. apply lookup_delete_eq.
Qed.

(** ** Reservations that nobody holds *)

(** The row is in progress and no call holds it. *)
Definition abandoned (id : string) (sys : world invocations gw_call) : Prop :=
  (exists row, shared sys !! id = Some row /\ vr_state row = InProgress) /\
  forall i c, calls sys !! i = Some c -> holds c <> Some id.

Lemma abandoned_kept id sys sys' :
  rtc (world_step (gw_step limits) (gw_enters limits) (fun _ => True)) sys sys' ->
  world_exclusive holds rows_ok (call_ok limits) sys -> abandoned id sys -> abandoned id sys'.
Proof.
  induction 1 as [sys|a b d Hab _ IH]; intros Hex Ha; [done|].
  assert (Hstep : world_exclusive holds rows_ok (call_ok limits) b /\ abandoned id b);
    [|by apply IH; apply Hstep].
  destruct Ha as [(row & Hrow & Hst) Hno].
  destruct Hab as [s w cs c Hc|x i c s w cs c' s' w' Hi Hf Hs|s w1 w2 cs _]; cbn in *.
  - assert (Hfree : holds c = None) by (destruct Hc as [Hph _]; unfold holds; by rewrite Hph). split.
    + apply (exclusive_enter (gw_enters limits)); [|done..]. intros t e [Hph _].
      unfold call_ok, holds. by rewrite Hph.
    + split; [by exists row|]. intros i e [Hi|[_ ->]]%lookup_snoc_cases; [by eapply Hno|congruence].
  - pose proof (gw_step_ok _ x c s w c' s' w' (we_rows _ _ _ _ Hex) (we_calls _ _ _ _ Hex i c Hi) Hs)
      as Hst'. split.
    + eapply (exclusive_call (gw_step limits) (fun _ => True)); [|done..]. intros y e t v e' t' v' _ Hr Hok Hy.
      by eapply stepped_exclusive, gw_step_ok.
    + destruct Hst' as [[Hoth _ Hown] _ _ Htaken]. split; cbn.
      * exists row. split; [|done]. destruct (decide (id = key c)) as [->|Hne]; [|by rewrite Hoth].
        destruct Hown as [->|[Hc|Hn]]; [done|by destruct (Hno i c Hi)|congruence].
      * intros j e [[-> ->]|[_ Hj]]%lookup_insert_cases; [|by eapply Hno].
        intros Hh. destruct (Htaken id Hh) as [Hc|Hn]; [by destruct (Hno i c Hi)|congruence].
  - split; [by destruct Hex|]. split; [by exists row|done].
Qed.

(** A request whose reservation lost its holder, because the process crashed or the answer to the
    insertion was lost, is never decided: its row stays in progress whatever runs afterwards, and no
    call for it ever returns an outcome. *)
Theorem abandoned_invocation_blocks id sys sys' i c o :
  invoking sys -> abandoned id sys ->
  rtc (world_step (gw_step limits) (gw_enters limits) (fun _ => True)) sys sys' ->
  calls sys' !! i = Some c -> key c = id -> gc_phase c <> GwReturned (Ok o).
Proof.
  intros Hsys Ha Hr Hi Hk Hph. pose proof (invoking_ok _ _ Hsys) as Hex.
  destruct (abandoned_kept id _ _ Hr Hex Ha) as [(row & Hrow & Hst) _].
  pose proof (invoking_ok _ _ (started_steps _ _ _ _ _ _ Hsys Hr)) as Hex'.
  pose proof (we_calls _ _ _ _ Hex' i c Hi) as Hcall. unfold call_ok in Hcall. rewrite Hph in Hcall.
  destruct (Hcall o eq_refl) as (_ & r & columns & (Hr' & _ & [Hst' _]) & _). rewrite Hk in Hr'. congruence.
Qed.

End guarantees.

(** * Concrete invocations

    A request for an implementation that the provider answers, one that repeats
    it, one whose provider fails; and the theorems of the gateway applied to
    them. *)

(** ** Surroundings *)

Definition reference_to (body : string) : ArtifactReference :=
  mkReference ("artifact://sha256/" +:+ sha256_hex body) (sha256_hex body).

Definition bodies : list string :=
  [implementation_request_text sample_checked_request;
   implementation_proposal_text sample_checked_proposal; "response"].

Definition gw_get (ref : ArtifactReference) : res string :=
  match list_find (fun body => sha256_hex body = SHA256 ref) bodies with
  | Some (_, body) => Ok body
  | None => Err (ErrNew "not found")
  end.

Definition sample_manifest : Manifest :=
  mkManifest "1" (mkAgent "coder" "1.0.0") "implementation"
    (mkPrompt ("artifact://sha256/" +:+ digest_a) digest_a)
    (mkModel "strong_coding" (Finite (QArith_base.Qmake 1 1)) 1000) (mkContext true true "kernel_selected" 1000)
    (mkTools ["report_blocker"] false false false) (mkOutput "implementation_proposal.v1")
    (Manifest.mkMetadata "writes code" ["core"]).

Example sample_manifest_valid : Manifest_Validate sample_manifest = Ok tt.
Proof. vm_compute. reflexivity. Qed.

Definition answered_once : AdapterResult pb_ImplementationProposal :=
  mkAdapterResult (Some sample_checked_proposal) "response" "provider-1" None "provider" "model"
    (mkUsage 100 200 1).

Definition gw_tools (answer : res (AdapterResult pb_ImplementationProposal)) : gw_surroundings :=
  mkGwSurroundings (fun body => Ok (reference_to body)) gw_get
    (fun _ => Ok (mkResolved digest_b sample_manifest)) (fun _ _ => answer)
    (fun _ _ => Err (ErrNew "no reviewer")).

Definition gw_meeting (answer : res (AdapterResult pb_ImplementationProposal)) : gw_circumstances :=
  mkGwCircumstances (gw_tools answer) Answered Commits (at_time 60) None.

(** ** Calls *)

Definition no_start : InvocationStart := mkInvocationStart "" no_reference "" None "" 0 "" zero_time.

Definition gw_entering : gw_call :=
  mkGwCall (ImplementationCall sample_checked_request)
    (match ProposeImplementation_entry DefaultByteLimits (fun body => Ok (reference_to body)) None
             (at_time 30) (Some sample_checked_request) with
     | Ok (inr start) => start
     | _ => no_start
     end) GwInserting.

Lemma gw_entering_enters : gw_enters DefaultByteLimits gw_entering.
Proof.
  split; [done|]. exists (fun body => Ok (reference_to body)), None, (at_time 30).
  vm_compute. reflexivity.
Qed.

(** A call comes in, or the call [i] makes a step in which the provider answers
    or fails. *)
Definition gw_play (m : option (nat * bool)) : action :=
  match m with
  | None => Enter gw_entering
  | Some (i, answers) =>
      Step i (gw_meeting (if answers then Ok answered_once else Err (ErrNew "overloaded")))
  end.

Local Abbreviation step := (gw_step DefaultByteLimits).

Definition gw_script (l : list (option (nat * bool))) (sys : world invocations gw_call)
    : world invocations gw_call := drive step (map gw_play l) sys.

Lemma gw_plays_admissible l :
  Forall (admissible (gw_enters DefaultByteLimits) (fun _ => True)) (map gw_play l).
Proof. apply Forall_map, Forall_true. intros [[i b]|]; [done|exact gw_entering_enters]. Qed.

Definition idle : world invocations gw_call := mkWorld ∅ empty_db [].

Lemma gw_script_invoking l : invoking DefaultByteLimits (gw_script l idle).
Proof. apply drive_started; [apply reachable_empty|apply gw_plays_admissible]. Qed.

Definition no_gw_call : gw_call := mkGwCall (ImplementationCall sample_checked_request) no_start GwInserting.
Definition gw_call_at (i : nat) (sys : world invocations gw_call) : gw_call := nth i (calls sys) no_gw_call.

Definition gw_returned (c : gw_call) : gw_outcome :=
  match gc_phase c with
  | GwReturned (Ok o) => o
  | _ => ImplementationOutcome (unrecorded (mkProposalRejection 0 "" [] false "" "" None 0 None))
  end.

(** ** Histories *)

Definition by_call (i n : nat) : list (option (nat * bool)) := replicate n (Some (i, true)).

(** Two calls come in together: the first asks, the second finds the row in
    progress and waits. *)
Definition asking_world : world invocations gw_call :=
  gw_script (None :: None :: by_call 0 1 ++ by_call 1 2) idle.

(** The first call records its outcome, the second one replays it. *)
Definition recorded_world : world invocations gw_call :=
  gw_script (None :: None :: by_call 0 1 ++ by_call 1 2 ++ by_call 0 3 ++ by_call 1 4) idle.

Example recorded_outcomes :
  map (fun i => match gw_returned (gw_call_at i recorded_world) with
                | ImplementationOutcome o =>
                    (match Outcome_Proposal o with Some p => ip_summary p | None => "" end, Outcome_Replay o)
                | ReviewOutcome _ => ("review", false)
                end) [0%nat; 1%nat] =
  [("adds a file", false); ("adds a file", true)].
Proof. vm_compute. reflexivity. Qed.

Lemma provider_asked_by_one_witness :
  exists row, shared asking_world !! "REQ-1" = Some row /\ vr_state row = InProgress /\
    vr_digest row = SHA256 (Start_RequestArtifact (gc_start (gw_call_at 0 asking_world))).
Proof.
  apply (provider_asked_by_one DefaultByteLimits asking_world 0 1 (gw_call_at 0 asking_world)
    (gw_call_at 1 asking_world)).
  - apply gw_script_invoking.
  - vm_compute. reflexivity.
  - vm_compute. reflexivity.
  - vm_compute. exact I.
Defined.

Lemma invocation_decided_once_witness :
  SHA256 (Start_RequestArtifact (gc_start (gw_call_at 0 recorded_world))) =
    SHA256 (Start_RequestArtifact (gc_start (gw_call_at 1 recorded_world))) /\
  gw_summary (gw_returned (gw_call_at 0 recorded_world)) =
    gw_summary (gw_returned (gw_call_at 1 recorded_world)).
Proof.
  apply (invocation_decided_once DefaultByteLimits recorded_world 0 1 (gw_call_at 0 recorded_world)
    (gw_call_at 1 recorded_world)).
  - apply gw_script_invoking.
  - vm_compute. reflexivity.
  - vm_compute. reflexivity.
  - vm_compute. reflexivity.
  - vm_compute. reflexivity.
  - vm_compute. reflexivity.
Defined.

Lemma outcomes_sound_witness :
  let o := gw_returned (gw_call_at 1 recorded_world) in
  has_proposal o = true /\ has_rejection o = negb (has_proposal o) /\
  (forall code text retryable, sm_rejection (gw_summary o) = Some (code, text, retryable) ->
     1 <= code <= 5) /\
  outcome_sound (gw_call_at 1 recorded_world) o.
Proof.
  intros o. split; [vm_compute; reflexivity|].
  apply (outcomes_sound DefaultByteLimits recorded_world 1 (gw_call_at 1 recorded_world) o).
  - apply gw_script_invoking.
  - vm_compute. reflexivity.
  - vm_compute. reflexivity.
Defined.

(** The provider fails. *)
Definition failing_world : world invocations gw_call :=
  gw_script [None; Some (0%nat, true); Some (0%nat, false)] idle.

Definition provider_failed : error := ErrWrap (ErrNew "overloaded") "propose implementation".

Definition no_invocation : invocation_row := mkInvocationRow "" "" "" None "" 0 "" 0 InProgress.

Lemma failing_row :
  shared failing_world !! "REQ-1" = Some (default no_invocation (shared failing_world !! "REQ-1")).
Proof. vm_compute. reflexivity. Qed.

Lemma failed_invocation_frees_request_witness :
  let c := gw_call_at 0 failing_world in
  exists s', step (gw_meeting (Ok answered_once)) c (shared failing_world) empty_db =
      (gw_at (GwReturned (Err provider_failed)) c, s', empty_db) /\
    s' !! "REQ-1" = None /\
    exists s'', step (gw_meeting (Ok answered_once)) gw_entering s' empty_db =
      (gw_at (GwInvoking (active_handle gw_entering)) gw_entering, s'', empty_db).
Proof.
  intros c. apply (failed_invocation_frees_request DefaultByteLimits failing_world 0 c
    (active_handle gw_entering) provider_failed (gw_meeting (Ok answered_once))
    (gw_meeting (Ok answered_once)) gw_entering empty_db empty_db
    (default no_invocation (shared failing_world !! "REQ-1"))).
  - apply gw_script_invoking.
  - vm_compute. reflexivity.
  - vm_compute. reflexivity.
  - reflexivity.
  - exact failing_row.
  - vm_compute. reflexivity.
  - vm_compute. reflexivity.
  - reflexivity.
  - vm_compute. reflexivity.
  - vm_compute. reflexivity.
  - reflexivity.
  - vm_compute. reflexivity.
  - reflexivity.
  - eexists. split; [vm_compute; reflexivity|vm_compute; reflexivity].
Defined.
