(* ===== verification/Approval.v ===== *)
(** * Human approval of tasks: requests, risk and authority

    Models [go/internal/approval/types.go] and the decisions of [service.go]
    that need no state: the validation of a request against its review report,
    the classification of elevated risk, the authority of the principal, the
    digest of a request, and the artifact and the command of a decision.  The
    store of artifacts and the strict decoder of review reports are parameters
    of a call; [strings.ToLower] is a parameter on the runes that are not
    ASCII. *)

From S2P Require Import Prelude GoStd GoJson GoText WfTypes WfTask WfDigest CtMessages.

Definition ApErrInvalidRequest : error := ErrNew "invalid task approval request".
Definition ApErrUnauthorized : error := ErrNew "task approval principal is unauthorized".
Definition ErrElevatedRole : error := ErrNew "elevated approval role is required".
Definition ErrArtifactIntegrity : error := ErrNew "task approval artifact integrity check failed".
Definition ErrApprovalConflict : error := ErrNew "approval ID already has different content".
Definition ErrApprovalState : error := ErrNew "invalid approval ledger state".

(** ** Data *)

Definition RoleApprover : string := "approver".
Definition RoleElevatedApprover : string := "elevated_approver".

Record Principal := mkPrincipal { Principal_ID : string; Roles : list string }.

Record ApprovalRequest := mkApprovalRequest {
  ApprovalID : string;
  DecisionTimestamp : time;
  Request_Principal : Principal;
  Request_RunID : string;
  Request_TaskID : string;
  Request_CandidateCommit : string;
  ApprovedSpecificationDigest : string;
  ApprovedTaskDigest : string;
  ActualChangedPaths : list string;
  ExclusiveResourceLabels : list string;
  Request_Implementation : ArtifactRef;
  Request_Execution : ArtifactRef;
  Request_Verification : ArtifactRef;
  Request_Review : ArtifactRef;
  ExpectedTaskRevision : Z;
}.

Record ApprovalResult := mkApprovalResult {
  Result_ApprovalID : string;
  Decision : string;
  ApprovalArtifact : ArtifactRef;
  Elevated : bool;
  RiskReasons : list string;
  Result_Replayed : bool;
}.

Record ApprovalStart := mkApprovalStart {
  Start_ApprovalID : string;
  RequestDigest : string;
  RequestedAt : time;
  Start_PrincipalID : string;
  Start_RunID : string;
  Start_TaskID : string;
  Start_CandidateCommit : string;
  Start_SpecificationDigest : string;
  Start_TaskDigest : string;
  ImplementationDigest : string;
  ExecutionDigest : string;
  VerificationDigest : string;
  ReviewDigest : string;
}.

Record DecisionCheckpoint := mkDecisionCheckpoint {
  Checkpoint_Result : ApprovalResult;
  Reason : string;
}.

(** A review report as [go/internal/review/types.go] declares it. *)
Record ReviewReport := mkReviewReport {
  Report_SchemaVersion : string;
  Report_ReviewID : string;
  Report_ReviewedAt : string;
  Report_RunID : string;
  Report_TaskID : string;
  Report_Attempt : Z;
  Report_CandidateCommit : string;
  Report_SpecificationDigest : string;
  Report_TaskDigest : string;
  Report_ImplementationProposalDigest : string;
  Report_Request : ArtifactRef;
  Report_Proposal : ArtifactRef;
  Report_Execution : ArtifactRef;
  Report_Verification : ArtifactRef;
  Report_Findings : list pb_ReviewFinding;
  Report_RequiredActions : list pb_RequiredAction;
  Report_Recommendation : string;
  Report_BlockingFindingIDs : list string;
  Report_UnrequestedChanges : list string;
  Report_ExclusiveResources : list string;
  Report_Passed : bool;
}.

(** ** Risk *)

Class Unicode := { unicode_ToLower : string -> string }.

(** Any lower-casing of the runes beyond ASCII. *)
#[export] Instance sample_unicode : Unicode := {| unicode_ToLower r := r |}.

Definition lower_ascii (c : ascii) : ascii :=
  if is_upper c then byte (Z.to_nat (byte_of c + 32)) else c.

Definition lower_rune `{Unicode} (r : string) : string :=
  match r with
  | String c "" => String (lower_ascii c) ""
  | _ => unicode_ToLower r
  end.

(** [strings.ToLower] *)
Definition ToLower `{Unicode} (s : string) : string :=
  map_runes (String.length s) lower_rune replacement s.

Definition protectedLabels : list string :=
  ["dependency-manifest"; "database-schema"; "public-api-contract"; "authentication-policy";
   "authorization-policy"; "deployment-configuration"].

Definition protectedPath `{Unicode} (value : string) : bool :=
  let base := path_Base value in
  if bool_decide (base ∈ ["go.mod"; "go.sum"; "pyproject.toml"; "uv.lock"]) then true
  else
    let lower := ToLower value in
    HasSuffix lower ".proto" ||
    (HasSuffix lower ".sql" && Contains lower "migration") ||
    Contains lower "/schema/" || HasPrefix lower "schema/" ||
    HasPrefix value ".github/workflows/" ||
    HasPrefix lower "deploy/" || Contains lower "/deploy/" ||
    HasPrefix lower "k8s/" || Contains lower "/k8s/" ||
    HasPrefix base "Dockerfile".

Definition risk_reasons `{Unicode} (changedPaths resourceLabels : list string) : gset string :=
  let reasons := foldl (fun reasons label =>
    if bool_decide (label ∈ protectedLabels) then {["resource:" +:+ label]} ∪ reasons
    else reasons) ∅ resourceLabels in
  foldl (fun reasons changedPath =>
    if protectedPath changedPath then {["path:" +:+ changedPath]} ∪ reasons else reasons)
    reasons changedPaths.

(** The reasons, in the order of their bytes ([sort.Strings]). *)
Definition ClassifyElevatedRisk `{Platform} `{Unicode} (changedPaths resourceLabels : list string)
    : list string :=
  merge_sort String.le (arbitrary_order (elements (risk_reasons changedPaths resourceLabels))).

(** ** Authority *)

Definition authorize (principal : Principal) (elevated : bool) (decision : string) : res unit :=
  let hasApprover := bool_decide (RoleApprover ∈ Roles principal) in
  let hasElevated := bool_decide (RoleElevatedApprover ∈ Roles principal) in
  if negb hasApprover && negb hasElevated then Err ApErrUnauthorized
  else if (decision == "approve") && elevated && negb hasElevated then Err ErrElevatedRole
  else Ok tt.

Definition normalizedPrincipal (value : Principal) : Principal :=
  mkPrincipal (Principal_ID value) (merge_sort String.le (Roles value)).

(** ** Validation *)

(** [^[a-z0-9][a-z0-9-]{0,62}$] *)
Definition labelPattern : string -> bool :=
  let alnum c := is_lower c || is_digit c in
  matches (Cat (Class alnum) (up_to 62 (Class (fun c => alnum c || (c == "-"%char))))).

Definition safeRepoPath (value : string) : bool :=
  (value != "") && negb (path_IsAbs value) && (path_Clean value == value) &&
  negb (HasPrefix value "../") && negb (Contains value (String backslash "")).

Definition validateRiskInputs (request : ApprovalRequest) : res unit :=
  for_each (fun changedPath =>
    if negb (safeRepoPath changedPath) then Err (ErrWrap ApErrInvalidRequest "changed path")
    else Ok tt) (ActualChangedPaths request) ;;
  for_each (fun label =>
    if negb (labelPattern label) then Err (ErrWrap ApErrInvalidRequest "resource label")
    else Ok tt) (ExclusiveResourceLabels request).

Definition reviewInputMatches (r : ReviewReport) : bool :=
  (Report_SchemaVersion r == "1") && (URI (Report_Request r) != "") &&
  (URI (Report_Proposal r) != "").

Definition reviewReportMatches (report : ReviewReport) (request : ApprovalRequest) : bool :=
  Report_Passed report && (Report_RunID report == Request_RunID request) &&
  (Report_TaskID report == Request_TaskID request) &&
  (Report_CandidateCommit report == Request_CandidateCommit request) &&
  (Report_SpecificationDigest report == ApprovedSpecificationDigest request) &&
  (Report_TaskDigest report == ApprovedTaskDigest request) &&
  (Report_ImplementationProposalDigest report == Digest (Request_Implementation request)) &&
  ArtifactRef_Equal (Report_Execution report) (Request_Execution request) &&
  ArtifactRef_Equal (Report_Verification report) (Request_Verification request) &&
  reviewInputMatches report.

(** What a call finds outside: the store of artifacts, and the strict decoder
    of a review report, which gives the report and what follows it. *)
Record surroundings := mkSurroundings {
  Get : ArtifactRef -> res string;
  Put : string -> res ArtifactRef;
  Decode : string -> option (ReviewReport * string);
  at_EOF : string -> bool;
}.

Section service.
Context `{Platform} `{Unicode}.

Definition validateRequestIdentity (request : ApprovalRequest) : res unit :=
  if negb (uuid_Parse_ok (ApprovalID request)) ||
     negb (uuid_Parse_ok (Principal_ID (Request_Principal request))) ||
     negb (uuid_Parse_ok (Request_RunID request)) || negb (uuid_Parse_ok (Request_TaskID request)) ||
     IsZero (DecisionTimestamp request) || negb (match_hex 40 (Request_CandidateCommit request)) ||
     negb (match_hex 64 (ApprovedSpecificationDigest request)) ||
     negb (match_hex 64 (ApprovedTaskDigest request)) || (ExpectedTaskRevision request =? 0) ||
     (length (ActualChangedPaths request) =? 0)%nat
  then Err ApErrInvalidRequest else Ok tt.

Definition fetchVerifiedArtifact (env : surroundings) (ref : ArtifactRef) : res string :=
  map_err (fun _ => ErrWrap ApErrInvalidRequest "artifact reference") (ArtifactRef_Validate ref) ;;
  body ← map_err (fun e => ErrWrap e "load approval input artifact") (Get env ref);
  if sha256_hex body != Digest ref then Err ErrArtifactIntegrity else Ok body.

Definition validateInputArtifacts (env : surroundings) (request : ApprovalRequest) : res unit :=
  for_each (fun ref => fetchVerifiedArtifact env ref ;; Ok tt)
    [Request_Implementation request; Request_Execution request; Request_Verification request].

Definition decodeReviewReport (env : surroundings) (body : string) : res ReviewReport :=
  match Decode env body with
  | None => Err (ErrWrap ErrArtifactIntegrity "decode review report")
  | Some (report, rest) =>
      if negb (at_EOF env rest) then Err (ErrWrap ErrArtifactIntegrity "review report trailer")
      else Ok report
  end.

Definition validateRequest (env : surroundings) (request : ApprovalRequest) : res unit :=
  validateRequestIdentity request ;;
  validateRiskInputs request ;;
  validateInputArtifacts env request ;;
  reportBody ← fetchVerifiedArtifact env (Request_Review request);
  report ← decodeReviewReport env reportBody;
  if negb (reviewReportMatches report request)
  then Err (ErrWrap ApErrInvalidRequest "trusted review binding") else Ok tt.

(** ** The digest of a request and the artifact of a decision *)

Definition principal_json (p : Principal) : json :=
  JObj [("id", JStr (Principal_ID p)); ("roles", slice_json JStr (Roles p))].

Definition request_json (request : ApprovalRequest) : res json :=
  timestamp ← time_json (DecisionTimestamp request);
  Ok (JObj [("ApprovalID", JStr (ApprovalID request)); ("DecisionTimestamp", timestamp);
    ("Principal", principal_json (Request_Principal request));
    ("RunID", JStr (Request_RunID request)); ("TaskID", JStr (Request_TaskID request));
    ("CandidateCommit", JStr (Request_CandidateCommit request));
    ("ApprovedSpecificationDigest", JStr (ApprovedSpecificationDigest request));
    ("ApprovedTaskDigest", JStr (ApprovedTaskDigest request));
    ("ActualChangedPaths", slice_json JStr (ActualChangedPaths request));
    ("ExclusiveResourceLabels", slice_json JStr (ExclusiveResourceLabels request));
    ("Implementation", artifact_json (Request_Implementation request));
    ("Execution", artifact_json (Request_Execution request));
    ("Verification", artifact_json (Request_Verification request));
    ("Review", artifact_json (Request_Review request));
    ("ExpectedTaskRevision", JNum (ExpectedTaskRevision request))]).

Definition approvalRequestDigest (request : ApprovalRequest) (decision reason : string)
    : res string :=
  body ← map_err (fun e => ErrWrap e "encode approval request") (request_json request);
  Ok (sha256_hex (json_text (JObj [("request", body); ("decision", JStr decision);
                                   ("reason", JStr reason)]))).

(** The artifact of a decision: the JSON of [TaskApproval]. *)
Definition approval_json (request : ApprovalRequest) (decision reason : string)
    (elevated : bool) (riskReasons : list string) : json :=
  JObj ([("schema_version", JStr "1"); ("approval_id", JStr (ApprovalID request));
    ("approver", principal_json (normalizedPrincipal (Request_Principal request)));
    ("decision", JStr decision);
    ("decision_timestamp", JStr (rfc3339_nano (UTC (DecisionTimestamp request))))] ++
    (if reason == "" then [] else [("reason", JStr reason)]) ++
    [("elevated", JBool elevated); ("risk_reasons", JArr (map JStr riskReasons));
    ("run_id", JStr (Request_RunID request)); ("task_id", JStr (Request_TaskID request));
    ("candidate_commit", JStr (Request_CandidateCommit request));
    ("approved_specification_digest", JStr (ApprovedSpecificationDigest request));
    ("approved_task_digest", JStr (ApprovedTaskDigest request));
    ("implementation", artifact_json (Request_Implementation request));
    ("execution", artifact_json (Request_Execution request));
    ("verification", artifact_json (Request_Verification request));
    ("review", artifact_json (Request_Review request))]).

Definition storeApproval (env : surroundings) (body : string) : res ArtifactRef :=
  artifact ← map_err (fun e => ErrWrap e "store task approval") (Put env body);
  if negb (is_Ok (ArtifactRef_Validate artifact)) || (Digest artifact != sha256_hex body)
  then Err ErrArtifactIntegrity else Ok artifact.

Definition NameSpaceURL : string := "6ba7b811-9dad-11d1-80b4-00c04fd430c8".

Definition approval_id (request : ApprovalRequest) (label : string) : string :=
  uuid_NewSHA1 NameSpaceURL ("harness:approval:" +:+ ApprovalID request +:+ ":" +:+ label).

Definition approvalCommand (request : ApprovalRequest) (decision reason : string)
    (approval : ArtifactRef) : TaskCommand :=
  let meta := mkEnvelope (approval_id request "apply")
    (mkActor (Principal_ID (Request_Principal request)) ActorHuman)
    (ExpectedTaskRevision request) (UTC (DecisionTimestamp request))
    (approval_id request "correlation") (approval_id request "apply:cause") in
  if decision == "approve"
  then ApproveTask meta (Request_RunID request) (Request_TaskID request)
         (Request_CandidateCommit request) (Request_Review request) approval
  else RequireTaskRework meta (Request_RunID request) (Request_TaskID request)
         (Request_CandidateCommit request) (Request_Review request) reason.

(** What [decide] does between the reservation and the checkpoint. *)
Definition decision_of (env : surroundings) (request : ApprovalRequest) (decision reason : string)
    : res DecisionCheckpoint :=
  validateRequest env request ;;
  let riskReasons := ClassifyElevatedRisk (ActualChangedPaths request)
                       (ExclusiveResourceLabels request) in
  let elevated := (0 <? length riskReasons)%nat in
  authorize (Request_Principal request) elevated decision ;;
  artifact ← storeApproval env
    (json_text (approval_json request decision reason elevated riskReasons));
  Ok (mkDecisionCheckpoint
        (mkApprovalResult (ApprovalID request) decision artifact elevated riskReasons false) reason).

(** [RequireTaskRework] refuses the reason before anything else. *)
Definition rework_reason_ok (reason : string) : res unit :=
  if blank reason || (4096 <? String.length reason)%nat
  then Err (ErrWrap ApErrInvalidRequest "rework reason") else Ok tt.

Definition start_of (request : ApprovalRequest) (requestDigest : string) : ApprovalStart :=
  mkApprovalStart (ApprovalID request) requestDigest (DecisionTimestamp request)
    (Principal_ID (Request_Principal request)) (Request_RunID request) (Request_TaskID request)
    (Request_CandidateCommit request) (ApprovedSpecificationDigest request)
    (ApprovedTaskDigest request) (Digest (Request_Implementation request))
    (Digest (Request_Execution request)) (Digest (Request_Verification request))
    (Digest (Request_Review request)).

End service.
