(* ===== verification/ApService.v ===== *)
(** * The ledger and the service of approvals *)

From S2P Require Import Prelude GoStd GoJson WfTypes WfDb WfStore Interleave Approval PgRetry.
From S2P Require Import WfTask WfRun WfReplay WfInvariants.

(** * The ledger of approvals

    Models [go/internal/approval/repository.go] and the table of
    [migrations/0012_task_approvals.sql]: a row is reserved, then holds a
    decision, then is completed; the columns that are null in a state are not
    part of it.  A statement may be refused, or take effect while its answer
    is lost.  The primary key is a text column. *)

(** ** The table *)

Record decision_columns := mkDecisionColumns {
  dc_decision : string;
  dc_reason : string;
  dc_artifact_uri : string;
  dc_artifact_digest : string;
  dc_elevated : bool;
  dc_risk_reasons : json;
}.

Inductive approval_state :=
| Reserved
| DecisionReady (d : decision_columns)
| ApprovalCompleted (d : decision_columns) (completed_at : Z).

Record approval_row := mkApprovalRow {
  ar_request_digest : string;
  ar_requested_at : Z;
  ar_principal : string;
  ar_run : string;
  ar_task : string;
  ar_candidate_commit : string;
  ar_specification_digest : string;
  ar_task_digest : string;
  ar_implementation : string;
  ar_execution : string;
  ar_verification : string;
  ar_review : string;
  ar_state : approval_state;
}.

Abbreviation approvals := (gmap string approval_row).

Definition with_state (st : approval_state) (r : approval_row) : approval_row :=
  mkApprovalRow (ar_request_digest r) (ar_requested_at r) (ar_principal r) (ar_run r) (ar_task r)
    (ar_candidate_commit r) (ar_specification_digest r) (ar_task_digest r) (ar_implementation r)
    (ar_execution r) (ar_verification r) (ar_review r) st.

Definition row_decision (r : approval_row) : option decision_columns :=
  match ar_state r with
  | Reserved => None
  | DecisionReady d | ApprovalCompleted d _ => Some d
  end.

(** ** Statements *)

(** The row that [Begin] inserts, with the checks of its columns. *)
Definition reserved_row (start : ApprovalStart) : res (string * approval_row) :=
  id ← text_column (Start_ApprovalID start);
  request ← text_column (RequestDigest start);
  principal ← text_column (Start_PrincipalID start);
  run ← text_column (Start_RunID start);
  task ← text_column (Start_TaskID start);
  candidate ← text_column (Start_CandidateCommit start);
  specification ← text_column (Start_SpecificationDigest start);
  task_digest ← text_column (Start_TaskDigest start);
  implementation ← text_column (ImplementationDigest start);
  execution ← text_column (ExecutionDigest start);
  verification ← text_column (VerificationDigest start);
  review ← text_column (ReviewDigest start);
  if match_hex 64 request && match_hex 40 candidate && match_hex 64 specification &&
     match_hex 64 task_digest && match_hex 64 implementation && match_hex 64 execution &&
     match_hex 64 verification && match_hex 64 review
  then Ok (id, mkApprovalRow request (time_column (RequestedAt start)) principal run task candidate
             specification task_digest implementation execution verification review Reserved)
  else Err check_violation.

(** [INSERT ... ON CONFLICT (approval_id) DO NOTHING]: whether a row went in. *)
Definition insert_reservation (start : ApprovalStart) : tx approvals bool :=
  '(id, row) ← tx_lift (reserved_row start);
  s ← tx_get;
  if bool_decide (is_Some (s !! id)) then mret false
  else tx_put (<[id := row]> s) ;; mret true.

(** ** Handles *)

Record handle := mkHandle {
  h_start : ApprovalStart;
  h_owner : bool;
  h_decision : option DecisionCheckpoint;
  h_result : option ApprovalResult;
}.

Definition Handle_Replay (h : handle) : option ApprovalResult := h_result h.
Definition Handle_Decision (h : handle) : option DecisionCheckpoint := h_decision h.

Definition checkpoint_of (id : string) (d : decision_columns) : res DecisionCheckpoint :=
  reasons ← map_err (fun e => ErrWrap e "decode approval risk reasons")
              (decode_strings (Some (dc_risk_reasons d)));
  Ok (mkDecisionCheckpoint
        (mkApprovalResult id (dc_decision d)
           (mkArtifactRef (dc_artifact_uri d) (dc_artifact_digest d)) (dc_elevated d) reasons false)
        (dc_reason d)).

Definition pgx_ErrNoRows : error := ErrNew "pgx: no rows in result set".

(** The handle, and whether the row is only reserved. *)
Definition load (start : ApprovalStart) (s : approvals) : res (handle * bool) :=
  id ← text_column (Start_ApprovalID start);
  match s !! id with
  | None => Err pgx_ErrNoRows
  | Some r =>
      if ar_request_digest r != RequestDigest start then Err ErrApprovalConflict
      else
        match ar_state r with
        | Reserved => Ok (mkHandle start false None None, true)
        | DecisionReady d =>
            cp ← checkpoint_of (Start_ApprovalID start) d;
            Ok (mkHandle start false (Some cp) None, false)
        | ApprovalCompleted d _ =>
            cp ← checkpoint_of (Start_ApprovalID start) d;
            Ok (mkHandle start false (Some cp) (Some (Checkpoint_Result cp)), false)
        end
  end.

(** The parameters of the checkpoint, converted when the statement is bound. *)
Definition decision_row (cp : DecisionCheckpoint) : res decision_columns :=
  let result := Checkpoint_Result cp in
  decision ← text_column (Decision result);
  reason ← text_column (Reason cp);
  uri ← text_column (URI (ApprovalArtifact result));
  digest ← text_column (Digest (ApprovalArtifact result));
  risks ← jsonb_column (JArr (map JStr (RiskReasons result)));
  Ok (mkDecisionColumns decision reason uri digest (Elevated result) risks).

Definition decision_check (d : decision_columns) : bool :=
  bool_decide (dc_decision d ∈ ["approve"; "rework"]) && match_hex 64 (dc_artifact_digest d).

(** [UPDATE ... WHERE approval_id=$1 AND state='reserved']: whether a row was
    updated.  The checks apply to a row that is. *)
Definition update_reserved (start : ApprovalStart) (cp : DecisionCheckpoint) : tx approvals bool :=
  id ← tx_lift (text_column (Start_ApprovalID start));
  d ← tx_lift (decision_row cp);
  s ← tx_get;
  match s !! id with
  | Some r =>
      match ar_state r with
      | Reserved =>
          if decision_check d
          then tx_put (<[id := with_state (DecisionReady d) r]> s) ;; mret true
          else tx_err check_violation
      | _ => mret false
      end
  | None => mret false
  end.

Definition SaveDecision (w : reply) (h : handle) (cp : DecisionCheckpoint) (s : approvals)
    : res unit * handle * approvals :=
  if negb (h_owner h) || bool_decide (is_Some (h_decision h)) then (Err ErrApprovalState, h, s)
  else
    match statement w (update_reserved (h_start h) cp) s with
    | (Err e, s') => (Err (ErrWrap e "checkpoint task approval"), h, s')
    | (Ok true, s') => (Ok tt, mkHandle (h_start h) false (Some cp) (h_result h), s')
    | (Ok false, s') => (Err ErrApprovalState, h, s')
    end.

(** [UPDATE ... SET state='completed' WHERE state='decision_ready'], at the
    database's clock. *)
Definition update_ready (start : ApprovalStart) (clock : Z) : tx approvals bool :=
  id ← tx_lift (text_column (Start_ApprovalID start));
  s ← tx_get;
  match s !! id with
  | Some r =>
      match ar_state r with
      | DecisionReady d => tx_put (<[id := with_state (ApprovalCompleted d clock) r]> s) ;; mret true
      | _ => mret false
      end
  | None => mret false
  end.

(** The second look of [Complete] at a row it did not update. *)
Definition completed_same (w : reply) (h : handle) (result : ApprovalResult) (s : approvals)
    : res unit :=
  match query w (load (h_start h)) s with
  | Ok (mkHandle _ _ _ (Some r), _) =>
      if ArtifactRef_Equal (ApprovalArtifact r) (ApprovalArtifact result) &&
         (Decision r == Decision result)
      then Ok tt else Err ErrApprovalConflict
  | _ => Err ErrApprovalConflict
  end.

(** [Complete]: the second reply is for the second statement, which reads a row
    that no longer changes. *)
Definition Complete (w w2 : reply) (clock : Z) (h : handle) (result : ApprovalResult)
    (s : approvals) : res unit * handle * approvals :=
  if bool_decide (h_decision h = None) then (Err ErrApprovalState, h, s)
  else
    match statement w (update_ready (h_start h) clock) s with
    | (Err e, s') => (Err (ErrWrap e "complete task approval"), h, s')
    | (Ok true, s') =>
        (Ok tt, mkHandle (h_start h) (h_owner h) (h_decision h) (Some result), s')
    | (Ok false, s') => (completed_same w2 h result s', h, s')
    end.

(** [DELETE ... WHERE approval_id=$1 AND state='reserved'] *)
Definition delete_reserved (start : ApprovalStart) : tx approvals bool :=
  id ← tx_lift (text_column (Start_ApprovalID start));
  s ← tx_get;
  match s !! id with
  | Some r =>
      match ar_state r with
      | Reserved => tx_put (delete id s) ;; mret true
      | _ => mret false
      end
  | None => mret false
  end.

(** The error of the deferred rollback is dropped by its caller. *)
Definition Rollback (w : reply) (h : handle) (s : approvals) : approvals :=
  if negb (h_owner h) || bool_decide (is_Some (h_decision h)) || bool_decide (is_Some (h_result h))
  then s
  else snd (statement w (delete_reserved (h_start h)) s).

(** * The approval service over its ledger and the workflow store

    Models [Service.decide] and [applyCheckpoint] of
    [go/internal/approval/service.go].  A call is where it stands in [decide];
    one step of it is one statement of the ledger, or the reading and storing
    of artifacts, or the execution of the command by the workflow store.  The
    calls of any number of processes interleave with each other and with
    everything else that uses the workflow store; a call that makes no more
    steps has crashed. *)

(** ** A call *)

Inductive phase :=
| Reserving                                          (** before the insertion of [Begin] *)
| Loading                                            (** before its [load] *)
| Begun (h : handle)
| Checkpointing (h : handle) (cp : DecisionCheckpoint)
| Applying (h : handle) (cp : DecisionCheckpoint)
| Completing (h : handle) (result : ApprovalResult)
| Returning (h : handle) (r : res ApprovalResult)    (** before the deferred rollback *)
| Returned (r : res ApprovalResult).

Record call := mkCall {
  call_request : ApprovalRequest;
  call_decision : string;
  call_reason : string;
  call_digest : string;
  call_phase : phase;
}.

Definition at_phase (p : phase) (c : call) : call :=
  mkCall (call_request c) (call_decision c) (call_reason c) (call_digest c) p.

Definition call_start (c : call) : ApprovalStart := start_of (call_request c) (call_digest c).

(** What a step meets. *)
Record circumstances := mkCircumstances {
  around : surroundings;
  ledger_reply : reply;
  second_reply : reply;
  ledger_clock : Z;
  cancelled : option error;              (** [ctx.Done] while [Begin] waits *)
  climate : nat -> weather;
  ctx_done : nat -> option error;
}.

Definition set_replayed (v : bool) (r : ApprovalResult) : ApprovalResult :=
  mkApprovalResult (Result_ApprovalID r) (Decision r) (ApprovalArtifact r) (Elevated r)
    (RiskReasons r) v.

Section service.
Context `{Platform} `{Unicode}.

(** The entry of [decide]: the digest, or the error that is returned. *)
Definition Service_decide (request : ApprovalRequest) (decision reason : string) : call :=
  match approvalRequestDigest request decision reason with
  | Ok digest => mkCall request decision reason digest Reserving
  | Err e => mkCall request decision reason "" (Returned (Err e))
  end.

Definition ApproveTask_call (request : ApprovalRequest) : call := Service_decide request "approve" "".

Definition RequireTaskRework_call (request : ApprovalRequest) (reason : string) : call :=
  match rework_reason_ok reason with
  | Ok _ => Service_decide request "rework" reason
  | Err e => mkCall request "rework" reason "" (Returned (Err e))
  end.

(** What [decide] makes of the handle it was given. *)
Definition examine (env : surroundings) (c : call) (h : handle) : phase :=
  match Handle_Replay h with
  | Some replay => Returning h (Ok (set_replayed true replay))
  | None =>
      match Handle_Decision h with
      | Some checkpoint => Applying h checkpoint
      | None =>
          match decision_of env (call_request c) (call_decision c) (call_reason c) with
          | Ok checkpoint => Checkpointing h checkpoint
          | Err e => Returning h (Err e)
          end
      end
  end.

Definition command_of (c : call) (cp : DecisionCheckpoint) : TaskCommand :=
  approvalCommand (call_request c) (Decision (Checkpoint_Result cp)) (Reason cp)
    (ApprovalArtifact (Checkpoint_Result cp)).

(** One step of a call over the table of approvals and the workflow store. *)
Definition call_step (x : circumstances) (c : call) (s : approvals) (w : db)
    : call * approvals * db :=
  match call_phase c with
  | Reserving =>
      match statement (ledger_reply x) (insert_reservation (call_start c)) s with
      | (Err e, s') => (at_phase (Returned (Err (ErrWrap e "reserve task approval"))) c, s', w)
      | (Ok true, s') => (at_phase (Begun (mkHandle (call_start c) true None None)) c, s', w)
      | (Ok false, s') => (at_phase Loading c, s', w)
      end
  | Loading =>
      match query (ledger_reply x) (load (call_start c)) s with
      | Err e =>
          if errors_Is e pgx_ErrNoRows then (at_phase Reserving c, s, w)
          else (at_phase (Returned (Err e)) c, s, w)
      | Ok (h, false) => (at_phase (Begun h) c, s, w)
      | Ok (_, true) =>
          match cancelled x with
          | Some e => (at_phase (Returned (Err e)) c, s, w)
          | None => (at_phase Reserving c, s, w)
          end
      end
  | Begun h => (at_phase (examine (around x) c h) c, s, w)
  | Checkpointing h cp =>
      match SaveDecision (ledger_reply x) h cp s with
      | (Ok _, h', s') => (at_phase (Applying h' cp) c, s', w)
      | (Err e, h', s') =>
          (at_phase (Returning h' (Err (ErrWrap e "checkpoint human task decision"))) c, s', w)
      end
  | Applying h cp =>
      match ExecuteTask (climate x) (ctx_done x) (command_of c cp) w with
      | (Ok r, w') =>
          (at_phase (Completing h (set_replayed (Replay r) (Checkpoint_Result cp))) c, s, w')
      | (Err e, w') => (at_phase (Returning h (Err (ErrWrap e "apply human task decision"))) c, s, w')
      end
  | Completing h result =>
      match Complete (ledger_reply x) (second_reply x) (ledger_clock x) h result s with
      | (Ok _, h', s') => (at_phase (Returning h' (Ok result)) c, s', w)
      | (Err e, h', s') =>
          (at_phase (Returning h' (Err (ErrWrap e "complete human task decision"))) c, s', w)
      end
  | Returning h r => (at_phase (Returned r) c, Rollback (ledger_reply x) h s, w)
  | Returned r => (c, s, w)
  end.

(** ** The system *)

Definition entered (c : call) : Prop :=
  exists request decision reason, c = Service_decide request decision reason.

(** The surroundings that a step meets are among the [possible] ones. *)
Definition fair_in (possible : surroundings -> Prop) (x : circumstances) : Prop :=
  fair_climate (climate x) /\ possible (around x).

Definition fair : circumstances -> Prop := fair_in anything.

(** A system that started with an empty table of approvals, and whose steps met none but
    [possible] surroundings: what holds for every such predicate holds for the one that
    accepts exactly the surroundings that the steps of this history met. *)
Definition running_in (possible : surroundings -> Prop) (sys : world approvals call) : Prop :=
  started call_step entered (fair_in possible) ∅ sys.

Definition running : world approvals call -> Prop := running_in anything.

End service.

(** The abbreviations of the section, for its clients. *)
Abbreviation system := (world approvals call).
Abbreviation mkSystem := (@mkWorld approvals call).
Abbreviation sys_approvals := (@shared approvals call).
Abbreviation sys_workflow := (@store approvals call).
Abbreviation sys_calls := (@calls approvals call).
Abbreviation system_step_in possible := (world_step call_step entered (fair_in possible)).
Abbreviation system_step := (world_step call_step entered fair).
