(* ===== verification/ApInvariants.v ===== *)
(** * How the ledger of approvals evolves and what it keeps true *)

From S2P Require Import Prelude GoStd GoJson PgRetry WfTypes WfTask WfDb WfStore.
From S2P Require Import WfStoreLemmas WfReplay WfInvariants Interleave Approval ApService.
From S2P Require Import WfRun.

(** * What always holds of the approvals

    The invariant of a running system: who owns a reservation, where every
    decision came from, and what a call knows of its row. *)

(** ** Statements *)

Section ledger.
Context `{Platform} `{Unicode}.

(** What one statement does to the row of its identifier. *)
Inductive row_change (id : string) (s : approvals) : approvals -> Prop :=
| row_same : row_change id s s
| row_reserved start row :
    s !! id = None -> reserved_row start = Ok (id, row) -> row_change id s (<[id := row]> s)
| row_decided row cp d :
    s !! id = Some row -> ar_state row = Reserved -> decision_row cp = Ok d ->
    row_change id s (<[id := with_state (DecisionReady d) row]> s)
| row_completed row d at_ :
    s !! id = Some row -> ar_state row = DecisionReady d ->
    row_change id s (<[id := with_state (ApprovalCompleted d at_) row]> s)
| row_deleted row :
    s !! id = Some row -> ar_state row = Reserved -> row_change id s (delete id s).

Lemma reserved_row_id start id row :
  reserved_row start = Ok (id, row) ->
  id = Start_ApprovalID start /\ ar_request_digest row = RequestDigest start /\ ar_state row = Reserved.
Proof.
  unfold reserved_row. intros Hr. go_run Hr. simplify_eq. cbn.
  repeat match goal with Hx : text_column _ = Ok _ |- _ => apply text_column_Ok in Hx end.
  by subst.
Qed.

Lemma insert_reservation_Ok start s b s' :
  insert_reservation start s = Ok (b, s') ->
  exists row, reserved_row start = Ok (Start_ApprovalID start, row) /\
    ((b = true /\ s !! Start_ApprovalID start = None /\ s' = <[Start_ApprovalID start := row]> s) \/
     (b = false /\ is_Some (s !! Start_ApprovalID start) /\ s' = s)).
Proof.
  unfold insert_reservation. intros Hr. tx_open Hr;
    match goal with Hrow : reserved_row _ = Ok (_, ?row) |- _ =>
      pose proof (reserved_row_id _ _ _ Hrow) as (-> & _ & _); exists row; split; [done|] end.
  - apply bool_decide_eq_true in Hc. by right.
  - apply bool_decide_eq_false in Hc. left. split; [done|]. split; [|done].
    destruct (_ !! _) eqn:E; [|done]. destruct Hc. by eexists.
Qed.

(** Opens an update of the row of an identifier. *)
Ltac open_update Hr :=
  tx_open Hr;
  match goal with Hid : text_column (Start_ApprovalID _) = Ok _ |- _ =>
    apply text_column_Ok in Hid as -> end;
  repeat match type of Hr with
  | (match ?c with _ => _ end) _ = Ok _ =>
      let E := fresh "Hc" in destruct c eqn:E; tx_open Hr
  end.

Lemma update_reserved_Ok start cp s b s' :
  update_reserved start cp s = Ok (b, s') ->
  (b = false /\ s' = s) \/
  (b = true /\ exists row d, s !! Start_ApprovalID start = Some row /\ ar_state row = Reserved /\
    decision_row cp = Ok d /\ s' = <[Start_ApprovalID start := with_state (DecisionReady d) row]> s).
Proof. unfold update_reserved. intros Hr. open_update Hr; try (by left). right. split; [done|]. eexists _, _. by split_and!. Qed.

Lemma update_ready_Ok start clock s b s' :
  update_ready start clock s = Ok (b, s') ->
  (b = false /\ s' = s) \/
  (b = true /\ exists row d, s !! Start_ApprovalID start = Some row /\ ar_state row = DecisionReady d /\
    s' = <[Start_ApprovalID start := with_state (ApprovalCompleted d clock) row]> s).
Proof. unfold update_ready. intros Hr. open_update Hr; try (by left). right. split; [done|]. eexists _, _. by split_and!. Qed.

Lemma delete_reserved_Ok start s b s' :
  delete_reserved start s = Ok (b, s') ->
  s' = s \/ exists row, s !! Start_ApprovalID start = Some row /\ ar_state row = Reserved /\
    s' = delete (Start_ApprovalID start) s.
Proof. unfold delete_reserved. intros Hr. open_update Hr; try (by left). right. eexists. by split_and!. Qed.

Lemma SaveDecision_Ok w h cp s r h' s' :
  SaveDecision w h cp s = (r, h', s') ->
  (s' = s /\ h' = h /\ exists e, r = Err e) \/
  (h_owner h = true /\ h_decision h = None /\
   (exists row d, s !! Start_ApprovalID (h_start h) = Some row /\ ar_state row = Reserved /\
     decision_row cp = Ok d /\
     s' = <[Start_ApprovalID (h_start h) := with_state (DecisionReady d) row]> s) /\
   ((exists e, r = Err e /\ h' = h) \/
    (r = Ok tt /\ h' = mkHandle (h_start h) false (Some cp) (h_result h)))).
Proof.
  unfold SaveDecision. destruct (h_owner h) eqn:Ho; cbn; [|intros [= <- <- <-]; left; by eauto].
  case_bool_decide as Hd; [intros [= <- <- <-]; left; by eauto|].
  assert (h_decision h = None) as Hn by (destruct (h_decision h); [destruct Hd; by eexists|done]).
  destruct (statement _ _ _) as [[[]|e] s1] eqn:E; intros [= <- <- <-];
    apply statement_cases in E as [[-> Hno]|(a & Hup & Ha)];
    try (by destruct (Hno _ eq_refl)); try (left; by split_and!; eauto);
    try pose proof (Ha _ eq_refl) as <-;
    apply update_reserved_Ok in Hup as [[Hb ->]|[Hb (row & d & Hup)]]; try done;
    try (left; by split_and!; eauto); right; (split; [done|]); (split; [done|]);
    (split; [by exists row, d|]); [by right|left; by eexists].
Qed.

Lemma Complete_Ok w w2 clock h result s r h' s' :
  Complete w w2 clock h result s = (r, h', s') ->
  h_start h' = h_start h /\ h_owner h' = h_owner h /\ h_decision h' = h_decision h /\
  (h_result h' = h_result h \/ h_result h' = Some result) /\
  (s' = s \/ exists row d, s !! Start_ApprovalID (h_start h) = Some row /\
     ar_state row = DecisionReady d /\
     s' = <[Start_ApprovalID (h_start h) := with_state (ApprovalCompleted d clock) row]> s).
Proof.
  unfold Complete. case_bool_decide; [intros [= <- <- <-]; split_and!; by auto|].
  destruct (statement _ _ _) as [[[]|e] s1] eqn:E; intros [= <- <- <-]; cbn;
    apply statement_cases in E as [[-> Hno]|(a & Hup & Ha)];
    try (by destruct (Hno _ eq_refl)); try (split_and!; by auto);
    try pose proof (Ha _ eq_refl) as <-;
    apply update_ready_Ok in Hup as [[Hb ->]|[Hb (row & d & Hup)]]; try done;
    split_and!; auto; right; by exists row, d.
Qed.

Lemma Rollback_Ok w h s :
  Rollback w h s = s \/
  (h_owner h = true /\ h_decision h = None /\ exists row,
     s !! Start_ApprovalID (h_start h) = Some row /\ ar_state row = Reserved /\
     Rollback w h s = delete (Start_ApprovalID (h_start h)) s).
Proof.
  unfold Rollback. destruct (h_owner h) eqn:Ho; cbn; [|by left].
  case_bool_decide as Hd; [by left|]. cbn. case_bool_decide; [by left|].
  assert (h_decision h = None) as Hn by (destruct (h_decision h); [destruct Hd; by eexists|done]).
  destruct (statement _ _ _) as [r s1] eqn:E. cbn.
  apply statement_cases in E as [[-> _]|(a & Hup & _)]; [by left|].
  apply delete_reserved_Ok in Hup as [->|(row & ?)]; [by left|]. right. eauto.
Qed.

Lemma load_Ok start s h b :
  load start s = Ok (h, b) ->
  exists row, s !! Start_ApprovalID start = Some row /\ ar_request_digest row = RequestDigest start /\
    h_start h = start /\ h_owner h = false /\
    ((b = true /\ ar_state row = Reserved /\ h_decision h = None /\ h_result h = None) \/
     (b = false /\ exists d cp, row_decision row = Some d /\
        checkpoint_of (Start_ApprovalID start) d = Ok cp /\ h_decision h = Some cp /\
        (h_result h = None \/ h_result h = Some (Checkpoint_Result cp)))).
Proof.
  unfold load. intros (id & ->%text_column_Ok & Hr)%res_bind_Ok.
  destruct (s !! _) as [row|] eqn:Hrow; [|done].
  destruct (negb _) eqn:Hd; [done|]. apply negb_false_iff, bool_decide_eq_true in Hd.
  unfold row_decision.
  destruct (ar_state row) as [|d|d t] eqn:Hst; cbn in Hr.
  - injection Hr as <- <-. exists row. rewrite Hst. split_and!; try done. by left.
  - apply res_bind_Ok in Hr as (cp & Hcp & [= <- <-]). exists row. rewrite Hst.
    split_and!; try done. right. split; [done|]. exists d, cp. split_and!; try done. by left.
  - apply res_bind_Ok in Hr as (cp & Hcp & [= <- <-]). exists row. rewrite Hst.
    split_and!; try done. right. split; [done|]. exists d, cp. split_and!; try done. by right.
Qed.

End ledger.

(** * The invariant of the running approvals

    A reservation has one owner at most; a decision was made by a call whose
    request has the digest of the row; and what a call carries out or returns
    is the decision of its row. *)

Section invariant.
Context `{Platform} `{Unicode}.
(** The surroundings that the steps of the history may meet. *)
Variable possible : surroundings -> Prop.

(** ** What holds of a row and of a call *)

Definition key (c : call) : string := ApprovalID (call_request c).

(** The decision [d] is the one a valid request with this digest asks for, as it
    was judged in possible surroundings. *)
Definition made_by (id digest : string) (d : decision_columns) : Prop :=
  exists request decision reason env cp,
    ApprovalID request = id /\ approvalRequestDigest request decision reason = Ok digest /\
    possible env /\ decision_of env request decision reason = Ok cp /\ decision_row cp = Ok d.

Definition row_sound (id : string) (r : approval_row) : Prop :=
  forall d, row_decision r = Some d -> made_by id (ar_request_digest r) d.

(** The checkpoint says what the columns of the decision say. *)
Record agrees (cp : DecisionCheckpoint) (d : decision_columns) : Prop := {
  ag_decision : Decision (Checkpoint_Result cp) = dc_decision d;
  ag_reason : Reason cp = dc_reason d;
  ag_artifact : ApprovalArtifact (Checkpoint_Result cp) =
    mkArtifactRef (dc_artifact_uri d) (dc_artifact_digest d);
  ag_elevated : Elevated (Checkpoint_Result cp) = dc_elevated d;
}.

Definition in_row (s : approvals) (c : call) (cp : DecisionCheckpoint) : Prop :=
  exists row d, s !! key c = Some row /\ ar_request_digest row = call_digest c /\
    row_decision row = Some d /\ agrees cp d.

(** The call reserved the row and has not decided. *)
Definition reserver (c : call) (h : handle) : Prop :=
  h = mkHandle (call_start c) true None None.

Definition reserved_by (s : approvals) (c : call) (undecided : bool) : Prop :=
  exists row, s !! key c = Some row /\ ar_request_digest row = call_digest c /\
    (undecided = true -> ar_state row = Reserved).

Definition digested (c : call) : Prop :=
  approvalRequestDigest (call_request c) (call_decision c) (call_reason c) = Ok (call_digest c).

Definition follows (s : approvals) (c : call) (r : ApprovalResult) : Prop :=
  exists cp b, in_row s c cp /\ r = set_replayed b (Checkpoint_Result cp).

(** What a handle that does not own its row carries. *)
Definition follower (s : approvals) (c : call) (h : handle) : Prop :=
  h_start h = call_start c /\ h_owner h = false /\
  exists cp, h_decision h = Some cp /\ in_row s c cp /\
    (forall r, h_result h = Some r -> follows s c r).

Definition call_sound (s : approvals) (c : call) : Prop :=
  match call_phase c with
  | Reserving | Loading => digested c
  | Begun h => digested c /\ ((reserver c h /\ reserved_by s c true) \/ follower s c h)
  | Checkpointing h cp =>
      digested c /\ reserver c h /\ reserved_by s c true /\
      exists env, possible env /\ decision_of env (call_request c) (call_decision c) (call_reason c) = Ok cp
  | Applying h cp => follower s c h /\ in_row s c cp
  | Completing h r => follower s c h /\ follows s c r
  | Returning h r =>
      ((reserver c h /\ reserved_by s c false) \/ follower s c h) /\
      (forall v, r = Ok v -> follows s c v)
  | Returned r => forall v, r = Ok v -> follows s c v
  end.

(** The call owns the reservation of its identifier. *)
Definition owns (c : call) : bool :=
  match call_phase c with
  | Begun h | Checkpointing h _ | Returning h _ => h_owner h
  | _ => false
  end.

Record sound (sys : system) : Prop := {
  sound_rows : forall id r, sys_approvals sys !! id = Some r -> row_sound id r;
  sound_calls : forall i c, sys_calls sys !! i = Some c -> call_sound (sys_approvals sys) c;
  sound_owners : forall i j ci cj, sys_calls sys !! i = Some ci -> sys_calls sys !! j = Some cj ->
    owns ci = true -> owns cj = true -> key ci = key cj -> i = j;
}.

(** ** What others do to a row *)

(** The decisions of [s] are those of [s'], under the same digests. *)
Definition decisions_kept (s s' : approvals) : Prop :=
  forall id r d, s !! id = Some r -> row_decision r = Some d ->
    exists r', s' !! id = Some r' /\ row_decision r' = Some d /\
      ar_request_digest r' = ar_request_digest r.

#[global] Instance decisions_kept_preorder : PreOrder decisions_kept.
Proof.
  split; [intros s id r d Hr Hd; by exists r|].
  intros s1 s2 s3 H1 H2 id r d Hr Hd. destruct (H1 id r d Hr Hd) as (r2 & Hr2 & Hd2 & <-).
  by apply (H2 id r2 d).
Qed.

Lemma row_change_decisions id s s' : row_change id s s' -> decisions_kept s s'.
Proof.
  intros Hc k r d Hr Hd. destruct (decide (k = id)) as [->|Hk].
  - destruct Hc as [|start row Hn _|row cp d' Hrow Hst _|row d' t Hrow Hst|row Hrow Hst];
      [by exists r|congruence|..]; rewrite Hrow in Hr; injection Hr as ->;
      unfold row_decision in Hd; rewrite Hst in Hd; try done.
    injection Hd as <-. eexists. by rewrite lookup_insert_eq.
  - exists r. destruct Hc; rewrite ?lookup_insert_ne, ?lookup_delete_ne by done; done.
Qed.

Lemma in_row_kept s s' c cp : decisions_kept s s' -> in_row s c cp -> in_row s' c cp.
Proof.
  intros Hk (row & d & Hrow & Hdig & Hd & Hag).
  destruct (Hk _ _ _ Hrow Hd) as (row' & Hrow' & Hd' & Hdig'). exists row', d.
  split_and!; try done. congruence.
Qed.

Lemma follows_kept s s' c r : decisions_kept s s' -> follows s c r -> follows s' c r.
Proof. intros Hk (cp & b & Hin & Hr). exists cp, b. split; [by eapply in_row_kept|done]. Qed.

Lemma follower_kept s s' c h : decisions_kept s s' -> follower s c h -> follower s' c h.
Proof.
  intros Hk (Hs & Ho & cp & Hd & Hin & Hres). split; [done|]. split; [done|]. exists cp.
  split_and!; [done|by eapply in_row_kept|]. intros r Hr. by eapply follows_kept, Hres.
Qed.

(** What the other calls need of a step: the decisions are kept, and so is the
    row of an owner, unless it is decided. *)
Definition row_kept (s s' : approvals) (c : call) : Prop :=
  forall r, s !! key c = Some r -> s' !! key c = Some r \/ is_Some (row_decision r).

Lemma reserved_by_kept s s' c b :
  decisions_kept s s' -> row_kept s s' c -> reserved_by s c b -> reserved_by s' c b.
Proof.
  intros Hk Hrow (r & Hr & Hdig & Hst). destruct (Hrow r Hr) as [Hr'|[d Hd]]; [by exists r|].
  destruct (Hk _ _ _ Hr Hd) as (r' & Hr' & _ & Hdig'). exists r'. split_and!; [done|congruence|].
  intros Hb. specialize (Hst Hb). unfold row_decision in Hd. by rewrite Hst in Hd.
Qed.

Lemma reserver_owner c h : reserver c h -> h_owner h = true.
Proof. by intros ->. Qed.

Lemma call_sound_kept s s' c :
  decisions_kept s s' -> (owns c = true -> row_kept s s' c) -> call_sound s c -> call_sound s' c.
Proof.
  intros Hk Hrow. unfold call_sound, owns in *.
  destruct (call_phase c) as [| |h|h cp|h cp|h r|h r|r]; [done|done|..].
  - intros [Hd [[Hre Hr]|Hf]]; (split; [done|]); [left|right; by eapply follower_kept].
    split; [done|]. by eapply reserved_by_kept; [|apply Hrow, (reserver_owner c)|].
  - intros (Hd & Hre & Hr & Henv). split_and!; try done. by eapply reserved_by_kept; [|apply Hrow, (reserver_owner c)|].
  - intros [Hf Hin]. split; [by eapply follower_kept|by eapply in_row_kept].
  - intros [Hf Hin]. split; [by eapply follower_kept|by eapply follows_kept].
  - intros [Hh Hr]. split; [|intros v Hv; by eapply follows_kept, Hr].
    destruct Hh as [[Hre Hres]|Hf]; [left|right; by eapply follower_kept].
    split; [done|]. by eapply reserved_by_kept; [|apply Hrow, (reserver_owner c)|].
  - intros Hr v Hv. by eapply follows_kept, Hr.
Qed.

Lemma row_change_other id s s' c : row_change id s s' -> key c <> id -> row_kept s s' c.
Proof.
  intros Hc Hk r Hr. left.
  destruct Hc; rewrite ?lookup_insert_ne, ?lookup_delete_ne by done; done.
Qed.

(** ** One step of a call *)

Definition rows_sound (s : approvals) : Prop := forall id r, s !! id = Some r -> row_sound id r.

Lemma owns_row s c : call_sound s c -> owns c = true -> exists r, s !! key c = Some r.
Proof.
  unfold call_sound, owns. destruct (call_phase c) as [| |h|h cp|h cp|h r|h r|r]; try done.
  - intros [_ [[_ (r & Hr & _)]|(_ & Ho & _)]] Hown; [by exists r|congruence].
  - intros (_ & _ & (r & Hr & _) & _) _. by exists r.
  - intros [[[_ (v & Hv & _)]|(_ & Ho & _)] _] Hown; [by exists v|congruence].
Qed.

Record step_effect (c c' : call) (s s' : approvals) : Prop := {
  se_change : row_change (key c) s s';
  se_key : key c' = key c;
  se_sound : call_sound s' c';
  se_owner : owns c' = true -> owns c = true \/ s !! key c = None;
  se_others : owns c = false -> forall r, s !! key c = Some r ->
    s' !! key c = Some r \/ is_Some (row_decision r);
  se_rows : rows_sound s -> rows_sound s';
}.

(** A step that leaves the table alone. *)
Lemma quiet_effect c p s :
  call_sound s (at_phase p c) -> (owns (at_phase p c) = true -> owns c = true) ->
  step_effect c (at_phase p c) s s.
Proof. intros Hs Ho. split; try done; [constructor|intros; left; auto|intros; by left]. Qed.

Lemma rows_sound_insert s id r : rows_sound s -> row_sound id r -> rows_sound (<[id := r]> s).
Proof.
  intros Hs Hr k v Hv. destruct (decide (k = id)) as [->|Hk].
  - rewrite lookup_insert_eq in Hv. by injection Hv as <-.
  - rewrite lookup_insert_ne in Hv by done. by apply Hs.
Qed.

Lemma reserving_effect c s s' start row :
  call_phase c = Reserving -> call_sound s c -> start = call_start c ->
  s !! key c = None -> reserved_row start = Ok (key c, row) -> s' = <[key c := row]> s ->
  forall p, p = Begun (mkHandle (call_start c) true None None) \/ (exists e, p = Returned (Err e)) ->
  step_effect c (at_phase p c) s s'.
Proof.
  intros Hph Hs -> Hn Hrow -> p Hp. destruct (reserved_row_id _ _ _ Hrow) as (_ & Hdig & Hst).
  unfold call_sound in Hs. rewrite Hph in Hs.
  assert (Hres : reserved_by (<[key c := row]> s) c true).
  { exists row. rewrite lookup_insert_eq. split_and!; [done|by rewrite Hdig|done]. }
  split.
  - by eapply row_reserved.
  - done.
  - destruct Hp as [->|[e ->]]; [|done]. cbn. split; [done|]. by left.
  - by right.
  - congruence.
  - intros Hr. apply rows_sound_insert; [done|]. intros d Hd. unfold row_decision in Hd. by rewrite Hst in Hd.
Qed.

Lemma checkpoint_agrees id d cp : checkpoint_of id d = Ok cp -> agrees cp d.
Proof. unfold checkpoint_of. intros (l & _ & [= <-])%res_bind_Ok. by split. Qed.

Lemma decision_row_agrees cp d : decision_row cp = Ok d -> agrees cp d.
Proof.
  unfold decision_row. intros Hr. go_run Hr. simplify_eq.
  repeat match goal with Hx : text_column _ = Ok _ |- _ => apply text_column_Ok in Hx end.
  subst. split; try done. cbn. by destruct (ApprovalArtifact (Checkpoint_Result cp)).
Qed.

Lemma set_replayed_same r : set_replayed (Result_Replayed r) r = r.
Proof. by destruct r. Qed.

Lemma load_follower c s h b :
  load (call_start c) s = Ok (h, b) -> b = false -> follower s c h.
Proof.
  intros (row & Hrow & Hdig & Hst & Ho & Hcase)%load_Ok ->.
  destruct Hcase as [[? _]|[_ (d & cp & Hd & Hcp & Hhd & Hres)]]; [done|].
  assert (Hin : in_row s c cp) by (exists row, d; split_and!; try done; by eapply checkpoint_agrees).
  split; [done|]. split; [done|]. exists cp. split; [done|]. split; [done|].
  intros r Hr. exists cp, (Result_Replayed r). split; [done|].
  destruct Hres as [Hn|Hn]; rewrite Hn in Hr; [done|]. injection Hr as <-. by rewrite set_replayed_same.
Qed.

Lemma examine_sound env s c h :
  possible env -> call_phase c = Begun h -> call_sound s c ->
  call_sound s (at_phase (examine env c h) c).
Proof.
  unfold call_sound at 1. intros Henv ->. intros [Hdig Hh]. unfold examine, Handle_Replay, Handle_Decision.
  destruct Hh as [[Hh Hres]|Hf].
  - unfold reserver in Hh. subst h. cbn [h_result h_decision].
    destruct (decision_of env (call_request c) (call_decision c) (call_reason c)) as [cp|e] eqn:Hcp;
      unfold call_sound; cbn [at_phase call_phase].
    + split_and!; try done. by exists env.
    + split; [|done]. left. split; [done|]. destruct Hres as (r & ? & ? & ?). by exists r.
  - pose proof Hf as (Hst & Ho & cp & Hd & Hin & Hr). rewrite Hd.
    destruct (h_result h) as [r|] eqn:Hres; unfold call_sound; cbn [at_phase call_phase]; [|done].
    split; [by right|]. intros v [= <-]. destruct (Hr r eq_refl) as (cp' & b & Hin' & ->).
    by exists cp', true.
Qed.

Lemma examine_owns env c h :
  call_phase c = Begun h -> owns (at_phase (examine env c h) c) = true -> owns c = true.
Proof.
  unfold owns at 2. intros ->. unfold examine, Handle_Replay, Handle_Decision.
  destruct (h_result h); [done|]. destruct (h_decision h); [done|].
  by destruct (decision_of _ _ _ _).
Qed.

(** A decided row: completing it keeps every claim about it. *)
Lemma in_row_completed s c cp row d t :
  s !! key c = Some row -> ar_state row = DecisionReady d -> in_row s c cp ->
  in_row (<[key c := with_state (ApprovalCompleted d t) row]> s) c cp.
Proof.
  intros Hrow Hst. apply in_row_kept, (row_change_decisions (key c)). by eapply row_completed.
Qed.

Lemma saved_effect c cp h s s' p row d :
  call_phase c = Checkpointing h cp -> call_sound s c ->
  s !! key c = Some row -> ar_state row = Reserved -> decision_row cp = Ok d ->
  s' = <[key c := with_state (DecisionReady d) row]> s ->
  (p = Applying (mkHandle (call_start c) false (Some cp) None) cp \/
   exists e, p = Returning h (Err e)) ->
  step_effect c (at_phase p c) s s'.
Proof.
  intros Hph Hs Hrow Hst Hd -> Hp. unfold call_sound in Hs. rewrite Hph in Hs.
  destruct Hs as (Hdig & Hre & (row' & Hrow' & Hrd & _) & env & Henv & Hcp).
  rewrite Hrow in Hrow'. injection Hrow' as <-.
  assert (Hin : in_row (<[key c := with_state (DecisionReady d) row]> s) c cp).
  { exists (with_state (DecisionReady d) row), d. rewrite lookup_insert_eq.
    split_and!; try done. by apply decision_row_agrees. }
  pose proof (reserver_owner _ _ Hre) as Ho. split.
  - by eapply row_decided.
  - done.
  - destruct Hp as [->|[e ->]]; unfold call_sound; cbn [at_phase call_phase].
    + split; [|done]. split; [done|]. split; [done|]. exists cp. done.
    + split; [|done]. left. split; [done|]. exists (with_state (DecisionReady d) row).
      rewrite lookup_insert_eq. done.
  - left. unfold owns. by rewrite Hph.
  - unfold owns. rewrite Hph. congruence.
  - intros Hr. apply rows_sound_insert; [done|]. intros d' [= <-].
    exists (call_request c), (call_decision c), (call_reason c), env, cp. split_and!; try done.
    cbn. rewrite Hrd. exact Hdig.
Qed.

Lemma completed_effect c h result s s' h' p clock :
  call_phase c = Completing h result -> call_sound s c ->
  h_start h' = h_start h -> h_owner h' = h_owner h -> h_decision h' = h_decision h ->
  (h_result h' = h_result h \/ h_result h' = Some result) ->
  (s' = s \/ exists row d, s !! Start_ApprovalID (h_start h) = Some row /\
     ar_state row = DecisionReady d /\
     s' = <[Start_ApprovalID (h_start h) := with_state (ApprovalCompleted d clock) row]> s) ->
  (p = Returning h' (Ok result) \/ exists e, p = Returning h' (Err e)) ->
  step_effect c (at_phase p c) s s'.
Proof.
  intros Hph Hs E1 E2 E3 E4 Hch Hp. unfold call_sound in Hs. rewrite Hph in Hs.
  destruct Hs as [(Hst & Ho & cp & Hcp & Hin & Hres) Hfol].
  rewrite Hst in Hch. change (Start_ApprovalID (call_start c)) with (key c) in Hch.
  assert (Hc : row_change (key c) s s').
  { destruct Hch as [->|(row & d & Hrow & Hrs & ->)]; [constructor|by eapply row_completed]. }
  pose proof (row_change_decisions _ _ _ Hc) as Hk.
  assert (Hf : follower s' c h').
  { split; [congruence|]. split; [congruence|]. exists cp. split; [congruence|].
    split; [by eapply in_row_kept|]. intros r Hr.
    destruct E4 as [E4|E4]; rewrite E4 in Hr; [by eapply follows_kept, Hres|].
    injection Hr as <-. by eapply follows_kept. }
  split; [done|done|..].
  - destruct Hp as [->|[e ->]]; unfold call_sound; cbn [at_phase call_phase];
      (split; [by right|]); [|done]. intros v [= <-]. by eapply follows_kept.
  - destruct Hp as [->|[e ->]]; unfold owns at 1; cbn; congruence.
  - intros _ r Hr. destruct Hch as [->|(row & d & Hrow & Hrs & ->)]; [by left|]. right.
    rewrite Hrow in Hr. injection Hr as <-. unfold row_decision. rewrite Hrs. by eexists.
  - intros Hr. destruct Hch as [->|(row & d & Hrow & Hrs & ->)]; [done|].
    apply rows_sound_insert; [done|]. intros d' [= <-]. apply (Hr _ _ Hrow).
    unfold row_decision. by rewrite Hrs.
Qed.

Lemma returning_effect c h r w s :
  call_phase c = Returning h r -> call_sound s c ->
  step_effect c (at_phase (Returned r) c) s (Rollback w h s).
Proof.
  intros Hph Hs. unfold call_sound in Hs. rewrite Hph in Hs. destruct Hs as [Hh Hr].
  destruct (Rollback_Ok w h s) as [->|(Ho & Hd & row & Hrow & Hst & ->)].
  - by apply quiet_effect.
  - destruct Hh as [[Hre _]|(_ & Hno & _)]; [|congruence].
    assert (Hk : Start_ApprovalID (h_start h) = key c) by (by unfold reserver in Hre; subst h).
    rewrite Hk in *. assert (Hc : row_change (key c) s (delete (key c) s)) by (by eapply row_deleted).
    split; try done.
    + intros v Hv. eapply follows_kept; [by eapply row_change_decisions|]. by apply Hr.
    + unfold owns. rewrite Hph. congruence.
    + intros Hrs k x Hx. apply lookup_delete_Some in Hx as [_ Hx]. by apply Hrs.
Qed.

Lemma call_step_effect x c s w c' s' w' :
  possible (around x) -> call_sound s c -> call_step x c s w = (c', s', w') ->
  step_effect c c' s s'.
Proof.
  intros Henv Hs. unfold call_step. pose proof Hs as Hs'. unfold call_sound in Hs'.
  destruct (call_phase c) as [| |h|h cp|h cp|h r|h r|r] eqn:Hph.
  - destruct (statement _ _ _) as [[[]|e] s1] eqn:E; intros [= <- <- <-];
      apply statement_cases in E as [[-> Hno]|(b & Hb & Hr)]; try (by destruct (Hno _ eq_refl));
      try (by apply quiet_effect); try pose proof (Hr _ eq_refl) as <-;
      apply insert_reservation_Ok in Hb as (row & Hrow & [(? & Hn & ->)|(? & _ & ->)]); try done;
      try (by apply quiet_effect); eapply reserving_effect; eauto.
  - destruct (query _ _ _) as [[h []]|e] eqn:E.
    + destruct (cancelled x); intros [= <- <- <-]; by apply quiet_effect.
    + intros [= <- <- <-]. apply query_Ok in E.
      pose proof (load_follower _ _ _ _ E eq_refl) as Hf. apply quiet_effect.
      * unfold call_sound. cbn [at_phase call_phase]. split; [done|by right].
      * unfold owns at 1. cbn. destruct Hf as (_ & Ho & _). congruence.
    + destruct (errors_Is _ _); intros [= <- <- <-]; by apply quiet_effect.
  - intros [= <- <- <-]. apply quiet_effect; [by apply examine_sound|by apply examine_owns].
  - destruct (SaveDecision _ _ _ _) as [[r h'] s1] eqn:E.
    pose proof Hs' as (_ & Hre & _). assert (Hst : h_start h = call_start c) by (by unfold reserver in Hre; subst h).
    assert (Hres : h_result h = None) by (by unfold reserver in Hre; subst h).
    apply SaveDecision_Ok in E as [(-> & -> & e & ->)|(Ho & Hd & (row & d & Hrow & Hrs & Hdr & Heq) & Hcase)].
    + intros [= <- <- <-]. apply quiet_effect; [|unfold owns; by rewrite Hph].
      unfold call_sound. cbn [at_phase call_phase]. split; [|done]. left. split; [done|].
      destruct Hs' as (_ & _ & (row & ? & ? & _) & _). by exists row.
    + rewrite Hst in Hrow, Heq. rewrite Hst, Hres in Hcase.
      destruct Hcase as [(e & -> & ->)|[-> ->]]; intros [= <- <- <-];
        eapply saved_effect; eauto.
  - destruct Hs' as [Hf Hin].
    destruct (ExecuteTask _ _ _ _) as [[res|e] w1] eqn:E; intros [= <- <- <-]; apply quiet_effect;
      unfold call_sound; cbn [at_phase call_phase].
    + split; [done|]. by exists cp, (Replay res).
    + done.
    + split; [by right|done].
    + unfold owns at 1. cbn. destruct Hf as (_ & Ho & _). congruence.
  - destruct (Complete _ _ _ _ _ _) as [[res h'] s1] eqn:E.
    apply Complete_Ok in E as (E1 & E2 & E3 & E4 & E5).
    destruct res as [[]|e]; intros [= <- <- <-]; eapply completed_effect; eauto.
  - intros [= <- <- <-]. by apply returning_effect.
  - intros [= <- <- <-]. split; try done; [constructor|by left|by left].
Qed.

(** ** The invariant *)

Lemma sound_start w : sound (mkSystem ∅ w []).
Proof.
  split; cbn.
  - intros id r Hr. by rewrite lookup_empty in Hr.
  - intros i c Hc. done.
  - intros i j ci cj Hc. done.
Qed.

Lemma decide_sound s request decision reason :
  call_sound s (Service_decide request decision reason) /\
  owns (Service_decide request decision reason) = false.
Proof. unfold Service_decide. by destruct (approvalRequestDigest _ _ _) eqn:E. Qed.

Lemma sound_enter s w cs c :
  (forall s, call_sound s c) -> owns c = false -> sound (mkSystem s w cs) ->
  sound (mkSystem s w (cs ++ [c])).
Proof.
  intros Hc Ho [Hrows Hcalls Howners]. split; cbn in *; [done|..].
  - intros i ci [Hi|[-> ->]]%lookup_snoc_cases; [by eapply Hcalls|done].
  - intros i j ci cj [Hi|[-> ->]]%lookup_snoc_cases [Hj|[-> ->]]%lookup_snoc_cases Hoi Hoj Hk;
      try congruence. by eapply Howners.
Qed.

Lemma sound_call s w cs i c c' s' w' x :
  cs !! i = Some c -> possible (around x) -> call_step x c s w = (c', s', w') ->
  sound (mkSystem s w cs) -> sound (mkSystem s' w' (<[i := c']> cs)).
Proof.
  intros Hi Henv Hstep [Hrows Hcalls Howners]. cbn in *.
  destruct (call_step_effect _ _ _ _ _ _ _ Henv (Hcalls i c Hi) Hstep) as [Hch Hk Hs Ho Hot Hr].
  pose proof (row_change_decisions _ _ _ Hch) as Hkept. split; cbn.
  - by apply Hr.
  - intros j cj [[-> ->]|[Hne Hj]]%lookup_insert_cases; [done|].
    eapply call_sound_kept; [done| |by eapply Hcalls]. intros Hown.
    destruct (decide (key cj = key c)) as [Heq|Hkey]; [|by eapply row_change_other].
    intros r Hrow. rewrite Heq in *. apply Hot; [|done].
    destruct (owns c) eqn:Hc; [|done]. by destruct Hne; eapply Howners.
  - assert (Hmine : forall j cj, j <> i -> cs !! j = Some cj -> owns cj = true -> owns c' = true ->
      key cj <> key c').
    { intros j cj Hne Hj Hoj Hoc Heq. rewrite Hk in Heq. destruct (Ho Hoc) as [Hc|Hn].
      - by destruct Hne; eapply Howners.
      - destruct (owns_row s cj) as [r Hrow]; [by eapply Hcalls|done|]. congruence. }
    intros j k cj ck [[-> ->]|[Hne Hj]]%lookup_insert_cases [[-> ->]|[Hne' Hk']]%lookup_insert_cases
      Hoj Hok Heq; [done|..].
    + by destruct (Hmine k ck Hne' Hk' Hok Hoj).
    + by destruct (Hmine j cj Hne Hj Hoj Hok).
    + by eapply Howners.
Qed.

Lemma sound_step sys sys' : system_step_in possible sys sys' -> sound sys -> sound sys'.
Proof.
  intros Hstep Hs. destruct Hstep as [s w cs c (request & decision & reason & ->)|x i c s w cs c' s' w' Hi [_ Hf] Hc|].
  - by apply sound_enter; [intros; apply decide_sound..|].
  - by eapply sound_call.
  - destruct Hs. by split.
Qed.

Lemma running_sound sys : running_in possible sys -> sound sys.
Proof.
  intros (w & _ & Hr). remember (mkSystem ∅ w []) as start eqn:E.
  assert (Hs : sound start) by (subst; apply sound_start). clear E.
  induction Hr as [|a b c Hab _ IH]; [done|]. by apply IH; [eapply sound_step].
Qed.

(** The decisions of a running system stay. *)
Lemma system_decisions_kept sys sys' :
  sound sys -> rtc (system_step_in possible) sys sys' -> decisions_kept (sys_approvals sys) (sys_approvals sys').
Proof.
  intros Hs Hr. induction Hr as [|a b c Hab _ IH]; [done|].
  etrans; [|apply IH; by eapply sound_step].
  destruct Hab as [|x i cl s w cs cl' s' w' Hi [_ Hf] Hstep|]; [done| |done]. cbn.
  eapply row_change_decisions, se_change, call_step_effect; [exact Hf| |exact Hstep].
  by apply (sound_calls _ Hs i cl).
Qed.

End invariant.
