(* ===== verification/ApProps.v ===== *)
(** * The properties of approval *)

From S2P Require Import Prelude GoStd Approval GoJson GoText PgRetry WfTypes WfTask WfRun WfDb.
From S2P Require Import WfStore WfReplay WfInvariants Interleave ApService ApInvariants Samples.
From S2P Require Import WfGuarantees WfRefine CtSamples.

(** * The classification of elevated risk

    [ClassifyElevatedRisk] lists exactly the protected resources and paths of a
    change, each once and in order, whatever the order of the Go map that
    collects them. *)

Section risk.
Context `{PlatformLaws} `{Unicode}.

(** Collecting the marked elements of a list in a set. *)
Lemma elem_of_collected (f : string -> bool) (g : string -> string) l (acc : gset string) x :
  x ∈ foldl (fun s a => if f a then {[g a]} ∪ s else s) acc l <->
  x ∈ acc \/ exists a, a ∈ l /\ f a = true /\ x = g a.
Proof.
  revert acc. induction l as [|a l IH]; intros acc; cbn [foldl].
  - split; [by left|]. intros [?|(a & Ha & _)]; [done|by apply elem_of_nil in Ha].
  - rewrite IH. setoid_rewrite elem_of_cons. destruct (f a) eqn:E.
    + rewrite elem_of_union, elem_of_singleton. split.
      * intros [[-> |?]|(b & ? & ?)]; [right; by exists a; auto|by left|right; by exists b; auto].
      * intros [?|(b & [-> |?] & ? & ?)]; [by left; right|subst; by left; left|right; by exists b].
    + split; [intros [?|(b & ? & ?)]|intros [?|(b & [-> |?] & ? & ?)]]; try (by left); try congruence;
        right; by exists b; auto.
Qed.

Definition is_risk (paths labels : list string) (reason : string) : Prop :=
  (exists label, label ∈ labels /\ label ∈ protectedLabels /\ reason = "resource:" +:+ label) \/
  (exists p, p ∈ paths /\ protectedPath p = true /\ reason = "path:" +:+ p).

Lemma elem_of_risk_reasons paths labels x :
  x ∈ risk_reasons paths labels <-> is_risk paths labels x.
Proof.
  unfold risk_reasons, is_risk. rewrite elem_of_collected, elem_of_collected.
  setoid_rewrite bool_decide_eq_true. rewrite elem_of_empty. naive_solver.
Qed.

Lemma risk_perm paths labels :
  ClassifyElevatedRisk paths labels ≡ₚ elements (risk_reasons paths labels).
Proof. unfold ClassifyElevatedRisk. by rewrite merge_sort_Permutation, arbitrary_order_perm. Qed.

(** The reasons of elevated risk are exactly the protected resource labels and the protected
    paths of the change, each once and in the order of their bytes; the list depends on which
    paths and labels there are and not on their order, nor on the order of the map that collects
    the reasons. *)
Theorem elevated_risk_exact paths labels :
  Sorted String.le (ClassifyElevatedRisk paths labels) /\
  NoDup (ClassifyElevatedRisk paths labels) /\
  (forall reason, reason ∈ ClassifyElevatedRisk paths labels <-> is_risk paths labels reason) /\
  (forall paths' labels', (forall p, p ∈ paths' <-> p ∈ paths) ->
    (forall l, l ∈ labels' <-> l ∈ labels) ->
    ClassifyElevatedRisk paths' labels' = ClassifyElevatedRisk paths labels).
Proof.
  assert (Hs : forall p l, Sorted String.le (ClassifyElevatedRisk p l))
    by (intros; apply (Sorted_merge_sort String.le)).
  split_and!.
  - apply Hs.
  - rewrite risk_perm. apply NoDup_elements.
  - intros reason. by rewrite risk_perm, elem_of_elements, elem_of_risk_reasons.
  - intros paths' labels' Hp Hl. apply (Sorted_unique String.le); [apply Hs..|].
    rewrite !risk_perm. assert (Heq : risk_reasons paths' labels' = risk_reasons paths labels).
    { apply set_eq. intros x. rewrite !elem_of_risk_reasons. unfold is_risk.
      setoid_rewrite Hp. setoid_rewrite Hl. done. }
    by rewrite Heq.
Qed.

End risk.

(** * What the approval service guarantees

    One decision per approval, made by a request that was entitled to it and
    applied to the workflow only after it is durable; a decision that was
    interrupted is completed by asking again; a reservation that lost its owner
    is never decided. *)

Section guarantees.
Context `{Platform} `{Unicode}.

(** ** One decision *)

Lemma follows_same s c c' r r' :
  follows s c r -> follows s c' r' -> key c = key c' ->
  call_digest c = call_digest c' /\ Decision r = Decision r' /\
  ApprovalArtifact r = ApprovalArtifact r' /\ Elevated r = Elevated r'.
Proof.
  intros (cp & b & (row & d & Hrow & Hdig & Hd & Hag) & ->)
    (cp' & b' & (row' & d' & Hrow' & Hdig' & Hd' & Hag') & ->) Hk.
  rewrite Hk, Hrow' in Hrow. injection Hrow as ->. rewrite Hd' in Hd. injection Hd as ->.
  destruct Hag, Hag'. cbn. split_and!; congruence.
Qed.

Lemma returned_follows possible sys i c r :
  running_in possible sys -> sys_calls sys !! i = Some c -> call_phase c = Returned (Ok r) ->
  follows (sys_approvals sys) c r.
Proof.
  intros Hrun Hi Hph. pose proof (sound_calls _ _ (running_sound _ _ Hrun) _ _ Hi) as Hs.
  unfold call_sound in Hs. rewrite Hph in Hs. by apply Hs.
Qed.

(** C5: Two calls that return a result for one approval, at any time and in any processes, with
    crashes, lost answers and repeated requests in between, were asked for the same thing and
    return the same decision: the same verdict, the same approval artifact and the same risk. *)
Theorem approval_decided_once sys sys' i j c c' r r' :
  running sys -> rtc system_step sys sys' ->
  sys_calls sys !! i = Some c -> call_phase c = Returned (Ok r) ->
  sys_calls sys' !! j = Some c' -> call_phase c' = Returned (Ok r') -> key c = key c' ->
  call_digest c = call_digest c' /\ Decision r = Decision r' /\
  ApprovalArtifact r = ApprovalArtifact r' /\ Elevated r = Elevated r'.
Proof.
  intros Hrun Hsteps Hi Hph Hj Hph' Hk.
  apply (follows_same (sys_approvals sys')); [|eapply (returned_follows anything); [|done..]|done].
  - eapply follows_kept; [by apply (system_decisions_kept anything); [apply running_sound|]|].
    by eapply (returned_follows anything).
  - destruct Hrun as (w & Hw & Hr). exists w. split; [done|]. by etrans.
Qed.

(** ** Entitled decisions *)

(** What holds of the surroundings of every step. *)
Variable possible : surroundings -> Prop.

(** The principal may decide so about these paths and resources, on a passing
    review of exactly this candidate. *)
Record entitled (env : surroundings) (request : ApprovalRequest) (decision : string) : Prop := {
  en_role : RoleApprover ∈ Roles (Request_Principal request) \/
    RoleElevatedApprover ∈ Roles (Request_Principal request);
  en_elevated : decision = "approve" ->
    ClassifyElevatedRisk (ActualChangedPaths request) (ExclusiveResourceLabels request) <> [] ->
    RoleElevatedApprover ∈ Roles (Request_Principal request);
  en_review : exists body report rest,
    Get env (Request_Review request) = Ok body /\
    sha256_hex body = Digest (Request_Review request) /\
    Decode env body = Some (report, rest) /\ reviewReportMatches report request = true;
  en_paths : forall p, p ∈ ActualChangedPaths request -> safeRepoPath p = true;
}.

Lemma authorize_Ok p elevated decision u :
  authorize p elevated decision = Ok u ->
  (RoleApprover ∈ Roles p \/ RoleElevatedApprover ∈ Roles p) /\
  (decision = "approve" -> elevated = true -> RoleElevatedApprover ∈ Roles p).
Proof.
  unfold authorize. cbv zeta.
  case_bool_decide as Ha; case_bool_decide as He; cbn; try done; auto;
    case_bool_decide; destruct elevated; cbn; try done; naive_solver.
Qed.

Lemma fetchVerifiedArtifact_Ok env ref body :
  fetchVerifiedArtifact env ref = Ok body -> Get env ref = Ok body /\ sha256_hex body = Digest ref.
Proof.
  unfold fetchVerifiedArtifact. intros ([] & _ & (b & Hb & Hr)%res_bind_Ok)%res_bind_Ok.
  destruct (Get env ref) as [g|]; [|done]. injection Hb as ->.
  destruct (negb _) eqn:E; [done|]. injection Hr as <-.
  by apply negb_false_iff, bool_decide_eq_true in E.
Qed.

Lemma decision_of_Ok env request decision reason cp :
  decision_of env request decision reason = Ok cp ->
  entitled env request decision /\ Decision (Checkpoint_Result cp) = decision /\ Reason cp = reason /\
  RiskReasons (Checkpoint_Result cp) =
    ClassifyElevatedRisk (ActualChangedPaths request) (ExclusiveResourceLabels request) /\
  Elevated (Checkpoint_Result cp) =
    negb (bool_decide (ClassifyElevatedRisk (ActualChangedPaths request)
                         (ExclusiveResourceLabels request) = [])).
Proof.
  unfold decision_of. intros ([] & Hval & Hr)%res_bind_Ok. cbv zeta in Hr.
  apply res_bind_Ok in Hr as ([] & Hauth & Hr). apply res_bind_Ok in Hr as (artifact & _ & [= <-]).
  set (reasons := ClassifyElevatedRisk _ _) in *.
  apply authorize_Ok in Hauth as [Hrole Hel].
  unfold validateRequest in Hval. apply res_bind_Ok in Hval as ([] & _ & Hval).
  apply res_bind_Ok in Hval as ([] & Hrisk & Hval). apply res_bind_Ok in Hval as ([] & _ & Hval).
  apply res_bind_Ok in Hval as (body & [Hget Hsha]%fetchVerifiedArtifact_Ok & Hval).
  apply res_bind_Ok in Hval as (report & Hdec & Hval).
  destruct (reviewReportMatches _ _) eqn:Hm; [|done].
  unfold decodeReviewReport in Hdec. destruct (Decode env body) as [[rep rest]|] eqn:Hd; [|done].
  destruct (negb _); [done|]. injection Hdec as ->.
  unfold validateRiskInputs in Hrisk. apply res_bind_Ok in Hrisk as ([] & Hp & _).
  rewrite for_each_Ok, Forall_forall in Hp. cbn.
  split; [split|split_and!; try done].
  - done.
  - intros Ha Hne. apply Hel; [done|]. change (reasons <> []) in Hne.
    clearbody reasons. by destruct reasons.
  - by exists body, report, rest.
  - intros p Hin. specialize (Hp p Hin). by destruct (safeRepoPath p).
  - fold reasons. clearbody reasons. by destruct reasons.
Qed.

(** The decision [d] on [id] was made for a request with this digest, by somebody who was
    entitled to it by the artifacts that the history met. *)
Definition duly_decided (id digest : string) (d : decision_columns) : Prop :=
  exists request reason env, possible env /\ ApprovalID request = id /\
    approvalRequestDigest request (dc_decision d) reason = Ok digest /\
    entitled env request (dc_decision d).

Lemma made_by_duly id digest d : made_by possible id digest d -> duly_decided id digest d.
Proof.
  intros (request & dec & reason & env & cp & Hid & Hdig & Henv & Hof & Hdr).
  destruct (decision_of_Ok _ _ _ _ _ Hof) as (Hen & Hdec & _).
  pose proof (ag_decision _ _ (decision_row_agrees _ _ Hdr)) as Hdd.
  assert (dec = dc_decision d) as -> by congruence. by exists request, reason, env.
Qed.

(** C7: Every decision in the table, and not only the one that is applied, was made for a request
    with the digest of its row, by a principal with an approval role (the elevated one when the
    risk of an approved change is elevated), on a passing review report of exactly its candidate,
    execution and verification: as the artifact store and the decoder showed it in surroundings
    that a step of this very history met, since [possible] is any predicate that held of the
    surroundings of every step.  And the service touches the workflow only to carry out a decision
    that is already durable, with the command of exactly that decision. *)
Theorem workflow_guarded s w cs :
  running_in possible (mkSystem s w cs) ->
  (forall id row d, s !! id = Some row -> row_decision row = Some d ->
     duly_decided id (ar_request_digest row) d) /\
  forall x i c c' s' w', cs !! i = Some c -> call_step x c s w = (c', s', w') -> w' <> w ->
    exists h cp row d, call_phase c = Applying h cp /\ s !! key c = Some row /\
      ar_request_digest row = call_digest c /\ row_decision row = Some d /\ agrees cp d /\
      w' = snd (ExecuteTask (climate x) (ctx_done x) (command_of c cp) w).
Proof.
  intros Hrun. pose proof (running_sound _ _ Hrun) as Hsound. split.
  { intros id row d Hrow Hd. apply made_by_duly. by apply (sound_rows _ _ Hsound _ _ Hrow). }
  intros x i c c' s' w' Hi Hstep Hne.
  pose proof (sound_calls _ _ Hsound _ _ Hi) as Hs. cbn in Hs. unfold call_sound in Hs.
  unfold call_step in Hstep.
  destruct (call_phase c) as [| |h|h cp|h cp|h r|h r|r] eqn:Hph;
    try (exfalso; apply Hne; clear -Hstep; repeat case_match; by injection Hstep).
  destruct Hs as [_ (row & d & Hrow & Hdig & Hd & Hag)]. exists h, cp, row, d.
  do 5 (split; [done|]). by repeat case_match; simplify_eq.
Qed.

(** ** Lost reservations *)

(** The row is reserved and no call owns it. *)
Definition abandoned (id : string) (sys : system) : Prop :=
  (exists r, sys_approvals sys !! id = Some r /\ ar_state r = Reserved) /\
  forall i c, sys_calls sys !! i = Some c -> key c = id -> owns c = false.

Lemma abandoned_step id sys sys' :
  sound possible sys -> system_step_in possible sys sys' -> abandoned id sys -> abandoned id sys'.
Proof.
  intros Hs Hstep [(r & Hr & Hst) Ho].
  destruct Hstep as [s w cs cr (request & decision & reason & ->)|x i c s w cs c' s' w' Hi [_ Hf] Hstep|]; cbn in *.
  - split; [by exists r|]. intros i c [Hi|[_ ->]]%lookup_snoc_cases Hk; [by eapply Ho|].
    by destruct (decide_sound possible ∅ request decision reason).
  - destruct (call_step_effect _ _ _ _ _ _ _ _ Hf (sound_calls _ _ Hs _ _ Hi) Hstep)
      as [Hch Hkey _ Hown Hoth _].
    destruct (decide (key c = id)) as [Heq|Hne].
    + pose proof (Ho i c Hi Heq) as Hoc. subst id. split.
      * exists r. destruct (Hoth Hoc r Hr) as [?|[d Hd]]; [done|].
        unfold row_decision in Hd. by rewrite Hst in Hd.
      * intros j cj [[-> ->]|[Hj Hlook]]%lookup_insert_cases Hk; [|by eapply Ho].
        destruct (owns c') eqn:E; [|done]. destruct (Hown eq_refl) as [Hx|Hx];
          [by rewrite Hoc in Hx|cbn in Hx; by rewrite Hr in Hx].
    + split.
      * exists r. split; [|done].
        destruct Hch; cbn in *; rewrite ?lookup_insert_ne, ?lookup_delete_ne by done; done.
      * intros j cj [[-> ->]|[Hj Hlook]]%lookup_insert_cases Hk; [congruence|by eapply Ho].
  - by split; [exists r|].
Qed.

Lemma abandoned_steps id sys sys' :
  sound possible sys -> rtc (system_step_in possible) sys sys' -> abandoned id sys -> abandoned id sys'.
Proof.
  intros Hs Hr. induction Hr as [|a b c Hab _ IH]; [done|]. intros Ha.
  apply IH; [by eapply sound_step|by eapply abandoned_step].
Qed.

(** An approval whose reservation lost its owner, because the process crashed before the checkpoint
    or the answer to the insertion was lost, is never decided: the row stays reserved whatever runs
    afterwards, and no request for it ever returns a result. *)
Theorem abandoned_reservation_blocks id sys sys' i c r :
  running_in possible sys -> abandoned id sys -> rtc (system_step_in possible) sys sys' ->
  (exists row, sys_approvals sys' !! id = Some row /\ ar_state row = Reserved) /\
  (sys_calls sys' !! i = Some c -> key c = id -> call_phase c <> Returned (Ok r)).
Proof.
  intros Hrun Ha Hsteps. pose proof (running_sound _ _ Hrun) as Hs.
  destruct (abandoned_steps _ _ _ Hs Hsteps Ha) as [(row & Hrow & Hst) _].
  split; [by exists row|]. intros Hi Hk Hph.
  destruct Hrun as (w & Hw & Hr).
  assert (Hrun' : running_in possible sys') by (exists w; split; [done|by etrans]).
  destruct (returned_follows _ _ _ _ _ Hrun' Hi Hph) as (cp & b & (row' & d & Hrow' & _ & Hd & _) & _).
  rewrite Hk, Hrow in Hrow'. injection Hrow' as <-. unfold row_decision in Hd. by rewrite Hst in Hd.
Qed.

(** ** Interrupted decisions *)

Fixpoint call_run (n : nat) (x : circumstances) (c : call) (s : approvals) (w : db)
    : call * approvals * db :=
  match n with
  | O => (c, s, w)
  | S n' => let '(c', s', w') := call_step x c s w in call_run n' x c' s' w'
  end.

Lemma call_run_step c' s' w' n x c s w :
  call_step x c s w = (c', s', w') -> call_run (S n) x c s w = call_run n x c' s' w'.
Proof. intros Hs. cbn. by rewrite Hs. Qed.

Lemma decision_row_decodes cp d id :
  decision_row cp = Ok d -> exists cp', checkpoint_of id d = Ok cp' /\ agrees cp' d.
Proof.
  intros Hd. assert (Hr : exists l, dc_risk_reasons d = JArr (map JStr l)).
  { unfold decision_row in Hd. do 4 apply res_bind_Ok in Hd as (? & _ & Hd).
    apply res_bind_Ok in Hd as (risks & Hrisks & [= <-]).
    unfold jsonb_column in Hrisks. case_match; [done|]. injection Hrisks as <-.
    eexists. apply json_trip_texts. }
  destruct Hr as [l Hl]. destruct (checkpoint_of id d) as [cp'|e] eqn:E.
  - exists cp'. split; [done|]. by eapply checkpoint_agrees.
  - unfold checkpoint_of in E. rewrite Hl in E. by rewrite decode_strings_trip in E.
Qed.

Lemma load_ready start s row d cp :
  text_column (Start_ApprovalID start) = Ok (Start_ApprovalID start) ->
  s !! Start_ApprovalID start = Some row -> ar_request_digest row = RequestDigest start ->
  ar_state row = DecisionReady d -> checkpoint_of (Start_ApprovalID start) d = Ok cp ->
  load start s = Ok (mkHandle start false (Some cp) None, false).
Proof.
  intros Ht Hrow Hdig Hst Hcp. unfold load. rewrite Ht. cbn. rewrite Hrow, Hdig.
  rewrite bool_decide_true by done. cbn. by rewrite Hst, Hcp.
Qed.

Lemma Complete_ready start clock w2 h result s row d cp :
  text_column (Start_ApprovalID start) = Ok (Start_ApprovalID start) ->
  h_start h = start -> h_decision h = Some cp ->
  s !! Start_ApprovalID start = Some row -> ar_state row = DecisionReady d ->
  Complete Answered w2 clock h result s =
    (Ok tt, mkHandle start (h_owner h) (h_decision h) (Some result),
     <[Start_ApprovalID start := with_state (ApprovalCompleted d clock) row]> s).
Proof.
  intros Ht <- Hd Hrow Hst. unfold Complete. rewrite Hd. cbn.
  unfold statement, run_tx, update_ready, mbind, tx_bind, tx_lift, tx_get. rewrite Ht. cbn.
  by rewrite Hrow, Hst.
Qed.

(** ** The steps of a call that finds a decision *)

Section recovery.
Variables (x : circumstances) (c : call) (s : approvals) (w : db).
Variables (row row' : approval_row) (d : decision_columns) (cp : DecisionCheckpoint).
Hypothesis Hans : ledger_reply x = Answered.
Hypothesis Hrr : reserved_row (call_start c) = Ok (key c, row').
Hypothesis Hrow : s !! key c = Some row.
Hypothesis Hdig : ar_request_digest row = call_digest c.
Hypothesis Hst : ar_state row = DecisionReady d.
Hypothesis Hcp : checkpoint_of (key c) d = Ok cp.

Let h : handle := mkHandle (call_start c) false (Some cp) None.

Lemma step_not_reserved :
  call_phase c = Reserving -> call_step x c s w = (at_phase Loading c, s, w).
Proof.
  intros Hph. unfold call_step. rewrite Hph, Hans. unfold insert_reservation, statement, run_tx, mbind,
    tx_bind, tx_lift, tx_get. rewrite Hrr. by rewrite Hrow.
Qed.

Lemma start_text : text_column (Start_ApprovalID (call_start c)) = Ok (key c).
Proof.
  unfold reserved_row in Hrr. apply res_bind_Ok in Hrr as (i & Hi & _).
  rewrite Hi. by apply text_column_Ok in Hi as ->.
Qed.

Lemma step_loads_decision :
  call_step x (at_phase Loading c) s w = (at_phase (Begun h) c, s, w).
Proof.
  unfold call_step. cbn [call_phase at_phase]. rewrite Hans. unfold query.
  change (call_start (at_phase Loading c)) with (call_start c).
  by rewrite (load_ready (call_start c) s row d cp start_text Hrow Hdig Hst Hcp).
Qed.

Lemma step_completes r :
  call_step x (at_phase (Completing h r) c) s w =
    (at_phase (Returning (mkHandle (call_start c) false (Some cp) (Some r)) (Ok r)) c,
     <[key c := with_state (ApprovalCompleted d (ledger_clock x)) row]> s, w).
Proof.
  unfold call_step. cbn [call_phase at_phase]. rewrite Hans.
  by rewrite (Complete_ready (call_start c) (ledger_clock x) (second_reply x) h r s row d cp start_text
    eq_refl eq_refl Hrow Hst).
Qed.

End recovery.

(** A decision that was checkpointed before its caller died is completed by asking again: when
    the statements are answered and the workflow accepts the command (it was carried out before, or
    it still applies), the repeated request returns the checkpointed decision after six steps and
    the row is completed with it. *)
Theorem interrupted_decision_recovers x request decision reason s w cs row row' d r w' :
  let c := Service_decide request decision reason in
  running_in possible (mkSystem s w cs) -> call_phase c = Reserving ->
  reserved_row (call_start c) = Ok (key c, row') ->
  s !! key c = Some row -> ar_request_digest row = call_digest c -> ar_state row = DecisionReady d ->
  ledger_reply x = Answered ->
  (forall cp, agrees cp d -> ExecuteTask (climate x) (ctx_done x) (command_of c cp) w = (Ok r, w')) ->
  exists result,
    call_run 6 x c s w = (at_phase (Returned (Ok result)) c,
      <[key c := with_state (ApprovalCompleted d (ledger_clock x)) row]> s, w') /\
    Decision result = dc_decision d /\ Elevated result = dc_elevated d /\
    ApprovalArtifact result = mkArtifactRef (dc_artifact_uri d) (dc_artifact_digest d).
Proof.
  intros c Hrun Hph Hrr Hrow Hdig Hst Hans Hexec. clearbody c.
  assert (Hd : row_decision row = Some d) by (unfold row_decision; by rewrite Hst).
  destruct (sound_rows _ _ (running_sound _ _ Hrun) _ _ Hrow d Hd)
    as (req0 & dec0 & rea0 & env0 & cp0 & _ & _ & _ & _ & Hdr).
  destruct (decision_row_decodes cp0 d (key c) Hdr) as (cp & Hcp & Hag).
  set (h := mkHandle (call_start c) false (Some cp) None).
  set (result := set_replayed (Replay r) (Checkpoint_Result cp)).
  exists result. split; [|destruct Hag; by cbn].
  rewrite (call_run_step _ _ _ _ _ _ _ _ (step_not_reserved x c s w row row' Hans Hrr Hrow Hph)).
  rewrite (call_run_step _ _ _ _ _ _ _ _
    (step_loads_decision x c s w row row' d cp Hans Hrr Hrow Hdig Hst Hcp)).
  rewrite (call_run_step (at_phase (Applying h cp) c) s w) by reflexivity.
  rewrite (call_run_step (at_phase (Completing h result) c) s w').
  2: { unfold call_step. cbn [call_phase at_phase]. unfold command_of in Hexec |- *.
       cbn [at_phase call_request]. by rewrite (Hexec cp Hag). }
  rewrite (call_run_step _ _ _ _ _ _ _ _ (step_completes x c s w' row row' d cp Hans Hrr Hrow Hst result)).
  reflexivity.
Qed.

End guarantees.

(** * Concrete approvals

    A task that waits for its approval, calls that race for it, one that
    crashes after its checkpoint and one whose reservation is lost; and the
    theorems of the approval service applied to them. *)

(** ** A task under review *)

Definition reviewed_history : list TaskCommand :=
  let l := sample_lease 1 in
  [ LeaseTask (meta "c1" ActorWorkflowService 1 10) "run-1" "task-1" l;
    StartReasoning (meta "c2" ActorReasoningService 2 20) "run-1" "task-1" l;
    AcceptTaskProposal (meta "c3" ActorExecutionService 3 30) "run-1" "task-1" (artifact_of "proposal") l;
    RecordTaskExecution (meta "c4" ActorExecutionService 4 40) "run-1" "task-1"
      (artifact_of "proposal") (artifact_of "execution") hex40 l;
    RecordTaskVerification (meta "c5" ActorVerificationService 5 50) "run-1" "task-1"
      hex40 (artifact_of "verification") true;
    RecordTaskReview (meta "c6" ActorReviewService 6 60) "run-1" "task-1" hex40
      (artifact_of "review") true ].

Definition awaiting_db : db :=
  execute_all (executing_commands ++ map inr reviewed_history) empty_db.

Definition sample_report : ReviewReport :=
  mkReviewReport "1" "review-1" "2024-01-01T00:00:00Z" "run-1" "task-1" 1 hex40 hex64 hex64
    (Digest (artifact_of "proposal")) (artifact_of "request") (artifact_of "proposal")
    (artifact_of "execution") (artifact_of "verification") [] [] "approve" [] [] [] true.

Definition sample_approval_request : ApprovalRequest :=
  mkApprovalRequest "approval-1" (at_time 70)
    (mkPrincipal "human-1" [RoleElevatedApprover; RoleApprover]) "run-1" "task-1" hex40 hex64 hex64
    ["go.mod"] ["public-api-contract"] (artifact_of "proposal") (artifact_of "execution")
    (artifact_of "verification") (artifact_of "review") 7.

(** ** What the calls meet *)

Definition sample_surroundings : surroundings :=
  mkSurroundings
    (fun ref => match find (fun body => sha256_hex body == Digest ref)
                        ["proposal"; "execution"; "verification"; "review"] with
                | Some body => Ok body | None => Err (ErrNew "not found") end)
    (fun body => Ok (artifact_of body))
    (fun body => if body == "review" then Some (sample_report, "") else None)
    (fun rest => rest == "").

Definition meeting (r : reply) : circumstances :=
  mkCircumstances sample_surroundings r Answered 0 None (fun _ => Clear) (fun _ => None).

(** A request comes in, or the call [i] makes a step. *)
Definition play (m : option (nat * reply)) : action :=
  match m with
  | None => Enter (ApproveTask_call sample_approval_request)
  | Some (i, r) => Step i (meeting r)
  end.

Lemma plays_admissible l : Forall (admissible entered (fair_in (eq sample_surroundings))) (map play l).
Proof.
  apply Forall_map, Forall_true. intros [[i r]|]; [split; [intros n o e Hx; discriminate Hx|done]|].
  by eexists _, _, _.
Qed.

Definition run_script (l : list (option (nat * reply))) (sys : system) : system :=
  drive call_step (map play l) sys.

Definition fresh_system : system := mkSystem ∅ awaiting_db [].

(** The steps of a script meet the sample surroundings and no others. *)
Lemma script_running_in l : running_in (eq sample_surroundings) (run_script l fresh_system).
Proof. apply drive_started; [apply execute_all_reachable, reachable_empty|apply plays_admissible]. Qed.

Lemma script_running l : running (run_script l fresh_system).
Proof. eapply started_mono, script_running_in; [done|]. by intros x [Hx _]. Qed.

Lemma script_steps l sys : rtc system_step sys (run_script l sys).
Proof.
  apply drive_steps. eapply Forall_impl; [apply plays_admissible|]. intros [c|i x]; [done|]. by intros [Hx _].
Qed.

(** ** Histories *)

Definition steps_of (i n : nat) : list (option (nat * reply)) := replicate n (Some (i, Answered)).

(** Two calls for the same approval; the first reserves and decides, the second waits and replays. *)
Definition race : list (option (nat * reply)) :=
  [None; None; Some (0%nat, Answered)] ++
  steps_of 1 3 ++ steps_of 0 5.

(** The first call stops after its checkpoint. *)
Definition interrupted : list (option (nat * reply)) := None :: steps_of 0 3.

(** The first call stops after its reservation, whose answer is lost. *)
Definition lost : list (option (nat * reply)) :=
  [None; Some (0%nat, AnswerLost (ErrNew "connection reset"))].

Definition no_call : call := mkCall sample_approval_request "" "" "" Reserving.
Definition call_at (i : nat) (sys : system) : call := nth i (sys_calls sys) no_call.

Definition returned (c : call) : ApprovalResult :=
  match call_phase c with
  | Returned (Ok r) => r
  | _ => mkApprovalResult "" "" (mkArtifactRef "" "") false [] false
  end.

Definition raced : system := run_script race fresh_system.
Definition race_done : system := run_script (steps_of 1 4) raced.

Example race_answers :
  map (fun i => (Decision (returned (call_at i race_done)), RiskReasons (returned (call_at i race_done)),
                 Result_Replayed (returned (call_at i race_done)))) [0%nat; 1%nat] =
  [("approve", ["path:go.mod"; "resource:public-api-contract"], false);
   ("approve", ["path:go.mod"; "resource:public-api-contract"], true)].
Proof. vm_compute. reflexivity. Qed.

Example race_task : task_states (sys_workflow race_done) = [("task-1", TaskStateAccepted)].
Proof. vm_compute. reflexivity. Qed.

Example lost_row :
  option_map ar_state (sys_approvals (run_script lost fresh_system) !! "approval-1") =
  Some Reserved.
Proof. vm_compute. reflexivity. Qed.

(** ** Witnesses *)

Lemma approval_decided_once_witness :
  let first := call_at 0 raced in let second := call_at 1 race_done in
  call_digest first = call_digest second /\ Decision (returned first) = Decision (returned second) /\
  ApprovalArtifact (returned first) = ApprovalArtifact (returned second) /\
  Elevated (returned first) = Elevated (returned second).
Proof.
  intros first second.
  apply (approval_decided_once raced race_done 0 1).
  - exact (script_running race).
  - exact (script_steps (steps_of 1 4) raced).
  - vm_compute. reflexivity.
  - vm_compute. reflexivity.
  - vm_compute. reflexivity.
  - vm_compute. reflexivity.
  - vm_compute. reflexivity.
Defined.

(** The second call carries the decision out before the first one has. *)
Definition applying : system := run_script interrupted fresh_system.
Definition applied : call * approvals * db :=
  call_step (meeting Answered) (call_at 0 applying) (sys_approvals applying) (sys_workflow applying).

Lemma applying_call : sys_calls applying !! 0%nat = Some (call_at 0 applying).
Proof. vm_compute. reflexivity. Qed.

Lemma applied_parts :
  call_step (meeting Answered) (call_at 0 applying) (sys_approvals applying) (sys_workflow applying) =
  (fst (fst applied), snd (fst applied), snd applied).
Proof. unfold applied. by destruct (call_step _ _ _ _) as [[]]. Qed.

Lemma applied_task : task_states (snd applied) = [("task-1", TaskStateAccepted)].
Proof. vm_compute. reflexivity. Qed.

Lemma applying_task : task_states (sys_workflow applying) = [("task-1", TaskStateAwaitingApproval)].
Proof. vm_compute. reflexivity. Qed.

Lemma workflow_guarded_witness :
  (exists row d, sys_approvals applying !! "approval-1" = Some row /\ row_decision row = Some d /\
     duly_decided (eq sample_surroundings) "approval-1" (ar_request_digest row) d) /\
  exists h cp row d, call_phase (call_at 0 applying) = Applying h cp /\
    sys_approvals applying !! key (call_at 0 applying) = Some row /\
    ar_request_digest row = call_digest (call_at 0 applying) /\ row_decision row = Some d /\
    agrees cp d /\
    snd applied = snd (ExecuteTask (climate (meeting Answered)) (ctx_done (meeting Answered))
                         (command_of (call_at 0 applying) cp) (sys_workflow applying)).
Proof.
  destruct (workflow_guarded (eq sample_surroundings) (sys_approvals applying)
    (sys_workflow applying) (sys_calls applying)
    (started_parts _ _ _ _ applying (script_running_in interrupted))) as [Hrows Hsteps].
  split.
  - eexists _, _. split; [vm_compute; reflexivity|]. split; [reflexivity|].
    apply Hrows; [vm_compute; reflexivity|reflexivity].
  - apply (Hsteps (meeting Answered) 0%nat (call_at 0 applying) (fst (fst applied))
      (snd (fst applied)) (snd applied)).
    + exact applying_call.
    + exact applied_parts.
    + intros Heq. pose proof applied_task as Ha. rewrite Heq, applying_task in Ha. discriminate Ha.
Defined.

Definition ready_columns : decision_columns :=
  match option_map ar_state (sys_approvals applying !! "approval-1") with
  | Some (DecisionReady d) => d
  | _ => mkDecisionColumns "" "" "" "" false JNull
  end.

Definition no_row : approval_row :=
  mkApprovalRow "" 0 "" "" "" "" "" "" "" "" "" "" Reserved.

Definition ready_row : approval_row := default no_row (sys_approvals applying !! "approval-1").

(** The command that the checkpointed decision stands for. *)
Definition ready_execution : res CommandResult * db :=
  ExecuteTask (climate (meeting Answered)) (ctx_done (meeting Answered))
    (approvalCommand sample_approval_request (dc_decision ready_columns) (dc_reason ready_columns)
       (mkArtifactRef (dc_artifact_uri ready_columns) (dc_artifact_digest ready_columns)))
    (sys_workflow applying).

Lemma call_request_entered request :
  call_request (ApproveTask_call request) = request.
Proof. unfold ApproveTask_call, Service_decide. by destruct (approvalRequestDigest _ _ _). Qed.

Lemma ready_execution_Ok :
  ready_execution = (Ok (result no_result (fst ready_execution)), snd ready_execution).
Proof.
  assert (Ho : is_Ok (fst ready_execution) = true) by (vm_compute; reflexivity).
  destruct ready_execution as [[r|e] w]; [done|discriminate Ho].
Qed.

Lemma ready_row_state : ar_state ready_row = DecisionReady ready_columns.
Proof. vm_compute. reflexivity. Qed.

Lemma ready_row_stored :
  sys_approvals applying !! key (ApproveTask_call sample_approval_request) = Some ready_row.
Proof. vm_compute. reflexivity. Qed.

Lemma ready_row_digest :
  ar_request_digest ready_row = call_digest (ApproveTask_call sample_approval_request).
Proof. vm_compute. reflexivity. Qed.

Definition repeated_row : approval_row :=
  snd (result ("", no_row) (reserved_row (call_start (ApproveTask_call sample_approval_request)))).

Lemma repeated_row_reserved :
  reserved_row (call_start (ApproveTask_call sample_approval_request)) =
  Ok (key (ApproveTask_call sample_approval_request), repeated_row).
Proof. vm_compute. reflexivity. Qed.

Lemma repeated_phase : call_phase (ApproveTask_call sample_approval_request) = Reserving.
Proof. vm_compute. reflexivity. Qed.

(** The command of the repeated request is the one that was checkpointed. *)
Lemma repeated_execution cp :
  agrees cp ready_columns ->
  ExecuteTask (climate (meeting Answered)) (ctx_done (meeting Answered))
    (command_of (ApproveTask_call sample_approval_request) cp) (sys_workflow applying) =
  (Ok (result no_result (fst ready_execution)), snd ready_execution).
Proof.
  intros [Hd Hr Ha _]. unfold command_of. rewrite call_request_entered, Hd, Hr, Ha.
  refine (eq_trans _ ready_execution_Ok). unfold ready_execution at 1. reflexivity.
Qed.

Lemma interrupted_decision_recovers_witness :
  exists result,
    call_run 6 (meeting Answered) (ApproveTask_call sample_approval_request)
      (sys_approvals applying) (sys_workflow applying) =
      (at_phase (Returned (Ok result)) (ApproveTask_call sample_approval_request),
       <[key (ApproveTask_call sample_approval_request) :=
           with_state (ApprovalCompleted ready_columns 0) ready_row]> (sys_approvals applying),
       snd ready_execution) /\
    Decision result = dc_decision ready_columns /\ Elevated result = dc_elevated ready_columns /\
    ApprovalArtifact result =
      mkArtifactRef (dc_artifact_uri ready_columns) (dc_artifact_digest ready_columns).
Proof.
  exact (interrupted_decision_recovers anything (meeting Answered) sample_approval_request "approve" ""
    (sys_approvals applying) (sys_workflow applying) (sys_calls applying) ready_row
    repeated_row ready_columns (result no_result (fst ready_execution)) (snd ready_execution)
    (started_parts _ _ _ _ applying (script_running interrupted)) repeated_phase repeated_row_reserved
    ready_row_stored ready_row_digest ready_row_state eq_refl repeated_execution).
Defined.

Lemma elevated_risk_exact_witness :
  ClassifyElevatedRisk ["src/main.go"; "go.mod"; "db/Migrations/1.SQL"] ["public-api-contract"] =
    ["path:db/Migrations/1.SQL"; "path:go.mod"; "resource:public-api-contract"] /\
  Sorted String.le
    (ClassifyElevatedRisk ["src/main.go"; "go.mod"; "db/Migrations/1.SQL"] ["public-api-contract"]).
Proof.
  split; [vm_compute; reflexivity|].
  exact (proj1 (elevated_risk_exact ["src/main.go"; "go.mod"; "db/Migrations/1.SQL"]
    ["public-api-contract"])).
Defined.
