(* ===== verification/RvService.v ===== *)
(** * The review service

    Models [go/internal/review/service.go] and [types.go]: what a review is
    about is checked against the reports of the execution and of the
    verification, the gateway is asked for a proposal, its findings decide
    whether the review passes, and the report is stored and recorded with the
    task.  The service keeps no ledger of its own: a call is one function of
    what it meets.  The artifact store, the strict decoders of the two reports
    and the gateway are arguments. *)

From S2P Require Import Prelude GoStd GoJson GoText WfTypes WfTask WfDigest WfDb WfStore CtMessages CtCommon.
From S2P Require Import CtImplementation CtReview Approval ExRequest VfEvidence GwLedger GwService.

Definition RvErrInvalidRequest : error := ErrNew "invalid review request".
Definition RvErrArtifactIntegrity : error := ErrNew "review artifact integrity check failed".
Definition ErrPolicyViolation : error := ErrNew "review policy violation".

(** ** Data *)

Record RvRequest := mkRvRequest {
  Rv_ReviewID : string;
  ReviewTimestamp : time;
  Rv_Review : option pb_ReviewRequest;
  Rv_ExecutionArtifact : ArtifactRef;
  VerificationArtifact : ArtifactRef;
  Rv_ExclusiveResourceLabels : list string;
  Rv_ExpectedTaskRevision : Z;
}.

Record RvResult := mkRvResult {
  Rv_Result_ReviewID : string;
  Rv_Result_CandidateCommit : string;
  Rv_Result_ReportArtifact : ArtifactRef;
  Rv_Result_Recommendation : Z;
  Rv_Result_Passed : bool;
  Rv_Result_Replay : bool;
}.

(** What a call meets. *)
Record rv_surroundings := mkRvSurroundings {
  Rv_Get : ArtifactRef -> res string;
  Rv_Put : string -> res ArtifactRef;
  Rv_ProposeReview : pb_ReviewRequest -> res (Outcome pb_ReviewProposal);
  (** a strict decoder: the value and what follows it *)
  Decode_execution : string -> option (ExecutionReport * string);
  Decode_verification : string -> option (VerificationReport * string);
  Rv_at_EOF : string -> bool;
}.

(** [^[a-z0-9][a-z0-9-]{0,62}$] *)
Definition resourceLabelPattern : string -> bool :=
  matches (Cat (Class (fun c => is_lower c || is_digit c))
    (up_to 62 (Class (fun c => is_lower c || is_digit c || (c == "-"%char))))).

Definition i32 (z : Z) : Z := (z + 2 ^ 31) `mod` 2 ^ 32 - 2 ^ 31.

(** ** The request against its evidence *)

Definition fixedPolicy (policy : option pb_ReviewPolicy) : res unit :=
  let severities := rp_blocking_severities (policy_of policy) in
  if bool_decide (policy = None) || negb (rp_report_unrequested_changes (policy_of policy)) ||
     negb (length severities =? 2)%nat || negb (bool_decide (FINDING_SEVERITY_HIGH ∈ severities)) ||
     negb (bool_decide (FINDING_SEVERITY_CRITICAL ∈ severities))
  then Err (ErrWrap ErrPolicyViolation "HIGH and CRITICAL must block") else Ok tt.

Definition request_envelope (request : RvRequest) : pb_ReasoningRequestEnvelope :=
  envelope_of (r ← Rv_Review request; rr_envelope r).

(** The first input artifact with the digest. *)
Definition ReviewArtifactInput (request : RvRequest) (digest : string) : ArtifactRef :=
  match list_find (fun value => ad_sha256 value = digest) (re_input_artifacts (request_envelope request)) with
  | Some (_, value) => mkArtifactRef (ad_artifact_uri value) digest
  | None => mkArtifactRef "" ""
  end.

Definition envelopeContains (request : RvRequest) (digest : string) : bool :=
  existsb (fun artifact => (ad_sha256 artifact == digest) &&
      (ad_artifact_uri artifact == "artifact://sha256/" +:+ digest))
    (re_input_artifacts (request_envelope request)).

(** [*request.Envelope.TaskID], which every mapped request has. *)
Definition review_task (request : ReviewRequest) : string := default "" (Env_TaskID (RV_Envelope request)).

Definition executionMatches (report : ExecutionReport) (request : ReviewRequest) (artifact : ArtifactRef)
    : bool :=
  (Exec_SchemaVersion report == "1") && (Exec_RunID report == Env_RunID (RV_Envelope request)) &&
  (Exec_TaskID report == review_task request) &&
  (Exec_Attempt report =? Env_Attempt (RV_Envelope request)) &&
  (Exec_BaseCommit report == RV_BaseCommit request) &&
  (Exec_CandidateCommit report == RV_CandidateCommit request) &&
  (Digest (Exec_Proposal report) == ImplementationProposalDigest request) && (URI artifact != "").

Definition verificationMatches (report : VerificationReport) (request : ReviewRequest)
    (executionArtifact : ArtifactRef) : bool :=
  (VR_SchemaVersion report == "1") && VR_Passed report &&
  (VR_RunID report == Env_RunID (RV_Envelope request)) && (VR_TaskID report == review_task request) &&
  (VR_Attempt report =? Env_Attempt (RV_Envelope request)) &&
  (VR_BaseCommit report == RV_BaseCommit request) &&
  (VR_CandidateCommit report == RV_CandidateCommit request) &&
  ArtifactRef_Equal (VR_Execution report) executionArtifact.

Definition fileOperation (value : FileOperation) : Z :=
  match value with
  | FileCreate => FILE_OPERATION_CREATE
  | FileUpdate => FILE_OPERATION_UPDATE
  | FileDelete => FILE_OPERATION_DELETE
  end.

(** Two slices of the same length, side by side. *)
Fixpoint for_each2 {A B} (f : A -> B -> res unit) (l : list A) (k : list B) : res unit :=
  match l, k with
  | a :: l, b :: k => f a b ;; for_each2 f l k
  | _, _ => Ok tt
  end.

Section checks.
Context `{Platform} `{Protobuf}.

Definition validateReviewRequestMetadata (request : RvRequest) : res unit :=
  if negb (uuid_Parse_ok (Rv_ReviewID request)) || IsZero (ReviewTimestamp request) ||
     bool_decide (Rv_Review request = None) || (Rv_ExpectedTaskRevision request =? 0)
  then Err RvErrInvalidRequest
  else
    for_each (fun label => if negb (resourceLabelPattern label)
                           then Err (ErrWrap RvErrInvalidRequest "resource label") else Ok tt)
      (Rv_ExclusiveResourceLabels request) ;;
    fixedPolicy (r ← Rv_Review request; rr_review_policy r).

Definition FileOperation_String (operation : Z) : string := EnumStringOf FileOperation_name operation.

Definition crossCheckDiff (request : pb_ReviewRequest) (report : ExecutionReport) : res unit :=
  if negb (length (rr_actual_diff request) =? length (ExRequest.ActualDiff report))%nat
  then Err (ErrWrap RvErrInvalidRequest "actual diff length")
  else
    for_each2 (fun actual provided =>
      if (df_path provided != ExRequest.Diff_Path actual) ||
         (FileOperation_String (df_operation provided) !=
          FileOperation_String (fileOperation (ExRequest.Diff_Operation actual))) ||
         (df_before_sha256 provided != ExRequest.BeforeSHA256 actual) ||
         (df_after_sha256 provided != ExRequest.AfterSHA256 actual)
      then Err (ErrWrap RvErrInvalidRequest "actual diff") else Ok tt)
      (ExRequest.ActualDiff report) (rr_actual_diff request).

(** [AsTime().UTC().Format(time.RFC3339Nano)] of a timestamp that may be nil. *)
Definition timestamp_text (t : option Timestamp) : string :=
  rfc3339_nano (UTC (AsTime (default (mkTimestamp 0 0) t))).

Definition measurement_matches (check : CheckResult) (evidence : pb_IndependentEvidence) : bool :=
  (ie_check_id evidence == Result_CheckID check) &&
  (ie_candidate_commit evidence == Result_CandidateCommit check) &&
  (ie_exit_code evidence =? i32 (VfEvidence.ExitCode check)) &&
  (ie_output_sha256 evidence == OutputDigest check) &&
  (ie_artifact_uri evidence == URI (VfEvidence.Output check)) &&
  (timestamp_text (ie_started_at evidence) == VfEvidence.StartedAt check) &&
  (timestamp_text (ie_completed_at evidence) == FinishedAt check).

Fixpoint crossCheckMeasurements (evidenceValues : list pb_IndependentEvidence)
    (checks : list CheckResult) (evidenceByCheck : gmap string string) : res (gmap string string) :=
  match checks, evidenceValues with
  | check :: checks, evidence :: evidenceValues =>
      if negb (measurement_matches check evidence)
      then Err (ErrWrap RvErrInvalidRequest "verification evidence")
      else
        crossCheckMeasurements evidenceValues checks
          (<[Result_CheckID check := ie_evidence_id evidence]> evidenceByCheck)
  | _, _ => Ok evidenceByCheck
  end.

Definition crossCheckCoverage (providedCoverage : list pb_AcceptanceEvidence)
    (reportCoverage : list CriterionCoverage) (evidenceByCheck : gmap string string) : res unit :=
  let failed := Err (ErrWrap RvErrInvalidRequest "acceptance coverage") in
  for_each2 (fun coverage provided =>
    if (ae_acceptance_criterion_id provided != Coverage_CriterionID coverage) ||
       negb (length (ae_evidence_ids provided) =? length (Coverage_CheckIDs coverage))%nat
    then failed
    else
      for_each2 (fun checkID evidenceID =>
        if evidenceID != default "" (evidenceByCheck !! checkID) then failed else Ok tt)
        (Coverage_CheckIDs coverage) (ae_evidence_ids provided))
    reportCoverage providedCoverage.

Definition crossCheckEvidence (request : pb_ReviewRequest) (report : VerificationReport) : res unit :=
  if negb (length (rr_independent_evidence request) =? length (VR_Checks report))%nat ||
     negb (length (rr_acceptance_coverage request) =? length (VR_Coverage report))%nat
  then Err (ErrWrap RvErrInvalidRequest "verification evidence length")
  else
    evidenceByCheck ←
      crossCheckMeasurements (rr_independent_evidence request) (VR_Checks report) ∅;
    crossCheckCoverage (rr_acceptance_coverage request) (VR_Coverage report) evidenceByCheck.

(** The message of the request, which validation has found not to be nil. *)
Definition review_of (request : RvRequest) : pb_ReviewRequest :=
  default (mkPbReviewRequest None None [] None [] [] None [] []) (Rv_Review request).

Definition validateUpstreamBindings (request : RvRequest) (mapped : ReviewRequest)
    (executionReport : ExecutionReport) (verificationReport : VerificationReport) : res unit :=
  let execution := Rv_ExecutionArtifact request in
  let verification := VerificationArtifact request in
  if negb (executionMatches executionReport mapped execution) ||
     negb (verificationMatches verificationReport mapped execution) ||
     negb (ArtifactRef_Equal execution (ReviewArtifactInput request (Digest execution))) ||
     negb (ArtifactRef_Equal verification (ReviewArtifactInput request (Digest verification)))
  then Err (ErrWrap RvErrInvalidRequest "upstream evidence binding")
  else
    crossCheckDiff (review_of request) executionReport ;;
    crossCheckEvidence (review_of request) verificationReport ;;
    if negb (envelopeContains request (Digest execution)) ||
       negb (envelopeContains request (Digest verification)) ||
       negb (envelopeContains request (ImplementationProposalDigest mapped))
    then Err (ErrWrap RvErrInvalidRequest "input artifact digest") else Ok tt.

Definition loadJSON {T} (around : rv_surroundings) (decode : string -> option (T * string))
    (ref : ArtifactRef) : res T :=
  map_err (fun _ => ErrWrap RvErrInvalidRequest "artifact reference") (ArtifactRef_Validate ref) ;;
  body ← map_err (fun e => ErrWrap e "load review input artifact") (Rv_Get around ref);
  if sha256_hex body != Digest ref then Err RvErrArtifactIntegrity
  else
    match decode body with
    | None => Err (ErrWrap RvErrArtifactIntegrity "decode upstream report")
    | Some (value, rest) =>
        if negb (Rv_at_EOF around rest)
        then Err (ErrWrap RvErrArtifactIntegrity "upstream report trailer") else Ok value
    end.

Definition loadUpstreamReports (around : rv_surroundings) (request : RvRequest)
    : res (ExecutionReport * VerificationReport) :=
  executionReport ← loadJSON around (Decode_execution around) (Rv_ExecutionArtifact request);
  verificationReport ← loadJSON around (Decode_verification around) (VerificationArtifact request);
  Ok (executionReport, verificationReport).

Definition rv_validateRequest (around : rv_surroundings) (now : time) (request : RvRequest)
    : res (ReviewRequest * ExecutionReport * VerificationReport) :=
  validateReviewRequestMetadata request ;;
  mapped ← map_err (fun e => ErrWrap RvErrInvalidRequest (error_text e))
    (MapReviewRequestAt (Rv_Review request) (known_time (UTC now)));
  '(executionReport, verificationReport) ← loadUpstreamReports around request;
  validateUpstreamBindings request mapped executionReport verificationReport ;;
  Ok (mapped, executionReport, verificationReport).

End checks.

(** ** The proposal and the report *)

Definition blocks (finding : pb_ReviewFinding) : bool :=
  (rg_severity finding =? FINDING_SEVERITY_HIGH) || (rg_severity finding =? FINDING_SEVERITY_CRITICAL).

Definition blockingFindingIDs (findings : list pb_ReviewFinding) : list string :=
  map rg_finding_id (filter (fun finding => blocks finding = true) findings).

Definition enforceProposalPolicy (request : pb_ReviewRequest) (proposal : pb_ReviewProposal)
    (blocking : list string) : res unit :=
  if negb (length blocking =? 0)%nat &&
     negb (rv_recommendation proposal =? REVIEW_RECOMMENDATION_REWORK_REQUIRED)
  then Err (ErrWrap ErrPolicyViolation "blocking finding accepted")
  else
    for_each (fun changed =>
      if negb (bool_decide (changed ∈ rv_unrequested_changes proposal))
      then Err (ErrWrap ErrPolicyViolation "unrequested change not reported") else Ok tt)
      (ss_unexpected_changed_paths (scope_of (rr_scope_report request))).

(** A field with [omitempty]. *)
Definition text_field (name value : string) : list (string * json) :=
  if value == "" then [] else [(name, JStr value)].
Definition number_field (name : string) (value : Z) : list (string * json) :=
  if value =? 0 then [] else [(name, JNum value)].
Definition texts_field (name : string) (values : list string) : list (string * json) :=
  match values with [] => [] | _ => [(name, JArr (map JStr values))] end.

Definition finding_json (f : pb_ReviewFinding) : json :=
  JObj (text_field "finding_id" (rg_finding_id f) ++ number_field "severity" (rg_severity f) ++
        number_field "category" (rg_category f) ++ text_field "summary" (rg_summary f) ++
        texts_field "evidence_references" (rg_evidence_references f)).

Definition action_json (a : pb_RequiredAction) : json :=
  JObj (text_field "action_id" (ra_action_id a) ++ text_field "finding_id" (ra_finding_id a) ++
        text_field "description" (ra_description a)).

Definition review_report_json (r : ReviewReport) : json :=
  JObj [("schema_version", JStr (Report_SchemaVersion r)); ("review_id", JStr (Report_ReviewID r));
    ("reviewed_at", JStr (Report_ReviewedAt r)); ("run_id", JStr (Report_RunID r));
    ("task_id", JStr (Report_TaskID r)); ("attempt", JNum (Report_Attempt r));
    ("candidate_commit", JStr (Report_CandidateCommit r));
    ("approved_specification_digest", JStr (Report_SpecificationDigest r));
    ("approved_task_digest", JStr (Report_TaskDigest r));
    ("implementation_proposal_digest", JStr (Report_ImplementationProposalDigest r));
    ("request", artifact_json (Report_Request r)); ("proposal", artifact_json (Report_Proposal r));
    ("execution", artifact_json (Report_Execution r));
    ("verification", artifact_json (Report_Verification r));
    ("findings", JArr (map finding_json (Report_Findings r)));
    ("required_actions", JArr (map action_json (Report_RequiredActions r)));
    ("recommendation", JStr (Report_Recommendation r));
    ("risk_assessment", JObj [
      ("blocking_finding_ids", slice_json JStr (Report_BlockingFindingIDs r));
      ("unrequested_changes", slice_json JStr (Report_UnrequestedChanges r));
      ("exclusive_resources", slice_json JStr (Report_ExclusiveResources r))]);
    ("passed", JBool (Report_Passed r))].

(** ** The service *)

Record rv_circumstances := mkRvCircumstances {
  rx_around : rv_surroundings;
  rx_now : time;                      (** the clock at the validation *)
  rx_later : time;                    (** the clock at the command *)
  rx_climate : nat -> weather;
  rx_ctx_done : nat -> option error;
}.

Section service.
Context `{Platform} `{Protobuf}.
Variable actorID : string.

Definition artifactRef (value : ArtifactReference) : ArtifactRef :=
  mkArtifactRef (Reference_URI value) (SHA256 value).

Definition rv_storeContent (around : rv_surroundings) (body : string) : res ArtifactRef :=
  ref ← map_err (fun e => ErrWrap e "store review report") (Rv_Put around body);
  if negb (is_Ok (ArtifactRef_Validate ref)) || (Digest ref != sha256_hex body)
  then Err RvErrArtifactIntegrity else Ok ref.

Definition rv_id (request : RvRequest) (label : string) : string :=
  uuid_NewSHA1 "6ba7b811-9dad-11d1-80b4-00c04fd430c8"
    ("harness:review:" +:+ Rv_ReviewID request +:+ ":" +:+ label).

Definition rv_commandEnvelope (request : RvRequest) (timestamp : time) : CommandEnvelope :=
  mkEnvelope (rv_id request "record") (mkActor actorID ActorReviewService)
    (Rv_ExpectedTaskRevision request) timestamp (rv_id request "correlation")
    (rv_id request "record:cause").

(** The proposal of the gateway, mapped for the request. *)
Definition proposed (around : rv_surroundings) (request : RvRequest) (mapped : ReviewRequest)
    : res (Outcome pb_ReviewProposal * pb_ReviewProposal * ReviewProposal) :=
  outcome ← map_err (fun e => ErrWrap e "propose advisory review")
    (Rv_ProposeReview around (review_of request));
  match Outcome_Rejection outcome, Outcome_Proposal outcome with
  | Some _, _ => Err (ErrWrap RvErrInvalidRequest "reviewer rejected request")
  | None, None => Err (ErrWrap RvErrInvalidRequest "reviewer returned no proposal")
  | None, Some proposal =>
      value ← map_err (fun e => ErrWrap RvErrInvalidRequest ("review proposal: " +:+ error_text e))
        (MapReviewProposal (Some proposal) mapped);
      Ok (outcome, proposal, value)
  end.

Definition ReviewRecommendation_String (value : Z) : string := EnumStringOf ReviewRecommendation_name value.

Definition review_report (request : RvRequest) (mapped : ReviewRequest)
    (outcome : Outcome pb_ReviewProposal) (proposal : pb_ReviewProposal) (blocking : list string)
    (passed : bool) : ReviewReport :=
  mkReviewReport "1" (Rv_ReviewID request) (rfc3339_nano (UTC (ReviewTimestamp request)))
    (Env_RunID (RV_Envelope mapped)) (review_task mapped) (Env_Attempt (RV_Envelope mapped))
    (RV_CandidateCommit mapped) (RV_ApprovedSpecificationDigest mapped) (RV_ApprovedTaskDigest mapped)
    (ImplementationProposalDigest mapped) (artifactRef (Outcome_Request outcome))
    (artifactRef (Outcome_ProposalArtifact outcome)) (Rv_ExecutionArtifact request)
    (VerificationArtifact request) (rv_findings proposal) (rv_required_actions proposal)
    (ReviewRecommendation_String (rv_recommendation proposal)) blocking
    (rv_unrequested_changes proposal) (Rv_ExclusiveResourceLabels request) passed.

Definition review_command (request : RvRequest) (mapped : ReviewRequest) (report : ArtifactRef)
    (passed : bool) (timestamp : time) : TaskCommand :=
  RecordTaskReview (rv_commandEnvelope request timestamp) (Env_RunID (RV_Envelope mapped))
    (review_task mapped) (RV_CandidateCommit mapped) report passed.

(** What a review comes to before it is recorded. *)
Record reviewed := mkReviewed {
  rd_mapped : ReviewRequest;
  rd_execution : ExecutionReport;
  rd_verification : VerificationReport;
  rd_outcome : Outcome pb_ReviewProposal;
  rd_proposal : pb_ReviewProposal;
  rd_report : ArtifactRef;
  rd_passed : bool;
}.

(** [Review] up to the command. *)
Definition review_steps (around : rv_surroundings) (now : time) (request : RvRequest) : res reviewed :=
  '(mapped, executionReport, verificationReport) ← rv_validateRequest around now request;
  '(outcome, proposal, value) ← proposed around request mapped;
  let blocking := blockingFindingIDs (rv_findings proposal) in
  enforceProposalPolicy (review_of request) proposal blocking ;;
  let passed := (length blocking =? 0)%nat && bool_decide (Recommendation value = ReviewAdvisoryAccept) in
  reportArtifact ← rv_storeContent around
    (json_text (review_report_json (review_report request mapped outcome proposal blocking passed)));
  Ok (mkReviewed mapped executionReport verificationReport outcome proposal reportArtifact passed).

Definition Review (x : rv_circumstances) (request : RvRequest) (w : db) : res RvResult * db :=
  match review_steps (rx_around x) (rx_now x) request with
  | Err e => (Err e, w)
  | Ok r =>
      match ExecuteTask (rx_climate x) (rx_ctx_done x)
              (review_command request (rd_mapped r) (rd_report r) (rd_passed r) (UTC (rx_later x))) w with
      | (Err e, w') => (Err (ErrWrap e "record task review"), w')
      | (Ok commandResult, w') =>
          (Ok (mkRvResult (Rv_ReviewID request) (RV_CandidateCommit (rd_mapped r)) (rd_report r)
                 (rv_recommendation (rd_proposal r)) (rd_passed r)
                 (Replay commandResult || Outcome_Replay (rd_outcome r))), w')
      end
  end.

End service.
