(* ===== verification/RvProps.v ===== *)
(** * What the review service guarantees, with concrete reviews *)

From S2P Require Import Prelude GoStd GoJson GoText WfTypes WfTask WfRun WfRunProps WfDigest.
From S2P Require Import WfDb WfStore WfReplay WfInvariants CtMessages CtCommon CtImplementation.
From S2P Require Import CtReview CtRejections Approval ExRequest VfEvidence GwLedger.
From S2P Require Import GwService RvService PgRetry Samples WfGuarantees CtSamples.

(** * What the review service guarantees *)

(** ** The request against its evidence *)

Lemma for_each2_Ok {A B} (f : A -> B -> res unit) l k :
  length l = length k -> (for_each2 f l k = Ok tt <-> Forall2 (fun a b => f a b = Ok tt) l k).
Proof.
  revert k. induction l as [|a l IH]; intros [|b k] Hlen; try done; cbn.
  rewrite then_Ok, IH by (cbn in Hlen; lia). by rewrite Forall2_cons.
Qed.

Lemma Forall2_iff {A B} (P Q : A -> B -> Prop) l k :
  (forall a b, P a b <-> Q a b) -> Forall2 P l k <-> Forall2 Q l k.
Proof. intros Hpq. split; intros Hf; eapply Forall2_impl; try exact Hf; apply Hpq. Qed.

Section checks.
Context `{Platform} `{Protobuf}.

(** The file of the request and the file of the report. *)
Record same_change (actual : DiffEntry) (provided : pb_ActualDiffFile) : Prop := {
  sc_path : df_path provided = ExRequest.Diff_Path actual;
  sc_operation : FileOperation_String (df_operation provided) =
    FileOperation_String (fileOperation (ExRequest.Diff_Operation actual));
  sc_before : df_before_sha256 provided = ExRequest.BeforeSHA256 actual;
  sc_after : df_after_sha256 provided = ExRequest.AfterSHA256 actual;
}.

Lemma crossCheckDiff_Ok request report :
  crossCheckDiff request report = Ok tt <->
  Forall2 same_change (ExRequest.ActualDiff report) (rr_actual_diff request).
Proof.
  unfold crossCheckDiff. destruct (Nat.eqb_spec (length (rr_actual_diff request)) (length (ExRequest.ActualDiff report)))
    as [Hl|Hl]; cbn [negb].
  - rewrite for_each2_Ok by done. apply Forall2_iff. intros a p.
    split.
    + destruct (_ || _) eqn:E; [done|]. rewrite !orb_false_iff, !negb_false_iff, !bool_decide_eq_true in E.
      destruct E as [[[? ?] ?] ?]. by split.
    + intros [? ? ? ?]. rewrite !bool_decide_true by done. done.
  - split; [done|]. intros Hf%Forall2_length. lia.
Qed.

(** The measurement of the report that an evidence of the request repeats. *)
Definition measured (check : CheckResult) (evidence : pb_IndependentEvidence) : Prop :=
  measurement_matches check evidence = true.

Lemma crossCheckMeasurements_Ok values checks m m' :
  length values = length checks -> crossCheckMeasurements values checks m = Ok m' ->
  Forall2 measured checks values /\
  forall k i, m' !! k = Some i -> m !! k = Some i \/
    exists check evidence, check ∈ checks /\ evidence ∈ values /\ measured check evidence /\
      Result_CheckID check = k /\ ie_evidence_id evidence = i.
Proof.
  revert values m. induction checks as [|check checks IH]; intros [|evidence values] m Hlen; try done; cbn.
  - intros [= <-]. split; [constructor|by left].
  - destruct (measurement_matches check evidence) eqn:E; [cbn [negb]|done]. intros Hr.
    destruct (IH _ _ (eq_add_S _ _ Hlen) Hr) as [Hf Hm]. split; [by constructor|].
    intros k i Hk. destruct (Hm k i Hk) as [Hi|(c & e & Hc & He & Hmeas)].
    + destruct (decide (k = Result_CheckID check)) as [->|Hne].
      * rewrite lookup_insert_eq in Hi. injection Hi as <-. right. exists check, evidence.
        split_and!; [by left..|done|done|done].
      * rewrite lookup_insert_ne in Hi by done. by left.
    + right. exists c, e. split_and!; [by right..|apply Hmeas|apply Hmeas|apply Hmeas].
Qed.

(** The evidence that a criterion of the request names, check by check. *)
Definition names_evidence (m : gmap string string) (coverage : CriterionCoverage)
    (provided : pb_AcceptanceEvidence) : Prop :=
  ae_acceptance_criterion_id provided = Coverage_CriterionID coverage /\
  Forall2 (fun checkID evidenceID => evidenceID = default "" (m !! checkID))
    (Coverage_CheckIDs coverage) (ae_evidence_ids provided).

Lemma crossCheckCoverage_Ok provided coverage m :
  length provided = length coverage ->
  (crossCheckCoverage provided coverage m = Ok tt <-> Forall2 (names_evidence m) coverage provided).
Proof.
  intros Hl. unfold crossCheckCoverage. rewrite for_each2_Ok by done.
  apply Forall2_iff. intros c p. unfold names_evidence. split.
  - destruct (_ || _) eqn:E; [done|]. rewrite orb_false_iff, !negb_false_iff, bool_decide_eq_true, Nat.eqb_eq in E.
    destruct E as [E El]. rewrite for_each2_Ok by done. intros Hf. split; [done|].
    eapply Forall2_impl; [exact Hf|]. cbn. intros k i. by case_bool_decide.
  - intros [E Hf]. pose proof (Forall2_length _ _ _ Hf) as El.
    rewrite bool_decide_true by done. rewrite El, Nat.eqb_refl. cbn [negb orb].
    apply for_each2_Ok; [done|]. eapply Forall2_impl; [exact Hf|]. cbn. intros k i ->. by rewrite bool_decide_true.
Qed.

(** ** What the contract adds: covered criteria name evidence that passed *)

Lemma passing_evidence values commit known passing evidence passing' :
  mapIndependentEvidence_loop values commit known passing = Ok (evidence, passing') ->
  NoDup (map ie_evidence_id values) /\ (forall e, e ∈ values -> ie_evidence_id e ∉ known) /\
  (forall e, e ∈ values -> evidenceIDPattern (ie_evidence_id e) = true) /\
  (forall i, i ∈ passing' -> i ∈ passing \/
     exists e, e ∈ values /\ ie_evidence_id e = i /\ ie_exit_code e = 0).
Proof.
  revert known passing evidence passing'. induction values as [|v values IH];
    intros known passing evidence passing'; cbn [mapIndependentEvidence_loop].
  - intros [= _ <-]. split_and!; [constructor| | |by left]; intros e He; by apply elem_of_nil in He.
  - destruct (ie_started_at v), (ie_completed_at v); try done.
    rewrite !then_Ok, !unless_Ok, !orb_false_iff, !negb_false_iff, bool_decide_eq_false.
    intros ((((Hp & _) & _) & _) & _ & Hn & ([l q] & Hr & [= _ ->])%res_bind_Ok).
    apply IH in Hr as (Hnd & Hno & Hpat & Hpass). cbn [map]. rewrite NoDup_cons. split_and!; try done.
    + intros (e & He & Hin)%list_elem_of_fmap. destruct (Hno e Hin). rewrite <- He. set_solver.
    + intros e [->|He]%elem_of_cons; [done|]. specialize (Hno e He). set_solver.
    + intros e [->|He]%elem_of_cons; [by apply Hp|by apply Hpat].
    + intros i Hi. destruct (Hpass i Hi) as [Hq|(e & He & Hx)].
      * destruct (Z.eqb_spec (ie_exit_code v) 0) as [Hz|_]; [|by left].
        apply elem_of_union in Hq as [->%elem_of_singleton|Hq]; [|by left].
        right. exists v. split_and!; [by left|done..].
      * right. exists e. split; [by right|done].
Qed.

Lemma same_id {A} (f : A -> string) l x y :
  NoDup (map f l) -> x ∈ l -> y ∈ l -> f x = f y -> x = y.
Proof.
  intros Hnd (i & Hi)%list_elem_of_lookup (j & Hj)%list_elem_of_lookup Heq.
  assert (i = j) as ->; [|congruence].
  eapply (NoDup_lookup (map f l)); [done|..]; rewrite list_lookup_fmap;
    [rewrite Hi; done|rewrite Hj; cbn; by rewrite Heq].
Qed.

(** What an accepted request says of the evidence that its coverage names. *)
Lemma mapped_coverage value now r :
  MapReviewRequestAt (Some value) now = Ok r ->
  NoDup (map ie_evidence_id (rr_independent_evidence value)) /\
  forall a i, a ∈ rr_acceptance_coverage value -> i ∈ ae_evidence_ids a ->
    exists e, e ∈ rr_independent_evidence value /\ ie_evidence_id e = i /\ ie_exit_code e = 0 /\ i <> "".
Proof.
  unfold MapReviewRequestAt. intros (v & Hv & Hr)%res_bind_Ok. rewrite !then_Ok in Hr.
  destruct Hr as (_ & _ & _ & Hcov & _). unfold validateReviewRequestShape in Hv.
  rewrite then_Ok in Hv. destruct Hv as [_ [= <-]].
  unfold validateReviewRequestCoverage in Hcov. cbv zeta in Hcov. rewrite !then_Ok in Hcov.
  destruct Hcov as (_ & _ & Hcov). apply res_bind_Ok in Hcov as ([evidence passing] & He%rejecting_Ok & Hcov).
  rewrite !then_Ok in Hcov. destruct Hcov as [_ (l & Hc%rejecting_Ok & _)%res_bind_Ok].
  unfold mapAcceptanceCoverage in Hc. apply res_bind_Ok in Hc as ([l' c'] & Hc & _).
  apply passing_evidence in He as (Hnd & _ & Hpat & Hpass). split; [done|]. intros a i Ha Hi.
  assert (Hin : i ∈ passing).
  { clear -Hc Ha Hi. revert l' c' Hc. generalize (∅ : gset string).
    induction (rr_acceptance_coverage value) as [|b rest IH]; intros s l' c'; [by apply elem_of_nil in Ha|].
    cbn [mapAcceptanceCoverage_loop]. rewrite !then_Ok, all_in_set.
    intros (_ & _ & Hall & ([l2 c2] & Hr & _)%res_bind_Ok).
    apply elem_of_cons in Ha as [->|Ha]; [by apply Hall|by eapply IH]. }
  destruct (Hpass i Hin) as [Hx|(e & He & Hid & Hz)]; [set_solver|]. exists e. split_and!; try done.
  intros ->. specialize (Hpat e He). rewrite Hid in Hpat. discriminate Hpat.
Qed.

End checks.

(** ** A review that is recorded *)

Section service.
Context `{Platform} `{Protobuf}.
Variable actorID : string.

(** The report is the content of the artifact. *)
Definition content_of {T} (around : rv_surroundings) (decode : string -> option (T * string))
    (ref : ArtifactRef) (value : T) : Prop :=
  exists body rest, Rv_Get around ref = Ok body /\ sha256_hex body = Digest ref /\
    decode body = Some (value, rest).

(** The evidence of the request is what was executed and measured. *)
Record evidence_sound (around : rv_surroundings) (request : RvRequest) (mapped : ReviewRequest)
    (execution : ExecutionReport) (verification : VerificationReport) : Prop := {
  es_execution : content_of around (Decode_execution around) (Rv_ExecutionArtifact request) execution;
  es_verification : content_of around (Decode_verification around) (VerificationArtifact request) verification;
  es_passed : VR_Passed verification = true;
  es_chain : VR_Execution verification = Rv_ExecutionArtifact request;
  es_candidate : Exec_CandidateCommit execution = RV_CandidateCommit mapped /\
    VR_CandidateCommit verification = RV_CandidateCommit mapped;
  es_base : Exec_BaseCommit execution = RV_BaseCommit mapped /\
    VR_BaseCommit verification = RV_BaseCommit mapped;
  es_proposal : Digest (Exec_Proposal execution) = ImplementationProposalDigest mapped;
  es_diff : Forall2 same_change (ExRequest.ActualDiff execution) (rr_actual_diff (review_of request));
  es_checks : Forall2 measured (VR_Checks verification) (rr_independent_evidence (review_of request));
  (** every criterion of the report is named, with the evidence of its checks, which passed *)
  es_coverage : Forall2 (fun coverage provided =>
      ae_acceptance_criterion_id provided = Coverage_CriterionID coverage /\
      Forall2 (fun checkID evidenceID => exists check evidence, check ∈ VR_Checks verification /\
          Result_CheckID check = checkID /\ measured check evidence /\
          ie_evidence_id evidence = evidenceID /\ ie_exit_code evidence = 0)
        (Coverage_CheckIDs coverage) (ae_evidence_ids provided))
    (VR_Coverage verification) (rr_acceptance_coverage (review_of request));
}.

Lemma loadJSON_Ok {T} around (decode : string -> option (T * string)) ref value :
  loadJSON around decode ref = Ok value -> content_of around decode ref value.
Proof.
  unfold loadJSON. rewrite then_Ok. intros [_ (body & Hb%map_err_Ok & Hr)%res_bind_Ok].
  case_bool_decide as E; [cbn [negb] in Hr|done]. destruct (decode body) as [[v rest]|] eqn:Hd; [|done].
  destruct (negb _); [done|]. injection Hr as ->. by exists body, rest.
Qed.

Lemma crossCheckEvidence_Ok mapped now value report :
  MapReviewRequestAt (Some value) now = Ok mapped -> crossCheckEvidence value report = Ok tt ->
  Forall2 measured (VR_Checks report) (rr_independent_evidence value) /\
  Forall2 (fun coverage provided =>
      ae_acceptance_criterion_id provided = Coverage_CriterionID coverage /\
      Forall2 (fun checkID evidenceID => exists check evidence, check ∈ VR_Checks report /\
          Result_CheckID check = checkID /\ measured check evidence /\
          ie_evidence_id evidence = evidenceID /\ ie_exit_code evidence = 0)
        (Coverage_CheckIDs coverage) (ae_evidence_ids provided))
    (VR_Coverage report) (rr_acceptance_coverage value).
Proof.
  intros [Hnd Hnamed]%mapped_coverage. unfold crossCheckEvidence. destruct (_ || _) eqn:E; [done|].
  rewrite orb_false_iff, !negb_false_iff, !Nat.eqb_eq in E. destruct E as [Hl1 Hl2].
  intros (m & Hm & Hc)%res_bind_Ok. apply crossCheckMeasurements_Ok in Hm as [Hf Hm]; [|done].
  split; [done|]. apply crossCheckCoverage_Ok in Hc; [|done].
  apply Forall2_same_length_lookup in Hc as [Hlen Hc]. apply Forall2_same_length_lookup. split; [done|].
  intros i coverage provided Hi Hj. destruct (Hc i coverage provided Hi Hj) as [Hid Hev]. split; [done|].
  apply Forall2_same_length_lookup in Hev as [Hlen' Hev]. apply Forall2_same_length_lookup.
  split; [done|]. intros k checkID evidenceID Hk Hk'. specialize (Hev k checkID evidenceID Hk Hk').
  destruct (Hnamed provided evidenceID) as (e & He & Hide & Hz & Hne);
    [by eapply list_elem_of_lookup_2|by eapply list_elem_of_lookup_2|].
  destruct (m !! checkID) as [found|] eqn:Hfound; [|done]. cbn in Hev. subst found.
  destruct (Hm checkID evidenceID Hfound) as [Hx|(check & evidence & Hcheck & Hin & Hmeas & Hcid & Heid)];
    [by rewrite lookup_empty in Hx|].
  assert (evidence = e) as -> by (eapply (same_id ie_evidence_id); [done..|congruence]).
  by exists check, e.
Qed.

Lemma upstream_sound around now request mapped execution verification :
  rv_validateRequest around now request = Ok (mapped, execution, verification) ->
  evidence_sound around request mapped execution verification.
Proof.
  unfold rv_validateRequest. rewrite then_Ok. intros [Hmeta (m & Hm%map_err_Ok & Hr)%res_bind_Ok].
  apply res_bind_Ok in Hr as ([ex vf] & Hl & Hr). rewrite then_Ok in Hr. destruct Hr as [Hb [= <- <- <-]].
  unfold loadUpstreamReports in Hl. apply res_bind_Ok in Hl as (e & He & Hl).
  apply res_bind_Ok in Hl as (v & Hv & [= -> ->]).
  assert (Hreq : Rv_Review request = Some (review_of request)).
  { unfold validateReviewRequestMetadata in Hmeta. unfold review_of.
    destruct (Rv_Review request); [done|]. by rewrite bool_decide_true, !orb_true_r in Hmeta. }
  unfold validateUpstreamBindings in Hb. cbv zeta in Hb. destruct (_ || _) eqn:E; [done|].
  rewrite !orb_false_iff, !negb_false_iff in E. destruct E as [[[Hex Hvf] _] _].
  rewrite !then_Ok in Hb. destruct Hb as (Hd%crossCheckDiff_Ok & Hc & _).
  rewrite Hreq in Hm. pose proof (crossCheckEvidence_Ok _ _ _ _ Hm Hc) as [Hc1 Hc2].
  unfold executionMatches in Hex. unfold verificationMatches in Hvf.
  rewrite !andb_true_iff, !bool_decide_eq_true in Hex, Hvf.
  destruct Hex as [[[[[[[_ _] _] _] Hb1] Hc3] Hp] _]. destruct Hvf as [[[[[[[_ Hpass] _] _] _] Hb2] Hc4] Heq].
  apply ArtifactRef_Equal_eq in Heq. apply bool_decide_eq_true in Hp.
  split; try done; by apply loadJSON_Ok.
Qed.

Lemma blockingFindingIDs_nil findings :
  blockingFindingIDs findings = [] <-> forall f, f ∈ findings ->
    rg_severity f <> FINDING_SEVERITY_HIGH /\ rg_severity f <> FINDING_SEVERITY_CRITICAL.
Proof.
  unfold blockingFindingIDs. assert (Hb : forall f, blocks f = true <->
    ~ (rg_severity f <> FINDING_SEVERITY_HIGH /\ rg_severity f <> FINDING_SEVERITY_CRITICAL)).
  { intros f. unfold blocks. rewrite orb_true_iff, !Z.eqb_eq. lia. }
  split.
  - intros Hn f Hf. destruct (decide (blocks f = true)) as [Hbl|Hbl]; [|rewrite Hb in Hbl; lia].
    assert (Hin : f ∈ filter (fun finding => blocks finding = true) findings)
      by (by apply list_elem_of_filter).
    apply map_eq_nil in Hn. rewrite Hn in Hin. by apply elem_of_nil in Hin.
  - intros Hall. destruct (filter _ findings) as [|f l] eqn:E; [done|].
    assert (Hin : f ∈ filter (fun finding => blocks finding = true) findings) by (rewrite E; by left).
    apply list_elem_of_filter in Hin as [Hbl Hf]. apply Hb in Hbl. by destruct Hbl; apply Hall.
Qed.

Lemma recommendation_mapped proposal mapped value :
  MapReviewProposal (Some proposal) mapped = Ok value ->
  (Recommendation value = ReviewAdvisoryAccept <->
   rv_recommendation proposal = REVIEW_RECOMMENDATION_ADVISORY_ACCEPT).
Proof.
  unfold MapReviewProposal. cbv zeta. destruct (rv_identity proposal) as [i|]; [|done].
  rewrite then_Ok. intros [_ (rec & Hrec%rejecting_Ok & Hr)%res_bind_Ok].
  apply res_bind_Ok in Hr as ([[findings ids] b] & _ & Hr). rewrite then_Ok in Hr. destruct Hr as [_ Hr].
  apply res_bind_Ok in Hr as (actions & _ & Hr). apply res_bind_Ok in Hr as (risks & _ & [= <-]).
  cbn. unfold mapReviewRecommendation in Hrec.
  destruct (Z.eqb_spec (rv_recommendation proposal) REVIEW_RECOMMENDATION_REWORK_REQUIRED) as [->|_];
    [by injection Hrec as <-|].
  destruct (Z.eqb_spec (rv_recommendation proposal) REVIEW_RECOMMENDATION_ADVISORY_ACCEPT) as [->|_];
    [by injection Hrec as <-|done].
Qed.

(** C16: A review that changes the workflow records its result for a candidate that was executed and
    verified: the reports are the content of the artifacts of the request, the verification passed
    for that execution, the files, checks and criteria of the request are those of the reports, and
    every criterion names the evidence of checks that exited with 0.  It is recorded as passed
    exactly when the reviewer recommends to accept and no finding is high or critical, and every
    changed path that was not expected is among the changes that the reviewer reports. *)
Theorem recorded_review_sound x request w r w' :
  Review actorID x request w = (r, w') -> w' <> w ->
  exists rv, review_steps (rx_around x) (rx_now x) request = Ok rv /\
    w' = snd (ExecuteTask (rx_climate x) (rx_ctx_done x)
                (review_command actorID request (rd_mapped rv) (rd_report rv) (rd_passed rv)
                   (UTC (rx_later x))) w) /\
    evidence_sound (rx_around x) request (rd_mapped rv) (rd_execution rv) (rd_verification rv) /\
    (rd_passed rv = true <->
       rv_recommendation (rd_proposal rv) = REVIEW_RECOMMENDATION_ADVISORY_ACCEPT /\
       forall f, f ∈ rv_findings (rd_proposal rv) ->
         rg_severity f <> FINDING_SEVERITY_HIGH /\ rg_severity f <> FINDING_SEVERITY_CRITICAL) /\
    forall path, path ∈ ss_unexpected_changed_paths (scope_of (rr_scope_report (review_of request))) ->
      path ∈ rv_unrequested_changes (rd_proposal rv).
Proof.
  unfold Review. destruct (review_steps _ _ _) as [rv|e] eqn:Hsteps; [|by intros [= _ <-]].
  intros Hr Hne. exists rv. split; [done|]. split; [by destruct (ExecuteTask _ _ _ w) as [[]]; injection Hr as _ <-|].
  unfold review_steps in Hsteps. apply res_bind_Ok in Hsteps as ([[mapped ex] vf] & Hv & Hs).
  apply res_bind_Ok in Hs as ([[outcome proposal] value] & Hp & Hs). cbv zeta in Hs. rewrite then_Ok in Hs.
  destruct Hs as [Hpol (report & _ & [= <-])%res_bind_Ok]. cbn. split; [by eapply upstream_sound|].
  unfold proposed in Hp. apply res_bind_Ok in Hp as (o & _ & Hp).
  destruct (Outcome_Rejection o); [done|]. destruct (Outcome_Proposal o) as [p|]; [|done].
  apply res_bind_Ok in Hp as (v & Hmap%map_err_Ok & [= -> -> ->]). split.
  - rewrite andb_true_iff, Nat.eqb_eq, bool_decide_eq_true, (recommendation_mapped _ _ _ Hmap),
      <- blockingFindingIDs_nil. split; [intros [?%length_zero_iff_nil ?]|intros [? ->]]; done.
  - unfold enforceProposalPolicy in Hpol. destruct (_ && _); [done|].
    rewrite for_each_Ok, Forall_forall in Hpol. intros path Hpath. specialize (Hpol path Hpath).
    cbn beta in Hpol. destruct (bool_decide _) eqn:E in Hpol; [by apply bool_decide_eq_true in E|done].
Qed.

(** A review is not idempotent, although its command identifier is: once the answer of a
    recorded review is lost, the same request is refused as a conflict, because the command carries
    the clock of the call and so has another digest. *)
Theorem repeated_review_conflicts `{!PlatformLaws} x x' request w w' r rv rv' d d' :
  Review actorID x request w = (Ok r, w') ->
  review_steps (rx_around x) (rx_now x) request = Ok rv ->
  review_steps (rx_around x') (rx_now x') request = Ok rv' ->
  rx_climate x' = (fun _ => Clear) -> rx_ctx_done x' = rx_ctx_done x ->
  let command y v := review_command actorID request (rd_mapped v) (rd_report v) (rd_passed v) (UTC (rx_later y)) in
  taskCommandDigest (command x rv) = Ok d -> taskCommandDigest (command x' rv') = Ok d' -> d <> d' ->
  validateTaskCommand (command x' rv') = Ok tt ->
  Review actorID x' request w' = (Err (ErrWrap ErrCommandConflict "record task review"), w').
Proof.
  intros Hr Hs Hs' Hcl Hcd command Hd Hd' Hne Hv. unfold Review in Hr |- *. rewrite Hs in Hr. rewrite Hs', Hcl, Hcd.
  destruct (ExecuteTask (rx_climate x) (rx_ctx_done x) _ w) as [[result|e] w1] eqn:He; [|done].
  injection Hr as _ <-.
  pose proof (command_id_conflict (rx_climate x) (rx_ctx_done x) (inr (command x rv)) (inr (command x' rv'))
    w w1 result _ _ d d' He eq_refl eq_refl eq_refl Hd Hd' Hne Hv) as Hc.
  cbn [execute] in Hc. unfold command in Hc. by rewrite Hc.
Qed.

End service.

(** * Concrete reviews

    A task whose candidate was executed and verified, a review of it that the
    reviewer advises to accept, and the same review asked for again a second
    later. *)

(** ** The task and what is known of its candidate *)

Definition reviewing_db : db :=
  execute_all (executed_history ++
    [inr (RecordTaskVerification (meta "c5" ActorVerificationService 5 50) "RUN-1" "TASK-001" hex40
            (artifact_of "verification") true)]) empty_db.

Example reviewing_task : task_states reviewing_db = [("TASK-001", TaskStateReviewing)].
Proof. vm_compute. reflexivity. Qed.

Definition proposal_digest : string := Digest (artifact_of "proposal").

Definition reviewed_execution : ExecutionReport :=
  mkExecutionReport "1" "execution-1" "2024-01-01T00:00:00Z" "RUN-1" "TASK-001" 1
    (artifact_of "proposal") (sample_lease 1) (commit_of "c") hex40 "refs/harness/1" DefaultLimits
    [mkDiffEntry FileUpdate "src/a" "100644" digest_a digest_b;
     mkDiffEntry FileCreate "README.md" "100644" digest_a digest_b].

Definition started : Timestamp := mkTimestamp 1700000000 0.
Definition completed : Timestamp := mkTimestamp 1700000001 0.

Definition reviewed_verification : VerificationReport :=
  mkVerificationReport "1" "verification-1" "2024-01-01T00:00:00Z" "RUN-1" "TASK-001" 1
    (artifact_of "execution") (commit_of "c") hex40 "image-1"
    [mkCheckResult "CHECK-1" "make-check-v1" ["make"] "image-1" hex40 (timestamp_text (Some started))
       (timestamp_text (Some completed)) 0 false (artifact_of "output") (Digest (artifact_of "output"))
       1 1 1 1 true]
    [mkCoverage "AC-001" ["CHECK-1"] true true] true.

Definition input_artifact (body : string) : pb_ArtifactDigest :=
  mkArtifactDigest (URI (artifact_of body)) (Digest (artifact_of body)).

Definition review_envelope : pb_ReasoningRequestEnvelope :=
  mkRequestEnvelope "1" "REQ-2" "RUN-1" (Some "TASK-001") REASONING_STAGE_REVIEW 1
    (Some (mkTimestamp 1700000000 0)) (Some (mkTimestamp 1700000600 0)) (Some sample_authority)
    (Some (mkBudget 1000 1000 3)) (map input_artifact ["execution"; "verification"; "proposal"]) digest_b.

Definition checked_review_request : pb_ReviewRequest :=
  mkPbReviewRequest (Some review_envelope)
    (Some (mkPbCandidate digest_a digest_b (commit_of "c") hex40 proposal_digest))
    [mkPbDiff "src/a" FILE_OPERATION_UPDATE digest_a digest_b;
     mkPbDiff "README.md" FILE_OPERATION_CREATE digest_a digest_b]
    (Some (mkPbScope ["src/a"] ["README.md"]))
    [mkPbEvidence "EVIDENCE-001" "CHECK-1" hex40 0 (Digest (artifact_of "output"))
       (URI (artifact_of "output")) (Some started) (Some completed)]
    [mkPbCoverage "AC-001" ["EVIDENCE-001"]]
    (Some (mkPbPolicy [FINDING_SEVERITY_HIGH; FINDING_SEVERITY_CRITICAL] true)) ["AC-001"] ["src"].

(** The reviewer finds nothing and reports the path that was not expected. *)
Definition accepting_review : pb_ReviewProposal :=
  mkPbReview (Some (mkIdentity "1" "REQ-2" "RUN-1" (Some "TASK-001") REASONING_STAGE_REVIEW 1 digest_b
                      (map (fun body => Digest (artifact_of body)) ["execution"; "verification"; "proposal"])))
    REVIEW_RECOMMENDATION_ADVISORY_ACCEPT [] [] ["README.md"] [] [].

Example accepting_review_maps :
  match MapReviewRequestAt (Some checked_review_request) None with
  | Ok request => is_Ok (MapReviewProposal (Some accepting_review) request)
  | Err _ => false
  end = true.
Proof. vm_compute. reflexivity. Qed.

(** ** The calls *)

Definition review_request : RvRequest :=
  mkRvRequest "review-1" (at_time 60) (Some checked_review_request) (artifact_of "execution")
    (artifact_of "verification") ["db"] 6.

Definition accepting_outcome : Outcome pb_ReviewProposal :=
  mkOutcome (mkReference "u" digest_a) (mkReference "v" digest_b) (mkReference "" "")
    (Some accepting_review) None (GwService.mkMetadata "provider-1" "provider" "model" (at_time 55) (at_time 56) (mkUsage 100 200 1)) false.

Definition review_tools : rv_surroundings :=
  mkRvSurroundings
    (fun ref => match list_find (fun body => Digest (artifact_of body) = Digest ref)
                        ["execution"; "verification"] with
                | Some (_, body) => Ok body
                | None => Err (ErrNew "not found")
                end)
    (fun body => Ok (artifact_of body)) (fun _ => Ok accepting_outcome)
    (fun body => if body == "execution" then Some (reviewed_execution, "") else None)
    (fun body => if body == "verification" then Some (reviewed_verification, "") else None)
    (fun rest => rest == "").

(** A call whose command is made at this time. *)
Definition reviewing_at (n : Z) : rv_circumstances :=
  mkRvCircumstances review_tools (at_time 30) (at_time n) (fun _ => Clear) (fun _ => None).

Definition first_review : res RvResult * db :=
  Review "reviewer-1" (reviewing_at 60) review_request reviewing_db.

Example first_review_answer :
  match fst first_review with
  | Ok r => (Rv_Result_Passed r, Rv_Result_Recommendation r, Rv_Result_Replay r)
  | Err _ => (false, 0, true)
  end = (true, REVIEW_RECOMMENDATION_ADVISORY_ACCEPT, false).
Proof. vm_compute. reflexivity. Qed.

Lemma first_review_task :
  task_states (snd first_review) = [("TASK-001", TaskStateAwaitingApproval)].
Proof. vm_compute. reflexivity. Qed.

Lemma recorded_review_sound_witness :
  exists rv, review_steps review_tools (at_time 30) review_request = Ok rv /\
    snd first_review = snd (ExecuteTask (fun _ => Clear) (fun _ => None)
      (review_command "reviewer-1" review_request (rd_mapped rv) (rd_report rv) (rd_passed rv)
         (UTC (at_time 60))) reviewing_db) /\
    evidence_sound review_tools review_request (rd_mapped rv) (rd_execution rv) (rd_verification rv) /\
    (rd_passed rv = true <->
       rv_recommendation (rd_proposal rv) = REVIEW_RECOMMENDATION_ADVISORY_ACCEPT /\
       forall f, f ∈ rv_findings (rd_proposal rv) ->
         rg_severity f <> FINDING_SEVERITY_HIGH /\ rg_severity f <> FINDING_SEVERITY_CRITICAL) /\
    forall path, path ∈ ["README.md"] -> path ∈ rv_unrequested_changes (rd_proposal rv).
Proof.
  apply (recorded_review_sound "reviewer-1" (reviewing_at 60) review_request reviewing_db
    (fst first_review) (snd first_review)).
  - exact (surjective_pairing first_review).
  - intros Heq. pose proof first_review_task as Ht. rewrite Heq, reviewing_task in Ht. discriminate Ht.
Defined.

(** ** The answer of the first call is lost *)

Definition review_result : RvResult :=
  result (mkRvResult "" "" (mkArtifactRef "" "") 0 false false) (fst first_review).

Lemma first_review_Ok : first_review = (Ok review_result, snd first_review).
Proof.
  assert (Ho : is_Ok (fst first_review) = true) by (vm_compute; reflexivity).
  unfold review_result. destruct first_review as [[r|e] w]; [done|discriminate Ho].
Qed.

Lemma repeated_review_conflicts_witness :
  Review "reviewer-1" (reviewing_at 61) review_request (snd first_review) =
    (Err (ErrWrap ErrCommandConflict "record task review"), snd first_review).
Proof.
  eassert (Hs : review_steps review_tools (at_time 30) review_request = Ok _) by (vm_compute; reflexivity).
  eapply (repeated_review_conflicts "reviewer-1" (reviewing_at 60) (reviewing_at 61) review_request
    reviewing_db (snd first_review) review_result).
  - exact first_review_Ok.
  - exact Hs.
  - exact Hs.
  - reflexivity.
  - reflexivity.
  - vm_compute. reflexivity.
  - vm_compute. reflexivity.
  - vm_compute. discriminate.
  - vm_compute. reflexivity.
Defined.
