(* ===== verification/PbRequest.v ===== *)
(** * Publications: what is published and what may be

    Models [go/internal/publication]: the data of [types.go], the checks of
    [validation.go] on a request, its upstream artifacts and the configuration,
    the pull request of [render.go], and what [git.go] and [github.go] make of
    the answers of git and of GitHub.  The answers, the artifact store and the
    strict decoders of the upstream reports are arguments of a call; commands
    and requests are numbered in the order in which a step makes them. *)

From S2P Require Import Prelude GoStd GoJson GoText WfTypes WfTask WfDigest WfDb CtMessages CtCommon.
From S2P Require Import CtImplementation CtReview Approval ExRequest VfEvidence RvService.

Definition PbErrInvalidRequest : error := ErrNew "invalid publication request".
Definition PbErrArtifactIntegrity : error := ErrNew "publication artifact integrity check failed".
Definition ErrBaseDrift : error := ErrNew "reviewed base commit no longer matches remote base".
Definition ErrBranchConflict : error := ErrNew "publication branch already has different content".
Definition ErrPullRequestConflict : error := ErrNew "pull request identity conflicts with publication".
Definition ErrPublicationConflict : error := ErrNew "publication ID already has different content".
Definition ErrPublicationState : error := ErrNew "invalid publication ledger state".
Definition ErrResponseLimit : error := ErrNew "publication response limit exceeded".

(** ** Data *)

Definition DefaultBranchPrefix : string := "harness/".
Definition DefaultMaxArtifactBytes : Z := 2 ^ 20.
Definition DefaultMaxBodyBytes : Z := 64 * 2 ^ 10.
Definition Pb_DefaultTimeout : Z := 30 * Second.

Record PublicationConfig := mkPublicationConfig {
  Pb_RepositoryRoot : string;
  RepositoryOwner : string;
  RepositoryName : string;
  Remote : string;
  BaseBranch : string;
  BranchPrefix : string;
  Pb_ActorID : string;
  MaxArtifactBytes : Z;
  MaxBodyBytes : Z;
  Pb_Timeout : Z;
}.

Record PublicationRequest := mkPublicationRequest {
  PublicationID : string;
  PublicationTimestamp : time;
  Pb_RunID : string;
  Pb_BaseCommit : string;
  Pb_CandidateCommit : string;
  Pb_Specification : ArtifactRef;
  Pb_Implementation : ArtifactRef;
  Pb_Execution : ArtifactRef;
  Pb_Verification : ArtifactRef;
  Pb_Review : ArtifactRef;
  Pb_Approval : ArtifactRef;
  ExpectedRunRevision : Z;
}.

Record PublicationResult := mkPublicationResult {
  PResult_PublicationID : string;
  Branch : string;
  PResult_CandidateCommit : string;
  PullRequestNumber : Z;
  PullRequestURL : string;
  PublicationArtifact : ArtifactRef;
  PResult_Replay : bool;
}.

Record DraftPullRequest := mkDraftPullRequest {
  PR_Number : Z;
  PR_URL : string;
  PR_State : string;
  Draft : bool;
  PR_Head : string;
  PR_Base : string;
  HeadCommit : string;
  PR_BaseCommit : string;
  PR_Body : string;
  PR_Marker : string;
}.

Record PullRequestExpectation := mkExpectation {
  Expected_Owner : string;
  Expected_Repo : string;
  Expected_Number : Z;
  Expected_URL : string;
  Expected_Marker : string;
  Expected_Base : string;
  Expected_Head : string;
  Expected_BaseCommit : string;
  Expected_CandidateCommit : string;
}.

Record DraftPullRequestInput := mkDraftInput {
  Owner : string;
  Repo : string;
  Head : string;
  Base : string;
  Title : string;
  Body : string;
  Marker : string;
}.

(** [approval.TaskApproval], as it is read. *)
Record TaskApproval := mkTaskApproval {
  TA_SchemaVersion : string;
  TA_ApprovalID : string;
  TA_Approver : Principal;
  TA_Decision : string;
  TA_DecisionTimestamp : string;
  TA_Reason : string;
  TA_Elevated : bool;
  TA_RiskReasons : list string;
  TA_RunID : string;
  TA_TaskID : string;
  TA_CandidateCommit : string;
  TA_SpecificationDigest : string;
  TA_TaskDigest : string;
  TA_Implementation : ArtifactRef;
  TA_Execution : ArtifactRef;
  TA_Verification : ArtifactRef;
  TA_Review : ArtifactRef;
}.

Record githubPullRequest := mkGithub {
  GH_Number : Z;
  HTMLURL : string;
  GH_State : string;
  GH_Draft : bool;
  GH_Body : string;
  Head_Ref : string;
  Head_SHA : string;
  Base_Ref : string;
  Base_SHA : string;
}.

Record validatedInputs := mkValidated {
  specification : string;
  execution : ExecutionReport;
  verification : VerificationReport;
  review : ReviewReport;
  approval : TaskApproval;
}.

(** What a call meets: the number of a command or request comes first, because
    the same question may be answered differently the second time. *)
Record pb_surroundings := mkPbSurroundings {
  Pb_Get : ArtifactRef -> Z -> res string;
  Pb_Put : string -> res ArtifactRef;
  Read_execution : string -> option (ExecutionReport * string);
  Read_verification : string -> option (VerificationReport * string);
  Read_review : string -> option (ReviewReport * string);
  Read_approval : string -> option (TaskApproval * string);
  (** a JSON object as the fields that its map has, and what follows it *)
  Read_object : string -> option (list (string * json) * string);
  Pb_at_EOF : string -> bool;
  Git_run : nat -> list string -> res string;
  Git_cancelled : option error;
  GET_pulls : nat -> string -> list (string * string) -> res (list githubPullRequest);
  POST_pull : string -> json -> res githubPullRequest;
  GET_pull : string -> res githubPullRequest;
  PATCH_pull : string -> json -> res githubPullRequest;
}.

(** ** Patterns *)

(** [^[A-Za-z0-9][A-Za-z0-9._/-]{0,199}$] *)
Definition is_alnum (c : ascii) : bool := is_letter c || is_digit c.

Definition branchPattern : string -> bool :=
  matches (Cat (Class is_alnum)
    (up_to 199 (Class (fun c => is_alnum c || bool_decide (c ∈ ["."; "_"; "/"; "-"]%char))))).

(** [^[A-Za-z0-9](?:[A-Za-z0-9-]{0,37}[A-Za-z0-9])?$] *)
Definition ownerSegmentPattern : string -> bool :=
  matches (Cat (Class is_alnum)
    (Or Empty (Cat (up_to 37 (Class (fun c => is_alnum c || (c == "-"%char)))) (Class is_alnum)))).

(** [^[A-Za-z0-9_.-]{1,100}$] *)
Definition repositorySegmentPattern : string -> bool :=
  let byte := Class (fun c => is_alnum c || bool_decide (c ∈ ["_"; "."; "-"]%char)) in
  matches (Cat byte (up_to 99 byte)).

(** ** Configuration *)

Definition or_default {A} `{EqDecision A} (zero value default : A) : A :=
  if bool_decide (value = zero) then default else value.

Definition normalizeConfig (config : PublicationConfig) : res PublicationConfig :=
  let config := mkPublicationConfig (Pb_RepositoryRoot config) (RepositoryOwner config)
    (RepositoryName config) (Remote config) (BaseBranch config)
    (or_default "" (BranchPrefix config) DefaultBranchPrefix) (Pb_ActorID config)
    (or_default 0 (MaxArtifactBytes config) DefaultMaxArtifactBytes)
    (or_default 0 (MaxBodyBytes config) DefaultMaxBodyBytes)
    (or_default 0 (Pb_Timeout config) Pb_DefaultTimeout) in
  for_each (fun value => if blank value then Err (ErrWrap PbErrInvalidRequest "publication configuration")
                         else Ok tt)
    [Pb_RepositoryRoot config; RepositoryOwner config; RepositoryName config; Remote config;
     BaseBranch config; BranchPrefix config; Pb_ActorID config] ;;
  if negb (branchPattern (BaseBranch config)) ||
     negb (branchPattern (BranchPrefix config +:+ "example")) ||
     (MaxArtifactBytes config <=? 0) || (MaxBodyBytes config <=? 0) || (Pb_Timeout config <=? 0)
  then Err (ErrWrap PbErrInvalidRequest "publication limits")
  else Ok config.

Section publication.
Context `{Platform} `{Protobuf} `{Wire}.

(** The configuration that a service is made with. *)
Definition Pb_NewService (config : PublicationConfig) : res PublicationConfig :=
  normalized ← normalizeConfig config;
  if negb (uuid_Parse_ok (Pb_ActorID normalized))
  then Err (ErrWrap PbErrInvalidRequest "publication actor ID") else Ok normalized.

(** ** Requests *)

Definition validateRequestHeader (config : PublicationConfig) (request : PublicationRequest) : res unit :=
  let refused reason := Err (ErrWrap PbErrInvalidRequest reason) in
  if negb (uuid_Parse_ok (PublicationID request)) then refused "publication ID"
  else if negb (uuid_Parse_ok (Pb_RunID request)) then refused "run ID"
  else if IsZero (PublicationTimestamp request) || (ExpectedRunRevision request =? 0) ||
          negb (commitPattern (Pb_BaseCommit request)) ||
          negb (commitPattern (Pb_CandidateCommit request)) ||
          (Pb_BaseCommit request == Pb_CandidateCommit request)
  then refused "publication identity"
  else if negb (branchPattern (BranchPrefix config +:+ Pb_RunID request))
  then refused "publication branch"
  else
    for_each (fun ref => map_err (fun _ => ErrWrap PbErrInvalidRequest "artifact reference")
                           (ArtifactRef_Validate ref))
      [Pb_Specification request; Pb_Implementation request; Pb_Execution request;
       Pb_Verification request; Pb_Review request; Pb_Approval request].

(** ** Upstream artifacts *)

Definition loadArtifact (around : pb_surroundings) (ref : ArtifactRef) (limit : Z) : res string :=
  body ← map_err (fun e => ErrWrap e "load publication input") (Pb_Get around ref limit);
  if limit <? str_len body then Err ErrResponseLimit
  else if sha256_hex body != Digest ref then Err PbErrArtifactIntegrity
  else Ok body.

(** A strict decoder that has to reach the end of the text. *)
Definition decodeJSON {T} (around : pb_surroundings) (decode : string -> option (T * string))
    (body : string) : option T :=
  match decode body with
  | Some (value, rest) => if Pb_at_EOF around rest then Some value else None
  | None => None
  end.

Definition pb_loadJSON {T} (around : pb_surroundings) (decode : string -> option (T * string))
    (ref : ArtifactRef) (limit : Z) : res T :=
  body ← loadArtifact around ref limit;
  match decodeJSON around decode body with
  | Some value => Ok value
  | None => Err (ErrWrap PbErrArtifactIntegrity "decode upstream artifact")
  end.

Definition validSpecificationArtifact (around : pb_surroundings) (body : string) : bool :=
  match unmarshal_specification_proposal body with
  | Ok proposal => negb (blank (sp_title proposal))
  | Err _ => false
  end ||
  match decodeJSON around (Read_object around) body with
  | Some (_ :: _) => true
  | _ => false
  end.

Definition verificationPassed (report : VerificationReport) : bool :=
  negb (length (VR_Checks report) =? 0)%nat && negb (length (VR_Coverage report) =? 0)%nat &&
  forallb (fun check => Check_Passed check && negb (TimedOut check) &&
      (Result_CandidateCommit check == VR_CandidateCommit report)) (VR_Checks report) &&
  forallb (fun coverage => Covered coverage && Coverage_Passed coverage &&
      negb (length (Coverage_CheckIDs coverage) =? 0)%nat) (VR_Coverage report).

Definition artifactsMatch (request : PublicationRequest) (inputs : validatedInputs) : bool :=
  (Exec_SchemaVersion (execution inputs) == "1") && (Exec_RunID (execution inputs) == Pb_RunID request) &&
  (Exec_BaseCommit (execution inputs) == Pb_BaseCommit request) &&
  (Exec_CandidateCommit (execution inputs) == Pb_CandidateCommit request) &&
  ArtifactRef_Equal (Exec_Proposal (execution inputs)) (Pb_Implementation request) &&
  ((VR_SchemaVersion (verification inputs) == "1") &&
   (VR_RunID (verification inputs) == Pb_RunID request) &&
   (VR_BaseCommit (verification inputs) == Pb_BaseCommit request) &&
   (VR_CandidateCommit (verification inputs) == Pb_CandidateCommit request) &&
   ArtifactRef_Equal (VR_Execution (verification inputs)) (Pb_Execution request) &&
   VR_Passed (verification inputs) && verificationPassed (verification inputs)) &&
  ((Report_SchemaVersion (review inputs) == "1") && (Report_RunID (review inputs) == Pb_RunID request) &&
   (Report_CandidateCommit (review inputs) == Pb_CandidateCommit request) &&
   (Report_SpecificationDigest (review inputs) == Digest (Pb_Specification request)) &&
   (Report_ImplementationProposalDigest (review inputs) == Digest (Pb_Implementation request)) &&
   ArtifactRef_Equal (Report_Execution (review inputs)) (Pb_Execution request) &&
   ArtifactRef_Equal (Report_Verification (review inputs)) (Pb_Verification request) &&
   Report_Passed (review inputs) &&
   (Report_Recommendation (review inputs) == "REVIEW_RECOMMENDATION_ADVISORY_ACCEPT")) &&
  ((TA_SchemaVersion (approval inputs) == "1") && (TA_Decision (approval inputs) == "approve") &&
   (TA_RunID (approval inputs) == Pb_RunID request) &&
   (TA_CandidateCommit (approval inputs) == Pb_CandidateCommit request) &&
   (TA_SpecificationDigest (approval inputs) == Digest (Pb_Specification request)) &&
   ArtifactRef_Equal (TA_Implementation (approval inputs)) (Pb_Implementation request) &&
   ArtifactRef_Equal (TA_Execution (approval inputs)) (Pb_Execution request) &&
   ArtifactRef_Equal (TA_Verification (approval inputs)) (Pb_Verification request) &&
   ArtifactRef_Equal (TA_Review (approval inputs)) (Pb_Review request)).

Definition validateArtifacts (around : pb_surroundings) (config : PublicationConfig)
    (request : PublicationRequest) : res validatedInputs :=
  let limit := MaxArtifactBytes config in
  specification ← loadArtifact around (Pb_Specification request) limit;
  (if negb (validSpecificationArtifact around specification)
   then Err (ErrWrap PbErrArtifactIntegrity "approved specification") else Ok tt) ;;
  (match loadArtifact around (Pb_Implementation request) limit with
   | Ok (String _ _) => Ok tt
   | _ => Err (ErrWrap PbErrArtifactIntegrity "implementation proposal")
   end) ;;
  executionReport ← pb_loadJSON around (Read_execution around) (Pb_Execution request) limit;
  verificationReport ← pb_loadJSON around (Read_verification around) (Pb_Verification request) limit;
  reviewReport ← pb_loadJSON around (Read_review around) (Pb_Review request) limit;
  approvalReport ← pb_loadJSON around (Read_approval around) (Pb_Approval request) limit;
  let inputs := mkValidated specification executionReport verificationReport reviewReport approvalReport in
  if negb (artifactsMatch request inputs)
  then Err (ErrWrap PbErrInvalidRequest "upstream bindings") else Ok inputs.

(** ** The pull request *)

Definition newline : string := String (byte 10) "".
Definition ellipsis : string := String (byte 226) (String (byte 128) (String (byte 166) "")).

(** The limit counts bytes. *)
Definition boundedLine (value : string) (limit : nat) : string :=
  let value := join " " (Fields value) in
  if (String.length value <=? limit)%nat then value else str_take (limit - 1) value +:+ ellipsis.

Definition specificationTitle (around : pb_surroundings) (encoded : string) : string :=
  let of_fields :=
    match decodeJSON around (Read_object around) encoded with
    | None => ""
    | Some value =>
        let text_of key :=
          match json_field key value with
          | Some (JStr text) => TrimSpace text
          | _ => ""
          end in
        match list_find (fun key => text_of key <> "") ["title"; "objective"; "summary"; "name"] with
        | Some (_, key) => text_of key
        | None => ""
        end
    end in
  match unmarshal_specification_proposal encoded with
  | Ok proposal => if negb (blank (sp_title proposal)) then TrimSpace (sp_title proposal) else of_fields
  | Err _ => of_fields
  end.

(** [sort.Slice] by an identifier; the order of equal ones is open. *)
Definition id_le {A} (id : A -> string) (a b : A) : Prop := String.le (id a) (id b).
#[global] Instance id_le_dec {A} (id : A -> string) : RelDecision (id_le id).
Proof. intros a b. unfold id_le. apply _. Defined.

Definition sort_by {A} (id : A -> string) (l : list A) : list A :=
  merge_sort (id_le id) (arbitrary_order l).

Definition line (text : string) : string := text +:+ newline.
Definition code (text : string) : string := "`" +:+ text +:+ "`".

Definition publication_marker (publicationID : string) : string :=
  "<!-- harness-publication-id:" +:+ publicationID +:+ " -->".

Definition check_line (check : CheckResult) : string :=
  line ("- " +:+ code (boundedLine (Result_CheckID check) 200) +:+ ": passed").

Definition finding_line (finding : pb_ReviewFinding) : string :=
  line ("- " +:+ code (boundedLine (rg_finding_id finding) 100) +:+ " (" +:+
        boundedLine (Severity_String (rg_severity finding)) 80 +:+ "): " +:+
        boundedLine (rg_summary finding) 500).

Definition pull_request_body (request : PublicationRequest) (inputs : validatedInputs) : string :=
  join "" (
    [line (publication_marker (PublicationID request)); newline; line "## Approved publication"; newline;
     line ("- Candidate: " +:+ code (Pb_CandidateCommit request));
     line ("- Reviewed base: " +:+ code (Pb_BaseCommit request));
     line ("- Run: " +:+ code (Pb_RunID request));
     line ("- Approval: " +:+ code (TA_ApprovalID (approval inputs))); newline;
     line "## Independent verification"; newline] ++
    map check_line (sort_by Result_CheckID (VR_Checks (verification inputs))) ++
    [newline; line "## Advisory review"; newline;
     line ("- Recommendation: " +:+ code (Report_Recommendation (review inputs)))] ++
    match Report_Findings (review inputs) with
    | [] => [line "- Findings: none"]
    | findings => map finding_line (sort_by rg_finding_id findings)
    end ++
    [newline; line "## Immutable evidence"; newline] ++
    map (fun '(name, ref) => line ("- " +:+ name +:+ ": " +:+ code (Digest ref)))
      [("specification", Pb_Specification request); ("implementation", Pb_Implementation request);
       ("execution", Pb_Execution request); ("verification", Pb_Verification request);
       ("review", Pb_Review request); ("approval", Pb_Approval request)]).

Definition renderPullRequest (around : pb_surroundings) (config : PublicationConfig)
    (request : PublicationRequest) (inputs : validatedInputs) : res DraftPullRequestInput :=
  let title := specificationTitle around (specification inputs) in
  let title := if title == "" then "Approved candidate " +:+ str_take 12 (Pb_CandidateCommit request)
               else title in
  let body := pull_request_body request inputs in
  if MaxBodyBytes config <? str_len body then Err ErrResponseLimit
  else
    Ok (mkDraftInput (RepositoryOwner config) (RepositoryName config)
          (BranchPrefix config +:+ Pb_RunID request) (BaseBranch config) (boundedLine title 240) body
          (publication_marker (PublicationID request))).

(** ** Git *)

Definition branch_ref (branch : string) : string := "refs/heads/" +:+ branch.

(** [n] is the number of the command. *)
Definition remoteHead (around : pb_surroundings) (config : PublicationConfig) (n : nat) (branch : string)
    : res (option string) :=
  output ← map_err (fun e => ErrWrap e "inspect remote branch")
    (Git_run around n ["ls-remote"; "--heads"; Remote config; branch_ref branch]);
  match Fields output with
  | [] => Ok None
  | [head; _] =>
      if commitPattern head then Ok (Some head) else Err (ErrText "invalid git ls-remote response")
  | _ => Err (ErrText "invalid git ls-remote response")
  end.

Definition BaseHead (around : pb_surroundings) (config : PublicationConfig) (n : nat) : res string :=
  head ← remoteHead around config n (BaseBranch config);
  match head with
  | Some head => Ok head
  | None => Err (ErrWrap ErrBaseDrift "remote base branch is missing")
  end.

Definition BranchHead (around : pb_surroundings) (config : PublicationConfig) (n : nat) (branch : string)
    : res (option string) :=
  if negb (branchPattern branch) then Err (ErrWrap PbErrInvalidRequest "branch name")
  else remoteHead around config n branch.

(** Commands [n] to [n + 3]; the answer says whether the branch was there. *)
Definition Git_Publish (around : pb_surroundings) (config : PublicationConfig) (n : nat)
    (branch candidate : string) : res bool :=
  if negb (branchPattern branch) || negb (commitPattern candidate)
  then Err (ErrWrap PbErrInvalidRequest "branch publication binding")
  else
    match Git_run around n ["cat-file"; "-e"; candidate +:+ "^{commit}"] with
    | Err e =>
        match Git_cancelled around with
        | Some cancelled => Err cancelled
        | None => Err (ErrWrap PbErrInvalidRequest "candidate commit is unavailable")
        end
    | Ok _ =>
        before ← BranchHead around config (S n) branch;
        match before with
        | Some head => if head == candidate then Ok true else Err ErrBranchConflict
        | None =>
            let ref := branch_ref branch in
            match Git_run around (S (S n))
                    ["push"; "--porcelain"; "--no-verify"; "--force-with-lease=" +:+ ref +:+ ":";
                     Remote config; candidate +:+ ":" +:+ ref] with
            | Ok _ => Ok false
            | Err e =>
                match BranchHead around config (S (S (S n))) branch with
                | Ok (Some head) => if head == candidate then Ok true else Err ErrBranchConflict
                | _ => Err (ErrWrap e "publish candidate branch")
                end
            end
        end
    end.

Definition DeleteBranch (around : pb_surroundings) (config : PublicationConfig) (branch candidate : string)
    : res bool :=
  if negb (branchPattern branch) || negb (commitPattern candidate)
  then Err (ErrWrap PbErrInvalidRequest "branch cleanup binding")
  else
    before ← BranchHead around config 0 branch;
    match before with
    | None => Ok true
    | Some head =>
        if head != candidate then Err ErrBranchConflict
        else
          let ref := branch_ref branch in
          match Git_run around 1
                  ["push"; "--porcelain"; "--no-verify";
                   "--force-with-lease=" +:+ ref +:+ ":" +:+ candidate; Remote config; ":" +:+ ref] with
          | Ok _ => Ok false
          | Err e =>
              match BranchHead around config 2 branch with
              | Ok None => Ok true
              | Ok (Some head) =>
                  if head != candidate then Err ErrBranchConflict
                  else Err (ErrWrap e "delete publication branch")
              | Err _ => Err (ErrWrap e "delete publication branch")
              end
          end
    end.

(** ** GitHub *)

Definition validOwnerSegment (value : string) : bool := ownerSegmentPattern value.

Definition validRepositorySegment (value : string) : bool :=
  (value != ".") && (value != "..") && repositorySegmentPattern value.

(** [url.JoinPath] of clean segments *)
Definition pullPath (input : DraftPullRequestInput) : res string :=
  if negb (validOwnerSegment (Owner input)) || negb (validRepositorySegment (Repo input))
  then Err PbErrInvalidRequest
  else Ok ("/repos/" +:+ Owner input +:+ "/" +:+ Repo input +:+ "/pulls").

Definition exactPullPath (owner repo : string) (number : Z) : res string :=
  if negb (validOwnerSegment owner) || negb (validRepositorySegment repo) || (number <=? 0)
  then Err PbErrInvalidRequest
  else Ok ("/repos/" +:+ owner +:+ "/" +:+ repo +:+ "/pulls/" +:+ decimal number).

Definition mapPullRequest (value : githubPullRequest) (marker : string) : DraftPullRequest :=
  mkDraftPullRequest (GH_Number value) (HTMLURL value) (GH_State value) (GH_Draft value)
    (Head_Ref value) (Base_Ref value) (Head_SHA value) (Base_SHA value) (GH_Body value) marker.

(** The pull request is the open draft that the input asks for. *)
Definition is_draft_of (pr : githubPullRequest) (input : DraftPullRequestInput) : bool :=
  (Head_Ref pr == Head input) && (Base_Ref pr == Base input) && (GH_State pr == "open") &&
  GH_Draft pr && Contains (GH_Body pr) (Marker input).

(** The open and closed pull requests from the branch of the input to its base. *)
Definition draft_query (input : DraftPullRequestInput) : list (string * string) :=
  [("state", "all"); ("head", Owner input +:+ ":" +:+ Head input); ("base", Base input);
   ("per_page", "10")].

Definition FindDraft (around : pb_surroundings) (n : nat) (input : DraftPullRequestInput)
    : res (option DraftPullRequest) :=
  path ← pullPath input;
  response ← GET_pulls around n path (draft_query input);
  match response with
  | [] => Ok None
  | [pr] => if is_draft_of pr input then Ok (Some (mapPullRequest pr (Marker input)))
            else Err ErrPullRequestConflict
  | _ => Err ErrPullRequestConflict
  end.

Definition create_payload (input : DraftPullRequestInput) : json :=
  JObj [("title", JStr (Title input)); ("head", JStr (Head input)); ("base", JStr (Base input));
    ("body", JStr (Body input)); ("draft", JBool true)].

(** [n] is the number of the request that looks again. *)
Definition CreateDraft (around : pb_surroundings) (n : nat) (input : DraftPullRequestInput)
    : res DraftPullRequest :=
  path ← pullPath input;
  match POST_pull around path (create_payload input) with
  | Err createErr =>
      match FindDraft around n input with
      | Err findErr => Err (ErrJoin createErr findErr)
      | Ok (Some recovered) => Ok recovered
      | Ok None => Err createErr
      end
  | Ok response =>
      if is_draft_of response input then Ok (mapPullRequest response (Marker input))
      else Err ErrPullRequestConflict
  end.

Definition InspectPullRequest (around : pb_surroundings) (owner repo : string) (number : Z)
    : res DraftPullRequest :=
  if blank owner || blank repo || (number <=? 0) then Err PbErrInvalidRequest
  else
    path ← exactPullPath owner repo number;
    response ← GET_pull around path;
    Ok (mapPullRequest response "").

Definition validatePullRequestExpectation (value : PullRequestExpectation) : res unit :=
  if (Expected_Owner value == "") || (Expected_Repo value == "") || (Expected_Number value <=? 0) ||
     (Expected_URL value == "") || (Expected_Marker value == "") ||
     negb (branchPattern (Expected_Base value)) || negb (branchPattern (Expected_Head value)) ||
     negb (commitPattern (Expected_BaseCommit value)) || negb (commitPattern (Expected_CandidateCommit value))
  then Err PbErrInvalidRequest else Ok tt.

Definition matchesExpectedPullRequest (value : githubPullRequest) (expected : PullRequestExpectation) : bool :=
  (GH_Number value =? Expected_Number expected) && (HTMLURL value == Expected_URL expected) &&
  GH_Draft value && Contains (GH_Body value) (Expected_Marker expected) &&
  (Base_Ref value == Expected_Base expected) && (Head_Ref value == Expected_Head expected) &&
  (Base_SHA value == Expected_BaseCommit expected) &&
  (Head_SHA value == Expected_CandidateCommit expected) &&
  ((GH_State value == "open") || (GH_State value == "closed")).

(** Whether the draft was closed already. *)
Definition CloseDraft (around : pb_surroundings) (expected : PullRequestExpectation) : res bool :=
  validatePullRequestExpectation expected ;;
  path ← exactPullPath (Expected_Owner expected) (Expected_Repo expected) (Expected_Number expected);
  current ← GET_pull around path;
  if negb (matchesExpectedPullRequest current expected) then Err ErrPullRequestConflict
  else if GH_State current == "closed" then Ok true
  else if GH_State current != "open" then Err ErrPullRequestConflict
  else
    closed ← PATCH_pull around path (JObj [("state", JStr "closed")]);
    if (GH_State closed != "closed") || negb (matchesExpectedPullRequest closed expected)
    then Err ErrPullRequestConflict else Ok false.

(** ** The digest of a request and the artifact of a publication *)

Definition publication_request_json (request : PublicationRequest) : res json :=
  timestamp ← time_text (PublicationTimestamp request);
  Ok (JObj [("PublicationID", JStr (PublicationID request)); ("PublicationTimestamp", JStr timestamp);
    ("RunID", JStr (Pb_RunID request)); ("BaseCommit", JStr (Pb_BaseCommit request));
    ("CandidateCommit", JStr (Pb_CandidateCommit request));
    ("Specification", artifact_json (Pb_Specification request));
    ("Implementation", artifact_json (Pb_Implementation request));
    ("Execution", artifact_json (Pb_Execution request));
    ("Verification", artifact_json (Pb_Verification request));
    ("Review", artifact_json (Pb_Review request)); ("Approval", artifact_json (Pb_Approval request));
    ("ExpectedRunRevision", JNum (ExpectedRunRevision request))]).

Definition publicationRequestDigest (request : PublicationRequest) : res string :=
  encoded ← map_err (fun e => ErrWrap e "encode publication request") (publication_request_json request);
  Ok (sha256_hex (json_text encoded)).

End publication.
