(* ===== verification/PbService.v ===== *)
(** * The ledger and the service of publications

    Models [go/internal/publication/repository.go], with the table of its
    migration, and [service.go].  The row of a publication is reserved, then it
    holds the branch that was pushed, then the draft pull request as well, then
    it is completed; the trigger of the table refuses only changes that no
    statement below makes.  A step of a call is one statement, or the work
    between two statements: the pushing of the branch, the finding or opening of
    the pull request, the storing of the artifact with the command of the
    workflow. *)

From S2P Require Import Prelude GoStd GoJson PgRetry WfTypes WfTask WfRun WfDigest WfDb WfStore WfReplay WfInvariants Interleave.
From S2P Require Import CtMessages Approval ApService PbRequest.

(** ** Data *)

Record PublicationStart := mkPublicationStart {
  PStart_PublicationID : string;
  PStart_RequestDigest : string;
  PStart_RequestedAt : time;
  Repository : string;
  PStart_BaseBranch : string;
  HeadBranch : string;
  PStart_BaseCommit : string;
  PStart_CandidateCommit : string;
  PStart_Specification : string;
  PStart_Implementation : string;
  PStart_Execution : string;
  PStart_Verification : string;
  PStart_Review : string;
  PStart_Approval : string;
  PStart_ExpectedRunRevision : Z;
}.

Record CompletedPublication := mkCompletedPublication {
  Completed_PublicationID : string;
  Completed_Repository : string;
  Completed_BaseBranch : string;
  Completed_HeadBranch : string;
  Completed_BaseCommit : string;
  Completed_CandidateCommit : string;
  Completed_Number : Z;
  Completed_URL : string;
  Completed_Artifact : ArtifactRef;
}.

Record BranchCheckpoint := mkBranchCheckpoint {
  Published_Branch : string;
  Published_Commit : string;
}.

Record PullRequestCheckpoint := mkPullCheckpoint {
  Pull_Branch : string;
  Pull_Commit : string;
  Pull_Number : Z;
  Pull_URL : string;
}.

#[global] Instance BranchCheckpoint_eq_dec : EqDecision BranchCheckpoint.
Proof. solve_decision. Defined.
#[global] Instance PullRequestCheckpoint_eq_dec : EqDecision PullRequestCheckpoint.
Proof. solve_decision. Defined.

(** ** The table *)

Inductive publication_state :=
| PbReserved
| BranchReady (b : BranchCheckpoint)
| PrReady (p : PullRequestCheckpoint)
| PbCompleted (p : PullRequestCheckpoint) (artifact : ArtifactRef) (completed_at : Z).

Record publication_row := mkPublicationRow {
  qr_request_digest : string;
  qr_requested_at : Z;
  qr_repository : string;
  qr_base_branch : string;
  qr_head_branch : string;
  qr_base_commit : string;
  qr_candidate : string;
  qr_evidence : list string;      (** the digests of the six artifacts *)
  qr_revision : Z;
  qr_state : publication_state;
}.

Abbreviation publications := (gmap string publication_row).

Definition set_qr_state (st : publication_state) (r : publication_row) : publication_row :=
  mkPublicationRow (qr_request_digest r) (qr_requested_at r) (qr_repository r) (qr_base_branch r)
    (qr_head_branch r) (qr_base_commit r) (qr_candidate r) (qr_evidence r) (qr_revision r) st.

Definition branch_of (p : PullRequestCheckpoint) : BranchCheckpoint :=
  mkBranchCheckpoint (Pull_Branch p) (Pull_Commit p).

Definition state_check (st : publication_state) : bool :=
  let branch_ok b := match_hex 40 (Published_Commit b) in
  let pull_ok p := branch_ok (branch_of p) && (0 <? Pull_Number p) in
  match st with
  | PbReserved => true
  | BranchReady b => branch_ok b
  | PrReady p => pull_ok p
  | PbCompleted p artifact _ => pull_ok p && match_hex 64 (Digest artifact)
  end.

Definition publication_check (r : publication_row) : bool :=
  match_hex 64 (qr_request_digest r) && match_hex 40 (qr_base_commit r) &&
  match_hex 40 (qr_candidate r) && forallb (match_hex 64) (qr_evidence r) && (0 <? qr_revision r) &&
  state_check (qr_state r).

(** ** Begin *)

Record pb_handle := mkPbHandle {
  pbh_start : PublicationStart;
  pbh_owner : bool;
  pbh_branch : option BranchCheckpoint;
  pbh_pull : option PullRequestCheckpoint;
  pbh_result : option PublicationResult;
}.

Definition PbHandle_Replay (h : pb_handle) : option PublicationResult := pbh_result h.
Definition PbHandle_Branch (h : pb_handle) : option BranchCheckpoint := pbh_branch h.
Definition PbHandle_PullRequest (h : pb_handle) : option PullRequestCheckpoint := pbh_pull h.

Definition publication_row_of (start : PublicationStart) : res publication_row :=
  digest ← text_column (PStart_RequestDigest start);
  repository ← text_column (Repository start);
  base ← text_column (PStart_BaseBranch start);
  head ← text_column (HeadBranch start);
  base_commit ← text_column (PStart_BaseCommit start);
  candidate ← text_column (PStart_CandidateCommit start);
  evidence ← map_each text_column
    [PStart_Specification start; PStart_Implementation start; PStart_Execution start;
     PStart_Verification start; PStart_Review start; PStart_Approval start];
  revision ← bigint_param (PStart_ExpectedRunRevision start);
  Ok (mkPublicationRow digest (time_column (PStart_RequestedAt start)) repository base head base_commit
        candidate evidence revision PbReserved).

Definition insert_publication (start : PublicationStart) : tx publications bool :=
  row ← tx_lift (publication_row_of start);
  if negb (publication_check row) then tx_err check_violation
  else insert_row text_column (PStart_PublicationID start) row.

Definition is_pb_reserved (r : publication_row) : bool :=
  match qr_state r with PbReserved => true | _ => false end.

(** The handle that the state of a row makes; only [Begin] makes an owner. *)
Definition handle_of (start : PublicationStart) (st : publication_state) : pb_handle :=
  match st with
  | PbReserved => mkPbHandle start false None None None
  | BranchReady b => mkPbHandle start false (Some b) None None
  | PrReady p => mkPbHandle start false (Some (branch_of p)) (Some p) None
  | PbCompleted p artifact _ =>
      mkPbHandle start false (Some (branch_of p)) (Some p)
        (Some (mkPublicationResult (PStart_PublicationID start) (Pull_Branch p) (Pull_Commit p)
                 (Pull_Number p) (Pull_URL p) artifact false))
  end.

(** The handle, and whether the row is only reserved. *)
Definition pb_load (start : PublicationStart) (s : publications) : res (pb_handle * bool) :=
  row ← find_row text_column (PStart_PublicationID start) s;
  match row with
  | None => Err pgx_ErrNoRows
  | Some r =>
      if qr_request_digest r != PStart_RequestDigest start then Err ErrPublicationConflict
      else Ok (handle_of start (qr_state r), is_pb_reserved r)
  end.

Definition set_owner (owner : bool) (h : pb_handle) : pb_handle :=
  mkPbHandle (pbh_start h) owner (pbh_branch h) (pbh_pull h) (pbh_result h).

(** ** Checkpoints *)

(** [UPDATE ... WHERE publication_id=$1 AND state='reserved'] *)
Definition update_branch (start : PublicationStart) (b : BranchCheckpoint)
    : tx publications (option publication_row) :=
  branch ← tx_lift (text_column (Published_Branch b));
  candidate ← tx_lift (text_column (Published_Commit b));
  update_row text_column (PStart_PublicationID start) is_pb_reserved publication_check
    (set_qr_state (BranchReady (mkBranchCheckpoint branch candidate))).

Definition set_branch (b : BranchCheckpoint) (h : pb_handle) : pb_handle :=
  mkPbHandle (pbh_start h) false (Some b) (pbh_pull h) (pbh_result h).

(** What [SaveBranch] makes of the row that it did not update. *)
Definition branch_saved (loaded : res (pb_handle * bool)) (b : BranchCheckpoint) : bool :=
  match loaded with
  | Ok (h, false) => bool_decide (pbh_branch h = Some b)
  | _ => false
  end.

Definition has_branch (b : BranchCheckpoint) (r : publication_row) : bool :=
  match qr_state r with BranchReady b' => bool_decide (b' = b) | _ => false end.

(** [UPDATE ... WHERE publication_id=$1 AND state='branch_ready' AND
    published_branch=$4 AND published_candidate_commit=$5] *)
Definition update_pull (start : PublicationStart) (p : PullRequestCheckpoint)
    : tx publications (option publication_row) :=
  url ← tx_lift (text_column (Pull_URL p));
  branch ← tx_lift (text_column (Pull_Branch p));
  candidate ← tx_lift (text_column (Pull_Commit p));
  update_row text_column (PStart_PublicationID start) (has_branch (mkBranchCheckpoint branch candidate))
    publication_check (set_qr_state (PrReady (mkPullCheckpoint branch candidate (Pull_Number p) url))).

Definition set_pull (p : PullRequestCheckpoint) (h : pb_handle) : pb_handle :=
  mkPbHandle (pbh_start h) (pbh_owner h) (pbh_branch h) (Some p) (pbh_result h).

(** A row without a pull request loads no checkpoint of one, whatever its
    state. *)
Definition pull_saved (loaded : res (pb_handle * bool)) (p : PullRequestCheckpoint) : bool :=
  match loaded with
  | Ok (h, _) => bool_decide (pbh_pull h = Some p)
  | _ => false
  end.

(** [UPDATE ... WHERE publication_id=$1 AND state='pr_ready'] *)
Definition is_pr_ready (r : publication_row) : bool :=
  match qr_state r with PrReady _ => true | _ => false end.

Definition completed_publication (artifact : ArtifactRef) (completed : Z) (r : publication_row)
    : publication_row :=
  match qr_state r with
  | PrReady p => set_qr_state (PbCompleted p artifact completed) r
  | _ => r
  end.

Definition update_completed (start : PublicationStart) (result : PublicationResult) (now : time)
    : tx publications (option publication_row) :=
  uri ← tx_lift (text_column (URI (PublicationArtifact result)));
  digest ← tx_lift (text_column (Digest (PublicationArtifact result)));
  update_row text_column (PStart_PublicationID start) is_pr_ready publication_check
    (completed_publication (mkArtifactRef uri digest) (time_column (UTC now))).

Definition completion_saved (loaded : res (pb_handle * bool)) (result : PublicationResult) : bool :=
  match loaded with
  | Ok (h, _) =>
      match pbh_result h with
      | Some r => ArtifactRef_Equal (PublicationArtifact r) (PublicationArtifact result)
      | None => false
      end
  | _ => false
  end.

(** ** Rollback *)

(** [DELETE ... WHERE publication_id=$1 AND state='reserved'] *)
Definition delete_reserved_publication (start : PublicationStart) : tx publications bool :=
  delete_row text_column (PStart_PublicationID start) is_pb_reserved.

(** The error is dropped by the callers. *)
Definition Publication_Rollback (w : reply) (h : pb_handle) (s : publications) : publications :=
  if negb (pbh_owner h) || bool_decide (is_Some (pbh_branch h)) || bool_decide (is_Some (pbh_pull h)) ||
     bool_decide (is_Some (pbh_result h))
  then s
  else snd (statement w (delete_reserved_publication (pbh_start h)) s).

(** ** The cleanup command's look *)

Definition LoadCompleted (w : reply) (publicationID : string) (s : publications)
    : res CompletedPublication :=
  row ← map_err (fun e => ErrWrap e "load completed publication")
    (query w (find_row text_column publicationID) s);
  match row with
  | Some r =>
      match qr_state r with
      | PbCompleted p artifact _ =>
          Ok (mkCompletedPublication publicationID (qr_repository r) (qr_base_branch r) (qr_head_branch r)
                (qr_base_commit r) (qr_candidate r) (Pull_Number p) (Pull_URL p) artifact)
      | _ => Err ErrPublicationState
      end
  | None => Err ErrPublicationState
  end.

(** ** The service *)

Inductive pb_phase :=
| PbInserting
| PbLoading (inserted : bool)
| PbBegun (h : pb_handle)
| PbRollingBack (h : pb_handle) (e : error)
| PbSavingBranch (h : pb_handle) (b : BranchCheckpoint)
| PbCheckingBranch (h : pb_handle) (b : BranchCheckpoint)
| PbProposing (h : pb_handle)
| PbSavingPull (h : pb_handle) (p : PullRequestCheckpoint)
| PbCheckingPull (h : pb_handle) (p : PullRequestCheckpoint)
| PbRecording (h : pb_handle) (p : PullRequestCheckpoint)
| PbCompleting (h : pb_handle) (result : PublicationResult)
| PbCheckingCompleted (h : pb_handle) (result : PublicationResult)
| PbReturned (r : res PublicationResult).

Record pb_call := mkPbCall {
  pc_request : PublicationRequest;
  pc_rendered : DraftPullRequestInput;
  pc_digest : string;
  pc_phase : pb_phase;
}.

Definition pb_at (p : pb_phase) (c : pb_call) : pb_call :=
  mkPbCall (pc_request c) (pc_rendered c) (pc_digest c) p.

Record pb_circumstances := mkPbCircumstances {
  px_around : pb_surroundings;
  px_reply : reply;
  px_now : time;                     (** the clock of the process *)
  px_climate : nat -> weather;
  px_ctx_done : nat -> option error;
}.

Section service.
Context `{Platform} `{Protobuf} `{Wire}.
Variable config : PublicationConfig.

(** [Publish] up to [Begin]. *)
Definition Publish_entry (around : pb_surroundings) (request : PublicationRequest) : res pb_call :=
  validateRequestHeader config request ;;
  inputs ← validateArtifacts around config request;
  rendered ← renderPullRequest around config request inputs;
  digest ← publicationRequestDigest request;
  Ok (mkPbCall request rendered digest PbInserting).

Definition pb_start (c : pb_call) : PublicationStart :=
  let request := pc_request c in
  mkPublicationStart (PublicationID request) (pc_digest c) (PublicationTimestamp request)
    (RepositoryOwner config +:+ "/" +:+ RepositoryName config) (BaseBranch config) (Head (pc_rendered c))
    (Pb_BaseCommit request) (Pb_CandidateCommit request) (Digest (Pb_Specification request))
    (Digest (Pb_Implementation request)) (Digest (Pb_Execution request))
    (Digest (Pb_Verification request)) (Digest (Pb_Review request)) (Digest (Pb_Approval request))
    (ExpectedRunRevision request).

Definition replayed (r : PublicationResult) : PublicationResult :=
  mkPublicationResult (PResult_PublicationID r) (Branch r) (PResult_CandidateCommit r)
    (PullRequestNumber r) (PullRequestURL r) (PublicationArtifact r) true.

Definition branch_checkpoint (c : pb_call) : BranchCheckpoint :=
  mkBranchCheckpoint (Head (pc_rendered c)) (Pb_CandidateCommit (pc_request c)).

(** The branch is known. *)
Definition after_branch (c : pb_call) (h : pb_handle) (b : BranchCheckpoint) : pb_phase :=
  if bool_decide (b <> branch_checkpoint c) then PbReturned (Err ErrPublicationConflict)
  else
    match PbHandle_PullRequest h with
    | Some p => PbRecording h p
    | None => PbProposing h
    end.

(** The base is looked at and the branch is pushed. *)
Definition push_branch (around : pb_surroundings) (c : pb_call) : res BranchCheckpoint :=
  head ← map_err (fun e => ErrWrap e "inspect publication base") (BaseHead around config 0);
  if head != Pb_BaseCommit (pc_request c) then Err ErrBaseDrift
  else
    Git_Publish around config 1 (Head (pc_rendered c)) (Pb_CandidateCommit (pc_request c)) ;;
    Ok (branch_checkpoint c).

(** What follows [Begin]. *)
Definition pb_begun (around : pb_surroundings) (c : pb_call) (h : pb_handle) : pb_phase :=
  match PbHandle_Replay h with
  | Some r => PbReturned (Ok (replayed r))
  | None =>
      match PbHandle_Branch h with
      | Some b => after_branch c h b
      | None =>
          match push_branch around c with
          | Ok b => PbSavingBranch h b
          | Err e => PbRollingBack h e
          end
      end
  end.

(** The draft that is found or opened. *)
Definition find_or_create (around : pb_surroundings) (rendered : DraftPullRequestInput)
    : res DraftPullRequest :=
  found ← map_err (fun e => ErrWrap e "find draft pull request") (FindDraft around 0 rendered);
  match found with
  | Some pr => Ok pr
  | None =>
      match CreateDraft around 1 rendered with
      | Ok pr => Ok pr
      | Err e =>
          match FindDraft around 2 rendered with
          | Ok (Some recovered) => Ok recovered
          | _ => Err (ErrWrap e "create draft pull request")
          end
      end
  end.

Definition propose_pull (around : pb_surroundings) (c : pb_call) : res PullRequestCheckpoint :=
  head ← map_err (fun e => ErrWrap e "recheck publication base") (BaseHead around config 0);
  if head != Pb_BaseCommit (pc_request c) then Err ErrBaseDrift
  else
    pr ← find_or_create around (pc_rendered c);
    Ok (mkPullCheckpoint (Head (pc_rendered c)) (Pb_CandidateCommit (pc_request c)) (PR_Number pr)
          (PR_URL pr)).

(** ** The end of a publication *)

Definition publication_json (c : pb_call) (p : PullRequestCheckpoint) : json :=
  let request := pc_request c in
  JObj [("schema_version", JStr "1"); ("publication_id", JStr (PublicationID request));
    ("published_at", JStr (rfc3339_nano (UTC (PublicationTimestamp request))));
    ("repository_owner", JStr (RepositoryOwner config)); ("repository_name", JStr (RepositoryName config));
    ("base_branch", JStr (BaseBranch config)); ("head_branch", JStr (Pull_Branch p));
    ("base_commit", JStr (Pb_BaseCommit request)); ("candidate_commit", JStr (Pull_Commit p));
    ("pull_request_number", JNum (Pull_Number p)); ("pull_request_url", JStr (Pull_URL p));
    ("draft", JBool true); ("specification", artifact_json (Pb_Specification request));
    ("implementation", artifact_json (Pb_Implementation request));
    ("execution", artifact_json (Pb_Execution request));
    ("verification", artifact_json (Pb_Verification request));
    ("review", artifact_json (Pb_Review request)); ("approval", artifact_json (Pb_Approval request))].

Definition store_publication (around : pb_surroundings) (body : string) : res ArtifactRef :=
  ref ← map_err (fun e => ErrWrap e "store publication artifact") (Pb_Put around body);
  if negb (is_Ok (ArtifactRef_Validate ref)) || (Digest ref != sha256_hex body)
  then Err PbErrArtifactIntegrity else Ok ref.

Definition publication_meta (request : PublicationRequest) : CommandEnvelope :=
  mkEnvelope (PublicationID request) (mkActor (Pb_ActorID config) ActorPublicationService)
    (ExpectedRunRevision request) (UTC (PublicationTimestamp request)) (Pb_RunID request)
    (PublicationID request).

Definition publication_command (request : PublicationRequest) (ref : ArtifactRef) : RunCommand :=
  RecordDraftPullRequest (publication_meta request)
    (Pb_RunID request) (Pb_CandidateCommit request) (Pb_Approval request) ref.

Definition publication_result (c : pb_call) (p : PullRequestCheckpoint) (ref : ArtifactRef)
    (recorded : CommandResult) : PublicationResult :=
  mkPublicationResult (PublicationID (pc_request c)) (Pull_Branch p) (Pb_CandidateCommit (pc_request c))
    (Pull_Number p) (Pull_URL p) ref (Replay recorded).

(** ** The steps *)

Definition pb_load_step (x : pb_circumstances) (c : pb_call) (inserted : bool) (s : publications) : pb_phase :=
  match query (px_reply x) (pb_load (pb_start c)) s with
  | Err e => PbReturned (Err (ErrWrap e "reserve publication"))
  | Ok (h, reserved) => PbBegun (set_owner (inserted || reserved) h)
  end.

Definition pb_step (x : pb_circumstances) (c : pb_call) (s : publications) (w : db)
    : pb_call * publications * db :=
  let failed e label := PbReturned (Err (ErrWrap e label)) in
  match pc_phase c with
  | PbInserting =>
      match statement (px_reply x) (insert_publication (pb_start c)) s with
      | (Err e, s') => (pb_at (failed (ErrWrap e "reserve publication") "reserve publication") c, s', w)
      | (Ok inserted, s') => (pb_at (PbLoading inserted) c, s', w)
      end
  | PbLoading inserted => (pb_at (pb_load_step x c inserted s) c, s, w)
  | PbBegun h => (pb_at (pb_begun (px_around x) c h) c, s, w)
  | PbRollingBack h e => (pb_at (PbReturned (Err e)) c, Publication_Rollback (px_reply x) h s, w)
  | PbSavingBranch h b =>
      match statement (px_reply x) (update_branch (pbh_start h) b) s with
      | (Err e, s') =>
          (pb_at (failed (ErrWrap e "checkpoint publication branch") "checkpoint publication branch") c, s', w)
      | (Ok (Some _), s') => (pb_at (after_branch c (set_branch b h) b) c, s', w)
      | (Ok None, s') => (pb_at (PbCheckingBranch h b) c, s', w)
      end
  | PbCheckingBranch h b =>
      if branch_saved (query (px_reply x) (pb_load (pbh_start h)) s) b
      then (pb_at (after_branch c (set_branch b h) b) c, s, w)
      else (pb_at (failed ErrPublicationState "checkpoint publication branch") c, s, w)
  | PbProposing h =>
      match propose_pull (px_around x) c with
      | Ok p => (pb_at (PbSavingPull h p) c, s, w)
      | Err e => (pb_at (PbReturned (Err e)) c, s, w)
      end
  | PbSavingPull h p =>
      match statement (px_reply x) (update_pull (pbh_start h) p) s with
      | (Err e, s') =>
          (pb_at (failed (ErrWrap e "checkpoint pull request") "checkpoint draft pull request") c, s', w)
      | (Ok (Some _), s') => (pb_at (PbRecording (set_pull p h) p) c, s', w)
      | (Ok None, s') => (pb_at (PbCheckingPull h p) c, s', w)
      end
  | PbCheckingPull h p =>
      if pull_saved (query (px_reply x) (pb_load (pbh_start h)) s) p
      then (pb_at (PbRecording (set_pull p h) p) c, s, w)
      else (pb_at (failed ErrPublicationState "checkpoint draft pull request") c, s, w)
  | PbRecording h p =>
      match store_publication (px_around x) (json_text (publication_json c p)) with
      | Err e => (pb_at (PbReturned (Err e)) c, s, w)
      | Ok ref =>
          match ExecuteRun (px_climate x) (px_ctx_done x) (publication_command (pc_request c) ref) w with
          | (Err e, w') => (pb_at (failed e "record draft pull request") c, s, w')
          | (Ok recorded, w') => (pb_at (PbCompleting h (publication_result c p ref recorded)) c, s, w')
          end
      end
  | PbCompleting h result =>
      match statement (px_reply x) (update_completed (pbh_start h) result (px_now x)) s with
      | (Err e, s') => (pb_at (failed (ErrWrap e "complete publication") "complete publication") c, s', w)
      | (Ok (Some _), s') => (pb_at (PbReturned (Ok result)) c, s', w)
      | (Ok None, s') => (pb_at (PbCheckingCompleted h result) c, s', w)
      end
  | PbCheckingCompleted h result =>
      if completion_saved (query (px_reply x) (pb_load (pbh_start h)) s) result
      then (pb_at (PbReturned (Ok result)) c, s, w)
      else (pb_at (failed ErrPublicationConflict "complete publication") c, s, w)
  | PbReturned r => (c, s, w)
  end.

(** ** The system *)

Definition pb_enters_in (possible : pb_surroundings -> Prop) (c : pb_call) : Prop :=
  exists around request, possible around /\ Publish_entry around request = Ok c.

Definition pb_enters : pb_call -> Prop := pb_enters_in anything.

(** The surroundings that a step meets are among the [possible] ones. *)
Definition pb_fair_in (possible : pb_surroundings -> Prop) (x : pb_circumstances) : Prop :=
  fair_climate (px_climate x) /\ possible (px_around x).

Definition pb_fair : pb_circumstances -> Prop := pb_fair_in anything.

(** A system that started with an empty ledger of publications, and whose calls met none but
    [possible] surroundings, at their entry and at their steps: what holds for every such
    predicate holds for the one that accepts exactly what this history met. *)
Definition publishing_in (possible : pb_surroundings -> Prop) (sys : world publications pb_call) : Prop :=
  started pb_step (pb_enters_in possible) (pb_fair_in possible) ∅ sys.

Definition publishing : world publications pb_call -> Prop := publishing_in anything.

End service.
