(* ===== verification/PbInvariants.v ===== *)
(** * What the ledger of publications keeps true

    A checkpoint that is in a row was made by a call for the same identifier
    and never goes away or changes; what a call goes on from is in its row. *)

From S2P Require Import Prelude GoStd GoJson PgRetry WfTypes WfTask WfRun WfDb WfStore WfReplay WfInvariants Interleave.
From S2P Require Import CtMessages CtImplementation Approval ApService PbRequest PbService.

(** ** What a row knows *)

Definition row_pull (r : publication_row) : option PullRequestCheckpoint :=
  match qr_state r with PrReady p | PbCompleted p _ _ => Some p | _ => None end.

Definition row_branch (r : publication_row) : option BranchCheckpoint :=
  match qr_state r with BranchReady b => Some b | _ => branch_of <$> row_pull r end.

Definition row_artifact (r : publication_row) : option ArtifactRef :=
  match qr_state r with PbCompleted _ a _ => Some a | _ => None end.

(** The row of the identifier says [a]. *)
Definition known {A} (f : publication_row -> option A) (s : publications) (k : string) (a : A) : Prop :=
  exists r, s !! k = Some r /\ f r = Some a.

Lemma known_same {A} (f : publication_row -> option A) s k a b : known f s k a -> known f s k b -> a = b.
Proof. intros (r & Hr & Ha) (r' & Hr' & Hb). congruence. Qed.

Lemma known_pull_branch s k p : known row_pull s k p -> known row_branch s k (branch_of p).
Proof.
  intros (r & Hr & Hp). exists r. split; [done|]. unfold row_branch. rewrite Hp.
  unfold row_pull in Hp. by destruct (qr_state r).
Qed.

Lemma known_artifact_pull s k a : known row_artifact s k a -> exists p, known row_pull s k p.
Proof.
  intros (r & Hr & Ha). unfold row_artifact in Ha. destruct (qr_state r) eqn:E; try done.
  eexists _, r. split; [done|]. unfold row_pull. by rewrite E.
Qed.

(** What is known stays known. *)
Record evolves (s s' : publications) : Prop := {
  ev_branch : forall k b, known row_branch s k b -> known row_branch s' k b;
  ev_pull : forall k p, known row_pull s k p -> known row_pull s' k p;
  ev_artifact : forall k a, known row_artifact s k a -> known row_artifact s' k a;
}.

#[global] Instance evolves_preorder : PreOrder evolves.
Proof. split; [by intros s|]. intros s1 s2 s3 [] []. split; auto. Qed.

Lemma known_insert {A} (f : publication_row -> option A) s k r k' a :
  (forall r0 a0, s !! k = Some r0 -> f r0 = Some a0 -> f r = Some a0) ->
  known f s k' a -> known f (<[k := r]> s) k' a.
Proof.
  intros Hf (r0 & Hr0 & Ha). destruct (decide (k' = k)) as [->|Hne].
  - exists r. rewrite lookup_insert_eq. split; [done|by eapply Hf].
  - exists r0. by rewrite lookup_insert_ne.
Qed.

Lemma evolves_insert s k r :
  (forall r0, s !! k = Some r0 ->
     (forall b, row_branch r0 = Some b -> row_branch r = Some b) /\
     (forall p, row_pull r0 = Some p -> row_pull r = Some p) /\
     (forall a, row_artifact r0 = Some a -> row_artifact r = Some a)) ->
  evolves s (<[k := r]> s).
Proof. intros Hr. split; intros k' x Hx; eapply known_insert; try done; intros; by eapply Hr. Qed.

Lemma reserved_row_knows r :
  is_pb_reserved r = true -> row_branch r = None /\ row_pull r = None /\ row_artifact r = None.
Proof.
  unfold is_pb_reserved, row_branch, row_pull, row_artifact. by destruct (qr_state r).
Qed.

Lemma evolves_delete s k r : s !! k = Some r -> is_pb_reserved r = true -> evolves s (delete k s).
Proof.
  intros Hr (Hb & Hp & Ha)%reserved_row_knows.
  assert (Hd : forall A (f : publication_row -> option A), f r = None -> forall k' a, known f s k' a ->
    known f (delete k s) k' a).
  { intros A f Hn k' a (r0 & Hr0 & Hf). exists r0. rewrite lookup_delete_ne; [done|]. congruence. }
  split; by apply Hd.
Qed.

Section invariant.
Context `{Platform} `{Protobuf} `{Wire}.
Variable config : PublicationConfig.
(** The surroundings that the calls of the history may meet. *)
Variable possible : pb_surroundings -> Prop.

(** ** Rows *)

(** The call passed the validation. *)
Definition validated (c : pb_call) : Prop :=
  exists around, possible around /\
    Publish_entry config around (pc_request c) = Ok (pb_at PbInserting c).

Definition pb_key (c : pb_call) : string := PublicationID (pc_request c).

(** A call for the identifier found its base unchanged and pushed the branch. *)
Definition pushed (k : string) (b : BranchCheckpoint) : Prop :=
  exists c around, validated c /\ pb_key c = k /\ possible around /\
    push_branch config around c = Ok b.

(** A call for the identifier found its base unchanged and found or opened the draft. *)
Definition opened (k : string) (p : PullRequestCheckpoint) : Prop :=
  exists c around, validated c /\ pb_key c = k /\ possible around /\
    propose_pull config around c = Ok p.

Record row_ok (k : string) (r : publication_row) : Prop := {
  ro_branch : forall b, row_branch r = Some b -> pushed k b;
  ro_pull : forall p, row_pull r = Some p -> opened k p;
  ro_check : publication_check r = true;
}.

Definition rows_ok : publications -> Prop := table_ok row_ok.

(** ** Calls *)

(** The result says what the row says. *)
Definition result_known (s : publications) (k : string) (r : PublicationResult) : Prop :=
  exists p, known row_pull s k p /\ known row_artifact s k (PublicationArtifact r) /\
    Branch r = Pull_Branch p /\ PResult_CandidateCommit r = Pull_Commit p /\
    PullRequestNumber r = Pull_Number p /\ PullRequestURL r = Pull_URL p.

Record handle_ok (s : publications) (start : PublicationStart) (h : pb_handle) : Prop := {
  ho_start : pbh_start h = start;
  ho_branch : forall b, pbh_branch h = Some b -> known row_branch s (PStart_PublicationID start) b;
  ho_pull : forall p, pbh_pull h = Some p -> known row_pull s (PStart_PublicationID start) p;
  ho_pulled : is_Some (pbh_pull h) -> is_Some (pbh_branch h);
  ho_result : forall r, pbh_result h = Some r -> result_known s (PStart_PublicationID start) r;
}.

Definition recordable_pull (s : publications) (c : pb_call) (p : PullRequestCheckpoint) : Prop :=
  known row_pull s (pb_key c) p /\ branch_of p = branch_checkpoint c.

(** The result that a call made for the pull request of its row. *)
Definition own_result (s : publications) (c : pb_call) (r : PublicationResult) : Prop :=
  exists p, recordable_pull s c p /\ Branch r = Pull_Branch p /\
    PResult_CandidateCommit r = Pb_CandidateCommit (pc_request c) /\
    PullRequestNumber r = Pull_Number p /\ PullRequestURL r = Pull_URL p.

Definition phase_ok (s : publications) (c : pb_call) (p : pb_phase) : Prop :=
  match p with
  | PbInserting | PbLoading _ => True
  | PbBegun h => handle_ok s (pb_start config c) h
  | PbRollingBack h e => pbh_start h = pb_start config c
  | PbSavingBranch h b | PbCheckingBranch h b =>
      pbh_start h = pb_start config c /\ pbh_pull h = None /\
      exists around, possible around /\ push_branch config around c = Ok b
  | PbProposing h =>
      pbh_start h = pb_start config c /\ known row_branch s (pb_key c) (branch_checkpoint c)
  | PbSavingPull h p | PbCheckingPull h p =>
      pbh_start h = pb_start config c /\ exists around, possible around /\ propose_pull config around c = Ok p
  | PbRecording h p => pbh_start h = pb_start config c /\ recordable_pull s c p
  | PbCompleting h r | PbCheckingCompleted h r => pbh_start h = pb_start config c /\ own_result s c r
  | PbReturned r => forall v, r = Ok v -> result_known s (pb_key c) v
  end.

Definition call_ok (s : publications) (c : pb_call) : Prop := validated c /\ phase_ok s c (pc_phase c).

Lemma result_known_stays s s' k r : evolves s s' -> result_known s k r -> result_known s' k r.
Proof. intros [] (p & Hp & Ha & Hr). exists p. split_and!; naive_solver. Qed.

Lemma pb_handle_ok_stays s s' start h : evolves s s' -> handle_ok s start h -> handle_ok s' start h.
Proof.
  intros He [? Hb Hp Hpb Hr]. pose proof He as [He1 He2 _]. split; try done; eauto.
  intros r Hres. by eapply result_known_stays, Hr.
Qed.

Lemma pb_phase_ok_stays s s' c p : evolves s s' -> phase_ok s c p -> phase_ok s' c p.
Proof.
  intros He. pose proof He as [He1 He2 _]. unfold phase_ok, recordable_pull, own_result.
  destruct p; try done.
  - by apply pb_handle_ok_stays.
  - intros [? ?]. eauto.
  - intros (? & ? & ?). eauto.
  - intros (? & q & [? ?] & ?). split; [done|]. exists q. by split; [split; [auto|]|].
  - intros (? & q & [? ?] & ?). split; [done|]. exists q. by split; [split; [auto|]|].
  - intros Hr v Hv. by eapply result_known_stays, Hr.
Qed.

Lemma pb_call_ok_stays s s' c : evolves s s' -> call_ok s c -> call_ok s' c.
Proof. intros He [? ?]. split; [done|by eapply pb_phase_ok_stays]. Qed.

Lemma pb_phase_ok_at s p q c : phase_ok s (pb_at p c) q <-> phase_ok s c q.
Proof. by destruct q. Qed.

Lemma proposed_branch c around p : propose_pull config around c = Ok p -> branch_of p = branch_checkpoint c.
Proof.
  unfold propose_pull. intros (head & _ & Hr)%res_bind_Ok. destruct (_ != _); [done|].
  by apply res_bind_Ok in Hr as (pr & _ & [= <-]).
Qed.

(** ** Steps *)

Definition step_keeps (s s' : publications) (c : pb_call) (p : pb_phase) : Prop :=
  rows_ok s' /\ call_ok s' (pb_at p c) /\ evolves s s'.

Lemma quiet_publication s c p : rows_ok s -> validated c -> phase_ok s c p -> step_keeps s s c p.
Proof. intros Hs Hv Hp. split; [done|]. split; [|done]. split; [done|]. by apply pb_phase_ok_at. Qed.

(** One row changes and nothing that was known is lost. *)
Lemma changed_publication s k r c p :
  rows_ok s -> validated c -> row_ok k r ->
  (forall r0, s !! k = Some r0 ->
     (forall b, row_branch r0 = Some b -> row_branch r = Some b) /\
     (forall q, row_pull r0 = Some q -> row_pull r = Some q) /\
     (forall a, row_artifact r0 = Some a -> row_artifact r = Some a)) ->
  phase_ok (<[k := r]> s) c p -> step_keeps s (<[k := r]> s) c p.
Proof.
  intros Hs Hv Hr He Hp. split; [by apply table_ok_insert|]. split; [|by apply evolves_insert].
  split; [done|by apply pb_phase_ok_at].
Qed.

Lemma pb_reserved_row_ok k r : is_pb_reserved r = true -> publication_check r = true -> row_ok k r.
Proof. intros (Hb & Hp & _)%reserved_row_knows Hc. split; congruence. Qed.

Lemma find_text_Ok id (s : publications) r : find_row text_column id s = Ok (Some r) -> s !! id = Some r.
Proof. unfold find_row. intros (k & ->%text_column_Ok & [= ?])%res_bind_Ok. done. Qed.

(** A loaded handle repeats the row. *)
Lemma loaded_ok s c h b :
  rows_ok s -> pb_load (pb_start config c) s = Ok (h, b) -> handle_ok s (pb_start config c) h.
Proof.
  intros Hs. unfold pb_load. intros (o & Ho & Hl)%res_bind_Ok.
  destruct o as [r|]; [|done]. apply find_text_Ok in Ho. cbn [pb_start PStart_PublicationID] in Ho.
  destruct (_ != _); [done|]. injection Hl as <- <-.
  assert (Hk : forall A (f : publication_row -> option A) a, f r = Some a -> known f s (pb_key c) a)
    by (by exists r).
  pose proof (Hk _ row_branch) as Hb. pose proof (Hk _ row_pull) as Hp. pose proof (Hk _ row_artifact) as Ha.
  unfold row_branch, row_pull, row_artifact in Hb, Hp, Ha.
  destruct (qr_state r) as [|b|p|p a t]; cbn [handle_of]; split; cbn;
    try done; try (intros ? [= <-]; auto; fail).
  intros v [= <-]. exists p. cbn. split_and!; auto.
Qed.

Lemma set_owner_ok s start h o : handle_ok s start h -> handle_ok s start (set_owner o h).
Proof. by intros []. Qed.

Lemma after_branch_ok s c h b :
  pbh_start h = pb_start config c -> known row_branch s (pb_key c) b ->
  (forall p, pbh_pull h = Some p -> known row_pull s (pb_key c) p) ->
  phase_ok s c (after_branch c h b).
Proof.
  intros Hst Hb Hp. unfold after_branch. destruct (bool_decide_reflect (b <> branch_checkpoint c)) as [|Heq]; [done|].
  apply dec_stable in Heq as ->. unfold PbHandle_PullRequest.
  destruct (pbh_pull h) as [p|]; cbn [phase_ok]; (split; [done|]); [|done].
  pose proof (Hp p eq_refl) as Hk. split; [done|].
  by eapply known_same; [apply known_pull_branch|].
Qed.

Lemma begun_ok s c around h :
  possible around -> handle_ok s (pb_start config c) h -> phase_ok s c (pb_begun config around c h).
Proof.
  intros Ha [Hst Hb Hp Hpb Hr]. unfold pb_begun, PbHandle_Replay, PbHandle_Branch.
  destruct (pbh_result h) as [r|].
  - cbn [phase_ok]. intros v [= <-]. destruct (Hr r eq_refl) as (p & ? & ? & ? & ? & ? & ?).
    exists p. by split_and!.
  - destruct (pbh_branch h) as [b|] eqn:Hbr; [by apply after_branch_ok; auto|].
    destruct (push_branch config around c) as [b|e] eqn:Hpush; [|done]. cbn [phase_ok].
    split; [done|]. split; [|by eexists]. destruct (pbh_pull h); [|done].
    destruct (Hpb ltac:(by eexists)) as [? [=]].
Qed.

(** ** The statements *)

Lemma insert_publication_Ok start s b s' :
  insert_publication start s = Ok (b, s') ->
  (b = true /\ s !! PStart_PublicationID start = None /\
     exists r, s' = <[PStart_PublicationID start := r]> s /\ is_pb_reserved r = true /\
       publication_check r = true) \/
  (b = false /\ s' = s).
Proof.
  unfold insert_publication. intros (row & Hrow & Hr)%tx_lift_bind_Ok.
  destruct (publication_check row) eqn:Hc; [|done]. cbn [negb] in Hr.
  apply insert_row_Ok in Hr as (k & ->%text_column_Ok & [(-> & Hn & ->)|[-> ->]]); [left|by right].
  split_and!; [done..|]. exists row. split_and!; [done| |done].
  unfold publication_row_of in Hrow.
  repeat (apply res_bind_Ok in Hrow as (? & _ & Hrow)). by injection Hrow as <-.
Qed.

Lemma update_branch_Ok start b s o s' :
  update_branch start b s = Ok (o, s') ->
  (o = None /\ s' = s) \/
  exists r, s !! PStart_PublicationID start = Some r /\ is_pb_reserved r = true /\
    publication_check (set_qr_state (BranchReady b) r) = true /\
    s' = <[PStart_PublicationID start := set_qr_state (BranchReady b) r]> s.
Proof.
  unfold update_branch. intros (x & ->%text_column_Ok & (y & ->%text_column_Ok & Hr)%tx_lift_bind_Ok)%tx_lift_bind_Ok.
  apply update_row_Ok in Hr as [?|(k & r & ->%text_column_Ok & Hr & Hm & Hc & _ & ->)]; [by left|right].
  exists r. destruct b. by split_and!.
Qed.

Lemma update_pull_Ok start p s o s' :
  update_pull start p s = Ok (o, s') ->
  (o = None /\ s' = s) \/
  exists r, s !! PStart_PublicationID start = Some r /\ qr_state r = BranchReady (branch_of p) /\
    publication_check (set_qr_state (PrReady p) r) = true /\
    s' = <[PStart_PublicationID start := set_qr_state (PrReady p) r]> s.
Proof.
  unfold update_pull. intros (x & ->%text_column_Ok & (y & ->%text_column_Ok & Hr)%tx_lift_bind_Ok)%tx_lift_bind_Ok.
  apply tx_lift_bind_Ok in Hr as (z & ->%text_column_Ok & Hr).
  apply update_row_Ok in Hr as [?|(k & r & ->%text_column_Ok & Hr & Hm & Hc & _ & ->)]; [by left|right].
  exists r. unfold has_branch in Hm. destruct (qr_state r) as [|b| |]; try done.
  apply bool_decide_eq_true in Hm as ->.
  destruct p. by split_and!.
Qed.

Lemma update_completed_Ok start result now s o s' :
  update_completed start result now s = Ok (o, s') ->
  (o = None /\ s' = s) \/
  exists r p t, s !! PStart_PublicationID start = Some r /\ qr_state r = PrReady p /\
    publication_check (set_qr_state (PbCompleted p (PublicationArtifact result) t) r) = true /\
    s' = <[PStart_PublicationID start :=
             set_qr_state (PbCompleted p (PublicationArtifact result) t) r]> s.
Proof.
  unfold update_completed. intros (x & ->%text_column_Ok & (y & ->%text_column_Ok & Hr)%tx_lift_bind_Ok)%tx_lift_bind_Ok.
  apply update_row_Ok in Hr as [?|(k & r & ->%text_column_Ok & Hr & Hm & Hc & _ & ->)]; [by left|right].
  unfold is_pr_ready in Hm. destruct (qr_state r) as [| |p|] eqn:E; try done. exists r, p.
  unfold completed_publication in *. rewrite E in *. eexists.
  destruct (PublicationArtifact result). by split_and!.
Qed.

(** ** Every step *)

Lemma pb_inserting_step c s w r s' :
  rows_ok s -> validated c -> statement w (insert_publication (pb_start config c)) s = (r, s') ->
  forall p, phase_ok s' c p -> step_keeps s s' c p.
Proof.
  intros Hs Hv Hst p Hp. apply statement_cases in Hst as [[-> _]|(b & Hb & _)]; [by apply quiet_publication|].
  apply insert_publication_Ok in Hb as [(_ & Hn & r0 & -> & Hr0 & Hc)|[_ ->]]; [|by apply quiet_publication].
  apply changed_publication; [done|done|by apply pb_reserved_row_ok|congruence|done].
Qed.

Lemma saving_branch_step c s w h b o s' :
  rows_ok s -> validated c -> pbh_start h = pb_start config c ->
  (exists around, possible around /\ push_branch config around c = Ok b) ->
  statement w (update_branch (pbh_start h) b) s = (o, s') ->
  (forall r, o = Ok (Some r) -> known row_branch s' (pb_key c) b) /\
  forall p, phase_ok s' c p -> step_keeps s s' c p.
Proof.
  intros Hs Hv Hh (around & Ha0 & Hpush) Hst. rewrite Hh in Hst.
  apply statement_cases in Hst as [[-> Hno]|(a & Ha & Hoa)].
  { split; [by intros r ->; destruct (Hno _ eq_refl)|by intros; apply quiet_publication]. }
  apply update_branch_Ok in Ha as [[-> ->]|(r & Hr & Hres & Hc & ->)].
  { split; [by intros r ->; specialize (Hoa _ eq_refl)|by intros; apply quiet_publication]. }
  apply reserved_row_knows in Hres as (Rb & Rp & Ra). split.
  - intros _ _. eexists. rewrite lookup_insert_eq. done.
  - intros p Hp. apply changed_publication; [done|done| | |done].
    + split; [|done|done]. intros b' [= <-]. by exists c, around.
    + intros r0 Hr0. rewrite Hr0 in Hr. injection Hr as ->. rewrite Rb, Rp, Ra. done.
Qed.

Lemma saving_pull_step c s w h p o s' :
  rows_ok s -> validated c -> pbh_start h = pb_start config c ->
  (exists around, possible around /\ propose_pull config around c = Ok p) ->
  statement w (update_pull (pbh_start h) p) s = (o, s') ->
  (forall r, o = Ok (Some r) -> known row_pull s' (pb_key c) p) /\
  forall q, phase_ok s' c q -> step_keeps s s' c q.
Proof.
  intros Hs Hv Hh (around & Ha0 & Hpull) Hst. rewrite Hh in Hst.
  apply statement_cases in Hst as [[-> Hno]|(a & Ha & Hoa)].
  { split; [by intros r ->; destruct (Hno _ eq_refl)|by intros; apply quiet_publication]. }
  apply update_pull_Ok in Ha as [[-> ->]|(r & Hr & Hst & Hc & ->)].
  { split; [by intros r ->; specialize (Hoa _ eq_refl)|by intros; apply quiet_publication]. }
  split.
  - intros _ _. eexists. rewrite lookup_insert_eq. done.
  - intros q Hq. assert (Hb : row_branch r = Some (branch_of p)) by (unfold row_branch; by rewrite Hst).
    apply changed_publication; [done|done| | |done].
    + split.
      * intros b [= <-]. by apply (ro_branch _ _ (Hs _ _ Hr)).
      * intros p' [= <-]. by exists c, around.
      * done.
    + intros r0 Hr0. rewrite Hr0 in Hr. injection Hr as ->. rewrite Hb.
      unfold row_pull at 1, row_artifact. rewrite Hst. done.
Qed.

Lemma completing_step c s w h result now o s' :
  rows_ok s -> validated c -> pbh_start h = pb_start config c -> own_result s c result ->
  statement w (update_completed (pbh_start h) result now) s = (o, s') ->
  (forall r, o = Ok (Some r) -> known row_artifact s' (pb_key c) (PublicationArtifact result)) /\
  forall q, phase_ok s' c q -> step_keeps s s' c q.
Proof.
  intros Hs Hv Hh Hown Hst. rewrite Hh in Hst.
  apply statement_cases in Hst as [[-> Hno]|(a & Ha & Hoa)].
  { split; [by intros r ->; destruct (Hno _ eq_refl)|by intros; apply quiet_publication]. }
  apply update_completed_Ok in Ha as [[-> ->]|(r & p & t & Hr & Hst & Hc & ->)].
  { split; [by intros r ->; specialize (Hoa _ eq_refl)|by intros; apply quiet_publication]. }
  assert (Hp : row_pull r = Some p) by (unfold row_pull; by rewrite Hst).
  split.
  - intros _ _. eexists. rewrite lookup_insert_eq. done.
  - intros q Hq. apply changed_publication; [done|done| | |done].
    + destruct (Hs _ _ Hr) as [Hb Hp' _]. split; [| |done].
      * intros b [= <-]. apply Hb. unfold row_branch. by rewrite Hp, Hst.
      * intros p' [= <-]. by apply Hp'.
    + intros r0 Hr0. rewrite Hr0 in Hr. injection Hr as ->.
      unfold row_branch, row_artifact. rewrite Hp, Hst. by split_and!.
Qed.

(** A completion that is in the row makes the result of the call what the row says. *)
Lemma own_result_known s c r :
  own_result s c r -> known row_artifact s (pb_key c) (PublicationArtifact r) -> result_known s (pb_key c) r.
Proof.
  intros (p & [Hp Hb] & Hbr & Hcc & Hnum & Hurl) Ha. exists p. split_and!; try done.
  rewrite Hcc. by injection Hb.
Qed.

Lemma checked_load_ok s c w h b :
  rows_ok s -> query w (pb_load (pb_start config c)) s = Ok (h, b) -> handle_ok s (pb_start config c) h.
Proof. intros Hs Hq%query_Ok. by eapply loaded_ok. Qed.

Lemma rollback_evolves c s w h :
  rows_ok s -> validated c -> step_keeps s (Publication_Rollback w h s) c (PbReturned (Err ErrBaseDrift)).
Proof.
  intros Hs Hv. unfold Publication_Rollback. destruct (_ || _); [by apply quiet_publication|].
  destruct (statement _ _ _) as [r s'] eqn:Hst. cbn.
  apply statement_cases in Hst as [[-> _]|(a & Ha & _)]; [by apply quiet_publication|].
  apply delete_row_Ok in Ha as [[_ ->]|(k & r0 & _ & Hr & Hm & _ & ->)]; [by apply quiet_publication|].
  split; [|split; [by split|by eapply evolves_delete]].
  intros k' r' Hr'. apply lookup_delete_Some in Hr' as [_ Hr']. by apply Hs.
Qed.

Lemma pb_step_ok x c s w c' s' w' :
  possible (px_around x) -> rows_ok s -> call_ok s c -> pb_step config x c s w = (c', s', w') ->
  rows_ok s' /\ call_ok s' c' /\ evolves s s'.
Proof.
  intros Hx Hs [Hv Hp]. unfold pb_step.
  destruct (pc_phase c) as [|ins|h|h e|h b|h b|h|h p|h p|h p|h r|h r|r] eqn:Hph; cbn [phase_ok] in Hp.
  - destruct (statement _ _ _) as [o s1] eqn:E. pose proof (pb_inserting_step _ _ _ _ _ Hs Hv E) as Hk.
    destruct o; intros [= <- <- <-]; by apply Hk.
  - intros [= <- <- <-]. apply quiet_publication; [done..|]. unfold pb_load_step.
    destruct (query _ _ _) as [[h r]|e] eqn:E; [|done]. by apply set_owner_ok, (checked_load_ok _ _ _ _ _ Hs E).
  - intros [= <- <- <-]. apply quiet_publication; [done..|by apply begun_ok].
  - intros [= <- <- <-]. destruct (rollback_evolves c s (px_reply x) h Hs Hv) as (? & [? _] & ?).
    by split_and!.
  - destruct Hp as (Hh & Hn & Hpush). destruct (statement _ _ _) as [o s1] eqn:E.
    destruct (saving_branch_step _ _ _ _ _ _ _ Hs Hv Hh Hpush E) as [Hk Hstep].
    destruct o as [[r|]|e]; intros [= <- <- <-]; apply Hstep; [|done..].
    apply after_branch_ok; [done|by eapply Hk|]. cbn. congruence.
  - destruct Hp as (Hh & Hn & Hpush). rewrite Hh. destruct (branch_saved _ _) eqn:E; intros [= <- <- <-];
      (apply quiet_publication; [done..|]); [|done].
    unfold branch_saved in E. destruct (query _ _ _) as [[h' []]|] eqn:Eq; try done.
    apply bool_decide_eq_true in E. apply after_branch_ok; [done| |cbn; congruence].
    by apply (ho_branch _ _ _ (checked_load_ok _ _ _ _ _ Hs Eq)).
  - destruct Hp as [Hh Hb]. destruct (propose_pull _ _ _) as [p|e] eqn:E; intros [= <- <- <-];
      (apply quiet_publication; [done..|]); [|done]. split; [done|by eexists].
  - destruct Hp as (Hh & Hpull). destruct (statement _ _ _) as [o s1] eqn:E.
    destruct (saving_pull_step _ _ _ _ _ _ _ Hs Hv Hh Hpull E) as [Hk Hstep].
    destruct o as [[r|]|e]; intros [= <- <- <-]; apply Hstep; [|done..].
    split; [done|]. split; [by eapply Hk|]. destruct Hpull as (around & _ & Hpull). by eapply proposed_branch.
  - destruct Hp as (Hh & Hpull). rewrite Hh. destruct (pull_saved _ _) eqn:E; intros [= <- <- <-];
      (apply quiet_publication; [done..|]); [|done].
    unfold pull_saved in E. destruct (query _ _ _) as [[h' b']|] eqn:Eq; try done.
    apply bool_decide_eq_true in E. split; [done|]. split.
    + by apply (ho_pull _ _ _ (checked_load_ok _ _ _ _ _ Hs Eq)).
    + destruct Hpull as (around & _ & Hpull). by eapply proposed_branch.
  - destruct Hp as [Hh Hrec]. destruct (store_publication _ _) as [ref|e].
    2: { intros [= <- <- <-]. by apply quiet_publication. }
    destruct (ExecuteRun _ _ _ _) as [[recorded|e] w1]; intros [= <- <- <-];
      (apply quiet_publication; [done..|]); [|done]. split; [done|]. by exists p.
  - destruct Hp as [Hh Hown]. destruct (statement _ _ _) as [o s1] eqn:E.
    destruct (completing_step _ _ _ _ _ _ _ _ Hs Hv Hh Hown E) as [Hk Hstep].
    destruct o as [[r0|]|e]; intros [= <- <- <-]; apply Hstep; [| |done].
    + intros v [= <-]. apply own_result_known; [|by eapply Hk].
      destruct (Hstep PbInserting I) as (_ & _ & He). destruct Hown as (p & [Hp Hb] & Hr).
      exists p. split; [split; [by apply He|done]|done].
    + split; [done|]. destruct (Hstep PbInserting I) as (_ & _ & He). destruct Hown as (p & [Hp Hb] & Hr).
      exists p. split; [split; [by apply He|done]|done].
  - destruct Hp as [Hh Hown]. rewrite Hh. destruct (completion_saved _ _) eqn:E; intros [= <- <- <-];
      (apply quiet_publication; [done..|]); [|done]. intros v [= <-].
    unfold completion_saved in E. destruct (query _ _ _) as [[h' b']|] eqn:Eq; try done.
    destruct (pbh_result h') as [r'|] eqn:Hr'; [|done]. apply ArtifactRef_Equal_eq in E.
    apply own_result_known; [done|]. rewrite <- E.
    by destruct (ho_result _ _ _ (checked_load_ok _ _ _ _ _ Hs Eq) _ Hr') as (p & _ & Ha & _).
  - intros [= <- <- <-]. split; [done|]. split; [|done]. split; [done|by rewrite Hph].
Qed.

End invariant.
