(* ===== verification/PbProps.v ===== *)
(** * What the publication service guarantees *)

From S2P Require Import Prelude GoStd GoJson GoText PgRetry WfTypes WfTask WfRun WfDigest WfDb WfStore.
From S2P Require Import WfReplay WfInvariants WfRefine Interleave CtMessages CtCommon CtImplementation.
From S2P Require Import Approval ApService ExRequest VfEvidence PbRequest PbService PbInvariants.
From S2P Require Import WfPlan Samples WfGuarantees CtSamples RvService.

Section guarantees.
Context `{Platform} `{Protobuf} `{Wire}.
Variable config : PublicationConfig.

Local Abbreviation pb_step := (pb_step config).
Local Abbreviation publishing := (publishing config).
Local Abbreviation publishing_in := (publishing_in config).
Local Abbreviation pb_steps := (rtc (world_step pb_step (pb_enters config) pb_fair)).
Local Abbreviation pb_steps_in possible :=
  (rtc (world_step pb_step (pb_enters_in config possible) (pb_fair_in possible))).

(** ** The invariant in running systems *)

Lemma Publish_entry_Ok around request c :
  Publish_entry config around request = Ok c ->
  pc_request c = request /\ pc_phase c = PbInserting /\
  validateRequestHeader config request = Ok tt /\
  publicationRequestDigest request = Ok (pc_digest c) /\
  exists inputs, validateArtifacts around config request = Ok inputs /\
    renderPullRequest around config request inputs = Ok (pc_rendered c).
Proof.
  unfold Publish_entry. rewrite then_Ok. intros [Hh (inputs & Hi & Hc)%res_bind_Ok].
  apply res_bind_Ok in Hc as (rendered & Hr & (digest & Hd & [= <-])%res_bind_Ok).
  split_and!; try done. by exists inputs.
Qed.

Lemma enters_validated possible c :
  pb_enters_in config possible c -> validated config possible c /\ pc_phase c = PbInserting.
Proof.
  intros (around & request & Ha & He). pose proof (Publish_entry_Ok _ _ _ He) as (Hr & Hp & _).
  split; [|done]. exists around. split; [done|]. rewrite Hr, He. f_equal. destruct c. cbn in *. by subst.
Qed.

Lemma publishing_ok possible sys :
  publishing_in possible sys -> world_ok (rows_ok config possible) (call_ok config possible) sys.
Proof.
  apply (invariant_holds pb_step (pb_enters_in config possible) (pb_fair_in possible) _ _ evolves);
    [| | |done].
  - intros s c [Hv Hp]%enters_validated. split; [done|by rewrite Hp].
  - apply pb_call_ok_stays.
  - intros x c s w c' s' w' [_ Hx]. by apply pb_step_ok.
Qed.

Lemma publishing_evolves possible sys sys' :
  publishing_in possible sys -> pb_steps_in possible sys sys' -> evolves (shared sys) (shared sys').
Proof.
  intros Hs Hr.
  eapply (world_steps_ok pb_step (pb_enters_in config possible) (pb_fair_in possible)
    (rows_ok config possible) (call_ok config possible) evolves);
    [|apply pb_call_ok_stays| |done|by apply publishing_ok].
  - intros s c [Hv Hp]%enters_validated. split; [done|by rewrite Hp].
  - intros x c s w c' s' w' [_ Hx]. by apply pb_step_ok.
Qed.

Lemma pb_call_phase_ok possible sys i c :
  publishing_in possible sys -> calls sys !! i = Some c ->
  phase_ok config possible (shared sys) c (pc_phase c).
Proof. intros Hs Hi. apply (proj2 (publishing_ok _ _ Hs) i c Hi). Qed.

(** ** One publication *)

(** What a publication came to. *)
Definition published (r : PublicationResult) : string * string * Z * string * ArtifactRef :=
  (Branch r, PResult_CandidateCommit r, PullRequestNumber r, PullRequestURL r, PublicationArtifact r).

Lemma result_known_same s k r r' : result_known s k r -> result_known s k r' -> published r' = published r.
Proof.
  intros (p & Hp & Ha & Hb & Hc & Hn & Hu) (p' & Hp' & Ha' & Hb' & Hc' & Hn' & Hu').
  rewrite (known_same _ _ _ _ _ Hp' Hp) in *. pose proof (known_same _ _ _ _ _ Ha' Ha) as Heq.
  unfold published. congruence.
Qed.

(** C14: Two calls that return a result for one publication, at any time and in any processes, with
    crashes, lost answers and other calls in between, return the same branch, candidate, pull
    request and artifact: a publication has one draft pull request. *)
Theorem publication_decided_once sys sys' i j c c' r r' :
  publishing sys -> pb_steps sys sys' ->
  calls sys !! i = Some c -> pc_phase c = PbReturned (Ok r) ->
  calls sys' !! j = Some c' -> pc_phase c' = PbReturned (Ok r') ->
  PublicationID (pc_request c') = PublicationID (pc_request c) ->
  published r' = published r.
Proof.
  intros Hs Hr Hi Hp Hj Hp' Hid. pose proof (pb_call_phase_ok anything _ _ _ Hs Hi) as Hok.
  pose proof (pb_call_phase_ok anything _ _ _ (started_steps _ _ _ _ _ _ Hs Hr) Hj) as Hok'.
  rewrite Hp in Hok. rewrite Hp' in Hok'. specialize (Hok r eq_refl). specialize (Hok' r' eq_refl).
  apply (result_known_stays _ _ _ _ (publishing_evolves anything _ _ Hs Hr)) in Hok.
  unfold pb_key in *. rewrite Hid in Hok'. by eapply result_known_same.
Qed.

(** ** What is published was approved *)

(** What holds of the surroundings that the calls met. *)
Variable possible : pb_surroundings -> Prop.

(** The report is the content of the artifact, which was asked for within the limit. *)
Definition content_of {T} (around : pb_surroundings) (decode : string -> option (T * string))
    (ref : ArtifactRef) (value : T) : Prop :=
  exists body, Pb_Get around ref (MaxArtifactBytes config) = Ok body /\ sha256_hex body = Digest ref /\
    decodeJSON around decode body = Some value.

(** The reports are about the candidate of the request and about each other. *)
Record publishable (request : PublicationRequest) (inputs : validatedInputs) : Prop := {
  pu_candidate : Exec_CandidateCommit (execution inputs) = Pb_CandidateCommit request /\
    VR_CandidateCommit (verification inputs) = Pb_CandidateCommit request /\
    Report_CandidateCommit (review inputs) = Pb_CandidateCommit request /\
    TA_CandidateCommit (approval inputs) = Pb_CandidateCommit request;
  pu_run : Exec_RunID (execution inputs) = Pb_RunID request /\
    VR_RunID (verification inputs) = Pb_RunID request /\
    Report_RunID (review inputs) = Pb_RunID request /\ TA_RunID (approval inputs) = Pb_RunID request;
  pu_base : Exec_BaseCommit (execution inputs) = Pb_BaseCommit request /\
    VR_BaseCommit (verification inputs) = Pb_BaseCommit request;
  pu_proposal : Exec_Proposal (execution inputs) = Pb_Implementation request;
  pu_verified : VR_Passed (verification inputs) = true /\ VR_Checks (verification inputs) <> [] /\
    VR_Coverage (verification inputs) <> [] /\
    (forall check, check ∈ VR_Checks (verification inputs) -> Check_Passed check = true /\
       TimedOut check = false /\ Result_CandidateCommit check = Pb_CandidateCommit request) /\
    forall coverage, coverage ∈ VR_Coverage (verification inputs) -> Covered coverage = true /\
       Coverage_Passed coverage = true /\ Coverage_CheckIDs coverage <> [];
  pu_reviewed : Report_Passed (review inputs) = true /\
    Report_Recommendation (review inputs) = "REVIEW_RECOMMENDATION_ADVISORY_ACCEPT";
  pu_approved : TA_Decision (approval inputs) = "approve" /\
    TA_SpecificationDigest (approval inputs) = Digest (Pb_Specification request) /\
    TA_Implementation (approval inputs) = Pb_Implementation request /\
    TA_Execution (approval inputs) = Pb_Execution request /\
    TA_Verification (approval inputs) = Pb_Verification request /\
    TA_Review (approval inputs) = Pb_Review request;
}.

Lemma verificationPassed_Ok report :
  verificationPassed report = true ->
  VR_Checks report <> [] /\ VR_Coverage report <> [] /\
  (forall check, check ∈ VR_Checks report -> Check_Passed check = true /\ TimedOut check = false /\
     Result_CandidateCommit check = VR_CandidateCommit report) /\
  forall coverage, coverage ∈ VR_Coverage report -> Covered coverage = true /\
     Coverage_Passed coverage = true /\ Coverage_CheckIDs coverage <> [].
Proof.
  unfold verificationPassed. rewrite !andb_true_iff, !negb_true_iff, !Nat.eqb_neq, !forallb_forall.
  intros [[[Hc Hg] Hck] Hcv]. split_and!; [by intros E; rewrite E in Hc|by intros E; rewrite E in Hg|..].
  - intros check Hin%list_elem_of_In. specialize (Hck check Hin).
    rewrite !andb_true_iff, negb_true_iff, bool_decide_eq_true in Hck. tauto.
  - intros coverage Hin%list_elem_of_In. specialize (Hcv coverage Hin).
    rewrite !andb_true_iff, negb_true_iff, Nat.eqb_neq in Hcv. destruct Hcv as [[? ?] Hn].
    split_and!; [done..|]. intros E. by rewrite E in Hn.
Qed.

Lemma artifactsMatch_Ok request inputs : artifactsMatch request inputs = true -> publishable request inputs.
Proof.
  unfold artifactsMatch. rewrite !andb_true_iff, !bool_decide_eq_true, !ArtifactRef_Equal_eq.
  intros Hm. destruct_and! Hm.
  destruct (verificationPassed_Ok (verification inputs)) as (? & ? & Hck & ?); [done|].
  split; split_and?; try done; try congruence.
  intros check Hin. destruct (Hck check Hin) as (? & ? & ?). split_and!; [done..|congruence].
Qed.

Lemma pb_loadJSON_Ok {T} around (decode : string -> option (T * string)) ref limit value :
  limit = MaxArtifactBytes config ->
  pb_loadJSON around decode ref limit = Ok value -> content_of around decode ref value.
Proof.
  intros ->. unfold pb_loadJSON, loadArtifact. intros (body & Hb & Hv)%res_bind_Ok.
  apply res_bind_Ok in Hb as (b & Hg%map_err_Ok & Hb). destruct (_ <? _); [done|].
  destruct (bool_decide_reflect (sha256_hex b = Digest ref)) as [E|]; [|done]. injection Hb as ->.
  destruct (decodeJSON around decode body) eqn:Hd; [|done]. injection Hv as <-. by exists body.
Qed.

(** The inputs were loaded from the artifacts of the request and match it. *)
Definition approved_inputs (around : pb_surroundings) (request : PublicationRequest)
    (inputs : validatedInputs) : Prop :=
  content_of around (Read_execution around) (Pb_Execution request) (execution inputs) /\
  content_of around (Read_verification around) (Pb_Verification request) (verification inputs) /\
  content_of around (Read_review around) (Pb_Review request) (review inputs) /\
  content_of around (Read_approval around) (Pb_Approval request) (approval inputs) /\
  publishable request inputs.

Lemma validateArtifacts_Ok around request inputs :
  validateArtifacts around config request = Ok inputs -> approved_inputs around request inputs.
Proof.
  unfold validateArtifacts. intros (spec & _ & Hr)%res_bind_Ok. rewrite !then_Ok in Hr.
  destruct Hr as (_ & _ & (ex & Hex & Hr)%res_bind_Ok). apply res_bind_Ok in Hr as (vf & Hvf & Hr).
  apply res_bind_Ok in Hr as (rv & Hrv & Hr). apply res_bind_Ok in Hr as (ap & Hap & Hr).
  destruct (artifactsMatch _ _) eqn:Hm; [|done]. cbn [negb] in Hr. injection Hr as <-.
  unfold approved_inputs. cbn [execution verification review approval].
  split_and!; [by eapply pb_loadJSON_Ok..|by apply artifactsMatch_Ok].
Qed.

(** ** What was seen outside *)

(** Git said that the branch of the remote is the candidate, or pushed it to a
    branch that the remote must not have had: the answers of the second to the
    fourth command of [push_branch]. *)
Definition at_remote (around : pb_surroundings) (branch candidate : string) : Prop :=
  (exists n, (n = 2 \/ n = 4)%nat /\ BranchHead around config n branch = Ok (Some candidate)) \/
  exists output, Git_run around 3
    ["push"; "--porcelain"; "--no-verify"; "--force-with-lease=" +:+ branch_ref branch +:+ ":";
     Remote config; candidate +:+ ":" +:+ branch_ref branch] = Ok output.

Lemma Git_Publish_Ok around branch candidate b :
  Git_Publish around config 1 branch candidate = Ok b -> at_remote around branch candidate.
Proof.
  unfold Git_Publish. destruct (_ || _); [done|]. destruct (Git_run around 1 _); [|by destruct (Git_cancelled around)].
  intros (before & Hb & Hr)%res_bind_Ok. destruct before as [head|].
  { case_bool_decide as E; [|done]. subst. left. exists 2%nat. split; [by left|done]. }
  destruct (Git_run around 3 _) as [output|e] eqn:Hpush; [right; by eexists|].
  destruct (BranchHead around config 4 branch) as [[head|]|] eqn:Hh; [|done..].
  case_bool_decide as E; [|done]. subst. left. exists 4%nat. split; [by right|done].
Qed.

(** GitHub answered the question for the draft of the input, or the request to open it, with this
    pull request. *)
Definition answered (around : pb_surroundings) (input : DraftPullRequestInput) (pr : githubPullRequest)
    : Prop :=
  exists path, pullPath input = Ok path /\
    ((exists n, (n = 0 \/ n = 1 \/ n = 2)%nat /\
        GET_pulls around n path (draft_query input) = Ok [pr]) \/
     POST_pull around path (create_payload input) = Ok pr).

Lemma FindDraft_Ok around n input pr :
  (n = 0 \/ n = 1 \/ n = 2)%nat -> FindDraft around n input = Ok (Some pr) ->
  exists gh, answered around input gh /\ is_draft_of gh input = true /\ pr = mapPullRequest gh (Marker input).
Proof.
  intros Hn. unfold FindDraft. intros (path & Hpath & (l & Hl & Hr)%res_bind_Ok)%res_bind_Ok.
  destruct l as [|gh [|]]; [done| |done]. destruct (is_draft_of gh input) eqn:E; [|done].
  injection Hr as <-. exists gh. split_and!; [|done..]. exists path. split; [done|]. left. by exists n.
Qed.

Lemma CreateDraft_Ok around input pr :
  CreateDraft around 1 input = Ok pr ->
  exists gh, answered around input gh /\ is_draft_of gh input = true /\ pr = mapPullRequest gh (Marker input).
Proof.
  unfold CreateDraft. intros (path & Hpath & Hr)%res_bind_Ok.
  destruct (POST_pull around path _) as [gh|e] eqn:Hp.
  - destruct (is_draft_of gh input) eqn:E; [|done]. injection Hr as <-. exists gh.
    split_and!; [|done..]. exists path. split; [done|]. by right.
  - destruct (FindDraft around 1 input) as [[pr'|]|] eqn:Hf; [|done..]. injection Hr as ->.
    eapply FindDraft_Ok; [|exact Hf]. auto.
Qed.

Lemma find_or_create_Ok around input pr :
  find_or_create around input = Ok pr ->
  exists gh, answered around input gh /\ is_draft_of gh input = true /\ pr = mapPullRequest gh (Marker input).
Proof.
  unfold find_or_create. intros (found & Hf%map_err_Ok & Hr)%res_bind_Ok. destruct found as [p|].
  { injection Hr as ->. eapply FindDraft_Ok; [|exact Hf]. auto. }
  destruct (CreateDraft around 1 input) as [p|e] eqn:Hc.
  { injection Hr as ->. by eapply CreateDraft_Ok. }
  destruct (FindDraft around 2 input) as [[p|]|] eqn:Hf2; [|done..]. injection Hr as ->.
  eapply FindDraft_Ok; [|exact Hf2]. auto.
Qed.

(** A call for [k] found the base where its request wants it, and then the branch went out, as git
    answered in surroundings that the history met. *)
Definition branch_went_out (k : string) (b : BranchCheckpoint) : Prop :=
  exists c around, possible around /\ validated config possible c /\
    PublicationID (pc_request c) = k /\
    Pb_CandidateCommit (pc_request c) = Published_Commit b /\
    BaseHead around config 0 = Ok (Pb_BaseCommit (pc_request c)) /\
    at_remote around (Published_Branch b) (Published_Commit b).

(** A call for [k] found the base where its request wants it, and then GitHub showed it an open
    draft from the branch to the base, with the marker of the publication, in surroundings that the
    history met. *)
Definition draft_was_open (k : string) (p : PullRequestCheckpoint) : Prop :=
  exists c around gh, possible around /\ validated config possible c /\
    PublicationID (pc_request c) = k /\ Pb_CandidateCommit (pc_request c) = Pull_Commit p /\
    BaseHead around config 0 = Ok (Pb_BaseCommit (pc_request c)) /\
    answered around (pc_rendered c) gh /\
    GH_State gh = "open" /\ GH_Draft gh = true /\ Head_Ref gh = Pull_Branch p /\
    Base_Ref gh = BaseBranch config /\ Contains (GH_Body gh) (publication_marker k) = true /\
    GH_Number gh = Pull_Number p /\ HTMLURL gh = Pull_URL p.

Lemma pushed_went_out k b : pushed config possible k b -> branch_went_out k b.
Proof.
  intros (c & around & Hv & Hk & Ha & Hp). exists c, around. unfold push_branch in Hp.
  apply res_bind_Ok in Hp as (head & Hh%map_err_Ok & Hp).
  destruct (bool_decide_reflect (head = Pb_BaseCommit (pc_request c))) as [->|]; [|done]. cbn [negb] in Hp.
  apply res_bind_Ok in Hp as (there & Hg & [= <-]).
  split_and!; try done. by eapply Git_Publish_Ok.
Qed.

Lemma validated_rendered c :
  validated config possible c ->
  Head (pc_rendered c) = BranchPrefix config +:+ Pb_RunID (pc_request c) /\
  Base (pc_rendered c) = BaseBranch config /\
  Marker (pc_rendered c) = publication_marker (PublicationID (pc_request c)).
Proof.
  intros (around & _ & He). apply Publish_entry_Ok in He as (_ & _ & _ & _ & inputs & _ & Hr).
  cbn in Hr. unfold renderPullRequest in Hr. destruct (_ <? _); [done|]. by injection Hr as <-.
Qed.

Lemma opened_was_open k p : opened config possible k p -> draft_was_open k p.
Proof.
  intros (c & around & Hv & Hk & Ha & Hp). pose proof (validated_rendered c Hv) as (_ & Hbase & Hmark).
  unfold propose_pull in Hp. apply res_bind_Ok in Hp as (head & Hh%map_err_Ok & Hp).
  destruct (bool_decide_reflect (head = Pb_BaseCommit (pc_request c))) as [->|]; [|done]. cbn [negb] in Hp.
  apply res_bind_Ok in Hp as (pr & Hf & [= <-]).
  apply find_or_create_Ok in Hf as (gh & Hans & Hd & ->). unfold is_draft_of in Hd.
  rewrite !andb_true_iff, !bool_decide_eq_true in Hd. destruct Hd as [[[[Hhead Hb] Hopen] Hdraft] Hm].
  exists c, around, gh. rewrite Hbase in Hb. rewrite Hmark in Hm. unfold pb_key in Hk. rewrite Hk in Hm.
  by split_and!.
Qed.

Lemma checked_number r p : publication_check r = true -> row_pull r = Some p -> 0 < Pull_Number p.
Proof.
  unfold publication_check, row_pull. rewrite !andb_true_iff. intros [_ Hc] Hp.
  destruct (qr_state r); try done; injection Hp as ->; cbn in Hc; rewrite !andb_true_iff in Hc; lia.
Qed.

(** The reports of the request were read, and found to match it, in surroundings that the history
    met. *)
Definition candidate_approved (request : PublicationRequest) : Prop :=
  exists around inputs, possible around /\ approved_inputs around request inputs.

Lemma validated_approved c : validated config possible c -> candidate_approved (pc_request c).
Proof.
  intros (around & Ha & He). apply Publish_entry_Ok in He as (_ & _ & _ & _ & inputs & Hin & _).
  exists around, inputs. split; [done|by apply validateArtifacts_Ok].
Qed.

(** C15: A publication that changes the workflow records a draft pull request for a candidate that
    was approved: the reports are the content of the artifacts of the request; every check passed on
    this candidate and every criterion was covered; the review passed and advises to accept; the
    approval is of exactly these artifacts.  Before that the branch went out, and an open draft of
    it was seen at GitHub, each while the base branch was the reviewed base commit; and both are
    durable in the row of the publication.  In the same way every branch and every pull request in
    the ledger went out and was seen.  The artifact store, git and GitHub say so, by the answers
    they gave to calls of this very history: [possible] is any predicate that held of the
    surroundings of every entry and every step. *)
Theorem published_candidate_sound s w cs :
  publishing_in possible (mkWorld s w cs) ->
  (forall k row, s !! k = Some row ->
     (forall b, row_branch row = Some b -> branch_went_out k b) /\
     (forall p, row_pull row = Some p -> 0 < Pull_Number p /\ draft_was_open k p)) /\
  forall x i c c' s' w', cs !! i = Some c -> pb_step x c s w = (c', s', w') -> w' <> w ->
    exists h p ref, pc_phase c = PbRecording h p /\
      w' = snd (ExecuteRun (px_climate x) (px_ctx_done x) (publication_command config (pc_request c) ref) w) /\
      candidate_approved (pc_request c) /\
      known row_pull s (PublicationID (pc_request c)) p /\ 0 < Pull_Number p /\
      Pull_Branch p = BranchPrefix config +:+ Pb_RunID (pc_request c) /\
      Pull_Commit p = Pb_CandidateCommit (pc_request c) /\
      branch_went_out (PublicationID (pc_request c)) (branch_of p) /\
      draft_was_open (PublicationID (pc_request c)) p.
Proof.
  intros Hs. destruct (publishing_ok _ _ Hs) as [Hrows Hcalls]. cbn in Hrows, Hcalls. split.
  { intros k row Hrow. destruct (Hrows k row Hrow) as [Hb Hp Hck].
    split; [intros b ?; by apply pushed_went_out, Hb|].
    intros p ?. split; [by eapply checked_number|by apply opened_was_open, Hp]. }
  intros x i c c' s' w' Hi Hstep Hne. destruct (Hcalls i c Hi) as [Hv Hp].
  unfold PbService.pb_step in Hstep.
  destruct (pc_phase c) as [|ins|h|h e|h b|h b|h|h p|h p|h p|h r|h r|r] eqn:Hph;
    try (exfalso; apply Hne; clear -Hstep; repeat case_match; by injection Hstep).
  destruct (store_publication _ _) as [ref|e] eqn:Hst; [|by exfalso; apply Hne; injection Hstep].
  destruct Hp as (_ & Hknown & Hb). pose proof Hknown as (r & Hr & Hrp).
  pose proof (validated_rendered c Hv) as (Hhead & _ & _). injection Hb as Hbr Hcc.
  destruct (Hrows _ _ Hr) as [Hrb Hrop Hck].
  exists h, p, ref. split_and!; try done.
  - by repeat case_match; simplify_eq.
  - by apply validated_approved.
  - by eapply checked_number.
  - congruence.
  - apply pushed_went_out, Hrb. destruct (known_pull_branch _ _ _ Hknown) as (r' & Hr' & Hb').
    cbn in Hr, Hr'. congruence.
  - by apply opened_was_open, Hrop.
Qed.

(** ** Interrupted publications *)

Fixpoint pb_run (n : nat) (x : pb_circumstances) (c : pb_call) (s : publications) (w : db)
    : pb_call * publications * db :=
  match n with
  | O => (c, s, w)
  | S n' => let '(c', s', w') := pb_step x c s w in pb_run n' x c' s' w'
  end.

Lemma pb_run_step c' s' w' n x c s w :
  pb_step x c s w = (c', s', w') -> pb_run (S n) x c s w = pb_run n x c' s' w'.
Proof. intros Hs. cbn [pb_run]. by rewrite Hs. Qed.

Lemma pb_run_returned n x r c s w :
  pb_run n x (pb_at (PbReturned r) c) s w = (pb_at (PbReturned r) c, s, w).
Proof. induction n as [|n IH]; [done|]. by rewrite (pb_run_step (pb_at (PbReturned r) c) s w). Qed.

Section resumption.
Context `{!PlatformLaws}.
Variables (x : pb_circumstances) (c : pb_call) (new : publication_row).
Hypothesis Hans : px_reply x = Answered.
Hypothesis Hkey : text_column (PublicationID (pc_request c)) = Ok (PublicationID (pc_request c)).
(** The row of the request can be stored. *)
Hypothesis Hnew : publication_row_of (pb_start config c) = Ok new.
Hypothesis Hcheck : publication_check new = true.

Local Abbreviation k := (PublicationID (pc_request c)).

Lemma new_row :
  qr_request_digest new = pc_digest c /\ qr_state new = PbReserved /\
  text_column (Head (pc_rendered c)) = Ok (Head (pc_rendered c)) /\
  match_hex 40 (Pb_CandidateCommit (pc_request c)) = true.
Proof.
  assert (Hn := Hnew). unfold publication_row_of in Hn.
  apply res_bind_Ok in Hn as (digest & ->%text_column_Ok & Hn).
  apply res_bind_Ok in Hn as (repository & _ & Hn). apply res_bind_Ok in Hn as (base & _ & Hn).
  apply res_bind_Ok in Hn as (head & Hhead & Hn). apply res_bind_Ok in Hn as (bc & _ & Hn).
  apply res_bind_Ok in Hn as (candidate & ->%text_column_Ok & Hn).
  apply res_bind_Ok in Hn as (evidence & _ & (revision & _ & [= Heq])%res_bind_Ok).
  pose proof Hhead as ->%text_column_Ok. assert (Hc := Hcheck). rewrite <- Heq in Hc |- *.
  unfold publication_check in Hc. rewrite !andb_true_iff in Hc. cbn in Hc. by split_and!; [..|apply Hc].
Qed.

Lemma candidate_text :
  text_column (Pb_CandidateCommit (pc_request c)) = Ok (Pb_CandidateCommit (pc_request c)).
Proof. destruct new_row as (_ & _ & _ & Hhex). by eapply text_column_hex. Qed.

Lemma step_reserves s w :
  s !! k = None -> pb_step x (pb_at PbInserting c) s w = (pb_at (PbLoading true) c, <[k := new]> s, w).
Proof.
  intros Hn. unfold PbService.pb_step. cbn [pc_phase pb_at].
  change (pb_start config (pb_at PbInserting c)) with (pb_start config c).
  rewrite Hans. unfold statement, run_tx, insert_publication, mbind, tx_bind, tx_lift. rewrite Hnew, Hcheck.
  cbn [negb]. by rewrite (insert_row_absent text_column k).
Qed.

Lemma step_finds s w row :
  s !! k = Some row -> pb_step x (pb_at PbInserting c) s w = (pb_at (PbLoading false) c, s, w).
Proof.
  intros Hr. unfold PbService.pb_step. cbn [pc_phase pb_at].
  change (pb_start config (pb_at PbInserting c)) with (pb_start config c).
  rewrite Hans. unfold statement, run_tx, insert_publication, mbind, tx_bind, tx_lift. rewrite Hnew, Hcheck.
  cbn [negb]. by rewrite (insert_row_found text_column k row).
Qed.

Lemma step_loads ins s w row :
  s !! k = Some row -> qr_request_digest row = pc_digest c ->
  pb_step x (pb_at (PbLoading ins) c) s w =
    (pb_at (PbBegun (set_owner (ins || is_pb_reserved row)
       (handle_of (pb_start config c) (qr_state row)))) c, s, w).
Proof.
  intros Hr Hd. unfold PbService.pb_step. cbn [pc_phase pb_at]. unfold pb_load_step.
  change (pb_start config (pb_at _ c)) with (pb_start config c). rewrite Hans.
  unfold query, pb_load, find_row. cbn [pb_start PStart_PublicationID PStart_RequestDigest].
  rewrite Hkey. cbn [mbind res_bind]. rewrite Hr, Hd, bool_decide_true by done. done.
Qed.

Lemma step_pushes h s w :
  pbh_branch h = None -> pbh_result h = None ->
  push_branch config (px_around x) c = Ok (branch_checkpoint c) ->
  pb_step x (pb_at (PbBegun h) c) s w = (pb_at (PbSavingBranch h (branch_checkpoint c)) c, s, w).
Proof.
  intros Hb Hr Hp. unfold PbService.pb_step. cbn [pc_phase pb_at].
  unfold pb_begun, PbHandle_Replay, PbHandle_Branch. rewrite Hr, Hb.
  change (push_branch config _ (pb_at _ c)) with (push_branch config (px_around x) c). by rewrite Hp.
Qed.

(** The branch is known: the pull request is next, or the end. *)
Definition next_phase (h : pb_handle) : pb_phase :=
  match pbh_pull h with Some p => PbRecording h p | None => PbProposing h end.

Lemma after_own_branch p h : after_branch (pb_at p c) h (branch_checkpoint c) = next_phase h.
Proof. unfold after_branch. change (branch_checkpoint (pb_at p c)) with (branch_checkpoint c). by case_bool_decide. Qed.

Lemma step_resumes h s w :
  pbh_branch h = Some (branch_checkpoint c) -> pbh_result h = None ->
  pb_step x (pb_at (PbBegun h) c) s w = (pb_at (next_phase h) c, s, w).
Proof.
  intros Hb Hr. unfold PbService.pb_step. cbn [pc_phase pb_at].
  unfold pb_begun, PbHandle_Replay, PbHandle_Branch. by rewrite Hr, Hb, after_own_branch.
Qed.

Lemma check_state row st :
  publication_check row = true -> state_check st = true -> publication_check (set_qr_state st row) = true.
Proof. unfold publication_check. cbn. by intros [-> _]%andb_true_iff ->. Qed.

Lemma step_saves_branch h s w row :
  pbh_start h = pb_start config c -> s !! k = Some row -> is_pb_reserved row = true ->
  publication_check row = true -> pbh_pull h = None ->
  pb_step x (pb_at (PbSavingBranch h (branch_checkpoint c)) c) s w =
    (pb_at (PbProposing (set_branch (branch_checkpoint c) h)) c,
     <[k := set_qr_state (BranchReady (branch_checkpoint c)) row]> s, w).
Proof.
  intros Hh Hr Hres Hck Hp. destruct new_row as (_ & _ & Hhead & Hhex). unfold PbService.pb_step.
  cbn [pc_phase pb_at]. rewrite Hans, Hh.
  unfold statement, run_tx, update_branch, mbind, tx_bind, tx_lift.
  cbn [branch_checkpoint Published_Branch Published_Commit]. rewrite Hhead, candidate_text.
  rewrite (update_row_hit text_column k _ _ _ s row); [|done..|by apply check_state].
  cbn [fst snd]. by rewrite after_own_branch; unfold next_phase; cbn [set_branch pbh_pull]; rewrite Hp.
Qed.

Lemma step_proposes h s w p :
  propose_pull config (px_around x) c = Ok p ->
  pb_step x (pb_at (PbProposing h) c) s w = (pb_at (PbSavingPull h p) c, s, w).
Proof.
  intros Hp. unfold PbService.pb_step. cbn [pc_phase pb_at].
  change (propose_pull config _ (pb_at _ c)) with (propose_pull config (px_around x) c). by rewrite Hp.
Qed.

Lemma step_saves_pull h s w row p :
  pbh_start h = pb_start config c -> s !! k = Some row ->
  qr_state row = BranchReady (branch_checkpoint c) -> branch_of p = branch_checkpoint c ->
  publication_check row = true -> 0 < Pull_Number p -> text_column (Pull_URL p) = Ok (Pull_URL p) ->
  pb_step x (pb_at (PbSavingPull h p) c) s w =
    (pb_at (PbRecording (set_pull p h) p) c, <[k := set_qr_state (PrReady p) row]> s, w).
Proof.
  intros Hh Hr Hst Hb Hck Hn Hu. destruct new_row as (_ & _ & Hhead & Hhex).
  pose proof candidate_text as Hcand. injection Hb as Hpb Hpc. rewrite <- Hpb in Hhead. rewrite <- Hpc in Hhex, Hcand.
  unfold PbService.pb_step. cbn [pc_phase pb_at]. rewrite Hans, Hh.
  unfold statement, run_tx, update_pull, mbind, tx_bind, tx_lift. rewrite Hu, Hhead, Hcand.
  rewrite (update_row_hit text_column k _ _ _ s row); [by destruct p|done..| |].
  - unfold has_branch. rewrite Hst. apply bool_decide_eq_true. unfold branch_checkpoint. congruence.
  - apply check_state; [done|]. destruct p. cbn in *. rewrite Hhex. lia.
Qed.

Lemma step_records_pull h s w w' p ref recorded :
  store_publication (px_around x) (json_text (publication_json config c p)) = Ok ref ->
  ExecuteRun (px_climate x) (px_ctx_done x) (publication_command config (pc_request c) ref) w =
    (Ok recorded, w') ->
  pb_step x (pb_at (PbRecording h p) c) s w =
    (pb_at (PbCompleting h (publication_result c p ref recorded)) c, s, w').
Proof.
  intros Hst He. unfold PbService.pb_step. cbn [pc_phase pb_at].
  change (publication_json config (pb_at _ c) p) with (publication_json config c p).
  rewrite Hst. change (pc_request (pb_at _ c)) with (pc_request c). by rewrite He.
Qed.

Definition completed_now (p : PullRequestCheckpoint) (ref : ArtifactRef) : publication_state :=
  PbCompleted p ref (time_column (UTC (px_now x))).

Lemma step_completes_publication h s w row p ref recorded :
  pbh_start h = pb_start config c -> s !! k = Some row -> qr_state row = PrReady p ->
  publication_check row = true -> text_column (URI ref) = Ok (URI ref) -> match_hex 64 (Digest ref) = true ->
  pb_step x (pb_at (PbCompleting h (publication_result c p ref recorded)) c) s w =
    (pb_at (PbReturned (Ok (publication_result c p ref recorded))) c,
     <[k := set_qr_state (completed_now p ref) row]> s, w).
Proof.
  intros Hh Hr Hst Hck Hu Hd. unfold PbService.pb_step. cbn [pc_phase pb_at]. rewrite Hans, Hh.
  unfold statement, run_tx, update_completed, mbind, tx_bind, tx_lift.
  cbn [PublicationArtifact publication_result]. rewrite Hu, (text_column_hex 64) by done.
  assert (Hf : completed_publication (mkArtifactRef (URI ref) (Digest ref)) (time_column (UTC (px_now x))) row =
    set_qr_state (completed_now p ref) row).
  { unfold completed_publication. rewrite Hst. by destruct ref. }
  rewrite (update_row_hit text_column k _ _ _ s row); [by rewrite Hf|done..| |].
  - unfold is_pr_ready. by rewrite Hst.
  - rewrite Hf. apply check_state; [done|]. unfold publication_check in Hck.
    apply andb_true_iff in Hck as [_ Hck]. rewrite Hst in Hck. cbn in *. by rewrite Hck, Hd.
Qed.

Variables (p : PullRequestCheckpoint) (ref : ArtifactRef) (recorded : CommandResult) (w w' : db).
Hypothesis Hnumber : 0 < Pull_Number p.
Hypothesis Hurl : text_column (Pull_URL p) = Ok (Pull_URL p).
Hypothesis Hstore : store_publication (px_around x) (json_text (publication_json config c p)) = Ok ref.
Hypothesis Huri : text_column (URI ref) = Ok (URI ref).
Hypothesis Hrecord :
  ExecuteRun (px_climate x) (px_ctx_done x) (publication_command config (pc_request c) ref) w =
    (Ok recorded, w').

Local Abbreviation result := (publication_result c p ref recorded).
Local Abbreviation done_with row := (set_qr_state (completed_now p ref) row).

Lemma stored_digest : match_hex 64 (Digest ref) = true.
Proof.
  assert (Hs := Hstore). unfold store_publication in Hs. apply res_bind_Ok in Hs as (r & _ & Hs).
  destruct (bool_decide_reflect (Digest r = sha256_hex (json_text (publication_json config c p)))) as [E|];
    [|by rewrite orb_true_r in Hs].
  destruct (_ || _); [done|]. injection Hs as <-. rewrite E. apply sha256_hex_shape.
Qed.

Lemma run_records h s row n :
  pbh_start h = pb_start config c -> s !! k = Some row -> qr_state row = PrReady p ->
  publication_check row = true ->
  pb_run (S (S n)) x (pb_at (PbRecording h p) c) s w =
    (pb_at (PbReturned (Ok result)) c, <[k := done_with row]> s, w').
Proof.
  intros Hh Hr Hst Hck. erewrite pb_run_step by (by apply step_records_pull).
  erewrite pb_run_step by (by eapply step_completes_publication, stored_digest).
  apply pb_run_returned.
Qed.

Lemma run_proposes h s row n :
  propose_pull config (px_around x) c = Ok p -> pbh_start h = pb_start config c -> s !! k = Some row ->
  qr_state row = BranchReady (branch_checkpoint c) -> publication_check row = true ->
  pb_run (S (S (S (S n)))) x (pb_at (PbProposing h) c) s w =
    (pb_at (PbReturned (Ok result)) c, <[k := done_with row]> s, w').
Proof.
  intros Hpull Hh Hr Hst Hck. pose proof (proposed_branch _ _ _ _ Hpull) as Hb.
  erewrite pb_run_step by (by apply step_proposes).
  erewrite pb_run_step by (by eapply step_saves_pull).
  rewrite (run_records _ _ (set_qr_state (PrReady p) row)); [|done|by rewrite lookup_insert_eq|done|].
  - by rewrite insert_insert_eq.
  - apply check_state; [done|]. destruct new_row as (_ & _ & _ & Hhex). destruct p. cbn in *.
    injection Hb as _ ->. rewrite Hhex. lia.
Qed.

(** What is left to do from the checkpoint of a row: the branch goes out to a
    base that has not moved, and a draft is found or opened; both only when no
    earlier attempt got as far. *)
Definition can_go_on (state : publication_state) : Prop :=
  match state with
  | PbReserved =>
      push_branch config (px_around x) c = Ok (branch_checkpoint c) /\
      propose_pull config (px_around x) c = Ok p
  | BranchReady b => b = branch_checkpoint c /\ propose_pull config (px_around x) c = Ok p
  | PrReady q => q = p /\ branch_of p = branch_checkpoint c
  | PbCompleted _ _ _ => False
  end.

(** How far an earlier attempt of the publication came: not even to a row, or
    to any of the checkpoints that this call would make itself. *)
Definition interrupted_at (s : publications) (row : publication_row) : Prop :=
  (s !! k = None /\ row = new \/
   s !! k = Some row /\ qr_request_digest row = pc_digest c /\ publication_check row = true) /\
  can_go_on (qr_state row).

Lemma run_begins s row n owner :
  s !! k = Some row -> publication_check row = true -> can_go_on (qr_state row) ->
  pb_run (6 + n) x (pb_at (PbBegun (set_owner owner (handle_of (pb_start config c) (qr_state row)))) c) s w =
    (pb_at (PbReturned (Ok result)) c, <[k := done_with row]> s, w').
Proof.
  intros Hr Hck Hst. change (6 + n)%nat with (S (S (S (S (S (S n)))))).
  unfold can_go_on in Hst. destruct (qr_state row) as [|b|q|] eqn:E; [destruct Hst as [Hpush Hpull]|..|done].
  - erewrite pb_run_step by (by apply step_pushes).
    erewrite pb_run_step by (apply (step_saves_branch _ _ _ row); try done; unfold is_pb_reserved; by rewrite E).
    rewrite (run_proposes _ _ (set_qr_state (BranchReady (branch_checkpoint c)) row));
      [by rewrite insert_insert_eq|done|done|by rewrite lookup_insert_eq|done|].
    apply check_state; [done|]. destruct new_row as (_ & _ & _ & Hhex). exact Hhex.
  - destruct Hst as [-> Hpull].
    erewrite pb_run_step by (by apply step_resumes). cbn [next_phase pbh_pull set_owner handle_of].
    by apply (run_proposes _ s row (S n)).
  - destruct Hst as [-> Hb].
    cbn [handle_of]. rewrite Hb. erewrite pb_run_step by (by apply step_resumes).
    cbn [next_phase pbh_pull set_owner]. by apply (run_records _ s row (S (S (S n)))).
Qed.

Lemma run_resumes s row :
  interrupted_at s row ->
  pb_run 8 x (pb_at PbInserting c) s w =
    (pb_at (PbReturned (Ok result)) c, <[k := done_with row]> s, w').
Proof.
  intros [[[Hn ->]|(Hr & Hd & Hck)] Hgo].
  - destruct new_row as (Hd & Hres & _ & _). erewrite pb_run_step by (by apply step_reserves).
    erewrite pb_run_step by (by eapply step_loads; [apply lookup_insert_eq|]).
    rewrite (run_begins _ new 0 _ (lookup_insert_eq _ _ _) Hcheck Hgo). by rewrite insert_insert_eq.
  - erewrite pb_run_step by (by eapply step_finds). erewrite pb_run_step by (by eapply step_loads).
    exact (run_begins s row 0 _ Hr Hck Hgo).
Qed.

End resumption.

(** The state of the workflow in which a publication can be recorded: its
    command was carried out before, or it is new and the run is ready to merge
    with the candidate and the approval of the request, at its revision and
    without a publication ([recordable]). *)
Definition workflow_ready `{!PlatformLaws} (request : PublicationRequest) (ref : ArtifactRef) (w : db) : Prop :=
  (exists digest r0, validateRunCommand (publication_command config request ref) = Ok tt /\
     commandDigest (publication_command config request ref) = Ok digest /\
     WfReplay.answered (PublicationID request) digest w r0) \/
  exists cur nxt, recordable (publication_meta config request) (Pb_RunID request) (Pb_CandidateCommit request) (Pb_Approval request) ref w cur nxt.

Lemma workflow_takes `{!PlatformLaws} request ref w cd :
  workflow_ready request ref w ->
  exists recorded w', ExecuteRun (fun _ => Clear) cd (publication_command config request ref) w = (Ok recorded, w') /\
    (w' = w /\ Replay recorded = true \/
     Replay recorded = false /\ exists run, GetRun (Pb_RunID request) w' = Ok run /\ Publication run = Some ref).
Proof.
  intros [(digest & r0 & Hv & Hd & Ha)|(cur & nxt & Hrec)].
  - exists (set_Replay true r0), w. split; [|by left; destruct r0].
    exact (execute_answered cd (inl _) w digest _ r0 Hv Hd eq_refl Ha).
  - destruct (recording_executes _ _ _ _ _ _ _ _ Hrec cd) as (r & w' & Hx & Hrep & Hg).
    exists r, w'. split; [exact Hx|]. right. split; [done|]. eexists. split; [exact Hg|].
    by rewrite (rec_next _ _ _ _ _ _ _ _ Hrec).
Qed.

(** C33: An interrupted publication resumes.  Whatever checkpoint an earlier attempt left, no row, a
    reservation, a branch or a pull request, a new call for the same request goes on from there: it
    returns, in at most eight steps that no other call disturbs, with the pull request of the
    checkpoint or the one it makes; the row is completed with that pull request and the stored
    artifact, no other row changes, and the workflow either had carried the command out before and
    is left as it was, or has now a run whose publication is that artifact.  This holds when the
    answers of the database arrive; when what the earlier attempt did not get to succeeds: the base
    branch has not moved and the branch goes out, a draft is found or opened ([can_go_on]); when the
    artifact is stored; when the row and what is written to it fit the columns; and when the
    workflow, which meets no fault, is in a state to take the command ([workflow_ready]): it was
    carried out before, or it is new and the run is ready to merge with the candidate and the
    approval of the request, at its revision and without a publication. *)
Theorem publication_resumes `{!PlatformLaws} x c new p ref w s row :
  px_reply x = Answered -> px_climate x = (fun _ => Clear) ->
  text_column (PublicationID (pc_request c)) = Ok (PublicationID (pc_request c)) ->
  publication_row_of (pb_start config c) = Ok new -> publication_check new = true ->
  interrupted_at x c new p s row ->
  0 < Pull_Number p -> text_column (Pull_URL p) = Ok (Pull_URL p) ->
  store_publication (px_around x) (json_text (publication_json config c p)) = Ok ref ->
  text_column (URI ref) = Ok (URI ref) ->
  workflow_ready (pc_request c) ref w ->
  exists recorded w',
    pb_run 8 x (pb_at PbInserting c) s w =
      (pb_at (PbReturned (Ok (publication_result c p ref recorded))) c,
       <[PublicationID (pc_request c) := set_qr_state (completed_now x p ref) row]> s, w') /\
    (w' = w /\ Replay recorded = true \/
     Replay recorded = false /\ exists run, GetRun (Pb_RunID (pc_request c)) w' = Ok run /\ Publication run = Some ref).
Proof.
  intros Hans Hclear Hkey Hnew Hck Hint Hn Hu Hst Huri Hw.
  destruct (workflow_takes _ _ _ (px_ctx_done x) Hw) as (recorded & w' & Hx & Hcase).
  exists recorded, w'. split; [|done]. rewrite <- Hclear in Hx. by eapply run_resumes.
Qed.

End guarantees.

(** * Concrete publications

    A run that was approved, calls that publish its candidate, one that takes
    over a publication that was interrupted, and three calls that confuse the
    row of a publication; and the theorems of the publication service applied
    to them. *)

(** ** A candidate to publish *)

Definition pb_base : string := commit_of "c".

Definition approved_completion : list RunCommand :=
  [ RecordRunExecution (meta "r7" ActorExecutionService 6 7) "run-1" (artifact_of "execution") hex40;
    RecordRunVerification (meta "r8" ActorVerificationService 7 8) "run-1" hex40
      (artifact_of "verification");
    RecordRunReview (meta "r9" ActorReviewService 8 9) "run-1" hex40 (artifact_of "review");
    ApproveRun (meta "r10" ActorHuman 9 10) "run-1" hex40 (artifact_of "review")
      (artifact_of "approval") ].

Definition approved_db : db :=
  execute_all (executing_commands ++ map inr sample_history ++ map inl approved_completion) empty_db.

Example approved_state : run_states approved_db = [("run-1", RunStateMergeReady)].
Proof. vm_compute. reflexivity. Qed.

Definition pb_execution : ExecutionReport :=
  mkExecutionReport "1" "execution-1" "2024-01-01T00:00:00Z" "run-1" "task-1" 1
    (artifact_of "proposal") (sample_lease 1) pb_base hex40 "refs/harness/1" DefaultLimits [].

Definition pb_verification : VerificationReport :=
  mkVerificationReport "1" "verification-1" "2024-01-01T00:00:00Z" "run-1" "task-1" 1
    (artifact_of "execution") pb_base hex40 "image-1"
    [mkCheckResult "CHECK-1" "make-check-v1" ["make"] "image-1" hex40 "" "" 0 false
       (artifact_of "output") (Digest (artifact_of "output")) 1 1 1 1 true]
    [mkCoverage "AC-001" ["CHECK-1"] true true] true.

Definition pb_review : ReviewReport :=
  mkReviewReport "1" "review-1" "2024-01-01T00:00:00Z" "run-1" "task-1" 1 hex40
    (Digest (artifact_of "specification of a change")) hex64 (Digest (artifact_of "proposal"))
    (artifact_of "request") (artifact_of "review proposal") (artifact_of "execution")
    (artifact_of "verification") [] [] "REVIEW_RECOMMENDATION_ADVISORY_ACCEPT" [] [] [] true.

Definition pb_approval : TaskApproval :=
  mkTaskApproval "1" "approval-1" (mkPrincipal "human-1" ["approver"]) "approve" "2024-01-01T00:00:00Z"
    "" false [] "run-1" "task-1" hex40 (Digest (artifact_of "specification of a change")) hex64
    (artifact_of "proposal") (artifact_of "execution") (artifact_of "verification") (artifact_of "review").

Definition pb_config : PublicationConfig :=
  mkPublicationConfig "/repository" "owner" "repository" "origin" "main" "harness/" "publisher-1"
    DefaultMaxArtifactBytes DefaultMaxBodyBytes Pb_DefaultTimeout.

Example pb_config_normal : normalizeConfig pb_config = Ok pb_config.
Proof. vm_compute. reflexivity. Qed.

Definition sample_publication (at_second : Z) : PublicationRequest :=
  mkPublicationRequest "publication-1" (at_time at_second) "run-1" pb_base hex40
    (artifact_of "specification of a change") (artifact_of "proposal") (artifact_of "execution")
    (artifact_of "verification") (artifact_of "review") (artifact_of "approval") 10.

(** ** What the calls meet *)

Definition stored_bodies : list string :=
  ["specification of a change"; "proposal"; "execution"; "verification"; "review"; "approval"].

Definition pb_get (ref : ArtifactRef) (limit : Z) : res string :=
  match filter (fun body => sha256_hex body = Digest ref) stored_bodies with
  | body :: _ => Ok body
  | [] => Err (ErrNew "not found")
  end.

Definition only {T} (text : string) (value : T) (body : string) : option (T * string) :=
  if body == text then Some (value, "") else None.

(** The remote has the base branch only; [base] is its head. *)
Definition pb_git (base : string) (_ : nat) (arguments : list string) : res string :=
  match arguments with
  | ["ls-remote"; _; _; ref] => Ok (if ref == "refs/heads/main" then base +:+ " " +:+ ref else "")
  | _ => Ok ""
  end.

Definition opened (body : string) : githubPullRequest :=
  mkGithub 7 "https://github.com/owner/repository/pull/7" "open" true body "harness/run-1" hex40 "main" pb_base.

Definition pb_post (_ : string) (payload : json) : res githubPullRequest :=
  match payload with
  | JObj fields =>
      match json_field "body" fields with Some (JStr body) => Ok (opened body) | _ => Err (ErrNew "422") end
  | _ => Err (ErrNew "400")
  end.

Definition pb_world (base : string) : pb_surroundings :=
  mkPbSurroundings pb_get (fun body => Ok (artifact_of body)) (only "execution" pb_execution)
    (only "verification" pb_verification) (only "review" pb_review) (only "approval" pb_approval)
    (fun _ => None) (fun rest => rest == "") (pb_git base) None (fun _ _ _ => Ok []) pb_post
    (fun _ => Err (ErrNew "404")) (fun _ _ => Err (ErrNew "404")).

Definition pb_meeting (base : string) (r : reply) : pb_circumstances :=
  mkPbCircumstances (pb_world base) r (at_time 60) (fun _ => Clear) (fun _ => None).

Definition publication_call (at_second : Z) : pb_call :=
  match Publish_entry pb_config (pb_world pb_base) (sample_publication at_second) with
  | Ok c => c
  | Err _ => mkPbCall (sample_publication at_second) (mkDraftInput "" "" "" "" "" "" "") "" PbInserting
  end.

Lemma publication_call_entry n :
  n = 11 \/ n = 12 ->
  Publish_entry pb_config (pb_world pb_base) (sample_publication n) = Ok (publication_call n).
Proof. intros [-> | ->]; vm_compute; reflexivity. Qed.

(** A call comes in at the time, or the call [i] makes a step. *)
Inductive pb_move :=
| Comes (late : bool)
| Goes (i : nat)
| Drifts (i : nat).

Definition pb_play (m : pb_move) : action :=
  match m with
  | Comes late => Enter (publication_call (if late then 12 else 11))
  | Goes i => Step i (pb_meeting pb_base Answered)
  | Drifts i => Step i (pb_meeting (commit_of "e") Answered)
  end.

(** The calls meet a world where the base branch stands, or one where it moved. *)
Definition pb_met (around : pb_surroundings) : Prop :=
  around = pb_world pb_base \/ around = pb_world (commit_of "e").

Lemma pb_plays_admissible l :
  Forall (admissible (pb_enters_in pb_config pb_met) (pb_fair_in pb_met)) (map pb_play l).
Proof.
  apply Forall_map, Forall_true.
  intros [late|i|i]; [|split; [intros n o e Hx; discriminate Hx|by (left + right)]..].
  eexists _, _. split; [by left|]. apply publication_call_entry. destruct late; auto.
Qed.

Lemma pb_enters_anything c : pb_enters_in pb_config pb_met c -> pb_enters pb_config c.
Proof. intros (around & request & _ & Hc). by exists around, request. Qed.

Local Abbreviation step := (pb_step pb_config).
Local Abbreviation world_steps := (rtc (world_step step (pb_enters pb_config) pb_fair)).

Definition pb_script (l : list pb_move) (sys : world publications pb_call) : world publications pb_call :=
  drive step (map pb_play l) sys.

Definition unpublished : world publications pb_call := mkWorld ∅ approved_db [].

Lemma pb_script_steps l sys : world_steps sys (pb_script l sys).
Proof.
  apply drive_steps. eapply Forall_impl; [apply pb_plays_admissible|].
  intros [c|i x]; [apply pb_enters_anything|by intros [Hx _]].
Qed.

Lemma pb_script_publishing_in l : publishing_in pb_config pb_met (pb_script l unpublished).
Proof. apply drive_started; [apply execute_all_reachable, reachable_empty|apply pb_plays_admissible]. Qed.

Lemma pb_script_publishing l : publishing pb_config (pb_script l unpublished).
Proof. eapply started_mono, pb_script_publishing_in; [apply pb_enters_anything|by intros x [Hx _]]. Qed.

Definition pb_call_at (i : nat) (sys : world publications pb_call) : pb_call :=
  nth i (calls sys) (publication_call 11).

Definition no_publication : PublicationResult := mkPublicationResult "" "" "" 0 "" (mkArtifactRef "" "") false.

Definition publication_returned (c : pb_call) : PublicationResult :=
  match pc_phase c with PbReturned (Ok r) => r | _ => no_publication end.

Definition goes (i n : nat) : list pb_move := replicate n (Goes i).

(** ** Histories *)

(** The first call publishes, the second one finds its result. *)
Definition once_published : world publications pb_call := pb_script (Comes false :: goes 0 8) unpublished.
Definition twice_published : world publications pb_call := pb_script (Comes false :: goes 1 3) once_published.

Example publication_results :
  map (fun i => (PullRequestNumber (publication_returned (pb_call_at i twice_published)),
                 PResult_Replay (publication_returned (pb_call_at i twice_published)))) [0%nat; 1%nat] =
  [(7, false); (7, true)].
Proof. vm_compute. reflexivity. Qed.

(** ** The theorems *)

Lemma publication_decided_once_witness :
  published (publication_returned (pb_call_at 1 twice_published)) =
  published (publication_returned (pb_call_at 0 once_published)).
Proof.
  apply (publication_decided_once pb_config once_published twice_published 0 1
           (pb_call_at 0 once_published) (pb_call_at 1 twice_published)).
  - exact (pb_script_publishing (Comes false :: goes 0 8)).
  - exact (pb_script_steps (Comes false :: goes 1 3) once_published).
  - vm_compute. reflexivity.
  - vm_compute. reflexivity.
  - vm_compute. reflexivity.
  - vm_compute. reflexivity.
  - vm_compute. reflexivity.
Defined.

(** The call stands before the command of the workflow. *)
Definition to_record : world publications pb_call := pb_script (Comes false :: goes 0 6) unpublished.

Lemma to_record_parts :
  publishing_in pb_config pb_met (mkWorld (shared to_record) (store to_record) (calls to_record)).
Proof. apply started_parts, (pb_script_publishing_in (Comes false :: goes 0 6)). Qed.

Definition recorded_now : pb_call * publications * db :=
  step (pb_meeting pb_base Answered) (pb_call_at 0 to_record) (shared to_record) (store to_record).

Lemma published_candidate_sound_witness :
  (exists row p, shared to_record !! "publication-1" = Some row /\ row_pull row = Some p /\
     0 < Pull_Number p /\ draft_was_open pb_config pb_met "publication-1" p) /\
  exists h p ref, pc_phase (pb_call_at 0 to_record) = PbRecording h p /\
    snd recorded_now = snd (ExecuteRun (fun _ => Clear) (fun _ => None)
      (publication_command pb_config (pc_request (pb_call_at 0 to_record)) ref) (store to_record)) /\
    candidate_approved pb_config pb_met (pc_request (pb_call_at 0 to_record)) /\
    known row_pull (shared to_record) "publication-1" p /\ 0 < Pull_Number p /\
    Pull_Branch p = "harness/run-1" /\ Pull_Commit p = hex40 /\
    branch_went_out pb_config pb_met "publication-1" (branch_of p) /\
    draft_was_open pb_config pb_met "publication-1" p.
Proof.
  destruct (published_candidate_sound pb_config pb_met (shared to_record) (store to_record)
    (calls to_record) to_record_parts) as [Hrows Hsteps]. split.
  - edestruct (Hrows "publication-1") as [_ Hp]; [vm_compute; reflexivity|].
    eexists _, _. split; [vm_compute; reflexivity|]. split; [reflexivity|]. apply Hp. reflexivity.
  - apply (Hsteps (pb_meeting pb_base Answered) 0%nat (pb_call_at 0 to_record)
      (fst (fst recorded_now)) (snd (fst recorded_now)) (snd recorded_now)).
    + vm_compute. reflexivity.
    + unfold recorded_now. by destruct (step _ _ _ _) as [[? ?] ?].
    + intros E. apply (f_equal (fun s => length (events s))) in E. vm_compute in E. discriminate E.
Defined.

(** The first call died when the branch was in the row. *)
Definition branch_left : world publications pb_call := pb_script (Comes false :: goes 0 4) unpublished.

Definition row_of (s : publications) : publication_row :=
  match s !! "publication-1" with
  | Some row => row
  | None => mkPublicationRow "" 0 "" "" "" "" "" [] 0 PbReserved
  end.

Definition new_publication : publication_row :=
  result (row_of ∅) (publication_row_of (pb_start pb_config (publication_call 11))).

Definition pull_7 : PullRequestCheckpoint :=
  mkPullCheckpoint "harness/run-1" hex40 7 "https://github.com/owner/repository/pull/7".

Definition publication_ref : ArtifactRef :=
  artifact_of (json_text (publication_json pb_config (publication_call 11) pull_7)).

Definition approved_run : Run := result zero_run (GetRun "run-1" approved_db).
Definition published_run : Run :=
  set_Run_UpdatedAt (UTC (at_time 11)) (set_Run_Revision 11 (set_Publication (Some publication_ref) approved_run)).

(** The workflow waits for the command of the call that died. *)
Lemma publication_recordable :
  recordable (publication_meta pb_config (sample_publication 11)) "run-1" hex40 (artifact_of "approval")
    publication_ref approved_db approved_run published_run.
Proof.
  split.
  2-4, 7-14, 16, 18: vm_compute; reflexivity.
  - apply execute_all_reachable, reachable_empty.
  - intros id Hin. repeat (apply elem_of_cons in Hin as [->|Hin]; [vm_compute; eexists; reflexivity|]).
    by apply elem_of_nil in Hin.
  - exists "publication-1". split; [vm_compute; reflexivity|]. split; [vm_compute; reflexivity|].
    assert (Hall : forallb (fun e => er_event_id e != "publication-1") (events approved_db) = true)
      by (vm_compute; reflexivity).
    rewrite forallb_forall in Hall. intros e He%list_elem_of_In%Hall. by apply negb_true_iff, bool_decide_eq_false in He.
  - intros t Hin. repeat (apply elem_of_cons in Hin as [->|Hin]; [vm_compute; reflexivity|]).
    by apply elem_of_nil in Hin.
  - eexists. split; vm_compute; reflexivity.
Qed.

Lemma publication_resumes_witness :
  exists recorded w',
    pb_run pb_config 8 (pb_meeting pb_base Answered) (pb_at PbInserting (publication_call 11))
      (shared branch_left) approved_db =
    (pb_at (PbReturned (Ok (publication_result (publication_call 11) pull_7 publication_ref recorded)))
       (publication_call 11),
     <[ "publication-1" := set_qr_state (completed_now (pb_meeting pb_base Answered) pull_7 publication_ref)
                             (row_of (shared branch_left)) ]> (shared branch_left),
     w') /\
    (w' = approved_db /\ Replay recorded = true \/
     Replay recorded = false /\ exists run, GetRun "run-1" w' = Ok run /\ Publication run = Some publication_ref).
Proof.
  apply (publication_resumes pb_config (pb_meeting pb_base Answered) (publication_call 11) new_publication pull_7
    publication_ref approved_db (shared branch_left) (row_of (shared branch_left))).
  1-5: vm_compute; reflexivity.
  2-5: vm_compute; reflexivity.
  - split; [right; split; [|split]; vm_compute; reflexivity|]. vm_compute. split; reflexivity.
  - right. exists approved_run, published_run. exact publication_recordable.
Defined.

(** ** A row that changes hands

    The reservation of a publication belongs to no call: any call for the same
    request adopts the reserved row and may roll it back, and the checkpoints
    do not look at the digest of the row.  Two calls publish [sample_publication
    11]: the first one has pushed its branch when the second one finds the base
    moved and deletes the row; a call for other content, the same publication
    at another time, reserves it anew.  The first call then writes its branch,
    its pull request and its artifact into the row of the other content. *)
Definition confused : world publications pb_call :=
  pb_script (Comes false :: goes 0 3 ++ Comes false :: goes 1 2 ++ [Drifts 1; Goes 1] ++
             Comes true :: [Goes 2] ++ goes 0 5 ++ goes 2 2) unpublished.

(** The call for the other content returns the result of the first one, where
    it would have been refused had the first call kept its row. *)
Theorem row_changes_hands :
  let first := pb_call_at 0 confused in let other := pb_call_at 2 confused in
  pc_digest first <> pc_digest other /\
  pc_phase (pb_call_at 1 confused) = PbReturned (Err ErrBaseDrift) /\
  qr_request_digest (row_of (shared confused)) = pc_digest other /\
  publication_returned other = replayed (publication_returned first) /\
  PublicationArtifact (publication_returned other) = publication_ref.
Proof. vm_compute. split_and!; [discriminate|reflexivity..]. Qed.

(** A title that is too long is cut to one byte less than the limit and gets an
    ellipsis of three bytes. *)
Definition long_title : string := String.string_of_list_ascii (replicate 241 "t"%char).

Theorem bounded_line_exceeds : String.length (boundedLine long_title 240) = 242%nat.
Proof. vm_compute. reflexivity. Qed.
