(* ===== verification/CaSupport.v ===== *)
(** * The support bundle: what it shows of the reasoning

    Models [go/internal/controlapi/support.go]: the projection of the rows of
    the gateway's ledger that a support bundle may show, without prompts,
    answers, locations or free text. *)

From S2P Require Import Prelude GoStd GoJson GoText WfTypes WfDb WfStore CtMessages CtCommon GwLedger PbRequest.

Record RejectionDiagnostic := mkRejectionDiagnostic {
  Diagnostic_Code : Z;
  Diagnostic_Category : string;
  Diagnostic_Fields : list string;
  Diagnostic_Retryable : bool;
}.

Record ReasoningDiagnostic := mkReasoningDiagnostic {
  Diagnostic_Stage : string;
  Diagnostic_Attempt : Z;
  Diagnostic_Provider : option string;
  Diagnostic_Model : option string;
  Diagnostic_FinalStatus : option string;
  Diagnostic_InputTokens : Z;
  Diagnostic_OutputTokens : Z;
  Diagnostic_ProviderRequests : Z;
  Diagnostic_Rejection : option RejectionDiagnostic;
}.

Definition maximumSupportDiagnostics : nat := 1000.

(** [^[A-Za-z0-9_.\[\]-]{1,128}$] *)
Definition safeDiagnosticField : string -> bool :=
  let safe := Class (fun c => is_alnum c || bool_decide (c ∈ ["_"; "."; "["; "]"; "-"]%char)) in
  matches (Cat safe (up_to 127 safe)).

Definition rejectionCategory (code : Z) : string :=
  if code =? 1 then "schema_invalid"
  else if code =? 2 then "policy_denied"
  else if code =? 3 then "stale_context"
  else if code =? 4 then "verification_failed"
  else if code =? 5 then "review_failed"
  else "unknown".

(** The only field that is decoded of a detail. *)
Definition decode_field (v : json) : res string :=
  match v with
  | JObj fields => decode_string (json_field "field" fields)
  | JNull => Ok ""
  | _ => Err json_error
  end.

Definition slices_Compact (l : list string) : list string :=
  match l with
  | [] => []
  | a :: rest => a :: omap (fun '(b, c) => if b == c then None else Some c) (zip l rest)
  end.

(** [None] for the null column. *)
Definition rejectionFields (body : option json) : res (list string) :=
  match body with
  | None => Ok []
  | Some details =>
      fields ← map_err (fun _ => ErrText "stored rejection details are invalid")
        (match details with
         | JNull => Ok []
         | JArr l => map_each decode_field l
         | _ => Err json_error
         end);
      if (32 <? length fields)%nat then Err (ErrText "stored rejection details exceed limit")
      else Ok (slices_Compact (merge_sort String.le (List.filter safeDiagnosticField fields)))
  end.

Definition storedRejectionDiagnostic (code : option Z) (details : option json) (retryable : option bool)
    : res (option RejectionDiagnostic) :=
  match code, retryable with
  | None, None => Ok None
  | Some code, Some retryable =>
      fields ← rejectionFields details;
      Ok (Some (mkRejectionDiagnostic code (rejectionCategory code) fields retryable))
  | _, _ => Err (ErrText "stored rejection state is incomplete")
  end.

(** ** The rows of a run *)

Definition diagnostic_of_row (r : invocation_row) : res ReasoningDiagnostic :=
  match vr_state r with
  | InProgress =>
      Ok (mkReasoningDiagnostic (vr_stage r) (vr_attempt r) None None None 0 0 0 None)
  | InvocationCompleted c =>
      let rejection := cc_rejection c in
      rejection ← storedRejectionDiagnostic (jr_code <$> rejection) (jr_details <$> rejection)
        (jr_retryable <$> rejection);
      Ok (mkReasoningDiagnostic (vr_stage r) (vr_attempt r) (Some (cc_provider c)) (Some (cc_model c))
        (Some (FinalStatus_string (cc_status c))) (InputTokens (cc_usage c)) (OutputTokens (cc_usage c))
        (ProviderRequests (cc_usage c)) rejection)
  end.

(** [ORDER BY started_at, request_id] *)
Definition started_before (a b : string * invocation_row) : Prop :=
  vr_started (snd a) < vr_started (snd b) \/
  (vr_started (snd a) = vr_started (snd b) /\ String.le (fst a) (fst b)).

#[global] Instance started_before_dec : RelDecision started_before.
Proof. intros a b. unfold started_before. apply _. Defined.

Definition ReasoningDiagnostics (runID : string) (s : invocations) : res (list ReasoningDiagnostic) :=
  run ← text_column runID;
  let rows := merge_sort started_before
    (List.filter (fun '(_, r) => vr_run r == run) (map_to_list s)) in
  result ← map_each (fun '(_, r) => diagnostic_of_row r) (take (S maximumSupportDiagnostics) rows);
  if (maximumSupportDiagnostics <? length result)%nat
  then Err (ErrText "support diagnostics exceed row limit") else Ok result.

(** ** What a diagnostic shows *)

Lemma compact_incl l x : x ∈ slices_Compact l -> x ∈ l.
Proof.
  destruct l as [|a l]; [done|]. cbn [slices_Compact]. intros [->|(p & Hp & Hx)%list_elem_of_omap]%elem_of_cons; [by left|].
  destruct p as [b c]. case_bool_decide; [done|]. injection Hx as ->.
  right. by apply elem_of_zip_r in Hp.
Qed.

(** A diagnostic names at most 32 fields, each of the safe alphabet: no free
    text of a rejection gets through. *)
Lemma rejection_fields_safe body fields :
  rejectionFields body = Ok fields -> Forall (fun field => safeDiagnosticField field = true) fields.
Proof.
  destruct body as [details|]; [|intros [= <-]; constructor]. unfold rejectionFields.
  intros (decoded & _ & Hr)%res_bind_Ok. destruct (32 <? length decoded)%nat; [discriminate|]. injection Hr as <-.
  apply Forall_forall. intros field Hf%compact_incl.
  rewrite merge_sort_Permutation in Hf. apply list_elem_of_In, filter_In in Hf. apply Hf.
Qed.

(** The categories are not those of the contracts, but for the first. *)
Example categories_misnamed :
  map rejectionCategory [REJECTION_CODE_REQUEST_MISMATCH; REJECTION_CODE_AUTHORITY_VIOLATION;
    REJECTION_CODE_SCOPE_VIOLATION; REJECTION_CODE_REQUIRED_COVERAGE_MISSING] =
  ["policy_denied"; "stale_context"; "verification_failed"; "review_failed"].
Proof. reflexivity. Qed.
