(* ===== verification/CaServer.v ===== *)
(** * The control API

    Models [go/internal/controlapi/server.go]: configuration, authentication,
    routing, the guards of every route and what each one asks of the services
    behind the API.  A handler is a program that calls the services ([prog] of
    [Programs]).  The artifact store, the decoders and the context of the
    request are what surrounds a request.  The goroutine that renews a reservation
    runs beside the program, at times that are part of what surrounds the
    request; that it cancels the context when a renewal fails shows in the
    answers of the services, which are arbitrary.  The log is left out. *)

From S2P Require Import Prelude GoStd GoJson GoText PgRetry Programs WfTypes WfTask WfPlan WfRun WfDigest WfDb WfStore.
From S2P Require Import RtLedger RtReconciler CtMessages CtCommon ExRequest BetaPolicy RtBuilder RtBindings.
From S2P Require Import Approval PbRequest CaIntake CaSupport.

(** ** The services behind the API *)

(** A call of a method of one of the interfaces, with the type of its answer. *)
Inductive service : Type -> Type :=
| CallReady : service (res unit)
| CallExecuteRun (command : RunCommand) : service (res CommandResult)
| CallExecuteTask (command : TaskCommand) : service (res CommandResult)
| CallGetRun (run : string) : service (res Run)
| CallGetTask (run task : string) : service (res Task)
| CallListTasks (run : string) : service (res (list Task))
| CallListEvents (run : string) : service (res (list ListedEvent))
| CallListPendingApprovals : service (res (list PendingApproval))
| CallBeginIdempotency (request : IdempotencyRequest) : service (res IdempotencyResult)
| CallCompleteIdempotency (key : string) (fence status : Z) (response : json) : service (res unit)
| CallAbandonIdempotency (key : string) (fence : Z) : service (res unit)
| CallRenewIdempotency (key : string) (fence ttl : Z) : service (res unit)
| CallEnqueue (job : Job) : service (res unit)
| CallCancelRunJobs (run : string) (at_ : time) : service (res unit)
| CallRunStages (run : string) : service (res (list StageStatus))
| CallGetRunBinding (run : string) : service (res RunBinding)
| CallGetTaskBinding (run task : string) : service (res TaskBinding)
| CallCheckpointSpecification (run : string) (ref : ArtifactRef) : service (res unit)
| CallCheckpointApproval (run : string) (ref : ArtifactRef) : service (res unit)
| CallAccept (request : RunIntakeRequest) : service (res IdempotencyResult)
| CallApproveTaskGraph (request : TaskGraphApprovalRequest) : service (res CommandResult)
| CallApproveTask (request : ApprovalRequest) : service (res ApprovalResult)
| CallPublish (request : PublicationRequest) : service (res PublicationResult)
| CallReasoningDiagnostics (run : string) : service (res (list ReasoningDiagnostic)).

(** ** Data *)

Definition DefaultMaxBodyBytes : Z := 2 ^ 20.
Definition DefaultTaskMaxAttempts : Z := 2.
Definition defaultReservationTTL : Z := 30 * Second.
Definition intakeReservationTTL : Z := 45 * Second.
Definition MaximumDetachedOperationTimeout : Z := 2 * Minute.

Definition RoleOperator : string := "operator".

Record ApiPrincipal := mkApiPrincipal {
  Api_ID : string;
  TokenSHA256 : string;
  Api_Roles : list string;
}.

Record ServerConfig := mkServerConfig {
  Principals : list ApiPrincipal;
  ServiceActorID : string;
  MaxBodyBytes : Z;
  Config_TrustedChecks : list string;
  Config_Policy : Policy;
  Has_Ready : bool;
  TaskMaxAttempts : Z;
}.

(** The token digest of a principal, as lower case hexadecimal text. *)
Record principalDigest := mkPrincipalDigest {
  Digest_Principal : ApiPrincipal;
  Token_Digest : string;
}.

Record Server := mkServer {
  Server_Config : ServerConfig;
  Server_Principals : list principalDigest;
  Server_Checks : gset string;
  Has_Publication : bool;
}.

Record mutationBody := mkMutationBody {
  Body_RunID : string;
  Body_BaseCommit : string;
  Body_Content : string;
  Body_Request : string;
  Body_Proposal : string;
  Body_Reason : string;
  Body_Terminal : bool;
  DecisionTime : time;
}.

(** What the handlers read of a request; a header that is absent is empty, and
    the body is what reading at most one byte over the limit gives. *)
Record http_request := mkHttpRequest {
  Rq_Method : string;
  Rq_Path : string;
  Rq_RequestURI : string;
  Rq_Status : string;            (* the query parameter *)
  Authorization : string;
  IdempotencyKey : string;
  IfMatch : string;
  Rq_Body : res string;
}.

(** What surrounds a request. *)
Record request_surroundings := mkRequestSurroundings {
  rs_put : string -> res ArtifactRef;
  rs_get : ArtifactRef -> res string;
  rs_decode_body : string -> res (mutationBody * string);
  rs_at_EOF : string -> bool;
  rs_specification_request : string -> res pb_SpecificationRequest;
  rs_specification_proposal : string -> res pb_SpecificationProposal;
  rs_planning_request : string -> res pb_TaskPlanningRequest;
  rs_graph_proposal : string -> res pb_TaskGraphProposal;
  rs_execution_report : string -> res ExecutionReport;
  rs_ticks : nat -> nat;   (* how often the ticker of the renewal fires before each call *)
}.

(** What is written: JSON, or a view of the workflow before it is encoded. *)
Inductive response_body :=
| BodyJson (v : json)
| BodyRun (run : Run) (tasks : list Task) (stages : list StageStatus)
| BodyEvents (events : list ListedEvent)
| BodyApprovals (approvals : list PendingApproval)
| BodySupport (run : Run) (tasks : list Task) (stages : list StageStatus) (events : list ListedEvent)
    (diagnostics : list ReasoningDiagnostic).

Record http_response := mkHttpResponse {
  Rs_Status : Z;
  Rs_Allow : option string;
  Rs_ETag : option string;
  Rs_Replay : bool;
  Rs_Body : response_body;
}.

Definition writeJSON (status : Z) (body : response_body) : http_response :=
  mkHttpResponse status None None false body.

Definition writeRawJSON (status : Z) (encoded : json) : http_response := writeJSON status (BodyJson encoded).

Definition error_json (code message : string) : json :=
  JObj [("error", JObj [("code", JStr code); ("message", JStr message)])].

Definition writeError (status : Z) (code message : string) : http_response :=
  writeRawJSON status (error_json code message).

(** ** Errors *)

Definition domainError (err : error) : Z * json :=
  let matches := errors_Is err in
  if matches ErrUnauthorized then (403, error_json "forbidden" "principal lacks required role")
  else if matches ErrNotFound || matches RtErrNotFound then (404, error_json "not_found" "resource not found")
  else if matches ErrRevisionConflict then (412, error_json "revision_conflict" "ETag revision conflict")
  else if matches ErrInProgress then (409, error_json "idempotency_in_progress" "request is still processing")
  else if matches ErrTransient then (503, error_json "transient_conflict" "retry the request")
  else if matches ErrCommandConflict || matches ErrConflict || matches ErrStaleFence || matches ErrTerminal
  then (409, error_json "idempotency_conflict" "idempotency identity conflict")
  else if matches ErrInvalid || matches ErrInvalidTransition
  then (422, error_json "invalid_transition" (error_text err))
  else (500, error_json "internal" "request failed").

Definition writeDomainError (err : error) : http_response :=
  let '(status, response) := domainError err in writeRawJSON status response.

(** ** Configuration *)

Section configuration.
Context `{Platform}.

(** [hex.DecodeString] for 32 bytes, written out in lower case. *)
Definition decode_digest (s : string) : option string :=
  let lower c := if (65 <=? byte_of c) && (byte_of c <=? 70) then byte (Z.to_nat (byte_of c + 32)) else c in
  let t := String.string_of_list_ascii (map lower (String.list_ascii_of_string s)) in
  if match_hex 64 t then Some t else None.

Definition normalizeServerConfig (config : ServerConfig) : res ServerConfig :=
  if negb (uuid_Parse_ok (ServiceActorID config)) then Err (ErrText "invalid service actor ID")
  else
    let attempts := if TaskMaxAttempts config =? 0 then DefaultTaskMaxAttempts else TaskMaxAttempts config in
    if (attempts <? 2) || (10 <? attempts)
    then Err (ErrText "task max attempts must be between 2 and 10")
    else
      Ok (mkServerConfig (Principals config) (ServiceActorID config)
        (if MaxBodyBytes config <=? 0 then DefaultMaxBodyBytes else MaxBodyBytes config)
        (merge_sort String.le (Config_TrustedChecks config)) (Config_Policy config) (Has_Ready config)
        attempts).

Fixpoint compile_roles (seen : gset string) (roles : list string) : res unit :=
  match roles with
  | [] => Ok tt
  | role :: rest =>
      if negb (bool_decide (role ∈ [RoleOperator; RoleApprover; RoleElevatedApprover]))
      then Err (ErrText "unknown principal role")
      else if bool_decide (role ∈ seen) then Err (ErrText "duplicate principal role")
      else compile_roles ({[role]} ∪ seen) rest
  end.

Fixpoint compilePrincipals_loop (seen : gset string) (values : list ApiPrincipal)
    : res (list principalDigest) :=
  match values with
  | [] => Ok []
  | principal :: rest =>
      if negb (uuid_Parse_ok (Api_ID principal)) then Err (ErrText "invalid principal ID")
      else if bool_decide (Api_ID principal ∈ seen) then Err (ErrText "duplicate principal ID")
      else
        match decode_digest (TokenSHA256 principal), Api_Roles principal with
        | Some digest, _ :: _ =>
            compile_roles ∅ (Api_Roles principal) ;;
            principals ← compilePrincipals_loop ({[Api_ID principal]} ∪ seen) rest;
            Ok (mkPrincipalDigest principal digest :: principals)
        | _, _ => Err (ErrText "invalid principal token digest or roles")
        end
  end.

Definition compilePrincipals (values : list ApiPrincipal) : res (list principalDigest) :=
  compilePrincipals_loop ∅ values.

Definition ValidatePrincipals (values : list ApiPrincipal) : res unit :=
  if (length values =? 0)%nat then Err (ErrText "at least one principal is required")
  else compilePrincipals values ;; Ok tt.

Fixpoint compileTrustedChecks_loop (checks : gset string) (values : list string) : res (gset string) :=
  match values with
  | [] => Ok checks
  | check :: rest =>
      if (check == "") || (TrimSpace check != check) then Err (ErrText "trusted check IDs must be non-empty")
      else if bool_decide (check ∈ checks) then Err (ErrText "trusted check IDs must be unique")
      else compileTrustedChecks_loop ({[check]} ∪ checks) rest
  end.

Definition compileTrustedChecks (values : list string) : res (gset string) :=
  compileTrustedChecks_loop ∅ values.

Definition prepareServerConfig (config : ServerConfig)
    : res (ServerConfig * list principalDigest * gset string) :=
  normalized ← normalizeServerConfig config;
  principals ← compilePrincipals (Principals normalized);
  if (length principals =? 0)%nat then Err (ErrText "at least one principal is required")
  else
    checks ← compileTrustedChecks (Config_TrustedChecks normalized);
    Policy_Validate (Config_Policy normalized) ;;
    if bool_decide (Config_TrustedChecks normalized <> TrustedChecks (Config_Policy normalized))
    then Err (ErrText "trusted checks do not match beta policy")
    else Ok (normalized, principals, checks).

(** A dependency is its name and whether it is there. *)
Definition validateServerDependencies (dependencies : list (string * bool)) : res unit :=
  for_each (fun '(name, present) =>
    if negb present then Err (ErrText (name +:+ " is required")) else Ok tt) dependencies.

Definition Server_New (config : ServerConfig) (dependencies : list (string * bool)) (publication : bool)
    : res Server :=
  '(normalized, principals, checks) ← prepareServerConfig config;
  validateServerDependencies dependencies ;;
  Ok (mkServer normalized principals checks publication).

(** ** Authentication and roles *)

(** The last principal whose token it is. *)
Definition authenticate (s : Server) (request : http_request) : option ApiPrincipal :=
  let header := Authorization request in
  if negb (HasPrefix header "Bearer ") || (String.length header =? 7)%nat then None
  else
    let sum := sha256_hex (TrimPrefix header "Bearer ") in
    foldl (fun found p => if Token_Digest p == sum then Some (Digest_Principal p) else found) None
      (Server_Principals s).

Definition hasRole (principal : ApiPrincipal) (role : string) : bool :=
  existsb (fun candidate => candidate == role) (Api_Roles principal).

Definition hasApprovalRole (principal : ApiPrincipal) (elevated : bool) : bool :=
  if elevated then hasRole principal RoleElevatedApprover
  else hasRole principal RoleApprover || hasRole principal RoleElevatedApprover.

(** ** Paths, revisions and identifiers *)

(** [strings.Cut(s, "/")] *)
Definition cut_slash (s : string) : string * string :=
  match cut_at "/" s with Some halves => halves | None => (s, "") end.

Definition parse_path (prefix value : string) : option (string * string) :=
  if negb (HasPrefix value prefix) then None
  else
    let '(id, suffix) := cut_slash (TrimPrefix value prefix) in
    if negb (uuid_Parse_ok id) then None
    else Some (id, if suffix != "" then "/" +:+ suffix else suffix).

Definition parseRunPath : string -> option (string * string) := parse_path "/v1/runs/".

Definition parseTaskPath : string -> option (string * string) := parse_path "/v1/tasks/".

Definition isMutationRoute (path : string) : bool :=
  if path == "/v1/runs" then true
  else
    match parseTaskPath path with
    | Some (_, suffix) => suffix == "/retry"
    | None =>
        match parseRunPath path with
        | Some (_, suffix) => (suffix != "") && (suffix != "/events") && (suffix != "/support-bundle")
        | None => false
        end
    end.

(** [strconv.ParseUint(s, 10, 64)] *)
Fixpoint digits_from (acc : Z) (s : string) : option Z :=
  match s with
  | EmptyString => Some acc
  | String c s' => if is_digit c then digits_from (acc * 10 + (byte_of c - 48)) s' else None
  end.

Definition ParseUint (s : string) : option Z :=
  match s, digits_from 0 s with
  | String _ _, Some n => if n <? 2 ^ 64 then Some n else None
  | _, _ => None
  end.

(** A text between quotes, and a number in them. *)
Definition unquoted (value : string) : option string :=
  match value with
  | String first rest =>
      let size := (String.length rest - 1)%nat in
      if (first == quote) && (2 <=? String.length rest)%nat && (str_drop size rest == String quote "")
      then Some (str_take size rest) else None
  | EmptyString => None
  end.

Definition requiredRevision (value : string) : option Z :=
  match unquoted value with Some text => ParseUint text | None => None end.

Definition revisionETag (revision : Z) : string :=
  String quote (decimal revision +:+ String quote "").

Definition stableStepID (key step : string) : string := uuid_NewSHA1 key step.

Definition envelope (commandID actorID : string) (kind : ActorKind) (revision : Z) (at_ : time)
    : CommandEnvelope :=
  mkEnvelope commandID (mkActor actorID kind) revision (UTC at_) commandID commandID.

End configuration.

(** ** What a mutation asks for *)

Inductive mutation_answer :=
| AnswerCommand (r : CommandResult)
| AnswerApproval (r : ApprovalResult)
| AnswerPublication (r : PublicationResult).

Definition answer_json (a : mutation_answer) : json :=
  match a with
  | AnswerCommand r => WfStore.result_json r
  | AnswerApproval r =>
      JObj [("result", JObj [("ApprovalID", JStr (Result_ApprovalID r)); ("Decision", JStr (Decision r));
        ("ApprovalArtifact", artifact_json (ApprovalArtifact r)); ("Elevated", JBool (Elevated r));
        ("RiskReasons", JArr (map JStr (RiskReasons r))); ("Replay", JBool (Result_Replayed r))])]
  | AnswerPublication r =>
      JObj [("publication_id", JStr (PResult_PublicationID r)); ("branch", JStr (Branch r));
        ("candidate_commit", JStr (PResult_CandidateCommit r));
        ("pull_request_number", JNum (PullRequestNumber r)); ("pull_request_url", JStr (PullRequestURL r));
        ("publication_artifact", artifact_json (PublicationArtifact r));
        ("replay", JBool (PResult_Replay r))]
  end.

Abbreviation handler A := (prog service A).

Section handlers.
Context `{Platform} `{Protobuf} `{Wire}.
Variable print_rune : string -> bool.
Variable s : Server.
Variable x : request_surroundings.

(** A command, answered with its result. *)
Definition answer_run (command : RunCommand) : handler (res (Z * mutation_answer)) :=
  map_result (fun result => (200, AnswerCommand result)) (ask (CallExecuteRun command)).

Definition service_actor : string := ServiceActorID (Server_Config s).

Definition serviceMeta (key : string) (at_ : time) (step : string) (revision : Z) : CommandEnvelope :=
  envelope (stableStepID key step) service_actor ActorWorkflowService revision at_.

Definition humanMeta (principal : ApiPrincipal) (key : string) (at_ : time) (step : string) (revision : Z)
    : CommandEnvelope :=
  envelope (stableStepID key step) (Api_ID principal) ActorHuman revision at_.

Definition decodeProtoPair {R P} (request_of : string -> res R) (proposal_of : string -> res P)
    (requestBody proposalBody : string) : res (R * P) :=
  if (requestBody == "") || (proposalBody == "") || (requestBody == "null") || (proposalBody == "null")
  then Err ErrInvalid
  else request ← request_of requestBody; proposal ← proposal_of proposalBody; Ok (request, proposal).

(** ** The retry of a task *)

Definition start_job (run task : string) (attempt : Z) (at_ : time) : Job :=
  mkJob (StableID print_rune [run; task; decimal attempt; StageStart; "job"]) run (Some task) attempt
    StageStart None at_ None None 0 0 0 None None.

Definition retryTask (if_match : string) (principal : ApiPrincipal) (key : string) (body : mutationBody)
    (taskID : string) : handler (res (Z * mutation_answer)) :=
  if negb (hasRole principal RoleOperator) then fail ErrUnauthorized
  else if negb (uuid_Parse_ok (Body_RunID body)) then fail ErrInvalid
  else
    match requiredRevision if_match with
    | None => fail ErrRevisionConflict
    | Some expected =>
        let! result := ask (CallExecuteTask (RetryTask
          (envelope key service_actor ActorWorkflowService expected (DecisionTime body))
          (Body_RunID body) taskID)) in
        if Result_State result == TaskState_string TaskStateFailed
        then Return (Ok (422, AnswerCommand result))
        else if Result_State result != TaskState_string TaskStateReady then fail ErrInvalidTransition
        else
          let! task := ask (CallGetTask (Body_RunID body) taskID) in
          let attempt := (CurrentAttempt task + 1) `mod` 2 ^ 32 in
          do! ask (CallEnqueue (start_job (Task_RunID task) (Task_ID task) attempt
                (UTC (DecisionTime body)))) in
          Return (Ok (200, AnswerCommand result))
    end.

(** ** The approval of a run *)

(** The evidence a task brings to the approval of its run. *)
Record task_evidence := mkTaskEvidence {
  Evidence_Execution : ArtifactRef;
  Evidence_Verification : ArtifactRef;
  Evidence_Review : ArtifactRef;
  Evidence_Proposal : ArtifactRef;
  Evidence_Candidate : string;
}.

Definition evidence_of (task : Task) : option task_evidence :=
  match Execution task, Verification task, Review task, Proposal task with
  | Some execution, Some verification, Some review, Some proposal =>
      if CandidateCommit task == "" then None
      else Some (mkTaskEvidence execution verification review proposal (CandidateCommit task))
  | _, _, _, _ => None
  end.

Definition approval_roles (principal : ApiPrincipal) : list string :=
  (if hasRole principal RoleApprover then [RoleApprover] else []) ++
  (if hasRole principal RoleElevatedApprover then [RoleElevatedApprover] else []).

Definition approval_request (principal : ApiPrincipal) (key : string) (at_ : time) (run : Run) (task : Task)
    (evidence : task_evidence) (specification approvedTask : ArtifactRef) (report : ExecutionReport)
    (planned : pb_PlannedTask) : ApprovalRequest :=
  mkApprovalRequest (stableStepID key "approve-task") at_
    (mkPrincipal (Api_ID principal) (approval_roles principal)) (Run_ID run) (Task_ID task)
    (Evidence_Candidate evidence) (Digest specification) (Digest approvedTask)
    (map Diff_Path (ActualDiff report)) (pt_exclusive_resources planned)
    (Evidence_Proposal evidence) (Evidence_Execution evidence) (Evidence_Verification evidence)
    (Evidence_Review evidence) (Task_Revision task).

(** The evidence of the task becomes that of the run, a step per state. *)
Definition aggregate_steps (key : string) (at_ : time) (evidence : task_evidence)
    : list (RunState * (Run -> RunCommand)) :=
  let meta step kind run := envelope (stableStepID key step) service_actor kind (Run_Revision run) at_ in
  let candidate := Evidence_Candidate evidence in
  [(RunStateExecuting, fun run =>
      RecordRunExecution (meta "aggregate-execution" ActorExecutionService run) (Run_ID run)
        (Evidence_Execution evidence) candidate);
   (RunStateVerifying, fun run =>
      RecordRunVerification (meta "aggregate-verification" ActorVerificationService run) (Run_ID run)
        candidate (Evidence_Verification evidence));
   (RunStateReviewing, fun run =>
      RecordRunReview (meta "aggregate-review" ActorReviewService run) (Run_ID run)
        candidate (Evidence_Review evidence))].

Definition aggregate_step (run : Run) (step : RunState * (Run -> RunCommand)) : handler (res Run) :=
  if bool_decide (Run_State run = fst step)
  then do! ask (CallExecuteRun (snd step run)) in ask (CallGetRun (Run_ID run))
  else Return (Ok run).

(** From the approval of the task to that of the run. *)
Definition approve_aggregate (principal : ApiPrincipal) (key : string) (at_ : time)
    (evidence : task_evidence) (approval : ApprovalResult) (run : Run) : handler (res ApprovalResult) :=
  let! run := steps_in_order aggregate_step run (aggregate_steps key at_ evidence) in
  match Run_State run, Run_Review run with
  | RunStateAwaitingApproval, Some review =>
      do! ask (CallExecuteRun (ApproveRun (humanMeta principal key at_ "approve-run" (Run_Revision run))
            (Run_ID run) (Evidence_Candidate evidence) review (ApprovalArtifact approval))) in
      Return (Ok approval)
  | _, _ => fail ErrInvalidTransition
  end.

(** The approval of the task with the evidence that is bound. *)
Definition approve_bound (principal : ApiPrincipal) (key : string) (at_ : time) (run : Run) (task : Task)
    (evidence : task_evidence) : handler (res ApprovalResult) :=
  let! runBinding := ask (CallGetRunBinding (Run_ID run)) in
  match RB_ApprovedSpecification runBinding with
  | None => fail ErrInvalidTransition
  | Some specification =>
      let! taskBinding := ask (CallGetTaskBinding (Run_ID run) (Task_ID task)) in
      try! executionBody := rs_get x (Evidence_Execution evidence) in
      try! report := rs_execution_report x executionBody in
      try! taskBody := rs_get x (TB_ApprovedTask taskBinding) in
      try! planned := unmarshal_planned_task taskBody in
      let! approval := ask (CallApproveTask (approval_request principal key at_ run task evidence
            specification (TB_ApprovedTask taskBinding) report planned)) in
      do! ask (CallCheckpointApproval (Run_ID run) (ApprovalArtifact approval)) in
      let! run := ask (CallGetRun (Run_ID run)) in
      approve_aggregate principal key at_ evidence approval run
  end.

Definition approveRun (principal : ApiPrincipal) (key : string) (at_ : time) (run : Run)
    : handler (res ApprovalResult) :=
  let* tasks := ask (CallListTasks (Run_ID run)) in
  match tasks with
  | Ok [task] =>
      match evidence_of task, Specification run, TaskGraph run with
      | Some evidence, Some _, Some _ => approve_bound principal key at_ run task evidence
      | _, _, _ => fail ErrInvalidTransition
      end
  | _ => fail ErrInvalid
  end.

(** ** The publication of a run *)

Definition taskReadyForPublication (task : Task) : bool :=
  bool_decide (Task_State task = TaskStateAccepted) && bool_decide (is_Some (evidence_of task)).

Definition publicationTask (tasks : list Task) : res (Task * task_evidence) :=
  match tasks with
  | [task] =>
      if taskReadyForPublication task
      then match evidence_of task with Some evidence => Ok (task, evidence) | None => Err ErrInvalidTransition end
      else Err ErrInvalidTransition
  | _ => Err ErrInvalid
  end.

(** The specification and the approval of a binding that matches the run. *)
Definition publicationBindingMatches (binding : RunBinding) (approval : ArtifactRef)
    : option (ArtifactRef * ArtifactRef) :=
  match RB_ApprovedSpecification binding, RB_CompositeApproval binding with
  | Some specification, Some composite =>
      if ArtifactRef_Equal composite approval then Some (specification, composite) else None
  | _, _ => None
  end.

Definition publicationRequest (key : string) (at_ : time) (run : Run) : handler (res PublicationRequest) :=
  if negb (Has_Publication s) then fail ErrInvalidTransition
  else
    match Run_State run, Run_Approval run with
    | RunStateMergeReady, Some approval =>
        let* tasks := ask (CallListTasks (Run_ID run)) in
        match tasks with
        | Err _ => fail ErrInvalid
        | Ok tasks =>
            try! (task, evidence) := publicationTask tasks in
            let! binding := ask (CallGetRunBinding (Run_ID run)) in
            match publicationBindingMatches binding approval with
            | None => fail ErrInvalidTransition
            | Some (specification, composite) =>
                Return (Ok (mkPublicationRequest (stableStepID key "publish") at_ (Run_ID run)
                  (RB_BaseCommit binding) (Evidence_Candidate evidence) specification
                  (Evidence_Proposal evidence) (Evidence_Execution evidence)
                  (Evidence_Verification evidence) (Evidence_Review evidence) composite
                  (Run_Revision run)))
            end
        end
    | _, _ => fail ErrInvalidTransition
    end.

Definition submitRun (key : string) (at_ : time) (run : Run) : handler (res PublicationResult) :=
  let! request := publicationRequest key at_ run in ask (CallPublish request).

(** ** The mutations of a run *)

Definition proposeSpecification (key : string) (body : mutationBody) (run : Run)
    : handler (res (Z * mutation_answer)) :=
  match decodeProtoPair (rs_specification_request x) (rs_specification_proposal x)
          (Body_Request body) (Body_Proposal body) with
  | Err _ => fail ErrInvalid
  | Ok (request, proposal) =>
      try! ref := BuildApprovedSpecification (rs_put x) (Some request) (Some proposal) in
      answer_run (ProposeSpecification
        (serviceMeta key (DecisionTime body) "propose-specification" (Run_Revision run)) (Run_ID run) ref)
  end.

Definition proposeTaskGraph (key : string) (body : mutationBody) (run : Run)
    : handler (res (Z * mutation_answer)) :=
  match decodeProtoPair (rs_planning_request x) (rs_graph_proposal x)
          (Body_Request body) (Body_Proposal body) with
  | Err _ => fail ErrInvalid
  | Ok (request, proposal) =>
      try! (ref, _, _) := BuildApprovedTaskGraph (rs_put x) (Some request) (Some proposal)
             (Server_Checks s) (Config_Policy (Server_Config s)) in
      answer_run (ProposeTaskGraph
        (serviceMeta key (DecisionTime body) "propose-task-graph" (Run_Revision run)) (Run_ID run) ref)
  end.

Definition approveSpecification (principal : ApiPrincipal) (key : string) (body : mutationBody)
    (run : Run) (specification : ArtifactRef) : handler (res (Z * mutation_answer)) :=
  let! result := ask (CallExecuteRun (ApproveSpecification
    (humanMeta principal key (DecisionTime body) "approve-specification" (Run_Revision run))
    (Run_ID run) specification)) in
  do! ask (CallCheckpointSpecification (Run_ID run) specification) in
  Return (Ok (200, AnswerCommand result)).

(** The approval that is asked of the coordinator for the only task of a graph. *)
Definition graph_approval (principal : ApiPrincipal) (key : string) (at_ : time) (run : Run)
    (graph taskRef : ArtifactRef) (taskID : string) : TaskGraphApprovalRequest :=
  mkTaskGraphApproval (humanMeta principal key at_ "approve-task-graph" (Run_Revision run)) (Run_ID run)
    graph [mkTaskDefinition taskID (TaskMaxAttempts (Server_Config s))] [] graph
    (mkTaskBinding (Run_ID run) taskID taskRef) (start_job (Run_ID run) taskID 1 (UTC at_)).

Definition approveTaskGraph (principal : ApiPrincipal) (key : string) (body : mutationBody)
    (run : Run) (graph : ArtifactRef) : handler (res (Z * mutation_answer)) :=
  try! graphBody := rs_get x graph in
  match unmarshal_task_graph_proposal graphBody with
  | Err _ => fail ErrInvalid
  | Ok proposal =>
      match tg_tasks proposal with
      | [task] =>
          match pt_dependencies task with
          | [] =>
              try! taskBody := marshal_planned_task (Some task) in
              try! taskRef := rs_put x taskBody in
              map_result (fun result => (200, AnswerCommand result))
                (ask (CallApproveTaskGraph (graph_approval principal key (DecisionTime body) run graph
                  taskRef (pt_task_id task))))
          | _ => fail ErrInvalid
          end
      | _ => fail ErrInvalid
      end
  end.

Definition cancelRun (key : string) (body : mutationBody) (run : Run)
    : handler (res (Z * mutation_answer)) :=
  let! result := ask (CallExecuteRun (CancelRun
    (serviceMeta key (DecisionTime body) "cancel-run" (Run_Revision run)) (Run_ID run) (Body_Reason body))) in
  do! ask (CallCancelRunJobs (Run_ID run) (DecisionTime body)) in
  Return (Ok (200, AnswerCommand result)).

(** What needs a role, and maybe an artifact of the run, is refused without. *)
Definition with_role {A} (allowed : bool) (p : handler (res A)) : handler (res A) :=
  if allowed then p else fail ErrUnauthorized.

Definition with_artifact {A} (allowed : bool) (artifact : option ArtifactRef)
    (p : ArtifactRef -> handler (res A)) : handler (res A) :=
  match artifact with
  | Some ref => with_role allowed (p ref)
  | None => fail ErrUnauthorized
  end.

Definition applyRunMutation (principal : ApiPrincipal) (key suffix : string) (body : mutationBody)
    (run : Run) : handler (res (Z * mutation_answer)) :=
  let operator := hasRole principal RoleOperator in
  let approver := hasApprovalRole principal false in
  let human step := humanMeta principal key (DecisionTime body) step (Run_Revision run) in
  if suffix == "/specification" then with_role operator (proposeSpecification key body run)
  else if suffix == "/specification/approve"
  then with_artifact approver (Specification run) (approveSpecification principal key body run)
  else if suffix == "/specification/reject"
  then with_artifact approver (Specification run) (fun specification =>
         answer_run (RejectSpecification (human "reject-specification") (Run_ID run) specification
           (Body_Reason body) (Body_Terminal body)))
  else if suffix == "/task-graph" then with_role operator (proposeTaskGraph key body run)
  else if suffix == "/task-graph/approve"
  then with_artifact approver (TaskGraph run) (approveTaskGraph principal key body run)
  else if suffix == "/task-graph/reject"
  then with_artifact approver (TaskGraph run) (fun graph =>
         answer_run (RejectTaskGraph (human "reject-task-graph") (Run_ID run) graph
           (Body_Reason body) (Body_Terminal body)))
  else if suffix == "/approval"
  then with_role approver (map_result (fun result => (200, AnswerApproval result))
         (approveRun principal key (DecisionTime body) run))
  else if suffix == "/submit"
  then with_role operator (map_result (fun result => (200, AnswerPublication result))
         (submitRun key (DecisionTime body) run))
  else if suffix == "/reject"
  then with_artifact approver (Run_Review run) (fun review =>
         answer_run (RejectRun (human "reject-run") (Run_ID run) (Run_CandidateCommit run) review
           (Body_Reason body)))
  else if suffix == "/cancel" then with_role operator (cancelRun key body run)
  else fail ErrNotFound.

Definition mutateRun (if_match : string) (principal : ApiPrincipal) (key : string) (body : mutationBody)
    (runID suffix : string) : handler (res (Z * mutation_answer)) :=
  let! run := ask (CallGetRun runID) in
  match requiredRevision if_match with
  | Some expected =>
      if expected =? Run_Revision run then applyRunMutation principal key suffix body run
      else fail ErrRevisionConflict
  | None => fail ErrRevisionConflict
  end.

Definition applyMutation (request : http_request) (principal : ApiPrincipal) (key : string)
    (body : mutationBody) : handler (res (Z * mutation_answer)) :=
  if IsZero (DecisionTime body) then fail (ErrText "decision_timestamp is required")
  else
    let run_route :=
      match parseRunPath (Rq_Path request) with
      | Some (runID, suffix) => mutateRun (IfMatch request) principal key body runID suffix
      | None => fail ErrNotFound
      end in
    match parseTaskPath (Rq_Path request) with
    | Some (taskID, suffix) =>
        if suffix == "/retry" then retryTask (IfMatch request) principal key body taskID else run_route
    | None => run_route
    end.

(** ** The intake of a run *)

Definition handleRunIntake (principal : ApiPrincipal) (body : mutationBody)
    (idempotency : IdempotencyRequest) : handler http_response :=
  if negb (hasRole principal RoleOperator) then Return (writeDomainError ErrUnauthorized)
  else if IsZero (DecisionTime body)
  then Return (writeError 400 "invalid_request" "decision_timestamp is required")
  else if negb (uuid_Parse_ok (Body_RunID body)) || negb (match_hex 40 (Body_BaseCommit body)) ||
          (Body_Content body == "") || (Body_Content body == "null")
  then Return (writeDomainError ErrInvalid)
  else
    let* result := ask (CallAccept (mkRunIntakeRequest idempotency
      (envelope (Key idempotency) (Api_ID principal) ActorHuman 0 (DecisionTime body))
      (Body_RunID body) (Body_Content body) (Body_BaseCommit body))) in
    match result with
    | Err e => Return (writeDomainError e)
    | Ok result =>
        Return (mkHttpResponse (StatusCode result) None None (Idem_Replay result)
          (BodyJson (default JNull (Response result))))
    end.

(** ** Mutations under a reservation *)

Definition decodeStrict (request : http_request) : res (string * mutationBody) :=
  match Rq_Body request with
  | Err _ => Err (ErrText "request body exceeds limit")
  | Ok body =>
      if MaxBodyBytes (Server_Config s) <? Z.of_nat (String.length body)
      then Err (ErrText "request body exceeds limit")
      else
        '(destination, rest) ← rs_decode_body x body;
        if negb (rs_at_EOF x rest) then Err (ErrText "request body has trailing content")
        else Ok (body, destination)
  end.

Definition abandonMutation (key : string) (fence status : Z) (response : json) : handler http_response :=
  let* r := ask (CallAbandonIdempotency key fence) in
  match r with
  | Err e => Return (writeDomainError e)
  | Ok _ => Return (writeRawJSON status response)
  end.

Definition completeMutation (key : string) (fence status : Z) (response : json) : handler http_response :=
  let* r := ask (CallCompleteIdempotency key fence status response) in
  match r with
  | Err e => Return (writeDomainError e)
  | Ok _ => Return (writeRawJSON status response)
  end.

(** What is done once the key is reserved. *)
Definition settle_mutation (key : string) (fence : Z) (r : res (Z * mutation_answer))
    : handler http_response :=
  match r with
  | Ok (status, answer) => completeMutation key fence status (answer_json answer)
  | Err e =>
      let '(status, response) := domainError e in
      if 500 <=? status then abandonMutation key fence status response
      else completeMutation key fence status response
  end.

(** The reservation is renewed from time to time while the program runs. *)
Definition startReservationRenewal {A} (key : string) (fence ttl : Z) (p : handler A) : handler A :=
  beside (CallRenewIdempotency key fence ttl) (rs_ticks x) 0 true p.

Definition reserved_mutation (request : http_request) (principal : ApiPrincipal) (body : mutationBody)
    (idem : IdempotencyRequest) : handler http_response :=
  let* begun := ask (CallBeginIdempotency idem) in
  match begun with
  | Err e => Return (writeDomainError e)
  | Ok reservation =>
      if Idem_Replay reservation
      then Return (mkHttpResponse (StatusCode reservation) None None true
             (BodyJson (default JNull (Response reservation))))
      else
        startReservationRenewal (Key idem) (Idem_FencingToken reservation) (ReservationTTL idem)
          (let* r := applyMutation request principal (Key idem) body in
           settle_mutation (Key idem) (Idem_FencingToken reservation) r)
  end.

Definition handleMutation (request : http_request) (principal : ApiPrincipal) : handler http_response :=
  let key := IdempotencyKey request in
  if negb (uuid_Parse_ok key)
  then Return (writeError 400 "invalid_idempotency_key" "UUID Idempotency-Key required")
  else
    match decodeStrict request with
    | Err e => Return (writeError 400 "invalid_json" (error_text e))
    | Ok (raw, body) =>
        let idem ttl := mkIdemRequest key (Rq_Method request) (Rq_RequestURI request) (Api_ID principal)
                          (sha256_hex raw) ttl in
        if Rq_Path request == "/v1/runs"
        then handleRunIntake principal body (idem intakeReservationTTL)
        else reserved_mutation request principal body (idem defaultReservationTTL)
    end.

(** ** Reading *)

(** The answer of a service, or its error. *)
Definition written {A} (p : handler (res A)) (write : A -> http_response) : handler http_response :=
  let* r := p in
  match r with Ok a => Return (write a) | Err e => Return (writeDomainError e) end.

Definition run_view (runID : string) : handler (res (Run * list Task * list StageStatus)) :=
  let! run := ask (CallGetRun runID) in
  let! tasks := ask (CallListTasks runID) in
  let! stages := ask (CallRunStages runID) in
  Return (Ok (run, tasks, stages)).

Definition writeSupportBundle (runID : string) : handler http_response :=
  written
    (let! view := run_view runID in
     let! events := ask (CallListEvents runID) in
     let! diagnostics := ask (CallReasoningDiagnostics runID) in
     Return (Ok (view, events, diagnostics)))
    (fun '(run, tasks, stages, events, diagnostics) =>
       writeJSON 200 (BodySupport run tasks stages events diagnostics)).

Definition route_not_found : http_response := writeError 404 "not_found" "route not found".

Definition handleGet (request : http_request) : handler http_response :=
  if Rq_Path request == "/v1/approvals" then
    if Rq_Status request != "pending"
    then Return (writeError 400 "invalid_request" "status must be pending")
    else written (ask CallListPendingApprovals) (fun approvals => writeJSON 200 (BodyApprovals approvals))
  else
    match parseRunPath (Rq_Path request) with
    | None => Return route_not_found
    | Some (runID, suffix) =>
        if suffix == "" then
          written (run_view runID) (fun '(run, tasks, stages) =>
            mkHttpResponse 200 None (Some (revisionETag (Run_Revision run))) false (BodyRun run tasks stages))
        else if suffix == "/events"
        then written (ask (CallListEvents runID)) (fun events => writeJSON 200 (BodyEvents events))
        else if suffix == "/support-bundle" then writeSupportBundle runID
        else Return route_not_found
    end.

(** ** Routing *)

Definition requireMethod (request : http_request) (allowed : string) (p : handler http_response)
    : handler http_response :=
  if Rq_Method request == allowed then p
  else Return (mkHttpResponse 405 (Some allowed) None false
         (BodyJson (error_json "method_not_allowed" "method not allowed"))).

Definition status_json (status : string) : response_body := BodyJson (JObj [("status", JStr status)]).

Definition servePublicEndpoint (request : http_request) : option (handler http_response) :=
  if Rq_Path request == "/healthz"
  then Some (requireMethod request "GET" (Return (writeJSON 200 (status_json "ok"))))
  else if Rq_Path request == "/readyz" then
    Some (requireMethod request "GET"
      (if Has_Ready (Server_Config s)
       then let* r := ask CallReady in
            match r with
            | Err _ => Return (writeJSON 503 (status_json "unavailable"))
            | Ok _ => Return (writeJSON 200 (status_json "ready"))
            end
       else Return (writeJSON 200 (status_json "ready"))))
  else None.

Record counters := mkCounters { Requests_Total : Z; Failures_Total : Z; Elapsed_Total : Z }.

Definition observeRequest (c : counters) (status elapsed : Z) : counters :=
  let add a b := (a + b) `mod` 2 ^ 64 in
  mkCounters (add (Requests_Total c) 1) (if 400 <=? status then add (Failures_Total c) 1 else Failures_Total c)
    (add (Elapsed_Total c) elapsed).

Definition counters_json (c : counters) : json :=
  JObj [("failures_total", JNum (Failures_Total c));
    ("request_elapsed_nanoseconds_total", JNum (Elapsed_Total c));
    ("requests_total", JNum (Requests_Total c))].

Definition routeAuthenticated (c : counters) (request : http_request) (principal : ApiPrincipal)
    : handler http_response :=
  if Rq_Path request == "/metrics"
  then requireMethod request "GET" (Return (writeRawJSON 200 (counters_json c)))
  else if isMutationRoute (Rq_Path request)
  then requireMethod request "POST" (handleMutation request principal)
  else requireMethod request "GET" (handleGet request).

Definition serveHTTP (c : counters) (request : http_request) : handler http_response :=
  match servePublicEndpoint request with
  | Some p => p
  | None =>
      match authenticate s request with
      | None => Return (writeError 401 "unauthenticated" "valid bearer token required")
      | Some principal => routeAuthenticated c request principal
      end
  end.

End handlers.
