(* ===== verification/CaServerProps.v ===== *)
(** * What the control API lets a principal do

    Properties of the programs of [CaServer], whatever the services answer. *)

From S2P Require Import Prelude GoStd GoJson GoText PgRetry Programs WfTypes WfTask WfPlan WfRun WfRunProps WfDb WfStore.
From S2P Require Import RtLedger RtReconciler CtMessages CtCommon ExRequest BetaPolicy RtBuilder RtBindings.
From S2P Require Import Approval PbRequest CaIntake CaSupport CaServer.

(** ** Going through the programs *)

Section programs.
Variable allowed : forall X, service X -> Prop.

Lemma all_calls_answer command :
  allowed _ (CallExecuteRun command) -> all_calls allowed (answer_run command).
Proof. intros Hc. apply all_calls_map. by apply all_calls_ask. Qed.

Lemma all_calls_role {A} (b : bool) (p : handler (res A)) :
  (b = true -> all_calls allowed p) -> all_calls allowed (with_role b p).
Proof. destruct b; [|done]. cbn. auto. Qed.

Lemma all_calls_artifact {A} (b : bool) artifact (p : ArtifactRef -> handler (res A)) :
  (b = true -> forall ref, all_calls allowed (p ref)) -> all_calls allowed (with_artifact b artifact p).
Proof. intros Hp. destruct artifact as [ref|]; [|done]. apply all_calls_role. auto. Qed.

Lemma all_calls_written {A} (p : handler (res A)) f : all_calls allowed p -> all_calls allowed (written p f).
Proof. intros Hp. apply all_calls_bind; [done|]. by intros [a|e]. Qed.

End programs.

(** Goes through a program to its calls, which [show] simplifies and where
    [leaf] may go on. *)
Ltac walk_with show leaf :=
  repeat first
    [ exact I
    | progress intros
    | progress cbn beta iota
    | match goal with
      | |- all_calls _ (and_then _ _) => apply all_calls_and_then
      | |- all_calls _ (map_result _ _) => apply all_calls_map
      | |- all_calls _ (prog_bind _ _) => apply all_calls_bind
      | |- all_calls _ (ask _) => apply all_calls_ask; show
      | |- all_calls _ (startReservationRenewal _ _ _ _ _) => apply all_calls_beside; [show|]
      | |- all_calls _ (answer_run _) => apply all_calls_answer; show
      | |- all_calls _ (with_role _ _) => apply all_calls_role
      | |- all_calls _ (with_artifact _ _ _) => apply all_calls_artifact
      | |- all_calls _ (written _ _) => apply all_calls_written
      | |- all_calls _ (match ?e with _ => _ end) => destruct e eqn:?
      end
    | leaf ].

Section authority.
Context `{Platform} `{Protobuf} `{Wire}.
Variable print_rune : string -> bool.
Variable s : Server.
Variable x : request_surroundings.
Variable request : http_request.

(** ** What a request may ask of the services *)

Section principal.
Variable principal : ApiPrincipal.
Abbreviation operator := (hasRole principal RoleOperator = true).
Abbreviation approver := (hasApprovalRole principal false = true).

(** A command of the step named [step], by the principal or by a service. *)
Definition of_step (step : string) (m : CommandEnvelope) : Prop :=
  CommandID m = stableStepID (IdempotencyKey request) step.

Definition by_human (m : CommandEnvelope) : Prop :=
  approver /\ Envelope_Actor m = mkActor (Api_ID principal) ActorHuman.

Definition by_service (kind : ActorKind) (m : CommandEnvelope) : Prop :=
  Envelope_Actor m = mkActor (service_actor s) kind.

(** The revision the client has seen is the one the command expects. *)
Definition at_if_match (m : CommandEnvelope) : Prop :=
  requiredRevision (IfMatch request) = Some (ExpectedRevision m).

Definition permitted_run (command : RunCommand) : Prop :=
  match command with
  | ProposeSpecification m _ _ =>
      operator /\ by_service ActorWorkflowService m /\ of_step "propose-specification" m /\ at_if_match m
  | ApproveSpecification m _ _ => by_human m /\ of_step "approve-specification" m /\ at_if_match m
  | RejectSpecification m _ _ _ _ => by_human m /\ of_step "reject-specification" m /\ at_if_match m
  | ProposeTaskGraph m _ _ =>
      operator /\ by_service ActorWorkflowService m /\ of_step "propose-task-graph" m /\ at_if_match m
  | RejectTaskGraph m _ _ _ _ => by_human m /\ of_step "reject-task-graph" m /\ at_if_match m
  | RejectRun m _ _ _ _ => by_human m /\ of_step "reject-run" m /\ at_if_match m
  | CancelRun m _ _ =>
      operator /\ by_service ActorWorkflowService m /\ of_step "cancel-run" m /\ at_if_match m
  | RecordRunExecution m _ _ _ =>
      approver /\ by_service ActorExecutionService m /\ of_step "aggregate-execution" m
  | RecordRunVerification m _ _ _ =>
      approver /\ by_service ActorVerificationService m /\ of_step "aggregate-verification" m
  | RecordRunReview m _ _ _ => approver /\ by_service ActorReviewService m /\ of_step "aggregate-review" m
  | ApproveRun m _ _ _ _ => by_human m /\ of_step "approve-run" m
  | _ => False
  end.

Definition permitted_task (command : TaskCommand) : Prop :=
  match command with
  | RetryTask m _ _ =>
      operator /\ by_service ActorWorkflowService m /\ CommandID m = IdempotencyKey request /\ at_if_match m
  | _ => False
  end.

(** What any service may be asked under a reservation. *)
Definition permitted_work (X : Type) (c : service X) : Prop :=
  match c with
  | CallExecuteRun command => permitted_run command
  | CallExecuteTask command => permitted_task command
  | CallEnqueue _ | CallCancelRunJobs _ _ | CallPublish _ => operator
  | CallCheckpointSpecification _ _ | CallCheckpointApproval _ _ => approver
  | CallApproveTaskGraph approval =>
      by_human (TGA_Meta approval) /\ of_step "approve-task-graph" (TGA_Meta approval) /\
      at_if_match (TGA_Meta approval)
  | CallApproveTask approval =>
      approver /\ Principal_ID (Request_Principal approval) = Api_ID principal /\
      Forall (fun role => hasRole principal role = true) (Roles (Request_Principal approval)) /\
      ApprovalID approval = stableStepID (IdempotencyKey request) "approve-task"
  | CallBeginIdempotency _ | CallCompleteIdempotency _ _ _ _ | CallAbandonIdempotency _ _
  | CallRenewIdempotency _ _ _ | CallAccept _ | CallReady => False
  | CallGetRun _ | CallGetTask _ _ | CallListTasks _ | CallListEvents _ | CallListPendingApprovals
  | CallRunStages _ | CallGetRunBinding _ | CallGetTaskBinding _ _ | CallReasoningDiagnostics _ => True
  end.

(** What it may be asked at all. *)
Definition permitted (X : Type) (c : service X) : Prop :=
  match c with
  | CallBeginIdempotency idem => PrincipalID idem = Api_ID principal /\ Key idem = IdempotencyKey request
  | CallCompleteIdempotency key _ _ _ | CallAbandonIdempotency key _ | CallRenewIdempotency key _ _ =>
      key = IdempotencyKey request
  | CallAccept intake =>
      operator /\ Envelope_Actor (Intake_Meta intake) = mkActor (Api_ID principal) ActorHuman /\
      CommandID (Intake_Meta intake) = IdempotencyKey request /\
      PrincipalID (Intake_Idempotency intake) = Api_ID principal
  | _ => permitted_work X c
  end.

(** ** The programs keep to it *)

Abbreviation within := (all_calls permitted_work).

Lemma within_permitted {A} (p : handler A) : within p -> all_calls permitted p.
Proof. apply all_calls_mono. by intros X []. Qed.

Lemma within_approval_roles :
  Forall (fun role => hasRole principal role = true) (approval_roles principal).
Proof.
  unfold approval_roles. apply Forall_app; split; [destruct (hasRole principal RoleApprover) eqn:E|
    destruct (hasRole principal RoleElevatedApprover) eqn:E]; by repeat constructor.
Qed.

Ltac walk :=
  walk_with ltac:(cbn) ltac:(first
    [ match goal with
      | |- _ /\ _ => split
      | |- by_human _ => split
      | |- at_if_match _ => assumption
      | |- ?b = true => assumption
      end
    | reflexivity ]).

Section one_run.
Variables (body : mutationBody) (run : Run).
Abbreviation key := (IdempotencyKey request).

Lemma within_aggregate evidence approval r :
  approver -> within (approve_aggregate s principal key (DecisionTime body) evidence approval r).
Proof.
  intros Ha. unfold approve_aggregate. apply all_calls_and_then.
  - unfold aggregate_steps. cbn [steps_in_order]. unfold aggregate_step. walk.
  - walk.
Qed.

Lemma within_approveRun : approver -> within (approveRun s x principal key (DecisionTime body) run).
Proof.
  intros Ha. unfold approveRun, approve_bound. walk.
  all: try (by apply within_aggregate).
  apply within_approval_roles.
Qed.

Lemma within_run_mutation suffix :
  requiredRevision (IfMatch request) = Some (Run_Revision run) ->
  within (applyRunMutation print_rune s x principal key suffix body run).
Proof.
  intros Hseen. unfold applyRunMutation.
  repeat match goal with |- all_calls _ (if ?b then _ else _) => destruct b end;
    unfold proposeSpecification, approveSpecification, proposeTaskGraph, approveTaskGraph, submitRun,
      publicationRequest, cancelRun; walk.
  by apply within_approveRun.
Qed.

Lemma within_retry taskID :
  within (retryTask print_rune s (IfMatch request) principal key body taskID).
Proof.
  unfold retryTask. destruct (hasRole principal RoleOperator) eqn:Ho; walk.
Qed.

End one_run.

Lemma within_mutation body : within (applyMutation print_rune s x request principal (IdempotencyKey request) body).
Proof.
  assert (Hrun : forall runID suffix,
    within (mutateRun print_rune s x (IfMatch request) principal (IdempotencyKey request) body runID suffix)).
  { intros runID suffix. unfold mutateRun. apply all_calls_and_then; [by apply all_calls_ask|].
    intros run. destruct (requiredRevision (IfMatch request)) as [expected|] eqn:E; [|done].
    destruct (expected =? Run_Revision run) eqn:Er; [|done]. apply Z.eqb_eq in Er as ->.
    by apply within_run_mutation. }
  unfold applyMutation. walk; auto using within_retry.
Qed.

Lemma permitted_handle_mutation : all_calls permitted (handleMutation print_rune s x request principal).
Proof.
  unfold handleMutation, handleRunIntake, reserved_mutation, settle_mutation, abandonMutation,
    completeMutation. walk.
  all: try by apply negb_false_iff.
  apply within_permitted, within_mutation.
Qed.

Lemma within_get : within (handleGet request).
Proof. unfold handleGet, writeSupportBundle, run_view. walk. Qed.

Lemma permitted_routes c : all_calls permitted (routeAuthenticated print_rune s x c request principal).
Proof.
  unfold routeAuthenticated, requireMethod. walk; auto using permitted_handle_mutation, within_permitted, within_get.
Qed.

End principal.

(** Whoever is behind a call: nobody for the readiness of the process, or the
    principal whose token the request bears. *)
Definition authorized (X : Type) (c : service X) : Prop :=
  match c with
  | CallReady => True
  | _ => exists principal, authenticate s request = Some principal /\ permitted principal X c
  end.

Lemma permitted_authorized principal {A} (p : handler A) :
  authenticate s request = Some principal -> all_calls (permitted principal) p -> all_calls authorized p.
Proof. intros Hp. apply all_calls_mono. intros X []; cbn; try done; eauto. Qed.

Lemma authorized_server c : all_calls authorized (serveHTTP print_rune s x c request).
Proof.
  unfold serveHTTP, servePublicEndpoint, requireMethod.
  destruct (Rq_Path request == "/healthz"). { by destruct (Rq_Method request == "GET"). }
  destruct (Rq_Path request == "/readyz").
  { destruct (Rq_Method request == "GET"), (Has_Ready (Server_Config s)); [|done..].
    apply all_calls_bind; [by apply all_calls_ask|]. by intros []. }
  destruct (authenticate s request) as [principal|] eqn:E; [|done].
  eapply permitted_authorized; [done|]. apply permitted_routes.
Qed.

End authority.

(** C17: The control API acts for the principal whose token a request bears, and
    within its roles.  Whatever the services answer, every call of every
    execution of a request is one that is permitted: decisions (on
    specification, task graph, run) are sent by an approver as the human that
    the principal is, proposals, cancellation, retries, intake and publication
    only for an operator, evidence of the run only under an approval, each as
    the service it concerns; a task is approved with roles the principal has;
    the identifier of a command is derived from the idempotency key and its
    step, so that a request that is sent again sends the same commands; and a
    command on a run that the client has seen expects the revision of its
    If-Match header. *)
Theorem api_within_authority `{Platform} `{Protobuf} `{Wire} (print_rune : string -> bool) (s : Server)
    (x : request_surroundings) (c : counters) (request : http_request) (history : list (event (service := service)))
    (response : http_response) :
  exec (serveHTTP print_rune s x c request) history response ->
  Forall (allowed_event (authorized s request)) history.
Proof. apply all_calls_exec, authorized_server. Qed.

(** ** The reservation is settled *)

Section settlement.
Context `{Platform} `{Protobuf} `{Wire}.

(** What a mutation that ended with [r] answers. *)
Definition mutation_outcome (r : res (Z * mutation_answer)) : Z * json :=
  match r with Ok (status, answer) => (status, answer_json answer) | Err e => domainError e end.

(** Only an error of the server itself frees the key. *)
Definition frees_key (r : res (Z * mutation_answer)) : bool :=
  match r with Ok _ => false | Err e => 500 <=? fst (domainError e) end.

(** The last call of a mutation, with its answer. *)
Definition settlement (key : string) (fence : Z) (r : res (Z * mutation_answer)) (answer : res unit)
    : event :=
  let '(status, body) := mutation_outcome r in
  if frees_key r then called _ (CallAbandonIdempotency key fence) answer
  else called _ (CallCompleteIdempotency key fence status body) answer.

(** The client sees the outcome only when that call succeeded. *)
Definition settled_response (r : res (Z * mutation_answer)) (answer : res unit) : http_response :=
  match answer with
  | Ok _ => writeRawJSON (fst (mutation_outcome r)) (snd (mutation_outcome r))
  | Err e => writeDomainError e
  end.

Definition replayed (reservation : IdempotencyResult) : http_response :=
  mkHttpResponse (StatusCode reservation) None None true (BodyJson (default JNull (Response reservation))).

(** Calls that leave reservations alone. *)
Definition reserves_nothing (X : Type) (c : service X) : Prop :=
  match c with
  | CallBeginIdempotency _ | CallCompleteIdempotency _ _ _ _ | CallAbandonIdempotency _ _
  | CallRenewIdempotency _ _ _ | CallAccept _ => False
  | _ => True
  end.

Lemma exec_settle key fence r history response :
  exec (settle_mutation key fence r) history response ->
  exists answer, history = [settlement key fence r answer] /\ response = settled_response r answer.
Proof.
  unfold settle_mutation, settlement, frees_key, settled_response, mutation_outcome.
  destruct r as [[status a]|e]; [|destruct (domainError e) as [status body]; cbn;
    destruct (500 <=? status)].
  all: intros (answer & rest & -> & He); exists answer; destruct answer; destruct He as [-> ->]; done.
Qed.

Lemma reserves_nothing_mutation print_rune s x request principal body :
  all_calls reserves_nothing
    (applyMutation print_rune s x request principal (IdempotencyKey request) body).
Proof. eapply all_calls_mono; [|apply within_mutation]. by intros X []. Qed.

End settlement.

(** C18: A mutation other than the intake of a run is answered once per key.  Every execution of it
    begins with the reservation of its key and does nothing else when that is refused or when the
    key has been answered, whose answer it repeats.  Otherwise its own calls are its work, none of
    which is a call on reservations, and at their end the one that records its outcome under the
    fencing token of the reservation, or that frees the key when the outcome is an error of the
    server (and only then); the client sees the outcome only if that succeeded.  In between, the
    goroutine beside it renews the reservation at times that are arbitrary: these renewals are of
    this key, under this token and for the duration that was reserved, and none comes after one that
    failed.  (The intake, POST /v1/runs, hands its key to the coordinator instead, in one call.) *)
Theorem mutation_settles_reservation `{Platform} `{Protobuf} `{Wire} (print_rune : string -> bool)
    (s : Server) (x : request_surroundings) (request : http_request) (principal : ApiPrincipal)
    (body : mutationBody) (idem : IdempotencyRequest) (history : list event) (response : http_response) :
  Key idem = IdempotencyKey request ->
  exec (reserved_mutation print_rune s x request principal body idem) history response ->
  exists begun rest, history = called _ (CallBeginIdempotency idem) begun :: rest /\
    match begun with
    | Err e => rest = [] /\ response = writeDomainError e
    | Ok reservation =>
        let fence := Idem_FencingToken reservation in
        if Idem_Replay reservation then rest = [] /\ response = replayed reservation
        else exists work r answer,
          exec (applyMutation print_rune s x request principal (Key idem) body) work r /\
          Forall (allowed_event reserves_nothing) work /\
          interspersed (CallRenewIdempotency (Key idem) fence (ReservationTTL idem)) true
            (work ++ [settlement (Key idem) fence r answer]) rest /\
          response = settled_response r answer
    end.
Proof.
  intros Hkey (begun & rest & -> & He). exists begun, rest. split; [done|].
  destruct begun as [reservation|e]; [|done]. cbn in He |- *.
  destruct (Idem_Replay reservation); [done|].
  apply exec_beside in He as (own & He & Hi).
  apply exec_bind in He as (work & r & settle & -> & Hw & Hs).
  apply exec_settle in Hs as (answer & -> & ->). exists work, r, answer.
  split; [done|]. split; [|done].
  eapply all_calls_exec; [|done]. rewrite Hkey. apply reserves_nothing_mutation.
Qed.

(** ** What the handlers ask, the components accept *)

(** The configuration that [Server_New] accepts. *)
Record server_ok `{Platform} (s : Server) : Prop := {
  ok_service : uuid_Parse_ok (service_actor s) = true;
  ok_principals : Forall (fun p => uuid_Parse_ok (Api_ID (Digest_Principal p)) = true) (Server_Principals s);
  ok_attempts : 2 <= TaskMaxAttempts (Server_Config s) <= 10;
}.

Section configured.
Context `{Platform}.

Lemma compiled_principals seen values principals :
  compilePrincipals_loop seen values = Ok principals ->
  Forall (fun p => uuid_Parse_ok (Api_ID (Digest_Principal p)) = true) principals.
Proof.
  revert seen principals. induction values as [|v values IH]; intros seen principals; cbn.
  { intros [= <-]. constructor. }
  destruct (uuid_Parse_ok (Api_ID v)) eqn:Ev; [cbn|discriminate].
  destruct (bool_decide _); [discriminate|].
  destruct (decode_digest _) as [digest|], (Api_Roles v) eqn:Er; try discriminate.
  intros (? & _ & (rest & Hrest & [= <-])%res_bind_Ok)%res_bind_Ok.
  constructor; [done|]. by eapply IH.
Qed.

Lemma Server_New_ok config dependencies publication s :
  Server_New config dependencies publication = Ok s -> server_ok s.
Proof.
  unfold Server_New, prepareServerConfig, normalizeServerConfig.
  destruct (uuid_Parse_ok (ServiceActorID config)) eqn:Eu; [cbn [negb]|discriminate].
  set (attempts := if TaskMaxAttempts config =? 0 then _ else _).
  destruct ((attempts <? 2) || (10 <? attempts)) eqn:Ea; [discriminate|].
  apply orb_false_iff in Ea as [?%Z.ltb_ge ?%Z.ltb_ge].
  intros ([[c ps] checks] & Hp & ([] & _ & [= <-])%res_bind_Ok)%res_bind_Ok.
  apply res_bind_Ok in Hp as (c' & [= <-] & Hp).
  apply res_bind_Ok in Hp as (ps' & Hps & Hp).
  destruct (length ps' =? 0)%nat; [discriminate|].
  apply res_bind_Ok in Hp as (checks' & _ & Hp). apply res_bind_Ok in Hp as ([] & _ & Hp).
  destruct (bool_decide _); [discriminate|]. injection Hp as <- <- <-.
  split; [done| |done]. by eapply compiled_principals.
Qed.

Lemma authenticate_principal s request principal :
  authenticate s request = Some principal -> principal ∈ map Digest_Principal (Server_Principals s).
Proof.
  unfold authenticate. destruct (_ || _); [discriminate|]. generalize (sha256_hex (TrimPrefix (Authorization request) "Bearer ")).
  intros sum. induction (Server_Principals s) as [|p l IH] using rev_ind; [done|].
  rewrite foldl_app, map_app, elem_of_app. cbn. destruct (Token_Digest p == sum); [|auto].
  intros [= <-]. right. set_solver.
Qed.

End configured.

Section components.
Context `{PlatformLaws} `{Protobuf} `{Wire}.
Variable print_rune : string -> bool.
Variable s : Server.
Variable x : request_surroundings.
Variable request : http_request.

(** A command that the workflow can take: its envelope is valid, and its actor
    is one that may send it. *)
Definition command_accepted (meta : option CommandEnvelope) (actor_ok : ActorKind -> bool) : Prop :=
  exists m, meta = Some m /\ CommandEnvelope_Validate m = Ok tt /\
    actor_ok (Actor_Kind (Envelope_Actor m)) = true.

(** The cancellation is looked at below. *)
Definition is_cancellation (command : RunCommand) : bool :=
  match command with CancelRun _ _ _ => true | _ => false end.

Definition accepted (X : Type) (c : service X) : Prop :=
  match c with
  | CallExecuteRun command =>
      command_accepted (RunCommand_Envelope command)
        (fun kind => is_cancellation command || run_actor_allowed command kind)
  | CallExecuteTask command => command_accepted (TaskCommand_Envelope command) (task_actor_allowed command)
  | CallBeginIdempotency idem => uuid_Parse_ok (Key idem) = true
  | CallAccept intake =>
      command_accepted (RunCommand_Envelope (Intake_Command intake)) (run_actor_allowed (Intake_Command intake)) /\
      validateRunIntakeRequest intake = if Rq_RequestURI request == "/v1/runs" then Ok tt else Err ErrConflict
  | CallApproveTaskGraph approval =>
      command_accepted (RunCommand_Envelope (TGA_Command approval)) (run_actor_allowed (TGA_Command approval)) /\
      validateTaskGraphApproval print_rune approval = Ok tt
  | CallApproveTask approval => authorize (Request_Principal approval) false "approve" = Ok tt
  | _ => True
  end.

Lemma envelope_valid command actor kind revision at_ :
  uuid_Parse_ok command = true -> uuid_Parse_ok actor = true -> IsZero at_ = false ->
  match kind with ActorOther _ => false | _ => true end = true ->
  CommandEnvelope_Validate (envelope command actor kind revision at_) = Ok tt.
Proof.
  intros Hc Ha Ht Hk. apply CommandEnvelope_Validate_Ok. cbn. rewrite IsZero_UTC.
  repeat split; try done. unfold Actor_Validate, validateID. cbn. rewrite Ha. by destruct kind.
Qed.

Lemma step_valid key step actor kind revision at_ :
  uuid_Parse_ok actor = true -> IsZero at_ = false ->
  match kind with ActorOther _ => false | _ => true end = true ->
  CommandEnvelope_Validate (envelope (stableStepID key step) actor kind revision at_) = Ok tt.
Proof. intros Ha Ht Hk. apply envelope_valid; try done. apply uuid_NewSHA1_text. Qed.

(** The coordinator takes every approval of a task graph that is asked of it. *)
Lemma graph_approval_valid principal key at_ run graph taskRef taskID :
  validateTaskGraphApproval print_rune
    (graph_approval print_rune s principal key at_ run graph taskRef taskID) = Ok tt.
Proof.
  unfold validateTaskGraphApproval, graph_approval, start_job. change (decimal 1) with "1". cbn.
  rewrite (proj2 (ArtifactRef_Equal_eq graph graph) eq_refl).
  rewrite !bool_decide_eq_true_2 by done. cbn. rewrite bool_decide_eq_false_2 by auto. by rewrite bool_decide_eq_true_2.
Qed.

Section one_request.
Variable principal : ApiPrincipal.
Hypothesis Hs : server_ok s.
Hypothesis Hprincipal : uuid_Parse_ok (Api_ID principal) = true.

Ltac sent :=
  eexists; split; [reflexivity|]; split; [apply step_valid; try done; apply Hs|done].

Ltac walk := walk_with ltac:(cbn [accepted])
  ltac:(first [assumption | sent | split; [sent|apply graph_approval_valid]]).

Lemma accepted_approve_run key body run :
  IsZero (DecisionTime body) = false -> hasApprovalRole principal false = true ->
  all_calls accepted (approveRun s x principal key (DecisionTime body) run).
Proof.
  intros Ht Ha. unfold approveRun, approve_bound, approve_aggregate, aggregate_steps, aggregate_step.
  cbn [steps_in_order]. walk.
  unfold authorize, approval_roles. cbn [Request_Principal approval_request Roles]. revert Ha. unfold approval_roles, hasApprovalRole.
  by destruct (hasRole principal RoleApprover), (hasRole principal RoleElevatedApprover).
Qed.

Lemma accepted_run_mutation key suffix body run :
  IsZero (DecisionTime body) = false ->
  all_calls accepted (applyRunMutation print_rune s x principal key suffix body run).
Proof.
  intros Ht. unfold applyRunMutation.
  repeat match goal with |- all_calls _ (if ?b then _ else _) => destruct b end;
    unfold proposeSpecification, approveSpecification, proposeTaskGraph, approveTaskGraph, submitRun,
      publicationRequest, cancelRun; walk.
  by apply accepted_approve_run.
Qed.

Lemma accepted_mutation body :
  uuid_Parse_ok (IdempotencyKey request) = true ->
  all_calls accepted (applyMutation print_rune s x request principal (IdempotencyKey request) body).
Proof.
  intros Hkey. unfold applyMutation. destruct (IsZero (DecisionTime body)) eqn:Ht; [done|].
  unfold mutateRun, retryTask. walk; try (by apply accepted_run_mutation).
  all: eexists; split; [reflexivity|]; split; [apply envelope_valid; try done; apply Hs|done].
Qed.

(** An intake is refused before anything is stored when the target has a query. *)
Lemma intake_valid body digest ttl :
  Rq_Method request = "POST" -> uuid_Parse_ok (IdempotencyKey request) = true ->
  all_calls accepted (handleRunIntake principal body
    (mkIdemRequest (IdempotencyKey request) (Rq_Method request) (Rq_RequestURI request) (Api_ID principal)
       digest ttl)).
Proof.
  intros Hm Hkey. unfold handleRunIntake. destruct (hasRole _ _); [cbn [negb]|done].
  destruct (IsZero (DecisionTime body)) eqn:Ht; [done|]. walk. split.
  { eexists. split; [reflexivity|]. split; [by apply envelope_valid|done]. }
  unfold validateRunIntakeRequest. cbn. rewrite Hm. destruct (Rq_RequestURI request == "/v1/runs"); [cbn|done].
  rewrite !bool_decide_eq_true_2 by done. cbn.
  rewrite bool_decide_eq_false_2 by auto. by apply envelope_valid.
Qed.

Lemma accepted_handle_mutation :
  Rq_Method request = "POST" -> all_calls accepted (handleMutation print_rune s x request principal).
Proof.
  intros Hm. unfold handleMutation. destruct (uuid_Parse_ok (IdempotencyKey request)) eqn:Hkey; [cbn [negb]|done].
  destruct (decodeStrict s x request) as [[raw body]|e]; [|done].
  destruct (Rq_Path request == "/v1/runs"); [by apply intake_valid|].
  unfold reserved_mutation, settle_mutation, abandonMutation, completeMutation. walk.
  by apply accepted_mutation.
Qed.

Lemma accepted_routes c : all_calls accepted (routeAuthenticated print_rune s x c request principal).
Proof.
  unfold routeAuthenticated, requireMethod. destruct (Rq_Path request == "/metrics"); [by destruct (_ == _)|].
  destruct (isMutationRoute (Rq_Path request)).
  - destruct (Rq_Method request == "POST") eqn:Em; [|done].
    apply accepted_handle_mutation. by apply bool_decide_eq_true in Em.
  - destruct (Rq_Method request == "GET"); [|done].
    unfold handleGet, writeSupportBundle, run_view. walk.
Qed.

End one_request.

Lemma accepted_server c :
  server_ok s -> all_calls accepted (serveHTTP print_rune s x c request).
Proof.
  intros Hs. unfold serveHTTP, servePublicEndpoint, requireMethod.
  destruct (Rq_Path request == "/healthz"). { by destruct (_ == _). }
  destruct (Rq_Path request == "/readyz").
  { destruct (Rq_Method request == "GET"), (Has_Ready (Server_Config s)); [|done..].
    apply all_calls_bind; [by apply all_calls_ask|]. by intros []. }
  destruct (authenticate s request) as [principal|] eqn:E; [|done].
  apply accepted_routes; [done|].
  apply authenticate_principal, list_elem_of_fmap in E as (p & -> & Hp).
  pose proof (ok_principals _ Hs) as Hps. rewrite Forall_forall in Hps. by apply Hps.
Qed.

End components.

(** C19: What the control API asks, the components behind it can take.  For a server with an
    accepted configuration, in every execution of a request: every command that is sent, by itself
    or within the approval of a task graph or the intake of a run, has a valid envelope, and its
    actor is one from which the workflow takes it (the cancellation excepted); the coordinator of
    task graphs finds every approval well formed ([validateTaskGraphApproval]); the approval service
    accepts the principal of a task approval for a change without elevated risk; and the coordinator
    of intakes finds the request of every intake well formed ([validateRunIntakeRequest]) when its
    target is the plain path, and answers any other with a conflict.  That is the validation of the
    request only: what the coordinator finds in its tables afterwards may still be a conflict, as it
    always is for a principal whose identifier is configured in another form than the canonical one. *)
Theorem components_accept_requests `{PlatformLaws} `{Protobuf} `{Wire} (print_rune : string -> bool)
    (config : ServerConfig) (dependencies : list (string * bool)) (publication : bool) (s : Server)
    (x : request_surroundings) (c : counters) (request : http_request)
    (history : list (event (service := service))) (response : http_response) :
  Server_New config dependencies publication = Ok s ->
  exec (serveHTTP print_rune s x c request) history response ->
  Forall (allowed_event (accepted print_rune request)) history.
Proof. intros Hs%Server_New_ok. by apply all_calls_exec, accepted_server. Qed.

(** ** The cancellation of a run *)

(** A command that the workflow answered with a result was a step of some run. *)
Definition workflow_answered `{Platform} (e : event (service := service)) : Prop :=
  match ev_call e in service X return X -> Prop with
  | CallExecuteRun command => fun answer =>
      forall result, answer = Ok result -> exists r r' events, run_step r command = Ok (r', events)
  | _ => fun _ => True
  end (ev_answer e).

Lemma cancellation_by_service_refused `{Platform} s key at_ r reason revision id r' events :
  run_step r (CancelRun (serviceMeta s key at_ "cancel-run" revision) id reason) <> Ok (r', events).
Proof.
  intros (m & tr & rest & [= <-] & _ & _ & _ & _ & _ & _ & _ & [[Ht _]|(_ & Hk & _)])%run_step_Ok; [|done].
  eapply transition_actor in Ht; [|reflexivity]. by apply bool_decide_eq_true in Ht.
Qed.

(** C21: A run is never cancelled through the control API.  The route sends the
    command as the workflow service, and the workflow takes it only from a
    human: whatever the state of the run and whoever asks, no execution of the
    route with a workflow that answers like the state machine succeeds, and
    the jobs of the run are not cancelled. *)
Theorem cancel_route_never_cancels `{Platform} `{Protobuf} `{Wire} (print_rune : string -> bool)
    (s : Server) (x : request_surroundings) (if_match key runID : string) (principal : ApiPrincipal)
    (body : mutationBody) (history : list event) (r : res (Z * mutation_answer)) :
  exec (mutateRun print_rune s x if_match principal key body runID "/cancel") history r ->
  Forall workflow_answered history ->
  (exists e, r = Err e) /\
  Forall (fun e => match ev_call e with CallCancelRunJobs _ _ => False | _ => True end) history.
Proof.
  intros He Hw. unfold mutateRun in He.
  apply exec_and_then in He as [(e & He & ->)|(first & run & rest & -> & Hg & He)].
  { split; [by eexists|]. destruct He as (? & ? & -> & -> & _). by repeat constructor. }
  destruct Hg as (? & ? & -> & -> & _).
  destruct (requiredRevision if_match) as [expected|]; [|].
  2:{ destruct He as [-> ->]. split; [by eexists|]. by repeat constructor. }
  destruct (expected =? Run_Revision run).
  2:{ destruct He as [-> ->]. split; [by eexists|]. by repeat constructor. }
  change (exec (with_role (hasRole principal RoleOperator) (cancelRun s key body run)) rest r) in He.
  destruct (hasRole principal RoleOperator).
  2:{ destruct He as [-> ->]. split; [by eexists|]. by repeat constructor. }
  destruct He as (answer & rest' & -> & He).
  apply Forall_app in Hw as [_ [Ha _]%Forall_cons].
  destruct answer as [result|e].
  - exfalso. destruct (Ha result eq_refl) as (cur & cur' & events & Hstep).
    by apply cancellation_by_service_refused in Hstep.
  - destruct He as [-> ->]. split; [by eexists|]. by repeat constructor.
Qed.

(** ** Revisions and entity tags *)

Lemma digit_char d :
  (d < 10)%N -> is_digit (pretty.pretty_N_char d) = true /\ byte_of (pretty.pretty_N_char d) - 48 = Z.of_N d.
Proof.
  intros Hd. assert (Hin : d ∈ [0;1;2;3;4;5;6;7;8;9]%N) by (rewrite !elem_of_cons; lia).
  clear Hd. revert d Hin. apply Forall_forall. repeat constructor.
Qed.

Lemma digits_value_pretty x s :
  exists k, 0 <= k /\ forall acc, digits_from acc (pretty.pretty_N_go x s) = digits_from (acc * k + Z.of_N x) s.
Proof.
  revert s. induction (N.lt_wf_0 x) as [x _ IH]; intros s.
  destruct (decide (0 < x)%N) as [Hx|Hx].
  - rewrite pretty.pretty_N_go_step by done.
    destruct (IH (x / 10)%N ltac:(apply N.div_lt; lia) (String (pretty.pretty_N_char (x `mod` 10)) s))
      as (k & Hk & Hgo).
    exists (k * 10). split; [lia|]. intros acc. rewrite Hgo. cbn [digits_from].
    destruct (digit_char (x `mod` 10)%N) as [-> ->]; [by apply N.mod_lt|].
    f_equal. rewrite N2Z.inj_div, N2Z.inj_mod.
    pose proof (Z.div_mod (Z.of_N x) 10 ltac:(lia)). change (Z.of_N 10) with 10. lia.
  - assert (x = 0%N) as -> by lia. exists 1. split; [lia|]. intros acc.
    rewrite pretty.pretty_N_go_0. f_equal. lia.
Qed.

Lemma ParseUint_decimal n : 0 <= n < 2 ^ 64 -> ParseUint (decimal n) = Some n.
Proof.
  intros Hn. assert (Hv : digits_from 0 (decimal n) = Some n /\ decimal n <> "").
  { destruct n as [|p|p]; [done| |lia]. change (decimal (Z.pos p)) with (pretty.pretty (N.pos p)).
    unfold pretty.pretty, pretty.pretty_N. destruct (decide _); [done|].
    destruct (digits_value_pretty (N.pos p) "") as (k & _ & Hgo). split; [by rewrite Hgo|].
    intros E. rewrite E in Hgo. specialize (Hgo 0). done. }
  destruct Hv as [Hv Hne]. unfold ParseUint. destruct (decimal n) as [|c t]; [done|].
  rewrite Hv. by rewrite (proj2 (Z.ltb_lt _ _) (proj2 Hn)).
Qed.

Lemma unquoted_text t : t <> "" -> unquoted (String quote (t +:+ String quote "")) = Some t.
Proof.
  intros Ht. unfold unquoted. rewrite string_length_app. cbn [String.length].
  replace (String.length t + 1 - 1)%nat with (String.length t) by lia.
  rewrite str_drop_app, str_take_app, !bool_decide_eq_true_2 by done.
  destruct t as [|c t]; [done|]. cbn [String.length andb].
  by rewrite (proj2 (Nat.leb_le _ _)) by lia.
Qed.

(** The entity tag of a run is the one that a mutation of it must bear:
    what [requiredRevision] reads of the tag of a revision is that revision,
    for every revision of 64 bits. *)
Theorem revision_round_trip (revision : Z) :
  0 <= revision < 2 ^ 64 -> requiredRevision (revisionETag revision) = Some revision.
Proof.
  intros Hr. unfold requiredRevision, revisionETag. rewrite unquoted_text; [by apply ParseUint_decimal|].
  intros E. pose proof (ParseUint_decimal _ Hr) as Hp. by rewrite E in Hp.
Qed.
