(* ===== verification/CaApproval.v ===== *)
(** * The approval of a run reaches MERGE_READY

    The last part of [approveRun] of [go/internal/controlapi/server.go] makes
    the evidence of the task that of the run, a command per state, and then
    approves the run.  Its steps are meant to be repeated after a failure: from
    each of the states it passes through, it ends with the run approved. *)

From S2P Require Import Prelude GoStd PgRetry Programs WfTypes WfTask WfPlan WfRun WfRunProps WfDb WfStore WfCodec.
From S2P Require Import CtMessages Approval CaServer CaServerProps.

(** ** What the approval relies on

    The workflow as the state machine of one run, beside anything else. *)

Class RunServices `{Platform} {W} (serve : forall X, service X -> W -> X * W) (run_of : W -> Run) : Prop := {
  serves_command : forall command w r' events,
    run_step (run_of w) command = Ok (r', events) ->
    exists result w', serve _ (CallExecuteRun command) w = (Ok result, w') /\ run_of w' = r';
  serves_run : forall w,
    exists w', serve _ (CallGetRun (Run_ID (run_of w))) w = (Ok (run_of w), w') /\ run_of w' = run_of w;
}.

Section approval.
Context `{PlatformLaws} `{Protobuf} `{Wire}.
Context {W : Type} (serve : forall X, service X -> W -> X * W) (run_of : W -> Run).
Context `{!RunServices serve run_of}.

(** ** One command *)

Definition is_completion (c : RunCommand) : bool :=
  match c with
  | RecordRunExecution _ _ _ _ | RecordRunVerification _ _ _ _ | RecordRunReview _ _ _ _
  | ApproveRun _ _ _ _ _ => true
  | _ => false
  end.

Lemma completion_step r c m tr :
  is_completion c = true -> valid_run r -> RunState_Terminal (Run_State r) = false ->
  RunCommand_Envelope c = Some m -> RunCommand_RunID c = Run_ID r ->
  CommandEnvelope_Validate m = Ok tt -> ExpectedRevision m = Run_Revision r ->
  completion r c = Ok tr ->
  run_step r c = Ok (finishRunTransition tr m).
Proof.
  intros Hc Hr Ht He Hid Hm Hrev Htr.
  assert (Hv : Run_validateCommand r c = Ok tt).
  { unfold Run_validateCommand, validateRunCommand. rewrite He, Hid, Hm, (proj2 (Run_Validate_Ok r) Hr).
    cbn. rewrite (proj2 (validateID_Ok _ _ tt) (vr_id _ Hr)). cbn. rewrite !bool_decide_eq_true_2 by done.
    cbn. by rewrite Ht. }
  destruct c; try done; cbn [run_step]; unfold Run_Apply, applyCompletion, finish;
    rewrite Hv; cbn [mbind res_bind]; rewrite Htr; cbn in He |- *; by injection He as ->.
Qed.

(** The command is sent, and the run is read again. *)
Lemma command_then_run w c m tr :
  is_completion c = true -> valid_run (run_of w) -> RunState_Terminal (Run_State (run_of w)) = false ->
  RunCommand_Envelope c = Some m -> RunCommand_RunID c = Run_ID (run_of w) ->
  CommandEnvelope_Validate m = Ok tt -> ExpectedRevision m = Run_Revision (run_of w) ->
  completion (run_of w) c = Ok tr -> Run_ID (run_next tr) = Run_ID (run_of w) ->
  exists w', run_prog serve (do! ask (CallExecuteRun c) in ask (CallGetRun (Run_ID (run_of w)))) w =
      (Ok (run_of w'), w') /\ run_of w' = fst (finishRunTransition tr m).
Proof.
  intros Hc Hr Ht He Hid Hm Hrev Htr Hsame.
  pose proof (completion_step _ _ _ _ Hc Hr Ht He Hid Hm Hrev Htr) as Hstep.
  destruct (finishRunTransition tr m) as [r' events] eqn:E.
  destruct (serves_command c w r' events Hstep) as (result & w1 & Hw1 & Hr').
  destruct (serves_run w1) as (w2 & Hw2 & Hr2).
  exists w2. erewrite run_and_then; [|rewrite run_ask; exact Hw1]. rewrite run_ask.
  assert (Hi : Run_ID (run_of w1) = Run_ID (run_of w)) by (rewrite Hr', <- Hsame; by injection E as <- _).
  rewrite <- Hi, Hw2, Hr2. by rewrite Hr'.
Qed.

(** ** The states of the approval *)

Variables (s : Server) (principal : ApiPrincipal) (key : string) (at_ : time) (evidence : task_evidence).
Variable approval : ApprovalResult.
Hypothesis service_uuid : uuid_Parse_ok (service_actor s) = true.
Hypothesis principal_uuid : uuid_Parse_ok (Api_ID principal) = true.
Hypothesis decided : IsZero at_ = false.
Hypothesis execution_ok : ArtifactRef_Validate (Evidence_Execution evidence) = Ok tt.
Hypothesis verification_ok : ArtifactRef_Validate (Evidence_Verification evidence) = Ok tt.
Hypothesis review_ok : ArtifactRef_Validate (Evidence_Review evidence) = Ok tt.
Hypothesis candidate_ok : commitPattern (Evidence_Candidate evidence) = true.
Hypothesis approval_ok : ArtifactRef_Validate (ApprovalArtifact approval) = Ok tt.

(** A run in one of the states, with what the steps before it have bound. *)
Record resumable (st : RunState) (bound : Z) (r : Run) : Prop := {
  res_valid : valid_run r;
  res_state : Run_State r = st;
  res_revision : 1 <= Run_Revision r <= bound;
  res_commit : st <> RunStateExecuting -> Run_CandidateCommit r = Evidence_Candidate evidence;
  res_review : st = RunStateAwaitingApproval -> is_Some (Run_Review r);
}.

Lemma resumable_next r c m tr st bound :
  bound < max_i64 -> resumable (Run_State r) bound r ->
  run_step r c = Ok (finishRunTransition tr m) -> Run_Revision (run_next tr) = Run_Revision r ->
  Run_State (run_next tr) = st -> Run_CandidateCommit (run_next tr) = Evidence_Candidate evidence ->
  (st = RunStateAwaitingApproval -> is_Some (Run_Review (run_next tr))) ->
  resumable st (bound + 1) (fst (finishRunTransition tr m)).
Proof.
  intros Hb [Hv _ Hrev _ _] Hstep Hn Hst Hc Hrw. split; try done.
  - destruct (finishRunTransition tr m) as [r' events]. eapply run_step_valid; [|done]. unfold max_i64 in *. lia.
  - cbn. rewrite Hn, u64_id; unfold max_i64 in *; lia.
Qed.

Lemma aggregate_forward st st' bound w make m tr :
  let r := run_of w in
  resumable st bound r -> bound < max_i64 -> RunState_Terminal st = false ->
  is_completion (make r) = true -> RunCommand_Envelope (make r) = Some m ->
  RunCommand_RunID (make r) = Run_ID r -> CommandEnvelope_Validate m = Ok tt ->
  ExpectedRevision m = Run_Revision r -> completion r (make r) = Ok tr ->
  Run_State (run_next tr) = st' -> Run_CandidateCommit (run_next tr) = Evidence_Candidate evidence ->
  (st' = RunStateAwaitingApproval -> is_Some (Run_Review (run_next tr))) ->
  exists w', run_prog serve (aggregate_step r (st, make)) w = (Ok (run_of w'), w') /\
    resumable st' (bound + 1) (run_of w').
Proof.
  intros r Hr Hb Ht Hc He Hid Hm Hrev Htr Hst Hcommit Hreview.
  assert (Hframe : transition_of r (make r) = Ok tr) by (by destruct (make r)).
  apply transition_frame in Hframe as (Hsame & Hkept & _).
  pose proof (res_state _ _ _ Hr) as Es. rewrite <- Es in Ht.
  destruct (command_then_run w (make r) m tr Hc (res_valid _ _ _ Hr) Ht He Hid Hm Hrev Htr Hsame)
    as (w' & Hw' & Hr').
  exists w'. split.
  - unfold aggregate_step. cbn [fst snd]. rewrite bool_decide_eq_true_2 by done. exact Hw'.
  - rewrite Hr'. apply (resumable_next r (make r)); try done; [by rewrite Es|].
    by apply (completion_step r); try apply (res_valid _ _ _ Hr).
Qed.

Lemma aggregate_skip st st' bound w make :
  resumable st bound (run_of w) -> st <> st' ->
  run_prog serve (aggregate_step (run_of w) (st', make)) w = (Ok (run_of w), w).
Proof.
  intros Hr Hne. unfold aggregate_step. rewrite bool_decide_eq_false_2; [done|].
  cbn. by rewrite (res_state _ _ _ Hr).
Qed.

Lemma resumable_later st bound bound' r : bound <= bound' -> resumable st bound r -> resumable st bound' r.
Proof. intros Hb []. split; try done. lia. Qed.

(** The three steps: each takes its state to the next one. *)
Definition step_done (st st' : RunState) (make : Run -> RunCommand) : Prop :=
  forall bound w, resumable st bound (run_of w) -> bound < max_i64 ->
    exists w', run_prog serve (aggregate_step (run_of w) (st, make)) w = (Ok (run_of w'), w') /\
      resumable st' (bound + 1) (run_of w').

Ltac forward completes :=
  let Hr := fresh in intros bound w Hr Hb; pose proof (res_state _ _ _ Hr) as Es;
  eapply aggregate_forward;
    [exact Hr|exact Hb|done|done|reflexivity|reflexivity|by apply step_valid|reflexivity
    |cbn [completion]; completes Hr Es|done|cbn; try done; by apply (res_commit _ _ _ Hr)|cbn; done].

Lemma execution_step :
  step_done RunStateExecuting RunStateVerifying (fun run =>
    RecordRunExecution (envelope (stableStepID key "aggregate-execution") (service_actor s)
      ActorExecutionService (Run_Revision run) at_) (Run_ID run) (Evidence_Execution evidence)
      (Evidence_Candidate evidence)).
Proof.
  forward ltac:(fun Hr Es => unfold Run_recordExecution; rewrite Es, execution_ok, candidate_ok; reflexivity).
Qed.

Lemma verification_step :
  step_done RunStateVerifying RunStateReviewing (fun run =>
    RecordRunVerification (envelope (stableStepID key "aggregate-verification") (service_actor s)
      ActorVerificationService (Run_Revision run) at_) (Run_ID run) (Evidence_Candidate evidence)
      (Evidence_Verification evidence)).
Proof.
  forward ltac:(fun Hr Es => unfold Run_recordVerification;
    rewrite Es, (res_commit _ _ _ Hr) by done;
    rewrite verification_ok, !bool_decide_eq_true_2 by done; reflexivity).
Qed.

Lemma review_step :
  step_done RunStateReviewing RunStateAwaitingApproval (fun run =>
    RecordRunReview (envelope (stableStepID key "aggregate-review") (service_actor s)
      ActorReviewService (Run_Revision run) at_) (Run_ID run) (Evidence_Candidate evidence)
      (Evidence_Review evidence)).
Proof.
  forward ltac:(fun Hr Es => unfold Run_recordReview;
    rewrite Es, (res_commit _ _ _ Hr) by done;
    rewrite review_ok, !bool_decide_eq_true_2 by done; reflexivity).
Qed.

(** A step that is due is taken, one that is not is passed over. *)
Lemma next_step st st' st0 make rest bound w :
  step_done st st' make -> resumable st0 bound (run_of w) -> bound < max_i64 ->
  exists w', run_prog serve (steps_in_order aggregate_step (run_of w) ((st, make) :: rest)) w =
      run_prog serve (steps_in_order aggregate_step (run_of w') rest) w' /\
    resumable (if decide (st0 = st) then st' else st0) (bound + 1) (run_of w').
Proof.
  intros Hstep Hr Hb. cbn [steps_in_order]. destruct (decide (st0 = st)) as [->|Hne].
  - destruct (Hstep bound w Hr Hb) as (w' & Hw' & Hr'). exists w'. split; [|done].
    by rewrite (run_and_then _ _ _ _ _ _ Hw').
  - exists w. split; [|eapply resumable_later; [|done]; lia].
    by rewrite (run_and_then _ _ _ _ _ _ (aggregate_skip _ _ _ _ _ Hr Hne)).
Qed.

Lemma steps_reach_approval st bound w :
  st ∈ [RunStateExecuting; RunStateVerifying; RunStateReviewing; RunStateAwaitingApproval] ->
  resumable st bound (run_of w) -> bound + 2 < max_i64 ->
  exists w', run_prog serve (steps_in_order aggregate_step (run_of w) (aggregate_steps s key at_ evidence)) w =
      (Ok (run_of w'), w') /\
    resumable RunStateAwaitingApproval (bound + 1 + 1 + 1) (run_of w').
Proof.
  intros Hst Hr Hb. unfold aggregate_steps.
  edestruct next_step as (w1 & -> & H1'); [exact execution_step|exact Hr|lia|].
  edestruct next_step as (w2 & -> & H2'); [exact verification_step|exact H1'|lia|].
  edestruct next_step as (w3 & -> & H3'); [exact review_step|exact H2'|lia|].
  exists w3. split; [done|]. revert H3'.
  rewrite !elem_of_cons, elem_of_nil in Hst.
  destruct Hst as [->|[->|[->|[->|[]]]]]; done.
Qed.

Lemma aggregate_approves st bound w :
  st ∈ [RunStateExecuting; RunStateVerifying; RunStateReviewing; RunStateAwaitingApproval] ->
  resumable st bound (run_of w) -> bound + 3 < max_i64 ->
  exists w', run_prog serve (approve_aggregate s principal key at_ evidence approval (run_of w)) w =
      (Ok approval, w') /\
    Run_State (run_of w') = RunStateMergeReady /\
    Run_CandidateCommit (run_of w') = Evidence_Candidate evidence /\
    Run_Approval (run_of w') = Some (ApprovalArtifact approval).
Proof.
  intros Hst Hr Hb. destruct (steps_reach_approval st bound w Hst Hr) as (w1 & Hw1 & [Hv Es Hn Hc Hrw]); [lia|].
  destruct (Hrw eq_refl) as [review Ereview].
  assert (Hreview : ArtifactRef_Validate review = Ok tt).
  { pose proof (vr_review _ Hv) as Ho. unfold valid_optional in Ho. by rewrite Ereview in Ho. }
  unfold approve_aggregate. erewrite run_and_then by exact Hw1. rewrite Es, Ereview.
  set (m := humanMeta principal key at_ "approve-run" (Run_Revision (run_of w1))).
  assert (Hstep : exists r' events, run_step (run_of w1) (ApproveRun m (Run_ID (run_of w1))
      (Evidence_Candidate evidence) review (ApprovalArtifact approval)) = Ok (r', events) /\
    Run_State r' = RunStateMergeReady /\ Run_CandidateCommit r' = Evidence_Candidate evidence /\
    Run_Approval r' = Some (ApprovalArtifact approval)).
  { eexists _, _. split; [eapply (completion_step _ _ m); try done; [by rewrite Es|by apply step_valid|]|].
    - cbn [completion]. unfold Run_approve, Run_validateHumanReview, validateBoundArtifact.
      rewrite Es, Ereview, Hreview, approval_ok, (Hc ltac:(done)), (proj2 (ArtifactRef_Equal_eq _ _) eq_refl).
      by rewrite !bool_decide_eq_true_2.
    - cbn. by rewrite (Hc ltac:(done)). }
  destruct Hstep as (r' & events & Hstep & ? & ? & ?).
  destruct (serves_command _ _ _ _ Hstep) as (result & w' & Hw' & <-).
  exists w'. split; [|done]. by erewrite run_and_then; [|rewrite run_ask; exact Hw'].
Qed.

End approval.

(** What the approval of a run starts from: identifiers and evidence that the
    workflow takes. *)
Record approval_ready `{Platform} (s : Server) (principal : ApiPrincipal) (at_ : time)
    (evidence : task_evidence) (approval : ApprovalResult) : Prop := {
  ready_service : uuid_Parse_ok (service_actor s) = true;
  ready_principal : uuid_Parse_ok (Api_ID principal) = true;
  ready_decided : IsZero at_ = false;
  ready_execution : ArtifactRef_Validate (Evidence_Execution evidence) = Ok tt;
  ready_verification : ArtifactRef_Validate (Evidence_Verification evidence) = Ok tt;
  ready_review : ArtifactRef_Validate (Evidence_Review evidence) = Ok tt;
  ready_commit : commitPattern (Evidence_Candidate evidence) = true;
  ready_approval : ArtifactRef_Validate (ApprovalArtifact approval) = Ok tt;
}.

(** C20: The approval of a run can be repeated until it is through.  From each
    of the states EXECUTING, VERIFYING, REVIEWING and AWAITING_APPROVAL, with
    what the steps before have bound, the last part of the approval ends with
    the run in MERGE_READY, for the candidate of the task and bound to the
    approval that was stored, on any services whose workflow is the state
    machine of the run. *)
Theorem approval_reaches_merge_ready `{PlatformLaws} `{Protobuf} `{Wire} {W : Type}
    (serve : forall X, service X -> W -> X * W) (run_of : W -> Run) (s : Server)
    (principal : ApiPrincipal) (key : string) (at_ : time) (evidence : task_evidence)
    (approval : ApprovalResult) (st : RunState) (bound : Z) (w : W) :
  RunServices serve run_of -> approval_ready s principal at_ evidence approval ->
  st ∈ [RunStateExecuting; RunStateVerifying; RunStateReviewing; RunStateAwaitingApproval] ->
  resumable evidence st bound (run_of w) -> bound + 3 < max_i64 ->
  exists w', run_prog serve (approve_aggregate s principal key at_ evidence approval (run_of w)) w =
      (Ok approval, w') /\
    Run_State (run_of w') = RunStateMergeReady /\
    Run_CandidateCommit (run_of w') = Evidence_Candidate evidence /\
    Run_Approval (run_of w') = Some (ApprovalArtifact approval).
Proof. intros Hserve []. by apply aggregate_approves. Qed.
