(* ===== verification/CaSamples.v ===== *)
(** * Concrete requests of the control API

    A server, a workflow that is the state machine of one run, and requests
    that are evaluated against them. *)

From S2P Require Import Prelude GoStd GoJson PgRetry Programs WfTypes WfTask WfPlan WfRun WfRunProps WfDb WfStore WfCodec Samples.
From S2P Require Import RtLedger CtMessages ExRequest BetaPolicy RtBuilder RtBuilderProps RtBindings CtSamples.
From S2P Require Import Approval PbRequest CaIntake CaSupport CaServer CaServerProps CaApproval.

Definition sample_approver : ApiPrincipal :=
  mkApiPrincipal "human-1" (sha256_hex "secret") [RoleApprover; RoleOperator].

Definition sample_config : ServerConfig :=
  mkServerConfig [sample_approver] "service-1" 0 ["make-check-v1"] sample_policy false 0.

Definition sample_dependencies : list (string * bool) := [("workflow store", true); ("support reader", true)].

Definition sample_server : Server :=
  match Server_New sample_config sample_dependencies true with
  | Ok s => s
  | Err _ => mkServer sample_config [] ∅ false
  end.

(** A request body is a text of which the decoder knows the meaning. *)
Definition sample_body : mutationBody := mkMutationBody "run-1" hex40 "intake" "" "" "no more use" false (at_time 100).

Definition sample_surroundings : request_surroundings :=
  mkRequestSurroundings sample_put (fun _ => Ok "task TASK-001") (fun _ => Ok (sample_body, ""))
    (fun rest => rest == "") (fun _ => Err ErrInvalid) (fun _ => Err ErrInvalid) (fun _ => Err ErrInvalid)
    (fun _ => Err ErrInvalid)
    (fun _ => Ok (mkExecutionReport "1" "" "" "run-1" "task-1" 1 (art "p") (sample_lease 1) hex40 hex40 ""
                    (mkExLimits 1 1 1 1) []))
    (fun n => if (n =? 1)%nat then 1%nat else 0%nat).

Definition sample_http (path if_match : string) : http_request :=
  mkHttpRequest "POST" path path "" "Bearer secret" "key-1" if_match (Ok "body").

(** The state machine of a run, and a service of each kind that agrees. *)
Definition sample_serve (X : Type) (c : service X) (r : Run) : X * Run :=
  match c in service X return X * Run with
  | CallReady => (Ok tt, r)
  | CallExecuteRun command =>
      match run_step r command with
      | Ok (r', _) =>
          (Ok (mkCommandResult (Run_ID r') (RunState_string (Run_State r')) (Run_Revision r') [] [] false), r')
      | Err e => (Err e, r)
      end
  | CallExecuteTask _ => (Err ErrNotFound, r)
  | CallGetRun id => (if id == Run_ID r then Ok r else Err ErrNotFound, r)
  | CallGetTask _ _ => (Ok accepted_task, r)
  | CallListTasks _ => (Ok [accepted_task], r)
  | CallListEvents _ => (Ok [], r)
  | CallListPendingApprovals => (Ok [], r)
  | CallBeginIdempotency _ => (Ok (mkIdemResult 0 None false 7), r)
  | CallCompleteIdempotency _ _ _ _ => (Ok tt, r)
  | CallAbandonIdempotency _ _ => (Ok tt, r)
  | CallRenewIdempotency _ _ _ => (Ok tt, r)
  | CallEnqueue _ => (Ok tt, r)
  | CallCancelRunJobs _ _ => (Ok tt, r)
  | CallRunStages _ => (Ok [], r)
  | CallGetRunBinding id =>
      (Ok (mkRunBinding id (art "intake") hex40 None None "" "" (Some (art "spec")) None None (at_time 1)), r)
  | CallGetTaskBinding run task => (Ok (mkTaskBinding run task (art "task")), r)
  | CallCheckpointSpecification _ _ => (Ok tt, r)
  | CallCheckpointApproval _ _ => (Ok tt, r)
  | CallAccept request => (Ok (mkIdemResult 201 (Some JNull) false 1), r)
  | CallApproveTaskGraph _ => (Err ErrInvalid, r)
  | CallApproveTask request => (Ok (mkApprovalResult (ApprovalID request) "approve" (art "approval") false [] false), r)
  | CallPublish _ => (Err ErrInvalid, r)
  | CallReasoningDiagnostics _ => (Ok [], r)
  end.

#[export] Instance sample_services : RunServices sample_serve (fun r => r).
Proof.
  split.
  - intros command r r' events Hr. cbn. rewrite Hr. by eexists _, _.
  - intros r. cbn. rewrite bool_decide_eq_true_2 by done. by exists r.
Qed.

Lemma sample_workflow {A} (p : prog service A) r : Forall workflow_answered (run_history sample_serve p r).
Proof.
  revert r. induction p as [a|X c k IH]; intros r; [constructor|]. cbn [run_history].
  destruct (sample_serve X c r) as [answer r'] eqn:E. constructor; [|apply IH].
  destruct c; try done. cbn in E |- *. intros result ->.
  destruct (run_step r command) as [[next events]|e] eqn:Es; [|done]. by eexists _, _, _.
Qed.

(** A run whose only task is accepted. *)
Definition executing_run : Run :=
  result sample_run (run_steps sample_run (plan_commands ++ take 1 completion_commands)).

Definition serve_request (request : http_request) : list (event (service := service)) * (http_response * Run) :=
  let p := serveHTTP (fun _ => false) sample_server sample_surroundings (mkCounters 0 0 0) request in
  (run_history sample_serve p executing_run, run_prog sample_serve p executing_run).

Definition approval_served : list event * (http_response * Run) :=
  serve_request (sample_http "/v1/runs/run-1/approval" (revisionETag 6)).

Definition cancellation_served : list event * (http_response * Run) :=
  serve_request (sample_http "/v1/runs/run-1/cancel" (revisionETag 6)).

(** The approval goes through, with sixteen calls and a
    renewal, and is answered; the
    cancellation is answered 403 and changes nothing. *)
Example approval_answered :
  Rs_Status (fst (snd approval_served)) = 200 /\ Run_State (snd (snd approval_served)) = RunStateMergeReady /\
  length (fst approval_served) = 17%nat.
Proof. by vm_compute. Qed.

Example cancellation_answered :
  Rs_Status (fst (snd cancellation_served)) = 403 /\ snd (snd cancellation_served) = executing_run.
Proof. by vm_compute. Qed.

(** An approver without the elevated role who approves a change of elevated
    risk is answered as if the server had failed. *)
Example elevated_role_answered_500 : fst (domainError ErrElevatedRole) = 500.
Proof. reflexivity. Qed.

(** ** Witnesses *)

Lemma api_within_authority_witness :
  length (fst approval_served) = 17%nat /\
  Forall (allowed_event (authorized sample_server (sample_http "/v1/runs/run-1/approval" (revisionETag 6))))
    (fst approval_served).
Proof.
  split; [by vm_compute|].
  exact (api_within_authority (fun _ => false) sample_server sample_surroundings (mkCounters 0 0 0)
    (sample_http "/v1/runs/run-1/approval" (revisionETag 6)) _ _ (run_exec sample_serve _ executing_run)).
Defined.

Lemma components_accept_requests_witness :
  length (fst approval_served) = 17%nat /\
  Forall (allowed_event (accepted (fun _ => false) (sample_http "/v1/runs/run-1/approval" (revisionETag 6))))
    (fst approval_served).
Proof.
  split; [by vm_compute|].
  refine (components_accept_requests (fun _ => false) sample_config sample_dependencies true sample_server
    sample_surroundings (mkCounters 0 0 0) (sample_http "/v1/runs/run-1/approval" (revisionETag 6)) _ _
    _ (run_exec sample_serve _ executing_run)).
  by vm_compute.
Defined.

Definition sample_idem : IdempotencyRequest :=
  mkIdemRequest "key-1" "POST" "/v1/runs/run-1/cancel" "human-1" (sha256_hex "body") defaultReservationTTL.

Definition sample_mutation : prog service http_response :=
  reserved_mutation (fun _ => false) sample_server sample_surroundings
    (sample_http "/v1/runs/run-1/cancel" (revisionETag 6)) sample_approver sample_body sample_idem.

(** The work has two calls, the second of them after a renewal, and the cancellation that failed
    is recorded as the outcome. *)
Definition mutation_calls : list event := tl (run_history sample_serve sample_mutation executing_run).

Lemma mutation_history :
  run_history sample_serve sample_mutation executing_run =
  called _ (CallBeginIdempotency sample_idem) (Ok (mkIdemResult 0 None false 7)) :: mutation_calls.
Proof. vm_compute. reflexivity. Qed.

(** The answer to the reservation that a history begins with. *)
Definition reservation_answer (history : list (event (service := service))) : option (res IdempotencyResult) :=
  match history with
  | e :: _ =>
      match ev_call e in service X return X -> option (res IdempotencyResult) with
      | CallBeginIdempotency _ => Some
      | _ => fun _ => None
      end (ev_answer e)
  | [] => None
  end.

Lemma mutation_settles_reservation_witness :
  length mutation_calls = 4%nat /\
  exists work r answer, Forall (allowed_event reserves_nothing) work /\
    interspersed (CallRenewIdempotency "key-1" 7 defaultReservationTTL) true
      (work ++ [settlement "key-1" 7 r answer]) mutation_calls.
Proof.
  split; [by vm_compute|].
  destruct (mutation_settles_reservation (fun _ => false) sample_server sample_surroundings
    (sample_http "/v1/runs/run-1/cancel" (revisionETag 6)) sample_approver sample_body sample_idem
    _ _ eq_refl (run_exec sample_serve sample_mutation executing_run)) as (begun & rest & Hh & Hc).
  rewrite mutation_history in Hh. pose proof (f_equal reservation_answer Hh) as Hb.
  apply (f_equal tl) in Hh. cbn in Hb, Hh. injection Hb as <-. subst rest.
  destruct Hc as (work & r & answer & _ & Hw & Hi & _). exists work, r, answer. by split.
Defined.

Definition sample_cancellation : prog service (res (Z * mutation_answer)) :=
  mutateRun (fun _ => false) sample_server sample_surroundings (revisionETag 6) sample_approver "key-1"
    sample_body "run-1" "/cancel".

Lemma cancel_route_never_cancels_witness :
  length (run_history sample_serve sample_cancellation executing_run) = 2%nat /\
  exists e, fst (run_prog sample_serve sample_cancellation executing_run) = Err e.
Proof.
  split; [by vm_compute|].
  refine (proj1 (cancel_route_never_cancels (fun _ => false) sample_server sample_surroundings (revisionETag 6)
    "key-1" "run-1" sample_approver sample_body _ _ (run_exec sample_serve sample_cancellation executing_run) _)).
  apply sample_workflow.
Defined.

Lemma revision_round_trip_witness : 0 <= 2 ^ 64 - 1 < 2 ^ 64 /\
  requiredRevision (revisionETag (2 ^ 64 - 1)) = Some (2 ^ 64 - 1).
Proof. split; [lia|]. apply (revision_round_trip (2 ^ 64 - 1)). lia. Defined.

Definition sample_evidence : task_evidence := mkTaskEvidence (art "e") (art "v") (art "r") (art "p") hex40.

Definition sample_task_approval : ApprovalResult := mkApprovalResult "ap-1" "approve" (art "approval") false [] false.

Lemma executing_resumable : resumable sample_evidence RunStateExecuting 6 executing_run.
Proof. split; [apply Run_Validate_Ok; by vm_compute|done|by vm_compute|done|done]. Qed.

Lemma approval_reaches_merge_ready_witness :
  exists r', run_prog sample_serve
      (approve_aggregate sample_server sample_approver "key-1" (at_time 100) sample_evidence
        sample_task_approval executing_run) executing_run = (Ok sample_task_approval, r') /\
    Run_State r' = RunStateMergeReady /\ Run_CandidateCommit r' = hex40 /\
    Run_Approval r' = Some (art "approval").
Proof.
  apply (approval_reaches_merge_ready sample_serve (fun r => r) sample_server sample_approver "key-1"
    (at_time 100) sample_evidence sample_task_approval RunStateExecuting 6 executing_run).
  - apply sample_services.
  - by split; vm_compute.
  - by left.
  - apply executing_resumable.
  - done.
Defined.
